(* ===== verification/_CoqProject ===== *)
-Q . S2P
Prelude.v
Id.v
Utlist.v
PrioPool.v
EfirstPool.v
Timer.v
Shutdown.v
Request.v
Arena.v
RequestLife.v
HandleCache.v
Wire.v
BulkPool.v
Json.v
AbtConfig.v
AbtTables.v
AbtStart.v
Logging.v
Environ.v
Profiling.v
Config.v
HgConfig.v
Plumber.v
Init.v
Sanity.v
Rpc.v
Services.v
Instance.v
Progress.v
Handler.v
Stats.v
Monitor.v
MonitorCalls.v
MonitorJson.v
MonitorInit.v
Uthash.v
AbtxProf.v
AbtxInv.v
AbtxRuns.v
AbtxPrint.v
AbtxMargo.v
Info.v
Sleep.v
AbtxText.v
