(* ===== verification/Prelude.v ===== *)
(** * Margo: a verification development

    Margo (src/src/, headers in src/include/) runs Mercury's RPCs on Argobots'
    user-level threads.  This library models the logic of its own: what Margo
    keeps in its structures and does to them between two calls of Mercury,
    Argobots, json-c or the C library.

    ** Conventions

    A C integer is the [Z] in its range, with [u8], [u16], [u32], [u64] and [i32]
    where an operation can leave it.  Pointers are locations in explicit stores
    ([gmap]), [None] or 0 for NULL; a function whose result is [None] where no
    NULL is meant dereferences a dangling or NULL pointer, or has no fuel left,
    which its comment says.  A call of another library is an argument that holds
    its result (a code, a handle, or a record of those of a whole function, an
    [oracle]), a class with the laws that its documentation promises, or an event
    of a trace.  Functions that run while a mutex is held are one step; where
    threads meet, a relation [step], [lstep], [cstep] or [bstep] has one rule for
    each atomic action, and theorems quantify over all its runs.  A mutex or
    condition variable is what the code does under it.  Allocation succeeds unless
    the function tests it.  Fuel is always the length of what a loop consumes plus
    one, and theorems prove that it is enough.

    ** Files

    - Prelude: integers, Mercury's return codes, general lemmas.
    - Id: margo-id.h and the Jenkins hash of uthash.h.  Clients and providers
      compute the same id of an RPC; ids can be taken apart again.
    - Utlist: the list macros of utlist.h on a store of links.
    - PrioPool, EfirstPool: the Argobots pools of margo-prio-pool.c (two queues)
      and margo-efirst-pool.c (a heap of young units and a list of old ones).
      What a push and a pop do, and that no unit starves.
    - Timer: margo-timer.c.  The queue stays sorted, expired timers fire once and
      in order, a canceled timer never runs.
    - Shutdown: finalization, callbacks and references in margo-core.c, with the
      word of pending operations of margo-instance.h.
    - Request: submission, completion, timeouts and waiting in margo-core.c, on
      every code that Mercury may return; RequestLife: request objects between
      margo_cb, waiters and the arena.
    - Arena: mochi-arena.c, with the list of free objects inside the memory.
    - HandleCache: margo-handle-cache.c with margo_create and margo_destroy.
    - Wire: margo-serialization.h, margo-hg-shim.c and the functions of
      margo-core.c that decode inputs and outputs.
    - BulkPool: margo-bulk-pool.c.
    - Json: margo-macros.h, accessors and checks of JSON configurations.
    - AbtConfig: margo-abt-config.c, the tables of pools and execution streams;
      AbtTables: their invariant and the directory they refine; AbtStart: starting
      from a validated configuration, and writing it back.
    - Config: margo-config.c, the same tables in a running instance.
    - Logging: margo-logging.c, levels and loggers.  Environ: the variables that
      Argobots is initialised with, in margo-init.c, margo-util.c and
      margo-abt-config.c.  Profiling: the use of the profiler and the files of
      dumps, in margo-abt-profiling.c.
    - HgConfig: margo-hg-config.c, validation, initialisation, destruction and JSON
      of the Mercury part of an instance.  Plumber: mochi-plumber.c, the choice of a
      network card.
    - Init: margo-init.c, the validation of the whole configuration and the choice
      of the progress and RPC pools; Sanity: the warnings about pools that no
      stream serves in time.
    - Rpc: registration in margo-core.c, with the references RPCs hold on pools
      (class [Registry] for Mercury's table).
    - Progress: __margo_hg_progress_fn of margo-core.c, with the timeouts it gives to
      Mercury, and the when-needed mode of margo-instance.h.
    - Handler: the macros of margo.h that receive an RPC and run its ULT.
    - Services: the RPC of identities (margo-identity.c) and the remote shutdown of
      margo-init.c and margo-core.c, on the client and on the server.
    - Instance: margo_init_ext of margo-init.c from its arguments to the instance,
      with its error path, the functions of margo-core.c above it and those that
      change its parameters, and margo_get_config_opt of margo-config.c.
    - Stats, Monitor, MonitorCalls, MonitorJson, MonitorInit: the default monitor of
      margo-default-monitoring.c - running statistics and time series; the tables
      and what each callback does to them; sequences of callbacks; the files it
      writes; its configuration.
    - Uthash: the hash tables of uthash.h that the monitor uses, with their chains
      and their growth, which refine the association lists of Monitor.
    - AbtxProf, AbtxInv, AbtxRuns, AbtxPrint, AbtxMargo, AbtxText: the Argobots
      profiler of abtx_prof.h - its data, its callback on the events of threads and
      its operations; the records of streams and threads in their blocks of memory;
      runs of events and operations; what is read and printed; the calls that
      Profiling makes of it, which always succeed; the text of its tables, where a
      double is a rational number.
    - Info: margo-info.c, the tool that tries every transport.
    - Sleep: margo_thread_sleep of margo-core.c on the list of Timer.

    The components meet in few places: Request takes its timers, arena objects
    and pending counts as events of its trace, which Timer, Arena (class
    [ObjectPool], used by RequestLife) and Shutdown model; HandleCache uses
    Utlist's lists; the pools that AbtConfig asks Argobots to create are those of
    PrioPool and EfirstPool; Config calls AbtConfig and its theorems are proved
    from the invariant of AbtTables; Sleep and Progress run on Timer's list;
    AbtxMargo runs the calls of Profiling on the state of AbtxProf.

    ** Theorems

    Each property has a numbered comment, in order of importance.  Most say that a
    component keeps its invariant and computes what it means to, for every result
    of the libraries and every interleaving.  Those on errors prove a defect of
    the code on the states where it shows; the theorem before or after them says
    what holds without it.

    ** Not modelled

    Mercury, Argobots, json-c and libc themselves; monitors other than the default
    one, whose calls change nothing else (Config has their order); the text of
    dumps and messages, and of abtx_prof.h its clock and the build with
    clocks local to a thread; the functions of margo-core.c that only
    wrap a call of Mercury (addresses, bulk handles) or read a field; what nobody
    calls of uthash.h and utlist.h; a NULL instance given to margo-config.c;
    Argobots versions from 2.0 on, and building without the options that the code
    tests. *)

From Stdlib Require Export ZArith Lia.
From stdpp Require Export base tactics decidable option gmap numbers relations list.

(** ** Scope and notations of the development *)

Declare Scope margo_scope.
Delimit Scope margo_scope with margo.

#[global] Open Scope Z_scope.

(** ** Machine integers

    A C integer of width [w] is the [Z] in its range; every arithmetic
    operation of the source that can leave the range is followed by the
    wrap-around of its type. *)

Definition u8 (x : Z) : Z := x mod 2 ^ 8.
Definition u16 (x : Z) : Z := x mod 2 ^ 16.
Definition u32 (x : Z) : Z := x mod 2 ^ 32.
Definition u64 (x : Z) : Z := x mod 2 ^ 64.

(** Two's complement reading of the low 32 bits. *)
Definition i32 (x : Z) : Z := (x + 2 ^ 31) mod 2 ^ 32 - 2 ^ 31.

Definition is_u8 (x : Z) : Prop := 0 <= x < 2 ^ 8.
Definition is_u16 (x : Z) : Prop := 0 <= x < 2 ^ 16.
Definition is_u32 (x : Z) : Prop := 0 <= x < 2 ^ 32.
Definition is_u64 (x : Z) : Prop := 0 <= x < 2 ^ 64.

Create HintDb margo discriminated.

Lemma u8_range x : is_u8 (u8 x).
Proof. unfold is_u8, u8. apply Z.mod_pos_bound. lia. Qed.
Lemma u16_range x : is_u16 (u16 x).
Proof. unfold is_u16, u16. apply Z.mod_pos_bound. lia. Qed.
Lemma u32_range x : is_u32 (u32 x).
Proof. unfold is_u32, u32. apply Z.mod_pos_bound. lia. Qed.
Lemma u64_range x : is_u64 (u64 x).
Proof. unfold is_u64, u64. apply Z.mod_pos_bound. lia. Qed.
Lemma u64_add_l a b : u64 (u64 a + b) = u64 (a + b).
Proof. unfold u64. apply Zplus_mod_idemp_l. Qed.
Lemma u64_add_r a b : u64 (a + u64 b) = u64 (a + b).
Proof. unfold u64. apply Zplus_mod_idemp_r. Qed.

Lemma u16_id x : is_u16 x -> u16 x = x.
Proof. apply Z.mod_small. Qed.
Lemma u32_id x : is_u32 x -> u32 x = x.
Proof. apply Z.mod_small. Qed.
Lemma u64_id x : is_u64 x -> u64 x = x.
Proof. apply Z.mod_small. Qed.

#[export] Hint Resolve u8_range u16_range u32_range u64_range : margo.

(** ** Arithmetic helpers *)

(** Bits of a bounded number. *)
Lemma testbit_bounded x n i : 0 <= n -> 0 <= x < 2 ^ n -> n <= i -> Z.testbit x i = false.
Proof.
  intros Hn Hx Hi. rewrite <- (Z.mod_small x (2 ^ n)) by lia.
  apply Z.mod_pow2_bits_high. lia.
Qed.

(** Filling the low bits of a shifted word: the two fields do not overlap. *)
Lemma lor_shiftl_add hi lo n :
  0 <= n -> 0 <= lo < 2 ^ n -> Z.lor (Z.shiftl hi n) lo = hi * 2 ^ n + lo.
Proof.
  intros Hn Hlo. rewrite <- Z.shiftl_mul_pow2, <- Z.add_lor_land by lia.
  replace (Z.land (Z.shiftl hi n) lo) with 0; [lia|].
  apply Z.bits_inj'. intros i Hi. rewrite Z.bits_0, Z.land_spec.
  destruct (decide (i < n)).
  - by rewrite Z.shiftl_spec_low.
  - rewrite (testbit_bounded lo n i) by lia. by rewrite andb_false_r.
Qed.

Lemma lor_mul_add hi lo n :
  0 <= n -> 0 <= lo < 2 ^ n -> Z.lor (hi * 2 ^ n) lo = hi * 2 ^ n + lo.
Proof. intros. rewrite <- lor_shiftl_add by done. by rewrite Z.shiftl_mul_pow2. Qed.

(** Clearing the low [n] bits by shifting right and left again. *)
Lemma shiftl_shiftr x n : 0 <= n -> Z.shiftl (Z.shiftr x n) n = x / 2 ^ n * 2 ^ n.
Proof. intros. by rewrite Z.shiftr_div_pow2, Z.shiftl_mul_pow2. Qed.

(** Two's complement conversion does nothing to a number in range. *)
Lemma i32_id x : - 2 ^ 31 <= x < 2 ^ 31 -> i32 x = x.
Proof. intros. unfold i32. rewrite Z.mod_small; lia. Qed.

(** ** Maps *)

(** Distinct keys of a map are at most as many as its entries. *)
Lemma length_le_size `{Countable K} {A} (m : gmap K A) (l : list K) :
  NoDup l -> (forall t, t ∈ l -> is_Some (m !! t)) -> (length l <= size m)%nat.
Proof.
  intros Hnd Hl. rewrite <- (size_list_to_set (C := gset K)), <- size_dom by done.
  apply subseteq_size. intros t Ht%elem_of_list_to_set. apply elem_of_dom. auto.
Qed.

(** ** Return codes of Mercury

    The codes Margo tests or returns; [HG_code] is any other value, such as
    the -1 that some Margo functions store in an [hg_return_t]. *)

Inductive hg_return_t :=
  | HG_SUCCESS | HG_PERMISSION | HG_NOENTRY | HG_NOMEM_ERROR | HG_INVALID_ARG | HG_INVALID_PARAM
  | HG_OTHER_ERROR | HG_TIMEOUT | HG_CANCELED | HG_NO_MATCH | HG_CHECKSUM_ERROR | HG_code (n : Z).

#[export] Instance hg_return_t_eq_dec : EqDecision hg_return_t.
Proof. solve_decision. Defined.

Definition is_success (h : hg_return_t) : bool := bool_decide (h = HG_SUCCESS).

Lemma is_success_true h : is_success h = true <-> h = HG_SUCCESS.
Proof. apply bool_decide_eq_true. Qed.
Lemma is_success_false h : is_success h = false <-> h ≠ HG_SUCCESS.
Proof. apply bool_decide_eq_false. Qed.

(** The code stored for an [int] result: 0 is HG_SUCCESS. *)
Definition code_of_int (n : Z) : hg_return_t := if n =? 0 then HG_SUCCESS else HG_code n.
