(* ===== verification/Id.v ===== *)
(** * RPC identifiers (src/margo-id.h, HASH_JEN of src/uthash.h)

    A Margo RPC is known to Mercury by a 64-bit [hg_id_t] that carries a hash
    of the RPC's name in its high bits and a 16-bit provider id in its low
    bits.  This file models the Jenkins hash macro, the three functions that
    build and take apart identifiers, and shows that the client, which
    replaces the provider id of a registered id, computes the very id under
    which the provider registered the RPC. *)

From stdpp Require Import strings.
From Stdlib Require Import Ascii.
From S2P Require Import Prelude.

(** ** The Jenkins hash (macros HASH_JEN_MIX and HASH_JEN) *)

Section Jenkins.

(** Operators of [unsigned], 32 bits wide. *)
Local Notation "x -. y" := (u32 (x - y)) (at level 50, left associativity).
Local Notation "x +. y" := (u32 (x + y)) (at level 50, left associativity).
Local Notation "x <<. n" := (u32 (Z.shiftl x n)) (at level 35).
Local Notation "x >>. n" := (Z.shiftr x n) (at level 35).

Definition HASH_JEN_MIX (a b c : Z) : Z * Z * Z :=
  let a := a -. b in let a := a -. c in let a := Z.lxor a (c >>. 13) in
  let b := b -. c in let b := b -. a in let b := Z.lxor b (a <<. 8) in
  let c := c -. a in let c := c -. b in let c := Z.lxor c (b >>. 13) in
  let a := a -. b in let a := a -. c in let a := Z.lxor a (c >>. 12) in
  let b := b -. c in let b := b -. a in let b := Z.lxor b (a <<. 16) in
  let c := c -. a in let c := c -. b in let c := Z.lxor c (b >>. 5) in
  let a := a -. b in let a := a -. c in let a := Z.lxor a (c >>. 3) in
  let b := b -. c in let b := b -. a in let b := Z.lxor b (a <<. 10) in
  let c := c -. a in let c := c -. b in let c := Z.lxor c (b >>. 15) in
  (a, b, c).

(** Four key bytes read as a little-endian word. *)
Definition jen_word (k0 k1 k2 k3 : Z) : Z :=
  k0 +. (k1 <<. 8) +. (k2 <<. 16) +. (k3 <<. 24).

(** The [while (_hj_k >= 12U)] loop: [key] is the rest of the key, [k] the
    number of bytes left to read. *)
Fixpoint jen_loop (key : list Z) (k i j hashv : Z) : list Z * Z * Z * Z * Z :=
  match key with
  | k0 :: k1 :: k2 :: k3 :: k4 :: k5 :: k6 :: k7 :: k8 :: k9 :: k10 :: k11 :: rest =>
      if 12 <=? k then
        let i := i +. jen_word k0 k1 k2 k3 in
        let j := j +. jen_word k4 k5 k6 k7 in
        let hashv := hashv +. jen_word k8 k9 k10 k11 in
        let '(i, j, hashv) := HASH_JEN_MIX i j hashv in
        jen_loop rest (k - 12) i j hashv
      else (key, k, i, j, hashv)
  | _ => (key, k, i, j, hashv)
  end.

(** One case of the fall-through [switch (_hj_k)]: executed when at least
    [n + 1] bytes are left. *)
Definition jen_case (key : list Z) (k : Z) (n : nat) (shift acc : Z) : Z :=
  if Z.of_nat n <? k then acc +. (nth n key 0 <<. shift) else acc.

Definition HASH_JEN (key : list Z) (keylen : Z) : Z :=
  let '(key, k, i, j, hashv) :=
    jen_loop key (u32 keylen) 0x9e3779b9 0x9e3779b9 0xfeedbeef in
  let hashv := hashv +. u32 keylen in
  let hashv := jen_case key k 10 24 hashv in
  let hashv := jen_case key k 9 16 hashv in
  let hashv := jen_case key k 8 8 hashv in
  let j := jen_case key k 7 24 j in
  let j := jen_case key k 6 16 j in
  let j := jen_case key k 5 8 j in
  let j := jen_case key k 4 0 j in
  let i := jen_case key k 3 24 i in
  let i := jen_case key k 2 16 i in
  let i := jen_case key k 1 8 i in
  let i := jen_case key k 0 0 i in
  let '(_, _, hashv) := HASH_JEN_MIX i j hashv in
  hashv.

End Jenkins.

(** The bytes of a C string: the characters before the first NUL. *)
Fixpoint c_bytes (s : string) : list Z :=
  match s with
  | EmptyString => []
  | String c s' =>
      let b := Z.of_N (N_of_ascii c) in
      if b =? 0 then [] else b :: c_bytes s'
  end.

Definition strlen (s : string) : Z := Z.of_nat (length (c_bytes s)).

(** ** Identifiers *)

(** [__MARGO_PROVIDER_ID_SIZE]: [sizeof(hg_id_t) / 4] with a 64-bit
    [hg_id_t]. *)
Definition MARGO_PROVIDER_ID_SIZE : Z := 8 / 4.
Definition MARGO_DEFAULT_PROVIDER_ID : Z := 0xFFFF.
Definition MARGO_MAX_PROVIDER_ID : Z := Z.shiftl 1 (8 * MARGO_PROVIDER_ID_SIZE) - 1.

Definition demux_id (id : Z) : Z * Z :=
  let provider_id := u16 (0 + Z.land id (Z.shiftl 1 (MARGO_PROVIDER_ID_SIZE * 8) - 1)) in
  let base_id :=
    u64 (Z.shiftl (Z.shiftr id (MARGO_PROVIDER_ID_SIZE * 8)) (MARGO_PROVIDER_ID_SIZE * 8)) in
  let base_id := Z.lor base_id MARGO_MAX_PROVIDER_ID in
  (base_id, provider_id).

Definition mux_id (base_id provider_id : Z) : Z :=
  let id :=
    u64 (Z.shiftl (Z.shiftr base_id (MARGO_PROVIDER_ID_SIZE * 8)) (MARGO_PROVIDER_ID_SIZE * 8)) in
  Z.lor id provider_id.

(** [hg_ge_2_3] is the preprocessor condition on the Mercury version. *)
Definition gen_id (hg_ge_2_3 : bool) (func_name : string) (provider_id : Z) : Z :=
  let hashval := HASH_JEN (c_bytes func_name) (strlen func_name) in
  if hg_ge_2_3 then
    let id := hashval in
    let id := u64 (Z.shiftl id 32) in
    Z.lor id provider_id
  else
    let id := u32 (Z.shiftl hashval (MARGO_PROVIDER_ID_SIZE * 8)) in
    Z.lor id provider_id.

(** ** Ranges *)

Lemma lxor_u32 a b : is_u32 a -> is_u32 b -> is_u32 (Z.lxor a b).
Proof.
  unfold is_u32. intros Ha Hb.
  assert (0 <= Z.lxor a b) by (apply Z.lxor_nonneg; lia).
  split; [done|].
  destruct (Z.lt_ge_cases (Z.lxor a b) (2 ^ 32)) as [|Hge]; [done|exfalso].
  assert (Hlog : 32 <= Z.log2 (Z.lxor a b)) by (apply Z.log2_le_pow2; lia).
  assert (Hpos : 0 < Z.lxor a b) by lia.
  pose proof (Z.bit_log2 _ Hpos) as Hbit. rewrite Z.lxor_spec in Hbit.
  rewrite !(testbit_bounded _ 32) in Hbit by lia. done.
Qed.

Lemma shiftr_u32 a n : 0 <= n -> is_u32 a -> is_u32 (Z.shiftr a n).
Proof.
  unfold is_u32. intros Hn Ha. rewrite Z.shiftr_div_pow2 by done.
  assert (1 <= 2 ^ n) by (apply Z.pow_le_mono_r with (b := 0) (c := n) (a := 2); lia).
  split; [apply Z.div_pos; lia|].
  apply Z.le_lt_trans with a; [|lia]. apply Z.div_le_upper_bound; nia.
Qed.

#[local] Hint Resolve lxor_u32 shiftr_u32 : margo.

Definition is_u32_triple (t : Z * Z * Z) : Prop :=
  let '(a, b, c) := t in is_u32 a /\ is_u32 b /\ is_u32 c.

(** The mixing step stays inside [unsigned], whatever it is given. *)
Lemma HASH_JEN_MIX_range a b c :
  is_u32 a -> is_u32 b -> is_u32 c -> is_u32_triple (HASH_JEN_MIX a b c).
Proof.
  intros Ha Hb Hc. unfold HASH_JEN_MIX, is_u32_triple. cbv zeta.
  repeat match goal with
  | |- context [u32 (?x - ?y)] =>
      let z := fresh "z" in set (z := u32 (x - y)); assert (is_u32 z) by apply u32_range;
      clearbody z
  | |- context [Z.lxor ?x (Z.shiftr ?y ?n)] =>
      let z := fresh "z" in set (z := Z.lxor x (Z.shiftr y n));
      assert (is_u32 z) by (apply lxor_u32; [assumption|apply shiftr_u32; [lia|assumption]]);
      clearbody z
  | |- context [Z.lxor ?x (u32 ?y)] =>
      let z := fresh "z" in set (z := Z.lxor x (u32 y));
      assert (is_u32 z) by (apply lxor_u32; [assumption|apply u32_range]);
      clearbody z
  end. auto.
Qed.

Lemma jen_case_range key k n sh acc : is_u32 acc -> is_u32 (jen_case key k n sh acc).
Proof. intros. unfold jen_case. case_match; auto with margo. Qed.

Lemma jen_loop_range n : forall key k i j h,
  (length key <= n)%nat -> is_u32 i -> is_u32 j -> is_u32 h ->
  let '(_, _, i', j', h') := jen_loop key k i j h in is_u32_triple (i', j', h').
Proof.
  induction n as [n IH] using lt_wf_ind. intros key k i j h Hn Hi Hj Hh.
  do 12 (destruct key as [|? key]; [by simpl|]).
  cbn [jen_loop]. destruct (12 <=? k); [|by simpl].
  match goal with |- context [HASH_JEN_MIX ?a ?b ?c] =>
    pose proof (HASH_JEN_MIX_range a b c (u32_range _) (u32_range _) (u32_range _)) as Hm;
    destruct (HASH_JEN_MIX a b c) as [[a' b'] c'] end.
  destruct Hm as (?&?&?). simpl in Hn.
  apply (IH (length key)); [lia|lia|done..].
Qed.

Lemma HASH_JEN_range key keylen : is_u32 (HASH_JEN key keylen).
Proof.
  unfold HASH_JEN.
  pose proof (jen_loop_range (length key) key (u32 keylen) 0x9e3779b9 0x9e3779b9 0xfeedbeef) as H.
  destruct (jen_loop _ _ _ _ _) as [[[[key' k] i] j] h].
  destruct H as (Hi & Hj & Hh); [lia|by unfold is_u32..|].
  match goal with |- context [HASH_JEN_MIX ?a ?b ?c] =>
    assert (is_u32_triple (HASH_JEN_MIX a b c)) as Hm
      by (apply HASH_JEN_MIX_range; repeat apply jen_case_range; auto with margo);
    destruct (HASH_JEN_MIX a b c) as [[a' b'] c'] end.
  by destruct Hm as (_ & _ & ?).
Qed.

(** ** Arithmetic reading of the identifier functions *)

Lemma provider_bits : MARGO_PROVIDER_ID_SIZE * 8 = 16.
Proof. reflexivity. Qed.

Lemma high_part_range x : is_u64 x -> is_u64 (x / 2 ^ 16 * 2 ^ 16).
Proof. unfold is_u64. intros. pose proof (Z.mod_pos_bound x (2 ^ 16)). pose proof (Z.div_mod x (2^16)). lia. Qed.

Lemma mux_id_arith b p : is_u64 b -> is_u16 p -> mux_id b p = b / 2 ^ 16 * 2 ^ 16 + p.
Proof.
  intros Hb Hp. unfold mux_id. rewrite provider_bits.
  rewrite shiftl_shiftr, u64_id by (auto using high_part_range; lia).
  apply lor_mul_add; unfold is_u16 in *; lia.
Qed.

Lemma demux_id_arith id :
  is_u64 id -> demux_id id = (id / 2 ^ 16 * 2 ^ 16 + 0xFFFF, id mod 2 ^ 16).
Proof.
  intros Hid. unfold demux_id. rewrite provider_bits. f_equal.
  - change MARGO_MAX_PROVIDER_ID with 0xFFFF.
    rewrite shiftl_shiftr, u64_id by (auto using high_part_range; lia).
    apply lor_mul_add; lia.
  - change (Z.shiftl 1 16 - 1) with (Z.ones 16). rewrite Z.land_ones by lia.
    rewrite Z.add_0_l. apply u16_id, (u16_range id).
Qed.

Lemma gen_id_arith v name p :
  is_u16 p ->
  gen_id v name p =
    (if v then HASH_JEN (c_bytes name) (strlen name) * 2 ^ 16
     else HASH_JEN (c_bytes name) (strlen name) mod 2 ^ 16) * 2 ^ 16 + p.
Proof.
  intros Hp. unfold gen_id, is_u16 in *.
  pose proof (HASH_JEN_range (c_bytes name) (strlen name)) as Hh.
  set (h := HASH_JEN _ _) in *. clearbody h. unfold is_u32 in Hh.
  destruct v.
  - unfold u64. rewrite Z.shiftl_mul_pow2, Z.mod_small by lia.
    rewrite lor_mul_add by lia. lia.
  - rewrite provider_bits. unfold u32. rewrite Z.shiftl_mul_pow2 by lia.
    change (2 ^ 32) with (2 ^ 16 * 2 ^ 16). rewrite Z.mul_mod_distr_r by lia.
    rewrite lor_mul_add by lia. lia.
Qed.

Lemma mod_add_mul x p : is_u16 p -> (x * 2 ^ 16 + p) mod 2 ^ 16 = p.
Proof. unfold is_u16. intros. rewrite Z.add_comm, Z.mod_add, Z.mod_small; lia. Qed.

Lemma div_add_mul x p : is_u16 p -> (x * 2 ^ 16 + p) / 2 ^ 16 = x.
Proof. unfold is_u16. intros. rewrite Z.div_add_l, Z.div_small; lia. Qed.

Lemma gen_id_range v name p : is_u16 p -> is_u64 (gen_id v name p).
Proof.
  intros Hp. rewrite gen_id_arith by done. unfold is_u16, is_u64 in *.
  pose proof (HASH_JEN_range (c_bytes name) (strlen name)) as Hh. unfold is_u32 in Hh.
  pose proof (Z.mod_pos_bound (HASH_JEN (c_bytes name) (strlen name)) (2 ^ 16)).
  destruct v; lia.
Qed.

(** ** Theorems *)

(** C19: the id a client computes to reach a provider ([mux_id] applied to the
    id it registered under any other provider id) is the id under which that
    provider registers the RPC of the same name, for both encodings of ids. *)
Theorem mux_gen_id v name p q :
  is_u16 p -> is_u16 q -> mux_id (gen_id v name p) q = gen_id v name q.
Proof.
  intros Hp Hq. rewrite mux_id_arith by auto using gen_id_range.
  rewrite !gen_id_arith by done. by rewrite div_add_mul.
Qed.

Lemma mux_gen_id_witness :
  is_u16 0xFFFF /\ is_u16 42 /\
  mux_id (gen_id true "__identity__" 0xFFFF) 42 = gen_id true "__identity__" 42.
Proof.
  split; [by unfold is_u16|split; [by unfold is_u16|]].
  apply (mux_gen_id true "__identity__" 0xFFFF 42); by unfold is_u16.
Defined.

(** taking an id apart and muxing the parts again gives the id back, and
    the parts of a muxed id are the provider id and the base id with its
    provider field set to ones. *)
Theorem demux_mux_id id p :
  is_u64 id -> is_u16 p ->
  mux_id (demux_id id).1 (demux_id id).2 = id /\
  demux_id (mux_id id p) = ((demux_id id).1, p).
Proof.
  intros Hid Hp. assert (is_u16 (id mod 2 ^ 16)) by apply u16_range.
  assert (is_u16 0xFFFF) by by unfold is_u16.
  assert (Hb : is_u64 (id / 2 ^ 16 * 2 ^ 16 + 0xFFFF)).
  { unfold is_u64 in *. pose proof (Z.div_mod id (2 ^ 16)).
    pose proof (Z.mod_pos_bound id (2 ^ 16)).
    assert (id / 2 ^ 16 < 2 ^ 48) by (apply Z.div_lt_upper_bound; lia). lia. }
  assert (Hm : is_u64 (mux_id id p)).
  { rewrite mux_id_arith by done. unfold is_u64, is_u16 in *.
    assert (id / 2 ^ 16 < 2 ^ 48) by (apply Z.div_lt_upper_bound; lia).
    pose proof (Z.div_pos id (2 ^ 16)). lia. }
  split.
  - rewrite demux_id_arith by done. cbn [fst snd]. rewrite mux_id_arith by done.
    rewrite div_add_mul by done. pose proof (Z.div_mod id (2 ^ 16)). lia.
  - rewrite !demux_id_arith by done. rewrite mux_id_arith by done.
    by rewrite div_add_mul, mod_add_mul.
Qed.

Lemma demux_mux_id_witness :
  is_u64 0x123456789ABCDEF0 /\ is_u16 7 /\
  (mux_id (demux_id 0x123456789ABCDEF0).1 (demux_id 0x123456789ABCDEF0).2
     = 0x123456789ABCDEF0 /\
   demux_id (mux_id 0x123456789ABCDEF0 7) = ((demux_id 0x123456789ABCDEF0).1, 7)).
Proof.
  split; [by unfold is_u64|split; [by unfold is_u16|]].
  apply (demux_mux_id 0x123456789ABCDEF0 7); [by unfold is_u64|by unfold is_u16].
Defined.
