(* ===== verification/Utlist.v ===== *)
(** * Linked lists (src/utlist.h)

    The linked-list macros Margo uses, at the level of pointers: a store maps
    a node's address to its [prev] and [next] fields, [None] is NULL, and an
    operation that dereferences NULL or a node that is not allocated, or that
    fails an [assert], has no result.  [dl_seg] and [dl_repr] say which list a
    piece of the store represents; every macro is shown to implement the list
    operation it is named after. *)

From S2P Require Import Prelude.

Abbreviation loc := positive.

Record links := Links { prev : option loc; next : option loc }.

Abbreviation store := (gmap loc links).

(** ** Field accesses *)

Definition get_prev (σ : store) (x : loc) : option (option loc) := prev <$> σ !! x.
Definition get_next (σ : store) (x : loc) : option (option loc) := next <$> σ !! x.

Definition set_prev (σ : store) (x : loc) (p : option loc) : option store :=
  n ← σ !! x; Some (<[x := Links p (next n)]> σ).
Definition set_next (σ : store) (x : loc) (p : option loc) : option store :=
  n ← σ !! x; Some (<[x := Links (prev n) p]> σ).

(** Comparison of pointers. *)
Definition ptr_eqb (p q : option loc) : bool := bool_decide (p = q).

(** ** Doubly-linked lists: [head->prev] is the tail, [tail->next] is NULL *)

Definition DL_PREPEND (σ : store) (head : option loc) (add : loc)
    : option (store * option loc) :=
  σ ← set_next σ add head;
  match head with
  | Some h =>
      hp ← get_prev σ h;
      σ ← set_prev σ add hp;
      σ ← set_prev σ h (Some add);
      Some (σ, Some add)
  | None =>
      σ ← set_prev σ add (Some add);
      Some (σ, Some add)
  end.

Definition DL_APPEND (σ : store) (head : option loc) (add : loc)
    : option (store * option loc) :=
  match head with
  | Some h =>
      hp ← get_prev σ h;
      σ ← set_prev σ add hp;
      hp ← get_prev σ h;
      t ← hp;
      σ ← set_next σ t (Some add);
      σ ← set_prev σ h (Some add);
      σ ← set_next σ add None;
      Some (σ, Some h)
  | None =>
      σ ← set_prev σ add (Some add);
      σ ← set_next σ add None;
      Some (σ, Some add)
  end.

Definition DL_DELETE (σ : store) (head : option loc) (del : loc)
    : option (store * option loc) :=
  dp ← get_prev σ del;
  p ← dp; (* assert((del)->prev != NULL) *)
  if bool_decide (p = del) then Some (σ, None)
  else if ptr_eqb (Some del) head then
    dn ← get_next σ del;
    n ← dn;
    σ ← set_prev σ n (Some p);
    Some (σ, Some n)
  else
    dn ← get_next σ del;
    σ ← set_next σ p dn;
    dn ← get_next σ del;
    match dn with
    | Some n => σ ← set_prev σ n (Some p); Some (σ, head)
    | None => h ← head; σ ← set_prev σ h (Some p); Some (σ, head)
    end.

Definition DL_APPEND_ELEM (σ : store) (head : option loc) (el : option loc) (add : loc)
    : option (store * option loc) :=
  match el with
  | Some e =>
      h ← head; (* assert(head != NULL) *)
      en ← get_next σ e;
      σ ← set_next σ add en;
      σ ← set_prev σ add (Some e);
      σ ← set_next σ e (Some add);
      an ← get_next σ add;
      match an with
      | Some n => σ ← set_prev σ n (Some add); Some (σ, head)
      | None => σ ← set_prev σ h (Some add); Some (σ, head)
      end
  | None => DL_PREPEND σ head add
  end.

(** ** Singly-linked lists *)

Definition LL_PREPEND (σ : gmap loc (option loc)) (head : option loc) (add : loc)
    : option (gmap loc (option loc) * option loc) :=
  _ ← σ !! add;
  Some (<[add := head]> σ, Some add).

(** The walk of LL_DELETE to the node before [del]; [fuel] bounds the number
    of nodes walked. *)
Fixpoint ll_before (fuel : nat) (σ : gmap loc (option loc)) (tmp del : loc) : option loc :=
  match fuel with
  | O => None
  | S fuel =>
      tn ← σ !! tmp;
      match tn with
      | Some n => if bool_decide (n = del) then Some tmp else ll_before fuel σ n del
      | None => Some tmp
      end
  end.

Definition LL_DELETE (σ : gmap loc (option loc)) (head : option loc) (del : loc)
    : option (gmap loc (option loc) * option loc) :=
  if ptr_eqb head (Some del) then
    hn ← σ !! del;
    Some (σ, hn)
  else
    h ← head;
    tmp ← ll_before (size σ) σ h del;
    tn ← σ !! tmp;
    match tn with
    | Some _ => dn ← σ !! del; Some (<[tmp := dn]> σ, head)
    | None => Some (σ, head)
    end.

(** ** Representation predicates *)

Definition hd_or (l : list loc) (d : option loc) : option loc :=
  match l with [] => d | x :: _ => Some x end.

Definition last_or (l : list loc) (d : option loc) : option loc :=
  match last l with None => d | Some x => Some x end.

(** [dl_seg σ p l n]: the nodes [l] are linked in this order, the first node's
    [prev] is [p] and the last node's [next] is [n]. *)
Fixpoint dl_seg (σ : store) (p : option loc) (l : list loc) (n : option loc) : Prop :=
  match l with
  | [] => True
  | x :: l' => σ !! x = Some (Links p (hd_or l' n)) /\ dl_seg σ (Some x) l' n
  end.

Definition dl_repr (σ : store) (head : option loc) (l : list loc) : Prop :=
  head = hd_or l None /\ NoDup l /\ dl_seg σ (last l) l None.

Fixpoint ll_seg (σ : gmap loc (option loc)) (head : option loc) (l : list loc) : Prop :=
  match l with
  | [] => head = None
  | x :: l' => head = Some x /\ exists n, σ !! x = Some n /\ ll_seg σ n l'
  end.

Definition ll_repr (σ : gmap loc (option loc)) (head : option loc) (l : list loc) : Prop :=
  NoDup l /\ ll_seg σ head l.

(** ** Segments *)

Lemma last_or_cons x l d : last_or (x :: l) d = last_or l (Some x).
Proof. unfold last_or. rewrite last_cons. by destruct (last l). Qed.

Lemma dl_seg_app σ l1 : forall p l2 n,
  dl_seg σ p (l1 ++ l2) n <-> dl_seg σ p l1 (hd_or l2 n) /\ dl_seg σ (last_or l1 p) l2 n.
Proof.
  induction l1 as [|x l1 IH]; intros p l2 n; simpl; [tauto|].
  rewrite IH, last_or_cons. destruct l1; simpl; tauto.
Qed.

Lemma dl_seg_frame σ x nd l : forall p n,
  x ∉ l -> dl_seg (<[x := nd]> σ) p l n <-> dl_seg σ p l n.
Proof.
  induction l as [|y l IH]; intros p n Hx; simpl; [done|].
  apply not_elem_of_cons in Hx as [? ?].
  rewrite IH by done. by rewrite lookup_insert_ne by done.
Qed.

Lemma dl_seg_ext σ σ' l : forall p n,
  (forall x, x ∈ l -> σ' !! x = σ !! x) -> dl_seg σ p l n -> dl_seg σ' p l n.
Proof.
  induction l as [|y l IH]; intros p n Hx; simpl; [done|].
  intros [Hy Hs]. rewrite Hx by set_solver. split; [done|]. apply IH; set_solver.
Qed.

Lemma dl_seg_lookup σ l : forall p n x,
  dl_seg σ p l n -> x ∈ l -> is_Some (σ !! x).
Proof.
  induction l as [|y l IH]; intros p n x; simpl; [set_solver|].
  intros [Hy Hs] [->|Hx]%elem_of_cons; eauto.
Qed.

Lemma hd_or_app l1 l2 d : hd_or (l1 ++ l2) d = hd_or l1 (hd_or l2 d).
Proof. by destruct l1. Qed.

Lemma last_or_snoc l x d : last_or (l ++ [x]) d = Some x.
Proof. unfold last_or. by rewrite last_snoc. Qed.

Lemma last_last_or x (l : list loc) : last (x :: l) = last_or l (Some x).
Proof. unfold last_or. rewrite last_cons. by destruct (last l). Qed.

Lemma NoDup_middle (l1 l2 : list loc) x :
  NoDup (l1 ++ x :: l2) <-> (x ∉ l1) /\ (x ∉ l2) /\ NoDup (l1 ++ l2).
Proof. rewrite <- Permutation_middle, NoDup_cons, not_elem_of_app. tauto. Qed.

(** Runs a macro on a store whose nodes are known. *)
Ltac dl_run :=
  unfold DL_PREPEND, DL_APPEND, DL_APPEND_ELEM, DL_DELETE, LL_PREPEND, LL_DELETE,
    get_prev, get_next, set_prev, set_next, ptr_eqb;
  repeat (simplify_map_eq || (rewrite bool_decide_eq_true_2 by done)
          || (rewrite bool_decide_eq_false_2 by congruence)); simpl.

(** Splits [NoDup] and non-membership hypotheses down to inequalities and
    non-membership in the variable segments. *)
Ltac dl_nodup :=
  repeat match goal with
  | H : NoDup (_ :: _) |- _ => apply NoDup_cons in H as [? ?]
  | H : NoDup (_ ++ _ :: _) |- _ => apply NoDup_middle in H as (? & ? & ?)
  | H : _ ∉ _ :: _ |- _ => apply not_elem_of_cons in H as [? ?]
  | H : _ ∉ _ ++ _ |- _ => apply not_elem_of_app in H as [? ?]
  | H : _ ∉ [] |- _ => clear H
  | H : NoDup [] |- _ => clear H
  end; rewrite ?app_nil_r in *.

(** Solves [NoDup] and non-membership goals from such hypotheses. *)
Ltac nodup_solve :=
  repeat match goal with
  | |- _ /\ _ => split
  | |- NoDup [] => apply NoDup_nil_2
  | |- NoDup (_ :: _) => apply NoDup_cons
  | |- NoDup (_ ++ _ :: _) => apply NoDup_middle
  | |- context [(_ ++ _) ++ _] => rewrite <- app_assoc
  | |- context [_ ++ []] => rewrite app_nil_r
  | |- _ ∉ [] => apply not_elem_of_nil
  | |- _ ∉ _ :: _ => apply not_elem_of_cons
  | |- _ ∉ _ ++ _ => apply not_elem_of_app
  | |- _ => first [done | congruence]
  end.

(** Updating nodes that are allocated does not change what is allocated. *)
Ltac dom_solve :=
  let y := fresh "y" in
  intros y; rewrite ?lookup_insert; repeat case_decide; subst; simplify_map_eq;
  split; by eauto.

Lemma DL_PREPEND_spec σ head l add :
  dl_repr σ head l -> add ∉ l -> is_Some (σ !! add) ->
  exists σ', DL_PREPEND σ head add = Some (σ', Some add) /\ dl_repr σ' (Some add) (add :: l) /\
             forall y, y ∉ add :: l -> σ' !! y = σ !! y.
Proof.
  intros (-> & Hnd & Hs) Hadd [[ap an] Ha]. destruct l as [|h l].
  - dl_run. eexists. split; [done|]. split; [split_and!; [done|by apply NoDup_singleton|]|].
    + simpl. by simplify_map_eq.
    + intros y Hy. dl_nodup. by simplify_map_eq.
  - destruct Hs as [Hh Hs]. dl_nodup. dl_run. eexists. split; [done|].
    split; [split_and!; [done|nodup_solve|]|].
    + rewrite last_cons_cons. simpl. simplify_map_eq. split_and!; [done|done|].
      by rewrite !dl_seg_frame by done.
    + intros y Hy. dl_nodup. by simplify_map_eq.
Qed.

Lemma DL_APPEND_spec σ head l add :
  dl_repr σ head l -> add ∉ l -> is_Some (σ !! add) ->
  exists σ', DL_APPEND σ head add = Some (σ', hd_or (l ++ [add]) None) /\
             dl_repr σ' (hd_or (l ++ [add]) None) (l ++ [add]) /\
             forall y, y ∉ add :: l -> σ' !! y = σ !! y.
Proof.
  intros (-> & Hnd & Hs) Hadd [[ap an] Ha].
  destruct l as [|t l _] using rev_ind; [|destruct l as [|h l]].
  - dl_run. eexists. split; [done|]. split; [split_and!; [done|by apply NoDup_singleton|]|].
    + simpl. by simplify_map_eq.
    + intros y Hy. dl_nodup. by simplify_map_eq.
  - destruct Hs as [Ht _]. simpl in *. dl_nodup. dl_run. eexists. split; [done|].
    split; [split_and!; [done|nodup_solve|]|].
    + simpl. by simplify_map_eq.
    + intros y Hy. dl_nodup. by simplify_map_eq.
  - cbn [app hd_or] in *. rewrite last_cons, last_snoc in Hs. destruct Hs as [Hh Hs].
    apply dl_seg_app in Hs as [Hs [Ht _]]. dl_nodup. 
    dl_run. eexists. split; [done|]. split; [split_and!|].
    + done.
    + nodup_solve.
    + rewrite app_comm_cons, last_snoc. simpl. simplify_map_eq. rewrite !hd_or_app.
      split; [by destruct l|]. apply dl_seg_app. split; [|rewrite last_or_snoc; by simplify_map_eq].
      rewrite !dl_seg_frame by nodup_solve. apply dl_seg_app. simpl. simplify_map_eq.
      rewrite !dl_seg_frame by nodup_solve. done.
    + intros y Hy. dl_nodup. by simplify_map_eq.
Qed.

Lemma last_app_cons (l1 l2 : list loc) x : last (l1 ++ x :: l2) = last_or l2 (Some x).
Proof. rewrite last_app, last_last_or. unfold last_or. by destruct (last l2). Qed.

Lemma DL_APPEND_ELEM_spec σ head l1 e l2 add :
  dl_repr σ head (l1 ++ e :: l2) -> add ∉ l1 ++ e :: l2 -> is_Some (σ !! add) ->
  exists σ', DL_APPEND_ELEM σ head (Some e) add = Some (σ', head) /\
             dl_repr σ' head (l1 ++ e :: add :: l2) /\
             forall y, y ∉ add :: l1 ++ e :: l2 -> σ' !! y = σ !! y.
Proof.
  intros (-> & Hnd & Hs) Hadd [[ap an] Ha]. rewrite last_app_cons in Hs.
  apply dl_seg_app in Hs as [Hl1 [He Hl2]].
  destruct l2 as [|n l2]; [destruct l1 as [|h l1]|]; simpl in *.
  - dl_nodup. dl_run. eexists. split; [done|]. split; [split_and!; [done|nodup_solve|]|].
    + simpl. by simplify_map_eq.
    + intros y Hy. dl_nodup. by simplify_map_eq.
  - destruct Hl1 as [Hh Hl1]. dl_nodup. dl_run. eexists. split; [done|].
    split; [split_and!; [done|nodup_solve|]|].
    + rewrite app_comm_cons, last_app_cons. simpl. simplify_map_eq. split.
      { by rewrite !hd_or_app. }
      apply dl_seg_app. rewrite !dl_seg_frame by nodup_solve. simpl. simplify_map_eq.
      split; [done|]. by rewrite last_or_cons.
    + intros y Hy. dl_nodup. by simplify_map_eq.
  - destruct Hl2 as [Hn Hl2]. dl_nodup.
    assert (exists h, hd_or (l1 ++ e :: n :: l2) None = Some h) as [h Hh]
      by (destruct l1; simpl; eauto).
    dl_run. eexists. split; [done|].
    split; [split_and!; [by rewrite <- Hh, !hd_or_app|nodup_solve|]|].
    + rewrite last_app_cons, !last_or_cons. apply dl_seg_app. simpl. simplify_map_eq.
      rewrite !dl_seg_frame by nodup_solve. by rewrite last_or_cons in Hl1, He.
    + intros y Hy. dl_nodup. by simplify_map_eq.
Qed.

Lemma DL_DELETE_spec σ head l1 d l2 :
  dl_repr σ head (l1 ++ d :: l2) ->
  exists σ', DL_DELETE σ head d = Some (σ', hd_or (l1 ++ l2) None) /\
             dl_repr σ' (hd_or (l1 ++ l2) None) (l1 ++ l2) /\
             forall y, y ∉ l1 ++ l2 -> σ' !! y = σ !! y.
Proof.
  intros (-> & Hnd & Hs). rewrite last_app_cons in Hs.
  apply dl_seg_app in Hs as [Hl1 [Hd Hl2]].
  destruct l1 as [|q l1 _] using rev_ind.
  - destruct l2 as [|n l2]; simpl in *.
    + dl_run. eexists. split; [done|]. split; [|done]. split_and!; [done|apply NoDup_nil_2|done].
    + destruct Hl2 as [Hn Hl2]. rewrite last_or_cons in Hd. dl_nodup.
      destruct (last_or l2 (Some n)) as [t|] eqn:Ht; [|by unfold last_or in Ht; destruct (last l2)].
      assert (t ≠ d).
      { intros ->. rewrite <- last_last_or in Ht. apply last_Some_elem_of in Ht.
        apply elem_of_cons in Ht as [?|?]; congruence. }
      dl_run. eexists. split; [done|]. split.
      * split_and!; [done|nodup_solve|]. rewrite last_last_or, Ht. simpl. simplify_map_eq.
        by rewrite dl_seg_frame by done.
      * intros y Hy. dl_nodup. by simplify_map_eq.
  - rewrite last_or_snoc in Hd. apply dl_seg_app in Hl1 as [Hl1 [Hq _]].
    destruct l2 as [|n l2]; simpl in *.
    + destruct l1 as [|h l1].
      * simpl in *. dl_nodup. dl_run. eexists. split; [done|]. split.
        -- split_and!; [done|nodup_solve|]. simpl. by simplify_map_eq.
        -- intros y Hy. dl_nodup. by simplify_map_eq.
      * destruct Hl1 as [Hh Hl1]. rewrite <- !app_assoc in *. simpl in *. dl_nodup. dl_run.
        eexists. split; [done|]. rewrite ?app_nil_r. split.
        -- split_and!; [done|nodup_solve|].
           rewrite app_comm_cons, last_snoc. simpl. simplify_map_eq. rewrite !hd_or_app.
           split; [done|]. apply dl_seg_app. rewrite !dl_seg_frame by nodup_solve.
           simpl. simplify_map_eq. by rewrite last_or_cons.
        -- intros y Hy. dl_nodup. by simplify_map_eq.
    + destruct Hl2 as [Hn Hl2]. rewrite <- !app_assoc in *. simpl in *. dl_nodup.
      assert (Some d ≠ hd_or (l1 ++ q :: d :: n :: l2) None).
      { rewrite hd_or_app. destruct l1; simpl; [congruence|]. dl_nodup. congruence. }
      dl_run. eexists. rewrite !hd_or_app. split; [done|]. split.
      * split_and!; [by rewrite hd_or_app|nodup_solve|].
        rewrite last_app_cons, !last_or_cons in *.
        apply dl_seg_app. simpl. simplify_map_eq. by rewrite !dl_seg_frame by nodup_solve.
      * intros y Hy. dl_nodup. by simplify_map_eq.
Qed.

Lemma ll_seg_frame σ x n l : forall head,
  x ∉ l -> ll_seg (<[x := n]> σ) head l <-> ll_seg σ head l.
Proof.
  induction l as [|y l IH]; intros head Hx; simpl; [done|].
  apply not_elem_of_cons in Hx as [? ?]. rewrite lookup_insert_ne by done.
  by setoid_rewrite IH.
Qed.

Lemma LL_PREPEND_spec σ head l add :
  ll_repr σ head l -> add ∉ l -> is_Some (σ !! add) ->
  exists σ', LL_PREPEND σ head add = Some (σ', Some add) /\ ll_repr σ' (Some add) (add :: l).
Proof.
  intros [Hnd Hs] Hadd [n Ha]. dl_run. eexists. split; [done|]. split; [nodup_solve|].
  simpl. split; [done|]. exists head. simplify_map_eq. by rewrite ll_seg_frame.
Qed.

(** Removing the first node, the only use Margo makes of LL_DELETE. *)
Lemma LL_DELETE_head_spec σ x l :
  ll_repr σ (Some x) (x :: l) ->
  exists head', LL_DELETE σ (Some x) x = Some (σ, head') /\ ll_repr σ head' l.
Proof.
  intros [Hnd [_ (n & Hx & Hl)]]. dl_nodup. dl_run. eexists. split; [done|]. by split.
Qed.
