(* ===== verification/PrioPool.v ===== *)
(** * The two-level priority pool (src/margo-prio-pool.c)

    A pool of Argobots work units split in a high-priority and a low-priority
    queue, each a circular doubly-linked list threaded through the units.  The
    file models every function of the pool definition table, relates the
    pointer structure to a pair of lists, and shows FIFO order inside a queue,
    the demotion rule, the size counter and the bound on how long a
    low-priority unit can be overtaken. *)

From S2P Require Import Prelude Utlist.

(** ** Data *)

Definition SCHED_COUNTER_PRIORITY_LIMIT : Z := 25.

(** [unit_t]: the link fields [p_prev] and [p_next] are in [h_links].
    [None] is ABT_THREAD_NULL or ABT_TASK_NULL. *)
Record unit_t := Unit_t {
  thread : option Z;
  task : option Z;
  sched_counter : Z;
  is_in_pool : bool
}.

Record heap := Heap { h_links : store; h_units : gmap loc unit_t }.

Record queue_t := Queue_t { p_tail : option loc; p_head : option loc }.

Record pool_t := Pool_t {
  high_prio_queue : queue_t;
  low_prio_queue : queue_t;
  num : Z;
  cnt : Z
}.

Inductive ABT_unit_type := ABT_UNIT_TYPE_THREAD | ABT_UNIT_TYPE_TASK.

(** ** Field updates *)

Definition set_sched_counter (v : Z) (u : unit_t) : unit_t :=
  Unit_t (thread u) (task u) v (is_in_pool u).
Definition set_is_in_pool (b : bool) (u : unit_t) : unit_t :=
  Unit_t (thread u) (task u) (sched_counter u) b.

Definition upd_unit (h : heap) (u : loc) (f : unit_t -> unit_t) : option heap :=
  x ← h_units h !! u; Some (Heap (h_links h) (<[u := f x]> (h_units h))).

(** ** The queues *)

Definition queue_push (h : heap) (q : queue_t) (u : loc) : option (heap * queue_t) :=
  let σ := h_links h in
  '(σ, q) ←
    match p_head q with
    | None =>
        σ ← set_next σ u (Some u);
        σ ← set_prev σ u (Some u);
        Some (σ, Queue_t (Some u) (Some u))
    | Some hd =>
        tl ← p_tail q;
        σ ← set_next σ tl (Some u);
        σ ← set_prev σ hd (Some u);
        σ ← set_prev σ u (Some tl);
        σ ← set_next σ u (Some hd);
        Some (σ, Queue_t (Some u) (p_head q))
    end;
  h ← upd_unit (Heap σ (h_units h)) u (set_is_in_pool true);
  Some (h, q).

Definition queue_pop (h : heap) (q : queue_t) : option (heap * queue_t * option loc) :=
  match p_head q with
  | None => Some (h, q, None)
  | Some u =>
      let σ := h_links h in
      '(σ, q) ←
        (if ptr_eqb (p_head q) (p_tail q) then Some (σ, Queue_t None None)
         else
           up ← get_prev σ u; pp ← up;
           un ← get_next σ u;
           σ ← set_next σ pp un;
           un ← get_next σ u; nn ← un;
           up ← get_prev σ u;
           σ ← set_prev σ nn up;
           un ← get_next σ u;
           Some (σ, Queue_t (p_tail q) un));
      σ ← set_next σ u None;
      σ ← set_prev σ u None;
      h ← upd_unit (Heap σ (h_units h)) u (set_is_in_pool false);
      Some (h, q, Some u)
  end.

(** ** Units *)

Definition pool_unit_get_type (u : unit_t) : ABT_unit_type :=
  match thread u with Some _ => ABT_UNIT_TYPE_THREAD | None => ABT_UNIT_TYPE_TASK end.

Definition pool_unit_get_thread (u : unit_t) : option Z := thread u.
Definition pool_unit_get_task (u : unit_t) : option Z := task u.
Definition pool_unit_is_in_pool (u : unit_t) : bool := is_in_pool u.

(** [new] is the address [malloc] returns. *)
Definition pool_unit_create_from_thread (h : heap) (new : loc) (t : Z) : heap :=
  Heap (<[new := Links None None]> (h_links h))
       (<[new := Unit_t (Some t) None 0 false]> (h_units h)).

Definition pool_unit_create_from_task (h : heap) (new : loc) (t : Z) : heap :=
  Heap (<[new := Links None None]> (h_links h))
       (<[new := Unit_t None (Some t) 0 false]> (h_units h)).

Definition pool_unit_free (h : heap) (u : loc) : heap :=
  Heap (delete u (h_links h)) (delete u (h_units h)).

(** ** The pool *)

Definition pool_init : pool_t := Pool_t (Queue_t None None) (Queue_t None None) 0 0.

Definition pool_get_size (p : pool_t) : Z := num p.

Definition pool_push (h : heap) (p : pool_t) (u : loc) : option (heap * pool_t) :=
  x ← h_units h !! u;
  let saved := sched_counter x in
  h ← upd_unit h u (fun x =>
        if sched_counter x <? SCHED_COUNTER_PRIORITY_LIMIT
        then set_sched_counter (sched_counter x + 1) x else x);
  if (saved =? 0) || (SCHED_COUNTER_PRIORITY_LIMIT <=? saved) then
    '(h, q) ← queue_push h (low_prio_queue p) u;
    Some (h, Pool_t (high_prio_queue p) q (i32 (num p + 1)) (cnt p))
  else
    '(h, q) ← queue_push h (high_prio_queue p) u;
    Some (h, Pool_t q (low_prio_queue p) (i32 (num p + 1)) (cnt p)).

(** The [do { ... } while (0)] block shared by [pool_pop] and
    [pool_pop_timedwait]: choose a queue, fall back on the other one. *)
Definition pop_unit (h : heap) (p : pool_t) : option (heap * pool_t * option loc) :=
  let c := cnt p in
  let p := Pool_t (high_prio_queue p) (low_prio_queue p) (num p) (i32 (cnt p + 1)) in
  '(h, p, u) ←
    (if negb (Z.land c 0xFF =? 0) then
       '(h, q, u) ← queue_pop h (high_prio_queue p);
       let p := Pool_t q (low_prio_queue p) (num p) (cnt p) in
       match u with
       | Some _ => Some (h, p, u)
       | None =>
           '(h, q, u) ← queue_pop h (low_prio_queue p);
           Some (h, Pool_t (high_prio_queue p) q (num p) (cnt p), u)
       end
     else
       '(h, q, u) ← queue_pop h (low_prio_queue p);
       let p := Pool_t (high_prio_queue p) q (num p) (cnt p) in
       match u with
       | Some _ => Some (h, p, u)
       | None =>
           '(h, q, u) ← queue_pop h (high_prio_queue p);
           Some (h, Pool_t q (low_prio_queue p) (num p) (cnt p), u)
       end);
  let p := match u with
           | Some _ => Pool_t (high_prio_queue p) (low_prio_queue p) (i32 (num p - 1)) (cnt p)
           | None => p
           end in
  Some (h, p, u).

Definition pool_pop (h : heap) (p : pool_t) : option (heap * pool_t * option loc) :=
  if num p =? 0 then Some (h, p, None) else pop_unit h p.

(** [wait] is what other threads do to the pool while the caller is blocked in
    [pthread_cond_timedwait] (nothing when the wait times out undisturbed). *)
Definition pool_pop_timedwait (wait : heap -> pool_t -> heap * pool_t)
    (h : heap) (p : pool_t) : option (heap * pool_t * option loc) :=
  let '(h, p) := if num p =? 0 then wait h p else (h, p) in
  pop_unit h p.

Definition pool_remove (h : heap) (p : pool_t) (u : loc) : option (heap * pool_t) :=
  let σ := h_links h in
  up ← get_prev σ u;
  '(σ, p) ←
    match up with
    | Some pp => un ← get_next σ u; σ ← set_next σ pp un; Some (σ, p)
    | None =>
        un ← get_next σ u;
        if ptr_eqb (p_head (high_prio_queue p)) (Some u) then
          Some (σ, Pool_t (Queue_t (p_tail (high_prio_queue p)) un) (low_prio_queue p) (num p) (cnt p))
        else if ptr_eqb (p_head (low_prio_queue p)) (Some u) then
          Some (σ, Pool_t (high_prio_queue p) (Queue_t (p_tail (low_prio_queue p)) un) (num p) (cnt p))
        else Some (σ, p)
    end;
  un ← get_next σ u;
  '(σ, p) ←
    match un with
    | Some nn => up ← get_prev σ u; σ ← set_prev σ nn up; Some (σ, p)
    | None =>
        up ← get_prev σ u;
        if ptr_eqb (p_tail (high_prio_queue p)) (Some u) then
          Some (σ, Pool_t (Queue_t up (p_head (high_prio_queue p))) (low_prio_queue p) (num p) (cnt p))
        else if ptr_eqb (p_tail (low_prio_queue p)) (Some u) then
          Some (σ, Pool_t (high_prio_queue p) (Queue_t up (p_head (low_prio_queue p))) (num p) (cnt p))
        else Some (σ, p)
    end;
  Some (Heap σ (h_units h),
        Pool_t (high_prio_queue p) (low_prio_queue p) (i32 (num p - 1)) (cnt p)).

(** ** Representation *)

(** A circular list: the first node's [p_prev] is the tail and the last
    node's [p_next] is the head. *)
Definition cq_repr (σ : store) (q : queue_t) (l : list loc) : Prop :=
  p_head q = hd_or l None /\ p_tail q = last l /\ dl_seg σ (last l) l (hd_or l None).

(** [prio_repr h p hi lo]: the queues of [p] hold [hi] and [lo], the counter
    is their total length, and the units they hold are exactly the units
    marked as in the pool. *)
Record prio_repr (h : heap) (p : pool_t) (hi lo : list loc) : Prop := {
  pr_nodup : NoDup (hi ++ lo);
  pr_hi : cq_repr (h_links h) (high_prio_queue p) hi;
  pr_lo : cq_repr (h_links h) (low_prio_queue p) lo;
  pr_num : num p = Z.of_nat (length hi + length lo);
  pr_small : num p < 2 ^ 31 - 1;
  pr_dom : forall u, is_Some (h_units h !! u) <-> is_Some (h_links h !! u);
  pr_in : forall u x, h_units h !! u = Some x -> (is_in_pool x = true <-> u ∈ hi ++ lo);
  pr_counter : forall u x, h_units h !! u = Some x ->
    0 <= sched_counter x <= SCHED_COUNTER_PRIORITY_LIMIT
}.

Lemma cq_repr_frame σ σ' q l :
  (forall y, y ∈ l -> σ' !! y = σ !! y) -> cq_repr σ q l -> cq_repr σ' q l.
Proof. intros Hf (? & ? & ?). split_and!; [done|done|]. by eapply dl_seg_ext. Qed.

Ltac prio_run :=
  unfold queue_push, queue_pop, upd_unit, get_prev, get_next, set_prev, set_next, ptr_eqb;
  repeat (simplify_map_eq || (rewrite bool_decide_eq_true_2 by done)
          || (rewrite bool_decide_eq_false_2 by congruence)); simpl.

Lemma queue_push_spec h q l u x :
  cq_repr (h_links h) q l -> NoDup l -> u ∉ l ->
  is_Some (h_links h !! u) -> h_units h !! u = Some x ->
  exists σ' q', queue_push h q u = Some (Heap σ' (<[u := set_is_in_pool true x]> (h_units h)), q') /\
    cq_repr σ' q' (l ++ [u]) /\
    (forall y, y ∉ u :: l -> σ' !! y = h_links h !! y) /\
    (forall y, is_Some (σ' !! y) <-> is_Some (h_links h !! y)).
Proof.
  destruct h as [σ us], q as [tl hd]. unfold cq_repr. simpl.
  intros (-> & -> & Hs) Hnd Hu [[up un] Hlu] Hx.
  destruct l as [|t l _] using rev_ind; [|destruct l as [|hd l]].
  - prio_run. eexists _, _. split; [done|]. split; [split; [done|split; [done|]]|split].
    + simpl. by simplify_map_eq.
    + intros y Hy. dl_nodup. by simplify_map_eq.
    + dom_solve.
  - simpl in *. destruct Hs as [Ht _]. dl_nodup. prio_run.
    eexists _, _. split; [done|]. split; [split; [done|split; [done|]]|split].
    + simpl. by simplify_map_eq.
    + intros y Hy. dl_nodup. by simplify_map_eq.
    + dom_solve.
  - cbn [app hd_or] in *. rewrite last_cons, last_snoc in *. destruct Hs as [Hh Hs].
    apply dl_seg_app in Hs as [Hs [Ht _]]. dl_nodup. prio_run.
    eexists _, _. split; [done|].
    split; [split; [done|split; [by rewrite app_comm_cons, last_snoc|]]|split].
    + rewrite app_comm_cons, last_snoc. simpl. simplify_map_eq. rewrite !hd_or_app.
      split; [by destruct l|]. apply dl_seg_app. rewrite last_or_snoc.
      split; [|by simplify_map_eq].
      rewrite !dl_seg_frame by nodup_solve. apply dl_seg_app. simpl. simplify_map_eq.
      by rewrite !dl_seg_frame by nodup_solve.
    + intros y Hy. dl_nodup. by simplify_map_eq.
    + dom_solve.
Qed.

Lemma queue_pop_empty h q :
  cq_repr (h_links h) q [] -> queue_pop h q = Some (h, q, None).
Proof. unfold queue_pop. by intros (-> & _ & _). Qed.

Lemma queue_pop_spec h q l u x :
  cq_repr (h_links h) q (u :: l) -> NoDup (u :: l) -> h_units h !! u = Some x ->
  exists σ' q', queue_pop h q =
      Some (Heap σ' (<[u := set_is_in_pool false x]> (h_units h)), q', Some u) /\
    cq_repr σ' q' l /\
    σ' !! u = Some (Links None None) /\
    (forall y, y ∉ u :: l -> σ' !! y = h_links h !! y) /\
    (forall y, is_Some (σ' !! y) <-> is_Some (h_links h !! y)).
Proof.
  destruct h as [σ us], q as [tl hd]. unfold cq_repr. simpl.
  intros (-> & -> & Hs) Hnd Hx. destruct l as [|t l _] using rev_ind.
  - destruct Hs as [Hu _]. prio_run. eexists _, _. split; [done|].
    split; [done|split; [|split]].
    + by simplify_map_eq.
    + intros y Hy. dl_nodup. by simplify_map_eq.
    + dom_solve.
  - rewrite app_comm_cons, last_snoc in *. destruct Hs as [Hu Hs].
    rewrite last_snoc. destruct l as [|n l].
    + destruct Hs as [Ht _]. simpl in *. dl_nodup. prio_run.
      eexists _, _. split; [done|]. split; [split; [done|split; [done|]]|split; [|split]].
      * simpl. by simplify_map_eq.
      * by simplify_map_eq.
      * intros y Hy. dl_nodup. by simplify_map_eq.
      * dom_solve.
    + cbn [app hd_or] in *. destruct Hs as [Hn Hs]. apply dl_seg_app in Hs as [Hs [Ht _]].
      dl_nodup. prio_run.
      eexists _, _. split; [done|]. split; [split; [done|split; [done|]]|split; [|split]].
      * simpl. simplify_map_eq. split; [by rewrite !hd_or_app|].
        rewrite !dl_seg_frame by nodup_solve. apply dl_seg_app. simpl. simplify_map_eq. by rewrite !dl_seg_frame by nodup_solve.
      * by simplify_map_eq.
      * intros y Hy. dl_nodup. by simplify_map_eq.
      * dom_solve.
Qed.

(** ** What push and pop do to the pair of lists *)

(** The queue a unit is pushed on, from its counter before the push. *)
Definition abs_push (c : Z) (u : loc) (hi lo : list loc) : list loc * list loc :=
  if (c =? 0) || (SCHED_COUNTER_PRIORITY_LIMIT <=? c) then (hi, lo ++ [u]) else (hi ++ [u], lo).

(** The unit popped when the pop counter is [c]: the low-priority queue goes
    first once every 256 pops. *)
Definition abs_pop (c : Z) (hi lo : list loc) : option loc * list loc * list loc :=
  if negb (Z.land c 0xFF =? 0) then
    match hi, lo with
    | u :: hi, _ => (Some u, hi, lo)
    | [], u :: lo => (Some u, [], lo)
    | [], [] => (None, [], [])
    end
  else
    match lo, hi with
    | u :: lo, _ => (Some u, hi, lo)
    | [], u :: hi => (Some u, hi, [])
    | [], [] => (None, [], [])
    end.

Lemma prio_repr_links h p hi lo u :
  prio_repr h p hi lo -> u ∈ hi ++ lo -> exists x, h_units h !! u = Some x.
Proof.
  intros Hr Hu. apply (pr_dom _ _ _ _ Hr).
  destruct (pr_hi _ _ _ _ Hr) as (_ & _ & Hh), (pr_lo _ _ _ _ Hr) as (_ & _ & Hl).
  apply elem_of_app in Hu as [?|?]; eauto using dl_seg_lookup.
Qed.

(** Changing one unit [u] of a represented pool. *)
Lemma prio_repr_update h p hi lo h' p' hi' lo' u x x' :
  prio_repr h p hi lo ->
  cq_repr (h_links h') (high_prio_queue p') hi' ->
  cq_repr (h_links h') (low_prio_queue p') lo' ->
  NoDup (hi' ++ lo') ->
  (forall y, y ≠ u -> y ∈ hi' ++ lo' <-> y ∈ hi ++ lo) ->
  h_units h !! u = Some x ->
  h_units h' = <[u := x']> (h_units h) ->
  (is_in_pool x' = true <-> u ∈ hi' ++ lo') ->
  0 <= sched_counter x' <= SCHED_COUNTER_PRIORITY_LIMIT ->
  (forall y, is_Some (h_links h' !! y) <-> is_Some (h_links h !! y)) ->
  num p' = Z.of_nat (length hi' + length lo') -> num p' < 2 ^ 31 - 1 ->
  prio_repr h' p' hi' lo'.
Proof.
  intros Hr Hhi Hlo Hnd Hmem Hx Hus Hin Hc Hdom Hnum Hsmall. split; try done.
  - intros y. rewrite Hus, Hdom, <- (pr_dom _ _ _ _ Hr), lookup_insert_is_Some'.
    split; [intros [<-|?]; eauto|auto].
  - intros y z. rewrite Hus. destruct (decide (y = u)) as [->|Hne].
    + rewrite lookup_insert_eq. by intros [= <-].
    + rewrite lookup_insert_ne by done. rewrite Hmem by done. apply (pr_in _ _ _ _ Hr).
  - intros y z. rewrite Hus, lookup_insert. case_decide; [by intros [= <-]|].
    apply (pr_counter _ _ _ _ Hr).
Qed.

Lemma prio_repr_insert h p hi lo h' p' hi' lo' u x x' :
  prio_repr h p hi lo ->
  hi' ++ lo' ≡ₚ u :: hi ++ lo -> u ∉ hi ++ lo ->
  cq_repr (h_links h') (high_prio_queue p') hi' ->
  cq_repr (h_links h') (low_prio_queue p') lo' ->
  h_units h !! u = Some x ->
  h_units h' = <[u := x']> (h_units h) -> is_in_pool x' = true ->
  0 <= sched_counter x' <= SCHED_COUNTER_PRIORITY_LIMIT ->
  (forall y, is_Some (h_links h' !! y) <-> is_Some (h_links h !! y)) ->
  num p < 2 ^ 31 - 2 -> num p' = i32 (num p + 1) ->
  prio_repr h' p' hi' lo'.
Proof.
  intros Hr Hp Hu Hhi Hlo Hx Hus Hin Hc Hdom Hs Hnum.
  pose proof (pr_num _ _ _ _ Hr) as Hn. rewrite i32_id in Hnum by lia.
  pose proof (Permutation_length Hp) as Hlen. rewrite length_cons, !length_app in Hlen.
  eapply (prio_repr_update h p hi lo); eauto; try lia.
  - rewrite Hp. apply NoDup_cons. split; [done|apply (pr_nodup _ _ _ _ Hr)].
  - intros y Hy. rewrite Hp, elem_of_cons. tauto.
  - rewrite Hp, elem_of_cons. tauto.
Qed.

Lemma prio_repr_remove h p hi lo h' p' hi' lo' u x x' :
  prio_repr h p hi lo ->
  hi ++ lo ≡ₚ u :: hi' ++ lo' ->
  cq_repr (h_links h') (high_prio_queue p') hi' ->
  cq_repr (h_links h') (low_prio_queue p') lo' ->
  h_units h !! u = Some x ->
  h_units h' = <[u := x']> (h_units h) -> is_in_pool x' = false ->
  0 <= sched_counter x' <= SCHED_COUNTER_PRIORITY_LIMIT ->
  (forall y, is_Some (h_links h' !! y) <-> is_Some (h_links h !! y)) ->
  num p' = i32 (num p - 1) ->
  prio_repr h' p' hi' lo'.
Proof.
  intros Hr Hp Hhi Hlo Hx Hus Hin Hc Hdom Hnum.
  pose proof (pr_num _ _ _ _ Hr) as Hn. pose proof (pr_small _ _ _ _ Hr).
  rewrite i32_id in Hnum by lia.
  pose proof (Permutation_length Hp) as Hlen. rewrite length_cons, !length_app in Hlen.
  pose proof (pr_nodup _ _ _ _ Hr) as Hnd. rewrite Hp in Hnd. apply NoDup_cons in Hnd as [Hu Hnd].
  eapply (prio_repr_update h p hi lo); eauto; try lia.
  - intros y Hy. rewrite Hp, elem_of_cons. tauto.
  - rewrite Hin. split; [done|tauto].
Qed.

Lemma upd_unit_Some h u x f :
  h_units h !! u = Some x -> upd_unit h u f = Some (Heap (h_links h) (<[u := f x]> (h_units h))).
Proof. intros Hx. unfold upd_unit. by rewrite Hx. Qed.

(** The two queues do not share nodes, so an operation on one leaves the other
    as it was. *)
Lemma prio_repr_disj h p hi lo u :
  prio_repr h p hi lo -> u ∈ hi -> u ∉ lo.
Proof. intros Hr. pose proof (pr_nodup _ _ _ _ Hr) as (_ & Hd & _)%NoDup_app. apply Hd. Qed.

(** The unit after a push: its counter saturates at the limit. *)
Definition pushed (x : unit_t) : unit_t :=
  Unit_t (thread x) (task x) (Z.min SCHED_COUNTER_PRIORITY_LIMIT (sched_counter x + 1)) true.

(** Pushing a unit that is not in the pool. *)
Lemma pool_push_spec h p hi lo u x :
  prio_repr h p hi lo -> h_units h !! u = Some x -> is_in_pool x = false ->
  num p < 2 ^ 31 - 2 ->
  exists h' p',
    pool_push h p u = Some (h', p') /\
    prio_repr h' p' (abs_push (sched_counter x) u hi lo).1 (abs_push (sched_counter x) u hi lo).2 /\
    cnt p' = cnt p /\ h_units h' = <[u := pushed x]> (h_units h).
Proof.
  intros Hr Hx Hout Hsmall.
  assert (Hu : u ∉ hi ++ lo) by (rewrite <- (pr_in _ _ _ _ Hr u x Hx); congruence).
  assert (Hl : is_Some (h_links h !! u)) by (apply (pr_dom _ _ _ _ Hr); eauto).
  pose proof (pr_nodup _ _ _ _ Hr) as (Hnh & Hdisj & Hnl)%NoDup_app.
  pose proof (pr_counter _ _ _ _ Hr u x Hx) as Hc.
  pose proof Hu as [Huh Hul]%not_elem_of_app.
  unfold pool_push, abs_push. rewrite Hx. cbn [mbind option_bind].
  rewrite (upd_unit_Some h u x) by done. cbn [mbind option_bind].
  match goal with |- context [<[u := ?y]> (h_units h)] => set (x1 := y) end.
  assert (Hx1 : set_is_in_pool true x1 = pushed x).
  { unfold x1, set_is_in_pool, set_sched_counter, pushed.
    destruct (Z.ltb_spec (sched_counter x) SCHED_COUNTER_PRIORITY_LIMIT); simpl; f_equal; lia. }
  assert (H1 : (<[u := x1]> (h_units h)) !! u = Some x1) by by rewrite lookup_insert_eq.
  destruct ((sched_counter x =? 0) || _).
  - edestruct (queue_push_spec (Heap (h_links h) (<[u := x1]> (h_units h))) (low_prio_queue p))
      as (σ' & q' & -> & Hq & Hf & Hd); [apply (pr_lo _ _ _ _ Hr)|done..|].
    cbn [mbind option_bind h_units]. rewrite insert_insert_eq, Hx1.
    eexists _, _. split; [done|]. split; [|done].
    eapply (prio_repr_insert h p hi lo _ _ _ _ u x (pushed x)); simpl; try done.
    + rewrite (Permutation_app_comm lo), (Permutation_app_comm hi). simpl.
      by rewrite (Permutation_app_comm lo).
    + eapply cq_repr_frame; [|apply (pr_hi _ _ _ _ Hr)]. intros y Hy. apply Hf.
      apply not_elem_of_cons. split; [by intros ->|]. by apply Hdisj.
    + lia.
  - edestruct (queue_push_spec (Heap (h_links h) (<[u := x1]> (h_units h))) (high_prio_queue p))
      as (σ' & q' & -> & Hq & Hf & Hd); [apply (pr_hi _ _ _ _ Hr)|done..|].
    cbn [mbind option_bind h_units]. rewrite insert_insert_eq, Hx1.
    eexists _, _. split; [done|]. split; [|done].
    eapply (prio_repr_insert h p hi lo _ _ _ _ u x (pushed x)); simpl; try done.
    + by rewrite (Permutation_app_comm hi).
    + eapply cq_repr_frame; [|apply (pr_lo _ _ _ _ Hr)]. intros y Hy. apply Hf.
      apply not_elem_of_cons. split; [by intros ->|]. intros ?. by eapply Hdisj.
    + lia.
Qed.

Lemma pop_high_spec h p hi lo u :
  prio_repr h p (u :: hi) lo ->
  exists h' q', queue_pop h (high_prio_queue p) = Some (h', q', Some u) /\
    forall c, prio_repr h' (Pool_t q' (low_prio_queue p) (i32 (num p - 1)) c) hi lo.
Proof.
  intros Hr. destruct (prio_repr_links h p (u :: hi) lo u) as [x Hx]; [done|set_solver|].
  pose proof (pr_nodup _ _ _ _ Hr) as (Hnd & Hdisj & _)%NoDup_app.
  edestruct (queue_pop_spec h (high_prio_queue p) hi u x) as (σ' & q' & -> & Hq & _ & Hf & Hd);
    [apply (pr_hi _ _ _ _ Hr)|done..|].
  eexists _, _. split; [done|]. intros c.
  eapply (prio_repr_remove h p (u :: hi) lo _ _ _ _ u x); simpl; eauto.
  - eapply cq_repr_frame; [|apply (pr_lo _ _ _ _ Hr)]. intros y Hy. apply Hf.
    intros ?. by eapply Hdisj.
  - apply (pr_counter _ _ _ _ Hr u x Hx).
Qed.

Lemma pop_low_spec h p hi lo u :
  prio_repr h p hi (u :: lo) ->
  exists h' q', queue_pop h (low_prio_queue p) = Some (h', q', Some u) /\
    forall c, prio_repr h' (Pool_t (high_prio_queue p) q' (i32 (num p - 1)) c) hi lo.
Proof.
  intros Hr. destruct (prio_repr_links h p hi (u :: lo) u) as [x Hx]; [done|set_solver|].
  pose proof (pr_nodup _ _ _ _ Hr) as (_ & Hdisj & Hnd)%NoDup_app.
  edestruct (queue_pop_spec h (low_prio_queue p) lo u x) as (σ' & q' & -> & Hq & _ & Hf & Hd);
    [apply (pr_lo _ _ _ _ Hr)|done..|].
  eexists _, _. split; [done|]. intros c.
  eapply (prio_repr_remove h p hi (u :: lo) _ _ _ _ u x); simpl; eauto.
  - by rewrite Permutation_middle.
  - eapply cq_repr_frame; [|apply (pr_hi _ _ _ _ Hr)]. intros y Hy. apply Hf, Hdisj, Hy.
  - apply (pr_counter _ _ _ _ Hr u x Hx).
Qed.

Lemma prio_repr_cnt h p hi lo c :
  prio_repr h p hi lo ->
  prio_repr h (Pool_t (high_prio_queue p) (low_prio_queue p) (num p) c) hi lo.
Proof. intros []. by split. Qed.

Lemma pop_unit_spec h p hi lo :
  prio_repr h p hi lo ->
  exists h' p',
    pop_unit h p = Some (h', p', (abs_pop (cnt p) hi lo).1.1) /\
    prio_repr h' p' (abs_pop (cnt p) hi lo).1.2 (abs_pop (cnt p) hi lo).2 /\
    cnt p' = i32 (cnt p + 1).
Proof.
  intros Hr. unfold pop_unit, abs_pop. cbn [high_prio_queue low_prio_queue num cnt].
  destruct (negb _); destruct hi as [|u hi], lo as [|v lo].
  all: repeat match goal with
    | H : prio_repr ?h ?p (_ :: _) _ |- context [queue_pop ?h (high_prio_queue ?p)] =>
        let h' := fresh "h" in let q' := fresh "q" in
        destruct (pop_high_spec _ _ _ _ _ H) as (h' & q' & -> & Hr'); clear H
    | H : prio_repr ?h ?p _ (_ :: _) |- context [queue_pop ?h (low_prio_queue ?p)] =>
        let h' := fresh "h" in let q' := fresh "q" in
        destruct (pop_low_spec _ _ _ _ _ H) as (h' & q' & -> & Hr'); clear H
    | H : prio_repr ?h ?p [] _ |- context [queue_pop ?h (high_prio_queue ?p)] =>
        rewrite (queue_pop_empty h _ (pr_hi _ _ _ _ H))
    | H : prio_repr ?h ?p _ [] |- context [queue_pop ?h (low_prio_queue ?p)] =>
        rewrite (queue_pop_empty h _ (pr_lo _ _ _ _ H))
    | _ => progress (cbn [mbind option_bind fst snd high_prio_queue low_prio_queue num cnt])
    end; eexists _, _; eauto using prio_repr_cnt.
Qed.

Lemma pool_pop_spec h p hi lo :
  prio_repr h p hi lo ->
  exists h' p',
    pool_pop h p = Some (h', p', (abs_pop (cnt p) hi lo).1.1) /\
    prio_repr h' p' (abs_pop (cnt p) hi lo).1.2 (abs_pop (cnt p) hi lo).2 /\
    cnt p' = if num p =? 0 then cnt p else i32 (cnt p + 1).
Proof.
  intros Hr. unfold pool_pop. pose proof (pr_num _ _ _ _ Hr) as Hn.
  destruct (Z.eqb_spec (num p) 0).
  - destruct hi, lo; simpl in Hn; try lia. exists h, p. unfold abs_pop.
    by destruct (negb _).
  - by apply pop_unit_spec.
Qed.

(** ** Runs of a pool *)

(** A run alternates pushes of units that are not in the pool and pops; it
    lists the units delivered. *)
Inductive pool_op := OpPush (u : loc) | OpPop.

Inductive pool_run : heap -> pool_t -> list pool_op -> list loc -> heap -> pool_t -> Prop :=
| run_nil h p : pool_run h p [] [] h p
| run_push h p u x h1 p1 ops outs h' p' :
    h_units h !! u = Some x -> is_in_pool x = false -> num p < 2 ^ 31 - 2 ->
    pool_push h p u = Some (h1, p1) ->
    pool_run h1 p1 ops outs h' p' ->
    pool_run h p (OpPush u :: ops) outs h' p'
| run_pop h p r h1 p1 ops outs h' p' :
    pool_pop h p = Some (h1, p1, r) ->
    pool_run h1 p1 ops outs h' p' ->
    pool_run h p (OpPop :: ops) (match r with Some u => u :: outs | None => outs end) h' p'.

Definition is_pop (o : pool_op) : bool := match o with OpPop => true | _ => false end.
Definition pops (ops : list pool_op) : Z := Z.of_nat (length (List.filter is_pop ops)).

Lemma i32_mod256 x : i32 x mod 256 = x mod 256.
Proof.
  unfold i32. rewrite Zminus_mod. change (2 ^ 32) with (256 * 2 ^ 24).
  rewrite Z.rem_mul_r by lia. rewrite Z.mul_comm, Z.mod_add by lia.
  rewrite Zmod_mod, <- Zminus_mod. f_equal. lia.
Qed.

(** Pops left before the low-priority queue goes first. *)
Definition until_low (c : Z) : Z := (- c) mod 256.

Lemma until_low_next c : until_low (i32 (c + 1)) = if Z.land c 0xFF =? 0 then 255 else until_low c - 1.
Proof.
  unfold until_low.
  replace (Z.land c 0xFF) with (c mod 256) by (symmetry; apply (Z.land_ones c 8); lia).
  pose proof (i32_mod256 (c + 1)) as Hi.
  assert (Hm : (- i32 (c + 1)) mod 256 = (- (c + 1)) mod 256).
  { pose proof (Z.div_mod (i32 (c + 1)) 256). pose proof (Z.div_mod (c + 1) 256).
    replace (- i32 (c + 1)) with (- (c + 1) + ((c + 1) / 256 - i32 (c + 1) / 256) * 256) by lia.
    apply Z.mod_add. lia. }
  rewrite Hm. clear Hi Hm.
  destruct (Z.eqb_spec (c mod 256) 0); Z.to_euclidean_division_equations; lia.
Qed.

Lemma until_low_range c : 0 <= until_low c < 256.
Proof. apply Z.mod_pos_bound. lia. Qed.

Lemma overtaken_bound h p ops outs h' p' :
  pool_run h p ops outs h' p' ->
  forall hi lo k u, prio_repr h p hi lo -> lo !! k = Some u ->
    256 * Z.of_nat k + until_low (cnt p) < pops ops -> u ∈ outs.
Proof.
  induction 1 as [h p|h p w x h1 p1 ops outs h' p' Hx Hout Hsm Hpush Hrun IH
                 |h p r h1 p1 ops outs h' p' Hpop Hrun IH]; intros hi lo k u Hr Hk Hpops.
  - unfold pops in Hpops. simpl in Hpops. pose proof (until_low_range (cnt p)). lia.
  - destruct (pool_push_spec h p hi lo w x) as (h2 & p2 & Hp & Hr' & Hc & _); [done..|].
    rewrite Hpush in Hp. simplify_eq. eapply (IH _ _ k); [done| |by rewrite Hc].
    unfold abs_push. destruct (_ || _); simpl; [|done]. by apply lookup_app_l_Some.
  - destruct (pool_pop_spec h p hi lo Hr) as (h2 & p2 & Hp & Hr' & Hc).
    rewrite Hpop in Hp. simplify_eq.
    assert ((num p =? 0) = false) as Hne.
    { apply Z.eqb_neq. rewrite (pr_num _ _ _ _ Hr). apply lookup_lt_Some in Hk. lia. }
    rewrite Hne in Hc. pose proof (until_low_next (cnt p)) as Hnext. rewrite <- Hc in Hnext.
    pose proof (until_low_range (cnt p)).
    unfold pops in *. simpl in Hpops. unfold abs_pop in *.
    destruct (Z.land (cnt p) 0xFF =? 0) eqn:Hl; simpl in *.
    all: destruct lo as [|v lo]; [by rewrite lookup_nil in Hk|].
    all: destruct hi as [|w hi]; simpl in *; try (destruct k as [|k]; simpl in *; simplify_eq;
           [by left|right; eapply IH; [done..|]; lia]).
    right. eapply IH; [done|done|]. lia.
Qed.

(** ** Theorems *)

(** pushing a unit that is not in the pool puts it at the end of one
    queue and leaves the other queue as it is: the low-priority queue on the
    unit's first push and once it has been pushed 25 times, the high-priority
    queue in between; the unit's counter grows by one up to 25 and the size of
    the pool by one. *)
Theorem pool_push_correct h p hi lo u x :
  prio_repr h p hi lo -> h_units h !! u = Some x -> is_in_pool x = false ->
  num p < 2 ^ 31 - 2 ->
  exists h' p',
    pool_push h p u = Some (h', p') /\
    (if decide (sched_counter x = 0 \/ 25 <= sched_counter x)
     then prio_repr h' p' hi (lo ++ [u]) else prio_repr h' p' (hi ++ [u]) lo) /\
    h_units h' = <[u := Unit_t (thread x) (task x) (Z.min 25 (sched_counter x + 1)) true]>
                   (h_units h) /\
    pool_get_size p' = pool_get_size p + 1.
Proof.
  intros Hr Hx Hout Hs. destruct (pool_push_spec h p hi lo u x) as (h' & p' & Hp & Hr' & _ & Hu);
    [done..|].
  exists h', p'. split; [done|]. split; [|split; [done|]].
  - unfold abs_push, SCHED_COUNTER_PRIORITY_LIMIT in Hr'.
    destruct (Z.eqb_spec (sched_counter x) 0), (Z.leb_spec 25 (sched_counter x));
      case_decide; simpl in Hr'; first [done|lia].
  - unfold pool_get_size. rewrite (pr_num _ _ _ _ Hr), (pr_num _ _ _ _ Hr').
    unfold abs_push. destruct (_ || _); simpl; rewrite length_app; simpl; lia.
Qed.

(** A heap with three units outside any pool. *)
Definition demo_heap : heap :=
  pool_unit_create_from_task
    (pool_unit_create_from_thread
      (pool_unit_create_from_thread (Heap ∅ ∅) 1%positive 11) 2%positive 12) 3%positive 13.

Lemma pool_init_repr h :
  (forall u, is_Some (h_units h !! u) <-> is_Some (h_links h !! u)) ->
  (forall u x, h_units h !! u = Some x -> is_in_pool x = false /\ sched_counter x = 0) ->
  prio_repr h pool_init [] [].
Proof.
  intros Hd Hu. split; try done.
  - apply NoDup_nil_2.
  - intros u x Hx. destruct (Hu u x Hx) as [-> _]. split; [done|]. by intros ?%elem_of_nil.
  - intros u x Hx. destruct (Hu u x Hx) as [_ ->]. unfold SCHED_COUNTER_PRIORITY_LIMIT. lia.
Qed.

Lemma demo_repr : prio_repr demo_heap pool_init [] [].
Proof.
  apply pool_init_repr.
  - intros u. simpl. rewrite !lookup_insert_is_Some', !lookup_empty.
    pose proof (@is_Some_None unit_t). pose proof (@is_Some_None links). tauto.
  - intros u x. simpl. rewrite !lookup_insert, lookup_empty.
    repeat case_decide; intros ?; by simplify_eq.
Qed.

Lemma pool_push_correct_witness :
  exists h' p', pool_push demo_heap pool_init 1%positive = Some (h', p') /\
    pool_get_size p' = 1.
Proof.
  destruct (pool_push_correct demo_heap pool_init [] [] 1%positive (Unit_t (Some 11) None 0 false))
    as (h' & p' & Hp & _ & _ & Hn); [exact demo_repr|reflexivity|reflexivity|reflexivity|].
  exists h', p'. split; [exact Hp|exact Hn].
Defined.

(** popping a pool delivers the head of the high-priority queue, or the
    head of the low-priority one when the high-priority queue is empty, except
    on one pop in 256, where the low-priority queue goes first; nothing is
    delivered only when both queues are empty, and the delivered unit leaves
    the pool. *)
Theorem pool_pop_correct h p hi lo :
  prio_repr h p hi lo ->
  exists h' p',
    match (if decide (cnt p mod 256 = 0) then lo ++ hi else hi ++ lo) with
    | [] => pool_pop h p = Some (h, p, None)
    | u :: rest =>
        pool_pop h p = Some (h', p', Some u) /\
        (exists hi' lo', prio_repr h' p' hi' lo' /\
           rest = (if decide (cnt p mod 256 = 0) then lo' ++ hi' else hi' ++ lo')) /\
        (forall x, h_units h' !! u = Some x -> is_in_pool x = false) /\
        pool_get_size p' = pool_get_size p - 1
    end.
Proof.
  intros Hr. destruct (pool_pop_spec h p hi lo Hr) as (h' & p' & Hp & Hr' & _).
  exists h', p'. unfold abs_pop in *.
  assert (Hl : Z.land (cnt p) 0xFF = cnt p mod 256) by (apply (Z.land_ones _ 8); lia).
  rewrite Hl in *. unfold pool_get_size. pose proof (pr_num _ _ _ _ Hr) as Hn.
  assert (Hnot : forall u l1 l2 k1 k2, prio_repr h p l1 l2 -> prio_repr h' p' k1 k2 ->
            l1 ++ l2 ≡ₚ u :: k1 ++ k2 ->
            (forall x, h_units h' !! u = Some x -> is_in_pool x = false) /\ num p' = num p - 1).
  { intros u l1 l2 k1 k2 H1 H2 Hperm. split.
    - intros x Hx. destruct (is_in_pool x) eqn:E; [|done].
      apply (pr_in _ _ _ _ H2 u x Hx) in E. pose proof (pr_nodup _ _ _ _ H1) as Hnd.
      rewrite Hperm in Hnd. by apply NoDup_cons in Hnd as [? _].
    - rewrite (pr_num _ _ _ _ H1), (pr_num _ _ _ _ H2). apply Permutation_length in Hperm.
      simpl in Hperm. rewrite !length_app in Hperm. lia. }
  destruct (Z.eqb_spec (cnt p mod 256) 0); case_decide; try done; simpl in *;
    destruct hi as [|a hi], lo as [|b lo]; simpl in *; simplify_eq.
  all: try (unfold pool_pop in *; rewrite Hn; done).
  all: split; [done|split; [eexists _, _; split; [exact Hr'|]|eapply Hnot; eauto]];
    rewrite ?app_nil_r; try done.
  all: simpl; try done.
  apply (Permutation_sym (Permutation_middle (a :: hi) lo b)).
Qed.

Lemma pool_pop_correct_witness :
  exists h1 p1 h' p',
    pool_push demo_heap pool_init 1%positive = Some (h1, p1) /\
    pool_pop h1 p1 = Some (h', p', Some 1%positive) /\ pool_get_size p' = 0.
Proof.
  destruct (pool_push_spec demo_heap pool_init [] [] 1%positive (Unit_t (Some 11) None 0 false))
    as (h1 & p1 & Hp & Hr & Hc & _); [exact demo_repr|reflexivity|reflexivity|reflexivity|].
  destruct (pool_pop_correct h1 p1 [] [1%positive]) as (h' & p' & Hpop); [exact Hr|].
  rewrite Hc in Hpop. destruct Hpop as (Hpop & _ & _ & Hn).
  exists h1, p1, h', p'. split; [exact Hp|]. split; [exact Hpop|].
  rewrite Hn. unfold pool_get_size. rewrite (pr_num _ _ _ _ Hr). reflexivity.
Defined.

(** C8: no starvation of new work.  The unit at position [k] of the
    low-priority queue is delivered within [256 * (k + 1)] pops, whatever is
    pushed in the meantime. *)
Theorem low_prio_not_starved h p hi lo k u ops outs h' p' :
  prio_repr h p hi lo -> lo !! k = Some u ->
  pool_run h p ops outs h' p' ->
  256 * (Z.of_nat k + 1) <= pops ops ->
  u ∈ outs.
Proof.
  intros Hr Hk Hrun Hp. eapply overtaken_bound; [done..|].
  pose proof (until_low_range (cnt p)). lia.
Qed.

Lemma repeat_pop_run n : forall h p hi lo,
  prio_repr h p hi lo -> exists outs h' p', pool_run h p (repeat OpPop n) outs h' p'.
Proof.
  induction n as [|n IH]; intros h p hi lo Hr; [eexists _, _, _; constructor|].
  destruct (pool_pop_spec h p hi lo Hr) as (h1 & p1 & Hp & Hr1 & _).
  destruct (IH h1 p1 _ _ Hr1) as (outs & h' & p' & Hrun).
  eexists _, _, _. simpl. econstructor; eauto.
Qed.

Lemma low_prio_not_starved_witness :
  exists h1 p1 outs h' p',
    pool_push demo_heap pool_init 1%positive = Some (h1, p1) /\
    pool_run h1 p1 (repeat OpPop 256) outs h' p' /\ 1%positive ∈ outs.
Proof.
  destruct (pool_push_spec demo_heap pool_init [] [] 1%positive (Unit_t (Some 11) None 0 false))
    as (h1 & p1 & Hp & Hr & Hc & _); [exact demo_repr|reflexivity|reflexivity|reflexivity|].
  destruct (repeat_pop_run 256 h1 p1 [] [1%positive] Hr) as (outs & h' & p' & Hrun).
  exists h1, p1, outs, h', p'. split; [exact Hp|]. split; [exact Hrun|].
  apply (low_prio_not_starved h1 p1 [] [1%positive] 0 1%positive (repeat OpPop 256) outs h' p');
    [exact Hr|reflexivity|exact Hrun|vm_compute; discriminate].
Defined.

(** [pool_remove] does not take the head of a queue out of it.  The queues
    are circular, so the unit's [p_prev] is never NULL and the branches that
    would move [p_head] are not taken: the removed unit stays at the head of
    the low-priority queue although the size of the pool went down. *)
Theorem pool_remove_keeps_head h p hi lo u :
  prio_repr h p hi (u :: lo) ->
  exists h' p', pool_remove h p u = Some (h', p') /\
    p_head (low_prio_queue p') = Some u /\ pool_get_size p' = pool_get_size p - 1.
Proof.
  intros Hr. pose proof (pr_small _ _ _ _ Hr). pose proof (pr_num _ _ _ _ Hr) as Hn.
  destruct (pr_lo _ _ _ _ Hr) as (Hh & _ & Hs).
  pose proof (pr_nodup _ _ _ _ Hr) as (_ & _ & Hnd)%NoDup_app. simpl in Hn.
  unfold pool_remove. destruct lo as [|t lo _] using rev_ind; [|rewrite app_comm_cons, last_snoc in *].
  - destruct Hs as [Hu _]. simpl in *. prio_run. eexists _, _. split; [done|].
    split; [done|]. unfold pool_get_size. simpl. rewrite i32_id; lia.
  - destruct Hs as [Hu Hs]. simpl in Hu. destruct lo as [|n lo]; simpl in Hs.
    + destruct Hs as [Ht _]. simpl in *. dl_nodup. prio_run. eexists _, _. split; [done|].
      split; [done|]. unfold pool_get_size. simpl. rewrite i32_id; lia.
    + destruct Hs as [Hn' Hs]. apply dl_seg_app in Hs as [_ [Ht _]]. simpl in *. dl_nodup.
      prio_run. eexists _, _. split; [done|].
      split; [done|]. unfold pool_get_size. simpl. rewrite i32_id; lia.
Qed.

Lemma pool_remove_keeps_head_witness :
  exists h1 p1 h' p', pool_push demo_heap pool_init 1%positive = Some (h1, p1) /\
    pool_remove h1 p1 1%positive = Some (h', p') /\
    p_head (low_prio_queue p') = Some 1%positive.
Proof.
  destruct (pool_push_spec demo_heap pool_init [] [] 1%positive (Unit_t (Some 11) None 0 false))
    as (h1 & p1 & Hp & Hr & Hc & _); [exact demo_repr|reflexivity|reflexivity|reflexivity|].
  destruct (pool_remove_keeps_head h1 p1 [] [] 1%positive Hr) as (h' & p' & Hrm & Hh & _).
  exists h1, p1, h', p'. split; [exact Hp|]. split; [exact Hrm|exact Hh].
Defined.
