(* ===== verification/EfirstPool.v ===== *)
(** * The earliest-first pool (src/margo-efirst-pool.c)

    A pool of Argobots work units that serves the unit created first: a binary
    min-heap in an array indexed from 1, keyed by the order of first push, for
    units that were pushed fewer than 32 times, and a FIFO list threaded
    through the units for the older ones; pops alternate between the two.  The
    file models every function of the pool definition table, relates the
    array and the links to a set and a list, and shows that the heap serves
    its minimum, that the FIFO list serves its head, and that no unit of the
    FIFO list waits for more than two pops per unit before it. *)

From S2P Require Import Prelude Utlist.

(** ** Data *)

Definition IS_IN_POOL : Z := 0x1.
Definition IS_THREAD : Z := 0x2.

(** [unit_t]: the [thread] / [task] union is one word, [handle]. *)
Record unit_t := Unit_t {
  handle : Z;
  priority : Z;
  flag : Z;
  cs_count : Z;
  u_next : option loc
}.

Abbreviation units := (gmap loc unit_t).

(** [prio.entries] has [capacity + 1] cells; a cell that was never written is
    absent from the map, and a write outside of the array has no result. *)
Record prio_t := Prio { entries : gmap Z loc; capacity : Z; prio_size : Z }.
Record fifo_t := Fifo { first : option loc; fifo_last : option loc; fifo_size : Z }.
Record queue_t := Queue_t { n_pops : Z; prio : prio_t; fifo : fifo_t }.

Record pool_t := Pool_t { queue : queue_t; num : Z }.

Inductive ABT_unit_type := ABT_UNIT_TYPE_THREAD | ABT_UNIT_TYPE_TASK.

(** ** Field updates *)

Definition set_priority (v : Z) (u : unit_t) : unit_t :=
  Unit_t (handle u) v (flag u) (cs_count u) (u_next u).
Definition set_flag (v : Z) (u : unit_t) : unit_t :=
  Unit_t (handle u) (priority u) v (cs_count u) (u_next u).
Definition set_cs_count (v : Z) (u : unit_t) : unit_t :=
  Unit_t (handle u) (priority u) (flag u) v (u_next u).
Definition set_u_next (v : option loc) (u : unit_t) : unit_t :=
  Unit_t (handle u) (priority u) (flag u) (cs_count u) v.

Definition upd (h : units) (u : loc) (f : unit_t -> unit_t) : option units :=
  x ← h !! u; Some (<[u := f x]> h).

Definition write_entry (cap : Z) (e : gmap Z loc) (i : Z) (u : loc) : option (gmap Z loc) :=
  if (0 <=? i) && (i <=? cap) then Some (<[i := u]> e) else None.

(** ** The queue *)

Definition create_queue (initial_capacity : Z) : queue_t :=
  Queue_t 0 (Prio ∅ initial_capacity 0) (Fifo None None 0).

(** The loop of [queue_push_prio]; [index] is halved at every iteration, so
    [fuel] above [index] is enough. *)
Fixpoint sift_up (fuel : nat) (h : units) (cap : Z) (e : gmap Z loc) (new : loc) (index : Z)
    : option (gmap Z loc * Z) :=
  match fuel with
  | O => None
  | S fuel =>
      if 1 <? index then
        x ← h !! new;
        up ← e !! (index / 2);
        y ← h !! up;
        if priority x <? priority y then
          e ← write_entry cap e index up;
          sift_up fuel h cap e new (index / 2)
        else Some (e, index)
      else Some (e, index)
  end.

Definition queue_push_prio (h : units) (q : queue_t) (u : loc) : option (units * queue_t) :=
  let p := prio q in
  let size := prio_size p in
  let cap := if capacity p <=? size then u64 (capacity p * 2) else capacity p in
  let size := u64 (size + 1) in
  '(e, index) ← sift_up (S (Z.to_nat size)) h cap (entries p) u size;
  e ← write_entry cap e index u;
  h ← upd h u (fun x => set_flag (Z.lor (flag x) IS_IN_POOL) x);
  Some (h, Queue_t (n_pops q) (Prio e cap size) (fifo q)).

Definition queue_push_fifo (h : units) (q : queue_t) (u : loc) : option (units * queue_t) :=
  let f := fifo q in
  h ← upd h u (set_u_next None);
  '(h, fst) ←
    (if fifo_size f =? 0 then Some (h, Some u)
     else
       l ← fifo_last f;
       h ← upd h l (set_u_next (Some u));
       Some (h, first f));
  h ← upd h u (fun x => set_flag (Z.lor (flag x) IS_IN_POOL) x);
  Some (h, Queue_t (n_pops q) (prio q) (Fifo fst (Some u) (u64 (fifo_size f + 1)))).

Definition queue_push (h : units) (q : queue_t) (u : loc) : option (units * queue_t) :=
  x ← h !! u;
  if cs_count x <? 32 then
    '(h, q) ← queue_push_prio h q u;
    h ← upd h u (fun x => set_cs_count (u8 (cs_count x + 1)) x);
    Some (h, q)
  else queue_push_fifo h q u.

(** The loop of [queue_pop_prio]: the hole at [index] moves down; [fuel] above
    [size - index] is enough. *)
Fixpoint sift_down (fuel : nat) (h : units) (cap : Z) (e : gmap Z loc) (last_entry : loc)
    (size index : Z) : option (gmap Z loc * Z) :=
  match fuel with
  | O => None
  | S fuel =>
      if index * 2 <=? size then
        let child := index * 2 in
        child ←
          (if child =? size then Some child
           else
             c1 ← e !! (child + 1); x1 ← h !! c1;
             c0 ← e !! child; x0 ← h !! c0;
             Some (if priority x1 <? priority x0 then child + 1 else child));
        x ← h !! last_entry;
        c ← e !! child; y ← h !! c;
        if priority y <? priority x then
          e ← write_entry cap e index c;
          sift_down fuel h cap e last_entry size child
        else Some (e, index)
      else Some (e, index)
  end.

Definition queue_pop_prio (h : units) (q : queue_t) : option (units * queue_t * option loc) :=
  let p := prio q in
  let size := prio_size p in
  if size =? 0 then Some (h, q, None)
  else
    min_entry ← entries p !! 1;
    last_entry ← entries p !! size;
    let size := size - 1 in
    '(e, index) ← sift_down (S (Z.to_nat size)) h (capacity p) (entries p) last_entry size 1;
    e ← write_entry (capacity p) e index last_entry;
    h ← upd h min_entry (fun x => set_flag (Z.lxor (flag x) IS_IN_POOL) x);
    Some (h, Queue_t (n_pops q) (Prio e (capacity p) size) (fifo q), Some min_entry).

Definition queue_pop_fifo (h : units) (q : queue_t) : option (units * queue_t * option loc) :=
  let f := fifo q in
  if fifo_size f =? 0 then Some (h, q, None)
  else
    u ← first f;
    x ← h !! u;
    let size := fifo_size f - 1 in
    let lst := if size =? 0 then None else fifo_last f in
    h ← upd h u (set_u_next None);
    h ← upd h u (fun x => set_flag (Z.lxor (flag x) IS_IN_POOL) x);
    Some (h, Queue_t (n_pops q) (prio q) (Fifo (u_next x) lst size), Some u).

Definition queue_pop (h : units) (q : queue_t) : option (units * queue_t * option loc) :=
  let q := Queue_t (u64 (n_pops q + 1)) (prio q) (fifo q) in
  if n_pops q mod 2 =? 0 then
    if 0 <? fifo_size (fifo q) then queue_pop_fifo h q else queue_pop_prio h q
  else
    if 0 <? prio_size (prio q) then queue_pop_prio h q else queue_pop_fifo h q.

(** ** Units *)

Definition pool_unit_get_type (u : unit_t) : ABT_unit_type :=
  if negb (Z.land (flag u) IS_THREAD =? 0) then ABT_UNIT_TYPE_THREAD else ABT_UNIT_TYPE_TASK.

Definition pool_unit_get_thread (u : unit_t) : Z := handle u.
Definition pool_unit_get_task (u : unit_t) : Z := handle u.
Definition pool_unit_is_in_pool (u : unit_t) : Z := Z.land (flag u) IS_IN_POOL.

(** [new] is the address [calloc] returns. *)
Definition pool_unit_create_from_thread (h : units) (new : loc) (t : Z) : units :=
  <[new := Unit_t t 0 IS_THREAD 0 None]> h.
Definition pool_unit_create_from_task (h : units) (new : loc) (t : Z) : units :=
  <[new := Unit_t t 0 0 0 None]> h.
Definition pool_unit_free (h : units) (u : loc) : units := delete u h.

(** ** The pool *)

Definition pool_init : pool_t := Pool_t (create_queue 32) 0.

Definition pool_get_size (p : pool_t) : Z :=
  u64 (prio_size (prio (queue p)) + fifo_size (fifo (queue p))).

Definition pool_push (h : units) (p : pool_t) (u : loc) : option (units * pool_t) :=
  x ← h !! u;
  '(h, n) ←
    (if priority x =? 0 then
       let n := u64 (num p + 1) in
       h ← upd h u (set_priority n); Some (h, n)
     else Some (h, num p));
  '(h, q) ← queue_push h (queue p) u;
  Some (h, Pool_t q n).

Definition pool_pop (h : units) (p : pool_t) : option (units * pool_t * option loc) :=
  if (prio_size (prio (queue p)) =? 0) && (fifo_size (fifo (queue p)) =? 0)
  then Some (h, p, None)
  else
    '(h, q, u) ← queue_pop h (queue p);
    Some (h, Pool_t q (num p), u).

(** [wait] is what other threads do to the pool while the caller is blocked in
    [pthread_cond_timedwait]. *)
Definition pool_pop_timedwait (wait : units -> pool_t -> units * pool_t)
    (h : units) (p : pool_t) : option (units * pool_t * option loc) :=
  let '(h, p) :=
    if (prio_size (prio (queue p)) =? 0) && (fifo_size (fifo (queue p)) =? 0)
    then wait h p else (h, p) in
  '(h, q, u) ← queue_pop h (queue p);
  Some (h, Pool_t q (num p), u).

(** ** The array as a set with a hole *)

(** The cells [1..n] except [k] hold each unit of [S] once. *)
Record hole_repr (e : gmap Z loc) (n k : Z) (S : gset loc) : Prop := {
  hr_cell : forall i, 1 <= i <= n -> i ≠ k -> exists u, e !! i = Some u /\ u ∈ S;
  hr_elem : forall u, u ∈ S -> exists i, 1 <= i <= n /\ i ≠ k /\ e !! i = Some u;
  hr_inj : forall i j u, 1 <= i <= n -> 1 <= j <= n -> i ≠ k -> j ≠ k ->
    e !! i = Some u -> e !! j = Some u -> i = j
}.

(** The priority of the unit in cell [i]. *)
Definition pri (h : units) (u : loc) : Z := from_option priority 0 (h !! u).
Definition key (h : units) (e : gmap Z loc) (i : Z) : Z := from_option (pri h) 0 (e !! i).

(** Heap order everywhere except at the hole; the children of the hole are
    above its parent. *)
Record hole_heap (h : units) (e : gmap Z loc) (n k : Z) (S : gset loc) : Prop := {
  hh_repr : hole_repr e n k S;
  hh_order : forall i, 2 <= i <= n -> i ≠ k -> i / 2 ≠ k -> key h e (i / 2) <= key h e i;
  hh_grand : forall c, 2 <= c <= n -> c / 2 = k -> 1 < k -> key h e (k / 2) <= key h e c
}.

Ltac div_lia := Z.to_euclidean_division_equations; lia.

Lemma hole_move e n k j S u :
  hole_repr e n k S -> 1 <= k <= n -> 1 <= j <= n -> j ≠ k -> e !! j = Some u ->
  hole_repr (<[k := u]> e) n j S.
Proof.
  intros [Hc He Hi] Hk Hj Hne Hu. split.
  - intros i Hir Hij. destruct (decide (i = k)) as [->|Hik].
    + exists u. simplify_map_eq. split; [done|]. destruct (Hc j) as (v & ? & ?); [done..|]. congruence.
    + simplify_map_eq. by apply Hc.
  - intros v Hv. destruct (He v Hv) as (i & Hir & Hik & Hvi).
    destruct (decide (i = j)) as [->|Hij].
    + exists k. simplify_map_eq. done.
    + exists i. by simplify_map_eq.
  - intros i i' v Hir Hir' Hij Hij' H1 H2. rewrite lookup_insert in H1, H2.
    repeat case_decide; simplify_eq; try done.
    all: solve [by eapply Hi | destruct Hij; by eapply Hi | destruct Hij'; by eapply Hi].
Qed.

Lemma hole_fill e n k S u :
  hole_repr e n k S -> 1 <= k <= n -> u ∉ S -> hole_repr (<[k := u]> e) n 0 ({[u]} ∪ S).
Proof.
  intros [Hc He Hi] Hk Hu. split.
  - intros i Hir _. destruct (decide (i = k)) as [->|Hik]; simplify_map_eq; [exists u; set_solver|].
    destruct (Hc i) as (v & ? & ?); [done..|]. exists v. set_solver.
  - intros v [->%elem_of_singleton|Hv]%elem_of_union.
    + exists k. simplify_map_eq. split_and!; [lia..|done].
    + destruct (He v Hv) as (i & ? & ? & ?). exists i. simplify_map_eq. split_and!; [lia..|done].
  - intros i j v Hir Hjr _ _ H1 H2. rewrite lookup_insert in H1, H2.
    repeat case_decide; simplify_eq; try done.
    all: solve [by eapply Hi
               |match goal with H : _ !! ?x = Some _ |- _ => destruct (Hc x) as (w & ? & ?) end;
                [done|done|congruence]].
Qed.

Lemma key_insert_ne h e k i u : i ≠ k -> key h (<[k := u]> e) i = key h e i.
Proof. intros. unfold key. by rewrite lookup_insert_ne. Qed.
Lemma key_insert_eq h e k u : key h (<[k := u]> e) k = pri h u.
Proof. unfold key. by rewrite lookup_insert_eq. Qed.
Lemma key_Some h e i u : e !! i = Some u -> key h e i = pri h u.
Proof. unfold key. by intros ->. Qed.

(** Moving the hole to the parent. *)
Lemma hole_heap_up h e n k S u :
  hole_heap h e n k S -> 1 < k <= n -> e !! (k / 2) = Some u ->
  hole_heap h (<[k := u]> e) n (k / 2) S.
Proof.
  intros [Hr Ho Hg] Hk Hu. pose proof (key_Some h e _ _ Hu) as Hku. split.
  - apply hole_move; [done|lia|div_lia|div_lia|done].
  - intros i Hi Hik Hik2. rewrite (key_insert_ne h e k i) by congruence.
    destruct (decide (i / 2 = k)) as [E|].
    + rewrite E, key_insert_eq, <- Hku. by apply Hg; [| |lia].
    + rewrite key_insert_ne by done. apply Ho; [lia|congruence|done].
  - intros c Hc Hck Hk1.
    rewrite (key_insert_ne h e k (k / 2 / 2)) by div_lia.
    assert (Hp : key h e (k / 2 / 2) <= key h e (k / 2)) by (apply Ho; div_lia).
    destruct (decide (c = k)) as [->|]; [rewrite key_insert_eq; lia|].
    rewrite key_insert_ne by done. etrans; [exact Hp|]. rewrite <- Hck. apply Ho; div_lia.
Qed.

(** Moving the hole to its smallest child. *)
Lemma hole_heap_down h e n k c S u :
  hole_heap h e n k S -> 1 <= k -> c / 2 = k -> 2 <= c <= n -> e !! c = Some u ->
  (forall d, 2 <= d <= n -> d / 2 = k -> pri h u <= key h e d) ->
  hole_heap h (<[k := u]> e) n c S.
Proof.
  intros [Hr Ho Hg] Hk Hck Hc Hu Hmin. pose proof (key_Some h e _ _ Hu) as Hku. split.
  - eapply hole_move; [done|div_lia|lia|div_lia|done].
  - intros i Hi Hic Hic2. destruct (decide (i = k)) as [->|Hik].
    + rewrite key_insert_eq, key_insert_ne, <- Hku by div_lia. apply Hg; [done|done|div_lia].
    + rewrite (key_insert_ne h e k i) by done. destruct (decide (i / 2 = k)) as [E|].
      * rewrite E, key_insert_eq. by apply Hmin.
      * rewrite key_insert_ne by done. by apply Ho.
  - intros d Hd Hdc _. rewrite Hck, key_insert_eq, key_insert_ne, <- Hku by div_lia.
    rewrite <- Hdc. apply Ho; div_lia.
Qed.

Lemma hole_heap_fill h e n k S u :
  hole_heap h e n k S -> 1 <= k <= n -> u ∉ S ->
  (1 < k -> key h e (k / 2) <= pri h u) ->
  (forall c, 2 <= c <= n -> c / 2 = k -> pri h u <= key h e c) ->
  hole_heap h (<[k := u]> e) n 0 ({[u]} ∪ S).
Proof.
  intros [Hr Ho Hg] Hk Hu Hup Hdown. split; [by apply hole_fill| |lia].
  intros i Hi _ _. destruct (decide (i = k)) as [->|].
  - rewrite key_insert_eq, key_insert_ne by div_lia. apply Hup. lia.
  - rewrite (key_insert_ne h e k i) by done. destruct (decide (i / 2 = k)) as [E|].
    + rewrite E, key_insert_eq. by apply Hdown.
    + rewrite key_insert_ne by done. by apply Ho.
Qed.

(** The root of a heap holds its minimum. *)
Lemma heap_root_min h e n S i :
  hole_heap h e n 0 S -> 1 <= i <= n -> key h e 1 <= key h e i.
Proof.
  intros [_ Ho _]. pattern i. apply (well_founded_induction (Z.lt_wf 0)). clear i. intros i IH Hi.
  destruct (decide (i = 1)) as [->|]; [done|].
  etrans; [apply (IH (i / 2))|apply Ho]; div_lia.
Qed.

(** The heap only depends on the priorities of its units. *)
Lemma key_ext h h' e n k S i :
  hole_repr e n k S -> (forall u, u ∈ S -> pri h' u = pri h u) ->
  1 <= i <= n -> i ≠ k -> key h' e i = key h e i.
Proof.
  intros Hr Hp Hi Hik. destruct (hr_cell _ _ _ _ Hr i) as (u & Hu & HS); [done..|].
  rewrite !(key_Some _ _ _ _ Hu). auto.
Qed.

Lemma hole_heap_ext h h' e n k S :
  (forall u, u ∈ S -> pri h' u = pri h u) -> hole_heap h e n k S -> hole_heap h' e n k S.
Proof.
  intros Hp [Hr Ho Hg]. split; [done| |].
  - intros i ???. rewrite !(key_ext h h' e n k S) by first [done|div_lia]. by apply Ho.
  - intros c ???. rewrite !(key_ext h h' e n k S) by first [done|div_lia]. by apply Hg.
Qed.

(** Opening a hole at the end, and closing the last cell. *)
Lemma hole_heap_grow h e n S :
  0 <= n -> hole_heap h e n 0 S -> hole_heap h e (n + 1) (n + 1) S.
Proof.
  intros Hn [[Hc He Hi] Ho Hg]. split; [split| |].
  - intros. apply Hc; lia.
  - intros u Hu. destruct (He u Hu) as (i & ? & ? & ?). exists i. split_and!; [lia..|done].
  - intros i j u ????. apply Hi; lia.
  - intros. apply Ho; div_lia.
  - intros. div_lia.
Qed.

Lemma hole_heap_open h e n S m l :
  2 <= n -> hole_heap h e n 0 S -> e !! 1 = Some m -> e !! n = Some l ->
  hole_heap h e (n - 1) 1 (S ∖ {[m; l]}).
Proof.
  intros Hn [[Hc He Hi] Ho Hg] Hm Hl. split; [split| |].
  - intros i Hir Hi1. destruct (Hc i) as (u & Hu & HS); [lia..|]. exists u. split; [done|].
    assert (u ≠ m) by (intros ->; destruct Hi1; eapply Hi; eauto; lia).
    assert (u ≠ l) by (intros ->; assert (i = n) by (eapply Hi; eauto; lia); lia).
    set_solver.
  - intros u Hu. destruct (He u) as (i & ? & ? & ?); [set_solver|].
    exists i. assert (i ≠ 1) by (intros ->; set_solver).
    assert (i ≠ n) by (intros ->; set_solver). split_and!; [lia..|done].
  - intros i j u ????. apply Hi; lia.
  - intros. apply Ho; div_lia.
  - intros. lia.
Qed.

Lemma lookup_pri h u x : h !! u = Some x -> pri h u = priority x.
Proof. unfold pri. by intros ->. Qed.

Lemma write_entry_Some cap e i u : 0 <= i <= cap -> write_entry cap e i u = Some (<[i := u]> e).
Proof.
  intros. unfold write_entry. rewrite (proj2 (Z.leb_le _ _)), (proj2 (Z.leb_le _ _)) by lia. done.
Qed.

Section loops.
Context (h : units) (cap n : Z) (S : gset loc) (u : loc) (x : unit_t).
Hypothesis Hcap : n <= cap.
Hypothesis Hux : h !! u = Some x.
Hypothesis HuS : u ∉ S.
Hypothesis Halloc : forall v, v ∈ S -> is_Some (h !! v).

(** Where a loop may stop: the hole can be filled with [u]. *)
Definition fits (e : gmap Z loc) (k : Z) : Prop :=
  1 <= k <= n /\ hole_heap h e n k S /\
  (1 < k -> key h e (k / 2) <= pri h u) /\
  (forall c, 2 <= c <= n -> c / 2 = k -> pri h u <= key h e c).

Lemma cell_unit e k i : hole_repr e n k S -> 1 <= i <= n -> i ≠ k ->
  exists v y, e !! i = Some v /\ h !! v = Some y /\ key h e i = priority y.
Proof.
  intros Hr Hi Hik. destruct (hr_cell _ _ _ _ Hr i) as (v & Hv & HS); [done..|].
  destruct (Halloc v HS) as [y Hy]. exists v, y.
  by rewrite (key_Some _ _ _ _ Hv), (lookup_pri _ _ _ Hy).
Qed.

Lemma sift_up_spec fuel : forall e k,
  k < Z.of_nat fuel -> 1 <= k <= n -> hole_heap h e n k S ->
  (forall c, 2 <= c <= n -> c / 2 = k -> pri h u <= key h e c) ->
  exists e' k', sift_up fuel h cap e u k = Some (e', k') /\ fits e' k'.
Proof.
  induction fuel as [|fuel IH]; intros e k Hf Hk Hh Hdown; [lia|]. simpl.
  destruct (Z.ltb_spec 1 k) as [H1|]; [|exists e, k; split; [done|]; unfold fits; split_and!; [lia|lia|done|lia|done]].
  rewrite Hux. destruct (cell_unit e k (k / 2)) as (v & y & Hv & Hy & Hkey);
    [apply Hh|div_lia|div_lia|].
  rewrite Hv. cbn [mbind option_bind]. rewrite Hy. cbn [mbind option_bind].
  pose proof (lookup_pri _ _ _ Hux) as Hpu.
  destruct (Z.ltb_spec (priority x) (priority y)).
  - rewrite write_entry_Some by lia. cbn [mbind option_bind].
    apply IH; [div_lia|div_lia|apply hole_heap_up; [done|lia|done]|].
    intros c Hc Hck. destruct (decide (c = k)) as [->|].
    + rewrite key_insert_eq, (lookup_pri _ _ _ Hy). lia.
    + rewrite key_insert_ne by done. trans (key h e (k / 2)); [lia|]. rewrite <- Hck.
      apply Hh; div_lia.
  - exists e, k. split; [done|]. unfold fits. split_and!; [lia|lia|done|lia|done].
Qed.

(** The child of [k] that [sift_down] looks at. *)
Lemma smallest_child e k :
  hole_heap h e n k S -> 1 <= k -> k * 2 <= n ->
  exists c, (if k * 2 =? n then Some (k * 2)
             else
               c1 ← e !! (k * 2 + 1); x1 ← h !! c1; c0 ← e !! (k * 2); x0 ← h !! c0;
               Some (if priority x1 <? priority x0 then k * 2 + 1 else k * 2)) = Some c /\
    c / 2 = k /\ 2 <= c <= n /\ k < c /\
    (forall d, 2 <= d <= n -> d / 2 = k -> key h e c <= key h e d).
Proof.
  intros [Hr _ _] H1 H2. destruct (Z.eqb_spec (k * 2) n) as [E|E].
  - exists (k * 2). split_and!; [done|div_lia|lia|lia|lia|].
    intros d Hd Hdk. assert (d = k * 2) as -> by div_lia. done.
  - destruct (cell_unit e k (k * 2 + 1)) as (v1 & y1 & -> & Hy1 & Hk1); [done|lia..|].
    destruct (cell_unit e k (k * 2)) as (v0 & y0 & -> & Hy0 & Hk0); [done|lia..|].
    cbn [mbind option_bind]. rewrite Hy1, Hy0. cbn [mbind option_bind].
    eexists. split; [done|].
    assert (forall d, 2 <= d <= n -> d / 2 = k -> d = k * 2 \/ d = k * 2 + 1) by (intros; div_lia).
    destruct (Z.ltb_spec (priority y1) (priority y0)); split_and!; try div_lia.
    all: intros d Hd Hdk; destruct (H d Hd Hdk) as [->| ->]; lia.
Qed.

Lemma sift_down_spec fuel : forall e k,
  n - k < Z.of_nat fuel -> 1 <= k <= n -> hole_heap h e n k S ->
  (1 < k -> key h e (k / 2) <= pri h u) ->
  exists e' k', sift_down fuel h cap e u n k = Some (e', k') /\ fits e' k'.
Proof.
  induction fuel as [|fuel IH]; intros e k Hf Hk Hh Hup; [lia|]. cbn [sift_down].
  destruct (Z.leb_spec (k * 2) n).
  2:{ exists e, k. split; [done|]. unfold fits. split_and!; [lia|lia|done|done|].
      intros; div_lia. }
  destruct (smallest_child e k Hh) as (c & -> & Hck & Hc & Hkc & Hmin); [lia..|].
  cbn [mbind option_bind]. rewrite Hux. pose proof (lookup_pri _ _ _ Hux) as Hpu.
  destruct (cell_unit e k c) as (v & y & Hv & Hy & Hkey); [apply Hh|lia..|].
  cbn [mbind option_bind]. rewrite Hv. cbn [mbind option_bind]. rewrite Hy. cbn [mbind option_bind].
  destruct (Z.ltb_spec (priority y) (priority x)).
  - rewrite write_entry_Some by lia. cbn [mbind option_bind].
    apply IH; [lia|lia| |].
    + eapply hole_heap_down; [done|lia|done|done|done|]. intros d Hd Hdk.
      rewrite <- (key_Some h e c v Hv). by apply Hmin.
    + intros _. rewrite Hck, key_insert_eq, (lookup_pri _ _ _ Hy). lia.
  - exists e, k. split; [done|]. unfold fits. split_and!; [lia|lia|done|done|]. intros d Hd Hdk.
    specialize (Hmin d Hd Hdk). lia.
Qed.

Lemma fits_fill e k : fits e k -> hole_heap h (<[k := u]> e) n 0 ({[u]} ∪ S).
Proof. intros (? & ? & ? & ?). by apply hole_heap_fill. Qed.
End loops.

(** ** The FIFO list *)

Fixpoint fifo_seg (h : units) (hd : option loc) (l : list loc) : Prop :=
  match l with
  | [] => hd = None
  | u :: l' => hd = Some u /\ exists x, h !! u = Some x /\ fifo_seg h (u_next x) l'
  end.

Definition fifo_repr (h : units) (f : fifo_t) (l : list loc) : Prop :=
  fifo_seg h (first f) l /\ fifo_last f = last l /\ fifo_size f = Z.of_nat (length l).

Lemma fifo_seg_frame h h' hd l :
  (forall u, u ∈ l -> u_next <$> h' !! u = u_next <$> h !! u) ->
  fifo_seg h hd l -> fifo_seg h' hd l.
Proof.
  revert hd. induction l as [|u l IH]; intros hd Hf; simpl; [done|].
  intros (-> & x & Hx & Hl). split; [done|].
  pose proof (Hf u ltac:(set_solver)) as Hu. rewrite Hx in Hu.
  destruct (h' !! u) as [x'|]; [|done]. exists x'. split; [done|].
  injection Hu as ->. apply IH; set_solver.
Qed.

Lemma fifo_seg_snoc h hd l t y u x :
  t ∉ l -> fifo_seg h hd (l ++ [t]) -> h !! t = Some y ->
  h !! u = Some x -> u_next x = None -> u ∉ l ++ [t] ->
  fifo_seg (<[t := set_u_next (Some u) y]> h) hd (l ++ [t; u]).
Proof.
  revert hd. induction l as [|v l IH]; intros hd Ht Hs Hy Hx Hn Hu; simpl in *.
  - destruct Hs as (-> & z & Hz & Hzn). dl_nodup. split; [done|].
    eexists. split; [by simplify_map_eq|]. simpl. split; [done|]. exists x. by simplify_map_eq.
  - destruct Hs as (-> & z & Hz & Hs). dl_nodup. split; [done|].
    exists z. simplify_map_eq. split; [done|]. apply IH; [done..|nodup_solve].
Qed.

Lemma fifo_seg_lookup h hd l u : fifo_seg h hd l -> u ∈ l -> is_Some (h !! u).
Proof.
  revert hd. induction l as [|v l IH]; intros hd; simpl; [set_solver|].
  intros (_ & x & Hx & Hl) [->|Hu]%elem_of_cons; eauto.
Qed.

(** ** Specifications of the queue operations *)

Lemma upd_Some h u x f : h !! u = Some x -> upd h u f = Some (<[u := f x]> h).
Proof. unfold upd. by intros ->. Qed.

Definition marked (x : unit_t) : unit_t := set_flag (Z.lor (flag x) IS_IN_POOL) x.
Definition unmarked (x : unit_t) : unit_t := set_flag (Z.lxor (flag x) IS_IN_POOL) x.

(** What a unit is apart from its link. *)
Definition core (x : unit_t) : Z * Z * Z * Z := (handle x, priority x, flag x, cs_count x).

Lemma queue_push_prio_spec h q S u x :
  hole_heap h (entries (prio q)) (prio_size (prio q)) 0 S ->
  0 <= prio_size (prio q) <= capacity (prio q) -> 1 <= capacity (prio q) < 2 ^ 60 ->
  (forall v, v ∈ S -> is_Some (h !! v)) -> u ∉ S -> h !! u = Some x ->
  exists p', queue_push_prio h q u =
      Some (<[u := marked x]> h, Queue_t (n_pops q) p' (fifo q)) /\
    hole_heap h (entries p') (prio_size p') 0 ({[u]} ∪ S) /\
    prio_size p' = prio_size (prio q) + 1 /\ prio_size p' <= capacity p' /\
    capacity (prio q) <= capacity p'.
Proof.
  destruct q as [pops [e cap n] f]. simpl. intros Hh Hn Hcap Ha Hu Hx. unfold queue_push_prio.
  cbn [prio capacity prio_size entries fifo n_pops].
  rewrite (u64_id (n + 1)), (u64_id (cap * 2)) by (unfold is_u64; lia).
  set (cap' := if cap <=? n then cap * 2 else cap).
  assert (n + 1 <= cap' /\ cap <= cap') by (unfold cap'; destruct (Z.leb_spec cap n); lia).
  edestruct (sift_up_spec h cap' (n + 1) S u x) as (e' & k' & -> & Hfit);
    [lia|done..|lia|lia|by apply hole_heap_grow; [lia|]|intros; div_lia|].
  cbn [mbind option_bind]. rewrite write_entry_Some by (destruct Hfit; lia).
  cbn [mbind option_bind]. rewrite (upd_Some _ _ _ _ Hx). cbn [mbind option_bind].
  eexists. split; [done|]. simpl. split; [by apply fits_fill|lia].
Qed.

Lemma queue_pop_prio_spec h q S :
  hole_heap h (entries (prio q)) (prio_size (prio q)) 0 S ->
  1 <= prio_size (prio q) <= capacity (prio q) ->
  (forall v, v ∈ S -> is_Some (h !! v)) ->
  exists m x p', queue_pop_prio h q =
      Some (<[m := unmarked x]> h, Queue_t (n_pops q) p' (fifo q), Some m) /\
    m ∈ S /\ h !! m = Some x /\ (forall v, v ∈ S -> pri h m <= pri h v) /\
    hole_heap h (entries p') (prio_size p') 0 (S ∖ {[m]}) /\
    prio_size p' = prio_size (prio q) - 1 /\ capacity p' = capacity (prio q).
Proof.
  destruct q as [pops [e cap n] f]. simpl. intros Hh Hn Ha. unfold queue_pop_prio.
  cbn [prio capacity prio_size entries fifo n_pops].
  destruct (Z.eqb_spec n 0); [lia|]. pose proof (hh_repr _ _ _ _ _ Hh) as Hr.
  destruct (hr_cell _ _ _ _ Hr 1) as (m & Hm & HmS); [lia..|].
  destruct (hr_cell _ _ _ _ Hr n) as (l & Hl & HlS); [lia..|].
  destruct (Ha m HmS) as [x Hx], (Ha l HlS) as [y Hy].
  assert (Hmin : forall v, v ∈ S -> pri h m <= pri h v).
  { intros v Hv. destruct (hr_elem _ _ _ _ Hr v Hv) as (i & Hi & _ & Hiv).
    rewrite <- (key_Some h e 1 m), <- (key_Some h e i v) by done. by eapply heap_root_min. }
  rewrite Hm, Hl. cbn [mbind option_bind]. exists m, x.
  destruct (decide (n = 1)) as [->|Hn1].
  - simpl. rewrite write_entry_Some by lia. cbn [mbind option_bind].
    rewrite (upd_Some _ _ _ _ Hx). simpl. eexists. split; [done|].
    assert (S = {[m]}) as ->.
    { apply set_eq. intros v. rewrite elem_of_singleton. split; [|by intros ->].
      intros Hv. destruct (hr_elem _ _ _ _ Hr v Hv) as (i & ? & _ & Hi).
      assert (i = 1) as -> by lia. congruence. }
    simpl. split_and!; try done. split; [split|lia|lia]; [lia|set_solver|lia].
  - assert (Hne : l ≠ m) by (intros ->; destruct Hn1; eapply hr_inj; eauto; lia).
    edestruct (sift_down_spec h cap (n - 1) (S ∖ {[m; l]}) l y) as (e' & k' & -> & Hfit);
      [lia|done|set_solver|lia|lia|eapply hole_heap_open; [lia|done..]|lia|].
    cbn [mbind option_bind]. rewrite write_entry_Some by (destruct Hfit; lia).
    cbn [mbind option_bind]. rewrite (upd_Some _ _ _ _ Hx). cbn [mbind option_bind].
    eexists. split; [done|]. split_and!; try done. simpl.
    replace (S ∖ {[m]}) with ({[l]} ∪ S ∖ {[m; l]}); [apply fits_fill; [set_solver|done]|].
    apply set_eq. intros v. destruct (decide (v = l)); set_solver.
Qed.

Lemma queue_push_fifo_spec h q l u x :
  fifo_repr h (fifo q) l -> NoDup l -> u ∉ l -> h !! u = Some x -> Z.of_nat (length l) < 2 ^ 60 ->
  exists h' f', queue_push_fifo h q u = Some (h', Queue_t (n_pops q) (prio q) f') /\
    fifo_repr h' f' (l ++ [u]) /\ h' !! u = Some (marked (set_u_next None x)) /\
    (forall y, y ≠ u -> core <$> h' !! y = core <$> h !! y).
Proof.
  intros (Hs & Hl & Hn) Hnd Hu Hx Hlen. unfold queue_push_fifo.
  rewrite (upd_Some _ _ _ _ Hx), Hn, Hl. cbn [mbind option_bind].
  rewrite (u64_id (_ + 1)) by (unfold is_u64; lia).
  assert (Hlast : forall l, Z.of_nat (length l) + 1 = Z.of_nat (length (l ++ [u])))
    by (intros; rewrite length_app; simpl; lia).
  destruct l as [|t l _] using rev_ind.
  - simpl. rewrite (upd_Some _ _ (set_u_next None x)) by by simplify_map_eq. cbn [mbind option_bind].
    rewrite insert_insert_eq. eexists _, _. split; [done|]. unfold fifo_repr. split_and!; try done.
    + simpl. split; [done|]. eexists. split; [by simplify_map_eq|done].
    + by simplify_map_eq.
    + intros y Hy. by simplify_map_eq.
  - destruct (Z.eqb_spec (Z.of_nat (length (l ++ [t]))) 0); [rewrite length_app in *; simpl in *; lia|].
    rewrite last_snoc. cbn [mbind option_bind]. dl_nodup.
    destruct (fifo_seg_lookup h (first (fifo q)) (l ++ [t]) t) as [y Hy]; [done|set_solver|].
    rewrite (upd_Some _ _ y) by by simplify_map_eq. cbn [mbind option_bind].
    rewrite (upd_Some _ _ (set_u_next None x)) by by simplify_map_eq. cbn [mbind option_bind].
    eexists _, _. split; [done|]. unfold fifo_repr. split_and!.
    + rewrite <- app_assoc. simpl.
      eapply (fifo_seg_frame (<[t := set_u_next (Some u) y]> (<[u := set_u_next None x]> h))).
      { intros v _. destruct (decide (v = u)) as [->|]; by simplify_map_eq. }
      eapply fifo_seg_snoc; [done| |by simplify_map_eq|by simplify_map_eq|done|nodup_solve].
      eapply fifo_seg_frame; [|done]. intros v Hv. rewrite lookup_insert_ne by set_solver. done.
    + simpl. by rewrite last_snoc.
    + apply Hlast.
    + by simplify_map_eq.
    + intros v Hv. destruct (decide (v = t)) as [->|]; by simplify_map_eq.
Qed.

Lemma queue_pop_fifo_spec h q u l :
  fifo_repr h (fifo q) (u :: l) -> NoDup (u :: l) ->
  exists x f', h !! u = Some x /\
    queue_pop_fifo h q =
      Some (<[u := unmarked (set_u_next None x)]> h, Queue_t (n_pops q) (prio q) f', Some u) /\
    fifo_repr (<[u := unmarked (set_u_next None x)]> h) f' l.
Proof.
  intros ((Hf & x & Hx & Hs) & Hl & Hn) [Hu Hnd]%NoDup_cons. unfold queue_pop_fifo.
  rewrite Hf, Hn. simpl length. destruct (Z.eqb_spec (Z.of_nat (S (length l))) 0); [lia|].
  cbn [mbind option_bind]. rewrite Hx. cbn [mbind option_bind].
  rewrite (upd_Some _ _ _ _ Hx). cbn [mbind option_bind].
  rewrite (upd_Some _ _ (set_u_next None x)) by by simplify_map_eq. cbn [mbind option_bind].
  rewrite insert_insert_eq. eexists _, _. split; [done|]. split; [done|].
  unfold fifo_repr. split_and!; simpl.
  - eapply fifo_seg_frame; [|done]. intros v Hv. by rewrite lookup_insert_ne by set_solver.
  - destruct (Z.eqb_spec (Z.of_nat (S (length l)) - 1) 0); [by destruct l; [|simpl in *; lia]|].
    rewrite Hl. destruct l; [simpl in *; lia|done].
  - lia.
Qed.

(** ** The pool as a set and a list *)

Definition in_pool (x : unit_t) : bool := Z.testbit (flag x) 0.

(** [efirst_repr h p S l]: the heap of [p] holds the set [S] and its FIFO list
    is [l]; the units in [S] or [l] are exactly the ones marked in the pool;
    every unit that was ever pushed has its own priority. *)
Record efirst_repr (h : units) (p : pool_t) (S : gset loc) (l : list loc) : Prop := {
  er_heap : hole_heap h (entries (prio (queue p))) (prio_size (prio (queue p))) 0 S;
  er_size : prio_size (prio (queue p)) = Z.of_nat (size S);
  er_cap : prio_size (prio (queue p)) <= capacity (prio (queue p)) /\ 1 <= capacity (prio (queue p));
  er_fifo : fifo_repr h (fifo (queue p)) l;
  er_nodup : NoDup l;
  er_num : 0 <= num p;
  er_disj : forall u, u ∈ l -> u ∉ S;
  er_alloc : forall u, u ∈ S -> is_Some (h !! u);
  er_in : forall u x, h !! u = Some x -> (in_pool x = true <-> u ∈ S \/ u ∈ l);
  er_units : forall u x, h !! u = Some x ->
    0 <= cs_count x <= 32 /\ 0 <= priority x <= num p /\ (in_pool x = true -> 1 <= priority x);
  er_uniq : forall u v x y, h !! u = Some x -> h !! v = Some y ->
    priority x = priority y -> priority x ≠ 0 -> u = v
}.

Lemma core_Some (h h' : units) y z' :
  core <$> h' !! y = core <$> h !! y -> h' !! y = Some z' ->
  exists z, h !! y = Some z /\ priority z' = priority z /\ cs_count z' = cs_count z /\
            in_pool z' = in_pool z.
Proof.
  intros Hc Hz'. rewrite Hz' in Hc. destruct (h !! y) as [z|]; [|done].
  exists z. unfold core, in_pool in *. simpl in Hc. injection Hc as _ E1 E2 E3.
  by rewrite E1, E2, E3.
Qed.

Lemma core_pri (h h' : units) y : core <$> h' !! y = core <$> h !! y -> pri h' y = pri h y.
Proof.
  unfold pri. intros Hc. destruct (h' !! y), (h !! y); try done. unfold core in Hc. simpl in *. congruence.
Qed.

(** Changing one unit [u] of a represented pool. *)
Lemma efirst_update h p S l h' p' S' l' u x x' :
  efirst_repr h p S l ->
  hole_heap h' (entries (prio (queue p'))) (prio_size (prio (queue p'))) 0 S' ->
  prio_size (prio (queue p')) = Z.of_nat (size S') ->
  prio_size (prio (queue p')) <= capacity (prio (queue p')) ->
  1 <= capacity (prio (queue p')) ->
  fifo_repr h' (fifo (queue p')) l' -> NoDup l' -> (forall y, y ∈ l' -> y ∉ S') ->
  (forall y, y ≠ u -> (y ∈ S' <-> y ∈ S) /\ (y ∈ l' <-> y ∈ l)) ->
  h !! u = Some x -> h' !! u = Some x' ->
  (forall y, y ≠ u -> core <$> h' !! y = core <$> h !! y) ->
  (in_pool x' = true <-> u ∈ S' \/ u ∈ l') ->
  0 <= cs_count x' <= 32 -> num p <= num p' -> 1 <= priority x' <= num p' ->
  (priority x' = priority x \/ num p < priority x') ->
  efirst_repr h' p' S' l'.
Proof.
  intros Hr Hh Hsz Hc1 Hc2 Hf Hnd Hdj Hmem Hx Hx' Hcore Hin Hcs Hnum Hpri Hnew.
  split; try done; [pose proof (er_num _ _ _ _ Hr); lia|..].
  - intros y Hy. destruct (decide (y = u)) as [->|Hne]; [eauto|].
    destruct (er_alloc _ _ _ _ Hr y) as [z Hz]; [by apply (Hmem y Hne)|].
    specialize (Hcore y Hne). rewrite Hz in Hcore. destruct (h' !! y); [eauto|done].
  - intros y z' Hz'. destruct (decide (y = u)) as [->|Hne]; [by simplify_eq|].
    destruct (core_Some h h' y z') as (z & Hz & _ & _ & ->); [auto|done|].
    destruct (Hmem y Hne) as [-> ->]. by apply (er_in _ _ _ _ Hr).
  - intros y z' Hz'. destruct (decide (y = u)) as [->|Hne]; [simplify_eq; lia|].
    destruct (core_Some h h' y z') as (z & Hz & -> & -> & ->); [auto|done|].
    destruct (er_units _ _ _ _ Hr y z Hz) as (? & ? & ?). split_and!; try lia. done.
  - assert (Hle : forall y z, h !! y = Some z -> priority z <= num p)
      by (intros y z Hz; apply (er_units _ _ _ _ Hr y z Hz)).
    assert (Hu : forall v y z, h' !! v = Some y -> h !! v = Some z -> priority y = priority z ->
              priority x' = priority z -> priority z ≠ 0 -> u = v).
    { intros v y z Hv Hz ? Hp H0. destruct Hnew as [Heq|Hgt]; [|specialize (Hle v z Hz); lia].
      eapply (er_uniq _ _ _ _ Hr u v x z); [done|done|congruence|congruence]. }
    intros y v z1 z2 H1 H2 Hp H0.
    destruct (decide (y = u)) as [->|Hy], (decide (v = u)) as [->|Hv]; simplify_eq; [done|..].
    + destruct (core_Some h h' v z2) as (w & Hw & E & _); [auto|done|]. apply (Hu v z2 w); congruence.
    + destruct (core_Some h h' y z1) as (w & Hw & E & _); [auto|done|]. symmetry. apply (Hu y z1 w); congruence.
    + destruct (core_Some h h' y z1) as (w1 & Hw1 & E1 & _); [auto|done|].
      destruct (core_Some h h' v z2) as (w2 & Hw2 & E2 & _); [auto|done|].
      apply (er_uniq _ _ _ _ Hr y v w1 w2); congruence.
Qed.

Lemma in_pool_marked x : in_pool (marked x) = true.
Proof. unfold in_pool, marked, set_flag. cbn [flag]. rewrite Z.lor_spec. by rewrite orb_true_r. Qed.
Lemma in_pool_unmarked x : in_pool (unmarked x) = negb (in_pool x).
Proof. unfold in_pool, unmarked, set_flag. cbn [flag]. rewrite Z.lxor_spec. by destruct (Z.testbit _ 0). Qed.

(** The unit after a push. *)
Definition pushed (n : Z) (x : unit_t) : unit_t :=
  let x := if priority x =? 0 then set_priority n x else x in
  if cs_count x <? 32 then set_cs_count (cs_count x + 1) (marked x)
  else marked (set_u_next None x).

Lemma in_pool_pushed n x : in_pool (pushed n x) = true.
Proof.
  unfold pushed. destruct (_ <? 32); [|apply in_pool_marked].
  apply in_pool_marked.
Qed.

(** What the first lines of [pool_push] do to the unit and to the counter. *)
Lemma pool_push_priority h p u x :
  h !! u = Some x -> num p < 2 ^ 64 - 1 -> 0 <= num p ->
  let x1 := if priority x =? 0 then set_priority (num p + 1) x else x in
  let n1 := if priority x =? 0 then num p + 1 else num p in
  pool_push h p u = ('(h, q) ← queue_push (<[u := x1]> h) (queue p) u; Some (h, Pool_t q n1)).
Proof.
  intros Hx Hn H0. unfold pool_push. rewrite Hx. cbn [mbind option_bind].
  rewrite u64_id by (unfold is_u64; lia).
  destruct (priority x =? 0); simpl.
  - by rewrite (upd_Some _ _ _ _ Hx).
  - by rewrite insert_id.
Qed.

(** The two branches of [queue_push] on a unit [u] that is not in the pool and
    whose fields are [x1] when the queue receives it. *)
Section push_branches.
Context (h : units) (p : pool_t) (S : gset loc) (l : list loc) (u : loc) (x x1 : unit_t) (n1 : Z).
Hypothesis Hr : efirst_repr h p S l.
Hypothesis Hx : h !! u = Some x.
Hypothesis HuS : u ∉ S.
Hypothesis Hul : u ∉ l.
Hypothesis Hcs1 : 0 <= cs_count x1 <= 32.
Hypothesis Hp1 : 1 <= priority x1 <= n1.
Hypothesis Hn1 : num p <= n1.
Hypothesis Hnew : priority x1 = priority x \/ num p < priority x1.

Lemma push_base : let h1 := <[u := x1]> h in
  hole_heap h1 (entries (prio (queue p))) (prio_size (prio (queue p))) 0 S /\
  fifo_repr h1 (fifo (queue p)) l /\ (forall v, v ∈ S -> is_Some (h1 !! v)).
Proof.
  split_and!.
  - eapply hole_heap_ext; [|apply (er_heap _ _ _ _ Hr)]. intros y Hy. unfold pri.
    by rewrite lookup_insert_ne by set_solver.
  - destruct (er_fifo _ _ _ _ Hr) as (Hs & Hl & Hn). split_and!; [|done|done].
    eapply fifo_seg_frame; [|done]. intros v Hv. by rewrite lookup_insert_ne by set_solver.
  - intros v Hv. apply lookup_insert_is_Some'. right. by apply (er_alloc _ _ _ _ Hr).
Qed.

Lemma push_young :
  cs_count x1 < 32 -> capacity (prio (queue p)) < 2 ^ 60 ->
  exists q', queue_push (<[u := x1]> h) (queue p) u =
      Some (<[u := set_cs_count (cs_count x1 + 1) (marked x1)]> h, q') /\
    efirst_repr (<[u := set_cs_count (cs_count x1 + 1) (marked x1)]> h) (Pool_t q' n1) ({[u]} ∪ S) l /\
    n_pops q' = n_pops (queue p).
Proof.
  intros Hlt Hcap. destruct push_base as (Hh1 & Hf1 & Ha1).
  unfold queue_push. rewrite lookup_insert_eq. cbn [mbind option_bind].
  rewrite (proj2 (Z.ltb_lt _ _)) by done.
  pose proof (er_size _ _ _ _ Hr). pose proof (er_cap _ _ _ _ Hr) as [? ?].
  edestruct (queue_push_prio_spec (<[u := x1]> h) (queue p) S u x1) as (p' & -> & Hh & Hsz & Hle & Hca);
    [exact Hh1|lia|lia|done|done|apply lookup_insert_eq|].
  cbn [mbind option_bind]. rewrite (upd_Some _ _ (marked x1)) by by simplify_map_eq.
  cbn [mbind option_bind]. change (cs_count (marked x1)) with (cs_count x1).
  replace (u8 (cs_count x1 + 1)) with (cs_count x1 + 1) by (unfold u8; rewrite Z.mod_small; lia).
  rewrite !insert_insert_eq. eexists. split; [done|]. split; [|done].
  eapply (efirst_update h p S l _ _ _ _ u x (set_cs_count (cs_count x1 + 1) (marked x1)));
    simpl; try done; try lia; try apply lookup_insert_eq.
  - eapply hole_heap_ext; [|done]. intros y _. unfold pri. rewrite !lookup_insert. by case_decide.
  - rewrite size_union, size_singleton by set_solver. lia.
  - destruct Hf1 as (Hs & Hl & Hn). split_and!; [|done|done].
    eapply fifo_seg_frame; [|done]. intros v Hv. by rewrite !lookup_insert_ne by set_solver.
  - apply (er_nodup _ _ _ _ Hr).
  - intros y Hy. pose proof (er_disj _ _ _ _ Hr y Hy). set_solver.
  - set_solver.
  - intros y Hy. by simplify_map_eq.
  - change (in_pool (marked x1) = true <-> u ∈ {[u]} ∪ S \/ u ∈ l). rewrite in_pool_marked. set_solver.
Qed.

Lemma push_old :
  32 <= cs_count x1 -> Z.of_nat (length l) < 2 ^ 60 ->
  exists h' q', queue_push (<[u := x1]> h) (queue p) u = Some (h', q') /\
    efirst_repr h' (Pool_t q' n1) S (l ++ [u]) /\
    h' !! u = Some (marked (set_u_next None x1)) /\ n_pops q' = n_pops (queue p) /\
    (forall y, y ≠ u -> core <$> h' !! y = core <$> h !! y).
Proof.
  intros Hge Hlen. destruct push_base as (Hh1 & Hf1 & Ha1).
  unfold queue_push. rewrite lookup_insert_eq. cbn [mbind option_bind].
  rewrite (proj2 (Z.ltb_ge _ _)) by done.
  pose proof (er_size _ _ _ _ Hr). pose proof (er_cap _ _ _ _ Hr) as [? ?].
  edestruct (queue_push_fifo_spec (<[u := x1]> h) (queue p) l u x1) as (h' & f' & -> & Hf & Hu' & Hcore);
    [exact Hf1|apply (er_nodup _ _ _ _ Hr)|done|apply lookup_insert_eq|done|].
  assert (Hcore' : forall y, y ≠ u -> core <$> h' !! y = core <$> h !! y).
  { intros y Hy. rewrite Hcore by done. by rewrite lookup_insert_ne. }
  eexists _, _. split; [done|]. split; [|done].
  eapply (efirst_update h p S l _ _ _ _ u x); simpl; try done; try lia.
  - eapply hole_heap_ext; [|apply (er_heap _ _ _ _ Hr)]. intros y Hy. apply core_pri, Hcore'. set_solver.
  - apply NoDup_app. split_and!; [apply (er_nodup _ _ _ _ Hr)|set_solver|apply NoDup_singleton].
  - intros y [Hy| ->%list_elem_of_singleton]%elem_of_app; [by apply (er_disj _ _ _ _ Hr)|done].
  - set_solver.
  - rewrite in_pool_marked. set_solver.
Qed.
End push_branches.

Lemma efirst_push_spec h p S l u x :
  efirst_repr h p S l -> h !! u = Some x -> in_pool x = false ->
  num p < 2 ^ 64 - 1 -> capacity (prio (queue p)) < 2 ^ 60 -> Z.of_nat (length l) < 2 ^ 60 ->
  exists h' p',
    pool_push h p u = Some (h', p') /\
    (if cs_count x <? 32 then efirst_repr h' p' ({[u]} ∪ S) l else efirst_repr h' p' S (l ++ [u])) /\
    h' !! u = Some (pushed (num p + 1) x) /\
    n_pops (queue p') = n_pops (queue p) /\
    (forall y, y ≠ u -> core <$> h' !! y = core <$> h !! y).
Proof.
  intros Hr Hx Hout Hnum Hcap Hlen. pose proof (er_num _ _ _ _ Hr).
  destruct (er_units _ _ _ _ Hr u x Hx) as (Hcs & Hpri & _).
  pose proof (er_in _ _ _ _ Hr u x Hx) as Hin. rewrite Hout in Hin.
  assert (u ∉ S /\ u ∉ l) as [HuS Hul] by (split; intros ?; destruct Hin; naive_solver).
  rewrite (pool_push_priority h p u x) by (done || lia). cbv zeta.
  set (n1 := if priority x =? 0 then num p + 1 else num p).
  unfold pushed. set (x1 := if priority x =? 0 then set_priority _ _ else _). cbv zeta.
  assert (cs_count x1 = cs_count x /\ 1 <= priority x1 <= n1 /\ num p <= n1 /\
          (priority x1 = priority x \/ num p < priority x1)) as (Hcs1 & Hp1 & Hn1 & Hnew).
  { unfold x1, n1. destruct (Z.eqb_spec (priority x) 0); simpl; lia. }
  rewrite <- Hcs1 in *. clearbody x1 n1. destruct (Z.ltb_spec (cs_count x1) 32).
  - destruct (push_young h p S l u x x1 n1) as (q' & -> & Hr' & Hq); [done..|].
    eexists _, _. split; [done|]. split; [done|]. rewrite lookup_insert_eq.
    split_and!; [done|done|]. intros y Hy. by rewrite lookup_insert_ne.
  - destruct (push_old h p S l u x x1 n1) as (h' & q' & -> & Hr' & Hu & Hq & Hc); [done..|].
    eexists _, _. split; [done|]. done.
Qed.

(** The order of creation of a unit and how often it was pushed. *)
Definition age (x : unit_t) : Z * Z := (priority x, cs_count x).

Lemma pop_young h p S l n :
  efirst_repr h p S l -> S ≠ ∅ ->
  exists m h' q', queue_pop_prio h (Queue_t n (prio (queue p)) (fifo (queue p))) = Some (h', q', Some m) /\
    m ∈ S /\ (forall v, v ∈ S -> pri h m <= pri h v) /\
    efirst_repr h' (Pool_t q' (num p)) (S ∖ {[m]}) l /\ n_pops q' = n /\
    (forall y, age <$> h' !! y = age <$> h !! y).
Proof.
  intros Hr HS. pose proof (er_size _ _ _ _ Hr). pose proof (er_cap _ _ _ _ Hr) as [? ?].
  assert (size S ≠ 0%nat) by (intros ?%size_empty_inv; set_solver).
  destruct (queue_pop_prio_spec h (Queue_t n (prio (queue p)) (fifo (queue p))) S)
    as (m & x & p' & Hpop & Hm & Hx & Hmin & Hh & Hsz & Hcap);
    [apply (er_heap _ _ _ _ Hr)|simpl; lia|apply (er_alloc _ _ _ _ Hr)|].
  simpl in *. exists m. eexists _, _. split; [exact Hpop|]. split_and!; try done;
    [|by intros y; destruct (decide (y = m)) as [->|]; simplify_map_eq].
  assert (Hin : in_pool x = true) by (apply (er_in _ _ _ _ Hr m x Hx); auto).
  destruct (er_units _ _ _ _ Hr m x Hx) as (Hcs & Hpri & Hpos). specialize (Hpos Hin).
  assert (m ∉ l) by (intros Hml; by apply (er_disj _ _ _ _ Hr m Hml)).
  eapply (efirst_update h p S l _ _ _ _ m x (unmarked x)); simpl; try done; try lia;
    try apply lookup_insert_eq.
  - eapply hole_heap_ext; [|done]. intros y Hy. unfold pri. by rewrite lookup_insert_ne by set_solver.
  - rewrite size_difference, size_singleton by set_solver. lia.
  - destruct (er_fifo _ _ _ _ Hr) as (Hs & Hl & Hn). split_and!; [|done|done].
    eapply fifo_seg_frame; [|done]. intros v Hv. by rewrite lookup_insert_ne by set_solver.
  - apply (er_nodup _ _ _ _ Hr).
  - intros y Hy. pose proof (er_disj _ _ _ _ Hr y Hy). set_solver.
  - set_solver.
  - intros y Hy. by simplify_map_eq.
  - rewrite in_pool_unmarked, Hin. set_solver.
Qed.

Lemma pop_old h p S u l n :
  efirst_repr h p S (u :: l) ->
  exists h' q', queue_pop_fifo h (Queue_t n (prio (queue p)) (fifo (queue p))) = Some (h', q', Some u) /\
    efirst_repr h' (Pool_t q' (num p)) S l /\ n_pops q' = n /\
    (forall y, age <$> h' !! y = age <$> h !! y).
Proof.
  intros Hr. pose proof (er_size _ _ _ _ Hr). pose proof (er_cap _ _ _ _ Hr) as [? ?].
  pose proof (er_nodup _ _ _ _ Hr) as Hnd.
  destruct (queue_pop_fifo_spec h (Queue_t n (prio (queue p)) (fifo (queue p))) u l)
    as (x & f' & Hx & Hpop & Hf); [apply (er_fifo _ _ _ _ Hr)|done|].
  simpl in *. eexists _, _. split; [exact Hpop|]. split_and!; try done;
    [|by intros y; destruct (decide (y = u)) as [->|]; simplify_map_eq]. apply NoDup_cons in Hnd as [Hul Hnd].
  assert (Hin : in_pool x = true) by (apply (er_in _ _ _ _ Hr u x Hx); set_solver).
  destruct (er_units _ _ _ _ Hr u x Hx) as (Hcs & Hpri & Hpos). specialize (Hpos Hin).
  assert (HuS : u ∉ S) by (apply (er_disj _ _ _ _ Hr u); set_solver).
  eapply (efirst_update h p S (u :: l) _ _ _ _ u x (unmarked (set_u_next None x))); simpl; try done;
    try lia; try apply lookup_insert_eq.
  - eapply hole_heap_ext; [|apply (er_heap _ _ _ _ Hr)]. intros y Hy. unfold pri.
    by rewrite lookup_insert_ne by set_solver.
  - intros y Hy. apply (er_disj _ _ _ _ Hr). set_solver.
  - set_solver.
  - intros y Hy. by simplify_map_eq.
  - rewrite in_pool_unmarked. change (in_pool (set_u_next None x)) with (in_pool x). rewrite Hin. set_solver.
Qed.

(** The unit [queue_pop] may deliver from the heap: one of least priority. *)
Definition earliest (h : units) (S : gset loc) (m : loc) : Prop :=
  m ∈ S /\ forall v, v ∈ S -> pri h m <= pri h v.

Lemma efirst_queue_pop_spec h p S l :
  efirst_repr h p S l -> S ≠ ∅ \/ l ≠ [] ->
  let n := u64 (n_pops (queue p) + 1) in
  exists h' q' r, queue_pop h (queue p) = Some (h', q', Some r) /\ n_pops q' = n /\
    (forall y, age <$> h' !! y = age <$> h !! y) /\
    if decide (l ≠ [] /\ (n mod 2 = 0 \/ S = ∅))
    then exists l', l = r :: l' /\ efirst_repr h' (Pool_t q' (num p)) S l'
    else earliest h S r /\ efirst_repr h' (Pool_t q' (num p)) (S ∖ {[r]}) l.
Proof.
  intros Hr Hne n. unfold queue_pop. cbn [n_pops fifo prio]. fold n.
  pose proof (er_size _ _ _ _ Hr) as Hsz. destruct (er_fifo _ _ _ _ Hr) as (_ & _ & Hfz).
  assert (HS : S = ∅ <-> prio_size (prio (queue p)) = 0).
  { rewrite Hsz. split; [intros ->; by rewrite size_empty|].
    intros E. apply set_eq. intros v. assert (size S = 0%nat) as Ez by lia.
    apply size_empty_inv in Ez. set_solver. }
  assert (Hold : l ≠ [] -> exists h' q' r l', l = r :: l' /\
      queue_pop_fifo h (Queue_t n (prio (queue p)) (fifo (queue p))) = Some (h', q', Some r) /\
      n_pops q' = n /\ (forall y, age <$> h' !! y = age <$> h !! y) /\
      efirst_repr h' (Pool_t q' (num p)) S l').
  { intros Hl. destruct l as [|u l]; [done|]. destruct (pop_old h p S u l n Hr) as (h' & q' & ? & ? & ? & ?).
    eexists _, _, _, _. done. }
  assert (Hyoung : S ≠ ∅ -> exists h' q' r,
      queue_pop_prio h (Queue_t n (prio (queue p)) (fifo (queue p))) = Some (h', q', Some r) /\
      n_pops q' = n /\ (forall y, age <$> h' !! y = age <$> h !! y) /\
      earliest h S r /\ efirst_repr h' (Pool_t q' (num p)) (S ∖ {[r]}) l).
  { intros HS'. destruct (pop_young h p S l n Hr HS') as (m & h' & q' & ? & ? & ? & ? & ? & ?).
    eexists _, _, _. done. }
  assert (Hl : l = [] <-> fifo_size (fifo (queue p)) = 0).
  { rewrite Hfz. destruct l; simpl; split; first [done|lia]. }
  destruct (decide (l = [])) as [El|El], (decide (S = ∅)) as [ES|ES]; [naive_solver|..].
  all: pose proof El as Zl; rewrite Hl in Zl; pose proof ES as ZS; rewrite HS in ZS.
  all: destruct (Z.eqb_spec (n mod 2) 0) as [En|En].
  all: destruct (Z.ltb_spec 0 (fifo_size (fifo (queue p)))), (Z.ltb_spec 0 (prio_size (prio (queue p)))); try lia.
  all: first [destruct Hyoung as (h' & q' & r & -> & ? & Hag & ? & ?); [done|]
             |destruct Hold as (h' & q' & r & l' & ? & -> & ? & Hag & ?); [done|]].
  all: eexists _, _, _; split; [done|]; split; [done|]; split; [exact Hag|];
    clear Hag; case_decide; naive_solver.
Qed.

Lemma efirst_pop_spec h p S l :
  efirst_repr h p S l -> S ≠ ∅ \/ l ≠ [] ->
  exists h' p' r, pool_pop h p = Some (h', p', Some r) /\
    n_pops (queue p') = u64 (n_pops (queue p) + 1) /\
    (forall y, age <$> h' !! y = age <$> h !! y) /\
    if decide (l ≠ [] /\ (n_pops (queue p') mod 2 = 0 \/ S = ∅))
    then exists l', l = r :: l' /\ efirst_repr h' p' S l'
    else earliest h S r /\ efirst_repr h' p' (S ∖ {[r]}) l.
Proof.
  intros Hr Hne. destruct (efirst_queue_pop_spec h p S l Hr Hne) as (h' & q' & r & Hp & Hn & Hag & Hd).
  exists h', (Pool_t q' (num p)), r. simpl. rewrite Hn. split_and!; try done.
  unfold pool_pop. rewrite Hp. pose proof (er_size _ _ _ _ Hr) as Hsz.
  destruct (er_fifo _ _ _ _ Hr) as (_ & _ & Hfz).
  destruct (Z.eqb_spec (prio_size (prio (queue p))) 0), (Z.eqb_spec (fifo_size (fifo (queue p))) 0);
    simpl; try done.
  destruct Hne as [HS|Hl]; [|destruct l; simpl in *; [done|lia]].
  assert (size S = 0%nat) as ?%size_empty_inv by lia. set_solver.
Qed.

Lemma pool_pop_empty h p : efirst_repr h p ∅ [] -> pool_pop h p = Some (h, p, None).
Proof.
  intros Hr. pose proof (er_size _ _ _ _ Hr) as Hs. destruct (er_fifo _ _ _ _ Hr) as (_ & _ & Hf).
  unfold pool_pop. rewrite Hs, Hf, size_empty. done.
Qed.

(** A new unit is not in the pool. *)
Lemma pool_unit_create_repr h p S l u t :
  efirst_repr h p S l -> h !! u = None ->
  efirst_repr (pool_unit_create_from_thread h u t) p S l.
Proof.
  intros Hr Hu. unfold pool_unit_create_from_thread.
  assert (HuS : u ∉ S) by (intros H; destruct (er_alloc _ _ _ _ Hr u H); congruence).
  assert (Hul : u ∉ l).
  { intros H. destruct (er_fifo _ _ _ _ Hr) as (Hs & _).
    destruct (fifo_seg_lookup _ _ _ _ Hs H); congruence. }
  destruct Hr. split; try done.
  - eapply hole_heap_ext; [|done]. intros v Hv. unfold pri. by rewrite lookup_insert_ne by set_solver.
  - destruct er_fifo0 as (Hs & ? & ?). split; [|done]. eapply fifo_seg_frame; [|done].
    intros v Hv. by rewrite lookup_insert_ne by set_solver.
  - intros v Hv. apply lookup_insert_is_Some'. auto.
  - intros v x. rewrite lookup_insert. case_decide; [|by apply er_in0]. intros; simplify_eq.
    split; [done|naive_solver].
  - intros v x. rewrite lookup_insert. case_decide; [|by apply er_units0]. intros; simplify_eq/=.
    split_and!; try lia. done.
  - intros v w x y. rewrite !lookup_insert. repeat case_decide; intros; simplify_eq/=; try done.
    by eapply er_uniq0.
Qed.

(** ** Runs of a pool *)

Inductive pool_op := OpCreate (u : loc) (t : Z) | OpPush (u : loc) | OpPop.

(** A run creates units, pushes units that are not in the pool and pops; it
    lists the units delivered.  The side conditions of a push are the sizes a
    pool has in an address space of 64 bits. *)
Inductive pool_run : units -> pool_t -> list pool_op -> list loc -> units -> pool_t -> Prop :=
| run_nil h p : pool_run h p [] [] h p
| run_create h p u t ops outs h' p' :
    h !! u = None ->
    pool_run (pool_unit_create_from_thread h u t) p ops outs h' p' ->
    pool_run h p (OpCreate u t :: ops) outs h' p'
| run_push h p u x h1 p1 ops outs h' p' :
    h !! u = Some x -> in_pool x = false ->
    num p < 2 ^ 64 - 1 -> capacity (prio (queue p)) < 2 ^ 60 -> fifo_size (fifo (queue p)) < 2 ^ 60 ->
    pool_push h p u = Some (h1, p1) ->
    pool_run h1 p1 ops outs h' p' ->
    pool_run h p (OpPush u :: ops) outs h' p'
| run_pop h p r h1 p1 ops outs h' p' :
    pool_pop h p = Some (h1, p1, r) ->
    pool_run h1 p1 ops outs h' p' ->
    pool_run h p (OpPop :: ops) (match r with Some u => u :: outs | None => outs end) h' p'.

Definition is_pop (o : pool_op) : bool := match o with OpPop => true | _ => false end.
Definition pops (ops : list pool_op) : Z := Z.of_nat (length (List.filter is_pop ops)).

Lemma pops_pop ops : pops (OpPop :: ops) = pops ops + 1.
Proof. unfold pops. simpl length. lia. Qed.

(** Pops left before the FIFO list, or the heap, goes first. *)
Definition until_fifo (p : pool_t) : Z := (n_pops (queue p) + 1) mod 2.
Definition until_prio (p : pool_t) : Z := n_pops (queue p) mod 2.

Lemma next_mod2 n m : m = u64 (n + 1) -> m mod 2 = (n + 1) mod 2.
Proof.
  intros ->. unfold u64. change (2 ^ 64) with (2 * 2 ^ 63).
  rewrite Z.rem_mul_r, Z.mul_comm, Z.mod_add, Zmod_mod by lia. done.
Qed.

Lemma old_bound h p ops outs h' p' :
  pool_run h p ops outs h' p' ->
  forall S l k u, efirst_repr h p S l -> l !! k = Some u ->
    2 * Z.of_nat k + until_fifo p < pops ops -> u ∈ outs.
Proof.
  induction 1 as [h p|h p w t ops outs h' p' Hw Hrun IH
                 |h p w x h1 p1 ops outs h' p' Hx Hout Hn Hc Hf Hpush Hrun IH
                 |h p r h1 p1 ops outs h' p' Hpop Hrun IH]; intros S l k u Hr Hk Hb.
  - change (pops []) with 0 in Hb. unfold until_fifo in Hb. pose proof (Z.mod_pos_bound (n_pops (queue p) + 1) 2 eq_refl). lia.
  - eapply IH; eauto using pool_unit_create_repr.
  - assert (Hfz := er_fifo _ _ _ _ Hr). destruct Hfz as (_ & _ & Hfz).
    destruct (efirst_push_spec h p S l w x) as (h2 & p2 & Hp & Hr' & _ & Hpops & _); [done..|lia|].
    rewrite Hpush in Hp. simplify_eq.
    assert (Hu : until_fifo p2 = until_fifo p) by (unfold until_fifo; by rewrite Hpops).
    destruct (cs_count x <? 32).
    + eapply (IH _ l k); [done|done|]. by rewrite Hu.
    + eapply (IH _ (l ++ [w]) k); [done|by apply lookup_app_l_Some|]. by rewrite Hu.
  - assert (Hl : l ≠ []) by (by intros ->). rewrite pops_pop in Hb.
    destruct (efirst_pop_spec h p S l) as (h2 & p2 & v & Hp & Hn & _ & Hd); [done|by right|].
    rewrite Hpop in Hp. simplify_eq. apply next_mod2 in Hn.
    unfold until_fifo in *. case_decide as Hdec.
    + destruct Hd as (l' & -> & Hr'). destruct k as [|k]; simpl in Hk; simplify_eq; [set_solver|].
      right. eapply (IH S l' k); [done|done|].
      pose proof (Z.mod_pos_bound (n_pops (queue p2) + 1) 2 eq_refl).
      pose proof (Z.mod_pos_bound (n_pops (queue p) + 1) 2 eq_refl). lia.
    + destruct Hd as [_ Hr']. right. eapply (IH _ l k); [done|done|].
      assert (n_pops (queue p2) mod 2 ≠ 0) by tauto.
      revert Hb Hn H. Z.to_euclidean_division_equations. lia.
Qed.

(** ** How long a unit can wait in the heap *)

(** How often a unit created before number [t] can still be delivered from the
    heap: once now if it is there, and once for each push it has left. *)
Definition weight (t : Z) (S : gset loc) (w : loc) (a : Z * Z) : nat :=
  if decide (1 <= a.1 < t)
  then (Z.to_nat (32 - a.2) + if decide (w ∈ S) then 1 else 0)%nat else 0%nat.

Definition total (f : loc -> Z * Z -> nat) (m : gmap loc (Z * Z)) : nat :=
  sum_list_with (fun '(w, a) => f w a) (map_to_list m).

Definition ahead (t : Z) (h : units) (S : gset loc) : nat := total (weight t S) (age <$> h).

Lemma sum_list_perm {A} (f : A -> nat) (l k : list A) :
  l ≡ₚ k -> sum_list_with f l = sum_list_with f k.
Proof. induction 1; simpl; lia. Qed.

Lemma sum_list_ext {A} (f g : A -> nat) (l : list A) :
  (forall a, a ∈ l -> f a = g a) -> sum_list_with f l = sum_list_with g l.
Proof.
  induction l as [|a l IH]; intros H; simpl; [done|]. rewrite H, IH by set_solver. done.
Qed.

(** Changing the entry of one key changes the total by the difference. *)
Lemma total_update f g m u a b :
  m !! u = Some a -> (forall w c, w ≠ u -> f w c = g w c) ->
  (total g (<[u := b]> m) + f u a = total f m + g u b)%nat.
Proof.
  intros Hu Hfg. unfold total.
  rewrite (sum_list_perm _ (map_to_list m) ((u, a) :: map_to_list (delete u m)))
    by by rewrite map_to_list_delete.
  rewrite (sum_list_perm _ (map_to_list (<[u := b]> m)) ((u, b) :: map_to_list (delete u m))).
  - simpl. rewrite (sum_list_ext (fun '(w, c) => f w c) (fun '(w, c) => g w c)); [lia|].
    intros [w c] Hw%elem_of_map_to_list. apply Hfg. intros ->. by rewrite lookup_delete_eq in Hw.
  - rewrite <- insert_delete_eq. apply map_to_list_insert. apply lookup_delete_eq.
Qed.

Lemma ahead_create t h S u n :
  h !! u = None -> ahead t (pool_unit_create_from_thread h u n) S = ahead t h S.
Proof.
  intros Hu. unfold ahead, pool_unit_create_from_thread. rewrite fmap_insert. unfold total.
  rewrite (sum_list_perm _ _ ((u, (0, 0)) :: map_to_list (age <$> h))).
  - cbn [sum_list_with]. unfold weight at 1. by rewrite decide_False by (cbn [fst]; lia).
  - apply map_to_list_insert. by rewrite lookup_fmap, Hu.
Qed.

(** Delivering a unit created before [t] from the heap takes one off. *)
Lemma ahead_pop t h S r x :
  h !! r = Some x -> r ∈ S -> 1 <= priority x < t -> (ahead t h (S ∖ {[r]}) + 1 = ahead t h S)%nat.
Proof.
  intros Hx HrS Hp. unfold ahead.
  assert (Hw : weight t S r (age x) = (weight t (S ∖ {[r]}) r (age x) + 1)%nat).
  { unfold weight, age. cbn [fst snd]. repeat case_decide; try lia; set_solver. }
  pose proof (total_update (weight t S) (weight t (S ∖ {[r]})) (age <$> h) r (age x) (age x)) as H.
  rewrite insert_id in H by by rewrite lookup_fmap, Hx.
  specialize (H ltac:(by rewrite lookup_fmap, Hx)).
  enough (forall w c, w ≠ r -> weight t S w c = weight t (S ∖ {[r]}) w c) as Hext
    by (specialize (H Hext); lia).
  intros w c Hne. unfold weight. case_decide; [|done]. f_equal. repeat case_decide; set_solver.
Qed.

Lemma ages_update (h h' : units) u x' :
  h' !! u = Some x' -> (forall y, y ≠ u -> core <$> h' !! y = core <$> h !! y) ->
  age <$> h' = <[u := age x']> (age <$> h).
Proof.
  intros Hu Hc. apply map_eq. intros y. rewrite lookup_insert. case_decide as E.
  - subst. by rewrite lookup_fmap, Hu.
  - rewrite !lookup_fmap. specialize (Hc y ltac:(done)).
    destruct (h' !! y), (h !! y); simpl in *; try done. unfold core, age in *. congruence.
Qed.

(** A push does not bring more units ahead of number [t]. *)
Lemma ahead_push t h h' S S' u x n :
  h !! u = Some x -> h' !! u = Some (pushed n x) ->
  (forall y, y ≠ u -> core <$> h' !! y = core <$> h !! y) ->
  u ∉ S -> S' = (if cs_count x <? 32 then {[u]} ∪ S else S) -> 0 <= cs_count x <= 32 ->
  0 <= priority x -> t <= n -> ahead t h' S' = ahead t h S.
Proof.
  intros Hx Hu Hc HuS -> Hcs Hp Hn. unfold ahead. rewrite (ages_update h h' u _ Hu Hc).
  set (S' := if cs_count x <? 32 then {[u]} ∪ S else S).
  pose proof (total_update (weight t S) (weight t S') (age <$> h) u (age x) (age (pushed n x))) as H.
  specialize (H ltac:(by rewrite lookup_fmap, Hx)).
  enough (weight t S u (age x) = weight t S' u (age (pushed n x)) /\
          forall w c, w ≠ u -> weight t S w c = weight t S' w c) as [? Hext]
    by (specialize (H Hext); lia).
  split.
  - unfold weight, age, pushed, S'. destruct (Z.eqb_spec (priority x) 0), (Z.ltb_spec (cs_count x) 32);
      cbn [fst snd priority cs_count set_priority]; repeat (rewrite (proj2 (Z.ltb_lt _ _)) by done);
      repeat (rewrite (proj2 (Z.ltb_ge _ _)) by lia); simpl;
      repeat case_decide; first [lia|set_solver].
  - intros w c Hne. unfold weight, S'. case_decide; [|done]. f_equal.
    destruct (cs_count x <? 32); repeat case_decide; set_solver.
Qed.

Lemma ages_eq (h h' : units) :
  (forall y, age <$> h' !! y = age <$> h !! y) -> age <$> h' = age <$> h.
Proof. intros H. apply map_eq. intros y. by rewrite !lookup_fmap. Qed.

Lemma ages_pri (h h' : units) y : age <$> h' !! y = age <$> h !! y -> pri h' y = pri h y.
Proof. unfold pri. destruct (h' !! y), (h !! y); simpl; try done. unfold age. congruence. Qed.

(** The unit served instead of [u] was created before it. *)
Lemma earliest_before h p S l u r :
  efirst_repr h p S l -> u ∈ S -> earliest h S r -> r ≠ u ->
  exists y, h !! r = Some y /\ 1 <= priority y < pri h u.
Proof.
  intros Hr Hu [HrS Hmin] Hne. specialize (Hmin u Hu).
  destruct (er_alloc _ _ _ _ Hr r HrS) as [y Hy], (er_alloc _ _ _ _ Hr u Hu) as [x Hx].
  exists y. split; [done|]. rewrite (lookup_pri _ _ _ Hy), (lookup_pri _ _ _ Hx) in *.
  destruct (er_units _ _ _ _ Hr r y Hy) as (_ & _ & Hpos).
  assert (1 <= priority y) by (apply Hpos, (er_in _ _ _ _ Hr r y Hy); auto).
  assert (priority y ≠ priority x) by (intros E; apply Hne; apply (er_uniq _ _ _ _ Hr r u y x); [done..|lia]).
  lia.
Qed.

Lemma young_bound h p ops outs h' p' :
  pool_run h p ops outs h' p' ->
  forall S l u, efirst_repr h p S l -> u ∈ S ->
    2 * Z.of_nat (ahead (pri h u) h S) + until_prio p < pops ops -> u ∈ outs.
Proof.
  induction 1 as [h p|h p w t ops outs h' p' Hw Hrun IH
                 |h p w x h1 p1 ops outs h' p' Hx Hout Hn Hc Hf Hpush Hrun IH
                 |h p r h1 p1 ops outs h' p' Hpop Hrun IH]; intros S l u Hr Hu Hb.
  - change (pops []) with 0 in Hb. unfold until_prio in Hb.
    pose proof (Z.mod_pos_bound (n_pops (queue p)) 2 eq_refl). lia.
  - assert (Hpu : pri (pool_unit_create_from_thread h w t) u = pri h u).
    { unfold pri, pool_unit_create_from_thread. rewrite lookup_insert_ne; [done|].
      intros ->. destruct (er_alloc _ _ _ _ Hr u Hu). congruence. }
    eapply (IH S l u); eauto using pool_unit_create_repr.
    rewrite Hpu, ahead_create by done. done.
  - destruct (er_fifo _ _ _ _ Hr) as (_ & _ & Hfz).
    destruct (efirst_push_spec h p S l w x) as (h2 & p2 & Hp & Hr' & Hw & Hpops & Hcore); [done..|lia|].
    rewrite Hpush in Hp. simplify_eq. destruct (er_units _ _ _ _ Hr w x Hx) as (Hcs & Hpw & _).
    assert (HwS : w ∉ S) by (intros ?; assert (in_pool x = true) by (apply (er_in _ _ _ _ Hr w x Hx); auto); congruence).
    assert (Hpu : pri h2 u = pri h u) by (apply core_pri, Hcore; set_solver).
    assert (Hut : until_prio p2 = until_prio p) by (unfold until_prio; by rewrite Hpops).
    destruct (er_alloc _ _ _ _ Hr u Hu) as [xu Hxu].
    assert (Hnu : pri h u <= num p) by (rewrite (lookup_pri _ _ _ Hxu); apply (er_units _ _ _ _ Hr u xu Hxu)).
    pose proof (ahead_push (pri h u) h h2 S _ w x _ Hx Hw Hcore HwS eq_refl Hcs) as Ha.
    specialize (Ha ltac:(lia) ltac:(lia)).
    destruct (cs_count x <? 32); eapply IH; [done|set_solver| |done|done|].
    all: by rewrite Hpu, Ha, Hut.
  - assert (HS : S ≠ ∅) by set_solver. rewrite pops_pop in Hb.
    destruct (efirst_pop_spec h p S l) as (h2 & p2 & v & Hp & Hn & Hag & Hd); [done|by left|].
    rewrite Hpop in Hp. simplify_eq. apply next_mod2 in Hn.
    assert (Hpu : pri h2 u = pri h u) by apply ages_pri, Hag. pose proof (ages_eq _ _ Hag) as Hages.
    pose proof (Z.mod_pos_bound (n_pops (queue p)) 2 eq_refl).
    pose proof (Z.mod_pos_bound (n_pops (queue p2)) 2 eq_refl).
    unfold until_prio in *. case_decide as Hdec.
    + destruct Hd as (l' & -> & Hr'). right. eapply (IH S l' u); [done|done|].
      unfold ahead in *. rewrite Hpu, Hages. assert (n_pops (queue p2) mod 2 = 0) by tauto.
      revert Hb Hn H1. Z.to_euclidean_division_equations. lia.
    + destruct Hd as [He Hr']. destruct (decide (v = u)) as [->|Hne]; [set_solver|].
      destruct (earliest_before h p S l u v Hr Hu He Hne) as (y & Hy & Hlt). right.
      eapply (IH _ l u); [done|set_solver|]. destruct He as [HvS _].
      pose proof (ahead_pop (pri h u) h S v y Hy HvS Hlt).
      unfold ahead in *. rewrite Hpu, Hages. lia.
Qed.

(** There are fewer than [t] units with a number below [t]. *)
Lemma ahead_le h p S l t :
  efirst_repr h p S l -> 1 <= t -> Z.of_nat (ahead t h S) <= 33 * (t - 1).
Proof.
  intros Hr Ht. unfold ahead, total.
  set (L := map_to_list (age <$> h)).
  set (is_low := fun wa : loc * (Z * Z) => bool_decide (1 <= wa.2.1 < t)).
  set (F := List.filter is_low L).
  assert (HL : forall w a, (w, a) ∈ L -> exists x, h !! w = Some x /\ a = age x).
  { intros w a Hw%elem_of_map_to_list. rewrite lookup_fmap in Hw.
    destruct (h !! w) as [x|]; simplify_eq/=. eauto. }
  assert (Hsum : (sum_list_with (fun '(w, a) => weight t S w a) L <= 33 * length F)%nat).
  { subst F. clearbody L. induction L as [|[w a] L IH]; [done|].
    specialize (IH ltac:(intros; apply HL; set_solver)). cbn [sum_list_with List.filter].
    destruct (HL w a) as (x & Hx & ->); [set_solver|].
    destruct (er_units _ _ _ _ Hr w x Hx) as (Hcs & _).
    unfold weight at 1, is_low at 1, age. cbn [fst snd]. case_decide.
    - rewrite bool_decide_eq_true_2 by done. cbn [length]. case_decide; lia.
    - rewrite bool_decide_eq_false_2 by done. lia. }
  assert (Hlen : (length F <= Z.to_nat (t - 1))%nat); [|lia].
  rewrite <- (length_map (fun wa : loc * (Z * Z) => Z.to_nat wa.2.1) F), <- (length_seq (Z.to_nat (t - 1)) 1).
  apply submseteq_length, NoDup_submseteq.
  - assert (HF : NoDup F) by (apply NoDup_ListNoDup, List.NoDup_filter, NoDup_ListNoDup, NoDup_map_to_list).
    apply (NoDup_fmap_2_strong (fun wa : loc * (Z * Z) => Z.to_nat wa.2.1)); [|done].
    intros [w a] [v b] Hw Hv E.
    apply list_elem_of_In, List.filter_In in Hw as [Hw%list_elem_of_In Hwl%bool_decide_eq_true].
    apply list_elem_of_In, List.filter_In in Hv as [Hv%list_elem_of_In Hvl%bool_decide_eq_true].
    destruct (HL w a Hw) as (x & Hx & ->), (HL v b Hv) as (y & Hy & ->). simpl in *.
    assert (w = v) as -> by (eapply (er_uniq _ _ _ _ Hr w v x y); [done..|lia|lia]). congruence.
  - intros k Hk. apply list_elem_of_fmap in Hk as ([w a] & -> & Hw).
    apply list_elem_of_In, List.filter_In in Hw as [_ Hwl%bool_decide_eq_true]. simpl in *.
    apply elem_of_seq. lia.
Qed.

(** ** Theorems *)

(** pushing a unit that is not in the pool.  On its first push the unit
    gets the next creation number; a unit pushed fewer than 32 times before
    joins the heap and has its count raised, an older one goes to the end of
    the FIFO list; nothing else of the pool changes. *)
Theorem efirst_push_correct h p S l u x :
  efirst_repr h p S l -> h !! u = Some x -> in_pool x = false ->
  num p < 2 ^ 64 - 1 -> capacity (prio (queue p)) < 2 ^ 60 -> Z.of_nat (length l) < 2 ^ 60 ->
  exists h' p' x',
    pool_push h p u = Some (h', p') /\ h' !! u = Some x' /\
    (if decide (cs_count x < 32)
     then efirst_repr h' p' ({[u]} ∪ S) l /\ cs_count x' = cs_count x + 1
     else efirst_repr h' p' S (l ++ [u]) /\ cs_count x' = cs_count x) /\
    priority x' = (if decide (priority x = 0) then num p + 1 else priority x) /\
    (forall y, y ≠ u -> core <$> h' !! y = core <$> h !! y).
Proof.
  intros Hr Hx Hout Hn Hc Hl.
  destruct (efirst_push_spec h p S l u x) as (h' & p' & Hp & Hr' & Hu & _ & Hcore); [done..|].
  exists h', p', (pushed (num p + 1) x). split_and!; try done.
  - unfold pushed. destruct (Z.ltb_spec (cs_count x) 32), (Z.eqb_spec (priority x) 0);
      case_decide; try lia; (split; [done|]); simpl; by destruct (Z.ltb_spec (cs_count x) 32); try lia.
  - unfold pushed. destruct (Z.eqb_spec (priority x) 0), (decide (priority x = 0)); try done; simpl;
      by destruct (_ <? 32).
Qed.

(** A heap with three units outside any pool, the third one pushed before. *)
Definition demo_units : units :=
  <[3%positive := Unit_t 13 1 0 32 None]>
    (pool_unit_create_from_task (pool_unit_create_from_thread ∅ 1%positive 11) 2%positive 12).

Definition demo_pool : pool_t := Pool_t (create_queue 32) 1.

Lemma demo_units_repr : efirst_repr demo_units demo_pool ∅ [].
Proof.
  assert (Hall : forall u x, demo_units !! u = Some x ->
            in_pool x = false /\ 0 <= cs_count x <= 32 /\ 0 <= priority x <= 1 /\
            (priority x ≠ 0 -> u = 3%positive)).
  { intros u x. unfold demo_units, pool_unit_create_from_task, pool_unit_create_from_thread.
    rewrite !lookup_insert, lookup_empty. repeat case_decide; intros; simplify_eq/=; split_and!; done || lia. }
  split; simpl; try done.
  - split; [split|lia|lia]; [lia|set_solver|lia].
  - apply NoDup_nil_2.
  - intros u x Hx. destruct (Hall u x Hx) as (-> & _). split; [done|]. intros [?|?]; set_solver.
  - intros u x Hx. destruct (Hall u x Hx) as (-> & ? & ? & _). change (num demo_pool) with 1.
    split_and!; first [lia|done].
  - intros u v x y Hx Hy E Hne. destruct (Hall u x Hx) as (_ & _ & _ & H1).
    destruct (Hall v y Hy) as (_ & _ & _ & H2). rewrite H1, H2; congruence.
Qed.

Lemma efirst_push_correct_witness :
  exists h' p' x', pool_push demo_units demo_pool 1%positive = Some (h', p') /\
    h' !! 1%positive = Some x' /\ priority x' = 2.
Proof.
  destruct (efirst_push_correct demo_units demo_pool ∅ [] 1%positive (Unit_t 11 0 IS_THREAD 0 None))
    as (h' & p' & x' & Hp & Hx & _ & Hpri & _);
    [exact demo_units_repr|reflexivity|reflexivity|reflexivity|reflexivity|reflexivity|].
  exists h', p', x'. split; [exact Hp|]. split; [exact Hx|exact Hpri].
Defined.

(** popping a pool that is not empty.  Odd pops serve the heap and even
    pops the FIFO list, each falling back on the other one when it is empty;
    the heap serves the unit created first among the ones it holds, the list
    serves its head, and the delivered unit leaves the pool. *)
Theorem efirst_pop_correct h p S l :
  efirst_repr h p S l -> S ≠ ∅ \/ l ≠ [] -> 0 <= n_pops (queue p) ->
  exists h' p' r, pool_pop h p = Some (h', p', Some r) /\
    (match l with
     | u :: l' =>
         if decide (Z.odd (n_pops (queue p)) \/ S = ∅)
         then r = u /\ efirst_repr h' p' S l'
         else (r ∈ S /\ forall v, v ∈ S -> pri h r <= pri h v) /\ efirst_repr h' p' (S ∖ {[r]}) l
     | [] => (r ∈ S /\ forall v, v ∈ S -> pri h r <= pri h v) /\ efirst_repr h' p' (S ∖ {[r]}) []
     end) /\
    (forall x, h' !! r = Some x -> pool_unit_is_in_pool x = 0).
Proof.
  intros Hr Hne H0. destruct (efirst_pop_spec h p S l Hr Hne) as (h' & p' & r & Hp & Hn & _ & Hd).
  exists h', p', r. split; [done|]. apply next_mod2 in Hn.
  assert (Hodd : n_pops (queue p') mod 2 = 0 <-> Z.odd (n_pops (queue p))).
  { rewrite Hn, Zmod_odd, Z.odd_add. destruct (Z.odd (n_pops (queue p))); simpl; split; done. }
  assert (Hflag : forall S' l', efirst_repr h' p' S' l' -> r ∉ S' -> r ∉ l' ->
            forall x, h' !! r = Some x -> pool_unit_is_in_pool x = 0).
  { intros S' l' Hr' HS' Hl' x Hx. unfold pool_unit_is_in_pool, IS_IN_POOL.
    destruct (in_pool x) eqn:E; [apply (er_in _ _ _ _ Hr' r x Hx) in E; tauto|].
    change 1 with (Z.ones 1). rewrite Z.land_ones by done. unfold in_pool in E.
    rewrite Z.bit0_odd in E. rewrite Zmod_odd. by rewrite E. }
  case_decide as Hdec.
  - destruct Hd as (l' & -> & Hr'). pose proof (er_nodup _ _ _ _ Hr) as [? ?]%NoDup_cons.
    rewrite decide_True by tauto. split; [done|]. eapply (Hflag S l'); [done| |done].
    apply (er_disj _ _ _ _ Hr). set_solver.
  - destruct Hd as (He & Hr'). split.
    + destruct l; [done|]. rewrite decide_False; [done|]. naive_solver.
    + eapply Hflag; [done|set_solver|]. intros ?. destruct He as [HrS _]. by eapply (er_disj _ _ _ _ Hr).
Qed.

Lemma efirst_pop_correct_witness :
  exists h1 p1 h2 p2 h' p',
    pool_push demo_units demo_pool 1%positive = Some (h1, p1) /\
    pool_push h1 p1 3%positive = Some (h2, p2) /\
    pool_pop h2 p2 = Some (h', p', Some 1%positive).
Proof.
  destruct (efirst_push_spec demo_units demo_pool ∅ [] 1%positive (Unit_t 11 0 IS_THREAD 0 None))
    as (h1 & p1 & Hp1 & Hr1 & _); [exact demo_units_repr|reflexivity|reflexivity|reflexivity|reflexivity|reflexivity|].
  vm_compute in Hp1. injection Hp1 as E1 E2. subst h1 p1. simpl in Hr1.
  destruct (efirst_push_spec _ _ _ _ 3%positive (Unit_t 13 1 0 32 None) Hr1)
    as (h2 & p2 & Hp2 & Hr2 & _);
    [vm_compute; reflexivity|reflexivity|reflexivity|reflexivity|reflexivity|].
  vm_compute in Hp2. injection Hp2 as E1 E2. subst h2 p2. simpl in Hr2.
  destruct (efirst_pop_correct _ _ _ _ Hr2) as (h' & p' & r & Hp & _).
  { right. discriminate. } { vm_compute. discriminate. }
  vm_compute in Hp. injection Hp as E1 E2 E3.
  do 6 eexists. split; [vm_compute; reflexivity|]. split; [vm_compute; reflexivity|].
  vm_compute. reflexivity.
Defined.

(** no starvation of old units.  The unit at position [k] of the FIFO list
    is delivered within [2 * (k + 1)] pops, whatever is created and pushed in
    the meantime. *)
Theorem old_unit_not_starved h p S l k u ops outs h' p' :
  efirst_repr h p S l -> l !! k = Some u ->
  pool_run h p ops outs h' p' ->
  2 * (Z.of_nat k + 1) <= pops ops -> u ∈ outs.
Proof.
  intros Hr Hk Hrun Hp. eapply old_bound; [done..|]. unfold until_fifo.
  pose proof (Z.mod_pos_bound (n_pops (queue p) + 1) 2 eq_refl). lia.
Qed.

Lemma old_unit_not_starved_witness :
  exists h1 p1 outs h' p', pool_push demo_units demo_pool 3%positive = Some (h1, p1) /\
    pool_run h1 p1 [OpPush 1%positive; OpPop; OpPop] outs h' p' /\ 3%positive ∈ outs.
Proof.
  destruct (efirst_push_spec demo_units demo_pool ∅ [] 3%positive (Unit_t 13 1 0 32 None))
    as (h1 & p1 & Hp1 & Hr1 & _); [exact demo_units_repr|reflexivity|reflexivity|reflexivity|reflexivity|reflexivity|].
  assert (Hrun : exists outs h' p', pool_run h1 p1 [OpPush 1%positive; OpPop; OpPop] outs h' p').
  { vm_compute in Hp1. injection Hp1 as E1 E2. subst h1 p1. do 3 eexists.
    eapply run_push; [vm_compute; reflexivity..|].
    eapply run_pop; [vm_compute; reflexivity|]. eapply run_pop; [vm_compute; reflexivity|].
    apply run_nil. }
  destruct Hrun as (outs & h' & p' & Hrun). exists h1, p1, outs, h', p'.
  split; [exact Hp1|]. split; [exact Hrun|].
  apply (old_unit_not_starved h1 p1 ∅ [3%positive] 0 3%positive [OpPush 1%positive; OpPop; OpPop] outs h' p' Hr1);
    [reflexivity|exact Hrun|vm_compute; discriminate].
Defined.

(** C10: no starvation of young units.  The unit with creation number [t] that
    waits in the heap is delivered within [66 * t] pops: only the [t - 1] units
    created before it can be served instead, each at most 33 times, whatever
    is created and pushed in the meantime. *)
Theorem young_unit_not_starved h p S l u x ops outs h' p' :
  efirst_repr h p S l -> u ∈ S -> h !! u = Some x ->
  pool_run h p ops outs h' p' ->
  66 * priority x <= pops ops -> u ∈ outs.
Proof.
  intros Hr Hu Hx Hrun Hp. destruct (er_units _ _ _ _ Hr u x Hx) as (_ & _ & Hpos).
  specialize (Hpos ltac:(apply (er_in _ _ _ _ Hr u x Hx); auto)).
  eapply young_bound; [done..|]. rewrite (lookup_pri _ _ _ Hx). unfold until_prio.
  pose proof (ahead_le h p S l (priority x) Hr Hpos).
  pose proof (Z.mod_pos_bound (n_pops (queue p)) 2 eq_refl). lia.
Qed.

(** Popping can always go on. *)
Lemma efirst_pop_runs n : forall h p S l,
  efirst_repr h p S l -> exists outs h' p', pool_run h p (repeat OpPop n) outs h' p'.
Proof.
  induction n as [|n IH]; intros h p S l Hr; [eexists _, _, _; constructor|].
  destruct (decide (S = ∅ /\ l = [])) as [[-> ->]|Hne].
  - destruct (IH _ _ _ _ Hr) as (outs & h' & p' & Hrun).
    eexists _, _, _. eapply run_pop; [by apply pool_pop_empty|done].
  - destruct (efirst_pop_spec h p S l Hr) as (h1 & p1 & r & Hp & _ & _ & Hd);
      [destruct (decide (S = ∅)); [right; naive_solver|by left]|].
    assert (exists S' l', efirst_repr h1 p1 S' l') as (S' & l' & Hr')
      by (case_decide; naive_solver).
    destruct (IH _ _ _ _ Hr') as (outs & h' & p' & Hrun).
    eexists _, _, _. by eapply run_pop.
Qed.

Lemma young_unit_not_starved_witness :
  exists h1 p1 outs h' p', pool_push demo_units demo_pool 1%positive = Some (h1, p1) /\
    pool_run h1 p1 (repeat OpPop 132) outs h' p' /\ 1%positive ∈ outs.
Proof.
  destruct (efirst_push_spec demo_units demo_pool ∅ [] 1%positive (Unit_t 11 0 IS_THREAD 0 None))
    as (h1 & p1 & Hp1 & Hr1 & Hu & _);
    [exact demo_units_repr|reflexivity|reflexivity|reflexivity|reflexivity|reflexivity|].
  destruct (efirst_pop_runs 132 h1 p1 _ _ Hr1) as (outs & h' & p' & Hrun).
  exists h1, p1, outs, h', p'. split; [exact Hp1|]. split; [exact Hrun|].
  apply (young_unit_not_starved h1 p1 _ [] 1%positive (pushed 2 (Unit_t 11 0 IS_THREAD 0 None))
           (repeat OpPop 132) outs h' p' Hr1);
    [set_solver|exact Hu|exact Hrun|vm_compute; discriminate].
Defined.
