(* ===== verification/Timer.v ===== *)
(** * Timers (src/margo-timer.c)

    The timer list of a Margo instance: timers queued by expiration date in a
    doubly-linked list, user-level threads (ULTs) submitted when a timer
    expires, and the counters of pending ULTs that cancellation, destruction
    and the release of the list wait for.  Each critical section of the source
    is one function on the state; the functions interleave in the step
    relation [tstep].  Dates ([double] in the source) are rationals. *)

From Stdlib Require Import QArith Lqa.
From stdpp Require Import gmultiset sorting.
From S2P Require Import Prelude Utlist.

#[local] Open Scope Z_scope.

(** ** Data *)

(** [margo_timer]; [prev] and [next] are in [links_of].  [cb] stands for
    [cb_fn] and [cb_dat]; [pool] is [None] for ABT_POOL_NULL. *)
Record margo_timer := Timer {
  cb : Z;
  pool : option Z;
  expiration : Q;
  num_pending : Z;
  canceled : bool;
  destroy_requested : bool
}.

(** [margo_timer_list], with the timers it owns, the ULTs that were submitted
    and have not looked at [canceled] yet, the ones that have and not counted
    themselves out, and the log of the callbacks invoked. *)
Record state := State {
  links_of : store;
  timers : gmap loc margo_timer;
  queue_head : option loc;
  tl_num_pending : Z;
  tl_destroy_requested : bool;
  submitted : gmultiset loc;
  running : gmultiset loc;
  fired : list loc
}.

(** ** Field updates *)

Definition set_expiration (e : Q) (x : margo_timer) : margo_timer :=
  Timer (cb x) (pool x) e (num_pending x) (canceled x) (destroy_requested x).
Definition set_num_pending (n : Z) (x : margo_timer) : margo_timer :=
  Timer (cb x) (pool x) (expiration x) n (canceled x) (destroy_requested x).
Definition set_canceled (b : bool) (x : margo_timer) : margo_timer :=
  Timer (cb x) (pool x) (expiration x) (num_pending x) b (destroy_requested x).
Definition set_destroy_requested (b : bool) (x : margo_timer) : margo_timer :=
  Timer (cb x) (pool x) (expiration x) (num_pending x) (canceled x) b.

Definition with_list (s : state) (σ : store) (head : option loc) : state :=
  State σ (timers s) head (tl_num_pending s) (tl_destroy_requested s) (submitted s) (running s) (fired s).
Definition with_timers (s : state) (m : gmap loc margo_timer) : state :=
  State (links_of s) m (queue_head s) (tl_num_pending s) (tl_destroy_requested s)
        (submitted s) (running s) (fired s).
Definition with_pending (s : state) (n : Z) : state :=
  State (links_of s) (timers s) (queue_head s) n (tl_destroy_requested s)
        (submitted s) (running s) (fired s).
Definition with_ults (s : state) (sub run : gmultiset loc) : state :=
  State (links_of s) (timers s) (queue_head s) (tl_num_pending s) (tl_destroy_requested s)
        sub run (fired s).
Definition with_fired (s : state) (l : list loc) : state :=
  State (links_of s) (timers s) (queue_head s) (tl_num_pending s) (tl_destroy_requested s)
        (submitted s) (running s) l.
Definition with_destroy (s : state) (b : bool) : state :=
  State (links_of s) (timers s) (queue_head s) (tl_num_pending s) b
        (submitted s) (running s) (fired s).

Definition upd_timer (s : state) (t : loc) (f : margo_timer -> margo_timer) : option state :=
  x ← timers s !! t; Some (with_timers s (<[t := f x]> (timers s))).

Definition Qltb (a b : Q) : bool := negb (Qle_bool b a).

(** ** Operations *)

Definition timer_cleanup (s : state) (t : loc) : state :=
  with_timers (with_list s (delete t (links_of s)) (queue_head s)) (delete t (timers s)).

Definition __margo_timer_list_create : state :=
  State ∅ ∅ None 0 false ∅ ∅ [].

Section operations.
(** Whether [ABT_thread_create] succeeds on a pool. *)
Context (thread_create : Z -> bool).

(** [timer_ult] up to and including the callback. *)
Definition timer_ult_run (s : state) (t : loc) : option state :=
  x ← timers s !! t;
  let s := with_ults s (submitted s ∖ {[+ t +]}) (running s ⊎ {[+ t +]}) in
  Some (if canceled x then s else with_fired s (t :: fired s)).

(** [timer_ult] after the callback. *)
Definition timer_ult_finish (s : state) (t : loc) : option state :=
  s ← upd_timer s t (fun x => set_num_pending (u64 (num_pending x - 1)) x);
  x ← timers s !! t;
  let no_more_pending := num_pending x =? 0 in
  let need_destroy := no_more_pending && destroy_requested x in
  let s := if need_destroy then timer_cleanup s t else s in
  let s := with_pending s (u64 (tl_num_pending s - 1)) in
  Some (with_ults s (submitted s) (running s ∖ {[+ t +]})).

(** The body of the loops of [__margo_check_timers] and
    [__margo_timer_list_free]: take the head out of the queue and fire it. *)
Definition fire_head (s : state) (cur : loc) : option state :=
  '(σ, head) ← DL_DELETE (links_of s) (queue_head s) cur;
  σ ← set_prev σ cur None;
  σ ← set_next σ cur None;
  let s := with_list s σ head in
  x ← timers s !! cur;
  match pool x with
  | Some p =>
      s ← upd_timer s cur (fun x => set_num_pending (u64 (num_pending x + 1)) x);
      let s := with_pending s (u64 (tl_num_pending s + 1)) in
      if thread_create p then Some (with_ults s (submitted s ⊎ {[+ cur +]}) (running s)) else None
  | None => Some (with_fired s (cur :: fired s))
  end.

Fixpoint check_loop (fuel : nat) (now : Q) (s : state) : option state :=
  match queue_head s with
  | None => Some s
  | Some cur =>
      x ← timers s !! cur;
      if Qltb (expiration x) now then
        match fuel with
        | O => None
        | S fuel => s ← fire_head s cur; check_loop fuel now s
        end
      else Some s
  end.

(** [now] is what [ABT_get_wtime] returns. *)
Definition __margo_check_timers (now : Q) (s : state) : option state :=
  check_loop (size (timers s)) now s.

Fixpoint free_loop (fuel : nat) (s : state) : option state :=
  match queue_head s with
  | None => Some s
  | Some cur =>
      match fuel with
      | O => None
      | S fuel => s ← fire_head s cur; free_loop fuel s
      end
  end.

(** [__margo_timer_list_free] up to the wait for the pending ULTs. *)
Definition __margo_timer_list_free (s : state) : option state :=
  free_loop (size (timers s)) (with_destroy s true).

Definition __margo_timer_get_next_expiration (now : Q) (s : state) : option (Z * option Q) :=
  match queue_head s with
  | Some h => x ← timers s !! h; Some (0, Some (expiration x - now)%Q)
  | None => Some (-1, None)
  end.

(** The loop of [__margo_timer_queue], walking backwards from [cur]. *)
Fixpoint queue_walk (fuel : nat) (m : gmap loc margo_timer) (σ : store) (head : option loc)
    (cur timer : loc) : option (store * option loc) :=
  match fuel with
  | O => None
  | S fuel =>
      cp ← get_prev σ cur;
      cur ← cp;
      xc ← m !! cur;
      xt ← m !! timer;
      if Qltb (expiration xc) (expiration xt) then DL_APPEND_ELEM σ head (Some cur) timer
      else if ptr_eqb (Some cur) head then Some (σ, head)
      else queue_walk fuel m σ head cur timer
  end.

Definition __margo_timer_queue (s : state) (timer : loc) : option state :=
  match queue_head s with
  | None =>
      '(σ, head) ← DL_APPEND (links_of s) (queue_head s) timer;
      Some (with_list s σ head)
  | Some cur =>
      '(σ, head) ← queue_walk (size (timers s)) (timers s) (links_of s) (queue_head s) cur timer;
      tp ← get_prev σ timer;
      tn ← get_next σ timer;
      if ptr_eqb tp None && ptr_eqb tn None then
        '(σ, head) ← DL_PREPEND σ head timer;
        Some (with_list s σ head)
      else Some (with_list s σ head)
  end.

(** [new] is the address [calloc] returns. *)
Definition margo_timer_create_with_pool (s : state) (c : Z) (p : option Z) (new : loc) : Z * state :=
  if tl_destroy_requested s then (-1, s)
  else (0, with_timers (with_list s (<[new := Links None None]> (links_of s)) (queue_head s))
             (<[new := Timer c p 0%Q 0 false false]> (timers s))).

(** [handler_pool] is what [margo_get_handler_pool] returns. *)
Definition margo_timer_create (s : state) (c : Z) (handler_pool : Z * option Z) (new : loc) : Z * state :=
  let '(ret, p) := handler_pool in
  if negb (ret =? 0) then (ret, s) else margo_timer_create_with_pool s c p new.

Definition margo_timer_start (s : state) (now timeout_ms : Q) (t : loc) : option (Z * state) :=
  tp ← get_prev (links_of s) t;
  tn ← get_next (links_of s) t;
  x ← timers s !! t;
  let already_started := negb (ptr_eqb tp None) || negb (ptr_eqb tn None) in
  if already_started || canceled x || tl_destroy_requested s then Some (-1, s)
  else
    s ← upd_timer s t (set_expiration (now + timeout_ms / 1000)%Q);
    s ← __margo_timer_queue s t;
    Some (0, s).

(** [margo_timer_cancel]: the flag, the removal from the queue and the links,
    and what follows the wait for the pending ULTs. *)
Definition cancel_mark (s : state) (t : loc) : option state := upd_timer s t (set_canceled true).

Definition cancel_unlink (s : state) (t : loc) : option state :=
  tp ← get_prev (links_of s) t;
  tn ← get_next (links_of s) t;
  '(σ, head) ←
    (if negb (ptr_eqb tp None) || negb (ptr_eqb tn None)
     then DL_DELETE (links_of s) (queue_head s) t
     else Some (links_of s, queue_head s));
  σ ← set_prev σ t None;
  σ ← set_next σ t None;
  Some (with_list s σ head).

Definition cancel_return (s : state) (t : loc) : option state :=
  x ← timers s !! t;
  if num_pending x =? 0 then upd_timer s t (set_canceled false) else None.

(** The first loop of [margo_timer_cancel_many], under the lock of the list. *)
Fixpoint cancel_many_unlink (s : state) (ts : list loc) : option state :=
  match ts with
  | [] => Some s
  | t :: ts =>
      s ← cancel_mark s t;
      s ← cancel_unlink s t;
      cancel_many_unlink s ts
  end.

Definition margo_timer_destroy (s : state) (t : loc) : option state :=
  tp ← get_prev (links_of s) t;
  tn ← get_next (links_of s) t;
  x ← timers s !! t;
  let can_destroy := ptr_eqb tp None && ptr_eqb tn None && (num_pending x =? 0) in
  s ← upd_timer s t (set_destroy_requested (negb can_destroy));
  Some (if can_destroy then timer_cleanup s t else s).
End operations.

(** ** Well-formed timer lists *)

Definition exp_of (m : gmap loc margo_timer) (t : loc) : Q := from_option expiration 0%Q (m !! t).
Definition exp_le (m : gmap loc margo_timer) (a b : loc) : Prop := (exp_of m a <= exp_of m b)%Q.

(** [tinv s q]: the queue of [s] is [q], sorted by expiration date; a timer
    outside of the queue has NULL links; the counters are the numbers of
    pending ULTs, per timer and in total. *)
Record tinv (s : state) (q : list loc) : Prop := {
  ti_queue : dl_repr (links_of s) (queue_head s) q;
  ti_dom : forall t, is_Some (timers s !! t) <-> is_Some (links_of s !! t);
  ti_idle : forall t l, links_of s !! t = Some l -> t ∉ q -> l = Links None None;
  ti_sorted : StronglySorted (exp_le (timers s)) q;
  ti_pending : forall t x, timers s !! t = Some x ->
    num_pending x = Z.of_nat (multiplicity t (submitted s) + multiplicity t (running s));
  ti_ults : forall t, t ∈ submitted s ⊎ running s -> is_Some (timers s !! t);
  ti_total : tl_num_pending s = Z.of_nat (size (submitted s) + size (running s));
  ti_small : tl_num_pending s < 2 ^ 64
}.

Lemma Qltb_spec a b : Qltb a b = true <-> (a < b)%Q.
Proof.
  unfold Qltb. rewrite negb_true_iff, <- not_true_iff_false, Qle_bool_iff. split; [|lra].
  intros. by apply Qnot_le_lt.
Qed.
Lemma Qltb_false a b : Qltb a b = false <-> (b <= a)%Q.
Proof. unfold Qltb. by rewrite negb_false_iff, Qle_bool_iff. Qed.

Lemma tinv_nodup s q : tinv s q -> NoDup q.
Proof. intros Hi. apply (ti_queue _ _ Hi). Qed.

Lemma tinv_links s q t : tinv s q -> t ∈ q -> is_Some (links_of s !! t).
Proof. intros Hi Ht. destruct (ti_queue _ _ Hi) as (_ & _ & Hs). by eapply dl_seg_lookup. Qed.

Lemma tinv_timer s q t : tinv s q -> t ∈ q -> is_Some (timers s !! t).
Proof. intros Hi Ht. apply (ti_dom _ _ Hi). by eapply tinv_links. Qed.

(** Whether a timer is queued can be read off its links. *)
Lemma queued_links s q t tp tn :
  tinv s q -> links_of s !! t = Some (Links tp tn) ->
  negb (ptr_eqb tp None) || negb (ptr_eqb tn None) = bool_decide (t ∈ q).
Proof.
  intros Hi Hl. case_bool_decide as Hq.
  - destruct (ti_queue _ _ Hi) as (_ & _ & Hs).
    apply list_elem_of_split in Hq as (q1 & q2 & ->).
    apply dl_seg_app in Hs as [_ [Ht _]]. rewrite Hl in Ht. injection Ht as -> _.
    unfold ptr_eqb. rewrite (bool_decide_eq_false_2 (last_or _ _ = _)); [done|].
    unfold last_or. rewrite last_app_cons. unfold last_or. destruct (last q1), (last q2); done.
  - apply (ti_idle _ _ Hi) in Hl; [|done]. injection Hl as -> ->. done.
Qed.

Lemma multiplicity_le_size (t : loc) (X : gmultiset loc) : (multiplicity t X <= size X)%nat.
Proof.
  induction X as [|x X IH] using gmultiset_ind; [rewrite multiplicity_empty; lia|].
  rewrite multiplicity_disj_union, gmultiset_size_disj_union, gmultiset_size_singleton.
  rewrite multiplicity_singleton. case_decide; lia.
Qed.

Lemma mult_pos (t : loc) (X : gmultiset loc) : t ∈ X -> (1 <= multiplicity t X)%nat.
Proof. intros H. exact H. Qed.

(** ** Taking a timer out of the queue *)

Lemma unlink_spec σ head l1 d l2 :
  dl_repr σ head (l1 ++ d :: l2) ->
  exists σ', ('(σ, head) ← DL_DELETE σ head d; σ ← set_prev σ d None; σ ← set_next σ d None;
              Some (σ, head)) = Some (σ', hd_or (l1 ++ l2) None) /\
    dl_repr σ' (hd_or (l1 ++ l2) None) (l1 ++ l2) /\ σ' !! d = Some (Links None None) /\
    forall y, y ∉ l1 ++ d :: l2 -> σ' !! y = σ !! y.
Proof.
  intros Hr. destruct (DL_DELETE_spec σ head l1 d l2 Hr) as (σ' & -> & (Hh & Hnd & Hs) & Hf).
  destruct Hr as (_ & Hnd' & Hs'). apply NoDup_middle in Hnd' as (H1 & H2 & _).
  assert (Hd : d ∉ l1 ++ l2) by nodup_solve.
  destruct (dl_seg_lookup _ _ _ _ d Hs') as [n Hn]; [set_solver|].
  pose proof (Hf d Hd) as Hdn. rewrite Hn in Hdn.
  cbn [mbind option_bind]. unfold set_prev, set_next. rewrite Hdn. cbn [mbind option_bind].
  rewrite lookup_insert_eq. cbn [mbind option_bind]. rewrite insert_insert_eq.
  eexists. split; [done|]. split; [split_and!; [done|done|by apply dl_seg_frame]|].
  split; [by rewrite lookup_insert_eq|]. intros y Hy. rewrite lookup_insert_ne by set_solver.
  apply Hf. set_solver.
Qed.

Lemma StronglySorted_middle_inv {A} (R : A -> A -> Prop) l1 d l2 :
  StronglySorted R (l1 ++ d :: l2) -> StronglySorted R (l1 ++ l2).
Proof.
  induction l1 as [|a l1 IH]; simpl; intros H; inversion_clear H; [done|].
  constructor; [auto|]. apply Forall_app in H1 as [? H2]. inversion_clear H2. by apply Forall_app.
Qed.

Lemma tinv_unlink s l1 d l2 σ' :
  tinv s (l1 ++ d :: l2) ->
  dl_repr σ' (hd_or (l1 ++ l2) None) (l1 ++ l2) -> σ' !! d = Some (Links None None) ->
  (forall y, y ∉ l1 ++ d :: l2 -> σ' !! y = links_of s !! y) ->
  tinv (with_list s σ' (hd_or (l1 ++ l2) None)) (l1 ++ l2).
Proof.
  intros Hi Hr Hd Hf.
  assert (Hcase : forall t, t ∉ l1 ++ l2 -> t = d \/ t ∉ l1 ++ d :: l2).
  { intros t Ht. destruct (decide (t = d)); [auto|]. right. set_solver. }
  split; simpl; try apply Hi; try done.
  - intros t. rewrite (ti_dom _ _ Hi). destruct (decide (t ∈ l1 ++ d :: l2)) as [Hq|Hq].
    + split; intros _; [|by eapply tinv_links]. destruct (decide (t = d)) as [->|]; [by rewrite Hd|].
      destruct Hr as (_ & _ & Hs). eapply dl_seg_lookup; [done|set_solver].
    + by rewrite Hf.
  - intros t l Ht Hq. destruct (Hcase t Hq) as [->|Hq']; [congruence|].
    rewrite Hf in Ht by done. by eapply (ti_idle _ _ Hi).
  - eapply StronglySorted_middle_inv, Hi.
Qed.

(** ** Firing timers *)

Section fire.
Context (thread_create : Z -> bool).

Definition has_pool (m : gmap loc margo_timer) (t : loc) : bool :=
  from_option (fun x => if pool x then true else false) false (m !! t).

(** [ABT_thread_create] succeeds on the pools of the timers [l]. *)
Definition creates (m : gmap loc margo_timer) (l : list loc) : Prop :=
  forall t x p, t ∈ l -> m !! t = Some x -> pool x = Some p -> thread_create p = true.

(** The fields a timer keeps while it is queued and fired. *)
Definition fixed (x : margo_timer) := (cb x, pool x, expiration x, canceled x, destroy_requested x).

Lemma fixed_exp m m' t : fixed <$> m' !! t = fixed <$> m !! t -> exp_of m' t = exp_of m t.
Proof. unfold exp_of. destruct (m' !! t), (m !! t); simpl; try done. unfold fixed. congruence. Qed.

Lemma fixed_pool m m' t : fixed <$> m' !! t = fixed <$> m !! t -> has_pool m' t = has_pool m t.
Proof.
  unfold has_pool. destruct (m' !! t) as [x|], (m !! t) as [y|]; simpl; try done. unfold fixed.
  intros H. by assert (pool x = pool y) as -> by congruence.
Qed.

Lemma sorted_ext m m' q :
  (forall t, fixed <$> m' !! t = fixed <$> m !! t) ->
  StronglySorted (exp_le m) q -> StronglySorted (exp_le m') q.
Proof.
  intros Hf. induction 1 as [|a q Hs IH Ha]; constructor; [done|].
  eapply Forall_impl; [exact Ha|]. intros b. unfold exp_le. by rewrite !(fixed_exp m m').
Qed.

Lemma creates_ext m m' q :
  (forall t, fixed <$> m' !! t = fixed <$> m !! t) -> creates m q -> creates m' q.
Proof.
  intros Hf Hc t x p Ht Hx Hp. specialize (Hf t). rewrite Hx in Hf.
  destruct (m !! t) as [y|] eqn:Hy; [|done]. unfold fixed in Hf. simpl in Hf.
  eapply (Hc t y p); [done|done|congruence].
Qed.

Lemma fire_head_spec s c q :
  tinv s (c :: q) -> tl_num_pending s + 1 < 2 ^ 64 -> creates (timers s) [c] ->
  exists s', fire_head thread_create s c = Some s' /\ tinv s' q /\
    (forall t, fixed <$> timers s' !! t = fixed <$> timers s !! t) /\
    running s' = running s /\ tl_destroy_requested s' = tl_destroy_requested s /\
    tl_num_pending s' <= tl_num_pending s + 1 /\
    (submitted s' = if has_pool (timers s) c then submitted s ⊎ {[+ c +]} else submitted s) /\
    (fired s' = if has_pool (timers s) c then fired s else c :: fired s).
Proof.
  intros Hi Hb Hc. unfold fire_head.
  destruct (unlink_spec (links_of s) (queue_head s) [] c q) as (σ' & Hu & Hr & Hd & Hf);
    [apply (ti_queue _ _ Hi)|]. simpl in *.
  destruct (DL_DELETE _ _ c) as [[σ1 h1]|]; [|done]. cbn [mbind option_bind] in *.
  destruct (set_prev σ1 c None) as [σ2|]; [|done]. cbn [mbind option_bind] in *.
  destruct (set_next σ2 c None) as [σ3|]; [|done]. cbn [mbind option_bind] in *. simplify_eq.
  destruct (tinv_timer s (c :: q) c Hi ltac:(set_solver)) as [x Hx].
  pose proof (tinv_unlink s [] c q σ' Hi Hr Hd Hf) as Hi'. simpl in Hi'.
  unfold has_pool. simpl. rewrite Hx. simpl. destruct (pool x) as [p|] eqn:Hp.
  - unfold upd_timer. simpl. rewrite Hx. simpl.
    rewrite (Hc c x p) by (done || set_solver).
    pose proof (ti_pending _ _ Hi c x Hx) as Hpend. pose proof (ti_total _ _ Hi) as Htot.
    assert (multiplicity c (submitted s) <= size (submitted s))%nat by apply multiplicity_le_size.
    assert (multiplicity c (running s) <= size (running s))%nat by apply multiplicity_le_size.
    assert (Hfix : forall t, fixed <$> <[c := set_num_pending (u64 (num_pending x + 1)) x]> (timers s) !! t
                             = fixed <$> timers s !! t).
    { intros t. rewrite lookup_insert. case_decide as E; [|done]. rewrite <- E, Hx. done. }
    eexists. split; [done|]. split_and!; simpl; try done; [|rewrite u64_id by (unfold is_u64; lia); lia].
    destruct Hi' as [? Hdom ? Hsort Hpe Hul Htl Hsm]. simpl in *. split; simpl; try done.
    + intros t. rewrite <- Hdom, lookup_insert_is_Some'. split; [intros [<-|?]; eauto|auto].
    + by eapply sorted_ext.
    + intros t y. rewrite multiplicity_disj_union, lookup_insert. case_decide as E.
      * intros [= <-]. subst t. simpl. rewrite multiplicity_singleton, decide_True, u64_id by
          first [done|unfold is_u64; lia]. lia.
      * intros Hy. rewrite multiplicity_singleton, decide_False by done. rewrite (Hpe t y Hy). lia.
    + intros t Ht. apply lookup_insert_is_Some'. destruct (decide (c = t)); [by left|right].
      apply Hul. multiset_solver.
    + rewrite gmultiset_size_disj_union, gmultiset_size_singleton, u64_id by (unfold is_u64; lia). lia.
    + rewrite u64_id by (unfold is_u64; lia). lia.
  - eexists. split; [done|]. split_and!; simpl; try done; [|lia]. destruct Hi'. by split.
Qed.

Definition pooled (m : gmap loc margo_timer) (l : list loc) : list loc := List.filter (has_pool m) l.
Definition inlined (m : gmap loc margo_timer) (l : list loc) : list loc :=
  List.filter (fun t => negb (has_pool m t)) l.

Lemma filter_pool_ext m m' l :
  (forall t, fixed <$> m' !! t = fixed <$> m !! t) ->
  pooled m' l = pooled m l /\ inlined m' l = inlined m l.
Proof.
  intros Hf. unfold pooled, inlined.
  split; apply List.filter_ext; intros t; by rewrite (fixed_pool m m').
Qed.

(** Firing the timers [a] at the head of the queue. *)
Record fires (s s' : state) (a : list loc) : Prop := {
  fi_fixed : forall t, fixed <$> timers s' !! t = fixed <$> timers s !! t;
  fi_running : running s' = running s;
  fi_destroy : tl_destroy_requested s' = tl_destroy_requested s;
  fi_submitted : submitted s' = submitted s ⊎ list_to_set_disj (pooled (timers s) a);
  fi_fired : fired s' = rev (inlined (timers s) a) ++ fired s
}.

Lemma fires_nil s : fires s s [].
Proof. split; try done. simpl. multiset_solver. Qed.

Lemma fires_cons s s1 s' c a :
  (forall t, fixed <$> timers s1 !! t = fixed <$> timers s !! t) ->
  running s1 = running s -> tl_destroy_requested s1 = tl_destroy_requested s ->
  (submitted s1 = if has_pool (timers s) c then submitted s ⊎ {[+ c +]} else submitted s) ->
  (fired s1 = if has_pool (timers s) c then fired s else c :: fired s) ->
  fires s1 s' a -> fires s s' (c :: a).
Proof.
  intros Hf Hr Hd Hs Hl [Hf' Hr' Hd' Hs' Hl'].
  destruct (filter_pool_ext (timers s) (timers s1) a Hf) as [E1 E2].
  split; try congruence.
  - rewrite Hs', Hs, E1. unfold pooled. simpl. destruct (has_pool (timers s) c); simpl; [|done].
    multiset_solver.
  - rewrite Hl', Hl, E2. unfold inlined. simpl. destruct (has_pool (timers s) c); simpl; [done|].
    by rewrite <- app_assoc.
Qed.

Lemma check_loop_spec now fuel : forall s q,
  tinv s q -> (length q <= fuel)%nat -> tl_num_pending s + Z.of_nat (length q) < 2 ^ 64 ->
  creates (timers s) q ->
  exists a b s', q = a ++ b /\ check_loop thread_create fuel now s = Some s' /\ tinv s' b /\
    Forall (fun t => exp_of (timers s) t < now)%Q a /\
    Forall (fun t => now <= exp_of (timers s) t)%Q b /\ fires s s' a.
Proof.
  induction fuel as [|fuel IH]; intros s q Hi Hlen Hb Hc.
  all: destruct q as [|c q]; [exists [], [], s; destruct (ti_queue _ _ Hi) as (Hh & _);
    simpl; rewrite Hh; simpl; split_and!; by auto using fires_nil|].
  { simpl in Hlen. lia. }
  cbn [check_loop]. destruct (ti_queue _ _ Hi) as (-> & _). cbn [hd_or].
  destruct (tinv_timer s (c :: q) c Hi ltac:(set_solver)) as [x Hx]. rewrite Hx. cbn [mbind option_bind].
  assert (He : exp_of (timers s) c = expiration x) by (unfold exp_of; by rewrite Hx).
  destruct (Qltb (expiration x) now) eqn:Elt.
  - apply Qltb_spec in Elt. simpl length in *.
    destruct (fire_head_spec s c q Hi) as (s1 & -> & Hi1 & Hf1 & Hr1 & Hd1 & Hb1 & Hs1 & Hl1); [lia| |].
    { intros t y p Ht. apply Hc. set_solver. }
    cbn [mbind option_bind].
    destruct (IH s1 q Hi1) as (a & b & s' & -> & -> & Hi' & Ha & Hb' & Hfi); [lia|lia| |].
    { eapply creates_ext; [done|]. intros t y p Ht. apply Hc. set_solver. }
    exists (c :: a), b, s'. split_and!; try done.
    + constructor; [by rewrite He|]. eapply Forall_impl; [exact Ha|]. intros t.
      simpl. by rewrite (fixed_exp (timers s)).
    + eapply Forall_impl; [exact Hb'|]. intros t. simpl. by rewrite (fixed_exp (timers s)).
    + by eapply fires_cons.
  - apply Qltb_false in Elt. exists [], (c :: q), s. split_and!; auto using fires_nil.
    pose proof (ti_sorted _ _ Hi) as Hs. inversion_clear Hs as [|? ? _ Hall].
    constructor; [by rewrite He|]. eapply Forall_impl; [exact Hall|]. intros t. unfold exp_le.
    rewrite He. intros. lra.
Qed.

Lemma free_loop_spec fuel : forall s q,
  tinv s q -> (length q <= fuel)%nat -> tl_num_pending s + Z.of_nat (length q) < 2 ^ 64 ->
  creates (timers s) q ->
  exists s', free_loop thread_create fuel s = Some s' /\ tinv s' [] /\ fires s s' q.
Proof.
  induction fuel as [|fuel IH]; intros s q Hi Hlen Hb Hc.
  all: destruct q as [|c q]; [exists s; destruct (ti_queue _ _ Hi) as (Hh & _);
    simpl; rewrite Hh; simpl; split_and!; by auto using fires_nil|].
  { simpl in Hlen. lia. }
  cbn [free_loop]. destruct (ti_queue _ _ Hi) as (-> & _). cbn [hd_or]. simpl length in *.
  destruct (fire_head_spec s c q Hi) as (s1 & -> & Hi1 & Hf1 & Hr1 & Hd1 & Hb1 & Hs1 & Hl1); [lia| |].
  { intros t y p Ht. apply Hc. set_solver. }
  cbn [mbind option_bind]. destruct (IH s1 q Hi1) as (s' & -> & Hi' & Hfi); [lia|lia| |].
  { eapply creates_ext; [done|]. intros t y p Ht. apply Hc. set_solver. }
  exists s'. split_and!; [done..|]. by eapply fires_cons.
Qed.
End fire.

(** ** Queueing a timer *)

Section queue.
Context (m : gmap loc margo_timer) (σ : store) (head : option loc) (q : list loc) (t : loc).
Hypothesis Hq : dl_repr σ head q.
Hypothesis Hm : forall c, c ∈ q -> is_Some (m !! c).
Hypothesis Ht : is_Some (m !! t).

(** The walk stops after the last timer that expires before [t]. *)
Lemma queue_walk_spec fuel : forall l r cur,
  q = l ++ r -> l ≠ [] -> get_prev σ cur = Some (last l) -> (length l <= fuel)%nat ->
  (exists a c b, l = a ++ c :: b /\ (exp_of m c < exp_of m t)%Q /\
     Forall (fun d => exp_of m t <= exp_of m d)%Q b /\
     queue_walk fuel m σ head cur t = DL_APPEND_ELEM σ head (Some c) t) \/
  (Forall (fun d => exp_of m t <= exp_of m d)%Q l /\
     queue_walk fuel m σ head cur t = Some (σ, head)).
Proof.
  induction fuel as [|fuel IH]; intros l r cur -> Hne Hprev Hlen; [by destruct l; simpl in *; [|lia]|].
  destruct l as [|c l _] using rev_ind; [done|]. clear Hne. rewrite last_snoc in Hprev.
  cbn [queue_walk]. rewrite Hprev. cbn [mbind option_bind].
  destruct (Hm c) as [xc Hc]; [set_solver|]. destruct Ht as [xt Hxt].
  rewrite Hc, Hxt. cbn [mbind option_bind].
  assert (exp_of m c = expiration xc) as Ec by (unfold exp_of; by rewrite Hc).
  assert (exp_of m t = expiration xt) as Et by (unfold exp_of; by rewrite Hxt).
  rewrite <- Ec, <- Et. destruct (Qltb (exp_of m c) (exp_of m t)) eqn:Elt.
  - apply Qltb_spec in Elt. left. exists l, c, []. split_and!; auto.
  - apply Qltb_false in Elt. destruct Hq as (Hh & Hnd & Hs). rewrite <- app_assoc in *. simpl in *.
    unfold ptr_eqb. case_bool_decide as E.
    + right. split; [|done]. destruct l as [|d l]; [by apply Forall_singleton|]. rewrite Hh in E. simpl in *. dl_nodup.
      congruence.
    + assert (l ≠ []) as Hl by (intros ->; simpl in *; congruence).
      destruct (IH l (c :: r) c) as [(a & d & b & -> & ? & ? & ?)|(? & ?)]; [done|done| | | |].
      * apply dl_seg_app in Hs as [_ [Hc' _]]. unfold get_prev. rewrite Hc'. simpl.
        unfold last_or. destruct l as [|z l _] using rev_ind; [done|]. by rewrite last_snoc.
      * rewrite length_app in Hlen. simpl in Hlen. lia.
      * left. exists a, d, (b ++ [c]). rewrite <- app_assoc. split_and!; auto.
        apply Forall_app. auto.
      * right. split; [|done]. apply Forall_app. auto.
Qed.
End queue.

Lemma StronglySorted_insert {A} (R : A -> A -> Prop) a t b :
  StronglySorted R (a ++ b) -> Forall (fun c => R c t) a -> Forall (R t) b ->
  StronglySorted R (a ++ t :: b).
Proof.
  induction a as [|c a IH]; simpl; intros Hs Ha Hb; [by constructor|].
  inversion_clear Hs. inversion_clear Ha. constructor; [auto|].
  apply Forall_app in H0 as [? ?]. apply Forall_app. split; [done|]. by constructor.
Qed.

Lemma tinv_insert s a b t σ' head' :
  tinv s (a ++ b) -> t ∉ a ++ b -> is_Some (timers s !! t) ->
  dl_repr σ' head' (a ++ t :: b) ->
  (forall y, y ∉ t :: a ++ b -> σ' !! y = links_of s !! y) ->
  Forall (fun d => exp_le (timers s) d t) a -> Forall (exp_le (timers s) t) b ->
  tinv (with_list s σ' head') (a ++ t :: b).
Proof.
  intros Hi Ht Hx Hr Hf Ha Hb. split; simpl; try apply Hi; try done.
  - intros y. rewrite (ti_dom _ _ Hi). destruct (decide (y ∈ a ++ t :: b)) as [Hy|Hy].
    + destruct Hr as (_ & _ & Hs). split; intros _; [by eapply dl_seg_lookup|].
      destruct (decide (y = t)) as [->|]; [by apply (ti_dom _ _ Hi)|].
      eapply tinv_links; [done|set_solver].
    + rewrite Hf; [done|set_solver].
  - intros y l Hy Hq. rewrite Hf in Hy by set_solver. eapply (ti_idle _ _ Hi); [done|set_solver].
  - apply StronglySorted_insert; [apply Hi|done|done].
Qed.

Lemma StronglySorted_before {A} (R : A -> A -> Prop) a c b d :
  StronglySorted R (a ++ c :: b) -> d ∈ a -> R d c.
Proof.
  induction a as [|e a IH]; simpl; intros Hs Hd; [by apply elem_of_nil in Hd|].
  inversion_clear Hs. apply elem_of_cons in Hd as [->|Hd]; [|auto].
  apply Forall_app in H0 as [_ H0]. by apply Forall_cons in H0 as [? _].
Qed.

Lemma dl_repr_head σ cur q :
  dl_repr σ (Some cur) q -> q ≠ [] /\ get_prev σ cur = Some (last q).
Proof.
  intros (Hh & _ & Hs). destruct q as [|h q]; [done|]. simpl in Hh. simplify_eq.
  destruct Hs as [Hc _]. unfold get_prev. by rewrite Hc.
Qed.

(** Reading the links of a timer tells whether it is queued. *)
Lemma idle_test s q t :
  tinv s q -> is_Some (links_of s !! t) ->
  exists tp tn, get_prev (links_of s) t = Some tp /\ get_next (links_of s) t = Some tn /\
    ptr_eqb tp None && ptr_eqb tn None = bool_decide (t ∉ q) /\
    negb (ptr_eqb tp None) || negb (ptr_eqb tn None) = bool_decide (t ∈ q).
Proof.
  intros Hi [[tp tn] Hl]. exists tp, tn. unfold get_prev, get_next. rewrite Hl.
  pose proof (queued_links s q t tp tn Hi Hl) as E. split_and!; try done.
  rewrite bool_decide_not, <- E. by destruct (ptr_eqb tp None), (ptr_eqb tn None).
Qed.

Lemma Forall_lt_le m t (a : list loc) :
  Forall (fun d => exp_of m d < exp_of m t)%Q a -> Forall (fun d => exp_le m d t) a.
Proof. intros H. eapply Forall_impl; [exact H|]. unfold exp_le. intros; lra. Qed.

(** [__margo_timer_queue] keeps the queue sorted: the new timer goes after the
    ones that expire before it and before the others. *)
Lemma timer_queue_spec s q t :
  tinv s q -> t ∉ q -> is_Some (timers s !! t) ->
  exists a b σ' head', q = a ++ b /\ __margo_timer_queue s t = Some (with_list s σ' head') /\
    tinv (with_list s σ' head') (a ++ t :: b) /\
    Forall (fun d => exp_of (timers s) d < exp_of (timers s) t)%Q a /\
    Forall (fun d => exp_of (timers s) t <= exp_of (timers s) d)%Q b.
Proof.
  intros Hi Ht Hx. pose proof (ti_queue _ _ Hi) as Hr. unfold __margo_timer_queue.
  assert (Hlt : is_Some (links_of s !! t)) by (by apply (ti_dom _ _ Hi)).
  destruct (queue_head s) as [cur|] eqn:Eh.
  2:{ destruct q; [|by destruct Hr]. destruct (DL_APPEND_spec _ _ _ t Hr Ht Hlt) as (σ' & -> & Hr' & Hf).
      exists [], [], σ', (Some t). split_and!; auto. apply (tinv_insert s [] []); auto. }
  destruct (dl_repr_head _ _ _ Hr) as [Hne Hprev].
  destruct (queue_walk_spec (timers s) (links_of s) (Some cur) q t Hr
              (fun c => tinv_timer s q c Hi) Hx (size (timers s)) q [] cur)
    as [(a & c & b & -> & Hlt' & Hb & ->)|(Hb & ->)];
    [by rewrite app_nil_r|done|done|by apply length_le_size; [apply Hr|intros; eapply tinv_timer]|..].
  - destruct (DL_APPEND_ELEM_spec _ _ a c b t Hr Ht Hlt) as (σ' & -> & Hr' & Hf).
    assert (Hab : Forall (fun d => exp_of (timers s) d < exp_of (timers s) t)%Q (a ++ [c])).
    { apply Forall_app. split; [|by constructor]. apply Forall_forall. intros d Hd.
      apply Qle_lt_trans with (exp_of (timers s) c); [|done].
      apply (StronglySorted_before (exp_le (timers s)) a c b); [apply Hi|done]. }
    rewrite (cons_middle c a b) in *. rewrite app_assoc in *.
    assert (Hi' : tinv (with_list s σ' (Some cur)) ((a ++ [c]) ++ t :: b)).
    { apply tinv_insert; auto using Forall_lt_le. by rewrite <- app_assoc. }
    exists (a ++ [c]), b, σ', (Some cur). split; [done|]. split; [|done].
    destruct (idle_test _ _ t Hi') as (tp & tn & Hp & Hn & E & _); [eapply tinv_links; [done|set_solver]|].
    simpl in Hp, Hn. cbn [mbind option_bind]. rewrite Hp. cbn [mbind option_bind]. rewrite Hn.
    cbn [mbind option_bind]. rewrite E, bool_decide_eq_false_2; [done|set_solver].
  - destruct (DL_PREPEND_spec _ _ q t Hr Ht Hlt) as (σ' & Hpre & Hr' & Hf).
    destruct (idle_test _ _ t Hi Hlt) as (tp & tn & Hp & Hn & E & _).
    cbn [mbind option_bind]. rewrite Hp. cbn [mbind option_bind]. rewrite Hn.
    cbn [mbind option_bind]. rewrite E, bool_decide_eq_true_2, Hpre by done.
    exists [], q, σ', (Some t). split_and!; auto. by apply (tinv_insert s [] q).
Qed.

(** ** The other operations *)

Lemma sorted_ext_in m m' q :
  (forall t, t ∈ q -> exp_of m' t = exp_of m t) ->
  StronglySorted (exp_le m) q -> StronglySorted (exp_le m') q.
Proof.
  intros Hexp Hs. induction Hs as [|a q Hs IH Ha]; constructor; [apply IH; set_solver|].
  apply Forall_forall. intros b Hb. unfold exp_le. rewrite !Hexp by set_solver.
  eapply Forall_forall in Ha; [exact Ha|done].
Qed.

Lemma tinv_upd s q t x x' :
  tinv s q -> timers s !! t = Some x -> num_pending x' = num_pending x ->
  (t ∈ q -> expiration x' = expiration x) ->
  tinv (with_timers s (<[t := x']> (timers s))) q.
Proof.
  intros Hi Hx Hn He. destruct Hi as [Hq Hd Hid Hs Hp Hu Ht Hsm]. split; simpl; try done.
  - intros y. rewrite <- Hd, lookup_insert_is_Some'. split; [intros [<-|?]; eauto|auto].
  - assert (Hexp : forall y, y ∈ q -> exp_of (<[t := x']> (timers s)) y = exp_of (timers s) y).
    { intros y Hy. unfold exp_of. rewrite lookup_insert. case_decide as E; [|done].
      subst. rewrite Hx. simpl. auto. }
    by eapply sorted_ext_in.
  - intros y z. rewrite lookup_insert. case_decide; [|by apply Hp]. intros [= <-]. subst.
    rewrite Hn. auto.
  - intros y Hy. apply lookup_insert_is_Some'. auto.
Qed.

Lemma tinv_free s q t x :
  tinv s q -> timers s !! t = Some x -> t ∉ q -> num_pending x = 0 ->
  tinv (timer_cleanup s t) q.
Proof.
  intros Hi Hx Htq Hn. pose proof (ti_pending _ _ Hi t x Hx) as Hp.
  destruct Hi as [(Hh & Hnd & Hsg) Hd Hid Hs Hpe Hu Ht Hsm]. split; simpl; try done.
  - split_and!; [done..|]. eapply dl_seg_ext; [|done]. intros y Hy. rewrite lookup_delete_ne; [done|].
    intros ->. done.
  - intros y. destruct (decide (y = t)) as [->|].
    + rewrite !lookup_delete_eq. by split; intros [].
    + by rewrite !lookup_delete_ne.
  - intros y l. rewrite lookup_delete_Some. intros [_ ?] ?. eauto.
  - assert (Hexp : forall y, y ∈ q -> exp_of (delete t (timers s)) y = exp_of (timers s) y).
    { intros y Hy. unfold exp_of. rewrite lookup_delete_ne; [done|]. intros ->. done. }
    by eapply sorted_ext_in.
  - intros y z. rewrite lookup_delete_Some. intros [_ ?]. auto.
  - intros y Hy. destruct (decide (y = t)) as [->|]; [|rewrite lookup_delete_ne by done; auto].
    apply mult_pos in Hy. rewrite multiplicity_disj_union in Hy. lia.
Qed.

Lemma ult_run_spec s q t :
  tinv s q -> t ∈ submitted s ->
  exists x s', timers s !! t = Some x /\ timer_ult_run s t = Some s' /\ tinv s' q /\
    timers s' = timers s /\ submitted s' = submitted s ∖ {[+ t +]} /\
    running s' = running s ⊎ {[+ t +]} /\ tl_destroy_requested s' = tl_destroy_requested s /\
    fired s' = if canceled x then fired s else t :: fired s.
Proof.
  intros Hi Ht. destruct (ti_ults _ _ Hi t) as [x Hx]; [multiset_solver|].
  exists x. unfold timer_ult_run. rewrite Hx. cbn [mbind option_bind].
  assert (Hi' : forall l, tinv (with_fired (with_ults s (submitted s ∖ {[+ t +]}) (running s ⊎ {[+ t +]})) l) q).
  { intros l. destruct Hi as [Hq Hd Hid Hs Hp Hu Htl Hsm]. split; simpl; try done.
    - intros y z Hy. rewrite (Hp y z Hy). f_equal.
      rewrite multiplicity_difference, multiplicity_disj_union.
      apply mult_pos in Ht. rewrite !multiplicity_singleton. case_decide; [subst; lia|lia].
    - intros y Hy. apply Hu. destruct (decide (y = t)); multiset_solver.
    - rewrite Htl, gmultiset_size_disj_union, gmultiset_size_singleton, gmultiset_size_difference,
        gmultiset_size_singleton by multiset_solver.
      assert (size (submitted s) ≠ 0)%nat; [|lia]. intros E%gmultiset_size_empty_inv.
      rewrite E in Ht. multiset_solver. }
  specialize (Hi' (if canceled x then fired s else t :: fired s)).
  eexists. split; [done|]. split; [done|]. destruct (canceled x); by split_and!.
Qed.

(** The counters after a ULT of [t] has finished. *)
Lemma ult_finish_spec s q t :
  tinv s q -> t ∈ running s ->
  exists x s', timers s !! t = Some x /\ timer_ult_finish s t = Some s' /\
    fired s' = fired s /\ submitted s' = submitted s /\ running s' = running s ∖ {[+ t +]} /\
    tl_destroy_requested s' = tl_destroy_requested s /\
    if (num_pending x =? 1) && destroy_requested x
    then timers s' = delete t (timers s) /\ (t ∉ q -> tinv s' q)
    else tinv s' q /\ timers s' = <[t := set_num_pending (num_pending x - 1) x]> (timers s).
Proof.
  intros Hi Ht. destruct (ti_ults _ _ Hi t) as [x Hx]; [multiset_solver|].
  exists x. unfold timer_ult_finish, upd_timer. rewrite Hx. cbn [mbind option_bind].
  cbn [with_timers timers]. rewrite lookup_insert_eq. cbn [mbind option_bind num_pending set_num_pending].
  pose proof (ti_pending _ _ Hi t x Hx) as Hp. pose proof (ti_total _ _ Hi) as Htot.
  pose proof (ti_small _ _ Hi) as Hsm.
  pose proof (multiplicity_le_size t (submitted s)). pose proof (multiplicity_le_size t (running s)).
  assert (Hm : (1 <= multiplicity t (running s))%nat) by by apply mult_pos.
  rewrite (u64_id (num_pending x - 1)) by (unfold is_u64; lia).
  replace (num_pending x - 1 =? 0) with (num_pending x =? 1) by (destruct (Z.eqb_spec (num_pending x) 1); symmetry; [apply Z.eqb_eq|apply Z.eqb_neq]; lia).
  cbn [destroy_requested set_num_pending].
  assert (Hi' : tinv (with_ults (with_pending (with_timers s (<[t := set_num_pending (num_pending x - 1) x]> (timers s)))
      (u64 (tl_num_pending s - 1))) (submitted s) (running s ∖ {[+ t +]})) q).
  { pose proof (gmultiset_size_difference (running s) {[+ t +]} ltac:(multiset_solver)) as Hsz.
    rewrite gmultiset_size_singleton in Hsz.
    destruct Hi as [Hq Hd Hid Hs Hpe Hu Htl _].
    split; simpl; rewrite ?u64_id by (unfold is_u64; lia); try done; try lia.
    - intros y. rewrite <- Hd, lookup_insert_is_Some'. split; [intros [<-|?]; eauto|auto].
    - eapply (sorted_ext (timers s)); [|done]. intros y. rewrite lookup_insert. case_decide; [|done].
      subst. by rewrite Hx.
    - intros y z. rewrite lookup_insert, multiplicity_difference, multiplicity_singleton.
      case_decide as E; [|rewrite decide_False by done; intros Hy; rewrite (Hpe y z Hy); lia].
      subst. rewrite decide_True by done. intros [= <-]. simpl. lia.
    - intros y Hy. apply lookup_insert_is_Some'. destruct (decide (t = y)); [by left|].
      right. apply Hu. multiset_solver. }
  eexists. split; [done|]. split; [done|].
  destruct (Z.eqb_spec (num_pending x) 1) as [E1|]; simpl; [|by split_and!].
  destruct (destroy_requested x); simpl; split_and!; try done; [by rewrite delete_insert_eq|].
  intros Htq. eapply (tinv_free _ q t) in Hi'; [|by simpl; rewrite lookup_insert_eq|done|simpl; lia].
  unfold timer_cleanup, with_ults, with_pending, with_timers, with_list in *. simpl in *. exact Hi'.
Qed.

Lemma start_spec s q now tmo t x :
  tinv s q -> timers s !! t = Some x ->
  if decide (t ∈ q \/ canceled x = true \/ tl_destroy_requested s = true)
  then margo_timer_start s now tmo t = Some (-1, s)
  else exists a b s', q = a ++ b /\ margo_timer_start s now tmo t = Some (0, s') /\
    tinv s' (a ++ t :: b) /\
    timers s' = <[t := set_expiration (now + tmo / 1000)%Q x]> (timers s) /\
    submitted s' = submitted s /\ running s' = running s /\ fired s' = fired s.
Proof.
  intros Hi Hx. unfold margo_timer_start.
  assert (Hl : is_Some (links_of s !! t)) by (apply (ti_dom _ _ Hi); eauto).
  destruct (idle_test s q t Hi Hl) as (tp & tn & -> & -> & _ & E).
  rewrite Hx. cbn [mbind option_bind]. rewrite E.
  destruct (decide (t ∈ q \/ _)) as [Hd|Hd].
  - case_bool_decide; [done|].
    destruct Hd as [?|[Hc|Hc]]; [done|..]; rewrite Hc; by rewrite ?orb_true_r.
  - assert (t ∉ q /\ canceled x = false /\ tl_destroy_requested s = false) as (Htq & -> & ->).
    { destruct (canceled x), (tl_destroy_requested s); naive_solver. }
    rewrite bool_decide_eq_false_2 by done. simpl. unfold upd_timer. rewrite Hx. cbn [mbind option_bind].
    edestruct (timer_queue_spec (with_timers s (<[t := set_expiration (now + tmo / 1000)%Q x]> (timers s))) q t)
      as (a & b & σ' & head' & -> & -> & Hi' & _); [by eapply tinv_upd|done|by simpl; rewrite lookup_insert_eq|].
    eexists a, b, _. split; [done|]. split; [done|]. by split_and!.
Qed.

Lemma start_first s now tmo t x :
  tinv s [] -> timers s !! t = Some x -> canceled x = false -> tl_destroy_requested s = false ->
  tinv (default s (snd <$> margo_timer_start s now tmo t)) [t].
Proof.
  intros Hi Hx Hc Hd. pose proof (start_spec s [] now tmo t x Hi Hx) as H.
  rewrite decide_False in H; [|rewrite Hc, Hd; intros [?%elem_of_nil|[?|?]]; done].
  destruct H as (a & b & s' & E & -> & Hi' & _). symmetry in E. by apply app_nil in E as [-> ->].
Qed.

Lemma cancel_unlink_spec s q t x :
  tinv s q -> timers s !! t = Some x ->
  exists s' q', cancel_unlink s t = Some s' /\ tinv s' q' /\ t ∉ q' /\ (forall y, y ∈ q' -> y ∈ q) /\
    timers s' = timers s /\ submitted s' = submitted s /\ running s' = running s /\
    fired s' = fired s /\ tl_destroy_requested s' = tl_destroy_requested s.
Proof.
  intros Hi Hx. unfold cancel_unlink.
  assert (Hl : is_Some (links_of s !! t)) by (apply (ti_dom _ _ Hi); eauto).
  destruct (idle_test s q t Hi Hl) as (tp & tn & -> & -> & _ & E). cbn [mbind option_bind].
  rewrite E.
  case_bool_decide as Htq.
  - pose proof (tinv_nodup _ _ Hi) as Hnd. apply list_elem_of_split in Htq as (l1 & l2 & ->).
    destruct (unlink_spec (links_of s) (queue_head s) l1 t l2) as (σ' & Hu & Hr & Hd & Hf);
      [apply (ti_queue _ _ Hi)|].
    destruct (DL_DELETE _ _ t) as [[σ1 h1]|]; [|done]. cbn [mbind option_bind] in *.
    destruct (set_prev σ1 t None) as [σ2|]; [|done]. cbn [mbind option_bind] in *.
    destruct (set_next σ2 t None) as [σ3|]; [|done]. cbn [mbind option_bind] in *. simplify_eq.
    eexists _, (l1 ++ l2). split; [done|]. dl_nodup.
    split; [by apply (tinv_unlink s l1 t l2)|]. split; [nodup_solve|]. split; [set_solver|done].
  - destruct Hl as [l Hl]. pose proof (ti_idle _ _ Hi t l Hl Htq) as ->.
    cbn [mbind option_bind]. unfold set_prev, set_next. rewrite Hl. cbn [mbind option_bind].
    rewrite lookup_insert_eq. cbn [mbind option_bind prev next]. rewrite insert_insert_eq, insert_id by done.
    eexists _, q. split; [done|]. split; [|done]. by destruct s.
Qed.

Lemma destroy_spec s q t x :
  tinv s q -> timers s !! t = Some x ->
  exists s', margo_timer_destroy s t = Some s' /\ tinv s' q /\
    submitted s' = submitted s /\ running s' = running s /\ fired s' = fired s /\
    tl_destroy_requested s' = tl_destroy_requested s /\
    timers s' = if decide (t ∉ q /\ num_pending x = 0) then delete t (timers s)
                else <[t := set_destroy_requested true x]> (timers s).
Proof.
  intros Hi Hx. unfold margo_timer_destroy.
  assert (Hl : is_Some (links_of s !! t)) by (apply (ti_dom _ _ Hi); eauto).
  destruct (idle_test s q t Hi Hl) as (tp & tn & -> & -> & E & _). cbn [mbind option_bind].
  rewrite Hx. cbn [mbind option_bind]. rewrite E. unfold upd_timer. rewrite Hx. cbn [mbind option_bind].
  assert (Hu : forall b, tinv (with_timers s (<[t := set_destroy_requested b x]> (timers s))) q)
    by (intros b; by eapply tinv_upd).
  destruct (decide (t ∉ q /\ _)) as [[Htq Hn]|Hd].
  - rewrite bool_decide_eq_true_2 by done. rewrite (proj2 (Z.eqb_eq _ _) Hn). simpl.
    eexists. split; [done|]. split; [|split_and!; try done; by simpl; rewrite delete_insert_eq].
    eapply tinv_free; [apply Hu|by simpl; rewrite lookup_insert_eq|done|done].
  - replace (bool_decide (t ∉ q) && (num_pending x =? 0)) with false.
    + simpl. eexists. split; [done|]. split; [apply Hu|done].
    + symmetry. apply andb_false_iff. destruct (decide (t ∉ q)); [right|left].
      * apply Z.eqb_neq. tauto.
      * by apply bool_decide_eq_false_2.
Qed.

Lemma create_spec s q c p new :
  tinv s q -> timers s !! new = None -> tl_destroy_requested s = false ->
  exists s', margo_timer_create_with_pool s c p new = (0, s') /\ tinv s' q /\
    timers s' = <[new := Timer c p 0%Q 0 false false]> (timers s) /\
    submitted s' = submitted s /\ running s' = running s /\ fired s' = fired s /\
    tl_destroy_requested s' = false.
Proof.
  intros Hi Hnew Hd. unfold margo_timer_create_with_pool. rewrite Hd.
  eexists. split; [done|]. split; [|done].
  assert (Hq : new ∉ q) by (intros Hq; destruct (tinv_timer s q new Hi Hq); congruence).
  assert (Hul : new ∉ submitted s ⊎ running s) by (intros Hq'; destruct (ti_ults _ _ Hi new Hq'); congruence).
  destruct Hi as [(Hh & Hnd & Hsg) Hdom Hid Hs Hpe Hu Ht Hsm]. split; simpl; try done.
  - split_and!; [done..|]. by apply dl_seg_frame.
  - intros y. rewrite !lookup_insert_is_Some', Hdom. done.
  - intros y l. rewrite lookup_insert. case_decide; [congruence|eauto].
  - eapply (sorted_ext_in (timers s)); [|done]. intros y Hy. unfold exp_of.
    rewrite lookup_insert_ne; [done|]. intros ->. done.
  - intros y z. rewrite lookup_insert. case_decide as E; [|by apply Hpe]. intros [= <-]. subst. simpl.
    assert (multiplicity y (submitted s) = 0 /\ multiplicity y (running s) = 0)%nat as [-> ->]; [|done].
    assert (y ∉ submitted s /\ y ∉ running s) as [H1 H2] by multiset_solver.
    split; by apply not_elem_of_multiplicity.
  - intros y Hy. apply lookup_insert_is_Some'. auto.
Qed.

(** ** Interleavings *)

Inductive event :=
  | EvCreate (t : loc) | EvStart (t : loc) | EvCheck | EvRun (t : loc) | EvFinish (t : loc)
  | EvMark (t : loc) | EvUnlink (t : loc) | EvReturn (t : loc) | EvDestroy (t : loc) | EvFree.

Section steps.
Context (thread_create : Z -> bool).
Hypothesis thread_create_ok : forall p, thread_create p = true.

(** One critical section of one thread.  A client does not start a timer it
    has destroyed, and does not destroy a timer that is queued while a ULT of
    an earlier start is still pending. *)
Inductive tstep : state -> event -> state -> Prop :=
| step_create s c p new s' :
    timers s !! new = None -> tl_destroy_requested s = false ->
    margo_timer_create_with_pool s c p new = (0, s') -> tstep s (EvCreate new) s'
| step_start s now tmo t x r s' :
    timers s !! t = Some x -> destroy_requested x = false ->
    margo_timer_start s now tmo t = Some (r, s') -> tstep s (EvStart t) s'
| step_check s now s' :
    tl_num_pending s + Z.of_nat (size (timers s)) < 2 ^ 64 ->
    __margo_check_timers thread_create now s = Some s' -> tstep s EvCheck s'
| step_run s t s' : t ∈ submitted s -> timer_ult_run s t = Some s' -> tstep s (EvRun t) s'
| step_finish s t s' : t ∈ running s -> timer_ult_finish s t = Some s' -> tstep s (EvFinish t) s'
| step_mark s t s' : cancel_mark s t = Some s' -> tstep s (EvMark t) s'
| step_unlink s t s' : cancel_unlink s t = Some s' -> tstep s (EvUnlink t) s'
| step_return s t s' : cancel_return s t = Some s' -> tstep s (EvReturn t) s'
| step_destroy s t x s' :
    timers s !! t = Some x -> (get_prev (links_of s) t = Some None \/ num_pending x = 0) ->
    margo_timer_destroy s t = Some s' -> tstep s (EvDestroy t) s'
| step_free s s' :
    tl_num_pending s + Z.of_nat (size (timers s)) < 2 ^ 64 ->
    __margo_timer_list_free thread_create s = Some s' -> tstep s EvFree s'.

Inductive tsteps : state -> list event -> state -> Prop :=
| tsteps_nil s : tsteps s [] s
| tsteps_cons s e s1 es s' : tstep s e s1 -> tsteps s1 es s' -> tsteps s (e :: es) s'.

(** A destroyed timer is not queued while a ULT of it is pending. *)
Definition destroy_ok (s : state) (q : list loc) : Prop :=
  forall t x, timers s !! t = Some x -> destroy_requested x = true -> t ∈ q -> num_pending x = 0.

Definition wf (s : state) (q : list loc) : Prop := tinv s q /\ destroy_ok s q.

Lemma fires_timer s s' a t x' :
  fires s s' a -> timers s' !! t = Some x' ->
  exists x, timers s !! t = Some x /\ canceled x' = canceled x /\
            destroy_requested x' = destroy_requested x /\ pool x' = pool x.
Proof.
  intros Hf Hx'. pose proof (fi_fixed _ _ _ Hf t) as E. rewrite Hx' in E.
  destruct (timers s !! t) as [x|]; [|done]. exists x. unfold fixed in E. simpl in E.
  split_and!; congruence.
Qed.

(** A timer that stays queued keeps its count of pending ULTs. *)
Lemma fires_pending s s' q a b t x x' :
  tinv s q -> tinv s' b -> fires s s' a -> t ∉ a ->
  timers s !! t = Some x -> timers s' !! t = Some x' -> num_pending x' = num_pending x.
Proof.
  intros Hi Hi' Hf Ht Hx Hx'.
  rewrite (ti_pending _ _ Hi' t x' Hx'), (ti_pending _ _ Hi t x Hx), (fi_submitted _ _ _ Hf), (fi_running _ _ _ Hf).
  rewrite multiplicity_disj_union. replace (multiplicity t (list_to_set_disj _)) with 0%nat; [lia|].
  symmetry. apply not_elem_of_multiplicity. intros Hin%elem_of_list_to_set_disj.
  unfold pooled in Hin. apply list_elem_of_In, List.filter_In in Hin as [Hin _].
  by apply list_elem_of_In in Hin.
Qed.

Lemma wf_fires s s' q a b :
  wf s q -> q = a ++ b -> tinv s' b -> fires s s' a -> wf s' b.
Proof.
  intros [Hi Hd] -> Hi' Hf. split; [done|]. intros t x' Hx' Hdr Hb.
  destruct (fires_timer s s' a t x' Hf Hx') as (x & Hx & _ & Edr & _).
  pose proof (tinv_nodup _ _ Hi) as (_ & Hdis & _)%NoDup_app.
  rewrite (fires_pending s s' (a ++ b) a b t x x') by first [done|intros ?; by eapply Hdis].
  apply (Hd t x Hx); [congruence|set_solver].
Qed.

Lemma wf_upd s q q' s' t x x' :
  wf s q -> tinv s' q' -> timers s !! t = Some x -> timers s' = <[t := x']> (timers s) ->
  (forall y, y ≠ t -> y ∈ q' -> y ∈ q) ->
  (destroy_requested x' = true -> t ∈ q' -> num_pending x' = 0) -> wf s' q'.
Proof.
  intros [Hi Hd] Hi' Hx Hts Hq Ht. split; [done|]. intros y z. rewrite Hts, lookup_insert.
  case_decide as E; [intros [= <-]; by subst|]. intros Hy Hdr Hyq. eapply Hd; eauto.
Qed.

(** The first field of a queued timer's links is not NULL. *)
Lemma queued_prev s q t : tinv s q -> t ∈ q -> get_prev (links_of s) t ≠ Some None.
Proof.
  intros Hi Hq Hp. destruct (ti_queue _ _ Hi) as (_ & _ & Hseg).
  apply list_elem_of_split in Hq as (l1 & l2 & ->). apply dl_seg_app in Hseg as [_ [Hl _]].
  unfold get_prev in Hp. rewrite Hl in Hp. simpl in Hp. unfold last_or in Hp.
  destruct (last l1); [done|]. rewrite last_app_cons in Hp. unfold last_or in Hp. by destruct (last l2).
Qed.

(** Every critical section keeps the timer list well formed. *)
Lemma wf_check s q now s' :
  wf s q -> tl_num_pending s + Z.of_nat (size (timers s)) < 2 ^ 64 ->
  __margo_check_timers thread_create now s = Some s' ->
  exists a b, q = a ++ b /\ wf s' b /\ fires s s' a /\
    Forall (fun t => exp_of (timers s) t < now)%Q a /\ Forall (fun t => now <= exp_of (timers s) t)%Q b.
Proof.
  intros Hwf Hb Hc. pose proof Hwf as [Hi Hd].
  assert (Hlen : (length q <= size (timers s))%nat)
    by (apply length_le_size; [by eapply tinv_nodup|intros; by eapply tinv_timer]).
  destruct (check_loop_spec thread_create now (size (timers s)) s q Hi Hlen) as (a & b & s2 & -> & E & Hi' & Ha & Hb' & Hf);
    [lia|intros t x p _ _ _; apply thread_create_ok|].
  unfold __margo_check_timers in Hc. rewrite Hc in E. simplify_eq. exists a, b.
  split; [done|]. split; [by eapply wf_fires|done].
Qed.

Lemma wf_free s q s' :
  wf s q -> tl_num_pending s + Z.of_nat (size (timers s)) < 2 ^ 64 ->
  __margo_timer_list_free thread_create s = Some s' ->
  wf s' [] /\ fires (with_destroy s true) s' q.
Proof.
  intros Hwf Hb Hc. pose proof Hwf as [Hi Hd].
  assert (Hlen : (length q <= size (timers s))%nat)
    by (apply length_le_size; [by eapply tinv_nodup|intros; by eapply tinv_timer]).
  assert (Hi1 : tinv (with_destroy s true) q) by (destruct Hi; by split).
  destruct (free_loop_spec thread_create (size (timers s)) _ q Hi1 Hlen) as (s2 & E & Hi' & Hf);
    [simpl; lia|intros t x p _ _ _; apply thread_create_ok|].
  unfold __margo_timer_list_free in Hc. rewrite Hc in E. simplify_eq.
  split; [|done]. eapply (wf_fires (with_destroy s true) _ q q []); [done|by rewrite app_nil_r|done|done].
Qed.

(** What one step does to the queue, the ULTs and the log. *)
Record effect (e : event) (s s' : state) (q q' l : list loc) : Prop := {
  ef_wf : wf s' q';
  ef_fired : fired s' = l ++ fired s;
  ef_queue : forall t, t ∈ q' -> t ∈ q \/
    (e = EvStart t /\ exists x, timers s !! t = Some x /\ canceled x = false);
  ef_sub : forall t, t ∈ submitted s' -> t ∈ submitted s \/ t ∈ q;
  ef_log : forall t, t ∈ l -> t ∈ q \/
    (t ∈ submitted s /\ exists x, timers s !! t = Some x /\ canceled x = false);
  ef_keep : forall t x, timers s !! t = Some x -> destroy_requested x = false -> e ≠ EvDestroy t ->
    exists x', timers s' !! t = Some x' /\ destroy_requested x' = false /\
      (e ≠ EvReturn t -> canceled x = true -> canceled x' = true)
}.

Lemma effect_fires e s s' q a b :
  q = a ++ b -> wf s' b -> fires s s' a -> effect e s s' q b (rev (inlined (timers s) a)).
Proof.
  intros -> Hwf Hf. split; try done.
  - apply Hf.
  - set_solver.
  - intros t. rewrite (fi_submitted _ _ _ Hf). intros [?|Hin]%gmultiset_elem_of_disj_union; [auto|].
    apply elem_of_list_to_set_disj in Hin. unfold pooled in Hin.
    apply list_elem_of_In, List.filter_In in Hin as [Hin%list_elem_of_In _]. set_solver.
  - intros t Ht. left. unfold inlined in Ht.
    apply list_elem_of_In, List.in_rev, List.filter_In in Ht as [Hin%list_elem_of_In _]. set_solver.
  - intros t x Hx Hdr _. pose proof (fi_fixed _ _ _ Hf t) as E. rewrite Hx in E.
    destruct (timers s' !! t) as [x'|]; [|done]. exists x'. unfold fixed in E. simpl in E.
    split_and!; [done|congruence|]. intros. congruence.
Qed.

(** A step that changes the fields of one timer [t]. *)
Lemma effect_upd e s s' q q' t x x' :
  wf s' q' -> fired s' = fired s -> submitted s' = submitted s ->
  timers s !! t = Some x -> timers s' = <[t := x']> (timers s) ->
  (forall y, y ∈ q' -> y ∈ q \/ (e = EvStart t /\ y = t /\ canceled x = false)) ->
  (destroy_requested x = false -> e ≠ EvDestroy t -> destroy_requested x' = false) ->
  (e ≠ EvReturn t -> canceled x = true -> canceled x' = true) ->
  effect e s s' q q' [].
Proof.
  intros Hwf Hf Hs Hx Hts Hq Hd Hc. split; try done.
  - intros y Hy. destruct (Hq y Hy) as [?|(-> & -> & ?)]; eauto.
  - intros y. rewrite Hs. auto.
  - set_solver.
  - intros y z Hy Hdr He. rewrite Hts, lookup_insert. case_decide as E; [|eauto]. subst.
    rewrite Hx in Hy. injection Hy as <-. eauto.
Qed.

Lemma effect_client s q e s' :
  wf s q -> tstep s e s' ->
  match e with EvRun _ | EvFinish _ | EvCheck | EvFree => False | _ => True end ->
  exists q' l, effect e s s' q q' l.
Proof.
  intros Hwf Hs He. pose proof Hwf as [Hi Hd].
  destruct Hs as [s c p new s' Hn Hdr Hc|s now tmo t x r s' Hx Hdr Hc| | | |s t s' Hc|s t s' Hc|s t s' Hc
    |s t x s' Hx Hob Hc| ]; try done; clear He.
  - destruct (create_spec s q c p new Hi Hn Hdr) as (s2 & E & Hi' & Hts & Hsub & _ & Hfi & _).
    rewrite Hc in E. simplify_eq. exists q, []. split; try done.
    + split; [done|]. intros t x. rewrite Hts, lookup_insert. case_decide; [by intros [= <-]|apply Hd].
    + auto.
    + rewrite Hsub. auto.
    + set_solver.
    + intros t x Hx ? _. rewrite Hts, lookup_insert. case_decide; [congruence|]. eauto.
  - pose proof (start_spec s q now tmo t x Hi Hx) as H. destruct (decide _) as [|Hno].
    + rewrite Hc in H. simplify_eq. exists q, []. eapply (effect_upd _ _ _ _ _ t x x); auto. by rewrite insert_id.
    + destruct H as (a & b & s2 & -> & E & Hi' & Hts & Hsub & _ & Hfi). rewrite Hc in E. simplify_eq.
      exists (a ++ t :: b), []. eapply (effect_upd _ _ _ _ _ t x); try done; auto.
      * eapply wf_upd; [done|done|done|done|set_solver|simpl; congruence].
      * intros y Hy. destruct (decide (y = t)) as [->|]; [right|left; set_solver].
        split_and!; [done..|]. destruct (canceled x); naive_solver.
  - unfold cancel_mark, upd_timer in Hc. destruct (timers s !! t) as [x|] eqn:Hx; simplify_eq/=.
    exists q, []. eapply (effect_upd _ _ _ _ _ t x); try done; auto.
    eapply wf_upd; [done|by eapply tinv_upd|done|done|auto|]. simpl. eauto.
  - unfold cancel_unlink in Hc. assert (is_Some (timers s !! t)) as [x Hx].
    { apply (ti_dom _ _ Hi). unfold get_prev in Hc. destruct (links_of s !! t); [eauto|done]. }
    destruct (cancel_unlink_spec s q t x Hi Hx) as (s2 & q' & E & Hi' & _ & Hsub & Hts & Hsu & _ & Hfi & _).
    unfold cancel_unlink in E. rewrite Hc in E. simplify_eq. exists q', [].
    eapply (effect_upd _ _ _ _ _ t x x); auto; [|by rewrite insert_id].
    split; [done|]. intros y z. rewrite Hts. intros. eapply Hd; eauto.
  - unfold cancel_return, upd_timer in Hc. destruct (timers s !! t) as [x|] eqn:Hx; [|done]. simpl in Hc.
    destruct (num_pending x =? 0); simplify_eq/=.
    exists q, []. eapply (effect_upd _ _ _ _ _ t x); try done; auto.
    eapply wf_upd; [done|by eapply tinv_upd|done|done|auto|]. simpl. eauto.
  - destruct (destroy_spec s q t x Hi Hx) as (s2 & E & Hi' & Hsu & _ & Hfi & _ & Hts). rewrite Hc in E. simplify_eq.
    exists q, []. case_decide.
    + split; try done; auto; [|rewrite Hsu; auto|set_solver|].
      * split; [done|]. intros y z. rewrite Hts, lookup_delete_Some. intros [_ Hy]. by apply Hd.
      * intros y z Hy ? ?. rewrite Hts, lookup_delete_ne by congruence. eauto.
    + eapply (effect_upd _ _ _ _ _ t x); try done; auto.
      eapply wf_upd; [done|done|done|done|auto|]. simpl. intros _ Hq. destruct Hob as [Hp|]; [|done].
      by destruct (queued_prev s q t Hi Hq).
Qed.

Lemma tstep_effect s q e s' : wf s q -> tstep s e s' -> exists q' l, effect e s s' q q' l.
Proof.
  intros Hwf Hs. destruct e eqn:Ee; try (rewrite <- Ee in *; eapply effect_client; [done..|by rewrite Ee]).
  all: pose proof Hwf as [Hi Hd]; inversion Hs as [| |? now ? Hb Hc|? ? ? Ht Hc|? ? ? Ht Hc| | | | |? ? Hb Hc]; subst.
  - destruct (wf_check s q now s' Hwf Hb Hc) as (a & b & -> & Hwf' & Hf & _).
    eexists b, _. by eapply effect_fires.
  - destruct (ult_run_spec s q t Hi Ht) as (x & s2 & Hx & E & Hi' & Hts & Hsu & _ & _ & Hfi).
    rewrite Hc in E. simplify_eq. exists q, (if canceled x then [] else [t]). split; try done; auto.
    + split; [done|]. intros y z. rewrite Hts. apply Hd.
    + rewrite Hfi. by destruct (canceled x).
    + rewrite Hsu. intros y Hy. left. multiset_solver.
    + intros y Hy. destruct (canceled x) eqn:Ec; [set_solver|]. apply list_elem_of_singleton in Hy as ->. eauto.
    + intros y z Hy ? _. rewrite Hts. eauto.
  - destruct (ult_finish_spec s q t Hi Ht) as (x & s2 & Hx & E & Hfi & Hsu & _ & _ & H). rewrite Hc in E. simplify_eq.
    destruct ((num_pending x =? 1) && destroy_requested x) eqn:Eb.
    + apply andb_true_iff in Eb as [E1%Z.eqb_eq E2]. destruct H as [Hts Hi'].
      assert (Htq : t ∉ q) by (intros Hq; specialize (Hd t x Hx E2 Hq); lia).
      exists q, []. split; try done; auto; [|rewrite Hsu; auto|set_solver|].
      * split; [auto|]. intros y z. rewrite Hts, lookup_delete_Some. intros [_ Hy]. by apply Hd.
      * intros y z Hy ? ?. rewrite Hts, lookup_delete_ne by congruence. eauto.
    + destruct H as [Hi' Hts]. exists q, []. eapply (effect_upd _ _ _ _ _ t x); try done; auto.
      eapply wf_upd; [done|done|done|done|auto|]. simpl. intros E2 Hq.
      specialize (Hd t x Hx E2 Hq). pose proof (ti_pending _ _ Hi t x Hx). apply mult_pos in Ht. lia.
  - destruct (wf_free s q s' Hwf Hb Hc) as [Hwf' Hf].
    eexists [], _. eapply (effect_fires _ (with_destroy s true) s' q q []) in Hf; [|by rewrite app_nil_r|done].
    destruct Hf. by split.
Qed.

Lemma tsteps_wf s es s' : tsteps s es s' -> forall q, wf s q -> exists q', wf s' q'.
Proof.
  induction 1 as [s|s e s1 es s' Hs _ IH]; intros q Hq; [eauto|].
  destruct (tstep_effect s q e s1 Hq Hs) as (q1 & l & Hef). eapply IH, Hef.
Qed.
End steps.

(** ** Cancellation *)

Section cancel.
Context (thread_create : Z -> bool).
Hypothesis thread_create_ok : forall p, thread_create p = true.

Abbreviation step := (tstep thread_create).
Abbreviation steps := (tsteps thread_create).

(** [t] is canceled and was not destroyed. *)
Definition canceling (s : state) (t : loc) : Prop :=
  exists x, timers s !! t = Some x /\ canceled x = true /\ destroy_requested x = false.

(** The callback of [t] was not invoked between [s] and [s']. *)
Definition not_fired (s s' : state) (t : loc) : Prop := exists l, fired s' = l ++ fired s /\ t ∉ l.

Lemma not_fired_trans s s1 s' t : not_fired s s1 t -> not_fired s1 s' t -> not_fired s s' t.
Proof.
  intros (l & E & Hl) (l' & E' & Hl'). exists (l' ++ l). rewrite E', E, app_assoc. split; [done|set_solver].
Qed.

(** While a thread is in [margo_timer_cancel], [t] stays canceled; once it was
    taken out of the queue it stays out and is not fired. *)
Lemma steps_canceling s es s' :
  steps s es s' -> forall q t, wf s q -> canceling s t -> EvReturn t ∉ es -> EvDestroy t ∉ es ->
  exists q', wf s' q' /\ canceling s' t /\ (t ∉ q -> t ∉ q' /\ not_fired s s' t).
Proof.
  induction 1 as [s|s e s1 es s' Hs _ IH]; intros q t Hwf Hc Hr Hd.
  - exists q. split_and!; [done..|]. intros Ht. split; [done|]. exists []. split; [done|set_solver].
  - destruct (tstep_effect thread_create thread_create_ok s q e s1 Hwf Hs) as (q1 & l & [Hwf1 Hfi Hq Hsub Hlog Hkeep]).
    destruct Hc as (x & Hx & Hxc & Hxd).
    destruct (Hkeep t x Hx Hxd) as (x' & Hx' & Hxd' & Hxc'); [set_solver|].
    destruct (IH q1 t Hwf1) as (q' & Hwf' & Hc' & Hn); [|set_solver..|].
    { exists x'. split_and!; [done|apply Hxc'; [set_solver|done]|done]. }
    exists q'. split_and!; [done..|]. intros Ht.
    destruct Hn as [Hq' Hn'].
    { intros Ht1. destruct (Hq t Ht1) as [?|(_ & y & Hy & Hyc)]; congruence. }
    split; [done|]. eapply not_fired_trans; [|exact Hn']. exists l. split; [done|].
    intros Hl. destruct (Hlog t Hl) as [?|(_ & y & Hy & Hyc)]; congruence.
Qed.

(** A timer that is neither queued nor submitted is not fired before it is
    started again. *)
Lemma steps_quiet s es s' :
  steps s es s' -> forall q t, wf s q -> t ∉ q -> t ∉ submitted s -> EvStart t ∉ es -> not_fired s s' t.
Proof.
  induction 1 as [s|s e s1 es s' Hs _ IH]; intros q t Hwf Hq Hsub Hst.
  - exists []. split; [done|set_solver].
  - destruct (tstep_effect thread_create thread_create_ok s q e s1 Hwf Hs) as (q1 & l & [Hwf1 Hfi Hq1 Hsub1 Hlog _]).
    eapply not_fired_trans; [|eapply (IH q1 t); [done| | |set_solver]].
    + exists l. split; [done|]. intros Hl. destruct (Hlog t Hl) as [?|[? _]]; done.
    + intros Ht. destruct (Hq1 t Ht) as [?|[-> _]]; [done|set_solver].
    + intros Ht. by destruct (Hsub1 t Ht).
Qed.

(** What the last step of [margo_timer_cancel] finds. *)
Lemma cancel_return_quiet s q s' t :
  wf s q -> t ∉ q -> step s (EvReturn t) s' ->
  wf s' q /\ t ∉ submitted s' /\ fired s' = fired s.
Proof.
  intros Hwf Hq Hs. pose proof Hwf as [Hi Hd]. inversion Hs as [| | | | | | |? ? ? Hc| | ]; subst.
  unfold cancel_return, upd_timer in Hc. destruct (timers s !! t) as [x|] eqn:Hx; [|done]. simpl in Hc.
  destruct (Z.eqb_spec (num_pending x) 0) as [E|]; simplify_eq/=. split_and!; [|simpl|done].
  - eapply wf_upd; [done|by eapply tinv_upd|done|done|auto|]. simpl. eauto.
  - rewrite (ti_pending _ _ Hi t x Hx) in E. intros Hin%mult_pos. lia.
Qed.


(** in every reachable state of a timer list whose clients keep the
    contract of [margo_timer_destroy], the queue is a well-linked list sorted
    by expiration date, timers outside of it have NULL links, the counter of
    each timer is the number of its submitted and unfinished ULTs, the counter
    of the list is their total, and every such ULT's timer is allocated. *)
Theorem timer_list_invariant es s' :
  steps __margo_timer_list_create es s' ->
  exists q, dl_repr (links_of s') (queue_head s') q /\
    StronglySorted (exp_le (timers s')) q /\
    (forall t l, links_of s' !! t = Some l -> t ∉ q -> l = Links None None) /\
    (forall t x, timers s' !! t = Some x ->
       num_pending x = Z.of_nat (multiplicity t (submitted s') + multiplicity t (running s'))) /\
    tl_num_pending s' = Z.of_nat (size (submitted s') + size (running s')) /\
    (forall t, t ∈ submitted s' ⊎ running s' -> is_Some (timers s' !! t)).
Proof.
  intros Hes. destruct (tsteps_wf thread_create thread_create_ok _ _ _ Hes []) as (q & Hi & _).
  - split; [|done]. split; simpl; try done.
    + split_and!; [done|apply NoDup_nil_2|done].
    + intros t. rewrite !lookup_empty. by split; intros [].
    + constructor.
    + intros t Ht. multiset_solver.
  - exists q. destruct Hi. by split_and!.
Qed.
End cancel.

(** ** A run: create, start, expire, cancel while the ULT is pending *)

Definition ok1 : Z -> bool := fun _ => true.
Definition get (s : option state) : state := default __margo_timer_list_create s.
Definition get' (s : option (Z * state)) : state := get (snd <$> s).

Definition d1 : state := snd (margo_timer_create_with_pool __margo_timer_list_create 5 (Some 7) 1%positive).
Definition d2 : state := get' (margo_timer_start d1 0%Q 1000%Q 1%positive).
Definition d3 : state := get (__margo_check_timers ok1 2%Q d2).
Definition d4 : state := get (cancel_mark d3 1%positive).
Definition d5 : state := get (cancel_unlink d4 1%positive).
Definition d6 : state := get (timer_ult_run d5 1%positive).
Definition d7 : state := get (timer_ult_finish d6 1%positive).
Definition d8 : state := get (cancel_return d7 1%positive).
Definition d9 : state := get (__margo_check_timers ok1 5%Q d8).

Lemma ok1_true p : ok1 p = true.
Proof. reflexivity. Qed.

Lemma d_steps3 : tsteps ok1 __margo_timer_list_create [EvCreate 1%positive; EvStart 1%positive; EvCheck] d3.
Proof.
  eapply tsteps_cons; [eapply (step_create _ _ 5 (Some 7) _ d1); vm_compute; reflexivity|].
  eapply tsteps_cons; [eapply (step_start _ d1 0%Q 1000%Q _ _ 0 d2); vm_compute; reflexivity|].
  eapply tsteps_cons; [eapply (step_check _ d2 2%Q d3); vm_compute; reflexivity|]. apply tsteps_nil.
Qed.

Lemma wf_create : wf __margo_timer_list_create [].
Proof.
  split; [|done]. split; simpl; try done.
  - split_and!; [done|apply NoDup_nil_2|done].
  - intros t. rewrite !lookup_empty. by split; intros [].
  - constructor.
  - intros t Ht. multiset_solver.
Qed.


Lemma timer_list_invariant_witness :
  exists q, dl_repr (links_of d3) (queue_head d3) q /\ tl_num_pending d3 = 1.
Proof.
  destruct (timer_list_invariant ok1 ok1_true _ _ d_steps3) as (q & Hq & _).
  exists q. split; [exact Hq|vm_compute; reflexivity].
Defined.

(** ** Expiration *)

(** one pass of [__margo_check_timers] takes exactly the timers that
    expired before the date it reads out of the queue, in the order of their
    dates: it submits one ULT for each of them that has a pool and invokes the
    callback of the others at once; the timers that stay queued expire at that
    date or later, and the loop terminates within the number of timers. *)
Theorem check_timers_correct thread_create now s q :
  tinv s q -> tl_num_pending s + Z.of_nat (length q) < 2 ^ 64 -> (forall p, thread_create p = true) ->
  exists a b s', q = a ++ b /\ __margo_check_timers thread_create now s = Some s' /\ tinv s' b /\
    Forall (fun t => exp_of (timers s) t < now)%Q a /\
    Forall (fun t => now <= exp_of (timers s) t)%Q b /\
    submitted s' = submitted s ⊎ list_to_set_disj (pooled (timers s) a) /\
    fired s' = rev (inlined (timers s) a) ++ fired s.
Proof.
  intros Hi Hb Hok.
  assert (Hlen : (length q <= size (timers s))%nat)
    by (apply length_le_size; [by eapply tinv_nodup|intros; by eapply tinv_timer]).
  destruct (check_loop_spec thread_create now (size (timers s)) s q Hi Hlen Hb)
    as (a & b & s' & -> & E & Hi' & Ha & Hb' & Hf); [intros t x p _ _ _; apply Hok|].
  exists a, b, s'. split_and!; try done; apply Hf.
Qed.

Lemma d2_tinv : exists q, tinv d2 q /\ (length q <= 1)%nat.
Proof.
  destruct (create_spec __margo_timer_list_create [] 5 (Some 7) 1%positive) as (s1 & E1 & Hi1 & Hts & _);
    [apply wf_create|reflexivity|reflexivity|].
  assert (s1 = d1) as -> by (unfold d1; by rewrite E1).
  pose proof (start_first d1 0%Q 1000%Q 1%positive (Timer 5 (Some 7) 0%Q 0 false false) Hi1
                eq_refl eq_refl eq_refl) as Hi.
  exists [1%positive]. split; [exact Hi|done].
Qed.

Lemma check_timers_correct_witness :
  exists a b s', __margo_check_timers ok1 2%Q d2 = Some s' /\ tinv s' b /\
    submitted s' = submitted d2 ⊎ list_to_set_disj (pooled (timers d2) a).
Proof.
  destruct d2_tinv as (q & Hi & Hl).
  destruct (check_timers_correct ok1 2%Q d2 q Hi) as (a & b & s' & _ & E & Hi' & _ & _ & Hs & _).
  - change (tl_num_pending d2) with 0. lia.
  - exact ok1_true.
  - exists a, b, s'. split; [exact E|]. split; [exact Hi'|exact Hs].
Defined.

(** [margo_timer_start] refuses (-1, nothing changed) a timer that is
    queued or canceled and any timer once the list is being released;
    otherwise it sets the expiration date and puts the timer in the queue,
    which stays sorted, without touching ULTs or callbacks. *)
Theorem timer_start_correct s q now tmo t x :
  tinv s q -> timers s !! t = Some x ->
  if decide (t ∈ q \/ canceled x = true \/ tl_destroy_requested s = true)
  then margo_timer_start s now tmo t = Some (-1, s)
  else exists a b s', q = a ++ b /\ margo_timer_start s now tmo t = Some (0, s') /\
    tinv s' (a ++ t :: b) /\
    timers s' = <[t := set_expiration (now + tmo / 1000)%Q x]> (timers s) /\
    submitted s' = submitted s /\ running s' = running s /\ fired s' = fired s.
Proof. apply start_spec. Qed.

Lemma timer_start_correct_witness : margo_timer_start d2 1%Q 5%Q 1%positive = Some (-1, d2).
Proof.
  destruct d2_tinv as (q & Hi & Hl).
  pose proof (timer_start_correct d2 q 1%Q 5%Q 1%positive (Timer 5 (Some 7) (0 + 1000 / 1000)%Q 0 false false)
                Hi eq_refl) as H.
  destruct (decide _) as [Hd|Hd]; [exact H|].
  vm_compute. reflexivity.
Defined.

(** [__margo_timer_get_next_expiration] returns -1 exactly when no timer
    is queued; otherwise it returns 0 and the time left before a queued timer
    such that no queued timer expires sooner. *)
Theorem next_expiration_correct s q now :
  tinv s q ->
  (q = [] /\ __margo_timer_get_next_expiration now s = Some (-1, None)) \/
  (exists t, t ∈ q /\ __margo_timer_get_next_expiration now s = Some (0, Some (exp_of (timers s) t - now)%Q) /\
     forall u, u ∈ q -> (exp_of (timers s) t - now <= exp_of (timers s) u - now)%Q).
Proof.
  intros Hi. unfold __margo_timer_get_next_expiration. destruct (ti_queue _ _ Hi) as (-> & _).
  destruct q as [|t q]; [by left|]. right. exists t. split; [set_solver|]. cbn [hd_or].
  destruct (tinv_timer _ _ t Hi) as [x Hx]; [set_solver|]. rewrite Hx. simpl.
  unfold exp_of at 1. rewrite Hx. split; [done|].
  intros u [->|Hu]%elem_of_cons; [lra|]. pose proof (ti_sorted _ _ Hi) as Hs. inversion_clear Hs.
  eapply Forall_forall in H0; [|exact Hu]. unfold exp_le in H0. lra.
Qed.

Lemma next_expiration_correct_witness :
  exists q, tinv d2 q /\
    ((q = [] /\ __margo_timer_get_next_expiration 0%Q d2 = Some (-1, None)) \/
     (exists t, t ∈ q /\ __margo_timer_get_next_expiration 0%Q d2 = Some (0, Some (exp_of (timers d2) t - 0)%Q))).
Proof.
  destruct d2_tinv as (q & Hi & _). exists q. split; [exact Hi|].
  destruct (next_expiration_correct d2 q 0%Q Hi) as [H|(t & Ht & E & _)]; [left; exact H|].
  right. exists t. split; [exact Ht|exact E].
Defined.

(** releasing the list fires every timer still queued, in the order of
    their dates and whatever their date, leaves the queue empty and refuses
    new timers. *)
Theorem timer_list_free_correct thread_create s q :
  tinv s q -> tl_num_pending s + Z.of_nat (length q) < 2 ^ 64 -> (forall p, thread_create p = true) ->
  exists s', __margo_timer_list_free thread_create s = Some s' /\ tinv s' [] /\
    submitted s' = submitted s ⊎ list_to_set_disj (pooled (timers s) q) /\
    fired s' = rev (inlined (timers s) q) ++ fired s /\
    (forall c p new, margo_timer_create_with_pool s' c p new = (-1, s')).
Proof.
  intros Hi Hb Hok.
  assert (Hlen : (length q <= size (timers s))%nat)
    by (apply length_le_size; [by eapply tinv_nodup|intros; by eapply tinv_timer]).
  assert (Hi1 : tinv (with_destroy s true) q) by (destruct Hi; by split).
  destruct (free_loop_spec thread_create (size (timers s)) _ q Hi1 Hlen) as (s' & E & Hi' & Hf);
    [simpl; lia|intros t x p _ _ _; apply Hok|].
  exists s'. split_and!; try done; try apply Hf. intros c p new. unfold margo_timer_create_with_pool.
  by rewrite (fi_destroy _ _ _ Hf).
Qed.

Lemma timer_list_free_correct_witness :
  exists s', __margo_timer_list_free ok1 d2 = Some s' /\
    (forall c p new, margo_timer_create_with_pool s' c p new = (-1, s')).
Proof.
  destruct d2_tinv as (q & Hi & Hl).
  destruct (timer_list_free_correct ok1 d2 q Hi) as (s' & E & _ & _ & _ & Hc).
  - change (tl_num_pending d2) with 0. lia.
  - exact ok1_true.
  - exists s'. split; [exact E|exact Hc].
Defined.

(** ** Destruction of a timer that was started again *)

(** a timer destroyed while it is queued and the ULT of an earlier start
    is still pending is freed by that ULT although it is at the head of the
    queue: the queue is left with a dangling head, and the next check of the
    timers reads freed memory. *)
Theorem destroy_restarted_dangles thread_create now s t q x :
  tinv s (t :: q) -> t ∈ running s -> timers s !! t = Some x ->
  num_pending x = 1 -> destroy_requested x = true ->
  exists s', timer_ult_finish s t = Some s' /\ queue_head s' = Some t /\ timers s' !! t = None /\
    __margo_check_timers thread_create now s' = None.
Proof.
  intros Hi Ht Hx Hn Hd.
  destruct (ult_finish_spec s (t :: q) t Hi Ht) as (y & s' & Hy & E & _ & _ & _ & _ & H).
  assert (y = x) as -> by congruence. rewrite Hn, Hd in H. simpl in H. destruct H as [Hts _].
  assert (Hq : queue_head s' = Some t).
  { destruct (ti_queue _ _ Hi) as (Hh & _). unfold timer_ult_finish, upd_timer in E. rewrite Hx in E.
    cbn [mbind option_bind] in E. simpl in E. rewrite lookup_insert_eq in E. simpl in E.
    destruct (_ && _); by simplify_eq/=. }
  assert (Hnone : timers s' !! t = None) by (rewrite Hts; apply lookup_delete_eq).
  exists s'. split_and!; try done. unfold __margo_check_timers.
  destruct (size (timers s')); simpl; by rewrite Hq, Hnone.
Qed.

(** The callback starts its timer again, then the client destroys it. *)
Definition r4 : state := get (timer_ult_run d3 1%positive).
Definition r5 : state := get' (margo_timer_start r4 2%Q 1000%Q 1%positive).
Definition r6 : state := get (margo_timer_destroy r5 1%positive).

Lemma destroy_restarted_dangles_witness :
  exists s', timer_ult_finish r6 1%positive = Some s' /\ __margo_check_timers ok1 9%Q s' = None.
Proof.
  assert (Hi : tinv r6 [1%positive]).
  { destruct (tsteps_wf ok1 ok1_true _ _ _ d_steps3 [] wf_create) as [q [Hi _]].
    assert (q = []) as ->.
    { destruct (ti_queue _ _ Hi) as (Hh & _). by destruct q. }
    destruct (ult_run_spec d3 [] 1%positive Hi) as (x & s4 & Hx & E4 & Hi4 & _); [vm_compute; repeat constructor|].
    assert (r4 = s4) as <- by (unfold r4; by rewrite E4).
    pose proof (start_first r4 2%Q 1000%Q 1%positive _ Hi4 eq_refl eq_refl eq_refl) as Hi5.
    change (default r4 _) with r5 in Hi5.
    destruct (destroy_spec r5 [1%positive] 1%positive _ Hi5 eq_refl) as (s6 & E6 & Hi6 & _).
    assert (r6 = s6) as <- by (unfold r6; by rewrite E6). exact Hi6. }
  destruct (destroy_restarted_dangles ok1 9%Q r6 1%positive []
              (default (Timer 0 None 0%Q 0 false false) (timers r6 !! 1%positive)) Hi) as (s' & E & _ & _ & Hc);
    [vm_compute; repeat constructor|vm_compute; reflexivity..|].
  exists s'. split; [exact E|exact Hc].
Defined.

(** a timer without a pool that is destroyed while it is queued is never
    freed: once it has fired it is allocated, out of the queue and without any
    pending ULT, and no later step of the list refers to it. *)
Theorem destroyed_inline_timer_leaks thread_create now s t q x :
  tinv s (t :: q) -> timers s !! t = Some x -> pool x = None -> destroy_requested x = true ->
  t ∉ submitted s -> t ∉ running s -> (expiration x < now)%Q ->
  (forall p, thread_create p = true) -> tl_num_pending s + Z.of_nat (S (length q)) < 2 ^ 64 ->
  exists q' s' x', __margo_check_timers thread_create now s = Some s' /\ tinv s' q' /\ t ∉ q' /\
    timers s' !! t = Some x' /\ destroy_requested x' = true /\ t ∉ submitted s' ⊎ running s'.
Proof.
  intros Hi Hx Hp Hd Hs Hr He Hok Hb.
  assert (Hlen : (length (t :: q) <= size (timers s))%nat)
    by (apply length_le_size; [by eapply tinv_nodup|intros; by eapply tinv_timer]).
  destruct (check_loop_spec thread_create now (size (timers s)) s (t :: q) Hi Hlen Hb)
    as (a & b & s' & Eq & E & Hi' & _ & Hb' & Hf); [intros ? ? ? _ _ _; apply Hok|].
  pose proof (fi_fixed _ _ _ Hf t) as Ex. rewrite Hx in Ex.
  destruct (timers s' !! t) as [x'|] eqn:Hx'; [|done]. unfold fixed in Ex. simpl in Ex.
  assert (Htb : t ∉ b).
  { intros Htb. rewrite Forall_forall in Hb'. specialize (Hb' t Htb). simpl in Hb'. unfold exp_of in Hb'.
    rewrite Hx in Hb'. simpl in Hb'. lra. }
  exists b, s', x'. split_and!; try done; [congruence|].
  rewrite (fi_submitted _ _ _ Hf), (fi_running _ _ _ Hf).
  rewrite !gmultiset_elem_of_disj_union, elem_of_list_to_set_disj. intros [[?|Hin]|?]; [done| |done].
  unfold pooled in Hin. apply list_elem_of_In, List.filter_In in Hin as [_ Hin].
  unfold has_pool in Hin. rewrite Hx in Hin. simpl in Hin. by rewrite Hp in Hin.
Qed.

Definition i1 : state := snd (margo_timer_create_with_pool __margo_timer_list_create 5 None 1%positive).
Definition i2 : state := get' (margo_timer_start i1 0%Q 1000%Q 1%positive).
Definition i3 : state := get (margo_timer_destroy i2 1%positive).

Lemma destroyed_inline_timer_leaks_witness :
  exists s' x', __margo_check_timers ok1 2%Q i3 = Some s' /\ timers s' !! 1%positive = Some x' /\
    destroy_requested x' = true.
Proof.
  assert (Hi : tinv i3 [1%positive]).
  { destruct (create_spec __margo_timer_list_create [] 5 None 1%positive) as (s1 & E1 & Hi1 & _);
      [apply wf_create|reflexivity|reflexivity|].
    assert (s1 = i1) as -> by (unfold i1; by rewrite E1).
    pose proof (start_first i1 0%Q 1000%Q 1%positive _ Hi1 eq_refl eq_refl eq_refl) as Hi'.
    change (default i1 _) with i2 in Hi'.
    destruct (destroy_spec i2 [1%positive] 1%positive _ Hi' eq_refl) as (s6 & E6 & Hi6 & _).
    assert (i3 = s6) as <- by (unfold i3; by rewrite E6). exact Hi6. }
  destruct (destroyed_inline_timer_leaks ok1 2%Q i3 1%positive [] _ Hi eq_refl eq_refl eq_refl)
    as (q' & s' & x' & E & _ & _ & Hx & Hd & _).
  - intros H. inversion H.
  - intros H. inversion H.
  - vm_compute. reflexivity.
  - exact ok1_true.
  - vm_compute. reflexivity.
  - exists s', x'. split; [exact E|]. split; [exact Hx|exact Hd].
Defined.
