(* ===== verification/Shutdown.v ===== *)
(** * Finalization (src/margo-core.c, src/margo-instance.h, include/margo.h)

    The life of a Margo instance from [margo_finalize] to [margo_cleanup].
    The first part is the handshake on [shutdown_state], one 32-bit word that
    packs the finalize-requested flag and the number of admitted operations:
    RPC handlers, finalizers and waiters interleave in a step relation, at the
    grain of single atomic instructions.  The second part is the sequential
    code around it: callbacks, reference counts, teardown and cleanup. *)

From S2P Require Import Prelude.

(** ** The shutdown word *)

Definition MARGO_FINALIZE_BIT : Z := 0x80000000.
Definition MARGO_PENDING_MASK : Z := 0x7FFFFFFF.

Definition __margo_internal_finalize_requested (w : Z) : bool :=
  negb (Z.land w MARGO_FINALIZE_BIT =? 0).

(** One turn of the loop of [__margo_internal_incr_pending]: [cur] is the value
    loaded before, [spurious] a failure the weak compare-and-exchange may
    report.  The result is the new word and either the returned value or the
    value of [cur] for the next turn. *)
Definition incr_pending_turn (w cur : Z) (spurious : bool) : Z * (Z + Z) :=
  if negb (Z.land cur MARGO_FINALIZE_BIT =? 0) then (w, inl 0)
  else if negb spurious && (w =? cur) then (u32 (cur + 1), inl 1)
  else (w, inr w).

(** The loop run to its end without interference: the first turn decides. *)
Definition __margo_internal_incr_pending (w : Z) : Z * Z :=
  match incr_pending_turn w w false with
  | (w', inl r) => (w', r)
  | (w', inr _) => (w', 0)
  end.

Definition __margo_internal_decr_pending (w : Z) : Z := u32 (w - 1).

(** [atomic_fetch_or(&mid->shutdown_state, MARGO_FINALIZE_BIT)] and the test of
    the pending count: the new word, and whether operations were pending. *)
Definition finalize_request (w : Z) : Z * bool :=
  (Z.lor w MARGO_FINALIZE_BIT, negb (Z.land w MARGO_PENDING_MASK =? 0)).

(** A word as its flag and its count. *)
Definition word (f : bool) (n : Z) : Z := (if f then 2 ^ 31 else 0) + n.

Lemma word_flag f n : 0 <= n < 2 ^ 31 -> Z.land (word f n) MARGO_FINALIZE_BIT = if f then 2 ^ 31 else 0.
Proof.
  intros Hn. unfold word, MARGO_FINALIZE_BIT. change 0x80000000 with (2 ^ 31).
  apply Z.bits_inj'. intros i Hi. rewrite Z.land_spec, Z.pow2_bits_eqb by lia.
  destruct (Z.eqb_spec 31 i) as [<-|Hne].
  - rewrite andb_true_r. destruct f.
    + replace (2 ^ 31 + n) with (1 * 2 ^ 31 + n) by lia. rewrite <- lor_shiftl_add by lia.
      rewrite Z.lor_spec, Z.shiftl_spec by lia. done.
    + rewrite Z.bits_0. apply (testbit_bounded n 31); lia.
  - rewrite andb_false_r. destruct f; [|by rewrite Z.bits_0].
    rewrite Z.pow2_bits_eqb by lia. symmetry. by apply Z.eqb_neq.
Qed.

Lemma word_count f n : 0 <= n < 2 ^ 31 -> Z.land (word f n) MARGO_PENDING_MASK = n.
Proof.
  intros Hn. unfold word, MARGO_PENDING_MASK. change 0x7FFFFFFF with (Z.ones 31).
  rewrite Z.land_ones by lia. destruct f; [|by apply Z.mod_small].
  rewrite Z.add_comm, <- (Z.mul_1_l (2 ^ 31)), Z.mod_add, Z.mod_small; lia.
Qed.

Lemma word_lor f n : 0 <= n < 2 ^ 31 -> Z.lor (word f n) MARGO_FINALIZE_BIT = word true n.
Proof.
  intros Hn. unfold word, MARGO_FINALIZE_BIT. change 0x80000000 with (1 * 2 ^ 31).
  destruct f.
  - replace (2 ^ 31 + n) with (1 * 2 ^ 31 + n) by lia. rewrite <- lor_shiftl_add by lia.
    change (1 * 2 ^ 31) with (Z.shiftl 1 31).
    by rewrite Z.lor_comm, Z.lor_assoc, Z.lor_diag.
  - rewrite Z.lor_comm, Z.add_0_l. rewrite lor_mul_add by lia. lia.
Qed.

Lemma requested_word f n : 0 <= n < 2 ^ 31 -> __margo_internal_finalize_requested (word f n) = f.
Proof. intros. unfold __margo_internal_finalize_requested. rewrite word_flag by done. by destruct f. Qed.

Lemma finalize_request_word f n :
  0 <= n < 2 ^ 31 -> finalize_request (word f n) = (word true n, negb (n =? 0)).
Proof. intros. unfold finalize_request. by rewrite word_lor, word_count. Qed.

Lemma decr_word f n : 1 <= n < 2 ^ 31 -> __margo_internal_decr_pending (word f n) = word f (n - 1).
Proof.
  intros. unfold __margo_internal_decr_pending, word.
  rewrite u32_id; [lia|]. unfold is_u32. destruct f; lia.
Qed.

Lemma incr_turn_fail w cur b w' r :
  incr_pending_turn w cur b = (w', r) -> r ≠ inl 1 -> w' = w.
Proof.
  unfold incr_pending_turn. intros H Hr. repeat case_match; by simplify_eq.
Qed.

Lemma incr_turn_admit f n cur b w' :
  0 <= n < 2 ^ 31 - 1 -> incr_pending_turn (word f n) cur b = (w', inl 1) ->
  f = false /\ w' = word false (n + 1).
Proof.
  unfold incr_pending_turn. intros Hn H.
  destruct (Z.eqb_spec (Z.land cur MARGO_FINALIZE_BIT) 0) as [Hc|]; simpl in H; [|done].
  destruct (negb b && (word f n =? cur)) eqn:E; [|done].
  apply andb_true_iff in E as [_ <-%Z.eqb_eq]. rewrite word_flag in Hc by lia.
  destruct f; [done|]. injection H as <-. unfold word. rewrite u32_id; [split; [done|lia]|unfold is_u32; lia].
Qed.

(** ** Threads *)

(** Where a thread is: in the loop of [__margo_internal_incr_pending] with the
    value it loaded, running an admitted operation, between
    [__margo_internal_decr_pending] and [__margo_internal_finalize_requested]
    in [__margo_internal_post_wrapper_hooks], before the [atomic_fetch_or] of
    [margo_finalize_and_wait], before the one of [margo_finalize], or past the
    test of [margo_finalize]. *)
Inductive pc := Incr (cur : Z) | Op | OpCheck | FinWait | Fin | Teardown.

#[global] Instance pc_eq_dec : EqDecision pc.
Proof. solve_decision. Defined.

(** [torn] counts how often the teardown of [margo_finalize] was entered. *)
Record config := Config { cword : Z; threads : list pc; torn : nat }.

Definition is_op (p : pc) : bool := match p with Op => true | _ => false end.
Definition ops (l : list pc) : Z := Z.of_nat (length (List.filter is_op l)).

(** One atomic instruction of one thread.  [fails] allows the path of the RPC
    handler where the ULT of an admitted operation cannot be created. *)
Inductive cstep (fails : bool) : config -> config -> Prop :=
| c_enter w l n : cstep fails (Config w l n) (Config w (Incr w :: l) n)
| c_retry w l1 cur l2 n b w' cur' :
    incr_pending_turn w cur b = (w', inr cur') ->
    cstep fails (Config w (l1 ++ Incr cur :: l2) n) (Config w' (l1 ++ Incr cur' :: l2) n)
| c_refused w l1 cur l2 n b w' :
    incr_pending_turn w cur b = (w', inl 0) ->
    cstep fails (Config w (l1 ++ Incr cur :: l2) n) (Config w' (l1 ++ l2) n)
| c_admitted w l1 cur l2 n b w' :
    incr_pending_turn w cur b = (w', inl 1) ->
    ops (l1 ++ l2) < 2 ^ 31 - 1 ->
    cstep fails (Config w (l1 ++ Incr cur :: l2) n) (Config w' (l1 ++ Op :: l2) n)
| c_decr w l1 l2 n :
    cstep fails (Config w (l1 ++ Op :: l2) n)
          (Config (__margo_internal_decr_pending w) (l1 ++ OpCheck :: l2) n)
| c_create_failed w l1 l2 n :
    fails = true ->
    cstep fails (Config w (l1 ++ Op :: l2) n)
          (Config (__margo_internal_decr_pending w) (l1 ++ l2) n)
| c_check w l1 l2 n :
    cstep fails (Config w (l1 ++ OpCheck :: l2) n)
          (Config w (l1 ++ (if __margo_internal_finalize_requested w then [Fin] else []) ++ l2) n)
| c_finalize w l n : cstep fails (Config w l n) (Config w (Fin :: l) n)
| c_finalize_and_wait w l n : cstep fails (Config w l n) (Config w (FinWait :: l) n)
| c_fin_wait w l1 l2 n :
    cstep fails (Config w (l1 ++ FinWait :: l2) n)
          (Config (finalize_request w).1 (l1 ++ Fin :: l2) n)
| c_fin_defer w l1 l2 n w' :
    finalize_request w = (w', true) ->
    cstep fails (Config w (l1 ++ Fin :: l2) n) (Config w' (l1 ++ l2) n)
| c_fin_teardown w l1 l2 n w' :
    finalize_request w = (w', false) ->
    cstep fails (Config w (l1 ++ Fin :: l2) n) (Config w' (l1 ++ Teardown :: l2) (S n)).

Definition init_config : config := Config 0 [] 0.

Definition reachable (fails : bool) (c : config) : Prop := rtc (cstep fails) init_config c.

(** ** The handshake *)

(** The count is the number of admitted operations; once a teardown was
    entered the flag is set and no operation is running; a thread that will
    look at the flag is left as long as finalization is requested and not
    done. *)
Definition handshake (fails : bool) (c : config) : Prop :=
  exists f, cword c = word f (ops (threads c)) /\ ops (threads c) < 2 ^ 31 /\
    (torn c ≠ 0%nat \/ Teardown ∈ threads c -> f = true /\ ops (threads c) = 0) /\
    (fails = false -> f = true -> torn c = 0%nat ->
       Op ∈ threads c \/ OpCheck ∈ threads c \/ Fin ∈ threads c).

Lemma ops_app l1 l2 : ops (l1 ++ l2) = ops l1 + ops l2.
Proof. unfold ops. rewrite List.filter_app, length_app. lia. Qed.
Lemma ops_cons p l : ops (p :: l) = (if is_op p then 1 else 0) + ops l.
Proof. unfold ops. simpl. destruct (is_op p); simpl length; lia. Qed.
Lemma ops_nonneg l : 0 <= ops l.
Proof. unfold ops. lia. Qed.
Lemma ops_in l : Op ∈ l -> 1 <= ops l.
Proof.
  intros (l1 & l2 & ->)%list_elem_of_split. rewrite ops_app, ops_cons. simpl.
  pose proof (ops_nonneg l1). pose proof (ops_nonneg l2). lia.
Qed.
Lemma ops_pos l : 1 <= ops l -> Op ∈ l.
Proof.
  induction l as [|p l IH]; [done|]. rewrite ops_cons. destruct p; simpl; intros ?;
    rewrite elem_of_cons; first [by left|right; apply IH; lia].
Qed.

Ltac ops_norm :=
  rewrite ?ops_app, ?ops_cons in *; cbn [is_op app] in *;
  repeat match goal with
  | l : list pc |- _ =>
      lazymatch goal with H : 0 <= ops l |- _ => fail | _ => pose proof (ops_nonneg l) end
  end.

Lemma handshake_step fails c c' : cstep fails c c' -> handshake fails c -> handshake fails c'.
Proof.
  intros Hs (f & Hw & Hlt & Htorn & Hlive).
  destruct Hs as [w l n|w l1 cur l2 n b w' cur' Ht|w l1 cur l2 n b w' Ht|w l1 cur l2 n b w' Ht Hb
    |w l1 l2 n|w l1 l2 n Hfl|w l1 l2 n|w l n|w l n|w l1 l2 n|w l1 l2 n w' Hr|w l1 l2 n w' Hr];
    unfold handshake in *; simpl in *; ops_norm.
  - exists f. split_and!; [done|lia|set_solver|set_solver].
  - apply incr_turn_fail in Ht as ->; [|done]. exists f. split_and!; [done|lia|set_solver|set_solver].
  - apply incr_turn_fail in Ht as ->; [|done]. exists f. split_and!; [done|lia|set_solver|set_solver].
  - rewrite Hw in Ht. apply incr_turn_admit in Ht as [-> ->]; [|lia].
    exists false. split_and!; [f_equal; lia|lia| |done]. intros HT. exfalso.
    destruct Htorn as [? _]; [set_solver|done].
  - rewrite Hw, decr_word by lia. exists f. split_and!; [f_equal; lia|lia| |set_solver].
    intros HT. destruct Htorn as [-> ?]; [set_solver|]. lia.
  - rewrite Hw, decr_word by lia. exists f. split_and!; [f_equal; lia|lia| |congruence].
    intros HT. destruct Htorn as [-> ?]; [set_solver|]. lia.
  - rewrite Hw, requested_word by lia. exists f.
    destruct f; ops_norm; split_and!; try done; try lia; try set_solver.
  - exists f. split_and!; [done|lia|set_solver|set_solver].
  - exists f. split_and!; [done|lia|set_solver|set_solver].
  - rewrite Hw, word_lor by lia. exists true. split_and!; [f_equal; lia|lia| |set_solver].
    intros HT. destruct Htorn as [-> ?]; [set_solver|]. split; [done|lia].
  - rewrite Hw, finalize_request_word in Hr by lia. injection Hr as <- Hz.
    apply negb_true_iff, Z.eqb_neq in Hz. exists true. split_and!; [f_equal; lia|lia| |].
    + intros HT. destruct Htorn as [-> ?]; [set_solver|]. split; [done|lia].
    + intros _ _ _. left. apply ops_pos. rewrite ops_app. lia.
  - rewrite Hw, finalize_request_word in Hr by lia. injection Hr as <- Hz.
    apply negb_false_iff, Z.eqb_eq in Hz. exists true. split_and!; [f_equal; lia|lia| |done].
    intros _. split; [done|lia].
Qed.

Lemma handshake_reachable fails c : reachable fails c -> handshake fails c.
Proof.
  intros Hr. unfold reachable in Hr.
  assert (Hi : handshake fails init_config).
  { exists false. unfold init_config. simpl. split_and!; [done|done|set_solver|done]. }
  induction Hr as [c|c c1 c2 Hs _ IH]; [done|]. eauto using handshake_step.
Qed.

Lemma handshake_later fails c c' : handshake fails c -> rtc (cstep fails) c c' -> handshake fails c'.
Proof. intros Hh Hr. revert Hh. induction Hr; eauto using handshake_step. Qed.

Lemma torn_mono fails c c' : rtc (cstep fails) c c' -> (torn c <= torn c')%nat.
Proof.
  induction 1 as [|c c1 c2 Hs _ IH]; [done|]. etrans; [|exact IH]. destruct Hs; simpl; lia.
Qed.

(** A thread in the teardown has been counted. *)
Lemma teardown_step fails c c' :
  cstep fails c c' -> (Teardown ∈ threads c -> torn c ≠ 0%nat) -> Teardown ∈ threads c' -> torn c' ≠ 0%nat.
Proof.
  intros Hs IH. destruct Hs; simpl in *; try destruct (__margo_internal_finalize_requested _); set_solver.
Qed.

Lemma teardown_torn fails c : reachable fails c -> Teardown ∈ threads c -> torn c ≠ 0%nat.
Proof.
  intros Hr. unfold reachable in Hr.
  assert (Hi : Teardown ∈ threads init_config -> torn init_config ≠ 0%nat) by set_solver.
  revert Hi. induction Hr as [c|c c1 c2 Hs _ IH]; [done|]. eauto using teardown_step.
Qed.

(** C1: the shutdown handshake.  In every interleaving of RPC handlers,
    finalizers and waiters, a thread that goes past the test of the pending
    count in [margo_finalize] finds no admitted operation running, and from
    then on no operation is admitted. *)
Theorem shutdown_handshake fails c c' :
  reachable fails c -> Teardown ∈ threads c -> rtc (cstep fails) c c' ->
  Op ∉ threads c /\ Op ∉ threads c' /\ __margo_internal_finalize_requested (cword c') = true.
Proof.
  intros Hr Ht Hc. pose proof (teardown_torn _ _ Hr Ht) as Hn. pose proof (torn_mono _ _ _ Hc).
  destruct (handshake_reachable _ _ Hr) as (f & _ & _ & H0 & _). destruct H0 as [_ Hz]; [by left|].
  destruct (handshake_later _ _ _ (handshake_reachable _ _ Hr) Hc) as (f' & Hw & Hlt & H1 & _).
  destruct H1 as [-> Hz']; [left; lia|].
  split; [intros ?%ops_in; lia|]. split; [intros ?%ops_in; lia|].
  rewrite Hw, Hz'. by apply requested_word.
Qed.

(** One operation is admitted and completes, then [margo_finalize] is called. *)
Definition c_done : config := Config (word true 0) [Teardown] 1.

Lemma c_done_reachable fails : reachable fails c_done.
Proof.
  unfold reachable, init_config.
  eapply rtc_l; [apply c_enter|]. eapply rtc_l; [apply (c_admitted _ _ [] 0 [] _ false 1); reflexivity|].
  eapply rtc_l; [apply (c_decr _ _ [] [])|]. eapply rtc_l; [apply (c_check _ _ [] [])|].
  eapply rtc_l; [apply c_finalize|]. eapply rtc_l; [apply (c_fin_teardown _ _ [] [] _ (word true 0)); reflexivity|].
  apply rtc_refl.
Qed.

Lemma shutdown_handshake_witness :
  Op ∉ threads c_done /\ __margo_internal_finalize_requested (cword c_done) = true.
Proof.
  destruct (shutdown_handshake false c_done c_done) as (H1 & _ & H2);
    [apply c_done_reachable|left|apply rtc_refl|].
  split; [exact H1|exact H2].
Defined.



(** when the ULT of an admitted operation cannot be created, the RPC
    handler counts the operation out without looking at the flag: a
    finalization requested in between is deferred and never done, although no
    operation is left. *)
Theorem finalize_lost_on_create_failure :
  exists c, reachable true c /\ __margo_internal_finalize_requested (cword c) = true /\
    threads c = [] /\ torn c = 0%nat.
Proof.
  exists (Config (word true 0) [] 0). split; [|done]. unfold reachable, init_config.
  eapply rtc_l; [apply c_enter|]. eapply rtc_l; [apply (c_admitted _ _ [] 0 [] _ false 1); reflexivity|].
  eapply rtc_l; [apply c_finalize|].
  eapply rtc_l; [apply (c_fin_defer _ _ [] [Op] _ (word true 1)); reflexivity|].
  eapply rtc_l; [by apply (c_create_failed _ _ [] [])|]. apply rtc_refl.
Qed.

(** the teardown can be entered twice.  [margo_finalize] is called between
    the decrement and the test of the flag in a completing handler: both the
    caller and the handler find no pending operation and run the teardown. *)
Theorem finalize_teardown_twice :
  exists c, reachable false c /\ torn c = 2%nat /\ threads c = [Teardown; Teardown].
Proof.
  exists (Config (word true 0) [Teardown; Teardown] 2). split; [|done]. unfold reachable, init_config.
  eapply rtc_l; [apply c_enter|]. eapply rtc_l; [apply (c_admitted _ _ [] 0 [] _ false 1); reflexivity|].
  eapply rtc_l; [apply (c_decr _ _ [] [])|]. eapply rtc_l; [apply c_finalize|].
  eapply rtc_l; [apply (c_fin_teardown _ _ [] [OpCheck] _ (word true 0)); reflexivity|].
  eapply rtc_l; [apply (c_check _ _ [Teardown] [])|].
  eapply rtc_l; [apply (c_fin_teardown _ _ [Teardown] [] _ (word true 0)); reflexivity|].
  apply rtc_refl.
Qed.

(** ** Instances *)

(** [margo_finalize_cb]; [None] is a NULL owner, [callback] 0 is NULL. *)
Record margo_finalize_cb := Fcb { owner : option Z; callback : Z; uargs : Z }.

(** What the teardown and the cleanup do, in order. *)
Inductive action :=
  | CallPrefinalize (c u : Z) | CallFinalize (c u : Z)
  | JoinProgress | FreeProgress
  | MonitorPrefinalize (start : bool) | MonitorFinalize (start : bool)
  | Deregister (id : Z) | HandleCacheDestroy | DumpProfile | MercuryDestroy
  | FreeRegisteredRpc (id : Z) | ArenaDestroy | TimerListFree | FreeSync
  | MonitorDestroy | FreePolicies | ArgobotsDestroy | ReleaseParent | FreeInstance.

Record instance := Instance {
  has_parent : bool;
  refcount : Z;
  shutdown_state : Z;
  finalize_flag : bool;
  finalize_refcount : Z;
  finalize_cb : list margo_finalize_cb;
  prefinalize_cb : list margo_finalize_cb;
  hg_progress_shutdown_flag : bool;
  pwn_flag : bool;
  pwn_pending : Z;
  registered_rpcs : list Z;
  shutdown_rpc_id : Z;
  identity_rpc_id : Z;
  abt_profiling_enabled : bool;
  monitor : bool;
  live : bool;
  log : list action
}.

Definition set_counts (i : instance) (w r fr : Z) (flag : bool) : instance :=
  Instance (has_parent i) r w flag fr (finalize_cb i) (prefinalize_cb i) (hg_progress_shutdown_flag i)
    (pwn_flag i) (pwn_pending i) (registered_rpcs i) (shutdown_rpc_id i) (identity_rpc_id i)
    (abt_profiling_enabled i) (monitor i) (live i) (log i).
Definition set_cbs (i : instance) (f p : list margo_finalize_cb) : instance :=
  Instance (has_parent i) (refcount i) (shutdown_state i) (finalize_flag i) (finalize_refcount i) f p
    (hg_progress_shutdown_flag i) (pwn_flag i) (pwn_pending i) (registered_rpcs i) (shutdown_rpc_id i)
    (identity_rpc_id i) (abt_profiling_enabled i) (monitor i) (live i) (log i).
Definition set_progress (i : instance) (fl : bool) (n : Z) : instance :=
  Instance (has_parent i) (refcount i) (shutdown_state i) (finalize_flag i) (finalize_refcount i)
    (finalize_cb i) (prefinalize_cb i) fl (pwn_flag i) n (registered_rpcs i) (shutdown_rpc_id i)
    (identity_rpc_id i) (abt_profiling_enabled i) (monitor i) (live i) (log i).
Definition set_end (i : instance) (rpcs : list Z) (lv : bool) (lg : list action) : instance :=
  Instance (has_parent i) (refcount i) (shutdown_state i) (finalize_flag i) (finalize_refcount i)
    (finalize_cb i) (prefinalize_cb i) (hg_progress_shutdown_flag i) (pwn_flag i) (pwn_pending i)
    rpcs (shutdown_rpc_id i) (identity_rpc_id i) (abt_profiling_enabled i) (monitor i) lv lg.
Definition act (i : instance) (a : list action) : instance :=
  set_end i (registered_rpcs i) (live i) (log i ++ a).

(** *** Callback stacks *)

Definition push_cb (l : list margo_finalize_cb) (ow : option Z) (cb u : Z) : list margo_finalize_cb :=
  if cb =? 0 then l else Fcb ow cb u :: l.

Fixpoint top_cb (l : list margo_finalize_cb) (ow : option Z) : option (Z * Z) :=
  match l with
  | [] => None
  | f :: l => if bool_decide (owner f = ow) then Some (callback f, uargs f) else top_cb l ow
  end.

(** The walk with [prev] and [fcb]: the first cell of [ow] is unlinked. *)
Fixpoint pop_cb (l : list margo_finalize_cb) (ow : option Z) : Z * list margo_finalize_cb :=
  match l with
  | [] => (0, [])
  | f :: l =>
      if bool_decide (owner f = ow) then (1, l)
      else let '(r, l') := pop_cb l ow in (r, f :: l')
  end.

Definition margo_provider_push_prefinalize_callback (i : instance) (ow : option Z) (cb u : Z) : instance :=
  set_cbs i (finalize_cb i) (push_cb (prefinalize_cb i) ow cb u).
Definition margo_provider_top_prefinalize_callback (i : instance) (ow : option Z) : option (Z * Z) :=
  top_cb (prefinalize_cb i) ow.
Definition margo_provider_pop_prefinalize_callback (i : instance) (ow : option Z) : Z * instance :=
  let '(r, l) := pop_cb (prefinalize_cb i) ow in (r, set_cbs i (finalize_cb i) l).
Definition margo_provider_push_finalize_callback (i : instance) (ow : option Z) (cb u : Z) : instance :=
  set_cbs i (push_cb (finalize_cb i) ow cb u) (prefinalize_cb i).
Definition margo_provider_top_finalize_callback (i : instance) (ow : option Z) : option (Z * Z) :=
  top_cb (finalize_cb i) ow.
Definition margo_provider_pop_finalize_callback (i : instance) (ow : option Z) : Z * instance :=
  let '(r, l) := pop_cb (finalize_cb i) ow in (r, set_cbs i l (prefinalize_cb i)).

Definition margo_push_prefinalize_callback i cb u := margo_provider_push_prefinalize_callback i None cb u.
Definition margo_top_prefinalize_callback i := margo_provider_top_prefinalize_callback i None.
Definition margo_pop_prefinalize_callback i := margo_provider_pop_prefinalize_callback i None.
Definition margo_push_finalize_callback i cb u := margo_provider_push_finalize_callback i None cb u.
Definition margo_top_finalize_callback i := margo_provider_top_finalize_callback i None.
Definition margo_pop_finalize_callback i := margo_provider_pop_finalize_callback i None.

(** *** Teardown *)

Definition PROGRESS_NEEDED_INCR (i : instance) : instance :=
  if pwn_flag i then set_progress i (hg_progress_shutdown_flag i) (u64 (pwn_pending i + 1)) else i.
Definition PROGRESS_NEEDED_DECR (i : instance) : instance :=
  if pwn_flag i then set_progress i (hg_progress_shutdown_flag i) (u64 (pwn_pending i - 1)) else i.

Section finalize.
(** What a callback does to the instance that calls it. *)
Context (call : Z -> Z -> instance -> instance).

(** The loop over the prefinalize callbacks; [fuel] bounds the callbacks
    called, including the ones that callbacks register. *)
Fixpoint call_prefinalize (fuel : nat) (i : instance) : option instance :=
  match prefinalize_cb i with
  | [] => Some i
  | f :: l =>
      match fuel with
      | O => None
      | S fuel =>
          let i := set_cbs i (finalize_cb i) l in
          let i := act i [CallPrefinalize (callback f) (uargs f)] in
          call_prefinalize fuel (call (callback f) (uargs f) i)
      end
  end.

Fixpoint margo_call_finalization_callbacks (fuel : nat) (i : instance) : option instance :=
  match finalize_cb i with
  | [] => Some i
  | f :: l =>
      match fuel with
      | O => None
      | S fuel =>
          let i := set_cbs i l (prefinalize_cb i) in
          let i := act i [CallFinalize (callback f) (uargs f)] in
          margo_call_finalization_callbacks fuel (call (callback f) (uargs f) i)
      end
  end.

Definition margo_cleanup (i : instance) : instance :=
  let i := act i [MonitorFinalize true; Deregister (shutdown_rpc_id i); Deregister (identity_rpc_id i);
                  HandleCacheDestroy] in
  let i := if abt_profiling_enabled i then act i [DumpProfile] else i in
  let i := act i [MercuryDestroy] in
  let i := set_end i [] (live i) (log i ++ map FreeRegisteredRpc (registered_rpcs i)) in
  let i := act i [ArenaDestroy; ArenaDestroy; TimerListFree; FreeSync; MonitorFinalize false] in
  let i := if monitor i then act i [MonitorDestroy] else i in
  let i := act i [FreePolicies] in
  let i := if has_parent i then act i [ReleaseParent] else act i [ArgobotsDestroy] in
  set_end i [] false (log i ++ [FreeInstance]).

Definition margo_finalize (fuel : nat) (i : instance) : option instance :=
  if negb (live i) then None
  else
    let '(w, pending) := finalize_request (shutdown_state i) in
    let i := set_counts i w (refcount i) (finalize_refcount i) (finalize_flag i) in
    if pending then Some i
    else
      let i := act i [MonitorPrefinalize true] in
      i ← call_prefinalize fuel i;
      let i := act i [MonitorPrefinalize false] in
      let i := set_progress i true (pwn_pending i) in
      let i := PROGRESS_NEEDED_INCR i in
      let i := act i [JoinProgress; FreeProgress] in
      let i := PROGRESS_NEEDED_DECR i in
      let i := set_counts i (shutdown_state i) (u32 (refcount i - 1)) (finalize_refcount i) (finalize_flag i) in
      let i := set_counts i (shutdown_state i) (refcount i) (finalize_refcount i) true in
      i ← margo_call_finalization_callbacks fuel i;
      let do_cleanup := (finalize_refcount i =? 0) && (refcount i =? 0) in
      Some (if do_cleanup then margo_cleanup i else i).

(** The end of the two waiting functions: [others] is what other threads do
    while the caller is blocked on [finalize_cond]. *)
Definition wait_finalized (others : instance -> instance) (i : instance) : option instance :=
  let i := if finalize_flag i then i else others i in
  if negb (live i) || negb (finalize_flag i) then None
  else
    let i := set_counts i (shutdown_state i) (refcount i) (finalize_refcount i - 1) true in
    let do_cleanup := (finalize_refcount i =? 0) && (refcount i =? 0) in
    Some (if do_cleanup then margo_cleanup i else i).

Definition margo_finalize_and_wait (fuel : nat) (others : instance -> instance) (i : instance)
    : option instance :=
  let i := set_counts i (finalize_request (shutdown_state i)).1 (refcount i) (finalize_refcount i + 1)
             (finalize_flag i) in
  i ← margo_finalize fuel i;
  wait_finalized others i.

Definition margo_wait_for_finalize (others : instance -> instance) (i : instance) : option instance :=
  let i := set_counts i (shutdown_state i) (refcount i) (finalize_refcount i + 1) (finalize_flag i) in
  wait_finalized others i.

(** [None] for the instance is MARGO_INSTANCE_NULL. *)
Definition margo_instance_ref_incr (mid : option instance) : hg_return_t * option instance :=
  match mid with
  | None => (HG_INVALID_ARG, None)
  | Some i => (HG_SUCCESS, Some (set_counts i (shutdown_state i) (u32 (refcount i + 1)) (finalize_refcount i) (finalize_flag i)))
  end.

Definition margo_instance_ref_count (mid : option instance) : hg_return_t * option Z :=
  match mid with None => (HG_INVALID_ARG, None) | Some i => (HG_SUCCESS, Some (refcount i)) end.

Definition margo_instance_is_finalized (mid : option instance) : hg_return_t * option bool :=
  match mid with None => (HG_INVALID_ARG, None) | Some i => (HG_SUCCESS, Some (finalize_flag i)) end.

Definition margo_instance_release (fuel : nat) (mid : option instance) : option (hg_return_t * option instance) :=
  match mid with
  | None => Some (HG_INVALID_ARG, None)
  | Some i =>
      if negb (live i) then None
      else if refcount i =? 0 then Some (HG_OTHER_ERROR, Some i)
      else
        let r := u32 (refcount i - 1) in
        let i := set_counts i (shutdown_state i) r (finalize_refcount i) (finalize_flag i) in
        if r =? 0 then
          if negb (finalize_flag i) then
            let i := set_counts i (shutdown_state i) (u32 (refcount i + 1)) (finalize_refcount i) (finalize_flag i) in
            i ← margo_finalize fuel i; Some (HG_SUCCESS, Some i)
          else Some (HG_SUCCESS, Some (margo_cleanup i))
        else Some (HG_SUCCESS, Some i)
  end.
End finalize.

(** ** Callback stacks *)

(** The callbacks of one owner, most recent first. *)
Definition of_owner (ow : option Z) (l : list margo_finalize_cb) : list margo_finalize_cb :=
  List.filter (fun f => bool_decide (owner f = ow)) l.

(** the callbacks of each owner form a stack inside the shared list: push
    puts a callback on top of the owner's stack (nothing for a NULL callback),
    top reads it, pop removes it and returns 1, or returns 0 when the owner has
    none; the callbacks of other owners, and their order, are not affected. *)
Theorem callback_stack_correct i ow cb u ow' :
  let l := finalize_cb i in
  of_owner ow (finalize_cb (margo_provider_push_finalize_callback i ow cb u)) =
    (if cb =? 0 then of_owner ow l else Fcb ow cb u :: of_owner ow l) /\
  margo_provider_top_finalize_callback i ow =
    (fun f => (callback f, uargs f)) <$> head (of_owner ow l) /\
  of_owner ow (finalize_cb (margo_provider_pop_finalize_callback i ow).2) = tail (of_owner ow l) /\
  (margo_provider_pop_finalize_callback i ow).1 = (if of_owner ow l then 0 else 1) /\
  (ow' ≠ ow ->
     of_owner ow' (finalize_cb (margo_provider_push_finalize_callback i ow cb u)) = of_owner ow' l /\
     of_owner ow' (finalize_cb (margo_provider_pop_finalize_callback i ow).2) = of_owner ow' l).
Proof.
  assert (Htop : forall l, top_cb l ow = (fun f => (callback f, uargs f)) <$> head (of_owner ow l)).
  { induction l as [|f l IH]; [done|]. simpl. by case_bool_decide. }
  assert (Hpop : forall l, of_owner ow (pop_cb l ow).2 = tail (of_owner ow l) /\
            (pop_cb l ow).1 = (if of_owner ow l then 0 else 1) /\
            (ow' ≠ ow -> of_owner ow' (pop_cb l ow).2 = of_owner ow' l)).
  { induction l as [|f l (IH1 & IH2 & IH3)]; [done|]. simpl. case_bool_decide as E.
    - simpl. split_and!; try done. intros Hne. rewrite bool_decide_eq_false_2 by congruence. done.
    - destruct (pop_cb l ow) as [r l']. simpl in *. rewrite bool_decide_eq_false_2 by done.
      split_and!; try done. intros Hne. by rewrite IH3. }
  unfold margo_provider_push_finalize_callback, margo_provider_pop_finalize_callback,
    margo_provider_top_finalize_callback, push_cb. destruct (Hpop (finalize_cb i)) as (H1 & H2 & H3).
  destruct (pop_cb (finalize_cb i) ow) as [r l']. simpl in *. split_and!; try done.
  - destruct (cb =? 0); [done|]. simpl. by rewrite bool_decide_eq_true_2.
  - intros Hne. split; [|auto]. destruct (cb =? 0); [done|]. simpl.
    by rewrite bool_decide_eq_false_2 by congruence.
Qed.

(** ** Teardown and cleanup *)

Definition inert (c u : Z) (i : instance) : instance := i.
Definition inert_all (i : instance) : instance := i.

Lemma call_prefinalize_inert fuel : forall i,
  (length (prefinalize_cb i) <= fuel)%nat ->
  call_prefinalize inert fuel i =
    Some (act (set_cbs i (finalize_cb i) [])
              (map (fun f => CallPrefinalize (callback f) (uargs f)) (prefinalize_cb i))).
Proof.
  induction fuel as [|fuel IH]; intros i Hl.
  all: destruct (prefinalize_cb i) as [|f l] eqn:E.
  1,3: simpl; rewrite E; unfold act, set_cbs, set_end; simpl; rewrite app_nil_r, <- E; by destruct i.
  - simpl in Hl. lia.
  - cbn [call_prefinalize]. rewrite E. rewrite IH by (simpl in *; lia).
    unfold act, set_cbs, set_end, inert. simpl. by rewrite <- app_assoc.
Qed.

Lemma call_finalize_inert fuel : forall i,
  (length (finalize_cb i) <= fuel)%nat ->
  margo_call_finalization_callbacks inert fuel i =
    Some (act (set_cbs i [] (prefinalize_cb i))
              (map (fun f => CallFinalize (callback f) (uargs f)) (finalize_cb i))).
Proof.
  induction fuel as [|fuel IH]; intros i Hl.
  all: destruct (finalize_cb i) as [|f l] eqn:E.
  1,3: simpl; rewrite E; unfold act, set_cbs, set_end; simpl; rewrite app_nil_r, <- E; by destruct i.
  - simpl in Hl. lia.
  - cbn [margo_call_finalization_callbacks]. rewrite E. rewrite IH by (simpl in *; lia).
    unfold act, set_cbs, set_end, inert. simpl. by rewrite <- app_assoc.
Qed.

(** Evaluates the updates of an instance whose fields are variables. *)
Ltac inst_run :=
  cbv beta iota zeta delta
    [set_counts set_cbs set_progress set_end act has_parent refcount shutdown_state finalize_flag
     finalize_refcount finalize_cb prefinalize_cb hg_progress_shutdown_flag pwn_flag pwn_pending
     registered_rpcs shutdown_rpc_id identity_rpc_id abt_profiling_enabled monitor live log
     PROGRESS_NEEDED_INCR PROGRESS_NEEDED_DECR].

(** What [margo_cleanup] does, in order. *)
Definition cleanup_actions (i : instance) : list action :=
  [MonitorFinalize true; Deregister (shutdown_rpc_id i); Deregister (identity_rpc_id i); HandleCacheDestroy] ++
  (if abt_profiling_enabled i then [DumpProfile] else []) ++ [MercuryDestroy] ++
  map FreeRegisteredRpc (registered_rpcs i) ++
  [ArenaDestroy; ArenaDestroy; TimerListFree; FreeSync; MonitorFinalize false] ++
  (if monitor i then [MonitorDestroy] else []) ++ [FreePolicies] ++
  [if has_parent i then ReleaseParent else ArgobotsDestroy; FreeInstance].

Lemma margo_cleanup_log i :
  log (margo_cleanup i) = log i ++ cleanup_actions i /\ live (margo_cleanup i) = false /\
  finalize_flag (margo_cleanup i) = finalize_flag i.
Proof.
  destruct i as [par ? ? ? ? ? ? ? ? ? rpcs ? ? prof mon ? lg]. destruct par, prof, mon;
    unfold margo_cleanup, cleanup_actions; inst_run; rewrite <- !app_assoc; done.
Qed.

Definition teardown_actions (i : instance) : list action :=
  [MonitorPrefinalize true] ++
  map (fun f => CallPrefinalize (callback f) (uargs f)) (prefinalize_cb i) ++
  [MonitorPrefinalize false; JoinProgress; FreeProgress] ++
  map (fun f => CallFinalize (callback f) (uargs f)) (finalize_cb i).

(** [margo_finalize] with no pending operation, on callbacks that leave the
    instance alone. *)
Lemma margo_finalize_inert fuel i f :
  live i = true -> shutdown_state i = word f 0 -> 1 <= refcount i < 2 ^ 32 ->
  (length (prefinalize_cb i) <= fuel)%nat -> (length (finalize_cb i) <= fuel)%nat ->
  exists i', margo_finalize inert fuel i =
      Some (if (finalize_refcount i =? 0) && (refcount i =? 1) then margo_cleanup i' else i') /\
    log i' = log i ++ teardown_actions i /\ live i' = true /\ finalize_flag i' = true /\
    refcount i' = refcount i - 1 /\ finalize_refcount i' = finalize_refcount i /\
    shutdown_state i' = word true 0 /\ prefinalize_cb i' = [] /\ finalize_cb i' = [] /\
    cleanup_actions i' = cleanup_actions i.
Proof.
  destruct i as [par rc w fl fr fcb pcb psf pf pp rpcs sid iid prof mon lv lg].
  intros Hl Hw Hr Hp Hf. cbn [live shutdown_state refcount finalize_refcount prefinalize_cb finalize_cb] in *.
  subst. unfold margo_finalize. cbn [live shutdown_state negb]. rewrite finalize_request_word by lia.
  cbn [Z.eqb negb]. inst_run. rewrite call_prefinalize_inert by exact Hp. inst_run. cbn [mbind option_bind].
  destruct pf; cbv beta iota; rewrite call_finalize_inert by exact Hf; inst_run; cbn [mbind option_bind].
  all: replace (u32 (rc - 1) =? 0) with (rc =? 1)
    by (rewrite u32_id by (unfold is_u32; lia); destruct (Z.eqb_spec rc 1), (Z.eqb_spec (rc - 1) 0); lia).
  all: eexists; split; [done|]; inst_run; rewrite u32_id by (unfold is_u32; lia);
    split_and!; try done; unfold teardown_actions; inst_run; by rewrite <- !app_assoc.
Qed.

(** [k] calls of [margo_instance_release]. *)
Fixpoint releases (fuel k : nat) (i : instance) : option instance :=
  match k with
  | O => Some i
  | S k =>
      '(_, m) ← margo_instance_release inert fuel (Some i);
      i ← m;
      releases fuel k i
  end.

Lemma release_finalized fuel i :
  live i = true -> finalize_flag i = true -> 1 <= refcount i < 2 ^ 32 ->
  let i' := set_counts i (shutdown_state i) (refcount i - 1) (finalize_refcount i) true in
  margo_instance_release inert fuel (Some i) =
    Some (HG_SUCCESS, Some (if refcount i =? 1 then margo_cleanup i' else i')).
Proof.
  intros Hl Hf Hr i'. unfold margo_instance_release. rewrite Hl. cbn [negb].
  destruct (Z.eqb_spec (refcount i) 0); [lia|]. rewrite u32_id by (unfold is_u32; lia).
  cbn [finalize_flag set_counts]. rewrite Hf.
  destruct (Z.eqb_spec (refcount i - 1) 0), (Z.eqb_spec (refcount i) 1); try lia; done.
Qed.

Lemma releases_finalized fuel k : forall i,
  live i = true -> finalize_flag i = true -> refcount i = Z.of_nat k -> refcount i < 2 ^ 32 ->
  (forall j, (j < k)%nat -> exists i', releases fuel j i = Some i' /\ live i' = true /\ log i' = log i) /\
  (k ≠ 0%nat -> exists i', releases fuel k i = Some i' /\ live i' = false /\ log i' = log i ++ cleanup_actions i).
Proof.
  induction k as [|k IH]; intros i Hl Hf Hr Hb; [split; [lia|done]|].
  pose proof (release_finalized fuel i Hl Hf ltac:(lia)) as Hrel. cbv zeta in Hrel.
  set (i1 := set_counts i (shutdown_state i) (refcount i - 1) (finalize_refcount i) true) in *.
  destruct (IH i1) as [IH1 IH2]; [done|done|simpl; lia|simpl; lia|]. split.
  - intros [|j] Hj; [exists i; done|]. cbn [releases]. rewrite Hrel. cbn [mbind option_bind].
    destruct (Z.eqb_spec (refcount i) 1); [lia|]. apply IH1. lia.
  - intros _. cbn [releases]. rewrite Hrel. cbn [mbind option_bind].
    destruct (Z.eqb_spec (refcount i) 1).
    + assert (k = 0%nat) as -> by lia. simpl. eexists. split; [done|].
      destruct (margo_cleanup_log i1) as (-> & -> & _). done.
    + apply IH2. lia.
Qed.

(** finalizing an instance that nobody waits for.  The prefinalize
    callbacks run first, the last registered one first, while the progress
    loop is still alive; then the progress loop is joined, then the finalize
    callbacks run, the last registered one first.  The instance is cleaned up
    exactly once, by the holder of the last reference: by [margo_finalize]
    itself when it holds the only one, by the last [margo_instance_release]
    otherwise, and it is live until then.  The cleanup destroys the handle
    cache before Mercury, Mercury before the arenas and the timers, and
    Argobots last, unless a parent instance owns it. *)
Theorem finalize_cleans_up_once fuel i f k :
  live i = true -> shutdown_state i = word f 0 -> refcount i = Z.of_nat (S k) -> refcount i < 2 ^ 32 ->
  finalize_refcount i = 0 ->
  (length (prefinalize_cb i) <= fuel)%nat -> (length (finalize_cb i) <= fuel)%nat ->
  exists i', margo_finalize inert fuel i = Some i' /\ finalize_flag i' = true /\
    (forall j, (j < k)%nat -> exists i'', releases fuel j i' = Some i'' /\ live i'' = true /\
       log i'' = log i ++ teardown_actions i) /\
    exists i'', releases fuel k i' = Some i'' /\ live i'' = false /\
      log i'' = log i ++ teardown_actions i ++ cleanup_actions i.
Proof.
  intros Hl Hw Hr Hb Hfr Hp Hf.
  destruct (margo_finalize_inert fuel i f Hl Hw ltac:(lia) Hp Hf)
    as (i' & Hm & Hlog & Hl' & Hff & Hrc & Hfr' & _ & _ & _ & Hca).
  rewrite Hm, Hfr. cbn [Z.eqb andb]. destruct (Z.eqb_spec (refcount i) 1) as [E|E].
  - assert (k = 0%nat) as -> by lia. eexists. split; [done|].
    destruct (margo_cleanup_log i') as (Hcl & Hcv & Hcf). split; [by rewrite Hcf|]. split; [lia|].
    eexists. split; [done|]. split; [done|]. by rewrite Hcl, Hlog, Hca, <- app_assoc.
  - exists i'. split; [done|]. split; [done|].
    destruct (releases_finalized fuel k i') as [H1 H2]; [done|done|lia|lia|]. split.
    + intros j Hj. destruct (H1 j Hj) as (i'' & ? & ? & Hlg). exists i''. by rewrite Hlg.
    + destruct H2 as (i'' & Hi & Hv & Hlg); [lia|]. exists i''. split; [done|]. split; [done|].
      by rewrite Hlg, Hlog, Hca, <- app_assoc.
Qed.

Definition demo_instance : instance :=
  Instance false 2 0 false 0 [Fcb None 11 1; Fcb (Some 3) 12 2] [Fcb None 21 3] false true 0
    [100; 101] 7 8 false true true [].

Lemma finalize_cleans_up_once_witness :
  exists i' i'', margo_finalize inert 5 demo_instance = Some i' /\ releases 5 1 i' = Some i'' /\
    live i'' = false /\ log i'' = teardown_actions demo_instance ++ cleanup_actions demo_instance.
Proof.
  destruct (finalize_cleans_up_once 5 demo_instance false 1) as (i' & Hm & _ & _ & i'' & Hr & Hv & Hl);
    [reflexivity|reflexivity|reflexivity|reflexivity|reflexivity|simpl; lia|simpl; lia|].
  exists i', i''. split; [exact Hm|]. split; [exact Hr|]. split; [exact Hv|exact Hl].
Defined.

(** [margo_instance_release] does not look at the threads waiting for
    finalization.  When the last reference of a finalized instance is released
    while a thread is still waking up in [margo_wait_for_finalize], the
    instance is cleaned up and freed, and the waiting thread goes on with
    freed memory. *)
Theorem release_ignores_waiters fuel i :
  live i = true -> finalize_flag i = true -> refcount i = 1 -> 1 <= finalize_refcount i ->
  exists i', margo_instance_release inert fuel (Some i) = Some (HG_SUCCESS, Some i') /\
    live i' = false /\ (forall others, wait_finalized others i' = None).
Proof.
  intros Hl Hf Hr Hw. rewrite release_finalized by (done || lia). rewrite Hr. cbn [Z.eqb Pos.eqb].
  eexists. split; [done|]. destruct (margo_cleanup_log (set_counts i (shutdown_state i) (1 - 1) (finalize_refcount i) true)) as (_ & Hv & Hcf).
  split; [done|]. intros others. unfold wait_finalized. rewrite Hcf. cbn [finalize_flag set_counts].
  by rewrite Hv.
Qed.

Definition demo_waiting : instance :=
  Instance false 1 (word true 0) true 1 [] [] true false 0 [] 7 8 false false true [].

Lemma release_ignores_waiters_witness :
  exists i', margo_instance_release inert 0 (Some demo_waiting) = Some (HG_SUCCESS, Some i') /\
    wait_finalized inert_all i' = None.
Proof.
  destruct (release_ignores_waiters 0 demo_waiting) as (i' & Hr & _ & Hw);
    [reflexivity|reflexivity|reflexivity|simpl; lia|].
  exists i'. split; [exact Hr|apply Hw].
Defined.

(** [margo_finalize_and_wait] called on an instance with one reference and
    no pending operation returns, leaves the cleanup of [margo_finalize] to
    itself and frees the instance exactly once, after the teardown. *)
Theorem finalize_and_wait_frees fuel others i f :
  live i = true -> shutdown_state i = word f 0 -> refcount i = 1 -> finalize_refcount i = 0 ->
  (length (prefinalize_cb i) <= fuel)%nat -> (length (finalize_cb i) <= fuel)%nat ->
  exists i', margo_finalize_and_wait inert fuel others i = Some i' /\ live i' = false /\
    log i' = log i ++ teardown_actions i ++ cleanup_actions i.
Proof.
  intros Hl Hw Hr Hfr Hp Hf. unfold margo_finalize_and_wait. rewrite Hw, finalize_request_word by lia.
  set (i1 := set_counts _ _ _ _ _).
  assert (finalize_refcount i1 = 1 /\ refcount i1 = 1) as [E1 E2] by (unfold i1; simpl; lia).
  destruct (margo_finalize_inert fuel i1 true) as (i2 & -> & Hlog & Hl' & Hff & Hrc & Hfr' & _ & _ & _ & Hca);
    [done|done|lia|done|done|].
  rewrite E1, E2 in *. change (1 - 1) with 0 in Hrc. cbn [Z.eqb andb mbind option_bind].
  unfold wait_finalized. rewrite Hff, Hl'. cbn [negb orb refcount finalize_refcount set_counts].
  rewrite Hfr', Hrc. change (1 - 1) with 0. cbn [Z.eqb andb]. rewrite Hff. cbn [negb]. eexists. split; [done|].
  destruct (margo_cleanup_log (set_counts i2 (shutdown_state i2) 0 0 true)) as (Hcl & Hcv & _).
  split; [exact Hcv|]. rewrite Hcl.
  change (log (set_counts i2 (shutdown_state i2) 0 0 true)) with (log i2).
  change (cleanup_actions (set_counts i2 (shutdown_state i2) 0 0 true)) with (cleanup_actions i2).
  by rewrite Hlog, Hca, <- app_assoc.
Qed.

Lemma finalize_and_wait_frees_witness :
  exists i', margo_finalize_and_wait inert 3 inert_all
      (set_counts demo_instance 0 1 0 false) = Some i' /\ live i' = false.
Proof.
  destruct (finalize_and_wait_frees 3 inert_all (set_counts demo_instance 0 1 0 false) false)
    as (i' & Hm & Hv & _); [reflexivity|reflexivity|reflexivity|reflexivity|simpl; lia|simpl; lia|].
  exists i'. split; [exact Hm|exact Hv].
Defined.
