(* ===== verification/Request.v ===== *)
(** * Asynchronous operations (src/margo-core.c)

    Forwarding an RPC, responding to one and transferring bulk data: each
    fills a request, submits an operation to Mercury with [margo_cb] as its
    completion callback, and lets a waiter or a user callback learn the result.
    Mercury, Argobots and the timers are behind an oracle of return codes; the
    functions record every call they make on resources, in order, and the
    theorems are about these records.  The last part is the life of a request
    object between the waiter and [margo_cb], as a step relation. *)

From Stdlib Require Import QArith.
From S2P Require Import Prelude Id.

#[local] Open Scope Z_scope.

(** ** Data *)

Inductive margo_request_kind := MARGO_REQ_EVENTUAL | MARGO_REQ_CALLBACK.
Inductive margo_request_type :=
  MARGO_FORWARD_REQUEST | MARGO_RESPONSE_REQUEST | MARGO_BULK_REQUEST | MARGO_INVALID_REQUEST.

#[export] Instance kind_eq_dec : EqDecision margo_request_kind.
Proof. solve_decision. Defined.
#[export] Instance type_eq_dec : EqDecision margo_request_type.
Proof. solve_decision. Defined.

(** [margo_request_struct]: [timer] is whether a timer is attached, [rq_handle]
    is NULL for bulk transfers, [rq_hret] is [eventual.hret], [rq_cb] and
    [rq_uargs] are the two fields of [callback] ([rq_cb] is [None] for NULL). *)
Record margo_request := Request {
  timer : bool;
  rq_handle : option Z;
  rq_type : margo_request_type;
  kind : margo_request_kind;
  rq_hret : hg_return_t;
  rq_cb : option Z;
  rq_uargs : Z
}.

(** A zeroed request. *)
Definition zero_request : margo_request :=
  Request false None MARGO_FORWARD_REQUEST MARGO_REQ_EVENTUAL HG_SUCCESS None 0.

(** [margo_handle_data] and the part of [hg_info] the functions use. *)
Record margo_handle_data := Handle_data {
  hd_mid : option Z;
  rpc_name : Z;
  in_proc_cb : Z;
  out_proc_cb : Z
}.

(** The calls on resources an operation makes. *)
Inductive call :=
  | EventualCreate | EventualFree | EventualSet | EventualWait
  | TimerCreate | TimerStart (ms : Q) | TimerCancel | TimerDestroy
  | HgRegister (id name inp outp : Z) | HgDisableResponse (id : Z) (b : bool) | HgReset (id : Z)
  | HgForward (parent in_cb : Z) | HgRespond (out_cb : Z) (ret : hg_return_t)
  | HgBulkTransfer (origin_offset local_offset size : Z)
  | ProgressIncr | ProgressDecr
  | HgCancel | HgBulkCancel
  | UserCallback (cb uargs : Z) (ret : hg_return_t)
  | ArenaGet | ArenaRelease | FreeRequests.

#[export] Instance Qeq_decision : EqDecision Q.
Proof. intros [n d] [n' d']. destruct (decide (n = n')), (decide (d = d')); [left; congruence|right; congruence..]. Defined.

#[export] Instance call_eq_dec : EqDecision call.
Proof. solve_decision. Defined.

(** What the libraries return. *)
Record oracle := Oracle {
  o_data : option margo_handle_data;
  o_client_id : Z;
  o_registered : hg_return_t * bool;
  o_disabled : hg_return_t * bool;
  o_register : Z;
  o_disable : hg_return_t;
  o_reset : hg_return_t;
  o_eventual : Z;
  o_timer_create : Z;
  o_timer_start : Z;
  o_parent : Z;
  o_submit : hg_return_t
}.

(** ** A state and error monad: the request and the record of calls *)

Record st := St { req : margo_request; calls : list call }.

Definition M (A : Type) : Type := st -> (hg_return_t + A) * st.

Definition ret {A} (a : A) : M A := fun s => (inr a, s).
Definition goto_finish {A} (h : hg_return_t) : M A := fun s => (inl h, s).
#[export] Instance M_bind : MBind M := fun A B (f : A -> M B) (m : M A) s =>
  match m s with (inl h, s') => (inl h, s') | (inr a, s') => f a s' end.
Definition emit (c : call) : M unit := fun s => (inr tt, St (req s) (calls s ++ [c])).
Definition upd_req (f : margo_request -> margo_request) : M unit := fun s => (inr tt, St (f (req s)) (calls s)).
Definition get_req : M margo_request := fun s => (inr (req s), s).
Definition whenM (b : bool) (m : M unit) : M unit := if b then m else ret tt.

Definition set_fields (t : margo_request_type) (h : option Z) (r : margo_request) : margo_request :=
  Request false h t (kind r) (rq_hret r) (rq_cb r) (rq_uargs r).
Definition set_timer (b : bool) (r : margo_request) : margo_request :=
  Request b (rq_handle r) (rq_type r) (kind r) (rq_hret r) (rq_cb r) (rq_uargs r).
Definition set_hret (h : hg_return_t) (r : margo_request) : margo_request :=
  Request (timer r) (rq_handle r) (rq_type r) (kind r) h (rq_cb r) (rq_uargs r).
Definition set_callback (cb : option Z) (u : Z) (r : margo_request) : margo_request :=
  Request (timer r) (rq_handle r) (rq_type r) MARGO_REQ_CALLBACK (rq_hret r) cb u.

Definition is_eventual (r : margo_request) : bool :=
  match kind r with MARGO_REQ_EVENTUAL => true | MARGO_REQ_CALLBACK => false end.

Definition Qpos (q : Q) : bool := negb (Qle_bool q 0).

(** ** Submitting an operation *)

(** [MARGO_EVENTUAL_CREATE] for requests with an eventual. *)
Definition create_eventual (o : oracle) : M unit :=
  r ← get_req;
  if is_eventual r then
    if o_eventual o =? 0 then emit EventualCreate else goto_finish HG_NOMEM_ERROR
  else ret tt.

(** The timer that cancels the operation. *)
Definition arm_timer (o : oracle) (timeout_ms : Q) : M unit :=
  if Qpos timeout_ms then
    if negb (o_timer_create o =? 0) then goto_finish (code_of_int (o_timer_create o))
    else
      emit TimerCreate;; upd_req (set_timer true);;
      emit (TimerStart timeout_ms);;
      if negb (o_timer_start o =? 0) then emit TimerDestroy;; goto_finish (code_of_int (o_timer_start o))
      else ret tt
  else ret tt.

(** Removing the timer after a failed submission. *)
Definition disarm_timer : M unit :=
  r ← get_req;
  if timer r then emit TimerCancel;; emit TimerDestroy;; upd_req (set_timer false) else ret tt.

(** [finish:] of the forward and respond functions. *)
Definition finish_free_eventual (m : M hg_return_t) (s : st) : hg_return_t * st :=
  let '(r, s) := m s in
  let hret := match r with inl h => h | inr h => h end in
  if negb (is_success hret) && is_eventual (req s)
  then (hret, St (req s) (calls s ++ [EventualFree])) else (hret, s).

(** The registration of the id with the provider in
    [margo_provider_iforward_internal]. *)
Definition register_server_id (o : oracle) (d : margo_handle_data) (server_id : Z) : M unit :=
  let '(hret, is_registered) := o_registered o in
  if negb (is_success hret) then goto_finish hret
  else if is_registered then ret tt
  else
    let '(hret, response_disabled) := o_disabled o in
    if negb (is_success hret) then goto_finish hret
    else
      emit (HgRegister server_id (rpc_name d) (in_proc_cb d) (out_proc_cb d));;
      if o_register o =? 0 then goto_finish HG_OTHER_ERROR
      else
        emit (HgDisableResponse server_id response_disabled);;
        if negb (is_success (o_disable o)) then goto_finish (o_disable o) else ret tt.

Definition margo_provider_iforward_internal (o : oracle) (provider_id handle : Z) (timeout_ms : Q) (s : st)
    : hg_return_t * st :=
  match o_data o with
  | None => (HG_NO_MATCH, s)
  | Some d =>
      match hd_mid d with
      | None => (HG_OTHER_ERROR, s)
      | Some _ =>
          let server_id := mux_id (o_client_id o) provider_id in
          finish_free_eventual
            (register_server_id o d server_id;;
             emit (HgReset server_id);;
             (if negb (is_success (o_reset o)) then goto_finish (o_reset o) else ret tt);;
             create_eventual o;;
             upd_req (set_fields MARGO_FORWARD_REQUEST (Some handle));;
             arm_timer o timeout_ms;;
             emit (HgForward (o_parent o) (in_proc_cb d));;
             whenM (negb (is_success (o_submit o))) disarm_timer;;
             emit ProgressIncr;;
             ret (o_submit o)) s
      end
  end.

Definition margo_irespond_internal (o : oracle) (handle : Z) (timeout_ms : Q) (s : st)
    : hg_return_t * st :=
  match o_data o with
  | None => (HG_NO_MATCH, s)
  | Some d =>
      finish_free_eventual
        (upd_req (set_fields MARGO_RESPONSE_REQUEST (Some handle));;
         create_eventual o;;
         arm_timer o timeout_ms;;
         emit (HgRespond (out_proc_cb d) HG_SUCCESS);;
         whenM (negb (is_success (o_submit o))) disarm_timer;;
         whenM (is_success (o_submit o)) (emit ProgressIncr);;
         ret (o_submit o)) s
  end.

Definition margo_bulk_itransfer_internal (o : oracle) (origin_offset local_offset size : Z) (timeout_ms : Q)
    (s : st) : hg_return_t * st :=
  let '(r, s) :=
    (upd_req (set_fields MARGO_BULK_REQUEST None);;
     create_eventual o;;
     arm_timer o timeout_ms;;
     emit (HgBulkTransfer origin_offset local_offset size);;
     whenM (is_success (o_submit o)) (emit ProgressIncr);;
     whenM (negb (is_success (o_submit o))) disarm_timer;;
     ret (o_submit o)) s in
  (match r with inl h => h | inr h => h end, s).

(** ** Completion *)

Definition margo_cb (info_ret : hg_return_t) (s : st) : hg_return_t * st :=
  let r := req s in
  let hret := if bool_decide (info_ret = HG_CANCELED) && timer r then HG_TIMEOUT else info_ret in
  let s := if timer r then St r (calls s ++ [TimerCancel; TimerDestroy]) else s in
  let s :=
    match kind r with
    | MARGO_REQ_CALLBACK =>
        match rq_cb r with
        | Some cb => St r (calls s ++ [UserCallback cb (rq_uargs r) hret])
        | None => s
        end
    | MARGO_REQ_EVENTUAL => St (set_hret hret r) (calls s ++ [EventualSet])
    end in
  let s := if is_eventual r then s else St (req s) (calls s ++ [ArenaRelease]) in
  (HG_SUCCESS, St (req s) (calls s ++ [ProgressDecr])).

Definition margo_timeout_cb (r : margo_request) : list call :=
  (if bool_decide (rq_type r = MARGO_FORWARD_REQUEST) then [HgCancel] else []) ++
  (if bool_decide (rq_type r = MARGO_RESPONSE_REQUEST) then [HgCancel] else []) ++
  (if bool_decide (rq_type r = MARGO_BULK_REQUEST) then [HgBulkCancel] else []).

(** [output] is what [check_error_in_output] returns.  The eventual is set by
    the time the wait returns. *)
Definition margo_wait_internal (output : hg_return_t) (s : st) : hg_return_t * st :=
  let r := req s in
  if negb (is_eventual r) then (HG_INVALID_ARG, s)
  else
    let s := St r (calls s ++ [EventualWait; EventualFree]) in
    if negb (is_success (rq_hret r)) then (rq_hret r, s)
    else if bool_decide (rq_type r = MARGO_FORWARD_REQUEST) then (output, s)
    else (HG_SUCCESS, s).

Definition margo_wait (output : hg_return_t) (s : st) : hg_return_t * st :=
  let '(hret, s) := margo_wait_internal output s in
  (hret, St (req s) (calls s ++ [ArenaRelease])).

(** ** The functions of the interface *)

(** A blocking call with a request on the stack: submit, then wait.
    [completion] is the code Mercury gives to [margo_cb], which runs before
    the wait returns; [output] is the code found in the response. *)
Definition submit_and_wait (submit : st -> hg_return_t * st) (completion output : hg_return_t)
    : hg_return_t * list call :=
  let '(hret, s) := submit (St zero_request []) in
  if negb (is_success hret) then (hret, calls s)
  else
    let '(_, s) := margo_cb completion s in
    let '(hret, s) := margo_wait_internal output s in (hret, calls s).

(** A non-blocking call with a request from the arena; [arena] is whether
    [mochi_arena_get] returns an object and [setup] the fields set before. *)
Definition submit_from_arena (arena : bool) (setup : margo_request -> margo_request)
    (submit : st -> hg_return_t * st) : hg_return_t * option margo_request * list call :=
  if negb arena then (HG_NOMEM_ERROR, None, [])
  else
    let '(hret, s) := submit (St (setup zero_request) [ArenaGet]) in
    if negb (is_success hret) then (hret, None, calls s ++ [ArenaRelease])
    else (HG_SUCCESS, Some (req s), calls s).

Definition margo_provider_forward_timed (o : oracle) (provider_id handle : Z) (timeout_ms : Q)
    (completion output : hg_return_t) : hg_return_t * list call :=
  submit_and_wait (margo_provider_iforward_internal o provider_id handle timeout_ms) completion output.

Definition margo_provider_iforward_timed (o : oracle) (arena : bool) (provider_id handle : Z) (timeout_ms : Q)
    : hg_return_t * option margo_request * list call :=
  submit_from_arena arena id (margo_provider_iforward_internal o provider_id handle timeout_ms).

Definition margo_provider_cforward_timed (o : oracle) (arena : bool) (provider_id handle : Z) (timeout_ms : Q)
    (on_complete : option Z) (uargs : Z) : hg_return_t * option margo_request * list call :=
  submit_from_arena arena (set_callback on_complete uargs)
    (margo_provider_iforward_internal o provider_id handle timeout_ms).

(** [mid] is what [margo_hg_handle_get_instance] returns. *)
Definition margo_respond_timed (o : oracle) (mid : option Z) (handle : Z) (timeout_ms : Q)
    (completion : hg_return_t) : hg_return_t * list call :=
  match mid with
  | None => (HG_OTHER_ERROR, [])
  | Some _ => submit_and_wait (margo_irespond_internal o handle timeout_ms) completion HG_SUCCESS
  end.

Definition margo_respond (o : oracle) (mid : option Z) (handle : Z) (completion : hg_return_t)
    : hg_return_t * list call :=
  match mid with
  | None => (HG_OTHER_ERROR, [])
  | Some _ => submit_and_wait (margo_irespond_internal o handle 0%Q) completion HG_SUCCESS
  end.

Definition margo_irespond_timed (o : oracle) (arena : bool) (handle : Z) (timeout_ms : Q)
    : hg_return_t * option margo_request * list call :=
  submit_from_arena arena id (margo_irespond_internal o handle timeout_ms).

Definition margo_irespond (o : oracle) (arena : bool) (handle : Z)
    : hg_return_t * option margo_request * list call :=
  submit_from_arena arena id (margo_irespond_internal o handle 0%Q).

Definition margo_crespond_timed (o : oracle) (arena : bool) (handle : Z) (timeout_ms : Q)
    (on_complete : option Z) (uargs : Z) : hg_return_t * option margo_request * list call :=
  submit_from_arena arena (set_callback on_complete uargs) (margo_irespond_internal o handle timeout_ms).

Definition margo_crespond (o : oracle) (arena : bool) (handle : Z) (on_complete : option Z) (uargs : Z)
    : hg_return_t * option margo_request * list call :=
  submit_from_arena arena (set_callback on_complete uargs) (margo_irespond_internal o handle 0%Q).

Definition margo_bulk_transfer_timed (o : oracle) (origin_offset local_offset size : Z) (timeout_ms : Q)
    (completion : hg_return_t) : hg_return_t * list call :=
  submit_and_wait (margo_bulk_itransfer_internal o origin_offset local_offset size timeout_ms)
    completion HG_SUCCESS.

Definition margo_bulk_itransfer_timed (o : oracle) (arena : bool) (origin_offset local_offset size : Z)
    (timeout_ms : Q) : hg_return_t * option margo_request * list call :=
  submit_from_arena arena id (margo_bulk_itransfer_internal o origin_offset local_offset size timeout_ms).

Definition margo_bulk_ctransfer_timed (o : oracle) (arena : bool) (origin_offset local_offset size : Z)
    (timeout_ms : Q) (on_complete : option Z) (uargs : Z) : hg_return_t * option margo_request * list call :=
  submit_from_arena arena (set_callback on_complete uargs)
    (margo_bulk_itransfer_internal o origin_offset local_offset size timeout_ms).

(** [test] is what [ABT_eventual_test] returns. *)
Definition margo_test (r : margo_request) (test : Z * bool) : Z * option bool :=
  if negb (is_eventual r) then (-1, None) else (test.1, Some test.2).

(** One pass of the loop of [margo_wait_any] over [reqs] ([None] is
    MARGO_REQUEST_NULL), each with what testing it returns; [flag] keeps its
    value from one request to the next.  The result is the index to return and
    whether it is an error, or whether a request is pending. *)
Fixpoint wait_any_pass (i : Z) (reqs : list (option (margo_request * (Z * bool)))) (flag pending : bool)
    : (Z * bool) + bool :=
  match reqs with
  | [] => inr pending
  | None :: reqs => wait_any_pass (i + 1) reqs flag pending
  | Some (r, t) :: reqs =>
      let '(ret, fl) := margo_test r t in
      let flag := default flag fl in
      if negb (ret =? 0) then inl (i, true)
      else if flag then inl (i, false)
      else wait_any_pass (i + 1) reqs flag true
  end.

Definition margo_request_get_handle (r : option margo_request) : option Z := r ≫= rq_handle.
Definition margo_request_get_type (r : option margo_request) : margo_request_type :=
  match r with None => MARGO_INVALID_REQUEST | Some r => rq_type r end.

(** ** Errors in responses *)

(** [get] is what [HG_Get_output] returns with the header it decodes. *)
Definition check_error_in_output (disabled : hg_return_t * bool) (get : hg_return_t * hg_return_t) : hg_return_t :=
  if negb (is_success disabled.1) then disabled.1
  else if disabled.2 then HG_SUCCESS
  else if negb (is_success get.1) && negb (bool_decide (get.1 = HG_CHECKSUM_ERROR)) then get.1
  else get.2.

Definition check_parent_id_in_input (get : hg_return_t * Z) (parent_id : Z) : hg_return_t * Z :=
  if negb (is_success get.1) && negb (bool_decide (get.1 = HG_CHECKSUM_ERROR)) then (get.1, parent_id)
  else (HG_SUCCESS, get.2).

Definition __margo_respond_with_error (disabled : hg_return_t * bool) (hg_ret : hg_return_t) : list call :=
  if negb (is_success disabled.1) then []
  else if disabled.2 then [] else [HgRespond 0 hg_ret].

(** ** Properties of a submission *)

Definition count (c : call) (l : list call) : Z := Z.of_nat (length (List.filter (fun d => bool_decide (d = c)) l)).

(** What is submitted to Mercury. *)
Definition submits (c : call) : bool :=
  match c with HgForward _ _ | HgRespond _ _ | HgBulkTransfer _ _ _ => true | _ => false end.

Lemma Qpos_spec q : Qpos q = true <-> ~ (q <= 0)%Q.
Proof. unfold Qpos. by rewrite negb_true_iff, <- not_true_iff_false, Qle_bool_iff. Qed.

Definition submissions (l : list call) : Z := Z.of_nat (length (List.filter submits l)).

(** A submission leaves nothing behind when it fails, and exactly an operation
    in flight, its eventual and its timer when it succeeds. *)
Definition balanced (r : margo_request) (timeout_ms : Q) (res : hg_return_t * st) : Prop :=
  let '(hret, s) := res in
  kind (req s) = kind r /\
  count TimerCreate (calls s) - count TimerDestroy (calls s) =
    (if is_success hret && Qpos timeout_ms then 1 else 0) /\
  (hret = HG_SUCCESS ->
     submissions (calls s) = 1 /\ timer (req s) = Qpos timeout_ms /\
     count EventualCreate (calls s) = (if is_eventual r then 1 else 0) /\
     count EventualFree (calls s) = 0 /\ count ProgressIncr (calls s) = 1).

Lemma count_app c l k : count c (l ++ k) = count c l + count c k.
Proof. unfold count. rewrite List.filter_app, length_app. lia. Qed.
Lemma submissions_app l k : submissions (l ++ k) = submissions l + submissions k.
Proof. unfold submissions. rewrite List.filter_app, length_app. lia. Qed.

(** Evaluates the counts of explicit lists. *)
Ltac count_eval :=
  repeat match goal with
  | |- context [count ?c (?d :: ?l)] => let v := eval vm_compute in (count c (d :: l)) in change (count c (d :: l)) with v
  | |- context [count ?c []] => change (count c []) with 0
  | |- context [submissions (?d :: ?l)] => let v := eval vm_compute in (submissions (d :: l)) in change (submissions (d :: l)) with v
  | |- context [submissions []] => change (submissions []) with 0
  end.

Lemma code_of_int_error n : n ≠ 0 -> code_of_int n ≠ HG_SUCCESS.
Proof. intros. unfold code_of_int. by destruct (Z.eqb_spec n 0). Qed.

(** Calls that concern neither the eventual, the timer nor the operation. *)
Definition admin (c : call) : Prop :=
  match c with HgRegister _ _ _ _ | HgDisableResponse _ _ | HgReset _ => True | _ => False end.

Lemma admin_counts l :
  Forall admin l ->
  count TimerCreate l = 0 /\ count TimerDestroy l = 0 /\ count EventualCreate l = 0 /\
  count EventualFree l = 0 /\ count ProgressIncr l = 0 /\ submissions l = 0.
Proof.
  unfold count, submissions. induction 1 as [|c l Hc Hl IH]; [done|].
  destruct c; try done; simpl; repeat (rewrite bool_decide_eq_false_2 by done); exact IH.
Qed.

(** What the pieces of a submission add to the record. *)
Lemma register_server_id_spec o d id s :
  exists l r, register_server_id o d id s = (r, St (req s) (calls s ++ l)) /\ Forall admin l /\
    (forall h, r = inl h -> h ≠ HG_SUCCESS).
Proof.
  unfold register_server_id, goto_finish, ret, emit, mbind, M_bind, is_success.
  destruct (o_registered o) as [rh rb], (o_disabled o) as [dh db].
  repeat (case_bool_decide || case_match); simplify_eq/=; rewrite <- ?app_assoc; simpl.
  all: first [exists []; eexists; split; [destruct s; simpl; rewrite app_nil_r; reflexivity|]
             |eexists _, _; split; [reflexivity|]].
  all: split; [repeat constructor|intros; by simplify_eq].
Qed.

Lemma create_eventual_spec o s :
  create_eventual o s =
    if is_eventual (req s)
    then if o_eventual o =? 0 then (inr tt, St (req s) (calls s ++ [EventualCreate])) else (inl HG_NOMEM_ERROR, s)
    else (inr tt, s).
Proof.
  unfold create_eventual, mbind, M_bind, get_req, emit, goto_finish, ret. simpl.
  destruct (is_eventual (req s)); [|done]. by destruct (o_eventual o =? 0).
Qed.

Lemma arm_timer_spec o t s :
  (Qpos t = false /\ arm_timer o t s = (inr tt, s)) \/
  (Qpos t = true /\ exists h, h ≠ HG_SUCCESS /\
     (arm_timer o t s = (inl h, s) \/
      arm_timer o t s = (inl h, St (set_timer true (req s)) (calls s ++ [TimerCreate; TimerStart t; TimerDestroy])))) \/
  (Qpos t = true /\
     arm_timer o t s = (inr tt, St (set_timer true (req s)) (calls s ++ [TimerCreate; TimerStart t]))).
Proof.
  unfold arm_timer, emit, upd_req, goto_finish, ret, mbind, M_bind.
  destruct (Qpos t); [|by left]. right.
  destruct (Z.eqb_spec (o_timer_create o) 0) as [|Hc]; simpl.
  - destruct (Z.eqb_spec (o_timer_start o) 0) as [|Hs]; simpl; rewrite <- !app_assoc; simpl; [by right|].
    left. split; [done|]. exists (code_of_int (o_timer_start o)). split; [by apply code_of_int_error|by right].
  - left. split; [done|]. exists (code_of_int (o_timer_create o)). split; [by apply code_of_int_error|by left].
Qed.

Lemma disarm_timer_spec s :
  disarm_timer s =
    if timer (req s) then (inr tt, St (set_timer false (req s)) (calls s ++ [TimerCancel; TimerDestroy]))
    else (inr tt, s).
Proof.
  unfold disarm_timer, emit, upd_req, get_req, ret, mbind, M_bind. simpl.
  destruct (timer (req s)); [|done]. simpl. by rewrite <- app_assoc.
Qed.

(** The record so far concerns neither eventual, timer nor operation. *)
Definition quiet (l : list call) : Prop :=
  count TimerCreate l = 0 /\ count TimerDestroy l = 0 /\ count EventualCreate l = 0 /\
  count EventualFree l = 0 /\ count ProgressIncr l = 0 /\ submissions l = 0.

(** What a submission has done when it reaches [finish:]. *)
Definition finished (r : margo_request) (timeout_ms : Q) (res : (hg_return_t + hg_return_t) * st) : Prop :=
  let '(q, s) := res in
  let hret := match q with inl h => h | inr h => h end in balanced r timeout_ms (hret, s).

Lemma finished_fail r t h s l l' :
  h ≠ HG_SUCCESS -> kind (req s) = kind r -> calls s = l ++ l' -> quiet l ->
  count TimerCreate l' = count TimerDestroy l' -> balanced r t (h, s).
Proof.
  intros Hh Hk Hc (H1 & H2 & _) Ht. unfold balanced. rewrite (proj2 (is_success_false h) Hh), Hc, !count_app.
  split_and!; [done|simpl; lia|done].
Qed.

Lemma balanced_finish r t m s :
  finished r t (m s) -> balanced r t (finish_free_eventual m s).
Proof.
  unfold finish_free_eventual, finished. destruct (m s) as [q s'].
  set (hret := match q with inl h => h | inr h => h end). intros (Hk & Ht & Hs).
  destruct (negb (is_success hret) && is_eventual (req s')) eqn:E; [|done].
  apply andb_true_iff in E as [Hh%negb_true_iff _]. unfold balanced. cbn [req calls]. rewrite !count_app.
  rewrite Hh in *. count_eval. split_and!; [done|simpl in *; lia|]. apply is_success_false in Hh. done.
Qed.

(** The part from the timer on, from a state whose eventual is dealt with. *)
Definition submit_op (o : oracle) (timeout_ms : Q) (op : call) (settle : M unit) : M hg_return_t :=
  arm_timer o timeout_ms;; emit op;; settle;; ret (o_submit o).

(** [settle] cleans up a failed operation and counts a successful one. *)
Definition settles (o : oracle) (settle : M unit) : Prop :=
  forall s, exists l, settle s = (inr tt, St (if is_success (o_submit o) then req s else set_timer false (req s)) (calls s ++ l)) /\
    if is_success (o_submit o) then l = [ProgressIncr]
    else count TimerCreate l = 0 /\ count TimerDestroy l = (if timer (req s) then 1 else 0).

Lemma submit_op_finished o t op settle r s l ev :
  settles o settle -> submits op = true -> (forall c, submits c = false -> c ≠ op) ->
  kind (req s) = kind r -> timer (req s) = false -> calls s = l ++ ev -> quiet l ->
  ev = (if is_eventual r then [EventualCreate] else []) ->
  finished r t (submit_op o t op settle s).
Proof.
  intros Hafter Hop Hne Hk Htm Hc Hl Hev.
  assert (Hcop : forall c, submits c = false -> count c [op] = 0).
  { intros c Hc'. unfold count. simpl. rewrite bool_decide_eq_false_2; [done|]. intros ->. congruence. }
  assert (Hsop : submissions [op] = 1) by (unfold submissions; simpl; by rewrite Hop).
  assert (Hev' : forall c, c ≠ EventualCreate -> count c ev = 0).
  { intros c Hce. subst ev. unfold count. destruct (is_eventual r); simpl; [|done]. by rewrite bool_decide_eq_false_2. }
  assert (Hev1 : count EventualCreate ev = if is_eventual r then 1 else 0) by (subst ev; by destruct (is_eventual r)).
  assert (Hev2 : submissions ev = 0) by (subst ev; by destruct (is_eventual r)).
  destruct Hl as (H1 & H2 & H3 & H4 & H5 & H6).
  unfold submit_op, mbind, M_bind. destruct (arm_timer_spec o t s) as [[Hq ->]|[(Hq & h & Hh & [->| ->])|[Hq ->]]].
  2,3: unfold finished; eapply (finished_fail _ _ _ _ l); [done|done|simpl; by rewrite Hc, <- ?app_assoc|by repeat split|].
  2,3: rewrite ?count_app, ?Hev' by done; count_eval; done.
  all: unfold emit; simpl; edestruct Hafter as (k & -> & Hk'); simpl in *;
    unfold balanced; destruct (is_success (o_submit o)) eqn:Es; simpl in *.
  all: rewrite Hc, Hq; try subst k; rewrite ?count_app, ?submissions_app, ?Hcop, ?Hsop, ?Hev2, ?Hev1, ?H1, ?H2, ?H3, ?H4, ?H5, ?H6 by done.
  all: rewrite ?Hev' by done; count_eval.
  all: try (destruct Hk' as [-> ->]).
  all: rewrite ?Htm; split_and!; try done; try lia; try (intros Habs; apply is_success_false in Es; done).
Qed.

Lemma settles_forward o :
  settles o (whenM (negb (is_success (o_submit o))) disarm_timer;; emit ProgressIncr).
Proof.
  intros s. unfold mbind, M_bind, whenM, emit. destruct (is_success (o_submit o)); simpl; [eauto|].
  rewrite disarm_timer_spec. destruct s as [r l]. simpl. destruct (timer r) eqn:E; simpl.
  - exists [TimerCancel; TimerDestroy; ProgressIncr]. by rewrite <- app_assoc.
  - exists [ProgressIncr]. by replace (set_timer false r) with r by (destruct r; simpl in *; by subst).
Qed.

Lemma settles_respond o :
  settles o (whenM (negb (is_success (o_submit o))) disarm_timer;;
             whenM (is_success (o_submit o)) (emit ProgressIncr)).
Proof.
  intros s. unfold mbind, M_bind, whenM, emit. destruct (is_success (o_submit o)); simpl; [eauto|].
  rewrite disarm_timer_spec. destruct s as [r l]. simpl. destruct (timer r) eqn:E; simpl.
  - by exists [TimerCancel; TimerDestroy].
  - exists []. rewrite app_nil_r. by replace (set_timer false r) with r by (destruct r; simpl in *; by subst).
Qed.

Lemma settles_bulk o :
  settles o (whenM (is_success (o_submit o)) (emit ProgressIncr);;
             whenM (negb (is_success (o_submit o))) disarm_timer).
Proof.
  intros s. unfold mbind, M_bind, whenM, emit. destruct (is_success (o_submit o)); simpl; [eauto|].
  rewrite disarm_timer_spec. destruct s as [r l]. simpl. destruct (timer r) eqn:E; simpl.
  - by exists [TimerCancel; TimerDestroy].
  - exists []. rewrite app_nil_r. by replace (set_timer false r) with r by (destruct r; simpl in *; by subst).
Qed.

Lemma submit_op_seq o t op (a b : M unit) s :
  (arm_timer o t;; emit op;; a;; b;; ret (o_submit o)) s = submit_op o t op (a;; b) s.
Proof.
  unfold submit_op, mbind, M_bind. destruct (arm_timer o t s) as [[|] s1]; [done|].
  destruct (emit op s1) as [[|] s2]; [done|]. by destruct (a s2) as [[|] s3].
Qed.

Lemma finished_eventual_fail o r t s l :
  is_eventual (req s) = true -> o_eventual o ≠ 0 -> kind (req s) = kind r -> calls s = l -> quiet l ->
  finished r t (inl HG_NOMEM_ERROR, s).
Proof.
  intros. unfold finished. eapply (finished_fail _ _ _ _ l []); try done. by rewrite app_nil_r.
Qed.

Lemma is_eventual_kind r r' : kind r' = kind r -> is_eventual r' = is_eventual r.
Proof. unfold is_eventual. by intros ->. Qed.

Lemma quiet_nil : quiet [].
Proof. done. Qed.
Lemma quiet_admin l : Forall admin l -> quiet l.
Proof. apply admin_counts. Qed.

Lemma iforward_balanced o provider_id handle timeout_ms r :
  balanced r timeout_ms (margo_provider_iforward_internal o provider_id handle timeout_ms (St r [])).
Proof.
  unfold margo_provider_iforward_internal.
  destruct (o_data o) as [d|]; [|done]. destruct (hd_mid d); [|done].
  apply balanced_finish. unfold mbind at 1, M_bind at 1.
  destruct (register_server_id_spec o d (mux_id (o_client_id o) provider_id) (St r [])) as (l & q & -> & Hl & Hq).
  destruct q as [h|[]]; simpl.
  { apply (finished_fail r timeout_ms h (St r l) l []); auto using quiet_admin. simpl. by rewrite app_nil_r. }
  set (l1 := l ++ [HgReset (mux_id (o_client_id o) provider_id)]).
  assert (Hl1 : quiet l1) by (apply quiet_admin, Forall_app; split; [done|by repeat constructor]).
  unfold mbind at 1, M_bind at 1, emit at 1. simpl. fold l1.
  unfold mbind at 1, M_bind at 1. destruct (is_success (o_reset o)) eqn:Er; simpl.
  2:{ apply (finished_fail r timeout_ms (o_reset o) (St r l1) l1 []); [by apply is_success_false|done|simpl; by rewrite app_nil_r|done|done]. }
  unfold mbind at 1, M_bind at 1. rewrite create_eventual_spec. simpl.
  assert (Hev : forall ev, ev = (if is_eventual r then [EventualCreate] else []) -> finished r timeout_ms
    ((upd_req (set_fields MARGO_FORWARD_REQUEST (Some handle));;
      arm_timer o timeout_ms;; emit (HgForward (o_parent o) (in_proc_cb d));;
      whenM (negb (is_success (o_submit o))) disarm_timer;; emit ProgressIncr;; ret (o_submit o)) (St r (l1 ++ ev)))).
  { intros ev Hev. unfold mbind at 1, M_bind at 1, upd_req. simpl. rewrite submit_op_seq.
    eapply (submit_op_finished o timeout_ms (HgForward (o_parent o) (in_proc_cb d)) _ r _ l1 ev (settles_forward o));
      try done. by intros [] ? ?. }
  destruct (is_eventual r) eqn:Ek; [|by specialize (Hev [] eq_refl); rewrite app_nil_r in Hev].
  destruct (Z.eqb_spec (o_eventual o) 0); [by apply Hev|]. by eapply finished_eventual_fail.
Qed.


Lemma irespond_balanced o handle timeout_ms r :
  balanced r timeout_ms (margo_irespond_internal o handle timeout_ms (St r [])).
Proof.
  unfold margo_irespond_internal. destruct (o_data o) as [d|]; [|done].
  apply balanced_finish. unfold mbind at 1, M_bind at 1, upd_req. simpl.
  unfold mbind at 1, M_bind at 1. rewrite create_eventual_spec. simpl.
  set (r1 := set_fields MARGO_RESPONSE_REQUEST (Some handle) r).
  assert (Hev : forall ev, ev = (if is_eventual r then [EventualCreate] else []) -> finished r timeout_ms
    ((arm_timer o timeout_ms;; emit (HgRespond (out_proc_cb d) HG_SUCCESS);;
      whenM (negb (is_success (o_submit o))) disarm_timer;;
      whenM (is_success (o_submit o)) (emit ProgressIncr);; ret (o_submit o)) (St r1 ev))).
  { intros ev Hev. rewrite submit_op_seq.
    eapply (submit_op_finished o timeout_ms _ _ r _ [] ev (settles_respond o)); try done. by intros [] ? ?. }
  rewrite (is_eventual_kind r r1) by done. destruct (is_eventual r) eqn:Ek; [|by apply (Hev [])].
  destruct (Z.eqb_spec (o_eventual o) 0); [by apply Hev|].
  eapply (finished_eventual_fail o r timeout_ms (St r1 []) []); try done.
Qed.

Lemma bulk_balanced o oo lo size timeout_ms r :
  balanced r timeout_ms (margo_bulk_itransfer_internal o oo lo size timeout_ms (St r [])).
Proof.
  unfold margo_bulk_itransfer_internal.
  set (r1 := set_fields MARGO_BULK_REQUEST None r).
  assert (Hev : forall ev, ev = (if is_eventual r then [EventualCreate] else []) -> finished r timeout_ms
    ((arm_timer o timeout_ms;; emit (HgBulkTransfer oo lo size);;
      whenM (is_success (o_submit o)) (emit ProgressIncr);;
      whenM (negb (is_success (o_submit o))) disarm_timer;; ret (o_submit o)) (St r1 ev))).
  { intros ev Hev. rewrite submit_op_seq.
    eapply (submit_op_finished o timeout_ms _ _ r _ [] ev (settles_bulk o)); try done. by intros [] ? ?. }
  unfold mbind at 1, M_bind at 1, upd_req. simpl. fold r1.
  unfold mbind at 1, M_bind at 1. rewrite create_eventual_spec. simpl.
  rewrite (is_eventual_kind r r1) by done. destruct (is_eventual r) eqn:Ek.
  - destruct (Z.eqb_spec (o_eventual o) 0).
    + specialize (Hev [EventualCreate] eq_refl). unfold finished in Hev.
      by destruct ((arm_timer o timeout_ms;; _) _) as [q s'].
    + apply (finished_eventual_fail o r timeout_ms (St r1 []) []); try done.
  - specialize (Hev [] eq_refl). unfold finished in Hev. by destruct ((arm_timer o timeout_ms;; _) _) as [q s'].
Qed.

(** A blocking call on a balanced submission. *)
Lemma submit_and_wait_spec submit t completion output :
  balanced zero_request t (submit (St zero_request [])) ->
  let '(h, s) := submit (St zero_request []) in
  let '(hret, l) := submit_and_wait submit completion output in
  if is_success h then
    hret = (if bool_decide (completion = HG_CANCELED) && Qpos t then HG_TIMEOUT
            else if negb (is_success completion) then completion
            else if bool_decide (rq_type (req s) = MARGO_FORWARD_REQUEST) then output else HG_SUCCESS) /\
    l = calls s ++ (if Qpos t then [TimerCancel; TimerDestroy] else []) ++
        [EventualSet; ProgressDecr; EventualWait; EventualFree]
  else hret = h /\ l = calls s.
Proof.
  unfold submit_and_wait. destruct (submit (St zero_request [])) as [h s]. intros (Hk & _ & Hs).
  destruct (is_success h) eqn:Eh; simpl; [|done]. apply is_success_true in Eh as ->.
  destruct Hs as (_ & Ht & _); [done|]. unfold margo_cb, margo_wait_internal, is_eventual.
  destruct s as [r l]. simpl in *. rewrite Hk, Ht. simpl. unfold is_eventual, set_hret. simpl. rewrite Hk. simpl.
  destruct (Qpos t); simpl; rewrite ?andb_true_r, ?andb_false_r; rewrite <- ?app_assoc; simpl.
  - case_bool_decide; simpl; [done|]. destruct (is_success completion); simpl; [|done].
    destruct (bool_decide (rq_type r = MARGO_FORWARD_REQUEST)); done.
  - destruct (is_success completion); simpl; [|done].
    destruct (bool_decide (rq_type r = MARGO_FORWARD_REQUEST)); done.
Qed.

(** *** Parallel bulk transfers *)

(** The submission loop, with one oracle per chunk; the result is the code
    and the requests submitted. *)
Fixpoint transfer_loop (os : list oracle) (remaining_size chunk_size origin_offset local_offset : Z)
    : hg_return_t * list st :=
  match os with
  | [] => (HG_SUCCESS, [])
  | o :: os =>
      let chunk_size := if remaining_size <? chunk_size then remaining_size else chunk_size in
      let '(hret_xfer, s) :=
        margo_bulk_itransfer_internal o origin_offset local_offset chunk_size 0%Q (St zero_request []) in
      if negb (is_success hret_xfer) then (hret_xfer, [])
      else
        let '(hret, reqs) :=
          transfer_loop os remaining_size chunk_size (origin_offset + chunk_size) (local_offset + chunk_size) in
        (hret, s :: reqs)
  end.

(** The waiting loop: the code returned and how many requests were waited for
    before they are all freed. *)
Fixpoint parallel_wait (hret : hg_return_t) (reqs : list st) (completions : nat -> hg_return_t) (j : nat)
    : hg_return_t * nat :=
  match reqs with
  | [] => (hret, j)
  | s :: reqs =>
      let '(_, s) := margo_cb (completions j) s in
      let '(hret_wait, _) := margo_wait_internal HG_SUCCESS s in
      if is_success hret && negb (is_success hret_wait) then (hret_wait, S j)
      else parallel_wait hret reqs completions (S j)
  end.

Definition chunk_count (size chunk_size : Z) : Z :=
  let count := size / chunk_size in if count * chunk_size <? size then count + 1 else count.

(** [os] are the oracles of the successive transfers. *)
Definition margo_bulk_parallel_transfer (os : nat -> oracle) (completions : nat -> hg_return_t)
    (origin_offset local_offset size chunk_size : Z) : hg_return_t * list st * nat :=
  if chunk_size =? 0 then (HG_INVALID_PARAM, [], 0%nat)
  else
    let count := chunk_count size chunk_size in
    let '(hret, reqs) :=
      transfer_loop (map os (seq 0 (Z.to_nat count))) size chunk_size origin_offset local_offset in
    let '(hret, waited) := parallel_wait hret reqs completions 0 in
    (hret, reqs, waited).

(** The parts of the buffers a record transfers. *)
Definition transferred (s : st) : list (Z * Z * Z) :=
  omap (fun c => match c with HgBulkTransfer a b n => Some (a, b, n) | _ => None end) (calls s).

(** The libraries accept every transfer. *)
Definition accepts (o : oracle) : Prop := o_eventual o = 0 /\ o_submit o = HG_SUCCESS.

Lemma bulk_accepts o oo lo size :
  accepts o -> exists s, margo_bulk_itransfer_internal o oo lo size 0%Q (St zero_request []) = (HG_SUCCESS, s) /\
    transferred s = [(oo, lo, size)] /\ timer (req s) = false /\ rq_type (req s) = MARGO_BULK_REQUEST /\
    kind (req s) = MARGO_REQ_EVENTUAL.
Proof.
  intros [He Hs]. unfold margo_bulk_itransfer_internal, create_eventual, arm_timer, whenM, disarm_timer,
    mbind, M_bind, upd_req, emit, get_req, ret. simpl. rewrite He, Hs. simpl. eauto 10.
Qed.

Lemma triple_eq (a b c a' b' c' : Z) : a = a' -> b = b' -> c = c' -> (a, b, c) = (a', b', c').
Proof. by intros -> -> ->. Qed.

Lemma transfer_loop_chunks n : forall (os : nat -> oracle) k size c oo lo,
  (forall i, accepts (os i)) -> c <= size ->
  exists reqs, transfer_loop (map os (seq k n)) size c oo lo = (HG_SUCCESS, reqs) /\
    map transferred reqs = map (fun i => [(oo + Z.of_nat i * c, lo + Z.of_nat i * c, c)]) (seq 0 n).
Proof.
  induction n as [|n IH]; intros os k size c oo lo Hok Hc; [by exists []|]. cbn [seq map transfer_loop].
  rewrite (proj2 (Z.ltb_ge size c)) by done.
  destruct (bulk_accepts (os k) oo lo c (Hok k)) as (s & -> & Ht & _). simpl negb. cbv iota.
  destruct (IH os (S k) size c (oo + c) (lo + c) Hok Hc) as (reqs & -> & Hr).
  exists (s :: reqs). split; [done|]. cbn [map]. rewrite Ht, Hr. f_equal; [f_equal; apply triple_eq; lia|].
  rewrite <- (seq_shift n 0), map_map. apply map_ext. intros i.
  f_equal. apply triple_eq; lia.
Qed.

Lemma transfer_loop_small os size c oo lo reqs :
  size < c -> transfer_loop os size size oo lo = (HG_SUCCESS, reqs) ->
  transfer_loop os size c oo lo = (HG_SUCCESS, reqs).
Proof.
  intros Hc. destruct os as [|o os]; [done|]. cbn [transfer_loop].
  rewrite (proj2 (Z.ltb_lt size c)) by done. by rewrite Z.ltb_irrefl.
Qed.

Lemma chunk_count_spec size c : 0 < c -> 0 <= size ->
  size <= chunk_count size c * c < size + c /\ (chunk_count size c * c = size <-> size mod c = 0).
Proof.
  intros Hc Hs. unfold chunk_count. pose proof (Z.div_mod size c). pose proof (Z.mod_pos_bound size c).
  destruct (Z.ltb_spec (size / c * c) size); split; try nia; split; nia.
Qed.

(** *** The progress counter *)

(** Runs a submission on every branch. *)
Ltac run_submission o r t :=
  destruct r as [? ? ? [] ? ? ?];
  unfold create_eventual, arm_timer, disarm_timer, whenM, goto_finish, ret, emit, upd_req, get_req, mbind, M_bind;
  cbn;
  destruct (is_success (o_reset o)) eqn:?; cbn; rewrite ?andb_true_r, ?andb_false_r;
  repeat match goal with
  | H : is_success ?h = _ |- context [is_success ?h] => rewrite H; cbn
  | |- context [is_success (code_of_int ?n)] =>
      rewrite (proj2 (is_success_false _) (code_of_int_error n ltac:(by apply Z.eqb_neq))); cbn
  | |- context [if o_eventual o =? 0 then _ else _] => destruct (o_eventual o =? 0); cbn
  | |- context [if Qpos t then _ else _] => destruct (Qpos t); cbn
  | |- context [o_timer_create o =? 0] => destruct (o_timer_create o =? 0) eqn:?; cbn
  | |- context [o_timer_start o =? 0] => destruct (o_timer_start o =? 0) eqn:?; cbn
  | |- context [is_success ?h] => destruct (is_success h) eqn:?; cbn
  end.

(** What a submission adds to the progress counter and the kind of request it
    makes. *)
Lemma iforward_progress o provider_id handle t r :
  let '(hret, s) := margo_provider_iforward_internal o provider_id handle t (St r []) in
  count ProgressIncr (calls s) = submissions (calls s) /\
  (hret = HG_SUCCESS -> rq_type (req s) = MARGO_FORWARD_REQUEST).
Proof.
  unfold margo_provider_iforward_internal, finish_free_eventual.
  destruct (o_data o) as [d|]; [|done]. destruct (hd_mid d); [|done].
  unfold mbind at 1, M_bind at 1.
  destruct (register_server_id_spec o d (mux_id (o_client_id o) provider_id) (St r [])) as (l & q & -> & Hl & Hq).
  apply admin_counts in Hl as (_ & _ & _ & _ & H5 & H6).
  destruct q as [h|[]]; [specialize (Hq h eq_refl)|]; run_submission o r t.
  all: rewrite ?count_app, ?submissions_app, ?H5, ?H6; count_eval; simpl; split; try done;
    rewrite ?count_app, ?submissions_app, ?H5, ?H6; try done.
  all: intros Hr; rewrite Hr in *; done.
Qed.

Lemma irespond_progress o handle t r :
  let '(hret, s) := margo_irespond_internal o handle t (St r []) in
  count ProgressIncr (calls s) = if is_success hret then submissions (calls s) else 0.
Proof.
  unfold margo_irespond_internal, finish_free_eventual. destruct (o_data o) as [d|]; [|done]. run_submission o r t.
  all: rewrite ?count_app, ?submissions_app; count_eval; simpl; try done.
Qed.

Lemma bulk_progress o oo lo size t r :
  let '(hret, s) := margo_bulk_itransfer_internal o oo lo size t (St r []) in
  count ProgressIncr (calls s) = (if is_success hret then submissions (calls s) else 0) /\
  rq_type (req s) = MARGO_BULK_REQUEST.
Proof.
  unfold margo_bulk_itransfer_internal. run_submission o r t.
  all: rewrite ?count_app, ?submissions_app; count_eval; simpl; try done.
Qed.

Lemma parallel_wait_ok reqs : forall completions j,
  Forall (fun s => kind (req s) = MARGO_REQ_EVENTUAL /\ timer (req s) = false /\
                   rq_type (req s) = MARGO_BULK_REQUEST) reqs ->
  (forall i, (i < length reqs)%nat -> completions (j + i)%nat = HG_SUCCESS) ->
  parallel_wait HG_SUCCESS reqs completions j = (HG_SUCCESS, (j + length reqs)%nat).
Proof.
  induction reqs as [|[r l] reqs IH]; intros completions j Hf Hc; simpl; [by rewrite Nat.add_0_r|].
  inversion_clear Hf as [|? ? (Hk & Ht & Hy) Hf']. simpl in *.
  pose proof (Hc 0%nat ltac:(simpl; lia)) as H0. rewrite Nat.add_0_r in H0.
  unfold margo_cb, margo_wait_internal, is_eventual; simpl. rewrite H0, Hk, Ht. simpl.
  rewrite Hk, Hy. simpl. rewrite IH; [f_equal; lia|done|].
  intros i Hi. rewrite <- (Hc (S i)); [f_equal; lia|simpl; lia].
Qed.

Lemma parallel_wait_fail reqs : forall completions j k,
  Forall (fun s => kind (req s) = MARGO_REQ_EVENTUAL /\ timer (req s) = false /\
                   rq_type (req s) = MARGO_BULK_REQUEST) reqs ->
  (forall i, (i < k)%nat -> completions (j + i)%nat = HG_SUCCESS) ->
  completions (j + k)%nat ≠ HG_SUCCESS -> (k < length reqs)%nat ->
  parallel_wait HG_SUCCESS reqs completions j = (completions (j + k)%nat, S (j + k)).
Proof.
  induction reqs as [|[r l] reqs IH]; intros completions j k Hf Hc Hk0 Hlen; simpl in *; [lia|].
  inversion_clear Hf as [|? ? (Hk & Ht & Hy) Hf']. simpl in *.
  unfold margo_cb, margo_wait_internal, is_eventual; simpl. rewrite Hk, Ht, andb_false_r. simpl. rewrite Hk. simpl.
  destruct k as [|k].
  - rewrite Nat.add_0_r in *. rewrite (proj2 (is_success_false _) Hk0). simpl.
    by rewrite (proj2 (is_success_false _) Hk0).
  - pose proof (Hc 0%nat ltac:(lia)) as H0. rewrite Nat.add_0_r in H0. rewrite H0, Hy. simpl.
    rewrite (IH completions (S j) k); try done; [|by intros i Hi; rewrite <- (Hc (S i)); [f_equal; lia|lia]|by rewrite <- Nat.add_succ_comm in Hk0|lia].
    by rewrite <- Nat.add_succ_comm.
Qed.

Lemma transfer_loop_requests os : forall size c oo lo hret reqs,
  transfer_loop os size c oo lo = (hret, reqs) ->
  Forall (fun s => kind (req s) = MARGO_REQ_EVENTUAL /\ timer (req s) = false /\
                   rq_type (req s) = MARGO_BULK_REQUEST) reqs.
Proof.
  induction os as [|o os IH]; intros size c oo lo hret reqs; simpl; [by intros [= <- <-]|].
  set (c' := if size <? c then size else c).
  pose proof (bulk_balanced o oo lo c' 0%Q zero_request) as Hb.
  pose proof (bulk_progress o oo lo c' 0%Q zero_request) as Hp.
  destruct (margo_bulk_itransfer_internal o oo lo c' 0%Q (St zero_request [])) as [h s].
  destruct (is_success h) eqn:Eh; simpl; [|by intros [= <- <-]]. apply is_success_true in Eh as ->.
  destruct (transfer_loop os size c' (oo + c') (lo + c')) as [h' reqs'] eqn:E. intros [= <- <-].
  destruct Hb as (Hk & _ & Hs). destruct (Hs eq_refl) as (_ & Ht & _).
  constructor; [|by eapply IH]. split_and!; [done|exact Ht|apply Hp].
Qed.

(** The pieces a parallel transfer of accepted chunks submits. *)
Lemma parallel_submits os completions oo lo size chunk :
  (forall i, accepts (os i)) -> 0 < chunk -> 0 < size ->
  let c := Z.min chunk size in
  exists reqs, transfer_loop (map os (seq 0 (Z.to_nat (chunk_count size chunk)))) size chunk oo lo = (HG_SUCCESS, reqs) /\
    map transferred reqs = map (fun i => [(oo + Z.of_nat i * c, lo + Z.of_nat i * c, c)])
                               (seq 0 (Z.to_nat (chunk_count size chunk))) /\
    margo_bulk_parallel_transfer os completions oo lo size chunk =
      ((parallel_wait HG_SUCCESS reqs completions 0).1, reqs, (parallel_wait HG_SUCCESS reqs completions 0).2).
Proof.
  intros Hok Hc Hs c. set (n := Z.to_nat (chunk_count size chunk)).
  destruct (transfer_loop_chunks n os 0 size c oo lo Hok ltac:(lia)) as (reqs & Hl & Hm).
  assert (Hl' : transfer_loop (map os (seq 0 n)) size chunk oo lo = (HG_SUCCESS, reqs)).
  { destruct (Z.lt_ge_cases size chunk) as [Hlt|Hge].
    - apply transfer_loop_small; [done|]. unfold c in Hl. by rewrite Z.min_r in Hl by lia.
    - unfold c in Hl. by rewrite Z.min_l in Hl by lia. }
  exists reqs. split_and!; [done|done|]. unfold margo_bulk_parallel_transfer.
  rewrite (proj2 (Z.eqb_neq chunk 0)) by lia. fold n. rewrite Hl'. by destruct (parallel_wait _ _ _ _).
Qed.

(** Libraries that agree to everything but perhaps the operation itself. *)
Definition willing (submit : hg_return_t) : oracle :=
  Oracle (Some (Handle_data (Some 1) 1 1 1)) 7 (HG_SUCCESS, true) (HG_SUCCESS, false) 1 HG_SUCCESS HG_SUCCESS 0 0 0 0 submit.

(** The lengths of the pieces, added up. *)
Definition total_transferred (reqs : list st) : Z :=
  foldr Z.add 0 (map (fun p => p.2) (concat (map transferred reqs))).

Lemma total_chunks oo lo c n : forall k,
  foldr Z.add 0 (map (fun p => p.2) (concat (map (fun i => [(oo + Z.of_nat i * c, lo + Z.of_nat i * c, c)]) (seq k n))))
  = Z.of_nat n * c.
Proof. induction n as [|n IH]; intros k; [done|]. cbn [seq map concat foldr app snd]. rewrite IH. lia. Qed.

(** ** Claims *)

(** C12: Submitting a forward, a response or a bulk transfer leaves no timer
    behind when it fails and exactly its resources when it succeeds: whatever
    Mercury, Argobots and the timers return, every timer created has been
    destroyed unless the submission succeeded with a positive timeout, and a
    successful submission has started one operation, created one eventual
    unless the request has a callback, freed none, attached its timer and
    counted itself in the progress counter once. *)
Theorem submission_balanced o provider_id handle oo lo size timeout_ms r :
  balanced r timeout_ms (margo_provider_iforward_internal o provider_id handle timeout_ms (St r [])) /\
  balanced r timeout_ms (margo_irespond_internal o handle timeout_ms (St r [])) /\
  balanced r timeout_ms (margo_bulk_itransfer_internal o oo lo size timeout_ms (St r [])).
Proof. auto using iforward_balanced, irespond_balanced, bulk_balanced. Qed.

(** A blocking forward returns the submission's error when it could not be
    submitted; otherwise HG_TIMEOUT when Mercury canceled the operation of a
    request with a timer, else Mercury's error, else the code the provider put
    in its response.  A submitted forward has canceled and destroyed the timer
    it created, freed the eventual it created after it was set, and taken
    itself out of the progress counter. *)
Theorem forward_timed_result o provider_id handle timeout_ms completion output :
  let h := (margo_provider_iforward_internal o provider_id handle timeout_ms (St zero_request [])).1 in
  let '(hret, l) := margo_provider_forward_timed o provider_id handle timeout_ms completion output in
  hret = (if negb (is_success h) then h
          else if bool_decide (completion = HG_CANCELED) && Qpos timeout_ms then HG_TIMEOUT
          else if negb (is_success completion) then completion else output) /\
  count TimerCreate l = count TimerDestroy l /\
  (h = HG_SUCCESS ->
     count EventualFree l = count EventualCreate l /\ count ProgressIncr l = 1 /\
     l = calls (margo_provider_iforward_internal o provider_id handle timeout_ms (St zero_request [])).2 ++
         (if Qpos timeout_ms then [TimerCancel; TimerDestroy] else []) ++
         [EventualSet; ProgressDecr; EventualWait; EventualFree]).
Proof.
  intros h. unfold h. clear h. unfold margo_provider_forward_timed.
  pose proof (iforward_balanced o provider_id handle timeout_ms zero_request) as Hb.
  pose proof (iforward_progress o provider_id handle timeout_ms zero_request) as Hp.
  pose proof (submit_and_wait_spec _ timeout_ms completion output Hb) as Hw.
  destruct (margo_provider_iforward_internal o provider_id handle timeout_ms (St zero_request [])) as [h s] eqn:E.
  destruct (submit_and_wait _ completion output) as [hret l]. simpl in *.
  destruct Hb as (_ & Ht & Hs), Hp as [_ Hty]. destruct (is_success h) eqn:Eh; simpl in *.
  2:{ destruct Hw as [-> ->]. split_and!; [done|lia|]. intros ->. done. }
  apply is_success_true in Eh. subst h. specialize (Hs eq_refl) as (_ & _ & Hev & Hef & Hpi). rewrite (Hty eq_refl) in Hw.
  destruct Hw as [-> ->]. split; [done|]. rewrite !count_app.
  destruct (Qpos timeout_ms); count_eval; simpl in *; (split; [lia|intros _; split_and!; [lia|lia|done]]).
Qed.

(** Submitted responses and bulk transfers count themselves in the progress
    counter exactly when the submission succeeded, but a forward counts itself
    as soon as it was handed to Mercury, even when Mercury refused it and no
    completion callback will ever take it out again: then the counter stays one
    too high and the progress loop never goes idle. *)
Theorem forward_failure_leaks_progress o provider_id handle oo lo size timeout_ms r :
  (let '(_, s) := margo_provider_iforward_internal o provider_id handle timeout_ms (St r []) in
   count ProgressIncr (calls s) = submissions (calls s)) /\
  (let '(hret, s) := margo_irespond_internal o handle timeout_ms (St r []) in
   count ProgressIncr (calls s) = if is_success hret then submissions (calls s) else 0) /\
  (let '(hret, s) := margo_bulk_itransfer_internal o oo lo size timeout_ms (St r []) in
   count ProgressIncr (calls s) = if is_success hret then submissions (calls s) else 0) /\
  (let '(hret, s) := margo_provider_iforward_internal
     (willing HG_NOMEM_ERROR) 1 1 0%Q (St zero_request []) in
   hret = HG_NOMEM_ERROR /\ count ProgressIncr (calls s) = 1).
Proof.
  pose proof (iforward_progress o provider_id handle timeout_ms r) as Hf.
  pose proof (irespond_progress o handle timeout_ms r) as Hr.
  pose proof (bulk_progress o oo lo size timeout_ms r) as Hb.
  destruct (margo_provider_iforward_internal o _ _ _ _), (margo_irespond_internal _ _ _ _), (margo_bulk_itransfer_internal _ _ _ _ _ _).
  split; [apply Hf|]. split; [apply Hr|]. split; [apply Hb|by vm_compute].
Qed.

(** When Mercury accepts every chunk of a parallel transfer, the chunks are
    consecutive pieces of equal length c, the smaller of the chunk size and the
    transfer size, starting at the offsets given.  Their total is the size asked
    for when it is at most one chunk or a multiple of the chunk size, and larger
    otherwise: the last chunk is not cut to what remains, because the remaining
    size is never decremented. *)
Theorem parallel_transfer_chunks os completions oo lo size chunk :
  (forall i, accepts (os i)) -> 0 < chunk -> 0 < size ->
  let c := Z.min chunk size in
  let '(hret, reqs, waited) := margo_bulk_parallel_transfer os completions oo lo size chunk in
  map transferred reqs = map (fun i => [(oo + Z.of_nat i * c, lo + Z.of_nat i * c, c)])
                             (seq 0 (Z.to_nat (chunk_count size chunk))) /\
  ((size <= chunk \/ size mod chunk = 0) -> total_transferred reqs = size) /\
  (~ (size <= chunk \/ size mod chunk = 0) -> size < total_transferred reqs < size + chunk).
Proof.
  intros Hok Hc Hs c. destruct (parallel_submits os completions oo lo size chunk Hok Hc Hs) as (reqs & _ & Hm & ->).
  fold c in Hm. split; [done|].
  pose proof (chunk_count_spec size chunk Hc ltac:(lia)) as [Hb Hiff].
  assert (Ht : total_transferred reqs = chunk_count size chunk * c).
  { unfold total_transferred. rewrite Hm, total_chunks. nia. }
  rewrite Ht. unfold c. destruct (Z.lt_ge_cases size chunk) as [Hlt|Hge].
  - rewrite Z.min_r by lia. assert (chunk_count size chunk = 1) as -> by nia. split; lia.
  - rewrite Z.min_l by lia. split; [intros [|]; [|tauto]|intros Hn; split; [|lia]; destruct (Z.eq_dec (chunk_count size chunk * chunk) size); [tauto|lia]].
    assert (size = chunk) as -> by lia. apply Hiff, Z_mod_same_full.
Qed.

Lemma parallel_transfer_chunks_witness :
  accepts (willing HG_SUCCESS) /\
  let '(_, reqs, _) := margo_bulk_parallel_transfer (fun _ => willing HG_SUCCESS) (fun _ => HG_SUCCESS) 0 100 10 4 in
  10 < total_transferred reqs < 10 + 4.
Proof.
  split; [done|].
  pose proof (parallel_transfer_chunks (fun _ => willing HG_SUCCESS) (fun _ => HG_SUCCESS) 0 100 10 4
    (fun _ => conj eq_refl eq_refl) ltac:(lia) ltac:(lia)) as H. cbv zeta in H.
  destruct (margo_bulk_parallel_transfer _ _ _ _ _ _) as [[h reqs] w]. apply H. by intros [H'|H'].
Defined.

(** When the transfers of all chunks but one succeed up to chunk k and that
    one fails, the call returns its error after waiting for the first k + 1
    chunks only, and frees the requests of the later ones, which are still in
    flight. *)
Theorem parallel_transfer_abandons os completions oo lo size chunk k :
  (forall i, accepts (os i)) -> 0 < chunk -> 0 < size ->
  (forall i, (i < k)%nat -> completions i = HG_SUCCESS) -> completions k ≠ HG_SUCCESS ->
  Z.of_nat k < chunk_count size chunk ->
  let '(hret, reqs, waited) := margo_bulk_parallel_transfer os completions oo lo size chunk in
  hret = completions k /\ waited = S k /\ length reqs = Z.to_nat (chunk_count size chunk).
Proof.
  intros Hok Hc Hs Hck Hk Hlt.
  destruct (parallel_submits os completions oo lo size chunk Hok Hc Hs) as (reqs & Hl & Hm & ->).
  apply (f_equal length) in Hm. rewrite !length_map, length_seq in Hm.
  rewrite (parallel_wait_fail reqs completions 0 k); [done|by eapply transfer_loop_requests|done|done|lia].
Qed.

Lemma parallel_transfer_abandons_witness :
  let '(hret, reqs, waited) :=
    margo_bulk_parallel_transfer (fun _ => willing HG_SUCCESS)
      (fun i => if bool_decide (i = 1%nat) then HG_CANCELED else HG_SUCCESS) 0 0 16 4 in
  hret = HG_CANCELED /\ waited = 2%nat /\ length reqs = 4%nat.
Proof.
  refine (parallel_transfer_abandons (fun _ => willing HG_SUCCESS)
    (fun i => if bool_decide (i = 1%nat) then HG_CANCELED else HG_SUCCESS) 0 0 16 4 1
    (fun _ => conj eq_refl eq_refl) _ _ _ _ _); [lia|lia| |done|done].
  intros i Hi. rewrite bool_decide_eq_false_2; [done|lia].
Defined.
