(* ===== verification/Arena.v ===== *)
(** * Object arenas (src/mochi-arena.c)

    An arena hands out fixed-size zeroed objects from blocks it allocates; the
    free objects form an intrusive list through their first word.  The memory
    of the blocks is a map from word addresses (multiples of 8) to words;
    reading a word that is not there is undefined behaviour, a [None] result.
    [malloc] answers are arguments.  The theorems show that objects handed out
    are distinct, aligned, zeroed and never overlap, that nothing is read
    before it is written or after it is freed, and that destroying an arena
    frees each block once. *)

From S2P Require Import Prelude.

#[local] Open Scope Z_scope.

(** ** The code *)

(** [round_up]: [a] is a power of two. *)
Definition round_up (x a : Z) : Z := Z.land (u64 (x + (a - 1))) (u64 (Z.lnot (a - 1))).

Notation memory := (gmap Z Z).

(** [mochi_arena], with the memory its pointers lead to. *)
Record arena := Arena {
  object_size : Z;
  block_capacity : Z;
  free_list : Z;
  blocks : Z;
  mem : memory
}.

Definition sizeof_ptr : Z := 8.

(** [ok] is whether [calloc] succeeds. *)
Definition mochi_arena_create (ok : bool) (object_size initial_capacity : Z) : option arena :=
  if negb ok then None
  else
    let object_size := if object_size <? sizeof_ptr then sizeof_ptr else object_size in
    Some (Arena (round_up object_size 8) (if initial_capacity <? 1 then 1 else initial_capacity) 0 0 ∅).

(** The size of a block. *)
Definition header : Z := round_up sizeof_ptr 8.
Definition total (a : arena) : Z := u64 (header + u64 (block_capacity a * object_size a)).

(** The loop of [mochi_arena_grow]: [n] objects are left to thread. *)
Fixpoint grow_loop (n : nat) (i base size free : Z) (m : memory) : Z * memory :=
  match n with
  | O => (free, m)
  | S n => let obj := base + i * size in grow_loop n (i + 1) base size obj (<[obj := free]> m)
  end.

(** [block] is what [malloc] returns. *)
Definition mochi_arena_grow (block : Z) (a : arena) : Z * arena :=
  if block =? 0 then (-1, a)
  else
    let m := <[block := blocks a]> (mem a) in
    let base := block + header in
    let '(free, m) := grow_loop (Z.to_nat (block_capacity a)) 0 base (object_size a) (free_list a) m in
    (0, Arena (object_size a) (block_capacity a) free block m).

(** [memset] of [n] words. *)
Fixpoint zero_words (n : nat) (p : Z) (m : memory) : memory :=
  match n with O => m | S n => zero_words n (p + 8) (<[p := 0]> m) end.

(** From the test of the free list on, under the lock. *)
Definition take_object (a : arena) : option (Z * arena) :=
  let obj := free_list a in
  next ← mem a !! obj;
  Some (obj, Arena (object_size a) (block_capacity a) next (blocks a)
               (zero_words (Z.to_nat (object_size a / 8)) obj (mem a))).

(** The arena pointer may be NULL, and so may the object returned. *)
Definition mochi_arena_get (block : Z) (arena_ : option arena) : option (Z * option arena) :=
  match arena_ with
  | None => Some (0, None)
  | Some a =>
      if free_list a =? 0 then
        let '(ret, a) := mochi_arena_grow block a in
        if negb (ret =? 0) then Some (0, Some a)
        else '(obj, a) ← take_object a; Some (obj, Some a)
      else '(obj, a) ← take_object a; Some (obj, Some a)
  end.

Definition mochi_arena_release (obj : Z) (arena_ : option arena) : option arena :=
  match arena_ with
  | None => None
  | Some a =>
      if obj =? 0 then Some a
      else Some (Arena (object_size a) (block_capacity a) obj (blocks a) (<[obj := free_list a]> (mem a)))
  end.

(** [free] of a block of [n] bytes. *)
Definition free_region (p n : Z) (m : memory) : memory :=
  filter (fun kv => ~ (p <= kv.1 < p + n)) m.

(** The loop of [mochi_arena_destroy]; the result is the blocks freed. *)
Fixpoint destroy_loop (fuel : nat) (total block : Z) (m : memory) : option (list Z) :=
  if block =? 0 then Some []
  else match fuel with
  | O => None
  | S fuel =>
      next ← m !! block;
      freed ← destroy_loop fuel total next (free_region block total m);
      Some (block :: freed)
  end.

Definition mochi_arena_destroy (fuel : nat) (arena_ : option arena) : option (list Z) :=
  match arena_ with
  | None => Some []
  | Some a => destroy_loop fuel (total a) (blocks a) (mem a)
  end.

(** ** Rounding *)

Lemma round_up_8 x : 0 <= x -> x + 7 < 2 ^ 64 -> round_up x 8 = (x + 7) / 8 * 8.
Proof.
  intros. unfold round_up. replace (8 - 1) with 7 by done.
  rewrite (u64_id (x + 7)) by (unfold is_u64; lia).
  replace (u64 (Z.lnot 7)) with (Z.shiftl (Z.ones 61) 3) by done.
  replace (x + 7) with (Z.shiftl ((x + 7) / 8) 3 + (x + 7) mod 8) at 1
    by (rewrite Z.shiftl_mul_pow2 by lia; pose proof (Z.div_mod (x + 7) 8); lia).
  rewrite Z.shiftl_mul_pow2 by lia. rewrite <- (lor_mul_add _ _ 3) by (pose proof (Z.mod_pos_bound (x + 7) 8); lia).
  rewrite <- Z.shiftl_mul_pow2, Z.land_lor_distr_l, <- Z.shiftl_land by lia.
  rewrite Z.land_ones, Z.mod_small by (lia || (split; [apply Z.div_pos|apply Z.div_lt_upper_bound]; lia)).
  replace (Z.land ((x + 7) mod 8) _) with 0; [by rewrite Z.lor_0_r, Z.shiftl_mul_pow2|].
  symmetry. apply Z.bits_inj'. intros i Hi. rewrite Z.bits_0, Z.land_spec. destruct (decide (i < 3)).
  - by rewrite Z.shiftl_spec_low, andb_false_r.
  - rewrite (testbit_bounded _ 3) by (pose proof (Z.mod_pos_bound (x + 7) 8); lia). done.
Qed.

(** ** Invariant *)

(** The list that starts at [p] and follows the first words. *)
Fixpoint chain (m : memory) (p : Z) (l : list Z) : Prop :=
  match l with
  | [] => p = 0
  | x :: l => p = x /\ x ≠ 0 /\ exists q, m !! x = Some q /\ chain m q l
  end.

(** The objects [i], ... [i + n - 1] of a block whose first is at [base]. *)
Fixpoint objects (n : nat) (i base size : Z) : list Z :=
  match n with O => [] | S n => (base + i * size) :: objects n (i + 1) base size end.

(** Regions of [n] bytes at the addresses of [l] do not overlap. *)
Definition separated (n : Z) (l : list Z) : Prop :=
  NoDup l /\ forall x y, x ∈ l -> y ∈ l -> x ≠ y -> x + n <= y \/ y + n <= x.

Definition block_objects (a : arena) (b : Z) : list Z :=
  objects (Z.to_nat (block_capacity a)) 0 (b + 8) (object_size a).

Definition sizes_ok (a : arena) : Prop :=
  8 <= object_size a /\ (8 | object_size a) /\ 1 <= block_capacity a /\
  8 + block_capacity a * object_size a < 2 ^ 64.

(** [bl]: the blocks, [fr]: the free objects, [live]: the objects handed out. *)
Record wf (a : arena) (bl fr live : list Z) : Prop := {
  wf_sizes : sizes_ok a;
  wf_blocks : chain (mem a) (blocks a) bl;
  wf_free : chain (mem a) (free_list a) fr;
  wf_aligned : Forall (fun b => 0 < b /\ (8 | b)) bl;
  wf_separated : separated (total a) bl;
  wf_objects : fr ++ live ≡ₚ bl ≫= block_objects a
}.

(** What [malloc] promises of a block it returns. *)
Definition fresh_block (a : arena) (bl : list Z) (p : Z) : Prop :=
  0 < p /\ (8 | p) /\ Forall (fun b => p + total a <= b \/ b + total a <= p) bl.

Lemma total_eq a : sizes_ok a -> total a = 8 + block_capacity a * object_size a.
Proof.
  intros (Hs & _ & Hc & Hb). unfold total. change header with 8.
  rewrite (u64_id (_ * _)) by (unfold is_u64; nia). apply u64_id. unfold is_u64. nia.
Qed.

Lemma elem_of_objects n : forall i base size x,
  x ∈ objects n i base size <-> exists k, i <= k < i + Z.of_nat n /\ x = base + k * size.
Proof.
  induction n as [|n IH]; intros i base size x; simpl.
  - split; [by intros ?%elem_of_nil|intros (k & ? & _); lia].
  - rewrite elem_of_cons, IH. split.
    + intros [->|(k & ? & ->)]; [exists i|exists k]; lia.
    + intros (k & ? & ->). destruct (Z.eq_dec k i) as [->|]; [by left|right; exists k; lia].
Qed.

Lemma objects_NoDup n : forall i base size, 0 < size -> NoDup (objects n i base size).
Proof.
  induction n as [|n IH]; intros i base size Hs; simpl; constructor; [|by apply IH].
  rewrite elem_of_objects. intros (k & ? & He). nia.
Qed.

Lemma elem_of_block_objects a b x :
  sizes_ok a ->
  x ∈ block_objects a b <-> exists k, 0 <= k < block_capacity a /\ x = b + 8 + k * object_size a.
Proof.
  intros (_ & _ & Hc & _). unfold block_objects. rewrite elem_of_objects.
  by replace (0 + Z.of_nat (Z.to_nat (block_capacity a))) with (block_capacity a) by lia.
Qed.

(** The objects of separated blocks are aligned, inside their block, and do
    not overlap. *)
Lemma block_objects_inside a b x :
  sizes_ok a -> x ∈ block_objects a b -> b + 8 <= x /\ x + object_size a <= b + total a.
Proof.
  intros Hok (k & Hk & ->)%elem_of_block_objects; [|done]. rewrite total_eq by done.
  destruct Hok as (? & _ & ? & _). nia.
Qed.

Lemma arena_objects_aligned a bl x :
  sizes_ok a -> Forall (fun b => 0 < b /\ (8 | b)) bl -> x ∈ bl ≫= block_objects a -> 0 < x /\ (8 | x).
Proof.
  intros Hok Hal (b & Hx & Hb)%list_elem_of_bind. rewrite Forall_forall in Hal. destruct (Hal b Hb) as [? [q Hq]].
  apply elem_of_block_objects in Hx as (k & Hk & ->); [|done]. destruct Hok as (? & [r Hr] & ? & _). rewrite Hr in *.
  assert (0 <= r) by lia. split; [pose proof (Z.mul_nonneg_nonneg k r); lia|]. exists (q + 1 + k * r). rewrite Hq. lia.
Qed.

Lemma objects_separated a bl :
  sizes_ok a -> separated (total a) bl -> separated (object_size a) (bl ≫= block_objects a).
Proof.
  intros Hok [Hnd Hsep]. pose proof Hok as (Hs & _ & Hc & _). split.
  - apply NoDup_bind; [|intros b _; apply objects_NoDup; lia|done].
    intros b1 b2 x H1 H2 Hx1%block_objects_inside Hx2%block_objects_inside; [|done..].
    destruct (Z.eq_dec b1 b2) as [->|Hne]; [done|]. destruct (Hsep b1 b2 H1 H2 Hne); lia.
  - intros x y (b1 & Hx & H1)%list_elem_of_bind (b2 & Hy & H2)%list_elem_of_bind Hxy.
    pose proof (block_objects_inside a b1 x Hok Hx). pose proof (block_objects_inside a b2 y Hok Hy).
    destruct (Z.eq_dec b1 b2) as [->|Hne]; [|destruct (Hsep b1 b2 H1 H2 Hne); lia].
    apply elem_of_block_objects in Hx as (k1 & ? & ->), Hy as (k2 & ? & ->); [|done..].
    assert (k1 ≠ k2) by congruence. nia.
Qed.

(** ** Memory *)

Lemma chain_ext m m' p l : (forall x, x ∈ l -> m' !! x = m !! x) -> chain m p l -> chain m' p l.
Proof.
  revert p. induction l as [|x l IH]; intros p Hm; simpl; [done|]. intros (-> & Hx & q & Hq & Hc).
  split_and!; [done|done|]. exists q. split; [rewrite Hm; [done|set_solver]|].
  apply IH; [|done]. intros. apply Hm. set_solver.
Qed.

Lemma lookup_zero_words n : forall p m w,
  zero_words n p m !! w = if decide (p <= w < p + 8 * Z.of_nat n /\ (w - p) mod 8 = 0) then Some 0 else m !! w.
Proof.
  induction n as [|n IH]; intros p m w; cbn [zero_words]; [case_decide; [lia|done]|].
  rewrite IH. destruct (Z.eq_dec w p) as [->|Hne].
  - rewrite decide_False by lia. rewrite lookup_insert_eq, decide_True; [done|]. split; [lia|]. by rewrite Z.sub_diag.
  - rewrite lookup_insert_ne by done. apply decide_ext.
    split; intros [? ?]; split; try (Z.div_mod_to_equations; lia).
Qed.

Lemma grow_loop_spec n : forall i base size free m fr,
  0 < size -> 0 < base -> 0 <= i -> chain m free fr ->
  (forall x, x ∈ objects n i base size -> x ∉ fr) ->
  let '(free', m') := grow_loop n i base size free m in
  exists fr', chain m' free' fr' /\ fr' ≡ₚ objects n i base size ++ fr /\
    forall w, w ∉ objects n i base size -> m' !! w = m !! w.
Proof.
  induction n as [|n IH]; intros i base size free m fr Hs Hb Hi Hc Hn; cbn [grow_loop objects].
  { exists fr. auto. }
  set (obj := base + i * size) in *.
  assert (Hobj : obj ∉ fr) by (apply Hn; cbn [objects]; set_solver).
  pose proof (objects_NoDup (S n) i base size Hs) as Hnd. cbn [objects] in Hnd. fold obj in Hnd.
  apply NoDup_cons in Hnd as [Hnd _].
  specialize (IH (i + 1) base size obj (<[obj := free]> m) (obj :: fr) Hs Hb ltac:(lia)).
  destruct (grow_loop n (i + 1) base size obj (<[obj := free]> m)) as [free' m'].
  destruct IH as (fr' & Hc' & Hp & Hw).
  - simpl. split_and!; [done|unfold obj; nia|]. exists free. rewrite lookup_insert_eq. split; [done|].
    apply (chain_ext m); [|done]. intros x Hx. rewrite lookup_insert_ne; [done|]. by intros ->.
  - intros x Hx. rewrite not_elem_of_cons. split; [by intros ->|]. apply Hn. cbn [objects]. by right.
  - exists fr'. split_and!; [done| |].
    + rewrite Hp. by rewrite <- Permutation_middle.
    + intros w Hw'. rewrite Hw by set_solver. rewrite lookup_insert_ne; [done|]. set_solver.
Qed.

(** ** The operations keep the invariant *)

Lemma chain_elem_nonzero m p l : chain m p l -> 0 ∉ l.
Proof.
  revert p. induction l as [|x l IH]; intros p; simpl; [set_solver|].
  intros (-> & Hx & q & _ & Hc%IH). set_solver.
Qed.

(** The words of the objects handed out. *)
Definition live_kept (a a' : arena) (live : list Z) : Prop :=
  forall y w, y ∈ live -> y <= w < y + object_size a -> mem a' !! w = mem a !! w.

Lemma wf_member a bl fr live x :
  wf a bl fr live -> x ∈ fr ++ live ->
  exists b, b ∈ bl /\ b + 8 <= x /\ x + object_size a <= b + total a.
Proof.
  intros [Hok _ _ _ _ Hp] Hx. rewrite Hp in Hx. apply list_elem_of_bind in Hx as (b & Hx & Hb).
  exists b. split; [done|]. by apply block_objects_inside.
Qed.

Lemma wf_grow a bl live p :
  wf a bl [] live -> fresh_block a bl p ->
  exists a' fr', mochi_arena_grow p a = (0, a') /\ wf a' (p :: bl) fr' live /\ fr' ≠ [] /\
    object_size a' = object_size a /\ live_kept a a' live.
Proof.
  intros Hwf (Hp0 & Hp8 & Hfresh). pose proof Hwf as [Hok Hb Hf Hal Hsep Hobj]. rewrite Forall_forall in Hfresh.
  pose proof Hok as (Hs & Hs8 & Hcap & Hbound).
  assert (Hf0 : free_list a = 0) by exact Hf.
  unfold mochi_arena_grow. rewrite (proj2 (Z.eqb_neq p 0)) by lia. change header with 8.
  pose proof (grow_loop_spec (Z.to_nat (block_capacity a)) 0 (p + 8) (object_size a) (free_list a)
    (<[p := blocks a]> (mem a)) [] ltac:(lia) ltac:(lia) ltac:(lia) Hf0 (fun x _ => not_elem_of_nil x)) as Hg.
  destruct (grow_loop _ _ _ _ _ _) as [free' m']. destruct Hg as (fr' & Hc' & Hperm & Hw).
  rewrite app_nil_r in Hperm. fold (block_objects a p) in Hperm, Hw.
  assert (Hout : forall w, w < p \/ p + total a <= w -> m' !! w = mem a !! w).
  { intros w Hr. assert (0 < total a) by (rewrite total_eq by done; nia). rewrite Hw.
    - rewrite lookup_insert_ne by lia. done.
    - intros Hin%block_objects_inside; [lia|done]. }
  eexists _, fr'. split; [done|]. split; [|split_and!; [|done|]].
  - split; simpl; [done| | |constructor; auto| |].
    + split_and!; [done|lia|]. exists (blocks a). split.
      * rewrite Hw; [by rewrite lookup_insert_eq|]. intros Hin%block_objects_inside; [lia|done].
      * apply (chain_ext (mem a)); [|done]. intros b Hbl. apply Hout.
        assert (8 <= total a) by (rewrite total_eq by done; nia). destruct (Hfresh b Hbl); lia.
    + done.
    + destruct Hsep as [Hnd Hsep]. change (total (Arena _ _ _ _ _)) with (total a). split.
      * constructor; [|done]. intros Hin. assert (8 <= total a) by (rewrite total_eq by done; nia).
        destruct (Hfresh p Hin); lia.
      * intros x y [->|Hx]%elem_of_cons [->|Hy]%elem_of_cons Hne; [done|by apply Hfresh|destruct (Hfresh x Hx); auto|auto].
    + change (bl ≫= block_objects (Arena _ _ _ _ _)) with (bl ≫= block_objects a).
      change (block_objects (Arena _ _ _ _ _) p) with (block_objects a p).
      rewrite Hperm. simpl in Hobj. by rewrite Hobj.
  - intros ->. apply Permutation_nil in Hperm. unfold block_objects in Hperm.
    destruct (Z.to_nat (block_capacity a)) eqn:E; [lia|done].
  - intros y w Hy Hr. apply Hout. destruct (wf_member a bl [] live y Hwf ltac:(done)) as (b & Hbl & ? & ?).
    destruct (Hfresh b Hbl); lia.
Qed.

Lemma wf_apart a bl fr live x y :
  wf a bl fr live -> x ∈ fr ++ live -> y ∈ fr ++ live -> x ≠ y ->
  x + object_size a <= y \/ y + object_size a <= x.
Proof.
  intros [Hok _ _ _ Hsep Hp] Hx Hy. rewrite Hp in Hx, Hy. by apply (objects_separated a bl Hok Hsep).
Qed.

Lemma wf_NoDup a bl fr live : wf a bl fr live -> NoDup (fr ++ live).
Proof. intros [Hok _ _ _ Hsep Hp]. rewrite Hp. by apply (objects_separated a bl Hok Hsep). Qed.

Lemma wf_block_word a bl fr live b x :
  wf a bl fr live -> b ∈ bl -> x ∈ fr ++ live -> b < x \/ x + object_size a <= b.
Proof.
  intros Hwf Hb Hx. destruct (wf_member a bl fr live x Hwf Hx) as (b' & Hb' & ? & ?).
  destruct (Z.eq_dec b b') as [->|Hne]; [lia|]. destruct Hwf as [Hok _ _ _ [_ Hsep] _].
  assert (8 <= total a) by (rewrite total_eq by done; destruct Hok as (? & _ & ? & _); nia).
  destruct (Hsep b b' Hb Hb' Hne); lia.
Qed.

Lemma wf_take a bl fr live x :
  wf a bl (x :: fr) live ->
  exists a', take_object a = Some (x, a') /\ wf a' bl fr (x :: live) /\ live_kept a a' live /\
    object_size a' = object_size a /\
    forall k, 0 <= k < object_size a / 8 -> mem a' !! (x + 8 * k) = Some 0.
Proof.
  intros Hwf. pose proof Hwf as [Hok Hb Hf Hal Hsep Hobj]. simpl in Hf. destruct Hf as (Hx & Hx0 & q & Hq & Hf).
  pose proof Hok as (Hs & [r Hr] & _). pose proof (wf_NoDup _ _ _ _ Hwf) as Hnd. apply NoDup_cons in Hnd as [Hnx Hnd].
  assert (Hdiv : Z.of_nat (Z.to_nat (object_size a / 8)) * 8 = object_size a)
    by (rewrite Hr, Z.div_mul by lia; lia).
  assert (Hz : forall w, w < x \/ x + object_size a <= w ->
    zero_words (Z.to_nat (object_size a / 8)) x (mem a) !! w = mem a !! w).
  { intros w Hw. rewrite lookup_zero_words, decide_False; [done|lia]. }
  unfold take_object. rewrite Hx, Hq. simpl. eexists. split; [done|]. split; [|split_and!; [|done|]].
  - split; simpl; try done.
    + apply (chain_ext (mem a)); [|done]. intros b Hbl. apply Hz.
      destruct (wf_block_word _ _ _ _ b x Hwf Hbl); [set_solver|lia|lia].
    + apply (chain_ext (mem a)); [|done]. intros y Hy. apply Hz.
      destruct (wf_apart _ _ _ _ x y Hwf); set_solver || lia.
    + by rewrite <- Permutation_middle.
  - intros y w Hy Hw. apply Hz. destruct (wf_apart _ _ _ _ x y Hwf); [set_solver|set_solver|set_solver|lia|lia].
  - intros k Hk. simpl. rewrite lookup_zero_words, decide_True; [done|].
    split; [lia|]. replace (x + 8 * k - x) with (k * 8) by lia. by apply Z_mod_mult.
Qed.

Lemma wf_release a bl fr live1 live2 x :
  wf a bl fr (live1 ++ x :: live2) ->
  exists a', mochi_arena_release x (Some a) = Some a' /\ wf a' bl (x :: fr) (live1 ++ live2) /\
    object_size a' = object_size a /\ live_kept a a' (live1 ++ live2).
Proof.
  intros Hwf. pose proof Hwf as [Hok Hb Hf Hal Hsep Hobj].
  assert (Hx : x ∈ fr ++ live1 ++ x :: live2) by set_solver.
  pose proof (wf_NoDup _ _ _ _ Hwf) as Hnd.
  assert (Hnd' : NoDup (x :: (fr ++ live1) ++ live2)).
  { rewrite (Permutation_middle (fr ++ live1) live2 x), <- app_assoc. exact Hnd. }
  apply NoDup_cons in Hnd' as [Hnx _]. pose proof Hx as Hx'. rewrite Hobj in Hx'.
  apply arena_objects_aligned in Hx' as [Hx0 _]; [|done..].
  simpl. rewrite (proj2 (Z.eqb_neq x 0)) by lia. eexists. split; [done|]. split; [|split; [done|]].
  - split; simpl; try done.
    + apply (chain_ext (mem a)); [|done]. intros b Hbl. rewrite lookup_insert_ne; [done|].
      pose proof Hok as (? & _). destruct (wf_block_word _ _ _ _ b x Hwf Hbl Hx); lia.
    + split_and!; [done|lia|]. exists (free_list a). rewrite lookup_insert_eq. split; [done|].
      apply (chain_ext (mem a)); [|done]. intros y Hy. rewrite lookup_insert_ne; [done|set_solver].
    + change (bl ≫= block_objects (Arena _ _ _ _ _)) with (bl ≫= block_objects a). rewrite <- Hobj.
      rewrite !(app_assoc fr). by rewrite <- Permutation_middle.
  - intros y w Hy Hw. simpl. rewrite lookup_insert_ne; [done|]. pose proof Hok as (? & _).
    destruct (wf_apart _ _ _ _ x y Hwf Hx); [set_solver|set_solver|lia|lia].
Qed.

Lemma arena_wf_create object_size initial_capacity a :
  0 <= object_size -> Z.max 8 object_size + 7 < 2 ^ 64 ->
  8 + Z.max 1 initial_capacity * (Z.max 8 object_size + 7) < 2 ^ 64 ->
  mochi_arena_create true object_size initial_capacity = Some a ->
  wf a [] [] [] /\ object_size <= Arena.object_size a < Z.max 8 object_size + 8.
Proof.
  intros Ho H7 Hc [= <-]. set (o := if object_size <? sizeof_ptr then sizeof_ptr else object_size).
  assert (Eo : o = Z.max 8 object_size) by (unfold o, sizeof_ptr; destruct (Z.ltb_spec object_size 8); lia).
  assert (Er : round_up o 8 = (o + 7) / 8 * 8) by (apply round_up_8; lia).
  assert (Hb : o <= (o + 7) / 8 * 8 < o + 8) by (Z.div_mod_to_equations; lia).
  split; [|simpl; lia]. split; simpl; try done.
  - unfold sizes_ok. simpl. rewrite Er. split_and!; [lia|apply Z.divide_factor_r|destruct (Z.ltb_spec initial_capacity 1); lia|].
    destruct (Z.ltb_spec initial_capacity 1); nia.
  - split; [constructor|]. intros x y []%elem_of_nil.
Qed.

Lemma destroy_loop_spec total bl : forall p m,
  8 <= total -> chain m p bl -> separated total bl -> Forall (fun b => 0 < b) bl ->
  destroy_loop (length bl) total p m = Some bl.
Proof.
  induction bl as [|b bl IH]; intros p m Ht; simpl; [by intros -> _ _|].
  intros (-> & Hb0 & q & Hq & Hc) [Hnd Hsep] [Hpos Hpos']%Forall_cons.
  rewrite (proj2 (Z.eqb_neq b 0)) by lia. rewrite Hq. simpl. apply NoDup_cons in Hnd as [Hn Hnd].
  rewrite IH; [done|done| | |done].
  - apply (chain_ext m); [|done]. intros y Hy. unfold free_region. apply option_eq. intros v.
    rewrite map_lookup_filter_Some. split; [tauto|]. intros Hv. split; [done|]. simpl.
    destruct (Hsep b y); [set_solver|set_solver|set_solver|lia|lia].
  - split; [done|]. intros x y Hx Hy. apply Hsep; set_solver.
Qed.

(** ** What other components rely on *)

(** A pool of objects: [pool_live] are the objects handed out. *)
Class ObjectPool (A : Type) := {
  pool_live : A -> gset Z;
  pool_get : A -> Z -> A -> Prop;
  pool_release : A -> Z -> A -> Prop;
  pool_get_law a x a' : pool_get a x a' -> x ∉ pool_live a /\ pool_live a' = {[x]} ∪ pool_live a;
  pool_release_law a x a' : x ∈ pool_live a -> pool_release a x a' -> pool_live a' = pool_live a ∖ {[x]};
  pool_release_total a x : x ∈ pool_live a -> exists a', pool_release a x a' /\ exists a'', pool_get a' x a''
}.

(** An arena in use, with its blocks and objects. *)
Record used_arena := Used { ar : arena; ar_blocks : list Z; ar_free : list Z; ar_live : list Z; ar_wf : wf ar ar_blocks ar_free ar_live }.

Lemma get_spec a bl fr live block :
  wf a bl fr live -> block = 0 \/ fresh_block a bl block ->
  (fr = [] /\ block = 0 /\ mochi_arena_get block (Some a) = Some (0, Some a)) \/
  exists x a' bl' fr', mochi_arena_get block (Some a) = Some (x, Some a') /\
    wf a' bl' fr' (x :: live) /\ live_kept a a' live /\ object_size a' = object_size a /\
    (forall k, 0 <= k < object_size a / 8 -> mem a' !! (x + 8 * k) = Some 0) /\
    (fr ≠ [] -> fr = x :: fr').
Proof.
  intros Hwf Hblock. unfold mochi_arena_get. destruct fr as [|x fr].
  - pose proof (wf_free _ _ _ _ Hwf) as Hf. simpl in Hf. rewrite Hf. simpl.
    destruct Hblock as [->|Hblock]; [by left|]. right.
    destruct (wf_grow a bl live block Hwf Hblock) as (a1 & fr1 & -> & Hwf1 & Hne & Hsz1 & Hk1). simpl.
    destruct fr1 as [|x fr1]; [done|]. destruct (wf_take _ _ _ _ _ Hwf1) as (a' & -> & Hwf' & Hk & Hsz & Hzero).
    exists x, a', (block :: bl), fr1. simpl. split_and!; [done|done| |congruence|by rewrite <- Hsz1|done].
    intros y w Hy Hw. rewrite (Hk y w Hy) by (rewrite Hsz1; lia). by apply (Hk1 y).
  - right. pose proof (wf_free _ _ _ _ Hwf) as (Hf & Hx0 & _).
    rewrite (proj2 (Z.eqb_neq (free_list a) 0)) by congruence.
    destruct (wf_take _ _ _ _ _ Hwf) as (a' & -> & Hwf' & Hk & Hsz & Hzero).
    exists x, a', bl, fr. simpl. split_and!; auto.
Qed.

Lemma wf_live_nonzero a bl fr live x : wf a bl fr live -> x ∈ live -> 0 < x /\ (8 | x).
Proof.
  intros [Hok _ _ Hal _ Hp] Hx. apply (arena_objects_aligned a bl); [done|done|]. rewrite <- Hp. set_solver.
Qed.

(** Getting an object leaves the live list [x :: live]; releasing removes it. *)
Definition arena_get_rel (u : used_arena) (x : Z) (u' : used_arena) : Prop :=
  x ≠ 0 /\ ar_live u' = x :: ar_live u /\
  exists block, (block = 0 \/ fresh_block (ar u) (ar_blocks u) block) /\
    mochi_arena_get block (Some (ar u)) = Some (x, Some (ar u')).
Definition arena_release_rel (u : used_arena) (x : Z) (u' : used_arena) : Prop :=
  mochi_arena_release x (Some (ar u)) = Some (ar u') /\ ar_live u ≡ₚ x :: ar_live u'.

#[export] Program Instance arena_pool : ObjectPool used_arena := {|
  pool_live u := list_to_set (ar_live u);
  pool_get := arena_get_rel;
  pool_release := arena_release_rel
|}.
Next Obligation.
  intros [a bl fr live Hwf] x [a' bl' fr' live' Hwf'] (_ & Hl & _). simpl in *. subst live'.
  pose proof (wf_NoDup _ _ _ _ Hwf') as Hnd. apply NoDup_app in Hnd as (_ & _ & [Hn _]%NoDup_cons).
  split; [by rewrite elem_of_list_to_set|done].
Qed.
Next Obligation.
  intros [a bl fr live Hwf] x [a' bl' fr' live' Hwf'] _ [_ Hl]. simpl in *.
  pose proof (wf_NoDup _ _ _ _ Hwf) as Hnd. apply NoDup_app in Hnd as (_ & _ & Hnd). rewrite Hl in Hnd.
  apply NoDup_cons in Hnd as [Hn _]. rewrite Hl. simpl. apply set_eq. intros y.
  rewrite elem_of_difference, elem_of_union, elem_of_singleton, elem_of_list_to_set. split; [|tauto].
  intros Hy. split; [by right|by intros ->].
Qed.
Next Obligation.
  intros [a bl fr live Hwf] x Hx. simpl in Hx. rewrite elem_of_list_to_set in Hx.
  apply list_elem_of_split in Hx as (l1 & l2 & ->).
  destruct (wf_release a bl fr l1 l2 x Hwf) as (a' & Hr & Hwf' & _).
  exists (Used a' bl (x :: fr) (l1 ++ l2) Hwf'). split.
  { split; [done|]. simpl. symmetry. apply Permutation_middle. }
  destruct (get_spec a' bl (x :: fr) (l1 ++ l2) 0 Hwf' (or_introl eq_refl))
    as [[? _]|(y & a'' & bl'' & fr'' & Hg & Hwf'' & _ & _ & _ & Hhd)]; [done|].
  specialize (Hhd ltac:(done)). simplify_eq.
  exists (Used a'' bl'' fr'' (y :: l1 ++ l2) Hwf''). split; [|split; [done|]].
  - assert (0 < y); [|lia]. eapply wf_live_nonzero; [exact Hwf''|set_solver].
  - exists 0. auto.
Qed.

(** ** Claims *)

(** C16: Getting an object from a well-formed arena never reads memory that was
    not written.  It fails only when there is no free object and malloc failed,
    and then changes nothing; otherwise the object returned is 8-byte aligned
    and not null, its words are zero, it does not overlap any object handed out
    before, the contents of those are untouched, and the arena is well formed. *)
Theorem arena_get_correct a bl fr live block :
  wf a bl fr live -> block = 0 \/ fresh_block a bl block ->
  match mochi_arena_get block (Some a) with
  | Some (x, Some a') =>
      (x = 0 /\ a' = a /\ fr = [] /\ block = 0) \/
      ((exists bl' fr', wf a' bl' fr' (x :: live)) /\
       0 < x /\ (8 | x) /\ x ∉ live /\
       (forall y, y ∈ live -> x + object_size a <= y \/ y + object_size a <= x) /\
       (forall k, 0 <= k < object_size a / 8 -> mem a' !! (x + 8 * k) = Some 0) /\
       (forall y w, y ∈ live -> y <= w < y + object_size a -> mem a' !! w = mem a !! w))
  | _ => False
  end.
Proof.
  intros Hwf Hb.
  destruct (get_spec a bl fr live block Hwf Hb)
    as [(-> & -> & ->)|(x & a' & bl' & fr' & -> & Hwf' & Hk & Hsz & Hz & _)]; [by left|right].
  pose proof (wf_NoDup _ _ _ _ Hwf') as Hnd. apply NoDup_app in Hnd as (_ & _ & [Hn _]%NoDup_cons).
  destruct (wf_live_nonzero _ _ _ _ x Hwf' ltac:(set_solver)).
  split_and!; eauto. intros y Hy. rewrite <- Hsz. eapply wf_apart; [exact Hwf'|set_solver|set_solver|by intros ->].
Qed.

Lemma arena_get_correct_witness :
  match mochi_arena_get 64 (Some (Arena 16 2 0 0 ∅)) with Some (x, Some a') => x = 88 | _ => False end.
Proof.
  assert (Hwf : wf (Arena 16 2 0 0 ∅) [] [] []) by (apply (arena_wf_create 16 2); done).
  pose proof (arena_get_correct (Arena 16 2 0 0 ∅) [] [] [] 64 Hwf
    (or_intror (conj eq_refl (conj (Z.divide_factor_l 8 8) (Forall_nil_2 _))))) as H.
  vm_compute in H |- *. by destruct H as [[? _]|H].
Defined.

(** Releasing an object handed out puts it in front of the free objects,
    keeps the arena well formed and leaves the other objects alone; destroying
    a well-formed arena terminates, frees each of its blocks exactly once and
    never reads a block after it was freed. *)
Theorem arena_release_destroy_correct a bl fr live x :
  wf a bl fr live ->
  (x ∈ live -> exists a' live', mochi_arena_release x (Some a) = Some a' /\ live ≡ₚ x :: live' /\
     wf a' bl (x :: fr) live' /\
     forall y w, y ∈ live' -> y <= w < y + object_size a -> mem a' !! w = mem a !! w) /\
  mochi_arena_destroy (length bl) (Some a) = Some bl /\ NoDup bl.
Proof.
  intros Hwf. split.
  - intros (l1 & l2 & ->)%list_elem_of_split. destruct (wf_release a bl fr l1 l2 x Hwf) as (a' & ? & ? & _ & Hk).
    exists a', (l1 ++ l2). split_and!; auto. symmetry. apply Permutation_middle.
  - pose proof Hwf as [Hok Hb _ Hal Hsep _]. split; [|apply Hsep]. apply destroy_loop_spec; try done.
    + rewrite total_eq by done. destruct Hok as (? & _ & ? & _). nia.
    + eapply Forall_impl; [exact Hal|]. by intros b [? _].
Qed.

Lemma arena_release_destroy_correct_witness :
  mochi_arena_destroy 1 (Some (mochi_arena_grow 64 (Arena 16 2 0 0 ∅)).2) = Some [64].
Proof.
  assert (Hwf : wf (Arena 16 2 0 0 ∅) [] [] []) by (apply (arena_wf_create 16 2); done).
  destruct (wf_grow _ _ _ 64 Hwf) as (a & fr & -> & Hwf' & _).
  { split; [done|]. split; [by exists 8|constructor]. }
  apply (arena_release_destroy_correct a [64] fr [] 0 Hwf').
Defined.
