(* ===== verification/RequestLife.v ===== *)
(** * The life of request objects (src/margo-core.c, src/mochi-arena.c)

    Request objects of non-blocking operations come from the arena of the
    instance.  A waiter gives the object back after the eventual was set; for a
    request with a callback [margo_cb] gives it back itself, after testing the
    kind of the request a second time.  The waiter and [margo_cb] run in
    different threads: the step relation interleaves submissions, the two parts
    of [margo_cb] around the moment the waiter may be released, and waiters, on
    any object pool that keeps the laws of [ObjectPool]. *)

From S2P Require Import Prelude Arena Request.

#[local] Open Scope Z_scope.

Section Life.
Context {A : Type} `{!ObjectPool A}.

(** [kinds]: the field [kind] of each object; [flying]: operations Mercury has
    not completed; [ready]: requests whose eventual is set and not waited for
    yet; [tails]: calls of [margo_cb] past the eventual or the user callback. *)
Record life := Life {
  pool : A;
  kinds : gmap Z margo_request_kind;
  flying : list Z;
  ready : list Z;
  tails : list Z
}.

(** The second test of [margo_cb]: a callback request goes back to the arena. *)
Definition cb_tail (p : A) (ks : gmap Z margo_request_kind) (x : Z) (p' : A) : Prop :=
  match ks !! x with
  | Some MARGO_REQ_CALLBACK => pool_release p x p'
  | Some MARGO_REQ_EVENTUAL => p' = p
  | None => False
  end.

(** [allowed] are the kinds of requests the program submits. *)
Inductive lstep (allowed : margo_request_kind -> Prop) : life -> life -> Prop :=
  | l_submit s k x p' :
      allowed k -> pool_get (pool s) x p' ->
      lstep allowed s (Life p' (<[x := k]> (kinds s)) (x :: flying s) (ready s) (tails s))
  | l_complete s x l1 l2 k :
      flying s = l1 ++ x :: l2 -> kinds s !! x = Some k ->
      lstep allowed s
        (Life (pool s) (kinds s) (l1 ++ l2)
           (match k with MARGO_REQ_EVENTUAL => x :: ready s | MARGO_REQ_CALLBACK => ready s end)
           (x :: tails s))
  | l_tail s x l1 l2 p' :
      tails s = l1 ++ x :: l2 -> cb_tail (pool s) (kinds s) x p' ->
      lstep allowed s (Life p' (kinds s) (flying s) (ready s) (l1 ++ l2))
  | l_wait s x l1 l2 p' :
      ready s = l1 ++ x :: l2 -> pool_release (pool s) x p' ->
      lstep allowed s (Life p' (kinds s) (flying s) (l1 ++ l2) (tails s)).

Definition fresh_life (p : A) : life := Life p ∅ [] [] [].

(** The requests somebody still uses: those in flight, those whose waiter has
    not run, and those whose [margo_cb] will release them. *)
Definition owned (k : margo_request_kind) (s : life) : list Z :=
  flying s ++ ready s ++ (if decide (k = MARGO_REQ_CALLBACK) then tails s else []).

Record linv (k : margo_request_kind) (s : life) : Prop := {
  linv_kinds : forall x k', kinds s !! x = Some k' -> k' = k;
  linv_NoDup : NoDup (owned k s);
  linv_live : forall x, x ∈ owned k s -> x ∈ pool_live (pool s)
}.

Lemma linv_remove k s s' x :
  linv k s -> owned k s ≡ₚ x :: owned k s' -> kinds s' = kinds s ->
  pool_release (pool s) x (pool s') -> linv k s'.
Proof.
  intros [Hk Hnd Hl] Hp Hks Hr. rewrite Hp in Hnd. apply NoDup_cons in Hnd as [Hn Hnd].
  split; [by rewrite Hks|done|]. intros y Hy.
  rewrite (pool_release_law _ x _ ltac:(apply Hl; rewrite Hp; set_solver) Hr).
  apply elem_of_difference. split; [apply Hl; rewrite Hp; set_solver|]. rewrite elem_of_singleton. by intros ->.
Qed.

Lemma linv_keep k s s' :
  linv k s -> owned k s' ≡ₚ owned k s -> kinds s' = kinds s -> pool s' = pool s -> linv k s'.
Proof.
  intros [Hk Hnd Hl] Hp Hks Hps. split; [by rewrite Hks|by rewrite Hp|].
  intros x Hx. rewrite Hps. apply Hl. by rewrite <- Hp.
Qed.

Lemma linv_step k s s' : linv k s -> lstep (eq k) s s' -> linv k s'.
Proof.
  intros Hi Hst. pose proof Hi as [Hk Hnd Hl].
  inversion Hst as [? ? x p' <- Hg|? x l1 l2 k' Hf Hk'|? x l1 l2 p' Ht Hc|? x l1 l2 p' Hr Hp]; subst.
  - destruct (pool_get_law _ _ _ Hg) as [Hx Hlive]. split; simpl.
    + intros y k' [[<- <-]|[_ Hy]]%lookup_insert_Some; [done|by eapply Hk].
    + constructor; [|done]. intros Hin. by apply Hx, Hl.
    + intros y [->|Hy]%elem_of_cons; rewrite Hlive; [set_solver|]. apply elem_of_union_r, Hl, Hy.
  - apply Hk in Hk' as ->. apply (linv_keep k s); try done. unfold owned. simpl. rewrite Hf.
    destruct k; simpl; rewrite ?app_nil_r; solve_Permutation.
  - unfold cb_tail in Hc. destruct (kinds s !! x) as [[]|] eqn:E; [subst p'| |done].
    + apply (linv_keep k s); try done. unfold owned. simpl. by specialize (Hk _ _ E) as <-.
    + apply (linv_remove k s _ x); try done. specialize (Hk _ _ E) as <-. unfold owned. simpl. rewrite Ht. solve_Permutation.
  - apply (linv_remove k s _ x); try done. unfold owned. simpl. rewrite Hr. solve_Permutation.
Qed.

Lemma linv_reachable k p s : rtc (lstep (eq k)) (fresh_life p) s -> linv k s.
Proof.
  assert (H0 : linv k (fresh_life p)).
  { split; unfold owned, fresh_life; simpl; [by intros x k' ?%lookup_empty_Some| |]; destruct (decide _); simpl; try constructor.
    all: by intros x ?%elem_of_nil. }
  intros Hr. induction Hr as [|s1 s2 s3 Hst _ IH]; [done|]. apply IH. by eapply linv_step.
Qed.

(** C28: In a program that submits requests of one kind only, with eventuals or
    with callbacks, every request object in flight or waiting for its waiter is
    handed out by the arena and no two of them are the same object, in every
    interleaving of submissions, completions and waiters. *)
Theorem one_kind_requests_safe k p s :
  rtc (lstep (eq k)) (fresh_life p) s ->
  NoDup (flying s ++ ready s) /\ (forall x, x ∈ flying s ++ ready s -> x ∈ pool_live (pool s)).
Proof.
  intros Hr. destruct (linv_reachable k p s Hr) as [_ Hnd Hl]. unfold owned in *. rewrite app_assoc in *.
  split; [by apply NoDup_app in Hnd as [? _]|]. intros x Hx. apply Hl. by apply elem_of_app; left.
Qed.

(** From any state with a completed request whose waiter has not run, the object
    can be reused by a callback request and released under it. *)
Lemma recycled_under allowed s x l1 l2 t1 t2 :
  allowed MARGO_REQ_CALLBACK -> ready s = l1 ++ x :: l2 -> tails s = t1 ++ x :: t2 ->
  x ∈ pool_live (pool s) ->
  exists s', rtc (lstep allowed) s s' /\ x ∈ flying s' /\ x ∉ pool_live (pool s').
Proof.
  intros Ha Hr Ht Hx. destruct (pool_release_total _ _ Hx) as (p1 & Hp1 & p2 & Hp2).
  pose proof (pool_get_law _ _ _ Hp2) as [_ Hl2].
  destruct (pool_release_total p2 x ltac:(rewrite Hl2; set_solver)) as (p3 & Hp3 & _).
  eexists. split; [|split].
  - eapply rtc_l; [by eapply l_wait|]. simpl. eapply rtc_l; [by eapply l_submit|]. simpl.
    apply rtc_once. eapply (l_tail _ _ x t1 t2 p3); [done|]. unfold cb_tail. simpl. by rewrite lookup_insert_eq.
  - simpl. set_solver.
  - simpl. rewrite (pool_release_law p2 x p3); [set_solver|rewrite Hl2; set_solver|done].
Qed.
End Life.

(** A program that mixes the two kinds can lose a request in flight: from
    any arena that has an object left, the waiter of a completed request gives
    the object back between the two tests of margo_cb, a callback request takes
    the same object, and the second test, seeing its kind, releases the object
    while the new operation is in flight, so that the arena will hand it out
    again. *)
Theorem request_recycled_in_flight (u u1 : used_arena) x :
  pool_get u x u1 ->
  exists s, rtc (lstep (fun _ => True)) (fresh_life u) s /\ x ∈ flying s /\ x ∉ pool_live (pool s).
Proof.
  intros Hg. pose proof (pool_get_law _ _ _ Hg) as [_ Hl].
  pose (s1 := Life u1 {[x := MARGO_REQ_EVENTUAL]} [] [x] [x]).
  destruct (recycled_under (fun _ => True) s1 x [] [] [] []) as (s & Hs & Hf); [done..| |].
  { simpl. change (x ∈ pool_live u1). rewrite Hl. set_solver. }
  exists s. split; [|done]. eapply rtc_l; [by apply (l_submit _ _ MARGO_REQ_EVENTUAL x u1)|].
  eapply rtc_l; [|exact Hs]. simpl.
  refine (l_complete (fun _ => True) (Life u1 (<[x := MARGO_REQ_EVENTUAL]> ∅) [x] [] []) x [] [] MARGO_REQ_EVENTUAL eq_refl _).
  simpl. by rewrite lookup_insert_eq.
Qed.

(** An arena just created, and its first object. *)
Lemma new_arena_wf : wf (Arena 16 2 0 0 ∅) [] [] [].
Proof. by apply (arena_wf_create 16 2). Qed.

Definition new_arena : used_arena := Used _ _ _ _ new_arena_wf.

Lemma new_arena_get : exists x u1, pool_get new_arena x u1.
Proof.
  destruct (get_spec _ _ _ _ 64 new_arena_wf) as [(_ & ? & _)|(x & a' & bl & fr & Hg & Hwf & _)]; [|done|].
  { right. split; [done|]. split; [by exists 8|constructor]. }
  exists x, (Used a' bl fr [x] Hwf). split; [|split; [done|exists 64; split; [|done]]].
  - assert (0 < x); [|lia]. eapply wf_live_nonzero; [exact Hwf|set_solver].
  - right. split; [done|]. split; [by exists 8|constructor].
Qed.

Lemma one_kind_requests_safe_witness :
  exists s : life (A := used_arena), flying s ≠ [] /\ NoDup (flying s ++ ready s).
Proof.
  destruct new_arena_get as (x & u1 & Hg).
  exists (Life u1 (<[x := MARGO_REQ_CALLBACK]> ∅) [x] [] []). split; [done|].
  apply (one_kind_requests_safe MARGO_REQ_CALLBACK new_arena). apply rtc_once.
  by apply (l_submit _ (fresh_life new_arena) MARGO_REQ_CALLBACK x u1).
Defined.

Lemma request_recycled_in_flight_witness :
  exists x (s : life (A := used_arena)),
    rtc (lstep (fun _ => True)) (fresh_life new_arena) s /\ x ∈ flying s /\ x ∉ pool_live (pool s).
Proof.
  destruct new_arena_get as (x & u1 & Hg). exists x. by apply (request_recycled_in_flight new_arena u1 x).
Defined.
