(* ===== verification/HandleCache.v ===== *)
(** * Handles and the handle cache (src/margo-handle-cache.c, src/margo-core.c)

    Margo keeps a list of Mercury handles created in advance; [margo_create]
    takes one from it and [margo_destroy] puts it back.  The data Margo attaches
    to such a handle points back to its element of the cache.  Mercury is a
    class of operations on an abstract state with the documented laws the code
    relies on; the free list is kept with the macros of [Utlist].  The theorems
    show that every element is either in the list or with the user, that a
    handle given back is as new, that the user's free callback runs once, and
    that a failed initialisation gives everything back. *)

From S2P Require Import Prelude Utlist.

#[local] Open Scope Z_scope.

(** ** Data *)

(** [margo_rpc_data], the fields copied to handles. *)
Record margo_rpc_data := Rpc_data {
  rd_mid : Z; rd_pool : Z; rd_rpc_name : Z; rd_in_proc_cb : Z; rd_out_proc_cb : Z
}.

(** [margo_handle_data]; callbacks, pools and names are numbers, 0 is NULL. *)
Record margo_handle_data := Handle_data {
  mid : Z; pool : Z; rpc_name : Z; in_proc_cb : Z; out_proc_cb : Z;
  user_data : Z; user_free_callback : Z;
  cache_el : option loc
}.

Definition zero_data : margo_handle_data := Handle_data 0 0 0 0 0 0 0 None.

Definition set_cache_el (el : option loc) (d : margo_handle_data) : margo_handle_data :=
  Handle_data (mid d) (pool d) (rpc_name d) (in_proc_cb d) (out_proc_cb d) (user_data d) (user_free_callback d) el.

(** ** Mercury's handles *)

(** [HG_Get_data] gives the data attached, [HG_Ref_get] the number of
    references (0: no such handle).  The functions that change the state return
    a code and the new state. *)
Class Mercury (H : Type) := {
  HG_Get_data : H -> Z -> option loc;
  HG_Ref_get : H -> Z -> Z;
  HG_Get_info_id : H -> Z -> option Z;
  HG_Registered_data : H -> Z -> option margo_rpc_data;
  HG_Create : H -> Z -> Z -> hg_return_t * Z * H;
  HG_Reset : H -> Z -> Z -> Z -> hg_return_t * H;
  HG_Set_data : H -> Z -> loc -> hg_return_t * H;
  HG_Destroy : H -> Z -> hg_return_t * H;
  HG_Create_law h a i x h' :
    HG_Create h a i = (HG_SUCCESS, x, h') ->
    HG_Ref_get h x = 0 /\ HG_Ref_get h' x = 1 /\ HG_Get_data h' x = None /\
    forall y, y ≠ x -> HG_Ref_get h' y = HG_Ref_get h y /\ HG_Get_data h' y = HG_Get_data h y;
  HG_Create_fail h a i c x h' :
    HG_Create h a i = (c, x, h') -> c ≠ HG_SUCCESS ->
    forall y, HG_Ref_get h' y = HG_Ref_get h y /\ HG_Get_data h' y = HG_Get_data h y;
  HG_Reset_law h x a i c h' :
    HG_Reset h x a i = (c, h') ->
    (c = HG_SUCCESS -> HG_Get_info_id h' x = Some i) /\
    (forall j, HG_Registered_data h' j = HG_Registered_data h j) /\
    forall y, HG_Ref_get h' y = HG_Ref_get h y /\ HG_Get_data h' y = HG_Get_data h y;
  HG_Set_data_law h x p c h' :
    HG_Set_data h x p = (c, h') ->
    HG_Get_data h' x = (if is_success c then Some p else HG_Get_data h x) /\
    (forall y, HG_Ref_get h' y = HG_Ref_get h y) /\
    (forall y, y ≠ x -> HG_Get_data h' y = HG_Get_data h y);
  HG_Destroy_law h x c h' :
    HG_Destroy h x = (c, h') -> 1 <= HG_Ref_get h x ->
    HG_Ref_get h' x = HG_Ref_get h x - 1 /\
    (2 <= HG_Ref_get h x -> HG_Get_data h' x = HG_Get_data h x) /\
    forall y, y ≠ x -> HG_Ref_get h' y = HG_Ref_get h y /\ HG_Get_data h' y = HG_Get_data h y
}.

(** What happens to the user's data and to memory. *)
Inductive event :=
  | UserFree (cb data : Z)
  | FreeEl (el : loc) | FreeData (p : loc) | ArenaRelease (p : loc).

#[export] Instance event_eq_dec : EqDecision event.
Proof. solve_decision. Defined.

Section Cache.
Context {H : Type} `{!Mercury H}.

(** [els] and [el_handle] are the two fields of the cache elements. *)
Record state := State {
  hg : H;
  els : gmap loc (option loc);
  el_handle : gmap loc Z;
  free_handle_list : option loc;
  datas : gmap loc margo_handle_data;
  events : list event
}.

Definition set_hg (h : H) (s : state) : state := State h (els s) (el_handle s) (free_handle_list s) (datas s) (events s).
Definition set_list (e : gmap loc (option loc)) (f : option loc) (s : state) : state :=
  State (hg s) e (el_handle s) f (datas s) (events s).
Definition set_datas (d : gmap loc margo_handle_data) (s : state) : state :=
  State (hg s) (els s) (el_handle s) (free_handle_list s) d (events s).
Definition emit (l : list event) (s : state) : state :=
  State (hg s) (els s) (el_handle s) (free_handle_list s) (datas s) (events s ++ l).

(** ** Handle data *)

Definition user_free (d : margo_handle_data) : list event :=
  if user_free_callback d =? 0 then [] else [UserFree (user_free_callback d) (user_data d)].

Definition __margo_handle_data_free (p : loc) (s : state) : option state :=
  d ← datas s !! p;
  Some (set_datas (delete p (datas s))
    (emit (user_free d ++ [if mid d =? 0 then FreeData p else ArenaRelease p]) s)).

(** [HG_Destroy], which calls [__margo_handle_data_free] on the data of a
    handle that loses its last reference. *)
Definition hg_destroy (x : Z) (s : state) : option (hg_return_t * state) :=
  let '(hret, h) := HG_Destroy (hg s) x in
  if HG_Ref_get (hg s) x =? 1 then
    match HG_Get_data (hg s) x with
    | Some p => s ← __margo_handle_data_free p (set_hg h s); Some (hret, s)
    | None => Some (hret, set_hg h s)
    end
  else Some (hret, set_hg h s).

(** [obj] is what the arena returns (NULL is undefined behaviour, as in the
    code, which does not test it). *)
Definition __margo_internal_set_handle_data (obj : option loc) (x : Z) (s : state) : option (hg_return_t * state) :=
  match HG_Get_info_id (hg s) x with
  | None => Some (HG_OTHER_ERROR, s)
  | Some id =>
      match HG_Registered_data (hg s) id with
      | None => Some (HG_OTHER_ERROR, s)
      | Some r =>
          let fill d := Handle_data (rd_mid r) (rd_pool r) (rd_rpc_name r) (rd_in_proc_cb r) (rd_out_proc_cb r)
                          (user_data d) (user_free_callback d) (cache_el d) in
          match HG_Get_data (hg s) x with
          | Some p => d ← datas s !! p; Some (HG_SUCCESS, set_datas (<[p := fill d]> (datas s)) s)
          | None =>
              p ← obj;
              let s := set_datas (<[p := fill zero_data]> (datas s)) s in
              let '(hret, h) := HG_Set_data (hg s) x p in Some (hret, set_hg h s)
          end
      end
  end.

Definition margo_get_data (x : Z) (s : state) : option Z :=
  match HG_Get_data (hg s) x with
  | None => Some 0
  | Some p => d ← datas s !! p; Some (user_data d)
  end.

Definition margo_set_data (x data free_callback : Z) (s : state) : option (hg_return_t * state) :=
  match HG_Get_data (hg s) x with
  | None => Some (HG_NO_MATCH, s)
  | Some p =>
      d ← datas s !! p;
      let s := emit (user_free d) s in
      Some (HG_SUCCESS, set_datas (<[p := Handle_data (mid d) (pool d) (rpc_name d) (in_proc_cb d) (out_proc_cb d)
                                            data free_callback (cache_el d)]> (datas s)) s)
  end.

(** ** The cache *)

(** The loop of [__margo_handle_cache_destroy]: [fuel] bounds the elements. *)
Fixpoint destroy_loop (fuel : nat) (el : option loc) (s : state) : option state :=
  match el with
  | None => Some s
  | Some e =>
      match fuel with
      | O => None
      | S fuel =>
          tmp ← els s !! e;
          '(σ, head) ← LL_DELETE (els s) (free_handle_list s) e;
          let s := set_list σ head s in
          x ← el_handle s !! e;
          '(_, s) ← hg_destroy x s;
          destroy_loop fuel tmp
            (State (hg s) (delete e (els s)) (delete e (el_handle s)) (free_handle_list s) (datas s)
               (events s ++ [FreeEl e]))
      end
  end.

Definition __margo_handle_cache_destroy (s : state) : option state :=
  destroy_loop (size (els s)) (free_handle_list s) s.

(** One [malloc] and one [calloc] result per element; the result also says
    whether the loop was left by [break]. *)
Fixpoint __margo_handle_cache_init (allocs : list (option loc * option loc)) (s : state)
    : option (hg_return_t * state) :=
  match allocs with
  | [] => Some (HG_SUCCESS, s)
  | (None, _) :: _ => s ← __margo_handle_cache_destroy s; Some (HG_NOMEM_ERROR, s)
  | (Some el, data) :: allocs =>
      let '(hret, x, h) := HG_Create (hg s) 0 0 in
      let s := set_hg h s in
      if negb (is_success hret) then s ← __margo_handle_cache_destroy s; Some (hret, s)
      else
        match data with
        | None =>
            '(_, s) ← hg_destroy x s;
            s ← __margo_handle_cache_destroy s; Some (HG_NOMEM_ERROR, s)
        | Some p =>
            let s := set_datas (<[p := set_cache_el (Some el) zero_data]> (datas s)) s in
            let '(hret, h) := HG_Set_data (hg s) x p in
            let s := set_hg h s in
            if negb (is_success hret) then
              let s := set_datas (delete p (datas s)) s in
              '(_, s) ← hg_destroy x s;
              s ← __margo_handle_cache_destroy s; Some (hret, s)
            else
              let s := State (hg s) (<[el := None]> (els s)) (<[el := x]> (el_handle s)) (free_handle_list s)
                         (datas s) (events s) in
              '(σ, head) ← LL_PREPEND (els s) (free_handle_list s) el;
              __margo_handle_cache_init allocs (set_list σ head s)
        end
  end.

Definition __margo_handle_cache_get (addr id : Z) (s : state) : option (hg_return_t * option Z * state) :=
  match free_handle_list s with
  | None => Some (HG_OTHER_ERROR, None, s)
  | Some el =>
      '(σ, head) ← LL_DELETE (els s) (free_handle_list s) el;
      let s := set_list σ head s in
      x ← el_handle s !! el;
      let '(hret, h) := HG_Reset (hg s) x addr id in
      let s := set_hg h s in
      if is_success hret then Some (hret, Some x, s)
      else
        '(σ, head) ← LL_PREPEND (els s) (free_handle_list s) el;
        Some (hret, None, set_list σ head s)
  end.

Definition __margo_handle_cache_put (x : Z) (s : state) : option (hg_return_t * state) :=
  match HG_Get_data (hg s) x with
  | None => Some (HG_OTHER_ERROR, s)
  | Some p =>
      d ← datas s !! p;
      match cache_el d with
      | None => Some (HG_OTHER_ERROR, s)
      | Some el =>
          let s := emit (user_free d) s in
          let s := set_datas (<[p := set_cache_el (Some el) zero_data]> (datas s)) s in
          '(σ, head) ← LL_PREPEND (els s) (free_handle_list s) el;
          Some (HG_SUCCESS, set_list σ head s)
      end
  end.

(** ** Creating and destroying handles *)

Definition margo_create (obj : option loc) (addr id : Z) (s : state) : option (hg_return_t * option Z * state) :=
  '(hret, handle, s) ← __margo_handle_cache_get addr id s;
  let '(hret, handle, s) :=
    if is_success hret then (hret, handle, s)
    else
      let '(hret, x, h) := HG_Create (hg s) addr id in
      (hret, if is_success hret then Some x else handle, set_hg h s) in
  match handle with
  | Some x =>
      if negb (is_success hret) then Some (hret, handle, s)
      else '(hret, s) ← __margo_internal_set_handle_data obj x s; Some (hret, handle, s)
  | None => Some (hret, handle, s)
  end.

Definition margo_hg_handle_get_instance (x : Z) (s : state) : option Z :=
  match HG_Get_data (hg s) x with
  | None => Some 0
  | Some p => d ← datas s !! p; Some (mid d)
  end.

Definition margo_destroy (handle : option Z) (s : state) : option (hg_return_t * state) :=
  match handle with
  | None => Some (HG_SUCCESS, s)
  | Some x =>
      if negb (HG_Ref_get (hg s) x =? 1) then hg_destroy x s
      else
        m ← margo_hg_handle_get_instance x s;
        if m =? 0 then Some (HG_OTHER_ERROR, s)
        else
          '(hret, s') ← __margo_handle_cache_put x s;
          if is_success hret then Some (hret, s') else hg_destroy x s
  end.

(** ** Invariant *)

(** An element of the cache, its handle and the data attached to it. *)
Definition entry_ok (s : state) (el : loc) (x : Z) (p : loc) (d : margo_handle_data) : Prop :=
  el_handle s !! el = Some x /\ 1 <= HG_Ref_get (hg s) x /\ HG_Get_data (hg s) x = Some p /\
  datas s !! p = Some d /\ cache_el d = Some el.

(** An element in the free list: its handle has one reference and fresh data. *)
Definition idle (s : state) (el : loc) : Prop :=
  exists x p, entry_ok s el x p (set_cache_el (Some el) zero_data) /\ HG_Ref_get (hg s) x = 1.

Definition in_use (s : state) (el : loc) : Prop := exists x p d, entry_ok s el x p d.

(** [free] are the elements in the list, [used] those with the user. *)
Record inv (s : state) (free used : list loc) : Prop := {
  inv_list : ll_repr (els s) (free_handle_list s) free;
  inv_NoDup : NoDup (free ++ used);
  inv_dom : dom (els s) = list_to_set (free ++ used);
  inv_free : Forall (idle s) free;
  inv_used : Forall (in_use s) used;
  inv_back p d el : datas s !! p = Some d -> cache_el d = Some el ->
    exists x, el_handle s !! el = Some x /\ HG_Get_data (hg s) x = Some p /\ 1 <= HG_Ref_get (hg s) x
}.

Lemma idle_in_use s el : idle s el -> in_use s el.
Proof. intros (x & p & He & _). by exists x, p, (set_cache_el (Some el) zero_data). Qed.

(** Two elements have different handles and different data. *)
Lemma entry_inj s el1 el2 x1 x2 p1 p2 d1 d2 :
  entry_ok s el1 x1 p1 d1 -> entry_ok s el2 x2 p2 d2 -> el1 ≠ el2 -> x1 ≠ x2 /\ p1 ≠ p2.
Proof.
  intros (_ & _ & Hg1 & Hd1 & Hc1) (_ & _ & Hg2 & Hd2 & Hc2) Hne.
  split; [intros ->|intros ->]; simplify_eq; congruence.
Qed.

(** Mercury states that agree on the handles of the first. *)
Definition same_hg (h h' : H) : Prop :=
  forall y, 1 <= HG_Ref_get h y -> HG_Ref_get h' y = HG_Ref_get h y /\ HG_Get_data h' y = HG_Get_data h y.

Lemma entry_ok_set_hg s h el x p d : same_hg (hg s) h -> entry_ok s el x p d -> entry_ok (set_hg h s) el x p d.
Proof. intros Hs (? & Hr & ?). unfold entry_ok. simpl. by destruct (Hs x Hr) as [-> ->]. Qed.

Lemma inv_set_hg s h free used : same_hg (hg s) h -> inv s free used -> inv (set_hg h s) free used.
Proof.
  intros Hs [Hl Hnd Hdom Hf Hu Hb]. split; try done; simpl.
  - eapply Forall_impl; [exact Hf|]. intros el (x & p & He & Hr). exists x, p. split; [by apply entry_ok_set_hg|].
    simpl. by rewrite (proj1 (Hs x ltac:(lia))).
  - eapply Forall_impl; [exact Hu|]. intros el (x & p & d & He). exists x, p, d. by apply entry_ok_set_hg.
  - intros p d el Hd Hc. destruct (Hb p d el Hd Hc) as (x & ? & ? & Hr). exists x. by destruct (Hs x Hr) as [-> ->].
Qed.

(** Changing the list only. *)
Lemma inv_set_list s σ head free used free' used' :
  inv s free used -> ll_repr σ head free' -> dom σ = dom (els s) -> NoDup (free' ++ used') ->
  list_to_set (free' ++ used') =@{gset loc} list_to_set (free ++ used) ->
  Forall (idle s) free' -> Forall (in_use s) used' -> inv (set_list σ head s) free' used'.
Proof.
  intros [Hl Hnd Hdom Hf Hu Hb] Hl' Hσ Hnd' Hset Hf' Hu'. split; try done; simpl. by rewrite Hσ, Hdom, Hset.
Qed.

(** ** The operations on the list *)

Lemma ll_repr_dom σ head l x : ll_repr σ head l -> x ∈ l -> is_Some (σ !! x).
Proof.
  intros [_ Hs]. revert head Hs. induction l as [|y l IH]; intros head; simpl; [by intros _ ?%elem_of_nil|].
  intros (_ & n & Hn & Hl) [->|Hx]%elem_of_cons; [by exists n|by eapply IH].
Qed.

Lemma LL_PREPEND_dom σ head l add :
  ll_repr σ head l -> add ∉ l -> add ∈ dom σ ->
  exists σ', LL_PREPEND σ head add = Some (σ', Some add) /\ ll_repr σ' (Some add) (add :: l) /\ dom σ' = dom σ.
Proof.
  intros Hl Hn Hd. destruct (LL_PREPEND_spec σ head l add Hl Hn ltac:(by apply elem_of_dom)) as (σ' & Hp & Hl').
  exists σ'. split_and!; [done|done|]. unfold LL_PREPEND in Hp. apply elem_of_dom in Hd as [v Hv].
  rewrite Hv in Hp. simpl in Hp. simplify_eq. rewrite dom_insert_L. apply elem_of_dom_2 in Hv. set_solver.
Qed.

(** What getting a handle does. *)
Lemma cache_get_spec s free used addr id :
  inv s free used ->
  match free with
  | [] => __margo_handle_cache_get addr id s = Some (HG_OTHER_ERROR, None, s)
  | el :: rest => exists x p h,
      entry_ok s el x p (set_cache_el (Some el) zero_data) /\
      HG_Reset (hg s) x addr id = h /\
      exists s', __margo_handle_cache_get addr id s =
        Some (h.1, if is_success h.1 then Some x else None, s') /\
        datas s' = datas s /\ events s' = events s /\ el_handle s' = el_handle s /\ hg s' = h.2 /\
        if is_success h.1 then inv s' rest (el :: used) else inv s' free used
  end.
Proof.
  intros Hi. pose proof Hi as [Hl Hnd Hdom Hf Hu Hb]. unfold __margo_handle_cache_get.
  destruct free as [|el rest]; simpl in *.
  { destruct Hl as [_ Hl]. simpl in Hl. by rewrite Hl. }
  apply Forall_cons in Hf as [(x & p & He & Hr) Hf]. exists x, p.
  destruct (HG_Reset (hg s) x addr id) as [c h] eqn:Ereset. exists (c, h). split; [done|]. split; [done|].
  assert (Hhd : free_handle_list s = Some el) by (by destruct Hl as [_ [? _]]). rewrite Hhd in *.
  destruct (LL_DELETE_head_spec _ _ _ Hl) as (head' & -> & Hl'). simpl.
  rewrite (proj1 He). simpl. rewrite Ereset.
  assert (Hsame : same_hg (hg s) h) by (by intros y _; destruct (HG_Reset_law _ _ _ _ _ _ Ereset) as (_ & _ & Hs)).
  assert (Hin : el ∈ dom (els s)) by (rewrite Hdom; set_solver).
  apply NoDup_cons in Hnd as [Hn Hnd].
  destruct (is_success c) eqn:Ec.
  - eexists. split; [done|]. split_and!; try done. simpl.
    change (inv (set_list (els s) head' (set_hg h s)) rest (el :: used)).
    apply (inv_set_list _ _ _ (el :: rest) used); [by apply inv_set_hg|done|done| | | |].
    + rewrite <- Permutation_middle. by constructor.
    + apply set_eq. intros y. rewrite !elem_of_list_to_set. set_solver.
    + by apply (inv_set_hg _ _ _ _ Hsame) in Hi as [? _ _ [_ ?]%Forall_cons _ _].
    + constructor; [|by apply (inv_set_hg _ _ _ _ Hsame) in Hi as []].
      exists x, p, (set_cache_el (Some el) zero_data). by apply entry_ok_set_hg.
  - destruct (LL_PREPEND_dom _ _ _ el Hl' ltac:(set_solver) Hin) as (σ' & Hp & Hl'' & Hdom').
    simpl. rewrite Hp. simpl. eexists. split; [done|]. split_and!; try done.
    change (inv (set_list σ' (Some el) (set_hg h s)) (el :: rest) used).
    pose proof (inv_set_hg _ _ _ _ Hsame Hi) as Hi'.
    apply (inv_set_list _ _ _ (el :: rest) used); try done; [by constructor|apply Hi'|apply Hi'].
Qed.

(** Replacing the data of one element by data that points to it as well. *)
Lemma inv_set_data s free used el x p d d' :
  inv s free used -> entry_ok s el x p d -> el ∉ free -> cache_el d' = Some el ->
  inv (set_datas (<[p := d']> (datas s)) s) free used.
Proof.
  intros [Hl Hnd Hdom Hf Hu Hb] He Hn Hc.
  assert (Hother : forall el' x' p' e, el' ≠ el -> entry_ok s el' x' p' e ->
    entry_ok (set_datas (<[p := d']> (datas s)) s) el' x' p' e).
  { intros el' x' p' e Hne He'. destruct (entry_inj _ _ _ _ _ _ _ _ _ He' He Hne) as [_ Hp].
    destruct He' as (? & ? & ? & ? & ?). unfold entry_ok. simpl. by rewrite lookup_insert_ne. }
  split; try done; simpl.
  - rewrite Forall_forall in *. intros el' Hel'. destruct (Hf el' Hel') as (x' & p' & He' & Hr).
    exists x', p'. split; [|done]. apply Hother; [by intros ->|done].
  - rewrite Forall_forall in *. intros el' Hel'. destruct (Hu el' Hel') as (x' & p' & e & He').
    destruct (decide (el' = el)) as [->|Hne].
    + exists x, p, d'. destruct He as (? & ? & ? & ? & ?). unfold entry_ok. simpl. by rewrite lookup_insert_eq.
    + exists x', p', e. by apply Hother.
  - intros q e el' [[<- <-]|[_ Hq]]%lookup_insert_Some Hc'; [|by eapply Hb].
    rewrite Hc in Hc'. simplify_eq. exists x. by destruct He as (? & ? & ? & _).
Qed.

Lemma cache_put_spec s free u1 el u2 x p d :
  inv s free (u1 ++ el :: u2) -> entry_ok s el x p d -> HG_Ref_get (hg s) x = 1 ->
  exists s', __margo_handle_cache_put x s = Some (HG_SUCCESS, s') /\ inv s' (el :: free) (u1 ++ u2) /\
    events s' = events s ++ user_free d /\ hg s' = hg s /\ el_handle s' = el_handle s.
Proof.
  intros Hi He Hr. pose proof Hi as [Hl Hnd Hdom Hf Hu Hb].
  assert (Hnd' : NoDup (el :: free ++ u1 ++ u2)).
  { rewrite app_assoc, (Permutation_middle (free ++ u1)), <- app_assoc. done. }
  pose proof Hnd' as [Hn _]%NoDup_cons. assert (Hnf : el ∉ free) by set_solver.
  pose proof (inv_set_data _ _ _ _ _ _ _ (set_cache_el (Some el) zero_data) Hi He Hnf eq_refl) as Hi'.
  set (s1 := set_datas (<[p := set_cache_el (Some el) zero_data]> (datas s)) (emit (user_free d) s)).
  assert (Hi1 : inv s1 free (u1 ++ el :: u2)) by (destruct Hi'; by split).
  destruct (LL_PREPEND_dom _ _ _ el Hl Hnf) as (σ' & Hp & Hl' & Hdom'); [rewrite Hdom; set_solver|].
  destruct He as (Hx & Hx1 & Hg & Hd & Hc).
  unfold __margo_handle_cache_put. rewrite Hg, Hd. simpl. rewrite Hc. fold s1. simpl. rewrite Hp. simpl.
  eexists. split; [done|]. split; [|done].
  assert (He1 : idle s1 el).
  { exists x, p. split; [|done]. unfold entry_ok. simpl. by rewrite lookup_insert_eq. }
  apply (inv_set_list s1 _ _ free (u1 ++ el :: u2)); try done.
  - apply set_eq. intros y. rewrite !elem_of_list_to_set. set_solver.
  - constructor; [done|apply Hi1].
  - pose proof (inv_used _ _ _ Hi1) as Hu1. rewrite Forall_app, Forall_cons in Hu1. apply Forall_app. tauto.
Qed.

(** ** Destroying the cache *)

Lemma ll_seg_delete σ x l : forall head, x ∉ l -> ll_seg σ head l -> ll_seg (delete x σ) head l.
Proof.
  induction l as [|y l IH]; intros head Hx; simpl; [done|]. apply not_elem_of_cons in Hx as [? ?].
  intros (-> & n & Hn & Hl). split; [done|]. exists n. split; [by rewrite lookup_delete_ne|by apply IH].
Qed.

(** The state after an idle element [el] with handle [x] and data [p] is gone. *)
Definition drop (h : H) (head : option loc) (el : loc) (p : loc) (s : state) : state :=
  State h (delete el (els s)) (delete el (el_handle s)) head (delete p (datas s))
    (events s ++ [FreeData p; FreeEl el]).

Lemma inv_drop s el rest used x p c h head :
  inv s (el :: rest) used -> entry_ok s el x p (set_cache_el (Some el) zero_data) -> HG_Ref_get (hg s) x = 1 ->
  HG_Destroy (hg s) x = (c, h) -> ll_repr (els s) head rest -> inv (drop h head el p s) rest used.
Proof.
  intros [Hl Hnd Hdom Hf Hu Hb] He Hr Hd [Hnd2 Hseg]. simpl in *.
  destruct (HG_Destroy_law _ _ _ _ Hd ltac:(lia)) as (_ & _ & Hfr).
  apply NoDup_cons in Hnd as [Hn Hnd]. apply Forall_cons in Hf as [_ Hf].
  assert (Hother : forall el' x' p' e, el' ≠ el -> entry_ok s el' x' p' e ->
    entry_ok (drop h head el p s) el' x' p' e /\ HG_Ref_get h x' = HG_Ref_get (hg s) x').
  { intros el' x' p' e Hne He'. destruct (entry_inj _ _ _ _ _ _ _ _ _ He' He Hne) as [Hx Hp].
    destruct (Hfr x' Hx) as [Hr' Hg']. destruct He' as (? & ? & ? & ? & ?). unfold entry_ok. simpl.
    rewrite Hr', Hg', !lookup_delete_ne by done. done. }
  split; simpl; try done.
  - split; [done|]. apply ll_seg_delete; [set_solver|done].
  - rewrite dom_delete_L, Hdom. apply set_eq. intros y. rewrite elem_of_difference, elem_of_singleton, !elem_of_list_to_set. set_solver.
  - rewrite Forall_forall in *. intros el' Hel'. destruct (Hf el' Hel') as (x' & p' & He' & Hr').
    exists x', p'. destruct (Hother el' x' p' _ ltac:(set_solver) He') as [? ?]. split; [done|]. simpl. congruence.
  - rewrite Forall_forall in *. intros el' Hel'. destruct (Hu el' Hel') as (x' & p' & e & He').
    exists x', p', e. apply Hother; [set_solver|done].
  - intros q e el' [Hpq Hq]%lookup_delete_Some Hc'. destruct (Hb q e el' Hq Hc') as (x' & Hx' & Hg' & Hr').
    destruct He as (Hx & _ & Hg & _). assert (x' ≠ x) by congruence. exists x'. rewrite lookup_delete_ne by congruence.
    split; [done|]. by destruct (Hfr x' ltac:(done)) as [-> ->].
Qed.

(** The data of the free elements, in order. *)
Definition frees (s : state) (el : loc) : list event :=
  match el_handle s !! el ≫= HG_Get_data (hg s) with Some p => [FreeData p; FreeEl el] | None => [] end.

Lemma destroy_loop_inv fuel : forall s free used,
  inv s free used -> (length free <= fuel)%nat ->
  exists s', destroy_loop fuel (free_handle_list s) s = Some s' /\ inv s' [] used /\
    events s' = events s ++ concat (map (frees s) free) /\
    (forall q d, datas s' !! q = Some d <-> datas s !! q = Some d /\ forall el, cache_el d = Some el -> el ∉ free).
Proof.
  induction fuel as [|fuel IH]; intros s [|el rest] used Hi Hlen; simpl in Hlen; try lia.
  1,2: pose proof (inv_list _ _ _ Hi) as [_ Hl]; simpl in Hl; rewrite Hl; exists s; simpl; rewrite app_nil_r;
    split_and!; [done|done|done|intros q d; split; [intros; split; [done|by intros el _ ?%elem_of_nil]|tauto]].
  pose proof Hi as [Hl Hnd Hdom Hf Hu Hb]. apply Forall_cons in Hf as [(x & p & He & Hr) Hf].
  assert (Hhd : free_handle_list s = Some el) by (by destruct Hl as [_ [? _]]).
  destruct (HG_Destroy (hg s) x) as [c h] eqn:Ed.
  destruct (LL_DELETE_head_spec (els s) el rest ltac:(by rewrite <- Hhd)) as (head' & Hdel & Hl').
  pose proof (inv_drop _ _ _ _ _ _ _ _ _ Hi He Hr Ed Hl') as Hi'.
  destruct (IH _ _ _ Hi' ltac:(lia)) as (s' & Hs' & Hinv' & Hev & Hdat).
  assert (Hloop : destroy_loop (S fuel) (free_handle_list s) s = Some s').
  { rewrite Hhd. cbn [destroy_loop]. destruct Hl as [_ (_ & n & Hn & Hseg)]. rewrite Hn. simpl.
    rewrite Hhd, Hdel. simpl. destruct He as (Hx & _ & Hg & Hd & _). rewrite Hx. simpl.
    unfold hg_destroy. simpl. rewrite Ed, Hr. simpl. rewrite Hg. unfold __margo_handle_data_free. simpl.
    rewrite Hd. simpl. rewrite <- Hs'. simpl. f_equal; [|unfold drop; simpl; by rewrite <- app_assoc].
    destruct Hl' as [_ Hl']. clear -Hl' Hseg. destruct rest; simpl in *; [congruence|].
    destruct Hl' as [-> _], Hseg as [-> _]. done. }
  exists s'. split; [done|]. split; [done|]. pose proof He as (Hx & _ & Hg & Hd & Hc). split.
  - rewrite Hev. simpl. rewrite <- app_assoc. f_equal. unfold frees at 2. rewrite Hx. simpl. rewrite Hg. simpl.
    do 2 f_equal. f_equal. apply map_ext_in. intros el' Hel'%list_elem_of_In. unfold frees. simpl.
    apply NoDup_cons in Hnd as [Hn Hnd]. rewrite lookup_delete_ne by set_solver. rewrite Forall_forall in Hf.
    destruct (Hf el' Hel') as (x' & p' & He' & _). pose proof He' as (Hx' & _).
    destruct (entry_inj _ _ _ _ _ _ _ _ _ He' He ltac:(set_solver)) as [Hxx _].
    rewrite Hx'. simpl. destruct (HG_Destroy_law _ _ _ _ Ed ltac:(lia)) as (_ & _ & Hfr). by rewrite (proj2 (Hfr x' Hxx)).
  - intros q d. rewrite Hdat. simpl. rewrite lookup_delete_Some. split.
    + intros [[Hpq Hq] Hr']. split; [done|]. intros el' Hc'. apply not_elem_of_cons. split; [|by apply Hr'].
      intros ->. destruct (Hb q d el Hq Hc') as (x' & Hx' & Hg' & _). congruence.
    + intros [Hq Hr']. split; [split; [|done]|].
      * intros ->. apply (Hr' el); [|set_solver]. congruence.
      * intros el' Hc' Hin. apply (Hr' el' Hc'). set_solver.
Qed.

Lemma cache_destroy_spec s free used :
  inv s free used ->
  exists s', __margo_handle_cache_destroy s = Some s' /\ inv s' [] used /\
    events s' = events s ++ concat (map (frees s) free) /\
    (forall q d, datas s' !! q = Some d <-> datas s !! q = Some d /\ forall el, cache_el d = Some el -> el ∉ free).
Proof.
  intros Hi. apply destroy_loop_inv; [done|]. destruct Hi as [_ Hnd Hdom _ _ _].
  apply length_le_size; [by apply NoDup_app in Hnd as [? _]|]. intros x Hx. apply elem_of_dom. rewrite Hdom. set_solver.
Qed.

(** ** Initialising the cache *)

(** A new handle changes nothing for the handles there were, with or without
    data, and neither does its destruction. *)
Lemma create_same h a i x h1 : HG_Create h a i = (HG_SUCCESS, x, h1) -> same_hg h h1.
Proof. intros (Hx & _ & _ & Hf)%HG_Create_law y Hy. apply Hf. intros ->. lia. Qed.

Lemma create_set_same h a i x h1 p c h2 :
  HG_Create h a i = (HG_SUCCESS, x, h1) -> HG_Set_data h1 x p = (c, h2) -> same_hg h h2.
Proof.
  intros Hc Hs y Hy. destruct (create_same _ _ _ _ _ Hc y Hy) as [<- <-].
  apply HG_Create_law in Hc as (Hx & _). apply HG_Set_data_law in Hs as (_ & Hr & Hd).
  split; [apply Hr|]. apply Hd. intros ->. lia.
Qed.

Lemma destroy_same h x c h' h0 :
  HG_Ref_get h0 x = 0 -> same_hg h0 h -> HG_Ref_get h x = 1 -> HG_Destroy h x = (c, h') -> same_hg h0 h'.
Proof.
  intros H0 Hs Hr Hd y Hy. destruct (Hs y Hy) as [<- <-].
  destruct (HG_Destroy_law _ _ _ _ Hd ltac:(lia)) as (_ & _ & Hf). apply Hf. intros ->. lia.
Qed.

Lemma inv_add s free used x h el p :
  inv s free used -> same_hg (hg s) h -> HG_Ref_get (hg s) x = 0 -> HG_Ref_get h x = 1 -> HG_Get_data h x = Some p ->
  el ∉ dom (els s) -> datas s !! p = None ->
  (forall q d, datas s !! q = Some d -> cache_el d ≠ Some el) ->
  exists σ, LL_PREPEND (<[el := None]> (els s)) (free_handle_list s) el = Some (σ, Some el) /\
    inv (State h σ (<[el := x]> (el_handle s)) (Some el)
           (<[p := set_cache_el (Some el) zero_data]> (datas s)) (events s)) (el :: free) used.
Proof.
  intros [Hl Hnd Hdom Hf Hu Hb] Hs Hx0 Hx1 Hg Hel Hp Hback.
  assert (Hn : el ∉ free ++ used) by (rewrite Hdom in Hel; by rewrite elem_of_list_to_set in Hel).
  destruct (LL_PREPEND_dom (<[el := None]> (els s)) (free_handle_list s) free el) as (σ & Hpre & Hl' & Hdom').
  { destruct Hl as [? ?]. split; [done|]. rewrite ll_seg_frame; [done|set_solver]. }
  { set_solver. } { rewrite dom_insert_L. set_solver. }
  exists σ. split; [done|].
  assert (Hother : forall el' x' p' e, el' ≠ el -> entry_ok s el' x' p' e ->
    entry_ok (State h σ (<[el := x]> (el_handle s)) (Some el)
           (<[p := set_cache_el (Some el) zero_data]> (datas s)) (events s)) el' x' p' e).
  { intros el' x' p' e Hne (? & Hr' & Hg' & Hd' & ?). unfold entry_ok. simpl.
    destruct (Hs x' Hr') as [-> ->]. rewrite lookup_insert_ne by done. by rewrite lookup_insert_ne by congruence. }
  split; simpl; try done.
  - by constructor.
  - rewrite Hdom', dom_insert_L, Hdom. done.
  - constructor.
    + exists x, p. split; [|done]. unfold entry_ok. simpl. rewrite !lookup_insert_eq. split_and!; try done; lia.
    + rewrite Forall_forall in *. intros el' Hel'. destruct (Hf el' Hel') as (x' & p' & He' & Hr').
      exists x', p'. split; [apply Hother; [set_solver|done]|]. simpl. by rewrite (proj1 (Hs x' ltac:(lia))).
  - rewrite Forall_forall in *. intros el' Hel'. destruct (Hu el' Hel') as (x' & p' & e & He').
    exists x', p', e. apply Hother; [set_solver|done].
  - intros q e el' [[<- <-]|[Hq Hqe]]%lookup_insert_Some Hc'.
    + simpl in Hc'. simplify_eq. exists x. rewrite lookup_insert_eq. split_and!; [done|done|lia].
    + destruct (Hb q e el' Hqe Hc') as (x' & Hx' & Hg' & Hr'). exists x'. destruct (Hs x' Hr') as [-> ->].
      rewrite lookup_insert_ne; [done|]. intros ->. by apply (Hback q e).
Qed.

(** All data belong to elements of the list. *)
Definition cached_only (s : state) (free : list loc) : Prop :=
  forall q d, datas s !! q = Some d -> exists el, cache_el d = Some el /\ el ∈ free.

(** Giving up: the list is destroyed and nothing is left. *)
Lemma init_fails s free h :
  inv s free [] -> cached_only s free -> same_hg (hg s) h ->
  exists s', __margo_handle_cache_destroy (set_hg h s) = Some s' /\ inv s' [] [] /\ datas s' = ∅ /\ els s' = ∅.
Proof.
  intros Hi Hc Hs. destruct (cache_destroy_spec _ _ _ (inv_set_hg _ _ _ _ Hs Hi)) as (s' & Hd & Hi' & _ & Hdat).
  exists s'. split_and!; [done|done| |].
  - apply map_empty. intros q. destruct (datas s' !! q) as [d|] eqn:E; [|done]. apply Hdat in E as [Hq Hn].
    destruct (Hc q d Hq) as (el & Hel & Hin). by destruct (Hn el Hel Hin).
  - apply dom_empty_inv_L. by rewrite (inv_dom _ _ _ Hi').
Qed.

Lemma init_spec allocs : forall s free,
  inv s free [] -> cached_only s free ->
  NoDup (omap fst allocs) -> NoDup (omap snd allocs) ->
  (forall el, el ∈ omap fst allocs -> el ∉ dom (els s)) ->
  (forall p, p ∈ omap snd allocs -> datas s !! p = None) ->
  exists hret s', __margo_handle_cache_init allocs s = Some (hret, s') /\
    if is_success hret
    then exists free', inv s' free' [] /\ length free' = (length free + length allocs)%nat
    else inv s' [] [] /\ datas s' = ∅ /\ els s' = ∅.
Proof.
  induction allocs as [|[[el|] data] allocs IH]; intros s free Hi Hc Hnd1 Hnd2 Hf1 Hf2; cbn [__margo_handle_cache_init].
  { eexists _, s. split; [done|]. exists free. simpl. split; [done|lia]. }
  2:{ destruct (init_fails s free (hg s) Hi Hc ltac:(by intros y _)) as (s' & Hd & Hr).
      replace (set_hg (hg s) s) with s in Hd by (by destruct s). rewrite Hd. simpl. by eexists _, s'. }
  destruct (HG_Create (hg s) 0 0) as [[c x] h] eqn:Ec. destruct (is_success c) eqn:Es; simpl negb; cbv iota.
  2:{ assert (Hsame : same_hg (hg s) h) by (intros y _; eapply HG_Create_fail; [exact Ec|by apply is_success_false]).
      destruct (init_fails s free h Hi Hc Hsame) as (s' & -> & Hr). simpl. eexists _, s'. split; [done|]. by rewrite Es. }
  apply is_success_true in Es as ->. pose proof (create_same _ _ _ _ _ Ec) as Hsame.
  pose proof (HG_Create_law _ _ _ _ _ Ec) as (Hx0 & Hx1 & Hxd & _).
  assert (Hdestroy : forall h1 (s1 : state), same_hg (hg s) h1 -> HG_Ref_get h1 x = 1 -> HG_Get_data h1 x = None ->
    exists c h2, hg_destroy x (set_hg h1 s) = Some (c, set_hg h2 s) /\ same_hg (hg s) h2).
  { intros h1 _ Hs1 Hr1 Hd1. unfold hg_destroy. simpl. destruct (HG_Destroy h1 x) as [c h2] eqn:Ed.
    rewrite Hr1, Hd1. exists c, h2. split; [done|by eapply destroy_same]. }
  destruct data as [p|].
  2:{ destruct (Hdestroy h s Hsame Hx1 Hxd) as (c & h2 & -> & Hs2). simpl.
      destruct (init_fails s free h2 Hi Hc Hs2) as (s' & -> & Hr). simpl. by eexists _, s'. }
  simpl in Hnd1, Hnd2, Hf1, Hf2. apply NoDup_cons in Hnd1 as [Hn1 Hnd1], Hnd2 as [Hn2 Hnd2].
  simpl. destruct (HG_Set_data h x p) as [c h2] eqn:Esd.
  pose proof (create_set_same _ _ _ _ _ _ _ _ Ec Esd) as Hsame2.
  pose proof (HG_Set_data_law _ _ _ _ _ Esd) as (Hgd & Hrd & _).
  assert (Hp : datas s !! p = None) by (apply Hf2; set_solver).
  destruct (is_success c) eqn:Es; simpl.
  - destruct (inv_add s free [] x h2 el p Hi Hsame2 Hx0) as (σ & Hpre & Hi').
    { by rewrite Hrd. } { done. } { apply Hf1. set_solver. } { done. }
    { intros q d Hq He. destruct (Hc q d Hq) as (el' & He' & Hin). assert (el' = el) as -> by congruence.
      apply (Hf1 el); [set_solver|]. rewrite (inv_dom _ _ _ Hi). set_solver. }
    rewrite Hpre. simpl.
    destruct (IH _ (el :: free) Hi') as (hret & s' & Heq & Hr); [| | | | |exists hret, s'; split; [exact Heq|]].
    + intros q d. simpl. intros [[<- <-]|[_ Hq]]%lookup_insert_Some; [exists el; set_solver|].
      destruct (Hc q d Hq) as (el' & ? & ?). exists el'. set_solver.
    + done.
    + done.
    + intros el' Hel'. rewrite (inv_dom _ _ _ Hi'). pose proof (inv_dom _ _ _ Hi) as Hdom.
      rewrite app_nil_r in *. intros [->|Hin]%elem_of_list_to_set%elem_of_cons; [done|].
      apply (Hf1 el'); [set_solver|]. rewrite Hdom. by apply elem_of_list_to_set.
    + intros q Hq. simpl. rewrite lookup_insert_ne; [apply Hf2; set_solver|]. by intros ->.
    + destruct (is_success hret); [|done]. destruct Hr as (free' & ? & ?). exists free'. simpl in *. split; [done|lia].
  - assert (Hback : set_datas (delete p (<[p := set_cache_el (Some el) zero_data]> (datas s)))
       (set_hg h2 (set_datas (<[p := set_cache_el (Some el) zero_data]> (datas s)) (set_hg h s))) = set_hg h2 s).
    { unfold set_datas, set_hg. simpl. by rewrite delete_insert_id. }
    unfold set_datas, set_hg in *. simpl in *. rewrite Hback.
    destruct (Hdestroy h2 s Hsame2) as (c' & h3 & -> & Hs3); [by rewrite Hrd|by rewrite Hgd|]. simpl.
    destruct (init_fails s free h3 Hi Hc Hs3) as (s' & Hd & Hr). unfold set_hg in Hd. rewrite Hd. simpl.
    eexists _, s'. split; [done|]. by rewrite Es.
Qed.

(** ** Claims *)

Lemma idle_ref s el rest used x :
  inv s (el :: rest) used -> el_handle s !! el = Some x -> HG_Ref_get (hg s) x = 1.
Proof. intros [_ _ _ [(x2 & p2 & (? & _) & ?) _]%Forall_cons _ _] Hx. by simplify_eq. Qed.

(** What the data of a handle becomes when it is created for an RPC. *)
Definition filled (r : margo_rpc_data) (el : option loc) : margo_handle_data :=
  Handle_data (rd_mid r) (rd_pool r) (rd_rpc_name r) (rd_in_proc_cb r) (rd_out_proc_cb r) 0 0 el.

(** Initialising the cache of an instance either fills it with the number
    of elements asked for, each with a handle of its own that has one reference
    and fresh data pointing back to the element, or returns an error, in which
    case every element, handle and data created so far has been given back. *)
Theorem cache_init_correct allocs h :
  NoDup (omap fst allocs) -> NoDup (omap snd allocs) ->
  exists hret s, __margo_handle_cache_init allocs (State h ∅ ∅ None ∅ []) = Some (hret, s) /\
    if is_success hret
    then exists free, inv s free [] /\ length free = length allocs
    else inv s [] [] /\ datas s = ∅ /\ els s = ∅.
Proof.
  intros Hn1 Hn2.
  assert (Hi : inv (State h ∅ ∅ None ∅ []) [] []).
  { split; simpl; try done; [by split; [constructor|]|constructor|constructor..]. }
  destruct (init_spec allocs _ [] Hi) as (hret & s & Heq & Hr); try done.
  by exists hret, s.
Qed.

(** C13: With an element in the cache, creating a handle for a registered RPC
    takes the first element when Mercury can reset its handle: the handle has
    the data of the RPC and nothing of its previous user, the element is with the
    user, and no callback runs.  Destroying the only reference of a handle that
    came from the cache never destroys it: its element goes back to the head of
    the list with fresh data, and the user's free callback has run exactly once
    if there was one. *)
Theorem create_destroy_recycles s free used obj addr id :
  inv s free used ->
  (forall el rest x r, free = el :: rest -> el_handle s !! el = Some x ->
     (HG_Reset (hg s) x addr id).1 = HG_SUCCESS -> HG_Registered_data (hg s) id = Some r ->
     exists s' p, margo_create obj addr id s = Some (HG_SUCCESS, Some x, s') /\ inv s' rest (el :: used) /\
       HG_Get_data (hg s') x = Some p /\ datas s' !! p = Some (filled r (Some el)) /\ events s' = events s) /\
  (forall u1 el u2 x p d, used = u1 ++ el :: u2 -> entry_ok s el x p d -> HG_Ref_get (hg s) x = 1 -> mid d ≠ 0 ->
     exists s', margo_destroy (Some x) s = Some (HG_SUCCESS, s') /\ inv s' (el :: free) (u1 ++ u2) /\
       events s' = events s ++ user_free d /\ hg s' = hg s).
Proof.
  intros Hi. split.
  - intros el rest x r -> Hx Hreset Hreg.
    destruct (cache_get_spec s _ _ addr id Hi) as (x' & p & [c h] & He & Hh & s1 & Hget & Hdat & Hev & Hel & Hhg & Hi1).
    assert (x' = x) as -> by (destruct He as (? & _); congruence). simpl in *.
    rewrite Hh in Hreset. simpl in Hreset. subst c. simpl in *. unfold margo_create. rewrite Hget. simpl.
    destruct (HG_Reset_law _ _ _ _ _ _ Hh) as (Hid & Hregs & Hs). destruct He as (_ & _ & Hg & Hd & Hc).
    unfold __margo_internal_set_handle_data. rewrite Hhg, (Hid eq_refl), Hregs, Hreg, (proj2 (Hs x)), Hg, Hdat, Hd. simpl.
    eexists _, p. split; [done|]. simpl. rewrite Hhg, (proj2 (Hs x)), lookup_insert_eq. split_and!; try done.
    rewrite <- Hdat. eapply (inv_set_data _ _ _ el x p); [done| | |done].
    + unfold entry_ok. rewrite Hhg, Hel, Hdat, (proj2 (Hs x)), (proj1 (Hs x)).
      rewrite (idle_ref _ _ _ _ _ Hi Hx). done.
    + pose proof (inv_NoDup _ _ _ Hi) as [Hn _]%NoDup_cons. set_solver.
  - intros u1 el u2 x p d -> He Hr Hmid.
    destruct (cache_put_spec s free u1 el u2 x p d Hi He Hr) as (s' & Hput & Hi' & Hev & Hhg & _).
    exists s'. unfold margo_destroy, margo_hg_handle_get_instance. rewrite Hr. simpl.
    destruct He as (_ & _ & Hg & Hd & _). rewrite Hg, Hd. simpl. rewrite (proj2 (Z.eqb_neq _ _) Hmid), Hput. done.
Qed.

(** When Mercury knows the RPC id but Margo has no data for it, creating a
    handle from the cache fails after the element was taken out of the list: the
    element is lost, and destroying the handle does nothing, because the data of
    the handle has no instance yet. *)
Theorem failed_create_loses_element s el rest used x obj addr id :
  inv s (el :: rest) used -> el_handle s !! el = Some x ->
  (HG_Reset (hg s) x addr id).1 = HG_SUCCESS -> HG_Registered_data (hg s) id = None ->
  exists s', margo_create obj addr id s = Some (HG_OTHER_ERROR, Some x, s') /\ inv s' rest (el :: used) /\
    margo_destroy (Some x) s' = Some (HG_OTHER_ERROR, s').
Proof.
  intros Hi Hx Hreset Hreg.
  destruct (cache_get_spec s _ _ addr id Hi) as (x' & p & [c h] & He & Hh & s1 & Hget & Hdat & Hev & Hel & Hhg & Hi1).
  assert (x' = x) as -> by (destruct He as (? & _); congruence). simpl in *.
  rewrite Hh in Hreset. simpl in Hreset. subst c. simpl in *. unfold margo_create. rewrite Hget. simpl.
  destruct (HG_Reset_law _ _ _ _ _ _ Hh) as (Hid & Hregs & Hs). destruct He as (_ & _ & Hg & Hd & Hc).
  unfold __margo_internal_set_handle_data. rewrite Hhg, (Hid eq_refl), Hregs, Hreg. simpl.
  exists s1. split_and!; [done|done|]. unfold margo_destroy, margo_hg_handle_get_instance.
  rewrite Hhg, (proj1 (Hs x)), (idle_ref _ _ _ _ _ Hi Hx). simpl.
  rewrite (proj2 (Hs x)), Hg, Hdat, Hd. done.
Qed.
End Cache.

(** ** A Mercury that keeps the laws *)

(** Handles with their references, data and RPC id, and the registered RPCs. *)
Record toy := Toy { handles : gmap Z (Z * option loc * Z); registered : gmap Z margo_rpc_data }.

Definition toy_data (h : toy) (x : Z) : option loc :=
  match handles h !! x with Some (_, d, _) => d | None => None end.
Definition toy_ref (h : toy) (x : Z) : Z := match handles h !! x with Some (n, _, _) => n | None => 0 end.
Definition toy_info (h : toy) (x : Z) : option Z := match handles h !! x with Some (_, _, i) => Some i | None => None end.
Definition toy_create (h : toy) (a i : Z) : hg_return_t * Z * toy :=
  let x := fresh (dom (handles h)) in (HG_SUCCESS, x, Toy (<[x := (1, None, i)]> (handles h)) (registered h)).
Definition toy_reset (h : toy) (x a i : Z) : hg_return_t * toy :=
  match handles h !! x with
  | Some (n, d, _) => (HG_SUCCESS, Toy (<[x := (n, d, i)]> (handles h)) (registered h))
  | None => (HG_INVALID_ARG, h)
  end.
Definition toy_set_data (h : toy) (x : Z) (p : loc) : hg_return_t * toy :=
  match handles h !! x with
  | Some (n, _, i) => (HG_SUCCESS, Toy (<[x := (n, Some p, i)]> (handles h)) (registered h))
  | None => (HG_INVALID_ARG, h)
  end.
Definition toy_destroy (h : toy) (x : Z) : hg_return_t * toy :=
  match handles h !! x with
  | Some (n, d, i) =>
      (HG_SUCCESS, Toy (if n =? 1 then delete x (handles h) else <[x := (n - 1, d, i)]> (handles h)) (registered h))
  | None => (HG_INVALID_ARG, h)
  end.

#[export] Program Instance toy_mercury : Mercury toy := {|
  HG_Get_data := toy_data; HG_Ref_get := toy_ref; HG_Get_info_id := toy_info;
  HG_Registered_data h i := registered h !! i;
  HG_Create := toy_create; HG_Reset := toy_reset; HG_Set_data := toy_set_data; HG_Destroy := toy_destroy
|}.
Next Obligation.
  unfold toy_create, toy_ref, toy_data. intros h a i x h' [= <- <-]. simpl.
  rewrite (not_elem_of_dom_1 (handles h) _ (is_fresh _)), lookup_insert_eq. split_and!; try done.
  intros y Hy. by rewrite lookup_insert_ne.
Qed.
Next Obligation. unfold toy_create. intros h a i c x h' [= <- _ _]. done. Qed.
Next Obligation.
  unfold toy_reset, toy_ref, toy_data, toy_info. intros h x a i c h'.
  destruct (handles h !! x) as [[[n d] j]|] eqn:E; intros [= <- <-]; simpl; [|done].
  rewrite lookup_insert_eq. split_and!; try done. intros y. destruct (decide (y = x)) as [->|].
  - by rewrite lookup_insert_eq, E.
  - by rewrite lookup_insert_ne.
Qed.
Next Obligation.
  unfold toy_set_data, toy_ref, toy_data. intros h x p c h'.
  destruct (handles h !! x) as [[[n d] j]|] eqn:E; intros [= <- <-]; simpl; rewrite ?E; [|done].
  rewrite lookup_insert_eq. split_and!; try done; intros y; [|by intros Hy; rewrite lookup_insert_ne].
  destruct (decide (y = x)) as [->|]; [by rewrite lookup_insert_eq, E|by rewrite lookup_insert_ne].
Qed.
Next Obligation.
  unfold toy_destroy, toy_ref, toy_data. intros h x c h'.
  destruct (handles h !! x) as [[[n d] j]|] eqn:E; intros [= <- <-]; simpl; [|lia].
  intros Hn. destruct (Z.eqb_spec n 1) as [->|Hne].
  - rewrite lookup_delete_eq. split_and!; [done|lia|]. intros y Hy. by rewrite lookup_delete_ne.
  - rewrite lookup_insert_eq. split_and!; [done|done|]. intros y Hy. by rewrite lookup_insert_ne.
Qed.

(** One element with handle 5 and data 1, free or in use, and an RPC 7. *)
Definition toy_state (l : option loc) (d : margo_handle_data) : state (H := toy) :=
  State (Toy {[5 := (1, Some 1%positive, 0)]} {[7 := Rpc_data 1 2 3 4 5]}) {[2%positive := None]} {[2%positive := 5]} l
    {[1%positive := d]} [].

Lemma toy_free_inv : inv (toy_state (Some 2%positive) (set_cache_el (Some 2%positive) zero_data)) [2%positive] [].
Proof.
  split; simpl.
  - split; [apply NoDup_singleton|]. simpl. split; [done|]. by exists None.
  - apply NoDup_singleton.
  - set_solver.
  - repeat constructor. exists 5, 1%positive. unfold entry_ok. simpl. unfold toy_ref, toy_data. simpl. by rewrite !lookup_singleton_eq.
  - constructor.
  - intros p d el [<- <-]%lookup_singleton_Some. simpl. intros [= <-]. exists 5. unfold toy_ref, toy_data. simpl. by rewrite !lookup_singleton_eq.
Qed.

Lemma toy_used_inv d : cache_el d = Some 2%positive -> inv (toy_state None d) [] [2%positive].
Proof.
  intros Hd. split; simpl.
  - split; [constructor|done].
  - apply NoDup_singleton.
  - set_solver.
  - constructor.
  - repeat constructor. exists 5, 1%positive, d. unfold entry_ok. simpl. unfold toy_ref, toy_data. simpl. by rewrite !lookup_singleton_eq.
  - intros p d' el [<- <-]%lookup_singleton_Some. rewrite Hd. intros [= <-]. exists 5. unfold toy_ref, toy_data. simpl. by rewrite !lookup_singleton_eq.
Qed.

Lemma cache_init_correct_witness :
  exists (hret : hg_return_t) (s : state (H := toy)),
    __margo_handle_cache_init [(Some 1%positive, Some 2%positive); (Some 3%positive, Some 4%positive)]
      (State (Toy ∅ ∅) ∅ ∅ None ∅ []) = Some (hret, s) /\
    if is_success hret then exists free, inv s free [] /\ length free = 2%nat else inv s [] [] /\ datas s = ∅ /\ els s = ∅.
Proof.
  apply (cache_init_correct [(Some 1%positive, Some 2%positive); (Some 3%positive, Some 4%positive)] (Toy ∅ ∅)).
  - by apply (bool_decide_unpack _).
  - by apply (bool_decide_unpack _).
Defined.

Lemma create_destroy_recycles_witness :
  exists s', margo_destroy (Some 5) (toy_state None (Handle_data 1 2 3 4 5 6 9 (Some 2%positive))) = Some (HG_SUCCESS, s') /\
    events s' = [UserFree 9 6].
Proof.
  edestruct (create_destroy_recycles (toy_state None (Handle_data 1 2 3 4 5 6 9 (Some 2%positive))) [] [2%positive] None 0 7)
    as [_ Hd]; [by apply toy_used_inv|].
  destruct (Hd [] 2%positive [] 5 1%positive (Handle_data 1 2 3 4 5 6 9 (Some 2%positive))) as (s' & He & _ & Hev & _); try done.
  by exists s'.
Defined.

Lemma failed_create_loses_element_witness :
  exists s', margo_create None 0 8 (toy_state (Some 2%positive) (set_cache_el (Some 2%positive) zero_data))
      = Some (HG_OTHER_ERROR, Some 5, s') /\ inv s' [] [2%positive] /\
    margo_destroy (Some 5) s' = Some (HG_OTHER_ERROR, s').
Proof.
  by apply (failed_create_loses_element _ 2%positive [] [] 5 None 0 8 toy_free_inv).
Defined.
