(* ===== verification/Wire.v ===== *)
(** * Headers of requests and responses (src/margo-serialization.h,
      src/margo-hg-shim.c, src/margo-core.c)

    Margo registers its own serialisation functions with Mercury: a request
    starts with the id of the RPC that issued it, a response with an error code,
    and the user's data follow, unless the code is an error.  Mercury's procs
    are a class: a proc encodes, decodes or frees, and has the bytes written so
    far or left to read.  The theorems are the round trips between the two
    sides, with and without Mercury's checksums, and what a client of the shim
    sees of an error response. *)

From S2P Require Import Prelude.

#[local] Open Scope Z_scope.

(** ** Mercury's procs *)

Inductive hg_proc_op := HG_ENCODE | HG_DECODE | HG_FREE.

(** [hg_proc_memcpy] writes the data, or reads as many bytes, and returns the
    data as they are afterwards. *)
Class Proc (P : Type) := {
  op : P -> hg_proc_op;
  content : P -> list Z;
  hg_proc_memcpy : P -> list Z -> hg_return_t * list Z * P;
  memcpy_encode p b : op p = HG_ENCODE ->
    let '(hret, b', p') := hg_proc_memcpy p b in
    op p' = HG_ENCODE /\ b' = b /\ (hret = HG_SUCCESS -> content p' = content p ++ b);
  memcpy_decode p b : op p = HG_DECODE ->
    let '(hret, b', p') := hg_proc_memcpy p b in
    op p' = HG_DECODE /\
    if (length b <=? length (content p))%nat
    then hret = HG_SUCCESS /\ b' = take (length b) (content p) /\ content p' = drop (length b) (content p)
    else hret ≠ HG_SUCCESS /\ b' = b;
  memcpy_free p b : op p = HG_FREE ->
    let '(hret, b', p') := hg_proc_memcpy p b in hret = HG_SUCCESS /\ b' = b /\ op p' = HG_FREE
}.

(** ** Integers in memory *)

(** The [n] bytes of an integer, lowest first. *)
Fixpoint le_bytes (n : nat) (z : Z) : list Z :=
  match n with O => [] | S n => z mod 256 :: le_bytes n (z / 256) end.
Fixpoint le_value (l : list Z) : Z :=
  match l with [] => 0 | b :: l => b + 256 * le_value l end.

Lemma length_le_bytes n : forall z, length (le_bytes n z) = n.
Proof. induction n as [|n IH]; intros z; simpl; [done|by rewrite IH]. Qed.

Lemma le_value_bytes n : forall z, 0 <= z < 256 ^ Z.of_nat n -> le_value (le_bytes n z) = z.
Proof.
  induction n as [|n IH]; intros z Hz; cbn [le_bytes le_value]; [simpl in Hz; lia|].
  rewrite IH; [pose proof (Z.div_mod z 256); lia|].
  rewrite Nat2Z.inj_succ, Z.pow_succ_r in Hz by lia. split; [apply Z.div_pos; lia|].
  apply Z.div_lt_upper_bound; lia.
Qed.

#[local] Arguments le_bytes : simpl never.

Section Wire.
Context {P : Type} `{!Proc P} {A : Type}.

(** ** Serialisation *)

(** [margo_forward_proc_args] and [margo_respond_proc_args]: the user's data,
    the user's proc ([None] is NULL) and the header ([parent_rpc_id], 64 bits,
    or [hg_ret], 32 bits, 0 for HG_SUCCESS). *)
Record proc_args := Args {
  user_args : A;
  user_cb : option (P -> A -> hg_return_t * A * P);
  header : Z
}.

Definition run_user (p : P) (sargs : proc_args) : hg_return_t * proc_args * P :=
  match user_cb sargs with
  | Some cb =>
      let '(hret, a, p) := cb p (user_args sargs) in (hret, Args a (user_cb sargs) (header sargs), p)
  | None => (HG_SUCCESS, sargs, p)
  end.

(** The header, copied to or from the proc. *)
Definition proc_header (n : nat) (p : P) (sargs : proc_args) : hg_return_t * proc_args * P :=
  let '(hret, b, p) := hg_proc_memcpy p (le_bytes n (header sargs)) in
  (hret, Args (user_args sargs) (user_cb sargs) (le_value b), p).

Definition margo_forward_proc (p : P) (sargs : proc_args) : hg_return_t * proc_args * P :=
  let '(hret, sargs, p) := proc_header 8 p sargs in
  if negb (is_success hret) then (hret, sargs, p) else run_user p sargs.

Definition margo_respond_proc (p : P) (sargs : proc_args) : hg_return_t * proc_args * P :=
  let '(hret, sargs, p) := proc_header 4 p sargs in
  if negb (is_success hret) then (hret, sargs, p)
  else if negb (header sargs =? 0) then (hret, sargs, p)
  else run_user p sargs.

Definition margo_hg_shim_forward_proc (p : P) (sargs : proc_args) : hg_return_t * proc_args * P :=
  let '(hret, sargs, p) := proc_header 8 p sargs in
  if negb (is_success hret) then (hret, sargs, p) else run_user p sargs.

Definition margo_hg_shim_respond_proc (p : P) (sargs : proc_args) : hg_return_t * proc_args * P :=
  let '(hret, sargs, p) := proc_header 4 p sargs in
  if negb (is_success hret) then (hret, sargs, p) else run_user p sargs.

(** ** Reading and freeing inputs and outputs *)

(** What [HG_Get_input] and [HG_Get_output] do with the registered function:
    they run it on the message, and with checksums refuse a message that was
    not read to its end. *)
Definition hg_get (checksum : bool) (proc : P -> proc_args -> hg_return_t * proc_args * P) (p : P) (sargs : proc_args)
    : hg_return_t * proc_args :=
  let '(hret, sargs, p) := proc p sargs in
  (if is_success hret && checksum && negb (bool_decide (content p = [])) then HG_CHECKSUM_ERROR else hret, sargs).

Definition hg_free (proc : P -> proc_args -> hg_return_t * proc_args * P) (p : P) (sargs : proc_args)
    : hg_return_t * proc_args :=
  let '(hret, sargs, _) := proc p sargs in (hret, sargs).

(** [data] is the user's proc found in the handle data, [None] when there is no
    data. *)
Definition margo_get_input (checksum : bool) (data : option (option (P -> A -> hg_return_t * A * P))) (p : P) (in_struct : A)
    : hg_return_t * A :=
  match data with
  | None => (HG_NO_MATCH, in_struct)
  | Some in_cb =>
      let '(hret, sargs) := hg_get checksum margo_forward_proc p (Args in_struct in_cb 0) in (hret, user_args sargs)
  end.

Definition margo_free_input (data : option (option (P -> A -> hg_return_t * A * P))) (p : P) (in_struct : A)
    : hg_return_t * A :=
  match data with
  | None => (HG_NO_MATCH, in_struct)
  | Some in_cb => let '(hret, sargs) := hg_free margo_forward_proc p (Args in_struct in_cb 0) in (hret, user_args sargs)
  end.

(** The third component is whether the output was freed again. *)
Definition margo_get_output (checksum : bool) (data : option (option (P -> A -> hg_return_t * A * P))) (p : P) (out_struct : A)
    : hg_return_t * A * bool :=
  match data with
  | None => (HG_NO_MATCH, out_struct, false)
  | Some out_cb =>
      let '(hret, sargs) := hg_get checksum margo_respond_proc p (Args out_struct out_cb 0) in
      if negb (is_success hret) then (hret, user_args sargs, false)
      else
        let hret := code_of_int (header sargs) in
        if negb (is_success hret) then (hret, user_args sargs, true) else (hret, user_args sargs, false)
  end.

Definition margo_free_output (data : option (option (P -> A -> hg_return_t * A * P))) (p : P) (out_struct : A)
    : hg_return_t * A :=
  match data with
  | None => (HG_NO_MATCH, out_struct)
  | Some out_cb => let '(hret, sargs) := hg_free margo_respond_proc p (Args out_struct out_cb 0) in (hret, user_args sargs)
  end.

(** The error code a client reads before the user asks for the output. *)
Definition check_error_in_output (checksum : bool) (disabled : hg_return_t * bool) (p : P) (a : A) : hg_return_t :=
  if negb (is_success disabled.1) then disabled.1
  else if disabled.2 then HG_SUCCESS
  else
    let '(hret, sargs) := hg_get checksum margo_respond_proc p (Args a None 0) in
    if negb (is_success hret) && negb (bool_decide (hret = HG_CHECKSUM_ERROR)) then hret
    else if bool_decide (hret = HG_CHECKSUM_ERROR) then code_of_int (header sargs)
    else code_of_int (header sargs).

Definition check_parent_id_in_input (checksum : bool) (p : P) (a : A) (parent_id : Z) : hg_return_t * Z :=
  let '(hret, sargs) := hg_get checksum margo_forward_proc p (Args a None 0) in
  if negb (is_success hret) && negb (bool_decide (hret = HG_CHECKSUM_ERROR)) then (hret, parent_id)
  else (HG_SUCCESS, header sargs).

(** ** The shim *)

Definition HG_Forward_to_margo (p : P) (proc_in : option (P -> A -> hg_return_t * A * P)) (in_struct : A) : hg_return_t * P :=
  let '(hret, _, p) := margo_hg_shim_forward_proc p (Args in_struct proc_in 0) in (hret, p).
Definition HG_Respond_to_margo (p : P) (proc_out : option (P -> A -> hg_return_t * A * P)) (out_struct : A) : hg_return_t * P :=
  let '(hret, _, p) := margo_hg_shim_respond_proc p (Args out_struct proc_out 0) in (hret, p).
Definition HG_Get_input_from_margo (checksum : bool) (p : P) (proc_in : option (P -> A -> hg_return_t * A * P)) (in_struct : A)
    : hg_return_t * A :=
  let '(hret, sargs) := hg_get checksum margo_hg_shim_forward_proc p (Args in_struct proc_in 0) in (hret, user_args sargs).
Definition HG_Free_input_from_margo (p : P) (proc_in : option (P -> A -> hg_return_t * A * P)) (in_struct : A)
    : hg_return_t * A :=
  let '(hret, sargs) := hg_free margo_hg_shim_forward_proc p (Args in_struct proc_in 0) in (hret, user_args sargs).
Definition HG_Get_output_from_margo (checksum : bool) (p : P) (proc_out : option (P -> A -> hg_return_t * A * P)) (out_struct : A)
    : hg_return_t * A :=
  let '(hret, sargs) := hg_get checksum margo_hg_shim_respond_proc p (Args out_struct proc_out 0) in (hret, user_args sargs).
Definition HG_Free_output_from_margo (p : P) (proc_out : option (P -> A -> hg_return_t * A * P)) (out_struct : A)
    : hg_return_t * A :=
  let '(hret, sargs) := hg_free margo_hg_shim_respond_proc p (Args out_struct proc_out 0) in (hret, user_args sargs).

(** ** Properties *)

(** A user's proc that reads back what it wrote. *)
Record user_proc (cb : P -> A -> hg_return_t * A * P) (bytes : A -> list Z) : Prop := {
  user_encode p a : op p = HG_ENCODE ->
    let '(hret, a', p') := cb p a in
    op p' = HG_ENCODE /\ (hret = HG_SUCCESS -> a' = a /\ content p' = content p ++ bytes a);
  user_decode p a a0 : op p = HG_DECODE -> content p = bytes a ->
    let '(hret, a', p') := cb p a0 in hret = HG_SUCCESS /\ a' = a /\ content p' = []
}.

Lemma proc_header_encode n p sargs :
  op p = HG_ENCODE -> 0 <= header sargs < 256 ^ Z.of_nat n ->
  let '(hret, sargs', p') := proc_header n p sargs in
  op p' = HG_ENCODE /\ sargs' = sargs /\ (hret = HG_SUCCESS -> content p' = content p ++ le_bytes n (header sargs)).
Proof.
  intros Hop Hh. unfold proc_header. pose proof (memcpy_encode p (le_bytes n (header sargs)) Hop) as Hm.
  destruct (hg_proc_memcpy p _) as [[hret b] p']. destruct Hm as (? & -> & ?).
  rewrite le_value_bytes by done. by destruct sargs.
Qed.

Lemma proc_header_decode n p z rest sargs :
  op p = HG_DECODE -> content p = le_bytes n z ++ rest -> 0 <= z < 256 ^ Z.of_nat n ->
  exists p', proc_header n p sargs = (HG_SUCCESS, Args (user_args sargs) (user_cb sargs) z, p') /\
    op p' = HG_DECODE /\ content p' = rest.
Proof.
  intros Hop Hc Hz. unfold proc_header. pose proof (memcpy_decode p (le_bytes n (header sargs)) Hop) as Hm.
  destruct (hg_proc_memcpy p _) as [[hret b] p']. rewrite !length_le_bytes, Hc, length_app, length_le_bytes in Hm.
  rewrite (proj2 (Nat.leb_le _ _)) in Hm by lia. destruct Hm as (? & -> & -> & Hd).
  rewrite drop_app_length' in Hd by (by rewrite length_le_bytes).
  rewrite take_app_length' by (by rewrite length_le_bytes). rewrite le_value_bytes by done.
  exists p'. auto.
Qed.

(** ** Claims *)

(** C15: What a client encodes for a request, a server decodes: reading the
    header gives the id of the calling RPC, and reading the input gives the data
    the client passed, whether or not Mercury checks messages for unread bytes;
    the data the server passes to be filled do not matter. *)
Theorem request_roundtrip cb bytes checksum p q a a0 a1 parent pid0 :
  user_proc cb bytes -> op p = HG_ENCODE -> content p = [] -> is_u64 parent ->
  let '(hret, _, p') := margo_forward_proc p (Args a (Some cb) parent) in
  hret = HG_SUCCESS -> op q = HG_DECODE -> content q = content p' ->
  check_parent_id_in_input checksum q a0 pid0 = (HG_SUCCESS, parent) /\
  margo_get_input checksum (Some (Some cb)) q a1 = (HG_SUCCESS, a).
Proof.
  intros Hu Hop Hc Hp. unfold margo_forward_proc at 1.
  pose proof (proc_header_encode 8 p (Args a (Some cb) parent) Hop Hp) as He.
  destruct (proc_header 8 p (Args a (Some cb) parent)) as [[h sa] p1]. destruct He as (Hop1 & -> & Hc1).
  destruct (is_success h) eqn:Eh; simpl; [|intros ->; done]. apply is_success_true in Eh. specialize (Hc1 Eh).
  rewrite Hc in Hc1. simpl in Hc1. unfold run_user. simpl.
  pose proof (user_encode _ _ Hu p1 a Hop1) as Hen. destruct (cb p1 a) as [[h2 a2] p2]. destruct Hen as [_ Hen].
  intros -> Hq Hcq. destruct (Hen eq_refl) as [-> Hc2]. rewrite Hc2, Hc1 in Hcq.
  unfold check_parent_id_in_input, margo_get_input, hg_get, margo_forward_proc.
  destruct (proc_header_decode 8 q parent (bytes a) (Args a0 None 0) Hq Hcq Hp) as (q1 & -> & _ & Hq1).
  destruct (proc_header_decode 8 q parent (bytes a) (Args a1 (Some cb) 0) Hq Hcq Hp) as (q2 & -> & Hop2 & Hq2).
  simpl. unfold run_user. simpl. split.
  - destruct checksum; simpl; [|done]. by destruct (negb (bool_decide (content q1 = []))).
  - pose proof (user_decode _ _ Hu q2 a a1 Hop2 Hq2) as Hd. destruct (cb q2 a1) as [[h3 a3] q3].
    destruct Hd as (-> & -> & ->). simpl. by rewrite andb_false_r.
Qed.

(** A response carries an error code instead of data: when a server
    responds with an error, its serialisation stops after the code and does not
    run the user's function; the client reads exactly this code, both when the
    request completes and when the user asks for the output, whose own function
    does not run.  When the code is success, the client reads success and the
    data the server passed. *)
Theorem response_roundtrip cb bytes checksum p q a a0 a1 code :
  user_proc cb bytes -> op p = HG_ENCODE -> content p = [] -> is_u32 code ->
  let '(hret, _, p') := margo_respond_proc p (Args a (Some cb) code) in
  hret = HG_SUCCESS -> op q = HG_DECODE -> content q = content p' ->
  check_error_in_output checksum (HG_SUCCESS, false) q a0 = code_of_int code /\
  margo_get_output checksum (Some (Some cb)) q a1 =
    (code_of_int code, if code =? 0 then a else a1, negb (code =? 0)) /\
  (code ≠ 0 -> content p' = le_bytes 4 code).
Proof.
  intros Hu Hop Hc Hp. unfold margo_respond_proc at 1.
  pose proof (proc_header_encode 4 p (Args a (Some cb) code) Hop Hp) as He.
  destruct (proc_header 4 p (Args a (Some cb) code)) as [[h sa] p1]. destruct He as (Hop1 & -> & Hc1).
  destruct (is_success h) eqn:Eh; simpl; [|intros ->; done]. apply is_success_true in Eh. specialize (Hc1 Eh).
  rewrite Hc in Hc1. simpl in Hc1. unfold check_error_in_output, margo_get_output, hg_get, margo_respond_proc.
  destruct (Z.eqb_spec code 0) as [->|Hne]; simpl.
  - unfold run_user at 1. simpl.
    pose proof (user_encode _ _ Hu p1 a Hop1) as Hen. destruct (cb p1 a) as [[h2 a2] p2]. destruct Hen as [_ Hen].
    intros -> Hq Hcq. destruct (Hen eq_refl) as [-> Hc2]. rewrite Hc2, Hc1 in Hcq. change (header _) with 0 in Hcq.
    destruct (proc_header_decode 4 q 0 (bytes a) (Args a0 None 0) Hq Hcq Hp) as (q1 & -> & _ & Hq1).
    destruct (proc_header_decode 4 q 0 (bytes a) (Args a1 (Some cb) 0) Hq Hcq Hp) as (q2 & -> & Hop2 & Hq2).
    simpl. unfold run_user. simpl. split_and!; [|pose proof (user_decode _ _ Hu q2 a a1 Hop2 Hq2) as Hd|done].
    + destruct checksum; simpl; [|done]. by destruct (negb (bool_decide (content q1 = []))).
    + destruct (cb q2 a1) as [[h3 a3] q3]. destruct Hd as (-> & -> & ->). simpl. by rewrite andb_false_r.
  - intros _ Hq Hcq. rewrite Hc1 in Hcq. rewrite <- (app_nil_r (le_bytes 4 _)) in Hcq.
    destruct (proc_header_decode 4 q code [] (Args a0 None 0) Hq Hcq Hp) as (q1 & -> & _ & Hq1).
    destruct (proc_header_decode 4 q code [] (Args a1 (Some cb) 0) Hq Hcq Hp) as (q2 & -> & _ & Hq2).
    simpl. rewrite (proj2 (Z.eqb_neq code 0)) by done. simpl. rewrite Hq1, Hq2, andb_false_r. simpl.
    assert (is_success (code_of_int code) = false) as ->.
    { apply is_success_false. unfold code_of_int. by rewrite (proj2 (Z.eqb_neq code 0)). }
    by split_and!.
Qed.

(** A client of the shim that gets an error response runs its own output
    function on the empty rest of the message, instead of learning the code. *)
Theorem shim_ignores_error_code cb checksum q a code :
  op q = HG_DECODE -> content q = le_bytes 4 code -> is_u32 code ->
  exists q', content q' = [] /\
    HG_Get_output_from_margo checksum q (Some cb) a =
      (let '(hret, a', p) := cb q' a in
       (if is_success hret && checksum && negb (bool_decide (content p = [])) then HG_CHECKSUM_ERROR else hret, a')).
Proof.
  intros Hq Hc Hp. rewrite <- (app_nil_r (le_bytes 4 _)) in Hc.
  destruct (proc_header_decode 4 q code [] (Args a (Some cb) 0) Hq Hc Hp) as (q1 & Hh & _ & Hq1).
  exists q1. split; [done|]. unfold HG_Get_output_from_margo, hg_get, margo_hg_shim_respond_proc.
  rewrite Hh. simpl. unfold run_user. simpl. by destruct (cb q1 a) as [[h2 a2] p2].
Qed.
End Wire.

(** ** A proc that keeps the laws *)

Record buffer := Buffer { b_op : hg_proc_op; b_content : list Z }.

Definition buffer_memcpy (p : buffer) (b : list Z) : hg_return_t * list Z * buffer :=
  match b_op p with
  | HG_ENCODE => (HG_SUCCESS, b, Buffer HG_ENCODE (b_content p ++ b))
  | HG_DECODE =>
      if (length b <=? length (b_content p))%nat
      then (HG_SUCCESS, take (length b) (b_content p), Buffer HG_DECODE (drop (length b) (b_content p)))
      else (HG_CHECKSUM_ERROR, b, p)
  | HG_FREE => (HG_SUCCESS, b, p)
  end.

#[export] Program Instance buffer_proc : Proc buffer := {|
  op := b_op; content := b_content; hg_proc_memcpy := buffer_memcpy
|}.
Next Obligation. intros [o c] b Ho. simpl in Ho. by subst o. Qed.
Next Obligation.
  intros [o c] b Ho. simpl in Ho. subst o. unfold buffer_memcpy. simpl.
  by destruct (length b <=? length c)%nat.
Qed.
Next Obligation. intros [o c] b Ho. simpl in Ho. by subst o. Qed.

(** A user's proc for one byte. *)
Definition byte_proc (p : buffer) (a : Z) : hg_return_t * Z * buffer :=
  let '(hret, b, p) := buffer_memcpy p [a] in (hret, default a (head b), p).

Lemma byte_proc_ok : user_proc byte_proc (fun a => [a]).
Proof.
  split.
  - intros [o c] a Ho. simpl in Ho. by subst o.
  - intros [o c] a a0 Ho Hc. simpl in Ho, Hc. by subst o c.
Qed.

Lemma request_roundtrip_witness :
  margo_get_input true (Some (Some byte_proc)) (Buffer HG_DECODE [1; 2; 0; 0; 0; 0; 0; 0; 42]) 0 = (HG_SUCCESS, 42).
Proof.
  by apply (request_roundtrip byte_proc _ true (Buffer HG_ENCODE []) (Buffer HG_DECODE [1; 2; 0; 0; 0; 0; 0; 0; 42])
    42 0 0 513 7 byte_proc_ok).
Defined.

Lemma response_roundtrip_witness :
  check_error_in_output true (HG_SUCCESS, false) (Buffer HG_DECODE [12; 0; 0; 0]) 0 = HG_code 12.
Proof.
  by apply (response_roundtrip byte_proc _ true (Buffer HG_ENCODE []) (Buffer HG_DECODE [12; 0; 0; 0])
    42 0 0 12 byte_proc_ok).
Defined.

Lemma shim_ignores_error_code_witness :
  exists q' : buffer, content q' = [] /\
    HG_Get_output_from_margo false (Buffer HG_DECODE [12; 0; 0; 0]) (Some byte_proc) 5 =
      (let '(hret, a', p) := byte_proc q' 5 in
       (if is_success hret && false && negb (bool_decide (content p = [])) then HG_CHECKSUM_ERROR else hret, a')).
Proof. by apply (shim_ignores_error_code byte_proc false (Buffer HG_DECODE [12; 0; 0; 0]) 5 12). Defined.
