(* ===== verification/BulkPool.v ===== *)
(** * Pools of bulk buffers (src/margo-bulk-pool.c)

    A bulk pool is one buffer cut into pieces of equal size, each registered
    with Mercury; the free pieces are the upper part of an array used as a
    stack.  A pool set is a list of pools of growing sizes.  Mercury's bulk
    handles are numbers (0 is HG_BULK_NULL) whose size and address are functions
    the theorems are stated for; sizes and indices are 64-bit.  Reading or
    writing outside the array, or reading a field before it was set, is
    undefined behaviour, a [None] result.  The last part interleaves the threads
    of a pool around its mutex and condition variable. *)

From S2P Require Import Prelude.

#[local] Open Scope Z_scope.

(** ** Data *)

Record pool := Pool {
  buf : Z;
  bulks : list Z;
  count : Z;
  size : Z;
  num_free : Z;
  flag : Z
}.

Record poolset := Poolset {
  pools : list pool;
  npools : Z;
  nbufs : Z;
  first_size : Z;
  size_multiple : Z
}.

(** What happens to memory and to bulk handles. *)
Inductive event :=
  | BulkCreate (addr size b : Z) | BulkFree (b : Z)
  | FreeBulks | FreeBuf | FreePool | MutexFree | CondFree.

Definition SIZE_MAX : Z := 2 ^ 64 - 1.

(** ** Creation *)

(** What the libraries return: [malloc] and [calloc] succeed or not,
    [posix_memalign] gives a buffer or an error, [margo_bulk_create] a code and
    a handle for each piece, and the mutex and the condition variable an error
    code. *)
Record oracle := Oracle {
  o_malloc : bool;
  o_memalign : option Z;
  o_calloc : bool;
  o_bulk : nat -> hg_return_t * Z;
  o_mutex : Z;
  o_cond : Z
}.

(** The loop: [n] pieces are left from [i] on; the result is the code, the
    handles created and the events. *)
Fixpoint create_loop (o : oracle) (n i : nat) (buf size : Z) : hg_return_t * list Z * list event :=
  match n with
  | O => (HG_SUCCESS, [], [])
  | S n =>
      let '(hret, b) := o_bulk o i in
      if negb (is_success hret) then (hret, [], [])
      else
        let '(hret, l, evs) := create_loop o n (S i) buf size in
        (hret, b :: l, BulkCreate (buf + Z.of_nat i * size) size b :: evs)
  end.

(** A field of a structure from [malloc]. *)
Inductive field (A : Type) := Uninit | Init (a : A).
Arguments Uninit {A}.
Arguments Init {A} a.

(** The handles before the first HG_BULK_NULL. *)
Fixpoint free_prefix (l : list Z) : list event :=
  match l with [] => [] | b :: l => if b =? 0 then [] else BulkFree b :: free_prefix l end.

(** [err:], given the fields [bulks] and [buf] of the structure, if any. *)
Definition create_err (p : option (field (option (list Z)) * field (option Z))) : option (list event) :=
  match p with
  | None => Some []
  | Some (bulks, buf) =>
      e1 ← match bulks with
           | Uninit => None
           | Init None => Some []
           | Init (Some l) => Some (free_prefix l ++ [FreeBulks])
           end;
      e2 ← match buf with Uninit => None | Init None => Some [] | Init (Some _) => Some [FreeBuf] end;
      Some (e1 ++ e2 ++ [FreePool])
  end.

Definition margo_bulk_pool_create (o : oracle) (count size flag : Z) : option (hg_return_t * option pool * list event) :=
  if negb (count =? 0) && (SIZE_MAX / count <? size) then Some (HG_INVALID_ARG, None, [])
  else if negb (o_malloc o) then Some (HG_NOMEM_ERROR, None, [])
  else
    match o_memalign o with
    | None => evs ← create_err (Some (Uninit, Uninit)); Some (HG_NOMEM_ERROR, None, evs)
    | Some buf =>
        if negb (o_calloc o) then evs ← create_err (Some (Init None, Init (Some buf))); Some (HG_NOMEM_ERROR, None, evs)
        else
          let '(hret, l, evs) := create_loop o (Z.to_nat count) 0 buf size in
          let array := l ++ replicate (Z.to_nat count - length l) 0 in
          let err := create_err (Some (Init (Some array), Init (Some buf))) in
          if negb (is_success hret) then e ← err; Some (hret, None, evs ++ e)
          else if negb (o_mutex o =? 0) then e ← err; Some (HG_OTHER_ERROR, None, evs ++ e)
          else if negb (o_cond o =? 0) then e ← err; Some (HG_OTHER_ERROR, None, evs ++ MutexFree :: e)
          else Some (HG_SUCCESS, Some (Pool buf array count size count flag), evs)
    end.

Definition margo_bulk_pool_destroy (p : option pool) : Z * list event :=
  match p with
  | None => (0, [])
  | Some p => (0, [CondFree; MutexFree] ++ map BulkFree (bulks p) ++ [FreeBulks; FreeBuf; FreePool])
  end.

(** ** Getting and releasing *)

Definition with_free (n : Z) (l : list Z) (p : pool) : pool := Pool (buf p) l (count p) (size p) n (flag p).

Definition margo_bp_get (p : pool) : option (Z * pool) :=
  b ← bulks p !! Z.to_nat (u64 (count p - num_free p));
  Some (b, with_free (u64 (num_free p - 1)) (bulks p) p).

Definition margo_bp_tryget (p : pool) : option (Z * pool) :=
  if num_free p =? 0 then Some (0, p) else margo_bp_get p.

(** The part of [margo_bulk_pool_get] after the wait. *)
Definition margo_bulk_pool_get (p : pool) : option (Z * Z * pool) :=
  if num_free p =? 0 then None (* assert(pool->num_free > 0) *)
  else '(b, p) ← margo_bp_get p; Some (0, b, p).

(** [None] as a pool or a set is NULL. *)
Definition margo_bulk_pool_tryget (p : option pool) : option (Z * option (Z * pool)) :=
  match p with
  | None => Some (-1, None)
  | Some p => '(b, p) ← margo_bp_tryget p; Some (0, Some (b, p))
  end.

Definition margo_bp_release (p : pool) (bulk : Z) : option pool :=
  let n := u64 (num_free p + 1) in
  let i := u64 (count p - n) in
  if i <? Z.of_nat (length (bulks p)) then Some (with_free n (<[Z.to_nat i := bulk]> (bulks p)) p) else None.

Section Bulk.
(** Size, and access of the first piece with given permissions, of a handle. *)
Context (bulk_get_size : Z -> Z) (bulk_access : Z -> Z -> hg_return_t * Z * Z).

Definition margo_bulk_pool_release (p : option pool) (bulk : Z) : option (Z * option pool) :=
  match p with
  | None => Some (-1, None)
  | Some p =>
      if bulk =? 0 then Some (-1, Some p)
      else if negb (size p =? bulk_get_size bulk) then Some (-1, Some p)
      else
        let '(hret, buf_ptr, buf_size) := bulk_access bulk (flag p) in
        if negb (is_success hret) then Some (-1, Some p)
        else if (buf_ptr <? buf p) || (buf p + u64 (size p * count p) <? buf_ptr + buf_size) then Some (-1, Some p)
        else p ← margo_bp_release p bulk; Some (0, Some p)
  end.

(** ** Pool sets *)

(** The creation loop: [os] has an oracle per pool; the result is the code, the
    pools created and the events. *)
Fixpoint poolset_loop (os : list oracle) (nbufs size size_multiple flag : Z) : option (hg_return_t * list pool * list event) :=
  match os with
  | [] => Some (HG_SUCCESS, [], [])
  | o :: os =>
      '(hret, p, evs) ← margo_bulk_pool_create o nbufs size flag;
      match p with
      | Some p =>
          '(hret, ps, evs') ← poolset_loop os nbufs (u64 (size * size_multiple)) size_multiple flag;
          Some (hret, p :: ps, evs ++ evs')
      | None => Some (hret, [], evs)
      end
  end.

(** [a1], [a2]: whether the two [calloc] succeed. *)
Definition margo_bulk_poolset_create (a1 a2 : bool) (os : list oracle) (nbufs first_size size_multiple flag : Z)
    : option (hg_return_t * option poolset * list event) :=
  if negb ((0 <? Z.of_nat (length os)) && (0 <? nbufs) && (0 <? first_size) && (1 <? size_multiple)) then None (* assert *)
  else if negb a1 then Some (HG_NOMEM_ERROR, None, [])
  else if negb a2 then Some (HG_NOMEM_ERROR, None, [])
  else
    '(hret, ps, evs) ← poolset_loop os nbufs first_size size_multiple flag;
    if negb (is_success hret)
    then Some (hret, None, evs ++ concat (map (fun p => (margo_bulk_pool_destroy (Some p)).2) ps))
    else Some (HG_SUCCESS, Some (Poolset ps (Z.of_nat (length os)) nbufs first_size size_multiple), evs).

Definition margo_bulk_poolset_destroy (s : option poolset) : Z * list event :=
  match s with
  | None => (0, [])
  | Some s =>
      foldl (fun '(ret, evs) p =>
               let '(r, e) := margo_bulk_pool_destroy (Some p) in
               (if (ret =? 0) && negb (r =? 0) then r else ret, evs ++ e)) (0, []) (pools s)
  end.

Definition margo_bulk_poolset_get_max (s : poolset) : option Z :=
  size <$> pools s !! Z.to_nat (u64 (npools s - 1)).

(** The loop of [margo_bulk_poolset_get]: the index of the pool to use. *)
Fixpoint find_fit (n : nat) (i : nat) (this_size size_mult size : Z) : option nat :=
  match n with
  | O => None
  | S n => if size <=? this_size then Some i else find_fit n (S i) (u64 (this_size * size_mult)) size_mult size
  end.

Definition set_pool (i : nat) (p : pool) (s : poolset) : poolset :=
  Poolset (<[i := p]> (pools s)) (npools s) (nbufs s) (first_size s) (size_multiple s).

(** Undefined when the pool to use has no free buffer: then the call waits. *)
Definition margo_bulk_poolset_get (s : option poolset) (size : Z) : option (Z * option (Z * poolset)) :=
  match s with
  | None => Some (-1, None)
  | Some s =>
      match find_fit (Z.to_nat (npools s)) 0 (first_size s) (size_multiple s) size with
      | None => Some (-1, None)
      | Some i =>
          p ← pools s !! i;
          '(ret, b, p) ← margo_bulk_pool_get p;
          Some (ret, Some (b, set_pool i p s))
      end
  end.

Fixpoint tryget_loop (n : nat) (i : nat) (this_size size : Z) (any_flag : bool) (s : poolset) : option (Z * poolset) :=
  match n with
  | O => Some (0, s)
  | S n =>
      if size <=? this_size then
        p ← pools s !! i;
        '(b, p) ← margo_bp_tryget p;
        let s := set_pool i p s in
        if negb (b =? 0) || negb any_flag then Some (b, s)
        else tryget_loop n (S i) (u64 (this_size * size_multiple s)) size any_flag s
      else tryget_loop n (S i) (u64 (this_size * size_multiple s)) size any_flag s
  end.

Definition margo_bulk_poolset_tryget (s : option poolset) (size : Z) (any_flag : bool) : option (Z * option (Z * poolset)) :=
  match s with
  | None => Some (-1, None)
  | Some s =>
      '(b, s) ← tryget_loop (Z.to_nat (npools s)) 0 (first_size s) size any_flag s;
      Some (0, Some (b, s))
  end.

(** The loop of [margo_bulk_poolset_release]. *)
Fixpoint find_size (n : nat) (i : nat) (size size_mult bulk_size : Z) : option nat :=
  match n with
  | O => None
  | S n => if bulk_size =? size then Some i else find_size n (S i) (u64 (size * size_mult)) size_mult bulk_size
  end.

Definition margo_bulk_poolset_release (s : option poolset) (bulk : Z) : option (Z * option poolset) :=
  match s with
  | None => Some (-1, None)
  | Some s =>
      if bulk =? 0 then Some (-1, Some s)
      else
        match find_size (Z.to_nat (npools s)) 0 (first_size s) (size_multiple s) (bulk_get_size bulk) with
        | None => Some (-1, Some s)
        | Some i =>
            p ← pools s !! i;
            '(ret, p') ← margo_bulk_pool_release (Some p) bulk;
            match p' with Some p' => Some (ret, Some (set_pool i p' s)) | None => Some (ret, Some s) end
        end
  end.

(** ** Invariant of a pool *)

(** [all]: the handles of the pool, [out]: those that are with users. *)
Record bp_inv (p : pool) (all out : list Z) : Prop := {
  bp_length : length (bulks p) = Z.to_nat (count p);
  bp_count : 0 <= count p < 2 ^ 64;
  bp_free : num_free p = count p - Z.of_nat (length out);
  bp_handles : drop (length out) (bulks p) ++ out ≡ₚ all;
  bp_all : length all = Z.to_nat (count p);
  bp_NoDup : NoDup all
}.

Lemma bp_out_le p all out : bp_inv p all out -> (length out <= length (bulks p))%nat.
Proof.
  intros [Hl _ _ Hp Ha _]. apply Permutation_length in Hp. rewrite length_app, length_drop in Hp. lia.
Qed.

Lemma bp_index p all out : bp_inv p all out -> Z.to_nat (u64 (count p - num_free p)) = length out.
Proof.
  intros Hi. pose proof (bp_out_le _ _ _ Hi). destruct Hi as [Hl Hc Hf _ _ _].
  rewrite Hf. replace (count p - _) with (Z.of_nat (length out)) by lia.
  rewrite u64_id; [by rewrite Nat2Z.id|]. unfold is_u64. lia.
Qed.

Lemma bp_get_spec p all out :
  bp_inv p all out -> 0 < num_free p ->
  exists b p', margo_bp_get p = Some (b, p') /\ p' = with_free (num_free p - 1) (bulks p) p /\
    bp_inv p' all (b :: out) /\ b ∈ all /\ b ∉ out /\ bulks p !! length out = Some b.
Proof.
  intros Hi Hn. pose proof (bp_index _ _ _ Hi) as Hx. pose proof (bp_out_le _ _ _ Hi) as Hle.
  destruct Hi as [Hl Hc Hf Hp Ha Hnd]. unfold margo_bp_get. rewrite Hx.
  destruct (lookup_lt_is_Some_2 (bulks p) (length out)) as [b Hb]; [lia|]. rewrite Hb. simpl.
  rewrite (drop_S _ _ _ Hb) in Hp. simpl in Hp.
  assert (Hnd' : NoDup (b :: drop (S (length out)) (bulks p) ++ out)) by (by rewrite Hp).
  exists b, (with_free (num_free p - 1) (bulks p) p).
  split; [by rewrite u64_id by (unfold is_u64; lia)|]. split; [done|]. split_and!.
  - split; simpl; try done; [lia|]. by rewrite <- Permutation_middle.
  - rewrite <- Hp. set_solver.
  - apply NoDup_cons in Hnd' as [Hn' _]. set_solver.
  - done.
Qed.

Lemma bp_release_spec p all o1 b o2 :
  bp_inv p all (o1 ++ b :: o2) ->
  exists p', margo_bp_release p b = Some p' /\ bp_inv p' all (o1 ++ o2) /\
    p' = with_free (num_free p + 1) (<[length (o1 ++ o2) := b]> (bulks p)) p.
Proof.
  intros Hi. pose proof (bp_out_le _ _ _ Hi) as Hle. destruct Hi as [Hl Hc Hf Hp Ha Hnd].
  set (k := length (o1 ++ o2)). assert (Hk : length (o1 ++ b :: o2) = S k) by (unfold k; rewrite !length_app; simpl; lia).
  rewrite Hk in *. unfold margo_bp_release.
  assert (Hn : u64 (num_free p + 1) = num_free p + 1) by (apply u64_id; unfold is_u64; lia).
  assert (Hx : u64 (count p - (num_free p + 1)) = Z.of_nat k).
  { rewrite Hf. replace (count p - _) with (Z.of_nat k) by lia. apply u64_id. unfold is_u64. lia. }
  rewrite Hn, Hx. rewrite (proj2 (Z.ltb_lt _ _)) by lia. rewrite Nat2Z.id. eexists. split; [done|]. split; [|done].
  split; simpl; try done; fold k.
  - by rewrite length_insert.
  - lia.
  - rewrite (drop_S _ b) by (apply list_lookup_insert_eq; lia). rewrite drop_insert_lt by lia.
    rewrite <- Hp. rewrite <- !Permutation_middle. done.
Qed.

(** Handles Mercury knows as pieces of the pool's buffer. *)
Definition registered (p : pool) (b : Z) : Prop :=
  b ≠ 0 /\ bulk_get_size b = size p /\
  exists i, 0 <= i < count p /\ bulk_access b (flag p) = (HG_SUCCESS, buf p + i * size p, size p).

Lemma release_registered p all o1 b o2 :
  bp_inv p all (o1 ++ b :: o2) -> registered p b -> 0 <= size p -> size p * count p < 2 ^ 64 ->
  exists p', margo_bulk_pool_release (Some p) b = Some (0, Some p') /\ bp_inv p' all (o1 ++ o2) /\
    p' = with_free (num_free p + 1) (<[length (o1 ++ o2) := b]> (bulks p)) p.
Proof.
  intros Hi (Hb & Hsz & i & Hir & Hacc) Hs Hov. destruct (bp_release_spec _ _ _ _ _ Hi) as (p' & Hr & Hp').
  exists p'. split; [|done]. simpl. rewrite (proj2 (Z.eqb_neq _ _) Hb), Hsz, Z.eqb_refl, Hacc. simpl.
  rewrite u64_id by (unfold is_u64; nia).
  rewrite (proj2 (Z.ltb_ge _ _)) by nia. rewrite (proj2 (Z.ltb_ge _ _)) by nia. simpl. by rewrite Hr.
Qed.

(** ** Threads of a pool *)

(** [out]: the handles with users; [blocked]: threads in [ABT_cond_wait];
    [woken]: threads that left it and have not tested [num_free] again. *)
Record shared := Shared { the_pool : pool; out : list Z; blocked : nat; woken : nat }.

(** A thread that finds a free buffer takes it; one that finds none waits.  A
    release wakes up a waiting thread if there is one; threads may also wake
    up for no reason. *)
Inductive bstep : shared -> shared -> Prop :=
  | b_get s b p' : num_free (the_pool s) ≠ 0 -> margo_bulk_pool_get (the_pool s) = Some (0, b, p') ->
      bstep s (Shared p' (b :: out s) (blocked s) (woken s))
  | b_wait s : num_free (the_pool s) = 0 -> bstep s (Shared (the_pool s) (out s) (S (blocked s)) (woken s))
  | b_woken_get s n b p' : woken s = S n -> num_free (the_pool s) ≠ 0 ->
      margo_bulk_pool_get (the_pool s) = Some (0, b, p') ->
      bstep s (Shared p' (b :: out s) (blocked s) n)
  | b_woken_wait s n : woken s = S n -> num_free (the_pool s) = 0 ->
      bstep s (Shared (the_pool s) (out s) (S (blocked s)) n)
  | b_tryget s b p' : margo_bulk_pool_tryget (Some (the_pool s)) = Some (0, Some (b, p')) ->
      bstep s (Shared p' (if b =? 0 then out s else b :: out s) (blocked s) (woken s))
  | b_release s o1 b o2 p' : out s = o1 ++ b :: o2 ->
      margo_bulk_pool_release (Some (the_pool s)) b = Some (0, Some p') ->
      bstep s (Shared p' (o1 ++ o2) (pred (blocked s)) (match blocked s with O => woken s | S _ => S (woken s) end))
  | b_spurious s n : blocked s = S n -> bstep s (Shared (the_pool s) (out s) n (S (woken s))).

Record shared_inv (all : list Z) (s : shared) : Prop := {
  si_pool : bp_inv (the_pool s) all (out s);
  si_registered : Forall (registered (the_pool s)) all;
  si_size : 0 <= size (the_pool s) /\ size (the_pool s) * count (the_pool s) < 2 ^ 64;
  si_wakeup : blocked s = 0%nat \/ num_free (the_pool s) <= Z.of_nat (woken s)
}.

(** Pools that differ only in what is free. *)
Lemma registered_with_free p n l b : registered (with_free n l p) b <-> registered p b.
Proof. done. Qed.

Lemma pool_get_spec p all outs b p' :
  bp_inv p all outs -> margo_bulk_pool_get p = Some (0, b, p') ->
  p' = with_free (num_free p - 1) (bulks p) p /\ bp_inv p' all (b :: outs) /\ b ∈ all /\ 0 < num_free p.
Proof.
  intros Hi. unfold margo_bulk_pool_get. destruct (Z.eqb_spec (num_free p) 0) as [|Hne]; [done|].
  pose proof (bp_out_le _ _ _ Hi). assert (Hpos : 0 < num_free p) by (destruct Hi; lia).
  destruct (bp_get_spec _ _ _ Hi Hpos) as (b1 & p1 & -> & -> & Hi' & Hb & _). simpl. intros [= <- <-]. done.
Qed.

Lemma shared_step all s s' : shared_inv all s -> bstep s s' -> shared_inv all s'.
Proof.
  intros [Hp Hr Hs Hw] Hst. inversion Hst; subst; simpl in *.
  - edestruct pool_get_spec as (-> & Hi & _ & _); [exact Hp|done|]. split; simpl; try done. lia.
  - split; simpl; try done. lia.
  - edestruct pool_get_spec as (-> & Hi & _ & _); [exact Hp|done|]. split; simpl; try done. lia.
  - split; simpl; try done. lia.
  - unfold margo_bp_tryget in *. destruct (Z.eqb_spec (num_free (the_pool s)) 0) as [E|Hne].
    + simpl in *. simplify_eq. simpl. split; simpl; try done.
    + pose proof (bp_out_le _ _ _ Hp). assert (Hpos : 0 < num_free (the_pool s)) by (destruct Hp; lia).
      destruct (bp_get_spec _ _ _ Hp Hpos) as (b1 & p1 & Heq & -> & Hi' & Hb & _).
      rewrite Heq in *. simpl in *. simplify_eq. rewrite Forall_forall in Hr.
      rewrite (proj2 (Z.eqb_neq b 0)) by apply (Hr b Hb). split; simpl; try done; [by rewrite Forall_forall|lia].
  - rewrite H in Hp. pose proof (bp_handles _ _ _ Hp) as Hperm.
    assert (Hb : registered (the_pool s) b).
    { rewrite Forall_forall in Hr. apply Hr. rewrite <- Hperm. set_solver. }
    destruct (release_registered _ _ _ _ _ Hp Hb (proj1 Hs) (proj2 Hs)) as (p1 & Heq & Hi' & ->).
    simpl in Heq. rewrite Heq in H0. simplify_eq. split; simpl; try done.
    destruct (blocked s); [by left|right; lia].
  - split; simpl; try done. lia.
Qed.

Lemma shared_reachable all s s' : shared_inv all s -> rtc bstep s s' -> shared_inv all s'.
Proof. intros Hi Hr. induction Hr as [|s1 s2 s3 Hst _ IH]; [done|]. apply IH. by eapply shared_step. Qed.

(** ** Creation *)

Lemma create_loop_spec o buf size n : forall i,
  let '(hret, l, evs) := create_loop o n i buf size in
  exists k, (k <= n)%nat /\ l = map (fun j => (o_bulk o j).2) (seq i k) /\
    evs = map (fun j => BulkCreate (buf + Z.of_nat j * size) size (o_bulk o j).2) (seq i k) /\
    (if is_success hret then k = n else (k < n)%nat).
Proof.
  induction n as [|n IH]; intros i; simpl; [by exists 0%nat|].
  destruct (o_bulk o i) as [h b] eqn:E. destruct (is_success h) eqn:Eh; simpl.
  - specialize (IH (S i)). destruct (create_loop o n (S i) buf size) as [[hret l] evs].
    destruct IH as (k & Hk & -> & -> & Hr). exists (S k). simpl. rewrite E. split_and!; [lia|done|done|].
    destruct (is_success hret); lia.
  - exists 0%nat. rewrite Eh. split_and!; [lia|done|done|lia].
Qed.

(** The handles created and freed, in order. *)
Definition created (evs : list event) : list Z := omap (fun e => match e with BulkCreate _ _ b => Some b | _ => None end) evs.
Definition freed (evs : list event) : list Z := omap (fun e => match e with BulkFree b => Some b | _ => None end) evs.

Lemma created_app l k : created (l ++ k) = created l ++ created k.
Proof. apply omap_app. Qed.
Lemma freed_app l k : freed (l ++ k) = freed l ++ freed k.
Proof. apply omap_app. Qed.

Lemma created_creates o buf size l :
  created (map (fun j => BulkCreate (buf + Z.of_nat j * size) size (o_bulk o j).2) l) = map (fun j => (o_bulk o j).2) l /\
  freed (map (fun j => BulkCreate (buf + Z.of_nat j * size) size (o_bulk o j).2) l) = [].
Proof. induction l as [|j l [IH1 IH2]]; [done|]. split; [simpl; f_equal; exact IH1|exact IH2]. Qed.

Lemma free_prefix_spec l n : Forall (fun b => b ≠ 0) l ->
  free_prefix (l ++ replicate n 0) = map BulkFree l.
Proof.
  induction 1 as [|b l Hb _ IH]; simpl; [by destruct n|]. by rewrite (proj2 (Z.eqb_neq _ _) Hb), IH.
Qed.

Lemma created_frees l : created (map BulkFree l) = [] /\ freed (map BulkFree l) = l.
Proof. induction l as [|b l [IH1 IH2]]; [done|]. split; [exact IH1|simpl; f_equal; exact IH2]. Qed.

(** The error path of a pool whose handles are [l]. *)
Lemma create_err_spec l n buf : Forall (fun b => b ≠ 0) l ->
  create_err (Some (Init (Some (l ++ replicate n 0)), Init (Some buf))) =
    Some (map BulkFree l ++ [FreeBulks; FreeBuf; FreePool]).
Proof. intros Hl. simpl. rewrite free_prefix_spec by done. by rewrite <- app_assoc. Qed.

(** ** Pool sets *)

Section Sizes.
Context (f m : Z) (Hf : 1 <= f) (Hm : 2 <= m).

Lemma size_pos k : 1 <= f * m ^ Z.of_nat k.
Proof. pose proof (Z.pow_pos_nonneg m (Z.of_nat k)). nia. Qed.

Lemma size_succ k : f * m ^ Z.of_nat k * m = f * m ^ Z.of_nat (S k).
Proof. rewrite Nat2Z.inj_succ, Z.pow_succ_r by lia. lia. Qed.

Lemma size_lt j k : (j < k)%nat -> f * m ^ Z.of_nat j < f * m ^ Z.of_nat k.
Proof. intros Hjk. apply Zmult_lt_compat_l; [lia|]. apply Z.pow_lt_mono_r; lia. Qed.

Lemma find_fit_spec size n : forall i,
  (forall j, (j < i + n)%nat -> f * m ^ Z.of_nat j < 2 ^ 64) ->
  match find_fit n i (f * m ^ Z.of_nat i) m size with
  | Some j => (i <= j < i + n)%nat /\ size <= f * m ^ Z.of_nat j /\
              forall k, (i <= k < j)%nat -> f * m ^ Z.of_nat k < size
  | None => forall k, (i <= k < i + n)%nat -> f * m ^ Z.of_nat k < size
  end.
Proof.
  induction n as [|n IH]; intros i Hb; cbn [find_fit]; [intros; lia|].
  destruct (Z.leb_spec size (f * m ^ Z.of_nat i)) as [|Hlt]; [split_and!; [lia|lia|done|intros; lia]|].
  assert (forall k, (i <= k < S i)%nat -> f * m ^ Z.of_nat k < size) by (intros k ?; by replace k with i by lia).
  destruct n as [|n]; [cbn [find_fit]; intros k ?; by replace k with i by lia|].
  rewrite size_succ, u64_id by (pose proof (size_pos (S i)); unfold is_u64; split; [lia|apply Hb; lia]).
  specialize (IH (S i)). destruct (find_fit (S n) (S i) _ m size) as [j|].
  - destruct IH as (? & ? & Hk); [intros; apply Hb; lia|]. split_and!; [lia|lia|done|].
    intros k Hr. destruct (Nat.eq_dec k i) as [->|]; [done|apply Hk; lia].
  - intros k Hr. destruct (Nat.eq_dec k i) as [->|]; [done|]. apply IH; [intros; apply Hb; lia|lia].
Qed.

Lemma find_size_spec n : forall i j,
  (forall k, (k < i + n)%nat -> f * m ^ Z.of_nat k < 2 ^ 64) -> (i <= j < i + n)%nat ->
  find_size n i (f * m ^ Z.of_nat i) m (f * m ^ Z.of_nat j) = Some j.
Proof.
  induction n as [|n IH]; intros i j Hb Hj; cbn [find_size]; [lia|].
  destruct (Nat.eq_dec j i) as [->|Hne]; [by rewrite Z.eqb_refl|].
  rewrite (proj2 (Z.eqb_neq _ _)) by (pose proof (size_lt i j); lia).
  rewrite size_succ, u64_id by (pose proof (size_pos (S i)); unfold is_u64; split; [lia|apply Hb; lia]).
  apply IH; [intros; apply Hb; lia|lia].
Qed.
End Sizes.

(** A pool set whose pools have the sizes of a geometric progression and whose
    handles are pieces of their pool. *)
Record wf_set (s : poolset) (alls outs : list (list Z)) : Prop := {
  ws_npools : npools s = Z.of_nat (length (pools s));
  ws_sizes : 1 <= first_size s /\ 2 <= size_multiple s;
  ws_bound k : (k < length (pools s))%nat -> first_size s * size_multiple s ^ Z.of_nat k < 2 ^ 64;
  ws_pool i p : pools s !! i = Some p -> exists all out,
    alls !! i = Some all /\ outs !! i = Some out /\ bp_inv p all out /\ Forall (registered p) all /\
    size p = first_size s * size_multiple s ^ Z.of_nat i /\ size p * count p < 2 ^ 64
}.

Lemma set_pool_restore i p p' s : pools s !! i = Some p -> set_pool i p (set_pool i p' s) = s.
Proof.
  intros Hi. unfold set_pool. simpl. rewrite list_insert_insert_eq, list_insert_id by done. by destruct s.
Qed.

Lemma poolset_release_spec s b i p p' :
  b ≠ 0 ->
  find_size (Z.to_nat (npools s)) 0 (first_size s) (size_multiple s) (bulk_get_size b) = Some i ->
  pools s !! i = Some p -> margo_bulk_pool_release (Some p) b = Some (0, Some p') ->
  margo_bulk_poolset_release (Some s) b = Some (0, Some (set_pool i p' s)).
Proof.
  intros Hb Hi Hp Hr. unfold margo_bulk_poolset_release. rewrite (proj2 (Z.eqb_neq _ _) Hb), Hi, Hp.
  cbn [mbind option_bind]. by rewrite Hr.
Qed.

Lemma find_fit_set s alls outs size :
  wf_set s alls outs ->
  match find_fit (Z.to_nat (npools s)) 0 (first_size s) (size_multiple s) size with
  | Some j => exists p, pools s !! j = Some p /\ size <= BulkPool.size p /\
                forall k q, pools s !! k = Some q -> (k < j)%nat -> BulkPool.size q < size
  | None => Forall (fun q => BulkPool.size q < size) (pools s)
  end.
Proof.
  intros [Hn [Hf Hm] Hb Hp]. rewrite Hn, Nat2Z.id.
  pose proof (find_fit_spec (first_size s) (size_multiple s) Hf Hm size (length (pools s)) 0 Hb) as Hs.
  rewrite Z.pow_0_r, Z.mul_1_r in Hs.
  destruct (find_fit _ 0 (first_size s) (size_multiple s) size) as [j|].
  - destruct Hs as (Hj & Hsz & Hk). destruct (lookup_lt_is_Some_2 (pools s) j) as [p Hlk]; [lia|]. exists p.
    destruct (Hp j p Hlk) as (? & ? & _ & _ & _ & _ & Heq & _). split_and!; [done|by rewrite Heq|].
    intros k q Hq Hkj. destruct (Hp k q Hq) as (? & ? & _ & _ & _ & _ & -> & _). apply Hk. lia.
  - apply Forall_lookup. intros k q Hq. destruct (Hp k q Hq) as (? & ? & _ & _ & _ & _ & -> & _).
    apply Hs. apply lookup_lt_Some in Hq. lia.
Qed.

(** ** Claims *)

(** C14: In every interleaving of threads that get, try to get and release the
    buffers of a pool, the buffers with users are distinct buffers of the pool,
    and the free ones are exactly the others, so that no buffer is handed out
    twice and none is lost; a thread that finds a free buffer gets it; and no
    wake-up is lost: as long as threads wait, there are at least as many threads
    about to try again as there are free buffers. *)
Theorem bulk_pool_threads all s s' :
  shared_inv all s -> rtc bstep s s' ->
  NoDup (out s') /\ out s' ⊆ all /\
  num_free (the_pool s') = Z.of_nat (length all) - Z.of_nat (length (out s')) /\
  drop (length (out s')) (bulks (the_pool s')) ++ out s' ≡ₚ all /\
  (num_free (the_pool s') ≠ 0 -> exists b p, margo_bulk_pool_get (the_pool s') = Some (0, b, p) /\ b ∈ all /\ b ∉ out s') /\
  ((0 < blocked s')%nat -> num_free (the_pool s') <= Z.of_nat (woken s')).
Proof.
  intros Hi Hr. destruct (shared_reachable _ _ _ Hi Hr) as [Hp _ _ Hw]. pose proof Hp as [Hl Hc Hf Hh Ha Hnd].
  pose proof (bp_out_le _ _ _ Hp). split_and!.
  - rewrite <- Hh in Hnd. by apply NoDup_app in Hnd as (_ & _ & ?).
  - intros b Hb. rewrite <- Hh. set_solver.
  - lia.
  - done.
  - intros Hne. destruct (bp_get_spec _ _ _ Hp) as (b & p' & Hg & _ & _ & ? & ? & _); [lia|].
    exists b, p'. unfold margo_bulk_pool_get. rewrite (proj2 (Z.eqb_neq _ _) Hne), Hg. done.
  - lia.
Qed.

(** When posix_memalign gives a buffer, creating a pool has a defined
    result.  On success the pool has count distinct free buffers, piece i of the
    buffer at offset i * size, and the size of the whole buffer did not wrap
    around, so that all pieces lie inside it; on an error no pool is returned
    and every bulk handle created has been freed exactly once, in order. *)
Theorem bulk_pool_create_correct o count size flag base :
  0 <= count < 2 ^ 64 -> 0 <= size < 2 ^ 64 -> o_memalign o = Some base ->
  (forall j, (o_bulk o j).2 ≠ 0) -> (forall j k, (o_bulk o j).2 = (o_bulk o k).2 -> j = k) ->
  exists hret r evs, margo_bulk_pool_create o count size flag = Some (hret, r, evs) /\
  match r with
  | Some p => hret = HG_SUCCESS /\ bp_inv p (bulks p) [] /\ size * count < 2 ^ 64 /\
      evs = map (fun j => BulkCreate (base + Z.of_nat j * size) size (o_bulk o j).2) (seq 0 (Z.to_nat count)) /\
      buf p = base /\ BulkPool.size p = size /\ BulkPool.count p = count
  | None => hret ≠ HG_SUCCESS /\ freed evs = created evs
  end.
Proof.
  intros Hc Hs Hm Hnz Hinj. unfold margo_bulk_pool_create.
  destruct (negb (count =? 0) && (SIZE_MAX / count <? size)) eqn:Eg; [by eexists _, _, _|].
  assert (Hov : size * count < 2 ^ 64).
  { apply andb_false_iff in Eg as [Eg|Eg]; [apply negb_false_iff, Z.eqb_eq in Eg; lia|]. apply Z.ltb_ge in Eg.
    destruct (Z.eq_dec count 0); [lia|]. pose proof (Z.mul_div_le SIZE_MAX count). unfold SIZE_MAX in *. nia. }
  destruct (o_malloc o); simpl; [|by eexists _, _, _]. rewrite Hm.
  destruct (o_calloc o); simpl; [|by eexists _, _, _].
  pose proof (create_loop_spec o base size (Z.to_nat count) 0) as Hl.
  destruct (create_loop o (Z.to_nat count) 0 base size) as [[h l] evs]. destruct Hl as (k & Hk & -> & -> & Hr).
  assert (Hz : Forall (fun b => b ≠ 0) (map (fun j => (o_bulk o j).2) (seq 0 k))).
  { apply Forall_forall. intros b (j & -> & _)%list_elem_of_fmap. apply Hnz. }
  rewrite !(free_prefix_spec _ _ Hz). simpl.
  destruct (created_creates o base size (seq 0 k)) as [Hcr Hfr], (created_frees (map (fun j => (o_bulk o j).2) (seq 0 k))) as [Hcf Hff].
  assert (Hbal : forall x, freed x = [] -> created x = [] -> freed (map (fun j => BulkCreate (base + Z.of_nat j * size) size (o_bulk o j).2) (seq 0 k) ++ x ++
    (map BulkFree (map (fun j => (o_bulk o j).2) (seq 0 k)) ++ [FreeBulks]) ++ [FreeBuf; FreePool]) =
    created (map (fun j => BulkCreate (base + Z.of_nat j * size) size (o_bulk o j).2) (seq 0 k) ++ x ++
    (map BulkFree (map (fun j => (o_bulk o j).2) (seq 0 k)) ++ [FreeBulks]) ++ [FreeBuf; FreePool])).
  { intros x Hx1 Hx2. rewrite !created_app, !freed_app, Hcr, Hfr, Hcf, Hff, Hx1, Hx2. simpl. by rewrite !app_nil_r. }
  destruct (is_success h) eqn:Eh; simpl.
  2:{ eexists _, _, _. split; [done|]. split; [by apply is_success_false|by apply (Hbal [])]. }
  destruct (o_mutex o =? 0); simpl; [|eexists _, _, _; split; [done|split; [done|by apply (Hbal [])]]].
  destruct (o_cond o =? 0); simpl; [|eexists _, _, _; split; [done|split; [done|by apply (Hbal [MutexFree])]]].
  subst k. rewrite length_map, length_seq, Nat.sub_diag. simpl. rewrite app_nil_r.
  eexists _, _, _. split; [done|]. split_and!; try done.
  split; simpl; try done; rewrite ?app_nil_r, ?length_map, ?length_seq; try done; try lia.
  apply NoDup_fmap_2_strong; [intros j1 j2 _ _; apply Hinj|apply NoDup_seq].
Qed.

(** Asking a pool set for a size larger than its largest buffers fails;
    otherwise the buffer comes from the pool with the smallest buffers that are
    large enough, when that pool has one free, and releasing it to the set finds
    the pool again by the size of the buffer and restores the set exactly. *)
Theorem poolset_smallest_fit s alls outs size :
  wf_set s alls outs ->
  (Forall (fun q => BulkPool.size q < size) (pools s) /\ margo_bulk_poolset_get (Some s) size = Some (-1, None)) \/
  exists i p, pools s !! i = Some p /\ size <= BulkPool.size p /\
    (forall k q, pools s !! k = Some q -> (k < i)%nat -> BulkPool.size q < size) /\
    (num_free p ≠ 0 -> exists b s' p' all, margo_bulk_poolset_get (Some s) size = Some (0, Some (b, s')) /\
       alls !! i = Some all /\ b ∈ all /\ s' = set_pool i p' s /\ num_free p' = num_free p - 1 /\
       margo_bulk_poolset_release (Some s') b = Some (0, Some s)).
Proof.
  intros Hwf. pose proof (find_fit_set s alls outs size Hwf) as Hfit. unfold margo_bulk_poolset_get.
  destruct (find_fit _ 0 (first_size s) (size_multiple s) size) as [i|]; [right|by left].
  destruct Hfit as (p & Hp & Hsz & Hmin). exists i, p. split_and!; [done|done|done|].
  intros Hne. pose proof Hwf as [Hn [Hf Hm] Hbound Hpools].
  destruct (Hpools i p Hp) as (all & outs_i & Hall & _ & Hi & Hreg & Hsize & Hov).
  pose proof (bp_out_le _ _ _ Hi). assert (Hpos : 0 < num_free p) by (destruct Hi; lia).
  destruct (bp_get_spec _ _ _ Hi Hpos) as (b & p' & Hg & -> & Hi' & Hb & _ & Hlk).
  exists b, (set_pool i (with_free (num_free p - 1) (bulks p) p) s), (with_free (num_free p - 1) (bulks p) p), all.
  split; [rewrite Hp; simpl; unfold margo_bulk_pool_get; by rewrite (proj2 (Z.eqb_neq _ _) Hne), Hg|].
  split_and!; try done.
  rewrite Forall_forall in Hreg. pose proof (Hreg b Hb) as (Hb0 & Hbs & _).
  destruct (release_registered _ _ [] b outs_i Hi' (Hreg b Hb)) as (p2 & Hr & _ & ->);
    [simpl; rewrite Hsize; pose proof (size_pos _ _ Hf Hm i); lia|done|].
  erewrite poolset_release_spec; [|exact Hb0| | |exact Hr].
  2:{ simpl. rewrite Hn, Nat2Z.id, Hbs, Hsize. pose proof (find_size_spec _ _ Hf Hm (length (pools s)) 0 i) as Hfs.
      rewrite Z.pow_0_r, Z.mul_1_r in Hfs. apply Hfs; [done|apply lookup_lt_Some in Hp; lia]. }
  2:{ simpl. by rewrite list_lookup_insert_eq by (by apply lookup_lt_Some in Hp). }
  do 3 f_equal. unfold with_free. simpl. rewrite list_insert_id by done.
  replace (num_free p - 1 + 1) with (num_free p) by lia.
  replace (Pool (buf p) (bulks p) (count p) (BulkPool.size p) (num_free p) (flag p)) with p by (by destruct p).
  by apply set_pool_restore.
Qed.

(** Releasing a buffer to a pool none of whose buffers is with a user,
    which only a double release can do, passes all checks of the function and
    writes before the start of the array of handles. *)
Theorem double_release_out_of_bounds p all b :
  bp_inv p all [] -> registered p b -> 0 <= size p -> size p * count p < 2 ^ 64 -> count p + 1 < 2 ^ 64 ->
  margo_bulk_pool_release (Some p) b = None.
Proof.
  intros [Hl Hc Hf _ _ _] (Hb & Hsz & i & Hir & Hacc) Hs Hov Hc1. simpl in *.
  rewrite (proj2 (Z.eqb_neq _ _) Hb), Hsz, Z.eqb_refl, Hacc. simpl. rewrite u64_id by (unfold is_u64; nia).
  rewrite (proj2 (Z.ltb_ge _ _)) by nia. rewrite (proj2 (Z.ltb_ge _ _)) by nia. simpl.
  unfold margo_bp_release. rewrite (u64_id (num_free p + 1)) by (unfold is_u64; lia).
  replace (count p - (num_free p + 1)) with (-1) by lia. change (u64 (-1)) with (2 ^ 64 - 1).
  by rewrite (proj2 (Z.ltb_ge _ _)) by lia.
Qed.

(** When posix_memalign fails, the error path of the creation reads the
    array of handles of the structure, which has not been set yet. *)
Theorem memalign_failure_undefined o count size flag :
  SIZE_MAX / count >= size -> o_malloc o = true -> o_memalign o = None ->
  margo_bulk_pool_create o count size flag = None.
Proof.
  intros Hg Hm Ha. unfold margo_bulk_pool_create. rewrite (proj2 (Z.ltb_ge _ _)) by lia.
  by rewrite andb_false_r, Hm, Ha.
Qed.
End Bulk.

(** ** Witnesses *)

(** Two buffers of 16 bytes at address 4096: handles 1 and 2. *)
Definition demo_size (b : Z) : Z := 16.
Definition demo_access (b flag : Z) : hg_return_t * Z * Z := (HG_SUCCESS, 4096 + (b - 1) * 16, 16).
Definition demo_pool : pool := Pool 4096 [1; 2] 2 16 2 0.

Lemma demo_inv : bp_inv demo_pool [1; 2] [].
Proof. split; simpl; try done. by apply (bool_decide_unpack _). Qed.

Lemma demo_registered : Forall (registered demo_size demo_access demo_pool) [1; 2].
Proof.
  apply Forall_cons; split; [|apply Forall_cons; split; [|constructor]]; unfold registered; simpl.
  - split; [done|]. split; [done|]. exists 0. split; [lia|done].
  - split; [done|]. split; [done|]. exists 1. split; [lia|done].
Qed.

Lemma demo_shared : shared_inv demo_size demo_access [1; 2] (Shared demo_pool [] 0 0).
Proof. split; [apply demo_inv|apply demo_registered|simpl; lia|by left]. Qed.

Lemma bulk_pool_threads_witness :
  exists s', rtc (bstep demo_size demo_access) (Shared demo_pool [] 0 0) s' /\ out s' = [1] /\ NoDup (out s') /\
    num_free (the_pool s') = 1.
Proof.
  exists (Shared (with_free 1 [1; 2] demo_pool) [1] 0 0).
  assert (Hr : rtc (bstep demo_size demo_access) (Shared demo_pool [] 0 0) (Shared (with_free 1 [1; 2] demo_pool) [1] 0 0)).
  { apply rtc_once. by apply (b_get _ _ (Shared demo_pool [] 0 0) 1 (with_free 1 [1; 2] demo_pool)). }
  destruct (bulk_pool_threads demo_size demo_access [1; 2] _ _ demo_shared Hr) as (? & _ & ? & _). done.
Defined.

(** Libraries that agree to everything; handle j + 1 for piece j. *)
Definition demo_oracle : oracle := Oracle true (Some 4096) true (fun j => (HG_SUCCESS, Z.of_nat j + 1)) 0 0.

Lemma bulk_pool_create_correct_witness :
  exists hret r evs, margo_bulk_pool_create demo_oracle 2 16 0 = Some (hret, r, evs) /\
  match r with
  | Some p => hret = HG_SUCCESS /\ bp_inv p (bulks p) [] /\ 16 * 2 < 2 ^ 64 /\
      evs = map (fun j => BulkCreate (4096 + Z.of_nat j * 16) 16 (o_bulk demo_oracle j).2) (seq 0 (Z.to_nat 2)) /\
      buf p = 4096 /\ BulkPool.size p = 16 /\ BulkPool.count p = 2
  | None => hret ≠ HG_SUCCESS /\ freed evs = created evs
  end.
Proof. apply (bulk_pool_create_correct demo_oracle 2 16 0 4096); simpl; intros; try done; lia. Defined.

Lemma demo_set_wf : wf_set demo_size demo_access (Poolset [demo_pool] 1 2 16 2) [[1; 2]] [[]].
Proof.
  split; [done|simpl; lia|intros [|k] Hk; simpl in Hk; [done|lia]|].
  intros [|i] p; simpl; [|by rewrite lookup_nil]. intros [= <-]. exists [1; 2], [].
  split_and!; [done|done|apply demo_inv|apply demo_registered|done|done].
Qed.

Lemma poolset_smallest_fit_witness :
  exists b s', margo_bulk_poolset_get (Some (Poolset [demo_pool] 1 2 16 2)) 10 = Some (0, Some (b, s')) /\
    margo_bulk_poolset_release demo_size demo_access (Some s') b = Some (0, Some (Poolset [demo_pool] 1 2 16 2)).
Proof.
  destruct (poolset_smallest_fit demo_size demo_access _ _ _ 10 demo_set_wf) as [[H _]|(i & p & Hp & _ & _ & Hg)].
  - apply Forall_cons in H as [H _]. simpl in H. lia.
  - destruct i as [|i]; [|by destruct i]. simpl in Hp. simplify_eq.
    destruct Hg as (b & s' & p' & all & H1 & _ & _ & _ & _ & H2); [done|]. by exists b, s'.
Defined.

Lemma double_release_out_of_bounds_witness : margo_bulk_pool_release demo_size demo_access (Some demo_pool) 1 = None.
Proof.
  apply (double_release_out_of_bounds demo_size demo_access demo_pool [1; 2] 1 demo_inv); try done.
  pose proof demo_registered as H. by apply Forall_cons in H as [H _].
Defined.

Lemma memalign_failure_undefined_witness :
  margo_bulk_pool_create (Oracle true None true (fun _ => (HG_SUCCESS, 1)) 0 0) 2 16 0 = None.
Proof. by apply (memalign_failure_undefined (Oracle true None true (fun _ => (HG_SUCCESS, 1)) 0 0) 2 16 0). Defined.
