(* ===== verification/Json.v ===== *)
(** * JSON configurations (src/margo-macros.h)

    JSON values as json-c gives them to Margo (a JSON null is the NULL pointer,
    [None]), the accessors with defaults, and the macros that check
    configurations.  A macro that may run HANDLE_CONFIG_ERROR is a boolean,
    false when it does. *)

From Stdlib Require Import String Ascii.
From stdpp Require Import strings.
From S2P Require Import Prelude.

#[local] Open Scope Z_scope.

(** ** Values *)

Inductive json :=
  | JBool (b : bool)
  | JDouble (s : string)
  | JInt (n : Z)
  | JString (s : string)
  | JArray (l : list (option json))
  | JObject (l : list (string * option json)).

Inductive json_type := json_type_boolean | json_type_double | json_type_int | json_type_string | json_type_array | json_type_object.

#[export] Instance json_type_eq_dec : EqDecision json_type.
Proof. solve_decision. Defined.

Definition json_object_get_type (j : json) : json_type :=
  match j with
  | JBool _ => json_type_boolean | JDouble _ => json_type_double | JInt _ => json_type_int
  | JString _ => json_type_string | JArray _ => json_type_array | JObject _ => json_type_object
  end.

(** [json_object_is_type] on a pointer: NULL has the type null. *)
Definition json_object_is_type (j : option json) (t : json_type) : bool :=
  match j with Some j => bool_decide (json_object_get_type j = t) | None => false end.

(** The first value of a key; keys of json-c's objects are unique. *)
Fixpoint assoc (l : list (string * option json)) (key : string) : option json :=
  match l with
  | [] => None
  | (k, v) :: l => if bool_decide (k = key) then v else assoc l key
  end.

Definition json_object_object_get (j : option json) (key : string) : option json :=
  match j with Some (JObject l) => assoc l key | _ => None end.

Definition json_object_array (j : option json) : list (option json) :=
  match j with Some (JArray l) => l | _ => [] end.

(** The string of a string value, NULL for other types (Margo asks for the
    string of strings only). *)
Definition json_object_get_string (j : option json) : option string :=
  match j with Some (JString s) => Some s | _ => None end.

(** [int64_t] values; [json_object_get_int] saturates at the bounds of [int]. *)
Definition json_object_get_int64 (j : option json) : Z := match j with Some (JInt n) => n | _ => 0 end.
(** [json_object_get_uint64] gives 0 for a negative value. *)
Definition json_object_get_uint64 (j : option json) : Z := Z.max 0 (json_object_get_int64 j).
Definition json_object_get_int (j : option json) : Z :=
  Z.max (- 2 ^ 31) (Z.min (2 ^ 31 - 1) (json_object_get_int64 j)).

(** ** Building objects *)

Definition members := list (string * option json).

(** [json_object_object_add_ex] with [JSON_C_OBJECT_ADD_KEY_IS_NEW] does not look
    for the key. *)
Definition json_object_object_add_ex (key : string) (v : json) (l : members) : members := l ++ [(key, Some v)].

Definition json_object_new_int (n : Z) : json := JInt (i32 n).
Definition json_object_new_uint64 (n : Z) : json := JInt n.

(** ** Accessors with defaults *)

Definition json_object_object_get_uint64_or (o : option json) (key : string) (x : Z) : Z :=
  let value := json_object_object_get o key in
  if json_object_is_type value json_type_int then json_object_get_uint64 value else x.

Definition json_object_object_get_int64_or (o : option json) (key : string) (x : Z) : Z :=
  let value := json_object_object_get o key in
  if json_object_is_type value json_type_int then json_object_get_int64 value else x.

Definition json_object_object_get_int_or (o : option json) (key : string) (x : Z) : Z :=
  let value := json_object_object_get o key in
  if json_object_is_type value json_type_int then json_object_get_int value else x.

Definition json_object_object_get_bool_or (o : option json) (key : string) (x : bool) : bool :=
  match json_object_object_get o key with Some (JBool b) => b | _ => x end.

Definition json_object_object_get_string_or (o : option json) (key : string) (fallback : string) : string :=
  match json_object_object_get o key with Some (JString s) => s | _ => fallback end.

(** ** Checks *)

Definition CONFIG_MUST_HAVE (config : option json) (t : json_type) (key : string) : bool :=
  let out := json_object_object_get config key in
  match out with None => false | Some _ => json_object_is_type out t end.

(** The value is read into an [int]. *)
Definition CONFIG_INTEGER_MUST_BE_POSITIVE (config : option json) (key : string) : bool :=
  negb (i32 (json_object_get_int64 (json_object_object_get config key)) <? 0).

(** The first element of an array with a given name; an array is walked up to
    its first null element. *)
Fixpoint find_by_name (l : list (option json)) (i : Z) (name : string) : Z * option json :=
  match l with
  | [] => (-1, None)
  | None :: _ => (-1, None)
  | Some item :: l =>
      match json_object_object_get (Some item) "name" with
      | None => find_by_name l (i + 1) name
      | name_json =>
          if bool_decide (json_object_get_string name_json = Some name) then (i, Some item)
          else find_by_name l (i + 1) name
      end
  end.
Definition CONFIG_FIND_BY_NAME (array : option json) (name : string) : Z * option json :=
  find_by_name (json_object_array array) 0 name.

Definition CONFIG_ARRAY_MUST_HAVE_ITEM_NAMED (config : option json) (name : string) : bool :=
  negb ((CONFIG_FIND_BY_NAME config name).1 =? -1).

Definition CONFIG_IS_IN_ENUM_STRING (config : option json) (vals : list string) : bool :=
  existsb (fun v => bool_decide (json_object_get_string config = Some v)) vals.

(** No two elements have equal names, which have been checked to be strings. *)
Definition same_name (a b : option json) : bool :=
  match json_object_object_get a "name", json_object_object_get b "name" with
  | Some (JString x), Some (JString y) => bool_decide (x = y)
  | _, _ => false
  end.
Fixpoint names_unique (seen l : list (option json)) : bool :=
  match l with
  | [] => true
  | a :: l => negb (existsb (same_name a) seen) && names_unique (seen ++ [a]) l
  end.
Definition CONFIG_NAMES_MUST_BE_UNIQUE (array : option json) : bool := names_unique [] (json_object_array array).

Definition isdigit (c : ascii) : bool := ((48 <=? nat_of_ascii c) && (nat_of_ascii c <=? 57))%nat.
Definition isalpha (c : ascii) : bool :=
  ((65 <=? nat_of_ascii c) && (nat_of_ascii c <=? 90) || (97 <=? nat_of_ascii c) && (nat_of_ascii c <=? 122))%nat.
Definition isalnum (c : ascii) : bool := isalpha c || isdigit c.
Definition name_char (c : ascii) : bool := isalnum c || bool_decide (c = "_"%char).

Definition valid_name (s : string) : bool :=
  match list_ascii_of_string s with
  | [] => false
  | c :: l => negb (isdigit c) && forallb name_char (c :: l)
  end.
(** [obj] has a name. *)
Definition CONFIG_NAME_IS_VALID (obj : option json) : bool :=
  match json_object_get_string (json_object_object_get obj "name") with
  | Some s => valid_name s
  | None => false
  end.

Definition ASSERT_CONFIG_HAS_REQUIRED (config : option json) (key : string) (t : json_type) : bool :=
  CONFIG_MUST_HAVE config t key.

Definition ASSERT_CONFIG_HAS_OPTIONAL (config : option json) (key : string) (t : json_type) : bool :=
  let tmp := json_object_object_get config key in
  match tmp with None => true | Some _ => json_object_is_type tmp t end.

(** ** Facts *)

Lemma optional_string config key :
  ASSERT_CONFIG_HAS_OPTIONAL config key json_type_string = true ->
  json_object_object_get config key = None \/ exists s, json_object_object_get config key = Some (JString s).
Proof.
  unfold ASSERT_CONFIG_HAS_OPTIONAL. destruct (json_object_object_get config key) as [[]|]; simpl; try done; eauto.
Qed.

Lemma optional_array config key :
  ASSERT_CONFIG_HAS_OPTIONAL config key json_type_array = true ->
  json_object_object_get config key = None \/ exists l, json_object_object_get config key = Some (JArray l).
Proof.
  unfold ASSERT_CONFIG_HAS_OPTIONAL. destruct (json_object_object_get config key) as [[]|]; simpl; try done; eauto.
Qed.

Lemma enum_string config vals :
  CONFIG_IS_IN_ENUM_STRING config vals = true <-> exists s, json_object_get_string config = Some s /\ s ∈ vals.
Proof.
  unfold CONFIG_IS_IN_ENUM_STRING. rewrite existsb_exists. split.
  - intros (v & Hv & He%bool_decide_eq_true). exists v. by rewrite list_elem_of_In.
  - intros (s & Hs & Hin%list_elem_of_In). exists s. by rewrite bool_decide_eq_true.
Qed.

(** The names given in an array that passes the check are distinct. *)
Definition names_of (l : list (option json)) : list string :=
  omap (fun j => json_object_get_string (json_object_object_get j "name")) l.

Lemma names_unique_NoDup l : forall seen,
  NoDup (names_of seen) -> names_unique seen l = true -> NoDup (names_of (seen ++ l)).
Proof.
  induction l as [|a l IH]; intros seen Hs; simpl; [by rewrite app_nil_r|].
  intros [Ha Hl]%andb_true_iff. rewrite (cons_middle a seen l), app_assoc. apply IH; [|done].
  unfold names_of in *. rewrite omap_app. apply NoDup_app. split; [done|]. split.
  2:{ simpl. destruct (json_object_get_string _); [apply NoDup_singleton|constructor]. }
  intros x Hx Hin. simpl in Hin.
  destruct (json_object_object_get a "name") as [[| | |y| |]|] eqn:Ea; simpl in Hin; try by apply elem_of_nil in Hin.
  apply list_elem_of_singleton in Hin as ->. apply list_elem_of_omap in Hx as (b & Hb & Hbn).
  apply negb_true_iff, not_true_iff_false in Ha. apply Ha, existsb_exists. exists b. split; [by apply list_elem_of_In|].
  unfold same_name. rewrite Ea. destruct (json_object_object_get b "name") as [[]|]; simpl in Hbn; try done.
  simplify_eq. by apply bool_decide_eq_true.
Qed.
