(* ===== verification/AbtConfig.v ===== *)
(** * Pools and execution streams (src/margo-abt-config.c)

    The tables of Argobots pools and execution streams of an instance: names,
    handles, reference counts and, for a pool, the number of execution streams
    whose scheduler uses it.  The model follows the functions from validation of
    their JSON description to creation, removal and destruction, for Argobots
    versions before 2.0.  Argobots is behind return codes and handles (numbers,
    0 is NULL), except for one fact the model keeps: the list of pools of the
    main scheduler of each execution stream.  Strings can always be copied. *)

From stdpp Require Import strings pretty.
From S2P Require Import Prelude Json.

#[local] Open Scope Z_scope.

(** ** Data *)

Record margo_abt_pool := Pool {
  p_name : string;
  p_pool : Z;
  p_kind : string;
  p_access : option string;
  p_refcount : Z;
  p_num_xstreams : Z;
  p_margo_free_flag : bool;
  p_used_by_primary : bool
}.

Record margo_abt_xstream := Xstream {
  x_name : string;
  x_xstream : Z;
  x_sched_type : string;
  x_refcount : Z;
  x_margo_free_flag : bool
}.

(** Calls that release what Argobots created. *)
Inductive event := PoolFree (h : Z) | XstreamJoinFree (h : Z) | AbtFinalize.

(** [margo_abt], whose lengths are those of the lists, with Argobots' main
    schedulers ([main]: the pools of an execution stream) and the releases so
    far. *)
Record margo_abt := Abt {
  pools : list margo_abt_pool;
  pools_cap : Z;
  xstreams : list margo_abt_xstream;
  xstreams_cap : Z;
  profiling_dir : string;
  main : gmap Z (list Z);
  events : list event
}.

Definition set_pools (l : list margo_abt_pool) (a : margo_abt) : margo_abt :=
  Abt l (pools_cap a) (xstreams a) (xstreams_cap a) (profiling_dir a) (main a) (events a).
Definition set_xstreams (l : list margo_abt_xstream) (a : margo_abt) : margo_abt :=
  Abt (pools a) (pools_cap a) l (xstreams_cap a) (profiling_dir a) (main a) (events a).
Definition set_main (m : gmap Z (list Z)) (a : margo_abt) : margo_abt :=
  Abt (pools a) (pools_cap a) (xstreams a) (xstreams_cap a) (profiling_dir a) m (events a).
Definition emit (l : list event) (a : margo_abt) : margo_abt :=
  Abt (pools a) (pools_cap a) (xstreams a) (xstreams_cap a) (profiling_dir a) (main a) (events a ++ l).

(** ** Searches *)

(** The index of the first element that satisfies a test, -1 without one. *)
Fixpoint index_of {A} (test : A -> bool) (l : list A) (i : Z) : Z :=
  match l with [] => -1 | x :: l => if test x then i else index_of test l (i + 1) end.

Definition __margo_abt_find_pool_by_name (a : margo_abt) (name : option string) : Z :=
  match name with
  | None => -1
  | Some name => index_of (fun p => bool_decide (p_name p = name)) (pools a) 0
  end.

Definition __margo_abt_find_pool_by_handle (a : margo_abt) (pool : Z) : Z :=
  if pool =? 0 then -1 else index_of (fun p => p_pool p =? pool) (pools a) 0.

Definition __margo_abt_find_xstream_by_name (a : margo_abt) (name : option string) : Z :=
  match name with
  | None => -1
  | Some name => index_of (fun x => bool_decide (x_name x = name)) (xstreams a) 0
  end.

Definition __margo_abt_find_xstream_by_handle (a : margo_abt) (xstream : Z) : Z :=
  if xstream =? 0 then -1 else index_of (fun x => x_xstream x =? xstream) (xstreams a) 0.

(** ** Names *)

(** The loop of the two generators; [i] is printed with %d. *)
Fixpoint unused_name (fuel : nat) (prefix : string) (i : Z) (names : list string) : option string :=
  match fuel with
  | O => None
  | S fuel =>
      let name := (prefix +:+ pretty (i32 i) +:+ "__")%string in
      if bool_decide (name ∈ names) then unused_name fuel prefix (u32 (i + 1)) names else Some name
  end.

Definition generate_unused_pool_name (fuel : nat) (a : margo_abt) : option string :=
  unused_name fuel "__pool_" (Z.of_nat (length (pools a))) (map p_name (pools a)).

Definition generate_unused_xstream_name (fuel : nat) (a : margo_abt) : option string :=
  unused_name fuel "__xstream_" (Z.of_nat (length (xstreams a))) (map x_name (xstreams a)).

(** As many tries as there are names, and one more. *)
Definition pool_fuel (a : margo_abt) : nat := S (length (pools a)).
Definition xstream_fuel (a : margo_abt) : nat := S (length (xstreams a)).

(** ** Pools *)

(** [initialized]: whether Argobots was initialised before Margo. *)
Definition __margo_abt_pool_validate_json (initialized : bool) (jpool : option json) : bool :=
  match jpool with
  | None => true
  | Some _ =>
      json_object_is_type jpool json_type_object &&
      ASSERT_CONFIG_HAS_OPTIONAL jpool "access" json_type_string &&
      (match json_object_object_get jpool "access" with
       | None => true
       | jaccess => CONFIG_IS_IN_ENUM_STRING jaccess ["private"; "spsc"; "mpsc"; "spmc"; "mpmc"]%string
       end) &&
      ASSERT_CONFIG_HAS_OPTIONAL jpool "kind" json_type_string &&
      (match json_object_object_get jpool "kind" with
       | None => true
       | jkind =>
           CONFIG_IS_IN_ENUM_STRING jkind ["fifo"; "fifo_wait"; "prio_wait"; "earliest_first"; "external"]%string &&
           negb (bool_decide (json_object_get_string jkind = Some "external"%string))
       end) &&
      ASSERT_CONFIG_HAS_OPTIONAL jpool "name" json_type_string &&
      (match json_object_object_get jpool "name" with
       | None => true
       | jname =>
           CONFIG_NAME_IS_VALID jpool &&
           negb (bool_decide (json_object_get_string jname = Some "__primary__"%string) && initialized)
       end)
  end.

(** What Argobots is asked to create. *)
Inductive pool_request := PoolBasic (kind access : string) | PoolPrio | PoolEfirst.

Definition request_of (kind access : string) : option pool_request :=
  if bool_decide (kind = "fifo_wait")%string || bool_decide (kind = "fifo")%string then Some (PoolBasic kind access)
  else if bool_decide (kind = "prio_wait")%string then Some PoolPrio
  else if bool_decide (kind = "earliest_first")%string then Some PoolEfirst
  else None.

(** [create] is the code and the handle Argobots returns; [None] is the result
    false, with the entry zeroed. *)
Definition __margo_abt_pool_init_from_json (create : Z * Z) (jpool : option json) (a : margo_abt)
    : option margo_abt_pool :=
  let name :=
    match json_object_object_get jpool "name" with
    | None => generate_unused_pool_name (pool_fuel a) a
    | jname => json_object_get_string jname
    end in
  name ← name;
  let kind := json_object_object_get_string_or jpool "kind" "fifo_wait" in
  let access := json_object_object_get_string_or jpool "access" "mpmc" in
  match request_of kind access with
  | None => None
  | Some _ => if negb (create.1 =? 0) then None else Some (Pool name create.2 kind (Some access) 0 0 true false)
  end.

Definition __margo_abt_pool_init_external (name : option string) (handle : Z) (a : margo_abt) : option margo_abt_pool :=
  name ← match name with Some n => Some n | None => generate_unused_pool_name (pool_fuel a) a end;
  Some (Pool name handle "external" None 0 0 false false).

Definition __margo_abt_pool_to_json (p : margo_abt_pool) : json :=
  JObject ([("kind", Some (JString (p_kind p))); ("name", Some (JString (p_name p)))]%string ++
    match p_access p with Some s => [("access"%string, Some (JString s))] | None => [] end).

Definition __margo_abt_pool_destroy (p : margo_abt_pool) : list event :=
  if p_margo_free_flag p && negb (p_used_by_primary p) && negb (p_pool p =? 0) then [PoolFree (p_pool p)] else [].

(** ** Schedulers *)

(** One reference to a pool, among the pools of the table and the extra ones. *)
Definition pool_ref_ok (a : margo_abt) (extra : list (option json)) (jref : option json) : bool :=
  let num_available := Z.of_nat (length (pools a)) + Z.of_nat (length extra) in
  match jref with
  | Some (JInt _) =>
      let index := json_object_get_int jref in negb ((index <? 0) || (num_available <=? index))
  | Some (JString name) =>
      (0 <=? __margo_abt_find_pool_by_name a (Some name)) ||
      existsb (fun p => bool_decide (json_object_get_string (json_object_object_get p "name") = Some name)) extra
  | _ => false
  end.

Definition __margo_abt_sched_validate_json (a : margo_abt) (jextra_pool_array jsched : option json) : bool :=
  match jsched with
  | None => true
  | Some _ =>
      let jsched_pools := json_object_array (json_object_object_get jsched "pools") in
      json_object_is_type jsched json_type_object &&
      ASSERT_CONFIG_HAS_OPTIONAL jsched "type" json_type_string &&
      (match json_object_object_get jsched "type" with
       | None => true
       | jtype => CONFIG_IS_IN_ENUM_STRING jtype ["default"; "basic"; "prio"; "randws"; "basic_wait"]%string
       end) &&
      ASSERT_CONFIG_HAS_OPTIONAL jsched "pools" json_type_array &&
      negb (bool_decide (jsched_pools = [])) &&
      forallb (pool_ref_ok a (json_object_array jextra_pool_array)) jsched_pools
  end.

(** The pool a reference designates: an index is read as [uint32_t], an unknown
    name gives the number of pools. *)
Definition resolve (a : margo_abt) (jpool : option json) : Z :=
  match jpool with
  | Some (JInt _) => u32 (json_object_get_int jpool)
  | _ =>
      let i := index_of (fun p => bool_decide (Some (p_name p) = json_object_get_string jpool)) (pools a) 0 in
      if i =? -1 then Z.of_nat (length (pools a)) else i
  end.

Definition resolve_handle (a : margo_abt) (jpool : option json) : option Z :=
  let pool_idx := resolve a jpool in
  if Z.of_nat (length (pools a)) <=? pool_idx then None else p_pool <$> pools a !! Z.to_nat pool_idx.

(** The type and the pools of the scheduler; [ret] is the code of
    [ABT_sched_create_basic]. *)
Definition __margo_abt_sched_init_from_json (ret : Z) (jsched : option json) (a : margo_abt)
    : option (string * list Z) :=
  let type := json_object_object_get_string_or jsched "type" "basic_wait" in
  abt_pools ← mapM (resolve_handle a) (json_object_array (json_object_object_get jsched "pools"));
  if negb (ret =? 0) then None else Some (type, abt_pools).

(** Codes of the three calls that read the pools of a scheduler. *)
Record sched_codes := Codes { c_main_sched : Z; c_num_pools : Z; c_get_pools : nat -> Z }.
Definition codes_ok : sched_codes := Codes 0 0 (fun _ => 0).

(** [None] for an external scheduler with an unknown pool; [get] is the code of
    [ABT_sched_get_pools] for all the pools. *)
Definition __margo_abt_sched_init_external (num_pools get : Z) (sched : list Z) (a : margo_abt) : option string :=
  if negb (num_pools =? 0) then None
  else if negb (get =? 0) then None
  else if existsb (fun h => __margo_abt_find_pool_by_handle a h <? 0) sched then None
  else Some "external"%string.

(** ** Execution streams *)

Definition all_int (l : list (option json)) : bool := forallb (fun v => json_object_is_type v json_type_int) l.

Definition __margo_abt_xstream_validate_json (initialized : bool) (a : margo_abt) (jextra jxstream : option json) : bool :=
  let jsched := json_object_object_get jxstream "scheduler" in
  json_object_is_type jxstream json_type_object &&
  ASSERT_CONFIG_HAS_OPTIONAL jxstream "name" json_type_string &&
  ASSERT_CONFIG_HAS_OPTIONAL jxstream "cpubind" json_type_int &&
  ASSERT_CONFIG_HAS_OPTIONAL jxstream "affinity" json_type_array &&
  __margo_abt_sched_validate_json a jextra jsched &&
  bool_decide (is_Some jsched) &&
  all_int (json_object_array (json_object_object_get jxstream "affinity")) &&
  (match json_object_object_get jxstream "name" with
   | None => true
   | jname =>
       CONFIG_NAME_IS_VALID jxstream &&
       (if bool_decide (json_object_get_string jname = Some "__primary__"%string) then
          negb initialized && negb (bool_decide (json_object_array (json_object_object_get jsched "pools") = []))
        else true)
   end).

Definition incr_xstreams (primary : bool) (p : margo_abt_pool) : margo_abt_pool :=
  Pool (p_name p) (p_pool p) (p_kind p) (p_access p) (p_refcount p) (u32 (p_num_xstreams p + 1))
    (p_margo_free_flag p) (p_used_by_primary p || primary).
Definition decr_xstreams (p : margo_abt_pool) : margo_abt_pool :=
  Pool (p_name p) (p_pool p) (p_kind p) (p_access p) (p_refcount p) (u32 (p_num_xstreams p - 1))
    (p_margo_free_flag p) (p_used_by_primary p).

(** The loop over the pools of a scheduler, from pool [i] on: it stops at the
    first error or unknown pool, with [false], and keeps what it has done. *)
Fixpoint each_pool (get : nat -> Z) (f : margo_abt_pool -> margo_abt_pool) (i : nat) (sched : list Z) (a : margo_abt)
    : bool * margo_abt :=
  match sched with
  | [] => (true, a)
  | h :: sched =>
      if negb (get i =? 0) then (false, a)
      else
        let pool_idx := __margo_abt_find_pool_by_handle a h in
        if pool_idx <? 0 then (false, a)
        else each_pool get f (S i) sched (set_pools (alter f (Z.to_nat pool_idx) (pools a)) a)
  end.

Definition main_pools (a : margo_abt) (h : Z) : list Z := default [] (main a !! h).

Definition __margo_abt_xstream_destroy (c : sched_codes) (x : margo_abt_xstream) (a : margo_abt) : margo_abt :=
  let a :=
    if x_xstream x =? 0 then a
    else if negb (c_main_sched c =? 0) then a
    else if negb (c_num_pools c =? 0) then a
    else (each_pool (c_get_pools c) decr_xstreams 0 (main_pools a (x_xstream x)) a).2 in
  if x_margo_free_flag x && negb (x_xstream x =? 0) then emit [XstreamJoinFree (x_xstream x)] a else a.

(** What Argobots returns while an execution stream is created: the codes for
    the scheduler, the new stream, the current stream and the change of its
    scheduler, and those of reading its pools, by this function ([o_codes]), by
    [__margo_abt_sched_init_external] ([o_ext]) and on the error path
    ([o_undo]). *)
Record xstream_oracle := Oracle {
  o_sched : Z;
  o_create : Z * Z;
  o_self : Z * Z;
  o_set_main : Z;
  o_codes : sched_codes;
  o_ext : Z * Z;
  o_undo : sched_codes
}.

(** The entry, or [None] for false, and the tables. *)
Definition __margo_abt_xstream_init_from_json (o : xstream_oracle) (jxstream : option json) (a : margo_abt)
    : option margo_abt_xstream * margo_abt :=
  let name :=
    match json_object_object_get jxstream "name" with
    | None => generate_unused_xstream_name (xstream_fuel a) a
    | jname => json_object_get_string jname
    end in
  match name with
  | None => (None, a)
  | Some name =>
      match __margo_abt_sched_init_from_json (o_sched o) (json_object_object_get jxstream "scheduler") a with
      | None => (None, __margo_abt_xstream_destroy (o_undo o) (Xstream name 0 "" 0 false) a)
      | Some (type, sched) =>
          let fail x a := (None, __margo_abt_xstream_destroy (o_undo o) x a) in
          let count primary x a :=
            if negb (c_num_pools (o_codes o) =? 0) then fail x a
            else
              let '(ok, a) := each_pool (c_get_pools (o_codes o)) (incr_xstreams primary) 0 sched a in
              if ok then (Some x, a) else fail x a in
          if negb (bool_decide (name = "__primary__"%string)) then
            let '(ret, handle) := o_create o in
            let handle := if ret =? 0 then handle else 0 in
            let a := if ret =? 0 then set_main (<[handle := sched]> (main a)) a else a in
            count false (Xstream name handle type 0 true) a
          else
            let '(ret, handle) := o_self o in
            if negb (ret =? 0) then fail (Xstream name 0 type 0 false) a
            else if negb (o_set_main o =? 0) then fail (Xstream name handle type 0 false) a
            else count true (Xstream name handle type 0 false) (set_main (<[handle := sched]> (main a)) a)
      end
  end.

(** [name] is not NULL: the code compares it with [strcmp]. *)
Definition __margo_abt_xstream_init_external (o : xstream_oracle) (name : option string) (handle : Z) (a : margo_abt)
    : option (option margo_abt_xstream * margo_abt) :=
  let x t := Xstream (default ""%string name) handle t 0 false in
  let fail a := Some (None, __margo_abt_xstream_destroy (o_undo o) (x ""%string) a) in
  if negb (c_main_sched (o_codes o) =? 0) then fail a
  else
    match __margo_abt_sched_init_external (o_ext o).1 (o_ext o).2 (main_pools a handle) a with
    | None => fail a
    | Some type =>
        name ← name; (* strcmp(NULL, ...) *)
        if negb (c_num_pools (o_codes o) =? 0) then fail a
        else
        let '(ok, a) := each_pool (c_get_pools (o_codes o)) (incr_xstreams (bool_decide (name = "__primary__"%string))) 0
                          (main_pools a handle) a in
        if ok then Some (Some (x type), a) else fail a
    end.

(** ** Adding and removing *)

(** Room for one more entry; [realloc] is whether the array could be enlarged. *)
Definition grow_cap (len cap : Z) (realloc : bool) : option Z :=
  if len =? cap then if realloc then Some (u32 (cap * 3 / 2 + 1)) else None else Some cap.

Definition with_caps (pc xc : Z) (a : margo_abt) : margo_abt :=
  Abt (pools a) pc (xstreams a) xc (profiling_dir a) (main a) (events a).

Definition __margo_abt_add_pool_from_json (initialized realloc : bool) (create : Z * Z) (config : option json) (a : margo_abt)
    : bool * margo_abt :=
  if negb (__margo_abt_pool_validate_json initialized config) then (false, a)
  else if 0 <=? __margo_abt_find_pool_by_name a (json_object_get_string (json_object_object_get config "name")) then (false, a)
  else
    match grow_cap (Z.of_nat (length (pools a))) (pools_cap a) realloc with
    | None => (false, a)
    | Some cap =>
        let a := with_caps cap (xstreams_cap a) a in
        match __margo_abt_pool_init_from_json create config a with
        | Some p => (true, set_pools (pools a ++ [p]) a)
        | None => (false, a)
        end
    end.

Definition __margo_abt_add_external_pool (realloc : bool) (name : option string) (pool : Z) (a : margo_abt) : bool * margo_abt :=
  if 0 <=? __margo_abt_find_pool_by_name a name then (false, a)
  else if 0 <=? __margo_abt_find_pool_by_handle a pool then (false, a)
  else
    match grow_cap (Z.of_nat (length (pools a))) (pools_cap a) realloc with
    | None => (false, a)
    | Some cap =>
        let a := with_caps cap (xstreams_cap a) a in
        match __margo_abt_pool_init_external name pool a with
        | Some p => (true, set_pools (pools a ++ [p]) a)
        | None => (false, a)
        end
    end.

Definition __margo_abt_add_xstream_from_json (initialized realloc : bool) (o : xstream_oracle) (config : option json)
    (a : margo_abt) : bool * margo_abt :=
  if negb (__margo_abt_xstream_validate_json initialized a None config) then (false, a)
  else if 0 <=? __margo_abt_find_xstream_by_name a (json_object_get_string (json_object_object_get config "name")) then (false, a)
  else
    match grow_cap (Z.of_nat (length (xstreams a))) (xstreams_cap a) realloc with
    | None => (false, a)
    | Some cap =>
        let a := with_caps (pools_cap a) cap a in
        match __margo_abt_xstream_init_from_json o config a with
        | (Some x, a) => (true, set_xstreams (xstreams a ++ [x]) a)
        | (None, a) => (false, a)
        end
    end.

Definition __margo_abt_add_external_xstream (realloc : bool) (o : xstream_oracle) (name : option string) (xstream : Z)
    (a : margo_abt) : option (bool * margo_abt) :=
  if 0 <=? __margo_abt_find_xstream_by_name a name then Some (false, a)
  else if 0 <=? __margo_abt_find_xstream_by_handle a xstream then Some (false, a)
  else
    match grow_cap (Z.of_nat (length (xstreams a))) (xstreams_cap a) realloc with
    | None => Some (false, a)
    | Some cap =>
        let a := with_caps (pools_cap a) cap a in
        '(x, a) ← __margo_abt_xstream_init_external o name xstream a;
        match x with
        | Some x => Some (true, set_xstreams (xstreams a ++ [x]) a)
        | None => Some (false, a)
        end
    end.

(** The last entry takes the place of entry [index]. *)
Definition swap_remove {A} (index : nat) (l : list A) : list A :=
  match last l with
  | Some x => removelast (if (index =? length l - 1)%nat then l else <[index := x]> l)
  | None => []
  end.

(** [total] is the code and the size [ABT_pool_get_total_size] gives. *)
Definition __margo_abt_remove_pool (total : Z * Z) (index : Z) (a : margo_abt) : hg_return_t * margo_abt :=
  match pools a !! Z.to_nat index with
  | None => (HG_INVALID_ARG, a)
  | Some p =>
      if negb (p_refcount p =? 0) then (HG_PERMISSION, a)
      else if negb (p_num_xstreams p =? 0) then (HG_PERMISSION, a)
      else if negb (total.1 =? 0) then (HG_OTHER_ERROR, a)
      else if negb (total.2 =? 0) then (HG_PERMISSION, a)
      else (HG_SUCCESS, set_pools (swap_remove (Z.to_nat index) (pools a)) (emit (__margo_abt_pool_destroy p) a))
  end.

Definition __margo_abt_remove_xstream (c : sched_codes) (index : Z) (a : margo_abt) : hg_return_t * margo_abt :=
  match xstreams a !! Z.to_nat index with
  | None => (HG_INVALID_ARG, a)
  | Some x =>
      if bool_decide (x_name x = "__primary__"%string) then (HG_PERMISSION, a)
      else if negb (x_refcount x =? 0) then (HG_PERMISSION, a)
      else
        let a := __margo_abt_xstream_destroy c x a in
        (HG_SUCCESS, set_xstreams (swap_remove (Z.to_nat index) (xstreams a)) a)
  end.

(** ** The whole configuration *)

Definition empty_abt (m : gmap Z (list Z)) : margo_abt := Abt [] 0 [] 0 "" m [].

Definition __margo_abt_validate_json (initialized : bool) (a : option json) : bool :=
  match a with
  | None => true
  | Some _ =>
      let jpools := json_object_object_get a "pools" in
      let jxstreams := json_object_object_get a "xstreams" in
      json_object_is_type a json_type_object &&
      ASSERT_CONFIG_HAS_OPTIONAL a "pools" json_type_array &&
      ASSERT_CONFIG_HAS_OPTIONAL a "xstreams" json_type_array &&
      ASSERT_CONFIG_HAS_OPTIONAL a "abt_mem_max_num_stacks" json_type_int &&
      ASSERT_CONFIG_HAS_OPTIONAL a "abt_thread_stacksize" json_type_int &&
      ASSERT_CONFIG_HAS_OPTIONAL a "profiling_dir" json_type_string &&
      forallb (__margo_abt_pool_validate_json initialized) (json_object_array jpools) &&
      CONFIG_NAMES_MUST_BE_UNIQUE jpools &&
      forallb (__margo_abt_xstream_validate_json initialized (empty_abt ∅) jpools) (json_object_array jxstreams) &&
      CONFIG_NAMES_MUST_BE_UNIQUE jxstreams
  end.

(** The globals of the process: whether Argobots is initialised, whether Margo
    did it, the number of instances ([int]) and the environment. *)
Record globals := Globals {
  abt_initialized : bool;
  g_margo_abt_init : bool;
  g_margo_num_instances : Z;
  env : gmap string string
}.

(** What the calls of an initialisation return: [ABT_init]; the allocation of
    the two arrays; the creation of the pool or the execution stream that
    becomes entry [n]; [ABT_xstream_get_main_pools]; the handle of the current
    stream; and reading the scheduler of entry [n] when everything is
    destroyed. *)
Record init_oracle := InitOracle {
  i_abt_init : Z;
  i_alloc_pools : bool;
  i_alloc_xstreams : bool;
  i_pools : nat -> Z * Z;
  i_xstreams : nat -> xstream_oracle;
  i_main_pools : Z;
  i_self : Z;
  i_undo : nat -> sched_codes
}.

Fixpoint init_pools (create : nat -> Z * Z) (jpools : list (option json)) (a : margo_abt) : bool * margo_abt :=
  match jpools with
  | [] => (true, a)
  | jpool :: jpools =>
      match __margo_abt_pool_init_from_json (create (length (pools a))) jpool a with
      | Some p => init_pools create jpools (set_pools (pools a ++ [p]) a)
      | None => (false, a)
      end
  end.

Fixpoint init_xstreams (o : nat -> xstream_oracle) (jxstreams : list (option json)) (a : margo_abt) : bool * margo_abt :=
  match jxstreams with
  | [] => (true, a)
  | jxstream :: jxstreams =>
      match __margo_abt_xstream_init_from_json (o (length (xstreams a))) jxstream a with
      | (Some x, a) => init_xstreams o jxstreams (set_xstreams (xstreams a ++ [x]) a)
      | (None, a) => (false, a)
      end
  end.

Fixpoint destroy_xstreams (undo : nat -> sched_codes) (i : nat) (l : list margo_abt_xstream) (a : margo_abt) : margo_abt :=
  match l with
  | [] => a
  | x :: l => destroy_xstreams undo (S i) l (__margo_abt_xstream_destroy (undo i) x a)
  end.

Definition __margo_abt_destroy (undo : nat -> sched_codes) (g : globals) (a : margo_abt) : globals * margo_abt :=
  let a := destroy_xstreams undo 0 (xstreams a) a in
  let a := emit (concat (map __margo_abt_pool_destroy (pools a))) a in
  let a := Abt [] 0 [] 0 "" (main a) (events a) in
  let n := g_margo_num_instances g - 1 in
  if (n =? 0) && g_margo_abt_init g then (Globals false false n (env g), emit [AbtFinalize] a)
  else (Globals (abt_initialized g) (g_margo_abt_init g) n (env g), a).

(** [setenv] of an integer read as [uint64_t] and stored in an [int], unless
    the variable is set. *)
Definition env_default (var key : string) (x : Z) (jabt : option json) (e : gmap string string) : gmap string string :=
  match e !! var with
  | Some _ => e
  | None => <[var := pretty (i32 (json_object_object_get_uint64_or jabt key x))]> e
  end.

Definition MARGO_DEFAULT_ABT_MEM_MAX_NUM_STACKS : Z := 8.
Definition MARGO_DEFAULT_ABT_THREAD_STACKSIZE : Z := 2097152.

Definition primary_pool_json : json :=
  JObject [("name", Some (JString "__primary__")); ("access", Some (JString "mpmc"))]%string.
Definition primary_xstream_json (primary_pool_idx : Z) : json :=
  JObject [("name", Some (JString "__primary__"));
           ("scheduler", Some (JObject [("pools", Some (JArray [Some (JInt primary_pool_idx)]))]))]%string.

Definition first_pool (ret : Z) (a : margo_abt) (xstream : Z) : Z :=
  if ret =? 0 then default 0 (head (main_pools a xstream)) else 0.

(** A primary execution stream of the configuration runs its first pool, which
    is the pool named __primary__, if there is one. *)
Definition check_primary (o : init_oracle) (x : margo_abt_xstream) (a : margo_abt) : bool :=
  let primary_pool_idx := __margo_abt_find_pool_by_name a (Some "__primary__"%string) in
  (i_main_pools o =? 0) &&
  negb ((0 <=? primary_pool_idx) &&
        negb (primary_pool_idx =? __margo_abt_find_pool_by_handle a (first_pool (i_main_pools o) a (x_xstream x)))).

Definition keep_pool (p : margo_abt_pool) : margo_abt_pool :=
  Pool (p_name p) (p_pool p) (p_kind p) (p_access p) (p_refcount p) (p_num_xstreams p) false (p_used_by_primary p).

Definition add_primary (o : init_oracle) (first_abt_init : bool) (a : margo_abt) : bool * margo_abt :=
  if first_abt_init then
    let idx := __margo_abt_find_pool_by_name a (Some "__primary__"%string) in
    let '(result, idx, a) :=
      if idx <? 0 then
        match __margo_abt_pool_init_from_json (i_pools o (length (pools a))) (Some primary_pool_json) a with
        | Some p => (true, Z.of_nat (length (pools a)), set_pools (pools a ++ [p]) a)
        | None => (false, Z.of_nat (length (pools a)), a)
        end
      else (true, idx, a) in
    if negb result then (false, a)
    else
      let a := set_pools (alter keep_pool (Z.to_nat idx) (pools a)) a in
      match __margo_abt_xstream_init_from_json (i_xstreams o (length (xstreams a))) (Some (primary_xstream_json idx)) a with
      | (Some x, a) => (true, set_xstreams (xstreams a ++ [x]) a)
      | (None, a) => (false, a)
      end
  else
    match __margo_abt_pool_init_external (Some "__primary__"%string) (first_pool (i_main_pools o) a (i_self o)) a with
    | None => (false, a)
    | Some p =>
        let a := set_pools (pools a ++ [p]) a in
        match __margo_abt_xstream_init_external (i_xstreams o (length (xstreams a))) (Some "__primary__"%string) (i_self o) a with
        | Some (Some x, a) => (true, set_xstreams (xstreams a ++ [x]) a)
        | Some (None, a) => (false, a)
        | None => (false, a)
        end
    end.

(** The primary execution stream, given or added. *)
Definition find_primary (o : init_oracle) (first_abt_init : bool) (a : margo_abt) : bool * margo_abt :=
  let primary_es_idx := __margo_abt_find_xstream_by_name a (Some "__primary__"%string) in
  if 0 <=? primary_es_idx then
    match xstreams a !! Z.to_nat primary_es_idx with
    | Some x => (check_primary o x a, a)
    | None => (false, a) (* the index is that of an entry *)
    end
  else add_primary o first_abt_init a.

(** The pools, the execution streams and the primary execution stream. *)
Definition build (o : init_oracle) (first_abt_init : bool) (jabt : option json) (a : margo_abt) : bool * margo_abt :=
  let jpools := json_object_array (json_object_object_get jabt "pools") in
  let jxstreams := json_object_array (json_object_object_get jabt "xstreams") in
  let dir := match json_object_object_get jabt "profiling_dir" with
             | None => "."%string
             | jdir => default ""%string (json_object_get_string jdir)
             end in
  let a := Abt [] (Z.of_nat (length jpools) + 3) [] 0 dir (main a) (events a) in
  if negb (i_alloc_pools o) then (false, a)
  else
    let '(result, a) := init_pools (i_pools o) jpools a in
    if negb result then (false, a)
    else
      let a := with_caps (pools_cap a) (Z.of_nat (length jxstreams) + 1) a in
      if negb (i_alloc_xstreams o) then (false, a)
      else
        let '(result, a) := init_xstreams (i_xstreams o) jxstreams a in
        if negb result then (false, a)
        else
          find_primary o first_abt_init a.

Definition __margo_abt_init_from_json (o : init_oracle) (jabt : option json) (g : globals) (a : margo_abt)
    : bool * globals * margo_abt :=
  let error g a := let '(g, a) := __margo_abt_destroy (i_undo o) g a in (false, g, a) in
  let first_abt_init := negb (abt_initialized g) in
  let e := if abt_initialized g then env g
           else env_default "ABT_MEM_MAX_NUM_STACKS" "abt_mem_max_num_stacks" MARGO_DEFAULT_ABT_MEM_MAX_NUM_STACKS jabt
                  (env_default "ABT_THREAD_STACKSIZE" "abt_thread_stacksize" MARGO_DEFAULT_ABT_THREAD_STACKSIZE jabt (env g)) in
  if first_abt_init && negb (i_abt_init o =? 0) then
    error (Globals false (g_margo_abt_init g) (g_margo_num_instances g) e) a
  else
    let g := Globals true (first_abt_init || g_margo_abt_init g) (g_margo_num_instances g + 1) e in
    let '(result, a) := build o first_abt_init jabt a in
    if result then (true, g, a) else error g a.

(** ** Back to JSON *)

Definition pool_ref_json (use_names hide : bool) (a : margo_abt) (h : Z) : list (option json) :=
  let pool_index := __margo_abt_find_pool_by_handle a h in
  match pools a !! Z.to_nat pool_index with
  | Some p =>
      if pool_index <? 0 then []
      else if hide && bool_decide (p_kind p = "external"%string) then []
      else [Some (if use_names : bool then JString (p_name p) else JInt pool_index)]
  | None => []
  end.

Definition __margo_abt_sched_to_json (c : sched_codes) (use_names hide : bool) (type : string) (sched : list Z)
    (a : margo_abt) : json :=
  JObject [("type"%string, Some (JString type));
           ("pools"%string, Some (JArray (if negb (c_num_pools c =? 0) then [] else
              concat (imap (fun i h => if negb (c_get_pools c i =? 0) then [] else pool_ref_json use_names hide a h) sched))))].

(** [cpubind] and [affinity]: the code and the value Argobots returns. *)
Definition __margo_abt_xstream_to_json (c : sched_codes) (cpubind : Z * Z) (affinity : Z * list Z) (use_names hide : bool)
    (x : margo_abt_xstream) (a : margo_abt) : json :=
  if negb (c_main_sched c =? 0) then JObject []
  else
    JObject ([("scheduler", Some (__margo_abt_sched_to_json c use_names hide (x_sched_type x) (main_pools a (x_xstream x)) a));
              ("name", Some (JString (x_name x)))]%string ++
      (if cpubind.1 =? 0 then [("cpubind"%string, Some (JInt cpubind.2))] else []) ++
      (if affinity.1 =? 0 then [("affinity"%string, Some (JArray (map (fun n => Some (JInt n)) affinity.2)))] else [])).

(** [atol] and whether stacks are allocated lazily are not Margo's. *)
Definition __margo_abt_to_json (c : nat -> sched_codes) (cpubind : nat -> Z * Z) (affinity : nat -> Z * list Z)
    (atol : string -> Z) (lazy use_names hide : bool) (e : gmap string string) (a : margo_abt) : json :=
  let jxstreams :=
    concat (imap (fun i x => if hide && bool_decide (x_sched_type x = "external"%string) then []
                             else [Some (__margo_abt_xstream_to_json (c i) (cpubind i) (affinity i) use_names hide x a)])
              (xstreams a)) in
  let jpools :=
    concat (map (fun p => if hide && bool_decide (p_kind p = "external"%string) then []
                          else [Some (__margo_abt_pool_to_json p)]) (pools a)) in
  let env_int var key := match e !! var with Some s => [(key, Some (JInt (atol s)))] | None => [] end in
  JObject ([("pools", Some (JArray jpools)); ("xstreams", Some (JArray jxstreams))]%string ++
    env_int "ABT_MEM_MAX_NUM_STACKS"%string "abt_mem_max_num_stacks"%string ++
    env_int "ABT_THREAD_STACKSIZE"%string "abt_thread_stacksize"%string ++
    [("profiling_dir", Some (JString (profiling_dir a))); ("lazy_stack_alloc", Some (JBool lazy))]%string).
