(* ===== verification/AbtTables.v ===== *)
(** * The tables of pools and execution streams

    The searches and the generated names of AbtConfig, the invariant of the two
    tables under every function that changes them, and the refinement of the
    pool table to a directory of handles by name. *)

From stdpp Require Import strings pretty.
From S2P Require Import Prelude Json AbtConfig.

#[local] Open Scope Z_scope.

(** ** Definitions of the specification *)

Definition count (l : list Z) (h : Z) : nat := length (filter (eq h) l).

(** The pools of all execution streams of the table, with repetitions. *)
Definition used_pools (a : margo_abt) : list Z := xstreams a ≫= (fun x => main_pools a (x_xstream x)).

(** The invariant: names and handles are unique, the arrays have room for their
    entries, the pools of execution streams are in the table, and each pool
    counts its uses. *)
Record wf (a : margo_abt) : Prop := {
  wf_names : NoDup (map p_name (pools a));
  wf_handles : NoDup (map p_pool (pools a));
  wf_nonnull : Forall (fun p => p_pool p ≠ 0) (pools a);
  wf_xnames : NoDup (map x_name (xstreams a));
  wf_xhandles : NoDup (map x_xstream (xstreams a));
  wf_xnonnull : Forall (fun x => x_xstream x ≠ 0) (xstreams a);
  wf_pcap : Z.of_nat (length (pools a)) <= pools_cap a < 2 ^ 31;
  wf_xcap : Z.of_nat (length (xstreams a)) <= xstreams_cap a < 2 ^ 31;
  wf_registered : Forall (fun h => h ∈ map p_pool (pools a)) (used_pools a);
  wf_count : Forall (fun p => p_num_xstreams p = u32 (Z.of_nat (count (used_pools a) (p_pool p)))) (pools a)
}.

(** Calls of Argobots succeed and give a handle that is not in the table. *)
Definition fresh_pool (a : margo_abt) (create : Z * Z) : Prop :=
  create.1 = 0 -> create.2 ≠ 0 /\ create.2 ∉ map p_pool (pools a).

Record good_oracle (a : margo_abt) (o : xstream_oracle) (h : Z) : Prop := {
  go_create : o_create o = (0, h);
  go_self : o_self o = (0, h);
  go_set_main : o_set_main o = 0;
  go_codes : o_codes o = codes_ok;
  go_nonnull : h ≠ 0;
  go_fresh : h ∉ map x_xstream (xstreams a)
}.

(** The calls on the tables, as a client of the pool table sees them. *)
Inductive call :=
  | AddJson (name : option string) (h : Z) (ok : bool)
  | AddExternal (name : option string) (h : Z) (ok : bool)
  | Remove (h : Z) (ret : hg_return_t)
  | OnXstreams.

(** One call, with arrays of fewer than 2^30 entries and fewer than 2^32 uses.  Other parts of the
    process change the schedulers of the streams they own ([step_main]); the
    pools of an external stream have been added before it. *)
Inductive step (initialized : bool) : call -> margo_abt -> margo_abt -> Prop :=
  | step_add_pool realloc create config a ok a' :
      Z.of_nat (length (pools a)) < 2 ^ 30 -> fresh_pool a create ->
      __margo_abt_add_pool_from_json initialized realloc create config a = (ok, a') ->
      step initialized (AddJson (json_object_get_string (json_object_object_get config "name")) create.2 ok) a a'
  | step_add_external realloc name h a ok a' :
      Z.of_nat (length (pools a)) < 2 ^ 30 -> h ≠ 0 ->
      __margo_abt_add_external_pool realloc name h a = (ok, a') ->
      step initialized (AddExternal name h ok) a a'
  | step_remove total index p a ret a' :
      Z.of_nat (length (used_pools a)) < 2 ^ 32 -> pools a !! Z.to_nat index = Some p ->
      __margo_abt_remove_pool total index a = (ret, a') ->
      step initialized (Remove (p_pool p) ret) a a'
  | step_add_xstream realloc o h config a ok a' :
      Z.of_nat (length (xstreams a)) < 2 ^ 30 -> good_oracle a o h ->
      __margo_abt_add_xstream_from_json initialized realloc o config a = (ok, a') ->
      step initialized OnXstreams a a'
  | step_add_external_xstream realloc o name h a ok a' :
      Z.of_nat (length (xstreams a)) < 2 ^ 30 -> o_codes o = codes_ok -> o_ext o = (0, 0) -> h ≠ 0 ->
      Forall (fun p => p ∈ map p_pool (pools a)) (main_pools a h) ->
      __margo_abt_add_external_xstream realloc o name h a = Some (ok, a') ->
      step initialized OnXstreams a a'
  | step_remove_xstream index a ret a' :
      __margo_abt_remove_xstream codes_ok index a = (ret, a') ->
      step initialized OnXstreams a a'
  | step_main h l a :
      h ∉ map x_xstream (xstreams a) ->
      step initialized OnXstreams a (set_main (<[h := l]> (main a)) a).

Inductive reachable (initialized : bool) (a : margo_abt) : margo_abt -> Prop :=
  | reach_refl : reachable initialized a a
  | reach_step c a1 a2 : reachable initialized a a1 -> step initialized c a1 a2 -> reachable initialized a a2.

(** What the pool table stands for: the handles by name.  A client sees it
    change in one way for each call and result. *)
Definition pool_dir (a : margo_abt) : gmap string Z := list_to_map (map (fun p => (p_name p, p_pool p)) (pools a)).

Definition dir_add (name : option string) (h : Z) (d d' : gmap string Z) : Prop :=
  exists n, (forall n', name = Some n' -> n = n') /\ d !! n = None /\ (forall n', d !! n' ≠ Some h) /\ d' = <[n := h]> d.

Definition dir_step (c : call) (d d' : gmap string Z) : Prop :=
  match c with
  | AddJson name h ok | AddExternal name h ok => if ok then dir_add name h d d' else d' = d
  | Remove h ret => if is_success ret then exists n, d !! n = Some h /\ d' = delete n d else d' = d
  | OnXstreams => d' = d
  end.

(** ** Searches *)

Lemma index_of_spec {A} (test : A -> bool) l : forall i, 0 <= i ->
  (index_of test l i = -1 /\ Forall (fun x => test x = false) l) \/
  exists k x, index_of test l i = i + Z.of_nat k /\ l !! k = Some x /\ test x = true /\
              Forall (fun x => test x = false) (take k l).
Proof.
  induction l as [|y l IH]; intros i Hi; simpl; [by left|].
  destruct (test y) eqn:Ey.
  - right. exists 0%nat, y. simpl. split_and!; [lia|done..|constructor].
  - destruct (IH (i + 1)) as [[-> ?]|(k & x & -> & ? & ? & ?)]; [lia|left|right].
    + split; [done|by constructor].
    + exists (S k), x. simpl. split_and!; [lia|done..|by constructor].
Qed.

Lemma find_pool_by_name_spec a n :
  (__margo_abt_find_pool_by_name a (Some n) = -1 /\ n ∉ map p_name (pools a)) \/
  exists k p, __margo_abt_find_pool_by_name a (Some n) = Z.of_nat k /\ pools a !! k = Some p /\ p_name p = n.
Proof.
  unfold __margo_abt_find_pool_by_name.
  destruct (index_of_spec (fun p => bool_decide (p_name p = n)) (pools a) 0 ltac:(lia))
    as [[-> Hf]|(k & p & -> & Hk & Hp%bool_decide_eq_true & _)]; [left|right].
  - split; [done|]. intros (p & -> & Hp)%list_elem_of_fmap. rewrite Forall_forall in Hf.
    specialize (Hf p Hp). by rewrite bool_decide_eq_true_2 in Hf.
  - exists k, p. split_and!; [lia|done..].
Qed.

Lemma find_pool_by_handle_spec a h : h ≠ 0 ->
  (__margo_abt_find_pool_by_handle a h = -1 /\ h ∉ map p_pool (pools a)) \/
  exists k p, __margo_abt_find_pool_by_handle a h = Z.of_nat k /\ pools a !! k = Some p /\ p_pool p = h.
Proof.
  intros Hh. unfold __margo_abt_find_pool_by_handle. rewrite (proj2 (Z.eqb_neq h 0)) by done.
  destruct (index_of_spec (fun p => p_pool p =? h) (pools a) 0 ltac:(lia))
    as [[-> Hf]|(k & p & -> & Hk & Hp%Z.eqb_eq & _)]; [left|right].
  - split; [done|]. intros (p & -> & Hp)%list_elem_of_fmap. rewrite Forall_forall in Hf.
    specialize (Hf p Hp). simpl in Hf. by rewrite Z.eqb_refl in Hf.
  - exists k, p. split_and!; [lia|done..].
Qed.

Lemma find_xstream_by_name_spec a n :
  (__margo_abt_find_xstream_by_name a (Some n) = -1 /\ n ∉ map x_name (xstreams a)) \/
  exists k x, __margo_abt_find_xstream_by_name a (Some n) = Z.of_nat k /\ xstreams a !! k = Some x /\ x_name x = n.
Proof.
  unfold __margo_abt_find_xstream_by_name.
  destruct (index_of_spec (fun x => bool_decide (x_name x = n)) (xstreams a) 0 ltac:(lia))
    as [[-> Hf]|(k & x & -> & Hk & Hp%bool_decide_eq_true & _)]; [left|right].
  - split; [done|]. intros (x & -> & Hx)%list_elem_of_fmap. rewrite Forall_forall in Hf.
    specialize (Hf x Hx). by rewrite bool_decide_eq_true_2 in Hf.
  - exists k, x. split_and!; [lia|done..].
Qed.

Lemma find_xstream_by_handle_fresh a h : h ≠ 0 -> __margo_abt_find_xstream_by_handle a h < 0 ->
  h ∉ map x_xstream (xstreams a).
Proof.
  intros Hh. unfold __margo_abt_find_xstream_by_handle. rewrite (proj2 (Z.eqb_neq h 0)) by done.
  destruct (index_of_spec (fun x => x_xstream x =? h) (xstreams a) 0 ltac:(lia))
    as [[-> Hf]|(k & x & -> & _)]; [|lia].
  intros _ (x & -> & Hx)%list_elem_of_fmap. rewrite Forall_forall in Hf.
  specialize (Hf x Hx). simpl in Hf. by rewrite Z.eqb_refl in Hf.
Qed.

(** ** Generated names *)

Definition unused_pool_name (a : margo_abt) (n : string) : Prop := n ∉ map p_name (pools a).
Definition unused_xstream_name (a : margo_abt) (n : string) : Prop := n ∉ map x_name (xstreams a).

Lemma string_length_app (a s : string) : String.length (a +:+ s) = (String.length a + String.length s)%nat.
Proof. induction a as [|c a IH]; simpl; [done|]. by f_equal. Qed.

Lemma append_inj_r (a b s : string) : (a +:+ s = b +:+ s -> a = b)%string.
Proof.
  revert b. induction a as [|c a IH]; intros [|d b] H; [done|..].
  1,2: apply (f_equal String.length) in H; rewrite !string_length_app in H; simpl in H; lia.
  injection H as -> H. f_equal. eauto.
Qed.

Definition generated (prefix : string) (i : Z) : string := (prefix +:+ pretty (i32 i) +:+ "__")%string.

Lemma generated_inj prefix i j : 0 <= i < 2 ^ 31 -> 0 <= j < 2 ^ 31 -> generated prefix i = generated prefix j -> i = j.
Proof.
  intros Hi Hj H. apply (inj (String.append prefix)), append_inj_r, (inj pretty) in H.
  rewrite !i32_id in H by lia. done.
Qed.

Lemma unused_name_spec prefix names : forall fuel i,
  0 <= i -> i + Z.of_nat fuel <= 2 ^ 31 ->
  match unused_name fuel prefix i names with
  | Some n => n ∉ names /\ exists j, i <= j < i + Z.of_nat fuel /\ n = generated prefix j
  | None => forall j, i <= j < i + Z.of_nat fuel -> generated prefix j ∈ names
  end.
Proof.
  induction fuel as [|fuel IH]; intros i Hi Hf; simpl; [lia|].
  case_bool_decide as Hin.
  - rewrite (u32_id (i + 1)) by (unfold is_u32; lia). specialize (IH (i + 1) ltac:(lia) ltac:(lia)).
    destruct (unused_name _ _ _ _).
    + destruct IH as (? & j & ? & ->). split; [done|]. exists j. split; [lia|done].
    + intros j Hj. destruct (decide (j = i)) as [->|]; [done|]. apply IH. lia.
  - split; [done|]. exists i. split; [lia|done].
Qed.

Lemma unused_name_total prefix names i :
  0 <= i -> i + Z.of_nat (S (length names)) <= 2 ^ 31 ->
  exists n, unused_name (S (length names)) prefix i names = Some n /\ n ∉ names.
Proof.
  intros Hi Hf. pose proof (unused_name_spec prefix names _ i Hi Hf) as H.
  destruct (unused_name _ _ _ _) as [n|]; [exists n; tauto|]. exfalso.
  set (tried := map (fun k => generated prefix (i + Z.of_nat k)) (seq 0 (S (length names)))).
  assert (length tried <= length names)%nat as Hlen.
  { apply submseteq_length, NoDup_submseteq.
    - apply NoDup_fmap_2_strong; [|apply NoDup_seq]. intros x y Hx%elem_of_seq Hy%elem_of_seq Hg.
      apply generated_inj in Hg; lia.
    - intros x (k & -> & Hk%elem_of_seq)%list_elem_of_fmap. apply H. lia. }
  unfold tried in Hlen. rewrite length_map, length_seq in Hlen. lia.
Qed.

Lemma unused_name_mono prefix names n : forall fuel fuel' i,
  (fuel <= fuel')%nat -> unused_name fuel prefix i names = Some n -> unused_name fuel' prefix i names = Some n.
Proof.
  induction fuel as [|fuel IH]; intros [|fuel'] i Hle; simpl; [done|done|lia|].
  case_bool_decide; [|done]. apply IH. lia.
Qed.

Lemma generate_pool_name a : Z.of_nat (length (pools a)) < 2 ^ 30 ->
  exists n, generate_unused_pool_name (pool_fuel a) a = Some n /\ n ∉ map p_name (pools a).
Proof.
  intros H. unfold generate_unused_pool_name, pool_fuel. rewrite <- (length_map p_name (pools a)) in *.
  apply unused_name_total; lia.
Qed.

Lemma generate_xstream_name a : Z.of_nat (length (xstreams a)) < 2 ^ 30 ->
  exists n, generate_unused_xstream_name (xstream_fuel a) a = Some n /\ n ∉ map x_name (xstreams a).
Proof.
  intros H. unfold generate_unused_xstream_name, xstream_fuel. rewrite <- (length_map x_name (xstreams a)) in *.
  apply unused_name_total; lia.
Qed.

(** ** Removal *)

Lemma swap_remove_perm {A} (l : list A) i x : l !! i = Some x -> l ≡ₚ x :: swap_remove i l.
Proof.
  intros Hi. unfold swap_remove. destruct (last l) as [y|] eqn:Hl; [|by apply last_None in Hl as ->].
  apply last_Some in Hl as [l' ->]. rewrite length_app. simpl.
  destruct (decide (i = length l')) as [->|Hne].
  - replace (length l' =? length l' + 1 - 1)%nat with true by (symmetry; apply Nat.eqb_eq; lia).
    rewrite removelast_last. rewrite lookup_app_r, Nat.sub_diag in Hi by lia. simpl in Hi. simplify_eq.
    by rewrite Permutation_app_comm.
  - replace (i =? length l' + 1 - 1)%nat with false by (symmetry; apply Nat.eqb_neq; lia).
    assert (i < length l')%nat as Hlt.
    { apply lookup_lt_Some in Hi. rewrite length_app in Hi. simpl in Hi. lia. }
    rewrite lookup_app_l in Hi by done. rewrite insert_app_l by done. rewrite removelast_last.
    rewrite <- (take_drop_middle l' i x) at 1 by done. rewrite insert_take_drop by done.
    rewrite <- app_assoc. simpl. rewrite <- Permutation_middle. f_equiv. f_equiv.
    by rewrite Permutation_app_comm.
Qed.

(** ** Counting *)

Lemma count_perm l l' h : l ≡ₚ l' -> count l h = count l' h.
Proof. intros H. unfold count. by rewrite H. Qed.

Lemma count_uses_app l l' h : count (l ++ l') h = (count l h + count l' h)%nat.
Proof. unfold count. by rewrite filter_app, length_app. Qed.

Lemma count_cons k l h : count (k :: l) h = ((if decide (h = k) then 1 else 0) + count l h)%nat.
Proof. unfold count. rewrite filter_cons. by destruct (decide (h = k)). Qed.

Lemma count_elem l h : h ∈ l -> (0 < count l h)%nat.
Proof. intros (l1 & l2 & ->)%list_elem_of_split. rewrite count_uses_app, count_cons, decide_True by done. lia. Qed.

Lemma u32_add_l x y : u32 (u32 x + y) = u32 (x + y).
Proof. unfold u32. by rewrite Zplus_mod_idemp_l. Qed.
Lemma u32_sub_l x y : u32 (u32 x - y) = u32 (x - y).
Proof. unfold u32. by rewrite Zminus_mod_idemp_l. Qed.

(** ** The loop over the pools of a scheduler *)

(** [f] changes only the number of streams and the flags of an entry. *)
Definition keeps (f : margo_abt_pool -> margo_abt_pool) : Prop :=
  forall p, p_name (f p) = p_name p /\ p_pool (f p) = p_pool p /\ p_kind (f p) = p_kind p /\ p_access (f p) = p_access p /\
    p_refcount (f p) = p_refcount p.

Lemma keeps_incr primary : keeps (incr_xstreams primary).
Proof. done. Qed.
Lemma keeps_decr : keeps decr_xstreams.
Proof. done. Qed.

Definition repeat_on (f : margo_abt_pool -> margo_abt_pool) (sched : list Z) (p : margo_abt_pool) : margo_abt_pool :=
  Nat.iter (count sched (p_pool p)) f p.

Lemma keeps_repeat f sched : keeps f -> keeps (repeat_on f sched).
Proof.
  intros Hf p. unfold repeat_on. generalize (count sched (p_pool p)). intros n.
  induction n as [|n IH]; simpl; [done|]. by destruct (Hf (Nat.iter n f p)) as (-> & -> & -> & -> & ->).
Qed.

Lemma keeps_map_name f l : keeps f -> map p_name (map f l) = map p_name l.
Proof. intros Hf. rewrite map_map. apply map_ext. intros p. apply Hf. Qed.
Lemma keeps_map_pool f l : keeps f -> map p_pool (map f l) = map p_pool l.
Proof. intros Hf. rewrite map_map. apply map_ext. intros p. apply Hf. Qed.

Lemma lookup_map {A B} (f : A -> B) l i : map f l !! i = f <$> l !! i.
Proof. apply list_lookup_fmap. Qed.

(** Changing the entry of a handle. *)
Lemma alter_by_key f l k p : NoDup (map p_pool l) -> l !! k = Some p ->
  alter f k l = map (fun q => if decide (p_pool q = p_pool p) then f q else q) l.
Proof.
  intros Hnd Hk. apply list_eq. intros j. rewrite list_lookup_alter, lookup_map. destruct (decide (k = j)) as [<-|Hne].
  - rewrite Hk. simpl. by rewrite decide_True.
  - destruct (l !! j) as [q|] eqn:Hj; simpl; [|done]. rewrite decide_False; [done|]. intros He. apply Hne.
    eapply NoDup_lookup; [exact Hnd|..]; rewrite lookup_map.
    + by rewrite Hk.
    + by rewrite Hj, <- He.
Qed.

Lemma each_pool_ok f : keeps f -> forall sched get i a,
  (forall i, get i = 0) -> NoDup (map p_pool (pools a)) ->
  Forall (fun h => h ≠ 0 /\ h ∈ map p_pool (pools a)) sched ->
  each_pool get f i sched a = (true, set_pools (map (repeat_on f sched) (pools a)) a).
Proof.
  intros Hf. induction sched as [|h sched IH]; intros get i a Hg Hnd Hs; simpl.
  - rewrite map_id. by destruct a.
  - apply Forall_cons in Hs as [[Hh Hin] Hs]. rewrite Hg. simpl.
    destruct (find_pool_by_handle_spec a h Hh) as [[_ ?]|(k & p & -> & Hk & Hp)]; [done|].
    rewrite (proj2 (Z.ltb_ge (Z.of_nat k) 0)) by lia. rewrite Nat2Z.id.
    rewrite (alter_by_key f _ k p), Hp by done.
    assert (keeps (fun q => if decide (p_pool q = h) then f q else q)) as Hk2 by (intros q; by case_decide).
    rewrite IH; [|done|simpl; by rewrite keeps_map_pool|simpl; by rewrite keeps_map_pool].
    f_equal. unfold set_pools. simpl. f_equal. rewrite map_map. apply map_ext. intros q.
    unfold repeat_on. rewrite count_cons. case_decide; simpl; [|done].
    destruct (Hf q) as (_ & -> & _). by rewrite <- Nat.iter_succ_r, Nat.iter_succ.
Qed.

Lemma incr_count primary sched p : p_num_xstreams p = u32 (p_num_xstreams p) ->
  p_num_xstreams (repeat_on (incr_xstreams primary) sched p) = u32 (p_num_xstreams p + Z.of_nat (count sched (p_pool p))).
Proof.
  intros Hu. unfold repeat_on. generalize (count sched (p_pool p)). intros n.
  induction n as [|n IH]; [by rewrite Z.add_0_r|]. simpl. rewrite IH, u32_add_l. f_equal. lia.
Qed.

Lemma decr_count sched p : p_num_xstreams p = u32 (p_num_xstreams p) ->
  p_num_xstreams (repeat_on decr_xstreams sched p) = u32 (p_num_xstreams p - Z.of_nat (count sched (p_pool p))).
Proof.
  intros Hu. unfold repeat_on. generalize (count sched (p_pool p)). intros n.
  induction n as [|n IH]; [by rewrite Z.sub_0_r|]. simpl. rewrite IH, u32_sub_l. f_equal. lia.
Qed.

(** ** Room for one more entry *)

Lemma grow_cap_room len cap realloc cap' :
  0 <= len <= cap -> cap < 2 ^ 31 -> len < 2 ^ 30 -> grow_cap len cap realloc = Some cap' -> len + 1 <= cap' < 2 ^ 31.
Proof.
  intros H1 H2 H3. unfold grow_cap. destruct (Z.eqb_spec len cap) as [<-|].
  - destruct realloc; [|done]. intros [= <-].
    assert (len * 3 / 2 <= len * 2) by (apply Z.div_le_upper_bound; lia).
    assert (len <= len * 3 / 2) by (apply Z.div_le_lower_bound; lia).
    rewrite u32_id; unfold is_u32; lia.
  - intros [= <-]. lia.
Qed.

Lemma wf_with_caps a pc xc : wf a ->
  Z.of_nat (length (pools a)) <= pc < 2 ^ 31 -> Z.of_nat (length (xstreams a)) <= xc < 2 ^ 31 -> wf (with_caps pc xc a).
Proof. intros [] ? ?. by constructor. Qed.

(** ** Adding an entry *)

Lemma wf_add_pool a p cap : wf a ->
  p_name p ∉ map p_name (pools a) -> p_pool p ∉ map p_pool (pools a) -> p_pool p ≠ 0 -> p_num_xstreams p = 0 ->
  Z.of_nat (length (pools a)) + 1 <= cap < 2 ^ 31 ->
  wf (set_pools (pools a ++ [p]) (with_caps cap (xstreams_cap a) a)).
Proof.
  intros [] Hn Hh Hnn Hx Hc. constructor; simpl; try done.
  - rewrite map_app. apply NoDup_app. split_and!; [done| |apply NoDup_singleton].
    intros n ? ->%list_elem_of_singleton. done.
  - rewrite map_app. apply NoDup_app. split_and!; [done| |apply NoDup_singleton].
    intros n ? ->%list_elem_of_singleton. done.
  - apply Forall_app. split; [done|by constructor].
  - rewrite length_app. simpl. lia.
  - change (Forall (fun h => h ∈ map p_pool (pools a ++ [p])) (used_pools a)).
    eapply Forall_impl; [exact wf_registered0|]. intros h Hh'. rewrite map_app. apply elem_of_app. by left.
  - change (Forall (fun q => p_num_xstreams q = u32 (Z.of_nat (count (used_pools a) (p_pool q)))) (pools a ++ [p])).
    apply Forall_app. split; [done|]. constructor; [|done]. rewrite Hx.
    replace (count (used_pools a) (p_pool p)) with 0%nat; [done|]. symmetry.
    destruct (decide (p_pool p ∈ used_pools a)) as [Hu|Hu].
    + rewrite Forall_forall in wf_registered0. by apply wf_registered0 in Hu.
    + unfold count. clear -Hu. induction (used_pools a) as [|k l IH]; [done|].
      apply not_elem_of_cons in Hu as [? ?]. rewrite filter_cons, decide_False by done. auto.
Qed.

Lemma used_pools_ext a a' l : xstreams a' = l ->
  (forall x, x ∈ l -> main_pools a' (x_xstream x) = main_pools a (x_xstream x)) ->
  used_pools a' = l ≫= (fun x => main_pools a (x_xstream x)).
Proof.
  intros Hx Hm. unfold used_pools. rewrite Hx. clear Hx. induction l as [|x l IH]; [done|]. cbn.
  rewrite Hm by (by constructor). f_equal. apply IH. intros. apply Hm. by constructor.
Qed.

(** The tables after stream [x], which runs [sched], has been added. *)
Definition add_xstream (primary : bool) (x : margo_abt_xstream) (sched : list Z) (m : gmap Z (list Z)) (cap : Z) (a : margo_abt)
    : margo_abt :=
  set_xstreams (xstreams a ++ [x])
    (set_pools (map (repeat_on (incr_xstreams primary) sched) (pools a)) (set_main m (with_caps (pools_cap a) cap a))).

Lemma wf_add_xstream a primary x sched m cap : wf a ->
  x_name x ∉ map x_name (xstreams a) -> x_xstream x ∉ map x_xstream (xstreams a) -> x_xstream x ≠ 0 ->
  Forall (fun h => h ∈ map p_pool (pools a)) sched ->
  default [] (m !! x_xstream x) = sched -> (forall h, h ∈ map x_xstream (xstreams a) -> m !! h = main a !! h) ->
  Z.of_nat (length (xstreams a)) + 1 <= cap < 2 ^ 31 ->
  wf (add_xstream primary x sched m cap a).
Proof.
  intros [] Hn Hh Hnn Hs Hm Hm' Hc.
  assert (used_pools (add_xstream primary x sched m cap a) = used_pools a ++ sched) as Hu.
  { unfold used_pools, add_xstream. simpl. rewrite bind_app. f_equal.
    - apply (used_pools_ext a (Abt [] 0 (xstreams a) 0 "" m []) (xstreams a)); [done|].
      intros y Hy. unfold main_pools. simpl. rewrite Hm'; [done|]. apply list_elem_of_fmap. by exists y.
    - cbn. unfold main_pools. simpl. rewrite Hm. apply app_nil_r. }
  pose proof (keeps_repeat _ sched (keeps_incr primary)) as Hk.
  constructor; try rewrite Hu; simpl; rewrite ?(keeps_map_name _ _ Hk), ?(keeps_map_pool _ _ Hk); try done.
  - apply Forall_map. eapply Forall_impl; [exact wf_nonnull0|]. intros p Hp. simpl. by rewrite (proj1 (proj2 (Hk p))).
  - rewrite map_app. apply NoDup_app. split_and!; [done| |apply NoDup_singleton].
    intros n ? ->%list_elem_of_singleton. done.
  - rewrite map_app. apply NoDup_app. split_and!; [done| |apply NoDup_singleton].
    intros n ? ->%list_elem_of_singleton. done.
  - apply Forall_app. split; [done|by constructor].
  - by rewrite length_map.
  - rewrite length_app. simpl. lia.
  - by apply Forall_app.
  - apply Forall_map. eapply Forall_impl; [exact wf_count0|]. intros p Hp. simpl.
    rewrite (proj1 (proj2 (Hk p))), incr_count, Hp, u32_add_l by (rewrite Hp; symmetry; apply u32_id, u32_range).
    f_equal. rewrite count_uses_app. lia.
Qed.

(** ** Removing an entry *)

Lemma wf_remove_pool a i p ev : wf a -> pools a !! i = Some p -> count (used_pools a) (p_pool p) = 0%nat ->
  wf (set_pools (swap_remove i (pools a)) (emit ev a)).
Proof.
  intros [] Hi Hc. pose proof (swap_remove_perm _ _ _ Hi) as Hp.
  assert (forall P, Forall P (pools a) -> Forall P (swap_remove i (pools a))) as HF.
  { intros P HP. rewrite Hp in HP. by apply Forall_cons in HP as [_ ?]. }
  pose proof (Permutation_map p_pool Hp) as Hpp. simpl in Hpp.
  constructor; simpl; try done; try by apply HF.
  - pose proof (Permutation_map p_name Hp) as Hpn. rewrite Hpn in wf_names0. by apply NoDup_cons in wf_names0 as [_ ?].
  - rewrite Hpp in wf_handles0. by apply NoDup_cons in wf_handles0 as [_ ?].
  - apply Permutation_length in Hp. simpl in Hp. lia.
  - change (Forall (fun h => h ∈ map p_pool (swap_remove i (pools a))) (used_pools a)).
    apply Forall_forall. intros h Hh. rewrite Forall_forall in wf_registered0. pose proof (wf_registered0 h Hh) as Hr.
    rewrite Hpp in Hr. apply elem_of_cons in Hr as [->|]; [|done]. apply count_elem in Hh. lia.
Qed.

Lemma wf_remove_xstream a i x ev : wf a -> xstreams a !! i = Some x ->
  wf (set_xstreams (swap_remove i (xstreams a))
       (emit ev (set_pools (map (repeat_on decr_xstreams (main_pools a (x_xstream x))) (pools a)) a))).
Proof.
  intros [] Hi. pose proof (swap_remove_perm _ _ _ Hi) as Hp. set (sched := main_pools a (x_xstream x)).
  set (a' := set_xstreams _ _).
  assert (used_pools a ≡ₚ sched ++ used_pools a') as Hu.
  { unfold used_pools at 1. rewrite Hp. done. }
  pose proof (keeps_repeat _ sched keeps_decr) as Hk.
  constructor; simpl; rewrite ?(keeps_map_name _ _ Hk), ?(keeps_map_pool _ _ Hk); try done.
  - apply Forall_map. eapply Forall_impl; [exact wf_nonnull0|]. intros p Hq. simpl. by rewrite (proj1 (proj2 (Hk p))).
  - pose proof (Permutation_map x_name Hp) as Hpn. rewrite Hpn in wf_xnames0. by apply NoDup_cons in wf_xnames0 as [_ ?].
  - pose proof (Permutation_map x_xstream Hp) as Hpn. rewrite Hpn in wf_xhandles0. by apply NoDup_cons in wf_xhandles0 as [_ ?].
  - rewrite Hp in wf_xnonnull0. by apply Forall_cons in wf_xnonnull0 as [_ ?].
  - by rewrite length_map.
  - apply Permutation_length in Hp. simpl in Hp. lia.
  - rewrite Hu in wf_registered0. by apply Forall_app in wf_registered0 as [_ ?].
  - apply Forall_map. eapply Forall_impl; [exact wf_count0|]. intros p Hq. simpl.
    rewrite (proj1 (proj2 (Hk p))), decr_count, Hq, u32_sub_l by (rewrite Hq; symmetry; apply u32_id, u32_range).
    f_equal. rewrite (count_perm _ _ _ Hu), count_uses_app. lia.
Qed.

(** ** The pool operations *)

Lemma pool_init_from_json_spec create jpool a p : __margo_abt_pool_init_from_json create jpool a = Some p ->
  create.1 = 0 /\ p_pool p = create.2 /\ p_refcount p = 0 /\ p_num_xstreams p = 0 /\
  Some (p_name p) = match json_object_object_get jpool "name" with
                    | None => generate_unused_pool_name (pool_fuel a) a
                    | jname => json_object_get_string jname
                    end.
Proof.
  unfold __margo_abt_pool_init_from_json. intros (n & Hn & Hp)%bind_Some.
  destruct (request_of _ _); [|done]. destruct (Z.eqb_spec create.1 0); [|done]. simplify_eq/=. done.
Qed.

Lemma pool_name_string initialized config : __margo_abt_pool_validate_json initialized config = true ->
  json_object_object_get config "name" = None \/ exists s, json_object_object_get config "name" = Some (JString s).
Proof.
  destruct config as [j|]; [|by left]. unfold __margo_abt_pool_validate_json. rewrite !andb_true_iff.
  intros [[_ H] _]. by apply optional_string.
Qed.

(** What adding a pool does to the tables: nothing but enlarge the array, or one
    more entry with an unused name. *)
Definition pool_added (a a' : margo_abt) (name : option string) (h : Z) : Prop :=
  exists p cap, a' = set_pools (pools a ++ [p]) (with_caps cap (xstreams_cap a) a) /\
    p_name p ∉ map p_name (pools a) /\ (forall n, name = Some n -> p_name p = n) /\
    p_pool p = h /\ p_num_xstreams p = 0 /\ p_refcount p = 0 /\ Z.of_nat (length (pools a)) + 1 <= cap < 2 ^ 31.

Definition only_caps (a a' : margo_abt) : Prop :=
  exists pc xc, a' = with_caps pc xc a /\
    Z.of_nat (length (pools a)) <= pc < 2 ^ 31 /\ Z.of_nat (length (xstreams a)) <= xc < 2 ^ 31.

Lemma only_caps_refl a : wf a -> only_caps a a.
Proof. intros []. exists (pools_cap a), (xstreams_cap a). by destruct a. Qed.

Lemma only_caps_wf a a' : wf a -> only_caps a a' -> wf a'.
Proof. intros Hwf (pc & xc & -> & ? & ?). by apply wf_with_caps. Qed.

Lemma add_pool_from_json_spec initialized realloc create config a ok a' :
  wf a -> Z.of_nat (length (pools a)) < 2 ^ 30 ->
  __margo_abt_add_pool_from_json initialized realloc create config a = (ok, a') ->
  if ok then create.1 = 0 /\ pool_added a a' (json_object_get_string (json_object_object_get config "name")) create.2
  else only_caps a a'.
Proof.
  intros Hwf Hl. unfold __margo_abt_add_pool_from_json.
  destruct (__margo_abt_pool_validate_json _ _) eqn:Hv; simpl; [|intros [= <- <-]; by apply only_caps_refl].
  destruct (0 <=? __margo_abt_find_pool_by_name _ _) eqn:Hf; [intros [= <- <-]; by apply only_caps_refl|].
  destruct (grow_cap _ _ _) as [cap|] eqn:Hg; [|intros [= <- <-]; by apply only_caps_refl].
  apply grow_cap_room in Hg; [|destruct Hwf; lia..].
  destruct (__margo_abt_pool_init_from_json _ _ _) as [p|] eqn:Hp; intros [= <- <-].
  2:{ exists cap, (xstreams_cap a). destruct Hwf. split_and!; [done|lia..]. }
  apply pool_init_from_json_spec in Hp as (? & ? & ? & ? & Hn). split; [done|]. exists p, cap.
  split; [done|].
  destruct (pool_name_string _ _ Hv) as [Hj|[s Hj]]; rewrite Hj in Hn, Hf |- *; simpl in Hn, Hf |- *.
  - destruct (generate_pool_name a Hl) as (n & Hgn & Hnin).
    change (generate_unused_pool_name _ _) with (generate_unused_pool_name (pool_fuel a) a) in Hn.
    rewrite Hgn in Hn. injection Hn as ->. done.
  - injection Hn as ->. destruct (find_pool_by_name_spec a s) as [[_ ?]|(k & q & Hk & _)].
    + split_and!; try done; [by intros ? [= ->]|lia..].
    + apply Z.leb_gt in Hf. unfold __margo_abt_find_pool_by_name in Hk. lia.
Qed.

Lemma add_external_pool_spec realloc name h a ok a' :
  wf a -> Z.of_nat (length (pools a)) < 2 ^ 30 -> h ≠ 0 ->
  __margo_abt_add_external_pool realloc name h a = (ok, a') ->
  if ok then h ∉ map p_pool (pools a) /\ pool_added a a' name h else only_caps a a'.
Proof.
  intros Hwf Hl Hh. unfold __margo_abt_add_external_pool.
  destruct (0 <=? __margo_abt_find_pool_by_name _ _) eqn:Hf; [intros [= <- <-]; by apply only_caps_refl|].
  destruct (0 <=? __margo_abt_find_pool_by_handle _ _) eqn:Hf2; [intros [= <- <-]; by apply only_caps_refl|].
  destruct (grow_cap _ _ _) as [cap|] eqn:Hg; [|intros [= <- <-]; by apply only_caps_refl].
  apply grow_cap_room in Hg; [|destruct Hwf; lia..]. apply Z.leb_gt in Hf, Hf2.
  destruct (find_pool_by_handle_spec a h Hh) as [[_ Hnin]|(k & q & Hk & _)]; [|lia].
  destruct (generate_pool_name a Hl) as (n & Hgn & Hn). unfold __margo_abt_pool_init_external.
  change (generate_unused_pool_name _ _) with (generate_unused_pool_name (pool_fuel a) a).
  destruct name as [s|]; [|rewrite Hgn]; simpl; intros [= <- <-]; (split; [done|]); eexists _, cap; simpl; split_and!; try done; try lia.
  - destruct (find_pool_by_name_spec a s) as [[_ ?]|(k & q & Hk & _)]; [done|lia].
  - by intros ? [= ->].
Qed.

Lemma remove_pool_spec total index a ret a' : __margo_abt_remove_pool total index a = (ret, a') ->
  (ret ≠ HG_SUCCESS /\ a' = a) \/
  exists p, ret = HG_SUCCESS /\ pools a !! Z.to_nat index = Some p /\ p_refcount p = 0 /\ p_num_xstreams p = 0 /\
            total = (0, 0) /\
            a' = set_pools (swap_remove (Z.to_nat index) (pools a)) (emit (__margo_abt_pool_destroy p) a).
Proof.
  unfold __margo_abt_remove_pool. destruct (pools a !! Z.to_nat index) as [p|]; [|intros [= <- <-]; by left].
  destruct (Z.eqb_spec (p_refcount p) 0); simpl; [|intros [= <- <-]; by left].
  destruct (Z.eqb_spec (p_num_xstreams p) 0); simpl; [|intros [= <- <-]; by left].
  destruct total as [r s]; simpl.
  destruct (Z.eqb_spec r 0); simpl; [|intros [= <- <-]; by left].
  destruct (Z.eqb_spec s 0); simpl; [|intros [= <- <-]; by left].
  intros [= <- <-]. right. exists p. by subst.
Qed.

Lemma pool_added_wf a a' name h : wf a -> h ≠ 0 -> h ∉ map p_pool (pools a) -> pool_added a a' name h -> wf a'.
Proof. intros Hwf ? ? (p & cap & -> & ? & ? & <- & ? & ? & ?). by apply wf_add_pool. Qed.

(** ** The operations on execution streams *)

Lemma resolve_handles_registered a l sched : mapM (resolve_handle a) l = Some sched ->
  Forall (fun h => h ∈ map p_pool (pools a)) sched.
Proof.
  intros H%mapM_Some. apply Forall_forall. intros h [i Hi]%list_elem_of_lookup.
  destruct (Forall2_lookup_r _ _ _ _ _ H Hi) as (j & _ & Hr). unfold resolve_handle in Hr.
  destruct (_ <=? _); [done|]. apply fmap_Some in Hr as (p & Hp & ->).
  apply list_elem_of_fmap. exists p. split; [done|]. by eapply list_elem_of_lookup_2.
Qed.

Lemma registered_nonnull a sched : wf a -> Forall (fun h => h ∈ map p_pool (pools a)) sched ->
  Forall (fun h => h ≠ 0 /\ h ∈ map p_pool (pools a)) sched.
Proof.
  intros [] H. eapply Forall_impl; [exact H|]. intros h Hh. split; [|done].
  apply list_elem_of_fmap in Hh as (p & -> & Hp). rewrite Forall_forall in wf_nonnull0. auto.
Qed.

Lemma xstream_init_from_json_spec o h config a r a' : wf a -> good_oracle a o h ->
  __margo_abt_xstream_init_from_json o config a = (r, a') ->
  match r with
  | None => a' = a
  | Some x =>
      exists sched primary,
        mapM (resolve_handle a) (json_object_array (json_object_object_get (json_object_object_get config "scheduler") "pools")) = Some sched /\
        x_xstream x = h /\ x_refcount x = 0 /\
        Some (x_name x) = match json_object_object_get config "name" with
                          | None => generate_unused_xstream_name (xstream_fuel a) a
                          | jname => json_object_get_string jname
                          end /\
        a' = set_pools (map (repeat_on (incr_xstreams primary) sched) (pools a)) (set_main (<[h := sched]> (main a)) a)
  end.
Proof.
  intros Hwf []. unfold __margo_abt_xstream_init_from_json.
  set (name := match json_object_object_get config "name" with None => _ | _ => _ end).
  destruct name as [n|] eqn:Hname; [|by intros [= <- <-]].
  unfold __margo_abt_sched_init_from_json.
  destruct (mapM _ _) as [sched|] eqn:Hm; simpl; [|by intros [= <- <-]].
  destruct (o_sched o =? 0); simpl; [|by intros [= <- <-]].
  pose proof (registered_nonnull a sched Hwf (resolve_handles_registered _ _ _ Hm)) as Hreg.
  assert (forall primary x, x_xstream x = h -> x_refcount x = 0 -> x_name x = n ->
    (let '(ok, a1) := each_pool (fun _ => 0) (incr_xstreams primary) 0 sched (set_main (<[h := sched]> (main a)) a) in
     if ok then (Some x, a1) else (None, __margo_abt_xstream_destroy (o_undo o) x a1)) = (r, a') ->
    match r with None => a' = a | Some x => exists sched' primary, Some sched = Some sched' /\ x_xstream x = h /\ x_refcount x = 0 /\
      Some (x_name x) = Some n /\
      a' = set_pools (map (repeat_on (incr_xstreams primary) sched') (pools a)) (set_main (<[h := sched']> (main a)) a) end) as Hloop.
  { intros primary x Hx Hr Hnx. rewrite (each_pool_ok _ (keeps_incr primary)); [|done|by destruct Hwf|done].
    intros [= <- <-]. exists sched, primary. by rewrite Hnx. }
  rewrite go_create0, go_self0, go_set_main0, go_codes0. simpl.
  case_bool_decide; simpl; by apply Hloop.
Qed.

Lemma xstream_name_string initialized a config :
  __margo_abt_xstream_validate_json initialized a None config = true ->
  json_object_object_get config "name" = None \/ exists s, json_object_object_get config "name" = Some (JString s).
Proof.
  unfold __margo_abt_xstream_validate_json. rewrite !andb_true_iff.
  intros H. apply optional_string. tauto.
Qed.

(** Pools keep their names and handles. *)
Definition same_pools (a a' : margo_abt) : Prop := exists f, keeps f /\ pools a' = map f (pools a).

Lemma same_pools_refl a : wf a -> wf a /\ same_pools a a.
Proof. intros. split; [done|]. exists id. by rewrite map_id. Qed.

Lemma add_xstream_from_json_spec initialized realloc o h config a ok a' :
  wf a -> Z.of_nat (length (xstreams a)) < 2 ^ 30 -> good_oracle a o h ->
  __margo_abt_add_xstream_from_json initialized realloc o config a = (ok, a') -> wf a' /\ same_pools a a'.
Proof.
  intros Hwf Hl Ho. unfold __margo_abt_add_xstream_from_json.
  destruct (__margo_abt_xstream_validate_json _ _ _ _) eqn:Hv; simpl; [|intros [= <- <-]; by apply same_pools_refl].
  destruct (0 <=? __margo_abt_find_xstream_by_name _ _) eqn:Hf; [intros [= <- <-]; by apply same_pools_refl|].
  destruct (grow_cap _ _ _) as [cap|] eqn:Hg; [|intros [= <- <-]; by apply same_pools_refl].
  apply grow_cap_room in Hg; [|destruct Hwf; lia..]. apply Z.leb_gt in Hf.
  assert (wf (with_caps (pools_cap a) cap a)) as Hwc by (apply wf_with_caps; destruct Hwf; [done|lia..]).
  destruct (__margo_abt_xstream_init_from_json _ _ _) as [r a1] eqn:Hi.
  apply (xstream_init_from_json_spec _ h) in Hi; [|done|by destruct Ho].
  destruct r as [x|]; intros [= <- <-]; [|subst; split; [done|by exists id; rewrite map_id]].
  destruct Hi as (sched & primary & Hm & Hx & _ & Hn & ->). simpl. destruct Ho.
  split; [|by exists (repeat_on (incr_xstreams primary) sched); split; [apply keeps_repeat|]].
  change (wf (add_xstream primary x sched (<[h := sched]> (main a)) cap a)).
  apply wf_add_xstream; try done; rewrite ?Hx; try done.
  - destruct (xstream_name_string _ _ _ Hv) as [Hj|[s Hj]]; rewrite Hj in Hn, Hf; simpl in Hn, Hf.
    + destruct (generate_xstream_name a Hl) as (n & Hgn & Hnin).
      change (generate_unused_xstream_name _ _) with (generate_unused_xstream_name (xstream_fuel a) a) in Hn.
      rewrite Hgn in Hn. by injection Hn as ->.
    + injection Hn as ->. destruct (find_xstream_by_name_spec a s) as [[_ ?]|(k & q & Hk & _)]; [done|].
      unfold __margo_abt_find_xstream_by_name in Hk. lia.
  - by apply resolve_handles_registered in Hm.
  - by rewrite lookup_insert_eq.
  - intros k Hk. apply lookup_insert_ne. congruence.
Qed.

Lemma add_external_xstream_spec realloc o name h a ok a' :
  wf a -> Z.of_nat (length (xstreams a)) < 2 ^ 30 -> o_codes o = codes_ok -> o_ext o = (0, 0) -> h ≠ 0 ->
  Forall (fun p => p ∈ map p_pool (pools a)) (main_pools a h) ->
  __margo_abt_add_external_xstream realloc o name h a = Some (ok, a') -> wf a' /\ same_pools a a'.
Proof.
  intros Hwf Hl Hc He Hh Hreg. unfold __margo_abt_add_external_xstream.
  destruct (0 <=? __margo_abt_find_xstream_by_name _ _) eqn:Hf; [intros [= <- <-]; by apply same_pools_refl|].
  destruct (0 <=? __margo_abt_find_xstream_by_handle _ _) eqn:Hf2; [intros [= <- <-]; by apply same_pools_refl|].
  destruct (grow_cap _ _ _) as [cap|] eqn:Hg; [|intros [= <- <-]; by apply same_pools_refl].
  apply grow_cap_room in Hg; [|destruct Hwf; lia..]. apply Z.leb_gt in Hf, Hf2.
  pose proof (registered_nonnull _ _ Hwf Hreg) as Hrn.
  unfold __margo_abt_xstream_init_external, __margo_abt_sched_init_external. rewrite Hc, He. simpl.
  replace (existsb _ _) with false.
  2:{ symmetry. apply not_true_iff_false. intros (k & Hk & Hlt)%existsb_exists. rewrite Forall_forall in Hrn.
      apply list_elem_of_In in Hk. destruct (Hrn k Hk) as [Hk0 Hin].
      destruct (find_pool_by_handle_spec a k Hk0) as [[_ ?]|(j & p & Hj & _)]; [done|].
      unfold __margo_abt_find_pool_by_handle in *. simpl in Hlt. lia. }
  destruct name as [n|]; simpl; [|done].
  rewrite (each_pool_ok _ (keeps_incr _)); [|done|by destruct Hwf|done].
  simpl. intros [= <- <-].
  split; [|by eexists; split; [apply (keeps_repeat _ (main_pools a h) (keeps_incr (bool_decide (n = "__primary__"%string))))|]].
  change (wf (add_xstream (bool_decide (n = "__primary__"%string)) (Xstream n h "external" 0 false) (main_pools a h) (main a) cap a)).
  apply wf_add_xstream; simpl; try done.
  - destruct (find_xstream_by_name_spec a n) as [[_ ?]|(k & q & Hk & _)]; [done|].
    unfold __margo_abt_find_xstream_by_name in Hk. simpl in Hf. lia.
  - by apply find_xstream_by_handle_fresh.
Qed.

Lemma remove_xstream_spec index a ret a' : wf a -> __margo_abt_remove_xstream codes_ok index a = (ret, a') ->
  (ret ≠ HG_SUCCESS /\ a' = a) \/
  exists x, ret = HG_SUCCESS /\ xstreams a !! Z.to_nat index = Some x /\
    a' = set_xstreams (swap_remove (Z.to_nat index) (xstreams a))
           (emit (if x_margo_free_flag x then [XstreamJoinFree (x_xstream x)] else [])
             (set_pools (map (repeat_on decr_xstreams (main_pools a (x_xstream x))) (pools a)) a)).
Proof.
  intros Hwf. unfold __margo_abt_remove_xstream.
  destruct (xstreams a !! Z.to_nat index) as [x|] eqn:Hx; [|intros [= <- <-]; by left].
  case_bool_decide; [intros [= <- <-]; by left|].
  destruct (Z.eqb_spec (x_refcount x) 0); simpl; [|intros [= <- <-]; by left].
  intros [= <- <-]. right. exists x. do 2 (split; [done|]).
  assert (x_xstream x ≠ 0) as Hn.
  { destruct Hwf. rewrite Forall_forall in wf_xnonnull0. by eapply wf_xnonnull0, list_elem_of_lookup_2. }
  assert (Forall (fun h => h ∈ map p_pool (pools a)) (main_pools a (x_xstream x))) as Hr.
  { destruct Hwf. apply Forall_forall. intros h Hh. rewrite Forall_forall in wf_registered0. apply wf_registered0.
    apply list_elem_of_bind. exists x. split; [done|by eapply list_elem_of_lookup_2]. }
  unfold __margo_abt_xstream_destroy. rewrite (proj2 (Z.eqb_neq _ _) Hn). simpl.
  rewrite (each_pool_ok _ keeps_decr); [|done|by destruct Hwf|by apply registered_nonnull].
  simpl. rewrite andb_true_r. destruct (x_margo_free_flag x); [done|].
  unfold set_xstreams, emit. simpl. by rewrite app_nil_r.
Qed.

(** ** The invariant *)

Lemma count_zero_of_u32 l h : Z.of_nat (length l) < 2 ^ 32 -> u32 (Z.of_nat (count l h)) = 0 -> count l h = 0%nat.
Proof.
  intros Hl. assert (count l h <= length l)%nat by apply length_filter.
  rewrite u32_id; unfold is_u32; lia.
Qed.

(** A pool that can be removed is not used. *)
Lemma removed_pool_unused a i p : wf a -> Z.of_nat (length (used_pools a)) < 2 ^ 32 ->
  pools a !! i = Some p -> p_num_xstreams p = 0 -> count (used_pools a) (p_pool p) = 0%nat.
Proof.
  intros [] Hu Hi H0. apply count_zero_of_u32; [done|].
  rewrite Forall_forall in wf_count0. rewrite <- wf_count0; [done|]. by eapply list_elem_of_lookup_2.
Qed.

Lemma step_wf initialized c a a' : wf a -> step initialized c a a' -> wf a'.
Proof.
  intros Hwf Hs. destruct Hs as [realloc create config a ok a' Hl Hf H|realloc name h a ok a' Hl Hh H|
    total index p a ret a' Hu Hp H|realloc o h config a ok a' Hl Ho H|realloc o name h a ok a' Hl Hc He Hh Hr H|
    index a ret a' H|h l a Hh].
  - apply add_pool_from_json_spec in H; [|done..]. destruct ok; [|by eapply only_caps_wf].
    destruct H as [H0 H]. destruct (Hf H0). by eapply pool_added_wf.
  - apply add_external_pool_spec in H; [|done..]. destruct ok; [|by eapply only_caps_wf].
    destruct H. by eapply pool_added_wf.
  - apply remove_pool_spec in H as [[_ ->]|(q & _ & Hq & _ & Hn & _ & ->)]; [done|].
    apply wf_remove_pool with q; [done..|]. by eapply removed_pool_unused.
  - by eapply add_xstream_from_json_spec in H as [? _].
  - by eapply add_external_xstream_spec in H as [? _].
  - apply remove_xstream_spec in H as [[_ ->]|(x & _ & Hx & ->)]; [done| |done]. by apply wf_remove_xstream.
  - assert (used_pools (set_main (<[h:=l]> (main a)) a) = used_pools a) as Hu.
    { apply used_pools_ext; [done|]. intros x Hx. unfold main_pools. simpl. rewrite lookup_insert_ne; [done|].
      intros ->. apply Hh, list_elem_of_fmap. by exists x. }
    destruct Hwf. constructor; by rewrite ?Hu.
Qed.

Lemma wf_empty m : wf (empty_abt m).
Proof. constructor; simpl; try constructor; lia. Qed.

Lemma reachable_wf initialized m a : reachable initialized (empty_abt m) a -> wf a.
Proof. induction 1; [apply wf_empty|by eapply step_wf]. Qed.


(** ** The pool table as a directory *)

Lemma pool_dir_lookup a n h : NoDup (map p_name (pools a)) ->
  pool_dir a !! n = Some h <-> exists p, p ∈ pools a /\ p_name p = n /\ p_pool p = h.
Proof.
  intros Hnd. unfold pool_dir. rewrite <- elem_of_list_to_map.
  - rewrite list_elem_of_fmap. split; [intros (p & [= -> ->] & ?); eauto|intros (p & ? & <- & <-); eauto].
  - rewrite <- list_fmap_compose. done.
Qed.

Lemma pool_dir_perm a a' : NoDup (map p_name (pools a)) -> pools a ≡ₚ pools a' -> pool_dir a = pool_dir a'.
Proof.
  intros Hnd Hp. apply list_to_map_proper; [|by apply Permutation_map].
  rewrite <- list_fmap_compose. done.
Qed.

Lemma pool_dir_added a a' name h : wf a -> h ∉ map p_pool (pools a) -> pool_added a a' name h ->
  dir_add name h (pool_dir a) (pool_dir a').
Proof.
  intros Hwf Hh (p & cap & -> & Hn & Hname & Hp & Hx & _ & Hc). exists (p_name p). destruct Hwf. split_and!.
  - intros n' Hn'. by rewrite (Hname n' Hn').
  - apply eq_None_not_Some. intros [k Hk]. apply pool_dir_lookup in Hk as (q & Hq & Hqn & _); [|done].
    apply Hn. rewrite <- Hqn. apply list_elem_of_fmap. eauto.
  - intros n' Hk. apply pool_dir_lookup in Hk as (q & Hq & _ & Hqh); [|done].
    apply Hh. rewrite <- Hqh. apply list_elem_of_fmap. eauto.
  - rewrite (pool_dir_perm _ (set_pools (p :: pools a) a)).
    + unfold pool_dir. simpl. by rewrite Hp.
    + simpl. rewrite map_app. apply NoDup_app. split_and!; [done| |apply NoDup_singleton].
      intros n ? ->%list_elem_of_singleton. done.
    + simpl. symmetry. apply Permutation_cons_append.
Qed.

Lemma pool_dir_same a a' : same_pools a a' -> pool_dir a' = pool_dir a.
Proof.
  intros (f & Hf & Hp). unfold pool_dir. rewrite Hp, map_map. f_equal. apply map_ext. intros p.
  by destruct (Hf p) as (-> & -> & _).
Qed.

Lemma pool_dir_removed a a' p : wf a -> p ∈ pools a -> pools a ≡ₚ p :: pools a' ->
  pool_dir a !! p_name p = Some (p_pool p) /\ pool_dir a' = delete (p_name p) (pool_dir a).
Proof.
  intros [] Hp Hperm. split; [apply pool_dir_lookup; eauto|].
  rewrite (pool_dir_perm a (set_pools (p :: pools a') a)) by done.
  change (pool_dir (set_pools (p :: pools a') a)) with (<[p_name p := p_pool p]> (pool_dir a')).
  rewrite delete_insert_id; [done|]. apply not_elem_of_list_to_map.
  rewrite <- list_fmap_compose. change (p_name p ∉ map p_name (pools a')).
  rewrite (Permutation_map p_name Hperm) in wf_names0. simpl in wf_names0. by apply NoDup_cons in wf_names0 as [? _].
Qed.

Lemma step_dir initialized c a a' : wf a -> step initialized c a a' -> dir_step c (pool_dir a) (pool_dir a').
Proof.
  intros Hwf Hs. destruct Hs as [realloc create config a ok a' Hl Hf H|realloc name h a ok a' Hl Hh H|
    total index p a ret a' Hu Hp H|realloc o h config a ok a' Hl Ho H|realloc o name h a ok a' Hl Hc He Hh Hr H|
    index a ret a' H|h l a Hh]; simpl.
  - apply add_pool_from_json_spec in H; [|done..]. destruct ok; [|by destruct H as (pc & xc & -> & _)].
    destruct H as [H0 H]. destruct (Hf H0). by apply pool_dir_added.
  - apply add_external_pool_spec in H; [|done..]. destruct ok; [|by destruct H as (pc & xc & -> & _)].
    destruct H. by apply pool_dir_added.
  - apply remove_pool_spec in H as [[Hne ->]|(q & -> & Hq & _ & _ & _ & ->)].
    + by apply is_success_false in Hne as ->.
    + rewrite Hp in Hq. injection Hq as <-. exists (p_name p).
      apply pool_dir_removed; [done|by eapply list_elem_of_lookup_2|by apply swap_remove_perm].
  - eapply add_xstream_from_json_spec in H as [_ H]; [|done..]. by apply pool_dir_same.
  - eapply add_external_xstream_spec in H as [_ H]; [|done..]. by apply pool_dir_same.
  - apply remove_xstream_spec in H as [[_ ->]|(x & _ & Hx & ->)]; [done| |done].
    apply pool_dir_same. eexists. split; [apply (keeps_repeat _ (main_pools a (x_xstream x)) keeps_decr)|done].
  - done.
Qed.

(** C17: The table of pools refines a directory of handles by name: each call
    changes the directory as its result says (an addition binds an unused name
    to an unused handle, a refused one and all calls on execution streams change
    nothing, a removal unbinds the name of the pool although it moves another
    entry), and the two searches find exactly what the directory holds. *)
Theorem pool_table_refines initialized m c a a' : reachable initialized (empty_abt m) a -> step initialized c a a' ->
  dir_step c (pool_dir a) (pool_dir a') /\
  forall n h, pool_dir a !! n = Some h <->
    exists k p, pools a !! k = Some p /\ p_name p = n /\ p_pool p = h /\
      __margo_abt_find_pool_by_name a (Some n) = Z.of_nat k /\ __margo_abt_find_pool_by_handle a h = Z.of_nat k.
Proof.
  intros Hr Hs. pose proof (reachable_wf _ _ _ Hr) as Hwf. split; [by eapply step_dir|]. intros n h.
  destruct Hwf. rewrite pool_dir_lookup by done. split.
  2:{ intros (k & p & Hp & ? & ? & _). exists p. split; [by eapply list_elem_of_lookup_2|done]. }
  intros (p & [k Hk]%list_elem_of_lookup & <- & <-). exists k, p. do 3 (split; [done|]). split.
  - destruct (find_pool_by_name_spec a (p_name p)) as [[_ Hn]|(j & q & -> & Hq & He)].
    + destruct Hn. apply list_elem_of_fmap. exists p. split; [done|by eapply list_elem_of_lookup_2].
    + f_equal. eapply (NoDup_lookup _ _ _ (p_name p)); [exact wf_names0|..]; rewrite lookup_map; [by rewrite Hq, <- He|by rewrite Hk].
  - assert (p_pool p ≠ 0) as Hn0 by (rewrite Forall_forall in wf_nonnull0; by eapply wf_nonnull0, list_elem_of_lookup_2).
    destruct (find_pool_by_handle_spec a (p_pool p) Hn0) as [[_ Hn]|(j & q & -> & Hq & He)].
    + destruct Hn. apply list_elem_of_fmap. exists p. split; [done|by eapply list_elem_of_lookup_2].
    + f_equal. eapply (NoDup_lookup _ _ _ (p_pool p)); [exact wf_handles0|..]; rewrite lookup_map; [by rewrite Hq, <- He|by rewrite Hk].
Qed.

(** The unbounded loops that generate names end: within as many tries as
    there are names plus one they find a name that no entry has, and more fuel
    does not change it. *)
Theorem generated_names_terminate a fuel fuel' :
  Z.of_nat (length (pools a)) < 2 ^ 30 -> Z.of_nat (length (xstreams a)) < 2 ^ 30 ->
  (pool_fuel a <= fuel)%nat -> (xstream_fuel a <= fuel')%nat ->
  exists n n',
    generate_unused_pool_name fuel a = Some n /\ unused_pool_name a n /\
    generate_unused_xstream_name fuel' a = Some n' /\ unused_xstream_name a n'.
Proof.
  intros Hp Hx Hf Hf'. destruct (generate_pool_name a Hp) as (n & Hn & ?), (generate_xstream_name a Hx) as (n' & Hn' & ?).
  exists n, n'. split_and!; [by eapply unused_name_mono|done|by eapply unused_name_mono|done].
Qed.

(** ** Examples *)

Definition oracle_ok (h : Z) : xstream_oracle := Oracle 0 (0, h) (0, h) 0 codes_ok (0, 0) codes_ok.

Definition es_json : json :=
  JObject [("name", Some (JString "es")); ("scheduler", Some (JObject [("pools", Some (JArray [Some (JString "q")]))]))]%string.

Definition q_json : json := JObject [("name", Some (JString "q"))]%string.

(** Two pools, and an execution stream that uses the second one. *)
Definition demo1 : margo_abt := (__margo_abt_add_external_pool true (Some "p"%string) 7 (empty_abt ∅)).2.
Definition demo2 : margo_abt := (__margo_abt_add_pool_from_json true true (0, 8) (Some q_json) demo1).2.
Definition demo3 : margo_abt := (__margo_abt_add_xstream_from_json true true (oracle_ok 5) (Some es_json) demo2).2.


Lemma demo2_reachable : reachable true (empty_abt ∅) demo2.
Proof.
  apply (reach_step _ _ (AddJson (Some "q"%string) 8 true) demo1 demo2);
    [apply (reach_step _ _ (AddExternal (Some "p"%string) 7 true) (empty_abt ∅) demo1); [apply reach_refl|]|].
  - apply (step_add_external true true); [vm_compute; reflexivity|done|vm_compute; reflexivity].
  - apply (step_add_pool true true (0, 8) (Some q_json) demo1 true); [vm_compute; reflexivity| |vm_compute; reflexivity].
    intros _. split; [done|]. change (8 ∉ [7]). by rewrite list_elem_of_singleton.
Qed.

Lemma demo_reachable : reachable true (empty_abt ∅) demo3.
Proof.
  apply (reach_step _ _ OnXstreams demo2 demo3); [apply demo2_reachable|].
  apply (step_add_xstream true true (oracle_ok 5) 5 (Some es_json) demo2 true); [vm_compute; reflexivity| |vm_compute; reflexivity].
  constructor; try done. change (5 ∉ @nil Z). apply not_elem_of_nil.
Qed.

Lemma demo_remove : exists a', __margo_abt_remove_pool (0, 0) 0 demo3 = (HG_SUCCESS, a').
Proof. eexists. vm_compute. reflexivity. Qed.


Lemma pool_table_refines_witness :
  exists a', __margo_abt_remove_pool (0, 0) 0 demo3 = (HG_SUCCESS, a') /\
    exists n, pool_dir demo3 !! n = Some 7 /\ pool_dir a' = delete n (pool_dir demo3).
Proof.
  destruct demo_remove as [a' Ha']. exists a'. split; [exact Ha'|].
  destruct (pool_table_refines true ∅ (Remove 7 HG_SUCCESS) demo3 a' demo_reachable) as [Hd _].
  - eapply (step_remove true (0, 0) 0 (Pool "p" 7 "external" None 0 0 false false)); [vm_compute; reflexivity|reflexivity|exact Ha'].
  - exact Hd.
Defined.

Lemma generated_names_terminate_witness :
  generate_unused_pool_name 3 demo2 = Some "__pool_2__"%string /\
  exists n n', generate_unused_pool_name 3 demo2 = Some n /\ unused_pool_name demo2 n /\
    generate_unused_xstream_name 1 demo2 = Some n' /\ unused_xstream_name demo2 n'.
Proof.
  split; [vm_compute; reflexivity|].
  apply (generated_names_terminate demo2 3 1); first [vm_compute; reflexivity|vm_compute; lia].
Defined.
