(* ===== verification/AbtStart.v ===== *)
(** * Starting from a configuration

    A configuration that the validators accept is one that the constructors of
    AbtConfig can use, the JSON written for well-formed tables is accepted and
    describes the same pools and schedulers, and what the error paths leave
    behind. *)

From stdpp Require Import strings pretty.
From S2P Require Import Prelude Json AbtConfig AbtTables.

#[local] Open Scope Z_scope.

(** ** Definitions of the specification *)

(** The name a JSON object gives, if any. *)
Definition json_name (j : option json) : option string := json_object_get_string (json_object_object_get j "name").

(** The pool is what its JSON description asks for. *)
Definition pool_matches (j : option json) (p : margo_abt_pool) : Prop :=
  (forall n, json_name j = Some n -> p_name p = n) /\
  p_kind p = json_object_object_get_string_or j "kind" "fifo_wait" /\
  p_access p = Some (json_object_object_get_string_or j "access" "mpmc").

Definition sched_refs (jxstream : option json) : list (option json) :=
  json_object_array (json_object_object_get (json_object_object_get jxstream "scheduler") "pools").

(** The execution stream has the name and runs the pools its description asks
    for, in the pool table of [a]. *)
Definition xstream_matches (a : margo_abt) (j : option json) (x : margo_abt_xstream) : Prop :=
  (forall n, json_name j = Some n -> x_name x = n) /\
  x_sched_type x = json_object_object_get_string_or (json_object_object_get j "scheduler") "type" "basic_wait" /\
  mapM (resolve_handle a) (sched_refs j) = Some (main_pools a (x_xstream x)).

(** Argobots creates everything it is asked for, with distinct handles. *)
Record good_start (o : init_oracle) (ph xh : nat -> Z) : Prop := {
  gs_init : i_abt_init o = 0;
  gs_alloc_pools : i_alloc_pools o = true;
  gs_alloc_xstreams : i_alloc_xstreams o = true;
  gs_pools : forall n, i_pools o n = (0, ph n);
  gs_pool_nonnull : forall n, ph n ≠ 0;
  gs_pool_inj : forall m n, ph m = ph n -> m = n;
  gs_xstreams : forall n, i_xstreams o n = Oracle 0 (0, xh n) (0, xh n) 0 codes_ok (0, 0) codes_ok;
  gs_xstream_nonnull : forall n, xh n ≠ 0;
  gs_xstream_inj : forall m n, xh m = xh n -> m = n;
  gs_main_pools : i_main_pools o = 0
}.

(** ** Validated pools *)

Lemma string_or_cases j key d : ASSERT_CONFIG_HAS_OPTIONAL j key json_type_string = true ->
  json_object_object_get_string_or j key d =
  match json_object_object_get j key with None => d | v => default d (json_object_get_string v) end.
Proof.
  intros [H|[s H]]%optional_string; unfold json_object_object_get_string_or; by rewrite H.
Qed.

Lemma valid_pool_request initialized j : __margo_abt_pool_validate_json initialized j = true ->
  is_Some (request_of (json_object_object_get_string_or j "kind" "fifo_wait") (json_object_object_get_string_or j "access" "mpmc")).
Proof.
  destruct j as [j|]; [|eexists; reflexivity].
  unfold __margo_abt_pool_validate_json. rewrite !andb_true_iff. intros [[[[_ Hk] He] _] _].
  rewrite (string_or_cases _ _ _ Hk). destruct (optional_string _ _ Hk) as [Hn|[s Hs]].
  - rewrite Hn. eexists; reflexivity.
  - rewrite Hs in He |- *. apply andb_true_iff in He as [He Hne]. simpl in Hne |- *.
    apply negb_true_iff, bool_decide_eq_false in Hne.
    apply enum_string in He as (s' & [= <-] & Hin).
    repeat (apply elem_of_cons in Hin as [->|Hin]; [first [eexists; reflexivity|by destruct Hne]|]). by apply elem_of_nil in Hin.
Qed.

Lemma valid_pool_init initialized j a h : __margo_abt_pool_validate_json initialized j = true ->
  Z.of_nat (length (pools a)) < 2 ^ 30 ->
  exists p, __margo_abt_pool_init_from_json (0, h) j a = Some p /\ pool_matches j p /\ p_pool p = h.
Proof.
  intros Hv Hl. unfold __margo_abt_pool_init_from_json.
  destruct (valid_pool_request _ _ Hv) as [r Hr]. unfold pool_matches, json_name.
  destruct (pool_name_string _ _ Hv) as [Hj|[s Hj]]; rewrite Hj.
  - destruct (generate_pool_name a Hl) as (n & -> & _). cbn [mbind option_bind]. rewrite Hr. simpl.
    eexists. split; [done|]. done.
  - cbn [mbind option_bind json_object_get_string]. rewrite Hr. simpl.
    eexists. split; [done|]. split_and!; try done. by intros ? [= ->].
Qed.

Lemma set_pools_pools l a : pools (set_pools l a) = l.
Proof. done. Qed.

Lemma valid_pools_init initialized create ph jpools : (forall n, create n = (0, ph n)) -> forall a,
  forallb (__margo_abt_pool_validate_json initialized) jpools = true ->
  Z.of_nat (length (pools a) + length jpools) < 2 ^ 30 ->
  exists ps, init_pools create jpools a = (true, set_pools (pools a ++ ps) a) /\
    Forall2 pool_matches jpools ps /\ map p_pool ps = map ph (seq (length (pools a)) (length jpools)).
Proof.
  intros Hc. induction jpools as [|j jpools IH]; intros a Hv Hl.
  - exists []. rewrite app_nil_r. simpl. destruct a. by split_and!.
  - apply andb_true_iff in Hv as [Hj Hv]. cbn [length] in Hl.
    destruct (valid_pool_init _ _ a (ph (length (pools a))) Hj ltac:(lia)) as (p & Hp & Hm & Hh).
    destruct (IH (set_pools (pools a ++ [p]) a) Hv) as (ps & Hi & Hf & Hs).
    { simpl. rewrite length_app. simpl. lia. }
    exists (p :: ps). cbn [init_pools]. rewrite Hc, Hp, Hi. split_and!.
    + simpl. by rewrite <- app_assoc.
    + by constructor.
    + simpl in Hs |- *. rewrite Hs, Hh, length_app. simpl. by rewrite Nat.add_1_r.
Qed.

(** ** Validated execution streams *)

Lemma index_of_map {A} (test : A -> bool) (f : A -> A) l : (forall x, test (f x) = test x) ->
  forall i, index_of test (map f l) i = index_of test l i.
Proof. intros Ht. induction l as [|x l IH]; intros i; simpl; [done|]. by rewrite Ht, IH. Qed.

Lemma resolve_handle_same a a' j : same_pools a a' -> resolve_handle a' j = resolve_handle a j.
Proof.
  intros (f & Hf & Hp). assert (resolve a' j = resolve a j) as Hr.
  { unfold resolve. rewrite Hp, length_map. destruct j as [[]|]; try done;
      rewrite index_of_map; try done; intros x; by rewrite (proj1 (Hf x)). }
  unfold resolve_handle. rewrite Hr, Hp, length_map, lookup_map. destruct (_ <=? _); [done|].
  destruct (pools a !! Z.to_nat (resolve a j)) as [p|]; simpl; [|done]. by rewrite (proj1 (proj2 (Hf p))).
Qed.

Lemma valid_ref_resolves extra a j : pool_ref_ok (empty_abt ∅) extra j = true ->
  (length extra <= length (pools a))%nat -> Z.of_nat (length (pools a)) < 2 ^ 31 ->
  (forall e n, e ∈ extra -> json_name e = Some n -> n ∈ map p_name (pools a)) ->
  is_Some (resolve_handle a j).
Proof.
  intros Hok Hl Hb Hn.
  assert (exists k, resolve a j = Z.of_nat k /\ (k < length (pools a))%nat) as (k & Hk & Hlt).
  { destruct j as [[b|s|n|s|l|l]|]; try done.
    - cbn [pool_ref_ok] in Hok. apply negb_true_iff, orb_false_iff in Hok as [H0 H1].
      apply Z.ltb_ge in H0. apply Z.leb_gt in H1. cbn [length pools empty_abt] in H1.
      exists (Z.to_nat (json_object_get_int (Some (JInt n)))). unfold resolve.
      rewrite u32_id by (unfold is_u32; lia). lia.
    - cbn [pool_ref_ok] in Hok. apply orb_true_iff in Hok as [Hok|(e & He & Hen%bool_decide_eq_true)%existsb_exists]; [done|].
      apply list_elem_of_In in He. specialize (Hn e s He Hen). unfold resolve. cbn [json_object_get_string].
      destruct (index_of_spec (fun p => bool_decide (Some (p_name p) = Some s)) (pools a) 0 ltac:(lia))
        as [[-> Hf]|(k & p & -> & Hp & _)].
      + apply list_elem_of_fmap in Hn as (p & -> & Hp). rewrite Forall_forall in Hf.
        specialize (Hf p Hp). by rewrite bool_decide_eq_true_2 in Hf.
      + exists k. apply lookup_lt_Some in Hp. replace (0 + Z.of_nat k =? -1) with false; [lia|].
        symmetry. apply Z.eqb_neq. lia. }
  unfold resolve_handle. rewrite Hk, Nat2Z.id. destruct (lookup_lt_is_Some_2 _ _ Hlt) as [p ->].
  replace (_ <=? _) with false; [by eexists|]. symmetry. apply Z.leb_gt. lia.
Qed.

Lemma valid_refs_resolve initialized jpools a j :
  __margo_abt_xstream_validate_json initialized (empty_abt ∅) jpools j = true ->
  let extra := json_object_array jpools in
  (length extra <= length (pools a))%nat -> Z.of_nat (length (pools a)) < 2 ^ 31 ->
  (forall e n, e ∈ extra -> json_name e = Some n -> n ∈ map p_name (pools a)) ->
  is_Some (mapM (resolve_handle a) (sched_refs j)).
Proof.
  intros Hv extra Hl Hb Hn. apply mapM_is_Some. apply Forall_forall. intros r Hr.
  unfold __margo_abt_xstream_validate_json in Hv. rewrite !andb_true_iff in Hv.
  destruct Hv as [[[[_ Hs] _] _] _]. unfold sched_refs in Hr.
  destruct (json_object_object_get j "scheduler") as [js|]; [|by apply elem_of_nil in Hr].
  cbn [__margo_abt_sched_validate_json] in Hs. rewrite !andb_true_iff in Hs. destruct Hs as [_ Hs].
  rewrite forallb_forall in Hs. apply list_elem_of_In in Hr. by eapply valid_ref_resolves; [apply Hs|..].
Qed.

Lemma valid_xstream_name initialized a jpools j :
  __margo_abt_xstream_validate_json initialized a jpools j = true ->
  json_object_object_get j "name" = None \/ exists s, json_object_object_get j "name" = Some (JString s).
Proof. unfold __margo_abt_xstream_validate_json. rewrite !andb_true_iff. intros H. apply optional_string. tauto. Qed.

(** The tables after stream [x] has been created with scheduler [sched]. *)
Lemma valid_xstream_init j a h sched :
  (json_object_object_get j "name" = None \/ exists s, json_object_object_get j "name" = Some (JString s)) ->
  mapM (resolve_handle a) (sched_refs j) = Some sched ->
  NoDup (map p_pool (pools a)) -> Forall (fun p => p_pool p ≠ 0) (pools a) -> Z.of_nat (length (xstreams a)) < 2 ^ 30 ->
  exists x a', __margo_abt_xstream_init_from_json (oracle_ok h) j a = (Some x, a') /\
    (forall n, json_name j = Some n -> x_name x = n) /\
    (json_name j = None -> exists i, x_name x = generated "__xstream_" i) /\
    x_sched_type x = json_object_object_get_string_or (json_object_object_get j "scheduler") "type" "basic_wait" /\
    x_xstream x = h /\ same_pools a a' /\ xstreams a' = xstreams a /\ main a' = <[h := sched]> (main a).
Proof.
  intros Hv Hm Hnd Hnn Hl.
  assert (Forall (fun h => h ≠ 0 /\ h ∈ map p_pool (pools a)) sched) as Hreg.
  { apply resolve_handles_registered in Hm. eapply Forall_impl; [exact Hm|]. intros k Hk. split; [|done].
    apply list_elem_of_fmap in Hk as (p & -> & Hp). rewrite Forall_forall in Hnn. auto. }
  assert (exists n, match json_object_object_get j "name" with
                    | None => generate_unused_xstream_name (xstream_fuel a) a
                    | jname => json_object_get_string jname
                    end = Some n /\ (forall n', json_name j = Some n' -> n = n') /\
                    (json_name j = None -> exists i, n = generated "__xstream_" i)) as (n & Hn & Hn' & Hgen).
  { unfold json_name. destruct Hv as [Hj|[s Hj]]; rewrite Hj.
    - destruct (generate_xstream_name a Hl) as (n & Hgn & _). exists n. split_and!; [done..|]. intros _.
      unfold generate_unused_xstream_name, xstream_fuel in Hgn.
      pose proof (unused_name_spec "__xstream_" (map x_name (xstreams a)) (S (length (xstreams a)))
                    (Z.of_nat (length (xstreams a))) ltac:(lia) ltac:(lia)) as Hs.
      rewrite Hgn in Hs. destruct Hs as (_ & i & _ & ->). by exists i.
    - exists s. split_and!; [done| |done]. by intros ? [= ->]. }
  unfold __margo_abt_xstream_init_from_json. rewrite Hn. unfold __margo_abt_sched_init_from_json.
  unfold sched_refs in Hm. rewrite Hm. simpl.
  case_bool_decide; simpl.
  - rewrite (each_pool_ok _ (keeps_incr true)) by done. do 2 eexists. split; [done|]. simpl. split_and!; try done.
    eexists. split; [apply (keeps_repeat _ sched (keeps_incr true))|done].
  - rewrite (each_pool_ok _ (keeps_incr false)) by done. do 2 eexists. split; [done|]. simpl. split_and!; try done.
    eexists. split; [apply (keeps_repeat _ sched (keeps_incr false))|done].
Qed.

Lemma same_pools_trans a a1 a2 : same_pools a a1 -> same_pools a1 a2 -> same_pools a a2.
Proof.
  intros (f & Hf & Hp) (g & Hg & Hq). exists (fun p => g (f p)). split.
  - intros p. destruct (Hg (f p)) as (-> & -> & -> & -> & ->). apply Hf.
  - by rewrite Hq, Hp, map_map.
Qed.

Lemma same_pools_keys a a' : same_pools a a' ->
  map p_name (pools a') = map p_name (pools a) /\ map p_pool (pools a') = map p_pool (pools a) /\
  length (pools a') = length (pools a).
Proof. intros (f & Hf & ->). by rewrite keeps_map_name, keeps_map_pool, length_map. Qed.

Lemma pool_matches_keeps f j p : keeps f -> pool_matches j p -> pool_matches j (f p).
Proof. intros Hf. unfold pool_matches. by destruct (Hf p) as (-> & _ & -> & -> & _). Qed.

Lemma xstream_matches_same a a' j x : same_pools a a' -> main a' !! x_xstream x = main a !! x_xstream x ->
  xstream_matches a j x -> xstream_matches a' j x.
Proof.
  intros Hs Hm (? & ? & Hr). do 2 (split; [done|]). unfold main_pools. rewrite Hm.
  erewrite mapM_ext; [exact Hr|]. intros r. by apply resolve_handle_same.
Qed.

Lemma valid_xstreams_init initialized jpools o xh l : (forall n, o n = oracle_ok (xh n)) -> (forall m n, xh m = xh n -> m = n) ->
  forall a, forallb (__margo_abt_xstream_validate_json initialized (empty_abt ∅) jpools) l = true ->
  Forall (fun j => is_Some (mapM (resolve_handle a) (sched_refs j))) l ->
  NoDup (map p_pool (pools a)) -> Forall (fun p => p_pool p ≠ 0) (pools a) ->
  Z.of_nat (length (xstreams a) + length l) < 2 ^ 30 ->
  exists xs a', init_xstreams o l a = (true, a') /\ same_pools a a' /\ xstreams a' = xstreams a ++ xs /\
    Forall2 (xstream_matches a') l xs /\
    Forall2 (fun j x => json_name j = None -> exists i, x_name x = generated "__xstream_" i) l xs /\
    map x_xstream xs = map xh (seq (length (xstreams a)) (length l)) /\
    (forall h, h ∉ map xh (seq (length (xstreams a)) (length l)) -> main a' !! h = main a !! h).
Proof.
  intros Ho Hinj. induction l as [|j l IH]; intros a Hv Hr Hnd Hnn Hl.
  { exists [], a. split_and!; try done; [exists id; by rewrite map_id|by rewrite app_nil_r]. }
  apply andb_true_iff in Hv as [Hj Hv]. apply Forall_cons in Hr as [[sched Hm] Hr]. cbn [length] in Hl.
  destruct (valid_xstream_init _ a (xh (length (xstreams a))) _ (valid_xstream_name _ _ _ _ Hj) Hm Hnd Hnn ltac:(lia))
    as (x & a1 & Hi & Hn & Hgen & Ht & Hx & Hs & Hxs & Hmain).
  set (a2 := set_xstreams (xstreams a1 ++ [x]) a1).
  assert (same_pools a a2) as Hs2 by exact Hs.
  destruct (same_pools_keys _ _ Hs2) as (_ & Hk & _).
  assert (length (xstreams a2) = S (length (xstreams a))) as Hlen by (simpl; rewrite length_app, Hxs; simpl; lia).
  destruct (IH a2) as (xs & a' & Hi' & Hs' & Hxs' & Hf & Hfg & Hmp & Hmain').
  { done. }
  { eapply Forall_impl; [exact Hr|]. intros j' Hj'. erewrite mapM_ext; [exact Hj'|]. intros. by apply resolve_handle_same. }
  { by rewrite Hk. }
  { destruct Hs2 as (f & Hff & ->). apply Forall_map. eapply Forall_impl; [exact Hnn|]. intros p. simpl.
    by rewrite (proj1 (proj2 (Hff p))). }
  { rewrite Hlen. lia. }
  rewrite Hlen in Hmp, Hmain'. exists (x :: xs), a'. cbn [init_xstreams]. rewrite Ho, Hi. fold a2. split_and!.
  - exact Hi'.
  - by eapply same_pools_trans.
  - rewrite Hxs'. simpl. by rewrite Hxs, <- app_assoc.
  - constructor; [|done]. do 2 (split; [done|]). unfold main_pools. rewrite Hx, Hmain'.
    + simpl. rewrite Hmain, lookup_insert_eq. simpl. erewrite mapM_ext; [exact Hm|].
      intros r. apply resolve_handle_same. by eapply same_pools_trans.
    + intros (k & Hk2%Hinj & Hk3%elem_of_seq)%list_elem_of_fmap. lia.
  - by constructor.
  - simpl. by rewrite Hx, Hmp.
  - intros h Hh. simpl in Hh. apply not_elem_of_cons in Hh as [Hne Hh]. rewrite Hmain' by done. simpl.
    by rewrite Hmain, lookup_insert_ne by done.
Qed.

(** ** The primary execution stream *)

Lemma index_of_app {A} (test : A -> bool) l l' : forall i, 0 <= i -> index_of test l i ≠ -1 ->
  index_of test (l ++ l') i = index_of test l i.
Proof. induction l as [|x l IH]; intros i Hi; simpl; [done|]. destruct (test x); [done|]. apply IH. lia. Qed.

Lemma resolve_handle_app a p j h : resolve_handle a j = Some h ->
  resolve_handle (set_pools (pools a ++ [p]) a) j = Some h.
Proof.
  unfold resolve_handle. cbn [pools set_pools]. destruct (_ <=? _) eqn:Hle; [done|]. intros Hp.
  apply Z.leb_gt in Hle. rewrite length_app. simpl.
  assert (resolve (set_pools (pools a ++ [p]) a) j = resolve a j) as ->.
  { unfold resolve in *. cbn [pools set_pools]. destruct j as [[]|]; try done;
      rewrite index_of_app; try done; try (destruct (_ =? -1) eqn:He; [lia|done]);
      intros He; rewrite He in Hle; simpl in Hle; lia. }
  replace (_ <=? _) with false by (symmetry; apply Z.leb_gt; lia).
  apply fmap_Some in Hp as (q & Hq & ->). by rewrite lookup_app_l, Hq by (by eapply lookup_lt_Some).
Qed.

Lemma xstream_matches_app a p j x : xstream_matches a j x -> xstream_matches (set_pools (pools a ++ [p]) a) j x.
Proof.
  intros (? & ? & Hm). do 2 (split; [done|]). apply mapM_Some in Hm. apply mapM_Some.
  eapply Forall2_impl; [exact Hm|]. intros r h. apply resolve_handle_app.
Qed.

Lemma no_primary a l :
  Forall2 (fun j x => forall n, json_name j = Some n -> x_name x = n) l (xstreams a) ->
  Forall2 (fun j x => json_name j = None -> exists i, x_name x = generated "__xstream_" i) l (xstreams a) ->
  "__primary__"%string ∉ omap json_name l ->
  __margo_abt_find_xstream_by_name a (Some "__primary__"%string) = -1.
Proof.
  intros Hn Hg Hp. destruct (find_xstream_by_name_spec a "__primary__") as [[-> _]|(k & x & _ & Hx & He)]; [done|].
  exfalso. destruct (Forall2_lookup_r _ _ _ _ _ Hn Hx) as (j & Hj & Hnj).
  destruct (Forall2_lookup_r _ _ _ _ _ Hg Hx) as (j' & Hj' & Hgj). rewrite Hj in Hj'. injection Hj' as <-.
  destruct (json_name j) as [n|] eqn:Hjn.
  - apply Hp, list_elem_of_omap. exists j. split; [by eapply list_elem_of_lookup_2|]. by rewrite Hjn, <- He, (Hnj n).
  - destruct (Hgj eq_refl) as [i Hi]. rewrite He in Hi. done.
Qed.

(** The first part of an initialisation: the tables before the primary
    execution stream is looked for. *)
Lemma valid_build initialized o ph xh j first m : good_start o ph xh ->
  __margo_abt_validate_json initialized j = true ->
  let jpools := json_object_array (json_object_object_get j "pools") in
  let jxstreams := json_object_array (json_object_object_get j "xstreams") in
  Z.of_nat (length jpools) < 2 ^ 30 -> Z.of_nat (length jxstreams) < 2 ^ 30 ->
  exists a, build o first j (empty_abt m) = find_primary o first a /\
    Forall2 pool_matches jpools (pools a) /\ map p_pool (pools a) = map ph (seq 0 (length jpools)) /\
    Forall2 (xstream_matches a) jxstreams (xstreams a) /\
    Forall2 (fun j x => json_name j = None -> exists i, x_name x = generated "__xstream_" i) jxstreams (xstreams a) /\
    map x_xstream (xstreams a) = map xh (seq 0 (length jxstreams)) /\
    (forall h, h ∉ map xh (seq 0 (length jxstreams)) -> main a !! h = m !! h).
Proof.
  intros [] Hv jpools jxstreams Hlp Hlx.
  assert (forallb (__margo_abt_pool_validate_json initialized) jpools = true /\
          forallb (__margo_abt_xstream_validate_json initialized (empty_abt ∅) (json_object_object_get j "pools")) jxstreams = true) as [Hvp Hvx].
  { destruct j as [j|]; [|done]. unfold __margo_abt_validate_json in Hv. rewrite !andb_true_iff in Hv. tauto. }
  unfold build. fold jpools jxstreams. rewrite gs_alloc_pools0, gs_alloc_xstreams0. cbn [negb].
  set (a1 := Abt [] _ _ _ _ _ _).
  destruct (valid_pools_init initialized (i_pools o) ph jpools gs_pools0 a1 Hvp) as (ps & -> & Hm & Hh); [simpl; lia|].
  cbn [negb]. set (a2 := with_caps _ _ _).
  assert (pools a2 = ps) as Hps by done.
  destruct (valid_xstreams_init initialized (json_object_object_get j "pools") (i_xstreams o) xh jxstreams gs_xstreams0 gs_xstream_inj0 a2 Hvx)
    as (xs & a & -> & Hs & Hxs & Hx & Hg & Hxh & Hmain).
  - apply Forall_forall. intros x Hin. rewrite forallb_forall in Hvx. apply list_elem_of_In in Hin. rewrite <- Hps in Hm.
    eapply valid_refs_resolve; [by apply Hvx|..]; fold jpools.
    + by rewrite (Forall2_length _ _ _ Hm).
    + rewrite <- (Forall2_length _ _ _ Hm). lia.
    + intros e n [i He]%list_elem_of_lookup Hn. destruct (Forall2_lookup_l _ _ _ _ _ Hm He) as (p & Hp & [Hpn _]).
      apply list_elem_of_fmap. exists p. rewrite (Hpn n Hn). split; [done|]. by eapply list_elem_of_lookup_2.
  - rewrite Hps, Hh. apply NoDup_fmap_2_strong; [|apply NoDup_seq]. auto.
  - rewrite Hps. apply Forall_forall. intros p Hp. assert (p_pool p ∈ map p_pool ps) as Hin by (apply list_elem_of_fmap; eauto).
    rewrite Hh in Hin. apply list_elem_of_fmap in Hin as (n & -> & _). apply gs_pool_nonnull0.
  - simpl. lia.
  - exists a. cbn [negb]. split; [done|]. destruct Hs as (f & Hf & Hp). rewrite Hps in Hp. simpl in Hxs, Hxh, Hmain.
    rewrite Hp, Hxs, keeps_map_pool by done. split_and!; try done.
    apply Forall2_fmap_r. eapply Forall2_impl; [exact Hm|]. intros ? ?. by apply pool_matches_keeps.
Qed.

Lemma keeps_keep_pool p : keeps (fun q => if decide (p_pool q = p_pool p) then keep_pool q else q).
Proof. intros q. by case_decide. Qed.

(** Argobots is initialised by Margo. *)
Lemma add_primary_first o ph xh a n : good_start o ph xh ->
  map p_pool (pools a) = map ph (seq 0 n) -> Z.of_nat n < 2 ^ 30 -> Z.of_nat (length (xstreams a)) < 2 ^ 30 ->
  exists a' a1 rest x h, add_primary o true a = (true, a') /\ (length rest <= 1)%nat /\
    a1 = set_pools (pools a ++ rest) a /\ same_pools a1 a' /\ xstreams a' = xstreams a ++ [x] /\
    x_name x = "__primary__"%string /\ x_xstream x = xh (length (xstreams a)) /\
    main a' = <[xh (length (xstreams a)) := h]> (main a).
Proof.
  intros [] Hph Hn Hx. assert (length (pools a) = n) as Hlen.
  { apply (f_equal length) in Hph. by rewrite !length_map, length_seq in Hph. }
  assert (exists rest idx p, (length rest <= 1)%nat /\ (pools a ++ rest) !! Z.to_nat idx = Some p /\ 0 <= idx < 2 ^ 31 /\
    map p_pool (pools a ++ rest) = map ph (seq 0 (n + length rest)) /\
    (if __margo_abt_find_pool_by_name a (Some "__primary__"%string) <? 0 then
       match __margo_abt_pool_init_from_json (i_pools o (length (pools a))) (Some primary_pool_json) a with
       | Some p => (true, Z.of_nat (length (pools a)), set_pools (pools a ++ [p]) a)
       | None => (false, Z.of_nat (length (pools a)), a)
       end
     else (true, __margo_abt_find_pool_by_name a (Some "__primary__"%string), a)) = (true, idx, set_pools (pools a ++ rest) a))
    as (rest & idx & p & Hrest & Hp & Hidx & Hhs & Hfind).
  { destruct (find_pool_by_name_spec a "__primary__") as [[-> _]|(k & p & -> & Hk & _)].
    - rewrite gs_pools0, Hlen. simpl.
      exists [Pool "__primary__" (ph n) "fifo_wait" (Some "mpmc"%string) 0 0 true false], (Z.of_nat n). eexists.
      split_and!; [simpl; lia|by rewrite Nat2Z.id, lookup_app_r, Hlen, Nat.sub_diag by lia|lia..| |done].
      rewrite map_app, seq_app, map_app, Hph. done.
    - replace (Z.of_nat k <? 0) with false by (symmetry; apply Z.ltb_ge; lia).
      apply lookup_lt_Some in Hk as Hlt. exists [], (Z.of_nat k), p. rewrite Nat2Z.id, app_nil_r, Nat.add_0_r.
      split_and!; try done; [simpl; lia..|]. by destruct a. }
  assert (NoDup (map p_pool (pools a ++ rest))) as Hnd.
  { rewrite Hhs. apply NoDup_fmap_2_strong; [|apply NoDup_seq]. auto. }
  unfold add_primary. rewrite Hfind. cbn [negb].
  rewrite set_pools_pools, (alter_by_key keep_pool _ _ p Hnd Hp).
  pose proof (keeps_keep_pool p) as Hkp. set (f := fun q => _) in *.
  set (a2 := set_pools _ _). rewrite gs_xstreams0. fold (oracle_ok (xh (length (xstreams a2)))).
  destruct (valid_xstream_init (Some (primary_xstream_json idx)) a2 (xh (length (xstreams a2))) [p_pool p])
    as (x & a' & -> & Hxn & _ & _ & Hxx & Hs & Hxs & Hmain).
  - right. by eexists.
  - assert (resolve_handle a2 (Some (JInt idx)) = Some (p_pool p)) as Hr.
    { unfold resolve_handle, resolve, json_object_get_int. cbn [json_object_get_int64].
      rewrite Z.min_r, Z.max_r by lia. rewrite u32_id by (unfold is_u32; lia). cbn [pools a2 set_pools].
      apply lookup_lt_Some in Hp as Hlt. rewrite length_map, (proj2 (Z.leb_gt _ _)) by lia.
      rewrite lookup_map, Hp. simpl. by rewrite (proj1 (proj2 (Hkp p))). }
    change (mapM (resolve_handle a2) [Some (JInt idx)] = Some [p_pool p]). cbn [mapM mbind option_bind]. by rewrite Hr.
  - cbn [pools a2 set_pools]. by rewrite keeps_map_pool.
  - cbn [pools a2 set_pools]. apply Forall_map, Forall_forall. intros q Hq. rewrite (proj1 (proj2 (Hkp q))).
    assert (p_pool q ∈ map p_pool (pools a ++ rest)) as Hin by (apply list_elem_of_fmap; eauto).
    rewrite Hhs in Hin. apply list_elem_of_fmap in Hin as (k & -> & _). apply gs_pool_nonnull0.
  - done.
  - do 2 eexists. exists rest, x, [p_pool p]. split; [done|]. split; [done|]. split; [done|]. split_and!.
    + apply (same_pools_trans _ a2); [by exists f|]. destruct Hs as (g & ? & ?). by exists g.
    + simpl. by rewrite Hxs.
    + by apply Hxn.
    + done.
    + done.
Qed.

(** Argobots was initialised before Margo, and its current stream runs one pool. *)
Lemma add_primary_later o ph xh a n h : good_start o ph xh ->
  map p_pool (pools a) = map ph (seq 0 n) -> main_pools a (i_self o) = [h] -> h ≠ 0 -> (forall n, h ≠ ph n) ->
  exists a' a1 rest x, add_primary o false a = (true, a') /\ (length rest <= 1)%nat /\
    a1 = set_pools (pools a ++ rest) a /\ same_pools a1 a' /\ xstreams a' = xstreams a ++ [x] /\
    x_name x = "__primary__"%string /\ main a' = main a.
Proof.
  intros [] Hph Hm Hh Hhn. assert (first_pool (i_main_pools o) a (i_self o) = h) as Hfp by (unfold first_pool; by rewrite gs_main_pools0, Hm).
  unfold add_primary. rewrite Hfp.
  cbn [__margo_abt_pool_init_external mbind option_bind].
  set (p := Pool "__primary__" h "external" None 0 0 false false). set (a1 := set_pools (pools a ++ [p]) a).
  rewrite gs_xstreams0. unfold __margo_abt_xstream_init_external, __margo_abt_sched_init_external. cbn [o_codes o_ext codes_ok c_main_sched c_num_pools fst snd Z.eqb negb].
  change (main_pools a1 (i_self o)) with (main_pools a (i_self o)). rewrite Hm. cbn [existsb].
  assert (NoDup (map p_pool (pools a1))) as Hnd.
  { simpl. rewrite map_app. apply NoDup_app. rewrite Hph. split_and!; [|intros k (i & -> & _)%list_elem_of_fmap|apply NoDup_singleton].
    - apply NoDup_fmap_2_strong; [|apply NoDup_seq]. auto.
    - intros Hk%list_elem_of_singleton. by apply (Hhn i). }
  assert (h ∈ map p_pool (pools a1)) as Hin.
  { simpl. rewrite map_app. apply elem_of_app. right. by apply list_elem_of_singleton. }
  destruct (find_pool_by_handle_spec a1 h Hh) as [[_ ?]|(k & q & Hk & _)]; [done|].
  rewrite Hk, (proj2 (Z.ltb_ge (Z.of_nat k) 0)) by lia. cbn [orb mbind option_bind].
  rewrite (each_pool_ok _ (keeps_incr _)); [|done|done|by repeat constructor].
  do 2 eexists. exists [p]. eexists. split; [done|]. split; [simpl; lia|]. split; [done|]. split_and!; try done.
  eexists. split; [apply (keeps_repeat _ [h] (keeps_incr true))|done].
Qed.

(** ** Validation is enough *)

(** The tables of a started instance: what the configuration asks for, at most
    one more pool, and the primary execution stream. *)
Definition started (jpools jxstreams : list (option json)) (a : margo_abt) : Prop :=
  exists ps rest xs x, pools a = ps ++ rest /\ (length rest <= 1)%nat /\ Forall2 pool_matches jpools ps /\
    xstreams a = xs ++ [x] /\ Forall2 (xstream_matches a) jxstreams xs /\ x_name x = "__primary__"%string.

Lemma started_intro jpools jxstreams a a1 a' rest x :
  Forall2 pool_matches jpools (pools a) -> Forall2 (xstream_matches a) jxstreams (xstreams a) ->
  (length rest <= 1)%nat -> a1 = set_pools (pools a ++ rest) a -> same_pools a1 a' ->
  (forall y, y ∈ xstreams a -> main a' !! x_xstream y = main a !! x_xstream y) ->
  xstreams a' = xstreams a ++ [x] -> x_name x = "__primary__"%string -> started jpools jxstreams a'.
Proof.
  intros Hp Hx Hr -> Hs Hm Hxs Hn. pose proof Hs as (f & Hf & Hpf). cbn [pools set_pools] in Hpf.
  exists (map f (pools a)), (map f rest), (xstreams a), x. rewrite Hpf, map_app, length_map.
  split_and!; try done.
  - apply Forall2_fmap_r. eapply Forall2_impl; [exact Hp|]. intros ? ?. by apply pool_matches_keeps.
  - apply Forall2_same_length_lookup. split; [by eapply Forall2_length|]. intros i j y Hj Hy.
    assert (xstream_matches a j y) as Hmy by (eapply Forall2_lookup_lr; eauto).
    apply (xstream_matches_same (set_pools (pools a ++ rest) a)); [done|apply Hm; by eapply list_elem_of_lookup_2|].
    destruct rest as [|p [|]]; [|by apply xstream_matches_app|simpl in Hr; lia].
    rewrite app_nil_r. by destruct a.
Qed.


Definition demo_config : json :=
  JObject [("pools", Some (JArray [Some (JObject [("name", Some (JString "p")); ("kind", Some (JString "prio_wait"))]); Some (JObject [])]));
           ("xstreams", Some (JArray [Some (JObject [("scheduler", Some (JObject [("pools", Some (JArray [Some (JInt 1); Some (JString "p")]))]))])]))]%string.
Definition demo_start : init_oracle :=
  InitOracle 0 true true (fun n => (0, Z.of_nat n + 1)) (fun n => oracle_ok (Z.of_nat n + 1)) 0 0 (fun _ => codes_ok).


(** ** Writing the configuration *)

(** What the JSON form can express: valid names, kinds and types Margo can
    create, and schedulers with pools. *)
Record exportable (a : margo_abt) : Prop := {
  ex_wf : wf a;
  ex_pools : Forall (fun p => valid_name (p_name p) = true /\
    p_kind p ∈ ["fifo"; "fifo_wait"; "prio_wait"; "earliest_first"]%string /\
    exists s, p_access p = Some s /\ s ∈ ["private"; "spsc"; "mpsc"; "spmc"; "mpmc"]%string) (pools a);
  ex_xstreams : Forall (fun x => valid_name (x_name x) = true /\
    x_sched_type x ∈ ["default"; "basic"; "prio"; "randws"; "basic_wait"]%string /\
    main_pools a (x_xstream x) ≠ []) (xstreams a)
}.

Lemma concat_singletons {A B} (f : A -> B) l : concat (map (fun x => [f x]) l) = map f l.
Proof. induction l as [|x l IH]; simpl; [done|]. by rewrite IH. Qed.

Lemma concat_imap_singletons {A B} (f : nat -> A -> B) l : concat (imap (fun i x => [f i x]) l) = imap f l.
Proof. revert f. induction l as [|x l IH]; intros f; simpl; [done|]. f_equal. apply IH. Qed.

Lemma names_unique_complete l : forall seen,
  (forall a, a ∈ seen ++ l -> exists n, json_object_object_get a "name" = Some (JString n)) ->
  NoDup (names_of (seen ++ l)) -> names_unique seen l = true.
Proof.
  induction l as [|a l IH]; intros seen Hs Hnd; simpl; [done|]. apply andb_true_iff. split.
  - apply negb_true_iff, not_true_iff_false. intros (b & Hb & Hab)%existsb_exists. apply list_elem_of_In in Hb.
    destruct (Hs a) as [n Hn]; [apply elem_of_app; right; constructor|].
    destruct (Hs b) as [n' Hn']; [apply elem_of_app; by left|].
    unfold same_name in Hab. rewrite Hn, Hn' in Hab. apply bool_decide_eq_true in Hab as ->.
    unfold names_of in Hnd. rewrite omap_app in Hnd. apply NoDup_app in Hnd as (_ & Hd & _). apply (Hd n').
    + apply list_elem_of_omap. exists b. by rewrite Hn'.
    + simpl. rewrite Hn. simpl. constructor.
  - apply IH; rewrite <- app_assoc; done.
Qed.

(** *** Pools *)

Lemma pool_json_matches p s : p_access p = Some s -> pool_matches (Some (__margo_abt_pool_to_json p)) p.
Proof. intros Ha. unfold pool_matches, json_name, __margo_abt_pool_to_json. rewrite Ha. split_and!; try reflexivity. by intros n [= ->]. Qed.

Lemma enum_in l s : s ∈ l -> CONFIG_IS_IN_ENUM_STRING (Some (JString s)) l = true.
Proof. intros H. apply enum_string. by exists s. Qed.

Lemma pool_json_valid p : valid_name (p_name p) = true ->
  p_kind p ∈ ["fifo"; "fifo_wait"; "prio_wait"; "earliest_first"]%string ->
  (exists s, p_access p = Some s /\ s ∈ ["private"; "spsc"; "mpsc"; "spmc"; "mpmc"]%string) ->
  __margo_abt_pool_validate_json false (Some (__margo_abt_pool_to_json p)) = true.
Proof.
  intros Hn Hk (s & Ha & Hs). set (j := __margo_abt_pool_to_json p).
  assert (json_object_object_get (Some j) "access" = Some (JString s)) as Ja by (unfold j, __margo_abt_pool_to_json; rewrite Ha; reflexivity).
  assert (json_object_object_get (Some j) "kind" = Some (JString (p_kind p))) as Jk by reflexivity.
  assert (json_object_object_get (Some j) "name" = Some (JString (p_name p))) as Jn by reflexivity.
  unfold __margo_abt_pool_validate_json, ASSERT_CONFIG_HAS_OPTIONAL, CONFIG_NAME_IS_VALID.
  rewrite Ja, Jk, Jn. cbn [json_object_get_string]. rewrite (enum_in _ _ Hs), Hn, andb_false_r.
  rewrite enum_in by (repeat (apply elem_of_cons in Hk as [->|Hk]; [repeat constructor|]); by apply elem_of_nil in Hk).
  repeat (apply elem_of_cons in Hk as [->|Hk]; [reflexivity|]). by apply elem_of_nil in Hk.
Qed.

(** *** Schedulers and execution streams *)

Definition pools_json (a : margo_abt) : list (option json) := map (fun p => Some (__margo_abt_pool_to_json p)) (pools a).

Lemma pool_ref_spec use_names a h : wf a -> h ∈ map p_pool (pools a) ->
  exists r, pool_ref_json use_names false a h = [r] /\ resolve_handle a r = Some h /\
            pool_ref_ok (empty_abt ∅) (pools_json a) r = true.
Proof.
  intros Hwf Hin. destruct Hwf. apply list_elem_of_fmap in Hin as Hin2. destruct Hin2 as (q & Hhq & Hq).
  assert (h ≠ 0) as Hh by (rewrite Forall_forall in wf_nonnull; subst; auto).
  destruct (find_pool_by_handle_spec a h Hh) as [[_ ?]|(k & p & Hk & Hp & <-)]; [done|].
  unfold pool_ref_json. rewrite Hk, Nat2Z.id, Hp, (proj2 (Z.ltb_ge (Z.of_nat k) 0)) by lia. simpl.
  apply lookup_lt_Some in Hp as Hlt. eexists. split; [done|]. destruct use_names.
  - split.
    + unfold resolve_handle, resolve. cbn [json_object_get_string].
      destruct (index_of_spec (fun q => bool_decide (Some (p_name q) = Some (p_name p))) (pools a) 0 ltac:(lia))
        as [[_ Hf]|(i & q' & -> & Hi & Hn%bool_decide_eq_true & _)].
      { rewrite Forall_forall in Hf. specialize (Hf p ltac:(by eapply list_elem_of_lookup_2)). by rewrite bool_decide_eq_true_2 in Hf. }
      assert (i = k) as ->.
      { injection Hn as Hn. eapply (NoDup_lookup _ _ _ (p_name p)); [exact wf_names|..]; rewrite lookup_map; [by rewrite Hi, <- Hn|by rewrite Hp]. }
      rewrite (proj2 (Z.eqb_neq _ _)) by lia. rewrite (proj2 (Z.leb_gt _ _)) by lia.
      replace (Z.to_nat (0 + Z.of_nat k)) with k by lia. by rewrite Hp.
    + cbn [pool_ref_ok]. apply orb_true_iff. right. apply existsb_exists. exists (Some (__margo_abt_pool_to_json p)). split.
      * apply list_elem_of_In, list_elem_of_fmap. exists p. split; [done|]. by eapply list_elem_of_lookup_2.
      * apply bool_decide_eq_true. reflexivity.
  - assert (json_object_get_int (Some (JInt (Z.of_nat k))) = Z.of_nat k) as Hint.
    { unfold json_object_get_int. cbn [json_object_get_int64]. lia. }
    split.
    + unfold resolve_handle, resolve. rewrite Hint, u32_id by (unfold is_u32; lia).
      rewrite (proj2 (Z.leb_gt _ _)), Nat2Z.id, Hp by lia. done.
    + cbn [pool_ref_ok]. rewrite Hint. apply negb_true_iff, orb_false_iff. split; [apply Z.ltb_ge; lia|].
      apply Z.leb_gt. unfold pools_json. rewrite length_map. simpl. lia.
Qed.

Lemma sched_refs_spec use_names type a sched : wf a -> Forall (fun h => h ∈ map p_pool (pools a)) sched ->
  exists rs, json_object_object_get (Some (__margo_abt_sched_to_json codes_ok use_names false type sched a)) "pools" = Some (JArray rs) /\
    length rs = length sched /\ mapM (resolve_handle a) rs = Some sched /\
    forallb (pool_ref_ok (empty_abt ∅) (pools_json a)) rs = true.
Proof.
  intros Hwf Hr.
  exists (concat (map (pool_ref_json use_names false a) sched)). split.
  { unfold __margo_abt_sched_to_json. cbn [codes_ok c_num_pools c_get_pools Z.eqb negb].
    change (Some (JArray (concat (imap (fun _ h => pool_ref_json use_names false a h) sched))) =
            Some (JArray (concat (map (pool_ref_json use_names false a) sched)))).
    do 3 f_equal. apply imap_const. }
  induction Hr as [|h sched Hh Hr IH]; [done|].
  destruct (pool_ref_spec use_names a h Hwf Hh) as (r & Hr1 & Hres & Hok).
  rewrite !map_cons, !concat_cons, Hr1. destruct IH as (Hl & Hm & Hf).
  split_and!; cbn.
  - by rewrite Hl.
  - rewrite Hres. cbn. by rewrite Hm.
  - by rewrite Hok.
Qed.

Lemma xstream_json_spec use_names cpubind affinity a x : exportable a -> x ∈ xstreams a ->
  let j := Some (__margo_abt_xstream_to_json codes_ok cpubind affinity use_names false x a) in
  json_name j = Some (x_name x) /\ xstream_matches a j x /\
  __margo_abt_xstream_validate_json false (empty_abt ∅) (Some (JArray (pools_json a))) j = true.
Proof.
  intros [Hwf _ Hex] Hx j. rewrite Forall_forall in Hex. destruct (Hex x Hx) as (Hn & Ht & Hne).
  assert (Forall (fun h => h ∈ map p_pool (pools a)) (main_pools a (x_xstream x))) as Hreg.
  { destruct Hwf. apply Forall_forall. intros h Hh. rewrite Forall_forall in wf_registered. apply wf_registered.
    apply list_elem_of_bind. by exists x. }
  destruct (sched_refs_spec use_names (x_sched_type x) a _ Hwf Hreg) as (rs & Hrs & Hl & Hm & Hok).
  set (js := __margo_abt_sched_to_json _ _ _ _ _ _) in *.
  assert (json_object_object_get j "scheduler" = Some js) as Js by reflexivity.
  assert (json_object_object_get j "name" = Some (JString (x_name x))) as Jn by reflexivity.
  assert (json_object_object_get (Some js) "type" = Some (JString (x_sched_type x))) as Jt by reflexivity.
  assert (ASSERT_CONFIG_HAS_OPTIONAL j "cpubind" json_type_int = true) as Jc.
  { unfold j, __margo_abt_xstream_to_json. cbn [codes_ok c_main_sched Z.eqb negb].
    destruct (cpubind.1 =? 0), (affinity.1 =? 0); reflexivity. }
  assert (ASSERT_CONFIG_HAS_OPTIONAL j "affinity" json_type_array = true /\
          all_int (json_object_array (json_object_object_get j "affinity")) = true) as [Ja Ji].
  { assert (all_int (map (fun n => Some (JInt n)) affinity.2) = true) as Hi.
    { apply forallb_forall. intros v Hv. apply in_map_iff in Hv as (n & <- & _). done. }
    unfold j, __margo_abt_xstream_to_json. cbn [codes_ok c_main_sched Z.eqb negb].
    destruct (cpubind.1 =? 0), (affinity.1 =? 0); (split; [reflexivity|]); first [exact Hi|reflexivity]. }
  split_and!.
  - unfold json_name. by rewrite Jn.
  - unfold xstream_matches, json_name, sched_refs. rewrite Jn, Js, Hrs. split_and!; try done. by intros n [= ->].
  - unfold __margo_abt_xstream_validate_json. rewrite Jc, Ja, Ji, Js, Jn. unfold ASSERT_CONFIG_HAS_OPTIONAL, CONFIG_NAME_IS_VALID.
    rewrite Jn. cbn [json_object_get_string]. rewrite Hn, Hrs. cbn [json_object_array].
    assert (rs ≠ []) as Hrs0 by (intros ->; by destruct (main_pools a (x_xstream x))).
    unfold __margo_abt_sched_validate_json, ASSERT_CONFIG_HAS_OPTIONAL. rewrite Jt, Hrs. cbn [json_object_array].
    rewrite (enum_in _ _ Ht), Hok, (bool_decide_eq_false_2 _ Hrs0), (bool_decide_eq_true_2 (is_Some (Some js))) by done.
    case_bool_decide; reflexivity.
Qed.

(** *** The whole configuration *)

Lemma exported_xstreams use_names a l : exportable a -> (forall x, x ∈ l -> x ∈ xstreams a) -> forall cb af,
  let js := imap (fun i x => Some (__margo_abt_xstream_to_json codes_ok (cb i) (af i) use_names false x a)) l in
  Forall2 (xstream_matches a) js l /\ names_of js = map x_name l /\
  forallb (__margo_abt_xstream_validate_json false (empty_abt ∅) (Some (JArray (pools_json a)))) js = true.
Proof.
  intros Hex. induction l as [|x l IH]; intros Hl cb af; [by split_and!|].
  destruct (xstream_json_spec use_names (cb 0%nat) (af 0%nat) a x Hex (Hl x ltac:(constructor))) as (Hn & Hm & Hv).
  destruct (IH (fun y Hy => Hl y ltac:(by constructor)) (fun i => cb (S i)) (fun i => af (S i))) as (IH1 & IH2 & IH3).
  cbv zeta. rewrite imap_cons. split_and!.
  - by constructor.
  - unfold names_of in *. cbn [omap list_omap map]. unfold json_name in Hn. rewrite Hn. by f_equal.
  - cbn [forallb]. rewrite Hv. exact IH3.
Qed.

Lemma exported_pools a : exportable a -> Forall2 pool_matches (pools_json a) (pools a) /\
  names_of (pools_json a) = map p_name (pools a) /\ forallb (__margo_abt_pool_validate_json false) (pools_json a) = true.
Proof.
  intros [_ Hp _]. unfold pools_json. induction Hp as [|p l (Hn & Hk & Ha) Hl (IH1 & IH2 & IH3)]; [by split_and!|].
  split_and!.
  - constructor; [|done]. destruct Ha as (s & Ha & _). by eapply pool_json_matches.
  - simpl. simpl in IH2. by rewrite IH2.
  - cbn [map forallb]. rewrite pool_json_valid by done. exact IH3.
Qed.

Lemma length_names_of l : (length (names_of l) <= length l)%nat.
Proof.
  unfold names_of, omap. induction l as [|y l IH]; [done|]. cbn [list_omap].
  destruct (json_object_get_string _); cbn [length]; lia.
Qed.

(** An array in which every element has a name, all different. *)
Lemma unique_exported l : NoDup (names_of l) -> length l = length (names_of l) -> names_unique [] l = true.
Proof.
  intros Hnd Hlen. apply names_unique_complete; [|done]. cbn [app]. intros x Hx. clear Hnd.
  destruct (json_object_get_string (json_object_object_get x "name")) as [n|] eqn:Hn.
  - exists n. by destruct (json_object_object_get x "name") as [[]|]; simplify_eq/=.
  - exfalso. apply list_elem_of_split in Hx as (l1 & l2 & ->). pose proof (length_names_of l1). pose proof (length_names_of l2).
    unfold names_of in *. rewrite omap_app in Hlen. cbn [omap list_omap] in Hlen. rewrite Hn, !length_app in Hlen. simpl in Hlen. lia.
Qed.

Section Written.
Context (cpubind : nat -> Z * Z) (affinity : nat -> Z * list Z) (atol : string -> Z) (lazy use_names : bool)
  (e : gmap string string) (a : margo_abt).

Let j : json := __margo_abt_to_json (fun _ => codes_ok) cpubind affinity atol lazy use_names false e a.
Let js : list (option json) :=
  imap (fun i x => Some (__margo_abt_xstream_to_json codes_ok (cpubind i) (affinity i) use_names false x a)) (xstreams a).

Lemma to_json_fields :
  json_object_object_get (Some j) "pools" = Some (JArray (pools_json a)) /\
  json_object_object_get (Some j) "xstreams" = Some (JArray js) /\
  ASSERT_CONFIG_HAS_OPTIONAL (Some j) "abt_mem_max_num_stacks" json_type_int = true /\
  ASSERT_CONFIG_HAS_OPTIONAL (Some j) "abt_thread_stacksize" json_type_int = true /\
  json_object_object_get (Some j) "profiling_dir" = Some (JString (profiling_dir a)).
Proof.
  split_and!.
  - transitivity (Some (JArray (concat (map (fun p => [Some (__margo_abt_pool_to_json p)]) (pools a))))); [reflexivity|].
    by rewrite concat_singletons.
  - transitivity (Some (JArray (concat (imap (fun i x => [Some (__margo_abt_xstream_to_json codes_ok (cpubind i) (affinity i) use_names false x a)]) (xstreams a))))); [reflexivity|].
    by rewrite concat_imap_singletons.
  - unfold j, __margo_abt_to_json. by destruct (e !! "ABT_MEM_MAX_NUM_STACKS"%string), (e !! "ABT_THREAD_STACKSIZE"%string).
  - unfold j, __margo_abt_to_json. by destruct (e !! "ABT_MEM_MAX_NUM_STACKS"%string), (e !! "ABT_THREAD_STACKSIZE"%string).
  - unfold j, __margo_abt_to_json. by destruct (e !! "ABT_MEM_MAX_NUM_STACKS"%string), (e !! "ABT_THREAD_STACKSIZE"%string).
Qed.

Lemma exported_valid : exportable a -> __margo_abt_validate_json false (Some j) = true.
Proof.
  intros Hex. pose proof (exported_pools a Hex) as (Pm & Pn & Pv).
  pose proof (exported_xstreams use_names a (xstreams a) Hex (fun _ H => H) cpubind affinity) as (Xm & Xn & Xv).
  fold js in Xm, Xn, Xv. destruct to_json_fields as (J1 & J2 & J3 & J4 & J5). destruct Hex as [[] _ _].
  unfold __margo_abt_validate_json, CONFIG_NAMES_MUST_BE_UNIQUE.
  rewrite J3, J4. unfold ASSERT_CONFIG_HAS_OPTIONAL. rewrite J1, J2, J5. cbn [json_object_array].
  rewrite Pv, Xv, !unique_exported; [reflexivity|..]; rewrite ?Pn, ?Xn; try done.
  - unfold js. by rewrite length_imap, length_map.
  - unfold pools_json. by rewrite !length_map.
Qed.
End Written.

(** C22: The JSON that [__margo_abt_to_json] writes for well-formed tables made of
    pools and schedulers that Margo can create, with indices or with names, is
    accepted by the validator, and read back it describes the same pools (name,
    kind, access) and execution streams (name, scheduler, the same pools in the
    same order), in the same order. *)
Theorem config_roundtrip cpubind affinity atol lazy use_names e a : exportable a ->
  let j := Some (__margo_abt_to_json (fun _ => codes_ok) cpubind affinity atol lazy use_names false e a) in
  let jpools := json_object_array (json_object_object_get j "pools") in
  let jxstreams := json_object_array (json_object_object_get j "xstreams") in
  __margo_abt_validate_json false j = true /\
  names_of jpools = map p_name (pools a) /\ Forall2 pool_matches jpools (pools a) /\
  names_of jxstreams = map x_name (xstreams a) /\ Forall2 (xstream_matches a) jxstreams (xstreams a) /\
  json_object_get_string (json_object_object_get j "profiling_dir") = Some (profiling_dir a).
Proof.
  intros Hex j jpools jxstreams. split; [by apply exported_valid|]. subst jpools jxstreams j.
  destruct (to_json_fields cpubind affinity atol lazy use_names e a) as (-> & -> & _ & _ & ->). cbn [json_object_array json_object_get_string].
  destruct (exported_pools a Hex) as (Pm & Pn & _).
  destruct (exported_xstreams use_names a (xstreams a) Hex (fun _ H => H) cpubind affinity) as (Xm & Xn & _). done.
Qed.

Definition demo_e1 : margo_abt := (__margo_abt_add_pool_from_json true true (0, 8) (Some q_json) (empty_abt ∅)).2.
Definition demo_e2 : margo_abt := (__margo_abt_add_xstream_from_json true true (oracle_ok 5) (Some es_json) demo_e1).2.

Lemma demo_exportable : exportable demo_e2.
Proof.
  constructor.
  - apply (reachable_wf true ∅). apply (reach_step _ _ OnXstreams demo_e1 demo_e2).
    + apply (reach_step _ _ (AddJson (Some "q"%string) 8 true) (empty_abt ∅) demo_e1); [apply reach_refl|].
      apply (step_add_pool true true (0, 8) (Some q_json) (empty_abt ∅) true); [vm_compute; reflexivity| |vm_compute; reflexivity].
      intros _. split; [done|]. apply not_elem_of_nil.
    + apply (step_add_xstream true true (oracle_ok 5) 5 (Some es_json) demo_e1 true); [vm_compute; reflexivity| |vm_compute; reflexivity].
      constructor; try done. change (5 ∉ @nil Z). apply not_elem_of_nil.
  - constructor; [|constructor]. split; [vm_compute; reflexivity|]. split; [right; left|]. exists "mpmc"%string. split; [reflexivity|].
    repeat constructor.
  - constructor; [|constructor]. split; [vm_compute; reflexivity|]. split; [repeat constructor|]. vm_compute. discriminate.
Qed.

Lemma config_roundtrip_witness :
  let j := Some (__margo_abt_to_json (fun _ => codes_ok) (fun _ => (0, 3)) (fun _ => (0, [1; 2])) (fun _ => 8) false true false
                   {["ABT_THREAD_STACKSIZE"%string := "8"%string]} demo_e2) in
  __margo_abt_validate_json false j = true /\
  names_of (json_object_array (json_object_object_get j "pools")) = ["q"]%string /\
  mapM (resolve_handle demo_e2) (sched_refs (default None (head (json_object_array (json_object_object_get j "xstreams"))))) = Some [8].
Proof.
  destruct (config_roundtrip (fun _ => (0, 3)) (fun _ => (0, [1; 2])) (fun _ => 8) false true
              {["ABT_THREAD_STACKSIZE"%string := "8"%string]} demo_e2 demo_exportable) as (Hv & Hn & _).
  split; [exact Hv|]. split; [exact Hn|]. vm_compute. reflexivity.
Defined.

(** ** Error paths *)

Definition all_ok (o : xstream_oracle) : Prop :=
  o_codes o = codes_ok /\ o_undo o = codes_ok /\ o_ext o = (0, 0).

(** When an external execution stream is refused because one of its pools is
    not in the table, the error path decrements the counts of the pools before
    it, which were not incremented: a pool that is used once can then be removed
    while it is in use, and the count of an unused pool wraps around to 2^32 - 1,
    so that the pool can never be removed. *)
Theorem refused_external_xstream_decrements realloc o name h a k p q rest cap :
  all_ok o -> 0 < h -> main_pools a h = p_pool p :: q :: rest ->
  pools a !! k = Some p -> p_pool p ≠ 0 -> NoDup (map p_pool (pools a)) -> q ≠ 0 -> q ∉ map p_pool (pools a) ->
  name ∉ map x_name (xstreams a) -> h ∉ map x_xstream (xstreams a) ->
  grow_cap (Z.of_nat (length (xstreams a))) (xstreams_cap a) realloc = Some cap ->
  exists a', __margo_abt_add_external_xstream realloc o (Some name) h a = Some (false, a') /\
    pools a' = alter decr_xstreams k (pools a) /\
    (p_refcount p = 0 -> p_num_xstreams p = 1 -> (__margo_abt_remove_pool (0, 0) (Z.of_nat k) a').1 = HG_SUCCESS) /\
    (p_refcount p = 0 -> p_num_xstreams p = 0 -> forall total, (__margo_abt_remove_pool total (Z.of_nat k) a').1 = HG_PERMISSION).
Proof.
  intros (Hc & Hu & He) Hh Hm Hk Hp0 Hnd Hq Hqn Hn Hhn Hg.
  unfold __margo_abt_add_external_xstream.
  destruct (find_xstream_by_name_spec a name) as [[-> _]|(i & x & _ & Hx & Hxn)].
  2:{ destruct Hn. apply list_elem_of_fmap. exists x. split; [done|]. by eapply list_elem_of_lookup_2. }
  assert (__margo_abt_find_xstream_by_handle a h = -1) as ->.
  { unfold __margo_abt_find_xstream_by_handle. rewrite (proj2 (Z.eqb_neq h 0)) by lia.
    destruct (index_of_spec (fun x => x_xstream x =? h) (xstreams a) 0 ltac:(lia)) as [[-> _]|(i & x & _ & Hx & Hxh%Z.eqb_eq & _)]; [done|].
    destruct Hhn. apply list_elem_of_fmap. exists x. split; [done|]. by eapply list_elem_of_lookup_2. }
  rewrite Hg. cbn [Z.leb Z.compare]. set (a1 := with_caps _ _ _).
  assert (__margo_abt_find_pool_by_handle a1 (p_pool p) = Z.of_nat k) as Hfp.
  { destruct (find_pool_by_handle_spec a1 (p_pool p) Hp0) as [[_ Hin]|(i & p' & -> & Hi & Heq)].
    - destruct Hin. apply list_elem_of_fmap. exists p. split; [done|]. by eapply list_elem_of_lookup_2.
    - change (pools a1) with (pools a) in Hi. f_equal.
      eapply (NoDup_lookup _ _ _ (p_pool p)); [exact Hnd|..]; rewrite lookup_map; [by rewrite Hi, <- Heq|by rewrite Hk]. }
  assert (forall a2, map p_pool (pools a2) = map p_pool (pools a) -> __margo_abt_find_pool_by_handle a2 q = -1) as Hfq.
  { intros a2 Ha2. destruct (find_pool_by_handle_spec a2 q Hq) as [[-> _]|(i & p' & _ & Hi & Heq)]; [done|].
    destruct Hqn. rewrite <- Ha2. apply list_elem_of_fmap. exists p'. split; [done|]. by eapply list_elem_of_lookup_2. }
  unfold __margo_abt_xstream_init_external. rewrite Hc, He. cbn [codes_ok c_main_sched Z.eqb negb fst snd].
  change (main_pools a1 h) with (main_pools a h). rewrite Hm.
  assert (__margo_abt_sched_init_external 0 0 (p_pool p :: q :: rest) a1 = None) as ->.
  { unfold __margo_abt_sched_init_external. cbn [Z.eqb negb existsb]. rewrite Hfp, (Hfq a1) by done.
    by rewrite (proj2 (Z.ltb_ge (Z.of_nat k) 0)) by lia. }
  cbn [mbind option_bind]. eexists. split; [done|].
  unfold __margo_abt_xstream_destroy. rewrite Hu. cbn [x_xstream x_margo_free_flag codes_ok c_main_sched c_num_pools c_get_pools Z.eqb negb andb].
  rewrite (proj2 (Z.eqb_neq h 0)) by lia. change (main_pools a1 h) with (main_pools a h). rewrite Hm.
  cbn [each_pool Z.eqb negb]. rewrite Hfp, (proj2 (Z.ltb_ge (Z.of_nat k) 0)) by lia. rewrite Nat2Z.id.
  rewrite Hfq.
  2:{ cbn [pools set_pools]. rewrite (alter_by_key _ _ _ _ Hnd Hk). apply (keeps_map_pool (fun _ => _)). intros y. by case_decide. }
  cbn [Z.ltb Z.compare snd pools set_pools]. split; [done|].
  unfold __margo_abt_remove_pool. cbn [pools set_pools]. change (pools a1) with (pools a). rewrite Nat2Z.id, list_lookup_alter_eq, Hk.
  cbn [fmap option_fmap option_map decr_xstreams p_refcount p_num_xstreams]. split; intros -> -> *; reflexivity.
Qed.

(** The failure of [ABT_xstream_create] is not noticed: its code is
    overwritten by that of the next call, so an entry without execution stream
    is added, and counted in the pools of its scheduler although no later removal
    of the entry decrements them. *)
Theorem failed_xstream_create_registered o h j a sched : o_create o = (h, h) -> h ≠ 0 -> o_sched o = 0 -> o_codes o = codes_ok ->
  (exists n, json_object_object_get j "name" = Some (JString n) /\ n ≠ "__primary__"%string) ->
  mapM (resolve_handle a) (sched_refs j) = Some sched ->
  NoDup (map p_pool (pools a)) -> Forall (fun p => p_pool p ≠ 0) (pools a) ->
  exists x a', __margo_abt_xstream_init_from_json o j a = (Some x, a') /\ x_xstream x = 0 /\
    pools a' = map (repeat_on (incr_xstreams false) sched) (pools a) /\
    forall c, pools (__margo_abt_xstream_destroy c x a') = pools a'.
Proof.
  intros Hc Hh Hs Ho (n & Hn & Hnp) Hm Hnd Hnn.
  assert (Forall (fun h => h ≠ 0 /\ h ∈ map p_pool (pools a)) sched) as Hreg.
  { apply resolve_handles_registered in Hm. eapply Forall_impl; [exact Hm|]. intros k Hk. split; [|done].
    apply list_elem_of_fmap in Hk as (p & -> & Hp). rewrite Forall_forall in Hnn. auto. }
  unfold __margo_abt_xstream_init_from_json. rewrite Hn. cbn [json_object_get_string].
  unfold __margo_abt_sched_init_from_json. unfold sched_refs in Hm. rewrite Hm, Hs, Hc, Ho.
  cbn [mbind option_bind Z.eqb negb]. rewrite (bool_decide_eq_false_2 _ Hnp), (proj2 (Z.eqb_neq h 0)) by done.
  cbn [negb codes_ok c_num_pools c_get_pools Z.eqb].
  rewrite (each_pool_ok _ (keeps_incr false)) by done. by do 2 eexists.
Qed.

(** Generated names are only compared with the entries that exist already:
    a configuration whose second pool has the name generated for the first one
    is accepted, and gives two pools of that name. *)
Theorem generated_name_duplicated :
  let j := Some (JObject [("pools", Some (JArray [Some (JObject []); Some (JObject [("name", Some (JString "__pool_0__"))])]))])%string in
  __margo_abt_validate_json false j = true /\
  exists g a, __margo_abt_init_from_json demo_start j (Globals false false 0 ∅) (empty_abt ∅) = (true, g, a) /\
    map p_name (pools a) = ["__pool_0__"; "__pool_0__"; "__primary__"]%string.
Proof. split; [vm_compute; reflexivity|]. do 2 eexists. split; vm_compute; reflexivity. Qed.

(** When [ABT_init] fails, the error path decrements the number of instances,
    which has not been incremented. *)
Theorem failed_abt_init_decrements o j g m : abt_initialized g = false -> i_abt_init o ≠ 0 ->
  exists g' a, __margo_abt_init_from_json o j g (empty_abt m) = (false, g', a) /\
    g_margo_num_instances g' = g_margo_num_instances g - 1.
Proof.
  intros Hg Ho. unfold __margo_abt_init_from_json. rewrite Hg, (proj2 (Z.eqb_neq _ _) Ho). cbn [negb andb].
  unfold __margo_abt_destroy. destruct (_ && _); do 2 eexists; (split; [reflexivity|done]).
Qed.

(** An external stream that runs pool q, used by stream es, and an unknown one:
    after it has been refused, pool q can be removed under stream es. *)
Lemma refused_external_xstream_decrements_witness :
  exists a', __margo_abt_add_external_xstream true (oracle_ok 0) (Some "ext"%string) 9 (set_main (<[9 := [8; 99]]> (main demo3)) demo3) = Some (false, a') /\
    main_pools a' 5 = [8] /\ (__margo_abt_remove_pool (0, 0) 1 a').1 = HG_SUCCESS.
Proof.
  assert (Hin : forall l k : Z, l ≠ k -> forall m : Z, m ≠ k -> k ∉ [l; m]).
  { intros l k H1 m H2 [->|[->|H]%elem_of_cons]%elem_of_cons; [by apply H1|by apply H2|by apply elem_of_nil in H]. }
  destruct (refused_external_xstream_decrements true (oracle_ok 0) "ext" 9 (set_main (<[9 := [8; 99]]> (main demo3)) demo3) 1
              (Pool "q" 8 "fifo_wait" (Some "mpmc"%string) 0 1 true false) 99 [] 2) as (a' & Ha & Hp & Hr & _).
  - split; [reflexivity|]. split; reflexivity.
  - lia.
  - vm_compute. reflexivity.
  - vm_compute. reflexivity.
  - discriminate.
  - change (NoDup [7; 8]). apply NoDup_cons. split; [by intros H%list_elem_of_singleton|apply NoDup_singleton].
  - discriminate.
  - change (99 ∉ [7; 8]). by apply Hin.
  - change ("ext"%string ∉ ["es"%string]). by intros H%list_elem_of_singleton.
  - change (9 ∉ [5]). by intros H%list_elem_of_singleton.
  - vm_compute. reflexivity.
  - exists a'. split; [exact Ha|]. split; [|by apply Hr]. vm_compute in Ha. injection Ha as <-. vm_compute. reflexivity.
Defined.

Lemma failed_xstream_create_registered_witness :
  exists x a', __margo_abt_xstream_init_from_json (Oracle 0 (5, 5) (0, 5) 0 codes_ok (0, 0) codes_ok) (Some es_json) demo2 = (Some x, a') /\
    x_xstream x = 0 /\ map p_num_xstreams (pools a') = [0; 1].
Proof.
  destruct (failed_xstream_create_registered (Oracle 0 (5, 5) (0, 5) 0 codes_ok (0, 0) codes_ok) 5 (Some es_json) demo2 [8])
    as (x & a' & Hi & Hx & Hp & _).
  - reflexivity.
  - discriminate.
  - reflexivity.
  - reflexivity.
  - exists "es"%string. split; [reflexivity|discriminate].
  - vm_compute. reflexivity.
  - change (NoDup [7; 8]). apply NoDup_cons. split; [by intros H%list_elem_of_singleton|apply NoDup_singleton].
  - repeat constructor; discriminate.
  - exists x, a'. split; [exact Hi|]. split; [exact Hx|]. rewrite Hp. vm_compute. reflexivity.
Defined.
