(* ===== verification/Logging.v ===== *)
(** * Logging (src/margo-logging.c, include/margo-logging.h)

    The level and the logger of the process, which are used without an instance, and
    those of an instance.  The level of the process is decided once, by a call or at
    its first use by the environment.  What goes to the standard error by other
    means than a logger, and the calls of loggers, are events. *)

From stdpp Require Import strings.
From S2P Require Import Prelude.

#[local] Open Scope Z_scope.

(** ** Levels *)

Definition MARGO_LOG_EXTERNAL : Z := 0.
Definition MARGO_LOG_TRACE : Z := 1.
Definition MARGO_LOG_DEBUG : Z := 2.
Definition MARGO_LOG_INFO : Z := 3.
Definition MARGO_LOG_WARNING : Z := 4.
Definition MARGO_LOG_ERROR : Z := 5.
Definition MARGO_LOG_CRITICAL : Z := 6.

Inductive event :=
  | UnknownLevel (level : string)
  | UnknownLevelInEnv (level : string)
  | LogCall (callback uargs : Z) (message : string).

(** -1 for NULL and what is unknown. *)
Definition log_level_from_string (level : option string) : Z * list event :=
  match level with
  | None => (-1, [])
  | Some l =>
      if bool_decide (l = "trace"%string) then (MARGO_LOG_TRACE, [])
      else if bool_decide (l = "debug"%string) then (MARGO_LOG_DEBUG, [])
      else if bool_decide (l = "info"%string) then (MARGO_LOG_INFO, [])
      else if bool_decide (l = "warning"%string) then (MARGO_LOG_WARNING, [])
      else if bool_decide (l = "error"%string) then (MARGO_LOG_ERROR, [])
      else if bool_decide (l = "critical"%string) then (MARGO_LOG_CRITICAL, [])
      else (-1, [UnknownLevel l])
  end.

Definition log_level_to_string (level : Z) : string :=
  match level with
  | 1 => "trace" | 2 => "debug" | 3 => "info" | 4 => "warning" | 5 => "error" | 6 => "critical" | _ => ""
  end.

(** ** Loggers *)

(** [struct margo_logger]; callbacks and arguments are numbers, [None] is NULL. *)
Record margo_logger := Logger {
  uargs : Z;
  trace : option Z;
  debug : option Z;
  info : option Z;
  warning : option Z;
  error : option Z;
  critical : option Z
}.

(** The callbacks that print to the standard error, by level. *)
Definition default_logger : margo_logger := Logger 0 (Some 1) (Some 2) (Some 3) (Some 4) (Some 5) (Some 6).

(** The member [logger.__level__] of the macro. *)
Definition member (level : Z) (l : margo_logger) : option Z :=
  match level with
  | 1 => trace l | 2 => debug l | 3 => info l | 4 => warning l | 5 => error l | 6 => critical l | _ => None
  end.

(** The variables of the process, and the members of an instance. *)
Record globals := Globals { global_log_level_env : option string; global_log_level : Z; global_logger : margo_logger }.
Record instance := Instance { log_level : Z; logger : margo_logger }.

Definition globals_start : globals := Globals None (-1) default_logger.

(** [env] is [getenv("MARGO_LOG_LEVEL")]. *)
Definition set_global_log_level_from_env (env : option string) (g : globals) : globals * list event :=
  match global_log_level_env g with
  | Some _ => (g, [])
  | None =>
      let '(level, l) :=
        if global_log_level g =? -1 then
          let '(level, l) := log_level_from_string env in
          if level =? -1 then (MARGO_LOG_WARNING, l ++ match env with Some e => [UnknownLevelInEnv e] | None => [] end)
          else (level, l)
        else (global_log_level g, []) in
      (Globals (Some (log_level_to_string level)) level (global_logger g), l)
  end.

(** DEFINE_LOG_FN: [margo_trace] to [margo_critical] are those of the six levels.
    [message] is what [vsnprintf] formats, [None] when it fails. *)
Definition log_fn (function_level : Z) (env : option string) (mid : option instance) (message : option string) (g : globals) : globals * list event :=
  let '(g, l) := set_global_log_level_from_env env g in
  let logger_level := match mid with Some m => log_level m | None => global_log_level g end in
  if logger_level >? function_level then (g, l) else
  match message with
  | None => (g, l)
  | Some buf =>
      let used := match mid with Some m => logger m | None => global_logger g end in
      (g, l ++ match member function_level used with Some callback => [LogCall callback (uargs used) buf] | None => [] end)
  end.

Definition margo_set_logger (env : option string) (l : option margo_logger) (g : globals) (mid : instance) : globals * instance * list event :=
  let '(g, ev) := set_global_log_level_from_env env g in
  (g, Instance (global_log_level g) (default default_logger l), ev).

Definition margo_set_log_level (level : Z) (mid : instance) : Z * instance :=
  if (level <? 0) || (level >? MARGO_LOG_CRITICAL) then (-1, mid) else (0, Instance level (logger mid)).

Definition margo_set_global_logger (l : option margo_logger) (g : globals) : globals :=
  Globals (global_log_level_env g) (global_log_level g) (default default_logger l).

Definition margo_set_global_log_level (level : Z) (g : globals) : Z * globals :=
  if (level <? 0) || (level >? MARGO_LOG_CRITICAL) then (-1, g)
  else (0, Globals (Some (log_level_to_string level)) level (global_logger g)).

(** ** Specification *)

Definition level_names : list (string * Z) :=
  [("trace", MARGO_LOG_TRACE); ("debug", MARGO_LOG_DEBUG); ("info", MARGO_LOG_INFO); ("warning", MARGO_LOG_WARNING);
   ("error", MARGO_LOG_ERROR); ("critical", MARGO_LOG_CRITICAL)]%string.
Definition level_named (name : string) : option Z :=
  foldr (fun p r => if bool_decide (name = p.1) then Some p.2 else r) None level_names.

(** The level of the process, decided or not: the one of the environment, if it is
    known. *)
Definition decided (env : option string) (s : option Z) : Z :=
  match s with Some l => l | None => default MARGO_LOG_WARNING (env ≫= level_named) end.

(** Calls, with the instances by number. *)
Inductive op :=
  | Log (function_level : Z) (env : option string) (mid : option nat) (message : option string)
  | SetLogger (env : option string) (l : option margo_logger) (mid : nat)
  | SetLevel (level : Z) (mid : nat)
  | SetGlobalLogger (l : option margo_logger)
  | SetGlobalLevel (level : Z).

Record process := Process { vars : globals; instances : list instance }.

Definition step (o : op) (p : process) : process * list event :=
  let g := vars p in
  match o with
  | Log function_level env mid message =>
      let '(g, l) := log_fn function_level env (mid ≫= fun i => instances p !! i) message g in (Process g (instances p), l)
  | SetLogger env lg i =>
      match instances p !! i with
      | Some m => let '(g, m, l) := margo_set_logger env lg g m in (Process g (<[i := m]> (instances p)), l)
      | None => (p, [])
      end
  | SetLevel level i => (Process g (alter (fun m => (margo_set_log_level level m).2) i (instances p)), [])
  | SetGlobalLogger lg => (Process (margo_set_global_logger lg g) (instances p), [])
  | SetGlobalLevel level => (Process (margo_set_global_log_level level g).2 (instances p), [])
  end.

(** The level of the process after a call. *)
Definition level_after (n : nat) (o : op) (s : option Z) : option Z :=
  match o with
  | Log _ env _ _ => Some (decided env s)
  | SetLogger env _ i => if bool_decide (i < n)%nat then Some (decided env s) else s
  | SetGlobalLevel level => if (0 <=? level) && (level <=? MARGO_LOG_CRITICAL) then Some level else s
  | _ => s
  end.

(** The variables agree with the level. *)
Definition agrees (g : globals) (s : option Z) : Prop :=
  match s with
  | None => global_log_level_env g = None /\ global_log_level g = -1
  | Some level => is_Some (global_log_level_env g) /\ global_log_level g = level /\ 0 <= level <= MARGO_LOG_CRITICAL
  end.

Fixpoint run (ops : list op) (p : process) : process :=
  match ops with [] => p | o :: ops => run ops (step o p).1 end.
Fixpoint run_level (n : nat) (ops : list op) (s : option Z) : option Z :=
  match ops with [] => s | o :: ops => run_level n ops (level_after n o s) end.

(** ** The level is decided once *)

Lemma from_string_named name :
  log_level_from_string (Some name) = match level_named name with Some n => (n, []) | None => (-1, [UnknownLevel name]) end.
Proof. unfold level_named, log_level_from_string. cbn [foldr level_names fst snd]. by repeat case_bool_decide. Qed.

Lemma level_named_range name n : level_named name = Some n -> 1 <= n <= MARGO_LOG_CRITICAL.
Proof. unfold level_named. cbn [foldr level_names fst snd]. intros H. by repeat case_bool_decide; simplify_eq. Qed.

Lemma decided_range env s g : agrees g s -> 0 <= decided env s <= MARGO_LOG_CRITICAL.
Proof.
  destruct s as [level|]; [by intros (_ & _ & ?)|]. intros _. cbn [decided]. destruct (env ≫= level_named) as [n|] eqn:He; [|done].
  apply bind_Some in He as (name & _ & Hn%level_named_range). cbn. lia.
Qed.

Lemma set_from_env_agrees env g s : agrees g s ->
  let '(g', l) := set_global_log_level_from_env env g in
  agrees g' (Some (decided env s)) /\ global_logger g' = global_logger g /\
  Forall (fun e => match e with LogCall _ _ _ => False | _ => True end) l /\ (is_Some s -> l = []).
Proof.
  intros Hg. pose proof (decided_range env s g Hg) as Hr. unfold set_global_log_level_from_env. destruct s as [level|].
  - destruct Hg as ([e He] & Hl & Hb). rewrite He. split; [split; [by eexists|done]|]. split; [done|]. by split; [constructor|].
  - destruct Hg as [-> ->]. change (-1 =? -1) with true. cbn [decided] in Hr |- *. destruct env as [name|]; cbn [mbind option_bind] in Hr |- *.
    + rewrite from_string_named. destruct (level_named name) as [n|] eqn:Hn; cbn [default] in Hr |- *.
      * apply level_named_range in Hn. rewrite (proj2 (Z.eqb_neq n (-1))) by lia. split; [split; [by eexists|done]|]. split; [done|]. split; [constructor|by intros []].
      * change (-1 =? -1) with true. split; [split; [by eexists|done]|]. split; [done|]. split; [by repeat constructor|by intros []].
    + split; [split; [by eexists|done]|]. split; [done|]. split; [constructor|by intros []].
Qed.

Lemma step_agrees o p s : agrees (vars p) s ->
  agrees (vars (step o p).1) (level_after (length (instances p)) o s) /\ length (instances (step o p).1) = length (instances p).
Proof.
  intros Hg. destruct o as [lvl env mid message|env lg i|level i|lg|level]; cbn [step level_after].
  - unfold log_fn. pose proof (set_from_env_agrees env _ _ Hg) as Hs. destruct (set_global_log_level_from_env env (vars p)) as [g l].
    destruct (_ >? lvl); [by destruct Hs|]. by destruct message; destruct Hs.
  - destruct (instances p !! i) as [m|] eqn:Hi.
    + rewrite bool_decide_true by (by eapply lookup_lt_Some). unfold margo_set_logger. pose proof (set_from_env_agrees env _ _ Hg) as Hs.
      destruct (set_global_log_level_from_env env (vars p)) as [g l]. cbn [fst vars instances]. rewrite length_insert. by destruct Hs.
    + rewrite bool_decide_false; [done|]. by apply Nat.nlt_ge, lookup_ge_None.
  - cbn [fst vars instances]. by rewrite length_alter.
  - cbn [fst vars instances]. split; [|done]. by destruct s.
  - cbn [fst vars instances]. split; [|done]. unfold margo_set_global_log_level.
    destruct (Z.ltb_spec level 0), (Z.leb_spec 0 level); try lia; cbn [orb andb snd]; [done|].
    rewrite Z.gtb_ltb. destruct (Z.ltb_spec MARGO_LOG_CRITICAL level), (Z.leb_spec level MARGO_LOG_CRITICAL); try lia; [done|].
    split; [by eexists|done].
Qed.

Lemma run_agrees ops : forall p s, agrees (vars p) s -> agrees (vars (run ops p)) (run_level (length (instances p)) ops s).
Proof.
  induction ops as [|o ops IH]; intros p s Hg; [done|]. cbn [run run_level]. pose proof (step_agrees o p s Hg) as [Ho Hl].
  rewrite <- Hl. apply IH. by rewrite Hl.
Qed.

Definition is_call (e : event) : bool := match e with LogCall _ _ _ => true | _ => false end.

(** After any calls, a message goes to a logger exactly when its level is not
    below the one in effect: that of the instance, and without an instance the last
    level set for the process, or else the one found in the environment at the
    first use, a warning if it is absent or unknown; it goes once, to the callback of
    its level, unless that is NULL.  The environment is read, and complained about,
    only as long as the level is not decided. *)
Theorem messages_filtered ops instances lvl env mid message :
  let p := run ops (Process globals_start instances) in
  let s := run_level (length instances) ops None in
  let m := mid ≫= fun i => Logging.instances p !! i in
  let level := match m with Some m => log_level m | None => decided env s end in
  let used := match m with Some m => logger m | None => global_logger (vars p) end in
  let events := (step (Log lvl env mid message) p).2 in
  List.filter is_call events =
    (if level <=? lvl then
       match message, member lvl used with Some buf, Some callback => [LogCall callback (uargs used) buf] | _, _ => [] end
     else []) /\
  (is_Some s -> Forall (fun e => is_call e = true) events) /\
  (forall env', decided env' (level_after (length instances) (Log lvl env mid message) s) = decided env s).
Proof.
  intros p s m level used events. assert (agrees (vars p) s) as Hg by (by apply (run_agrees ops (Process globals_start instances) None)).
  assert (forall a l : list event, Forall (fun e => match e with LogCall _ _ _ => False | _ => True end) l -> List.filter is_call (l ++ a) = List.filter is_call a) as Hf.
  { intros a l. induction 1 as [|e l He _ IH]; [done|]. by destruct e. }
  subst events. cbn [step]. unfold log_fn. fold m. pose proof (set_from_env_agrees env _ _ Hg) as Hs.
  destruct (set_global_log_level_from_env env (vars p)) as [g l]. destruct Hs as ((_ & Hl & _) & Hlog & Hw & Hnone).
  rewrite Hl. fold level. rewrite Hlog. fold used. rewrite Z.gtb_ltb.
  split; [|split; [|done]].
  - pose proof (Hf [] l Hw) as Hf0. rewrite app_nil_r in Hf0.
    destruct (Z.ltb_spec lvl level), (Z.leb_spec level lvl); try lia; [done|]. destruct message as [buf|]; [|done].
    cbn [snd]. rewrite Hf by done. by destruct (member lvl used).
  - intros Hsome. rewrite (Hnone Hsome). destruct (lvl <? level); [constructor|]. destruct message as [buf|]; [|constructor].
    cbn [snd app]. destruct (member lvl used); by repeat constructor.
Qed.

(** ** Examples *)

(** The environment asks for "info", a trace is dropped; then the process is set to
    errors, and an instance of its own level keeps it. *)
Definition log_demo : list op :=
  [Log MARGO_LOG_TRACE (Some "info"%string) None (Some "t"%string); SetLevel MARGO_LOG_DEBUG 0; SetGlobalLevel MARGO_LOG_ERROR].

Example log_demo_levels : run_level 1 (take 1 log_demo) None = Some MARGO_LOG_INFO /\ run_level 1 log_demo None = Some MARGO_LOG_ERROR.
Proof. by split. Qed.

Example log_demo_messages :
  let p := run log_demo (Process globals_start [Instance MARGO_LOG_WARNING default_logger]) in
  (step (Log MARGO_LOG_WARNING (Some "trace"%string) None (Some "w"%string)) p).2 = [] /\
  (step (Log MARGO_LOG_DEBUG None (Some 0%nat) (Some "d"%string)) p).2 = [LogCall 2 0 "d"].
Proof. by split. Qed.

Lemma messages_filtered_witness :
  let p := run log_demo (Process globals_start [Instance MARGO_LOG_WARNING default_logger]) in
  List.filter is_call (step (Log MARGO_LOG_DEBUG None (Some 0%nat) (Some "d"%string)) p).2 = [LogCall 2 0 "d"] /\
  Forall (fun e => is_call e = true) (step (Log MARGO_LOG_DEBUG None (Some 0%nat) (Some "d"%string)) p).2.
Proof.
  destruct (messages_filtered log_demo [Instance MARGO_LOG_WARNING default_logger] MARGO_LOG_DEBUG None (Some 0%nat) (Some "d"%string)) as (H1 & H2 & _).
  split; [exact H1|apply H2; by eexists].
Defined.
