(* ===== verification/Environ.v ===== *)
(** * The environment of Argobots (src/margo-init.c, src/margo-util.c, src/margo-abt-config.c)

    Argobots takes the number and the size of its stacks from two variables.
    [margo_set_environment] sets them from a configuration before anybody
    initialises Argobots, [__margo_abt_init_from_json] when Margo does it and
    nobody has; the validation and the initialisation warn when a configuration
    asks for something else than what is in effect, and the configuration that is
    written reads the variables back. *)

From stdpp Require Import strings pretty.
From Stdlib Require Import Ascii.
From S2P Require Import Prelude Json AbtConfig AbtTables AbtStart.

#[local] Open Scope Z_scope.

(** ** The C library's [atol]

    In base 10, for numbers in the range of [long]. *)

Definition digit_value (c : ascii) : option Z :=
  let n := Z.of_N (N_of_ascii c) - 48 in if (0 <=? n) && (n <=? 9) then Some n else None.

Fixpoint digits (acc : Z) (s : string) : Z :=
  match s with
  | EmptyString => acc
  | String c s => match digit_value c with Some d => digits (acc * 10 + d) s | None => acc end
  end.

(** [isspace] of the C locale. *)
Definition is_space (c : ascii) : bool :=
  let n := Z.of_N (N_of_ascii c) in (n =? 32) || ((9 <=? n) && (n <=? 13)).

Fixpoint skip_spaces (s : string) : string :=
  match s with String c s' => if is_space c then skip_spaces s' else s | EmptyString => s end.

Definition atol (s : string) : Z :=
  match skip_spaces s with
  | String "-" s => - digits 0 s
  | String "+" s => digits 0 s
  | s => digits 0 s
  end.

(** ** Setting the variables *)

Notation environment := (gmap string string).

(** [sprintf] with [%d] of an [unsigned]; the code is -1 once Argobots is
    initialised. *)
Definition margo_set_abt_mem_max_num_stacks (initialized : bool) (max_num_stacks : Z) (e : environment) : Z * environment :=
  if initialized then (-1, e) else (0, <["ABT_MEM_MAX_NUM_STACKS"%string := pretty (i32 max_num_stacks)]> e).
Definition margo_set_abt_thread_stacksize (initialized : bool) (stacksize : Z) (e : environment) : Z * environment :=
  if initialized then (-1, e) else (0, <["ABT_THREAD_STACKSIZE"%string := pretty (i32 stacksize)]> e).

(** What a configuration leads to warnings about: the variable is already set to
    something else, or Argobots was initialised without it. *)
Inductive warning := EnvDefined (key : string) | AlreadyInitialized (key : string) | RuntimeStackSize (asked running : Z).

Section Environment.

(** [json_object_get_int64], which converts what is not a number: json-c's. *)
Context (get_int64 : json -> Z).

(** The configuration need not have been validated. *)
Definition set_argobots_environment_variables (initialized : bool) (config : option json) (e : environment) : environment :=
  let argobots := json_object_object_get config "argobots" in
  let abt_mem_max_num_stacks :=
    match json_object_object_get argobots "abt_mem_max_num_stacks" with
    | Some param => i32 (get_int64 param)
    | None => MARGO_DEFAULT_ABT_MEM_MAX_NUM_STACKS
    end in
  let abt_thread_stacksize :=
    match json_object_object_get argobots "abt_thread_stacksize" with
    | Some param => i32 (get_int64 param)
    | None => MARGO_DEFAULT_ABT_THREAD_STACKSIZE
    end in
  let '(_, e) := margo_set_abt_mem_max_num_stacks initialized (u32 abt_mem_max_num_stacks) e in
  (margo_set_abt_thread_stacksize initialized (u32 abt_thread_stacksize) e).2.

(** The argument is [None] without a string, [Some None] when it cannot be parsed. *)
Definition margo_set_environment (initialized : bool) (optional_json_config : option (option json)) (e : environment) : Z * environment :=
  match optional_json_config with
  | Some None => (-1, e)
  | Some (Some config) => (0, set_argobots_environment_variables initialized (Some config) e)
  | None => (0, set_argobots_environment_variables initialized None e)
  end.

(** ** Warnings *)

Definition check_abt_env_variables (initialized : bool) (a : option json) (e : environment) : list warning :=
  match json_object_object_get a "abt_mem_max_num_stacks" with
  | Some jabt_mem_max_num_stacks =>
      match e !! "ABT_MEM_MAX_NUM_STACKS"%string with
      | Some s => if atol s =? get_int64 jabt_mem_max_num_stacks then [] else [EnvDefined "abt_mem_max_num_stacks"]
      | None => if initialized then [AlreadyInitialized "abt_mem_max_num_stacks"] else []
      end
  | None => []
  end ++
  let abt_thread_stacksize :=
    match json_object_object_get a "abt_thread_stacksize" with
    | Some j => get_int64 j
    | None => MARGO_DEFAULT_ABT_THREAD_STACKSIZE
    end in
  match e !! "ABT_THREAD_STACKSIZE"%string with
  | Some s => if atol s =? abt_thread_stacksize then [] else [EnvDefined "abt_thread_stacksize"]
  | None => if initialized then [AlreadyInitialized "abt_thread_stacksize"] else []
  end.

(** [running] is what [ABT_info_query_config] answers, a [size_t]. *)
Definition confirm_argobots_configuration (running : Z) (config : option json) : list warning :=
  match json_object_object_get (json_object_object_get config "argobots") "abt_thread_stacksize" with
  | Some jabt_thread_stacksize =>
      let abt_thread_stacksize := i32 (get_int64 jabt_thread_stacksize) in
      if i32 running =? abt_thread_stacksize then [] else [RuntimeStackSize abt_thread_stacksize running]
  | None => []
  end.
End Environment.

(** ** Printing and reading a number *)

Lemma digit_value_char n : (n < 10)%N -> digit_value (pretty_N_char n) = Some (Z.of_N n).
Proof.
  intros Hn. assert (n ∈ [0; 1; 2; 3; 4; 5; 6; 7; 8; 9]%N) as Hin by (rewrite !elem_of_cons; lia).
  clear Hn. revert n Hin. apply Forall_forall. by repeat constructor.
Qed.

Lemma digits_pretty x : forall s, digits 0 (pretty_N_go x s) = digits (Z.of_N x) s.
Proof.
  induction (N.lt_wf_0 x) as [x _ IH]. intros s. destruct (decide (x = 0%N)) as [->|Hx]; [done|].
  rewrite pretty_N_go_step, IH by (try apply N.div_lt; lia). cbn [digits].
  rewrite digit_value_char by (apply N.mod_lt; done). f_equal. rewrite N2Z.inj_div, N2Z.inj_mod. pose proof (Z.div_mod (Z.of_N x) 10). lia.
Qed.

Lemma pretty_go_digit x : forall s, (0 < x)%N -> exists d s', (d < 10)%N /\ pretty_N_go x s = String (pretty_N_char d) s'.
Proof.
  induction (N.lt_wf_0 x) as [x _ IH]. intros s Hx. rewrite pretty_N_go_step by done.
  destruct (decide (x `div` 10 = 0)%N) as [->|Hd].
  - exists (x mod 10)%N, s. split; [by apply N.mod_lt|done].
  - apply IH; [by apply N.div_lt|by apply N.neq_0_lt_0].
Qed.

Lemma atol_go x : (0 < x)%N -> atol (pretty_N_go x "") = Z.of_N x.
Proof.
  intros Hx. destruct (pretty_go_digit x "" Hx) as (d & s & Hd & Hs). transitivity (digits 0 (pretty_N_go x "")); [|apply digits_pretty].
  rewrite Hs. unfold atol, skip_spaces.
  assert (d ∈ [0; 1; 2; 3; 4; 5; 6; 7; 8; 9]%N) as Hin by (rewrite !elem_of_cons; lia). clear Hs Hd.
  revert d Hin. apply Forall_forall. by repeat constructor.
Qed.

Lemma atol_pretty n : atol (pretty n) = n.
Proof.
  destruct n as [|p|p]; [done| |].
  - exact (atol_go (N.pos p) ltac:(lia)).
  - change (pretty (Z.neg p)) with (String "-" (pretty_N_go (N.pos p) "")). change (- digits 0 (pretty_N_go (N.pos p) "") = Z.neg p).
    by rewrite digits_pretty.
Qed.

(** ** What is in effect *)

(** The number a configuration asks for, as the [int] that is stored. *)
Definition asked (get_int64 : json -> Z) (key : string) (x : Z) (argobots : option json) : Z :=
  match json_object_object_get argobots key with Some param => i32 (get_int64 param) | None => x end.

Lemma set_environment_vars get_int64 config e :
  let argobots := json_object_object_get config "argobots" in
  set_argobots_environment_variables get_int64 false config e =
  <["ABT_THREAD_STACKSIZE"%string := pretty (asked get_int64 "abt_thread_stacksize" MARGO_DEFAULT_ABT_THREAD_STACKSIZE argobots)]>
    (<["ABT_MEM_MAX_NUM_STACKS"%string := pretty (asked get_int64 "abt_mem_max_num_stacks" MARGO_DEFAULT_ABT_MEM_MAX_NUM_STACKS argobots)]> e).
Proof.
  intros argobots. assert (forall x, i32 (u32 (i32 x)) = i32 x) as Hu.
  { intros x. unfold i32, u32. rewrite Zplus_mod_idemp_l. f_equal. replace ((x + 2 ^ 31) mod 2 ^ 32 - 2 ^ 31 + 2 ^ 31) with ((x + 2 ^ 31) mod 2 ^ 32) by lia.
    apply Z.mod_mod. lia. }
  assert (forall key x, i32 (u32 x) = x -> i32 (u32 (asked get_int64 key x argobots)) = asked get_int64 key x argobots) as Ha.
  { intros key x Hx. unfold asked. by case_match. }
  unfold set_argobots_environment_variables. fold argobots. fold (asked get_int64 "abt_mem_max_num_stacks" MARGO_DEFAULT_ABT_MEM_MAX_NUM_STACKS argobots).
  fold (asked get_int64 "abt_thread_stacksize" MARGO_DEFAULT_ABT_THREAD_STACKSIZE argobots). cbn [margo_set_abt_mem_max_num_stacks margo_set_abt_thread_stacksize snd].
  by rewrite !Ha by reflexivity.
Qed.

Lemma destroy_env undo g a : env (__margo_abt_destroy undo g a).1 = env g.
Proof. unfold __margo_abt_destroy. by destruct (_ && _). Qed.

Lemma error_env undo g a (ok : bool) g' a' e : (let '(g, a) := __margo_abt_destroy undo g a in (false, g, a)) = (ok, g', a') -> env g = e -> env g' = e.
Proof. intros Hd <-. pose proof (destroy_env undo g a) as He. destruct (__margo_abt_destroy _ _ _). by injection Hd as <- <- <-. Qed.

(** Whatever the initialisation does, it only adds the variables that are not set. *)
Lemma init_env o jabt g a ok g' a' : __margo_abt_init_from_json o jabt g a = (ok, g', a') -> abt_initialized g = false ->
  env g' = env_default "ABT_MEM_MAX_NUM_STACKS" "abt_mem_max_num_stacks" MARGO_DEFAULT_ABT_MEM_MAX_NUM_STACKS jabt
             (env_default "ABT_THREAD_STACKSIZE" "abt_thread_stacksize" MARGO_DEFAULT_ABT_THREAD_STACKSIZE jabt (env g)).
Proof.
  intros Hi Hg. unfold __margo_abt_init_from_json in Hi. rewrite Hg in Hi. cbn [negb andb] in Hi.
  set (e := env_default _ _ _ _ _) in Hi |- *.
  destruct (negb _); [by eapply error_env in Hi|]. destruct (build _ _ _ _) as [result a1]. destruct result; [by injection Hi as <- <- <-|by eapply error_env in Hi].
Qed.

Lemma env_default_set var key x jabt e s : e !! var = Some s -> env_default var key x jabt e = e.
Proof. intros He. unfold env_default. by rewrite He. Qed.

Lemma eqb_nil {A} (x y : Z) (w : A) : (if x =? y then [] else [w]) = [] <-> y = x.
Proof. destruct (Z.eqb_spec x y) as [->|]; [done|]. split; congruence. Qed.

(** C35: What [margo_set_environment] puts in the environment of a process in which
    Argobots is not initialised is what is in effect afterwards: the numbers of the
    configuration as [int]s, or the defaults; the initialisation by Margo leaves
    them, whatever its own configuration and outcome; its configuration is warned
    about exactly when it asks for other numbers; and the configuration that the
    instance writes gives these numbers back. *)
Theorem set_environment_respected get_int64 config e e' o jabt g a ok g' a' :
  margo_set_environment get_int64 false (Some (Some config)) e = (0, e') ->
  env g = e' -> abt_initialized g = false ->
  __margo_abt_init_from_json o jabt g a = (ok, g', a') ->
  let argobots := json_object_object_get (Some config) "argobots" in
  let stacks := asked get_int64 "abt_mem_max_num_stacks" MARGO_DEFAULT_ABT_MEM_MAX_NUM_STACKS argobots in
  let size := asked get_int64 "abt_thread_stacksize" MARGO_DEFAULT_ABT_THREAD_STACKSIZE argobots in
  env g' = e' /\
  e' !! "ABT_MEM_MAX_NUM_STACKS"%string = Some (pretty stacks) /\ e' !! "ABT_THREAD_STACKSIZE"%string = Some (pretty size) /\
  (forall initialized, check_abt_env_variables get_int64 initialized jabt e' = [] <->
    (forall j, json_object_object_get jabt "abt_mem_max_num_stacks" = Some j -> get_int64 j = stacks) /\
    match json_object_object_get jabt "abt_thread_stacksize" with Some j => get_int64 j | None => MARGO_DEFAULT_ABT_THREAD_STACKSIZE end = size) /\
  (forall c cpubind affinity lazy use_names hide,
    let written := Some (__margo_abt_to_json c cpubind affinity atol lazy use_names hide (env g') a') in
    json_object_object_get written "abt_mem_max_num_stacks" = Some (JInt stacks) /\
    json_object_object_get written "abt_thread_stacksize" = Some (JInt size)).
Proof.
  intros Hset Hg Hinit Hrun argobots stacks size. injection Hset as <-. rewrite set_environment_vars in Hg |- *. fold argobots in Hg |- *.
  fold stacks in Hg |- *. fold size in Hg |- *. set (e1 := <["ABT_THREAD_STACKSIZE"%string := pretty size]> _) in Hg |- *.
  assert (e1 !! "ABT_THREAD_STACKSIZE"%string = Some (pretty size)) as Hsize by apply lookup_insert_eq.
  assert (e1 !! "ABT_MEM_MAX_NUM_STACKS"%string = Some (pretty stacks)) as Hstacks.
  { unfold e1. rewrite lookup_insert_ne by done. apply lookup_insert_eq. }
  clearbody e1. assert (env g' = e1) as He.
  { rewrite (init_env _ _ _ _ _ _ _ Hrun Hinit), Hg. by rewrite (env_default_set _ _ _ _ _ _ Hsize), (env_default_set _ _ _ _ _ _ Hstacks). }
  split_and!; [done..| |].
  - intros initialized. unfold check_abt_env_variables. rewrite Hsize, Hstacks, !atol_pretty. split.
    + intros [H1 H2]%app_eq_nil. apply eqb_nil in H2. split; [|done]. intros j Hj. rewrite Hj in H1. by apply eqb_nil in H1.
    + intros [H1 H2]. rewrite (proj2 (eqb_nil _ _ _) H2), app_nil_r.
      destruct (json_object_object_get jabt "abt_mem_max_num_stacks") as [j|]; [|done]. apply eqb_nil. by apply H1.
  - intros c cpubind affinity lazy use_names hide. rewrite He. cbv zeta. unfold __margo_abt_to_json. rewrite Hsize, Hstacks, !atol_pretty.
    split; reflexivity.
Qed.

(** ** Examples *)

(** Four stacks are set, and 16 asked for later. *)
Definition env_config : json := JObject [("argobots"%string, Some (JObject [("abt_mem_max_num_stacks"%string, Some (JInt 4))]))].
Definition later_config : json := JObject [("abt_mem_max_num_stacks"%string, Some (JInt 16))].
Definition env_int (j : json) : Z := json_object_get_int64 (Some j).
Definition env_set := (margo_set_environment env_int false (Some (Some env_config)) ∅).2.
Definition env_start : globals := Globals false false 0 env_set.
Definition env_run := __margo_abt_init_from_json (InitOracle 1 true true (fun _ => (0, 5)) (fun _ => Oracle 0 (0, 0) (0, 0) 0 codes_ok (0, 0) codes_ok) 0 0 (fun _ => codes_ok)) (Some later_config) env_start (empty_abt ∅).

Lemma set_environment_respected_witness :
  env_set !! "ABT_THREAD_STACKSIZE"%string = Some "2097152"%string /\ env_set !! "ABT_MEM_MAX_NUM_STACKS"%string = Some "4"%string /\
  env env_run.1.2 = env_set /\ ~ (check_abt_env_variables env_int false (Some later_config) env_set = []).
Proof.
  destruct (set_environment_respected env_int env_config ∅ env_set (InitOracle 1 true true (fun _ => (0, 5)) (fun _ => Oracle 0 (0, 0) (0, 0) 0 codes_ok (0, 0) codes_ok) 0 0 (fun _ => codes_ok))
    (Some later_config) env_start (empty_abt ∅) env_run.1.1 env_run.1.2 env_run.2) as (H1 & H2 & H3 & H4 & _); [reflexivity|reflexivity|reflexivity|reflexivity|].
  split; [exact H3|]. split; [exact H2|]. split; [exact H1|]. intros [Hj _]%H4. specialize (Hj (JInt 16) eq_refl). discriminate Hj.
Defined.
