(* ===== verification/Profiling.v ===== *)
(** * Argobots profiling and the files of dumps (src/margo-abt-profiling.c, src/margo-abt-config.c)

    The profiler of Argobots is one for the process: Margo tracks whether it is
    initialised, started and in which mode in three global variables, which every
    instance uses.  The calls of the profiler are a trace; the specification is the
    protocol that they have to follow.  The names of the files are those of the
    profile and of the state dump. *)

From stdpp Require Import strings pretty.
From Stdlib Require Import Ascii.
From S2P Require Import Prelude.

#[local] Open Scope Z_scope.

(** ** The profiler *)

Definition ABTX_PROF_MODE_BASIC : Z := 0.
Definition ABTX_PROF_MODE_DETAILED : Z := 1.

Record profiler := Profiler {
  g_margo_abt_prof_init : bool;
  g_margo_abt_prof_started : bool;
  g_margo_abt_prof_mode : Z
}.

Inductive abtx := ABTX_prof_init | ABTX_prof_start (mode : Z) | ABTX_prof_stop | ABTX_prof_print | ABTX_prof_finalize.

(** In [__margo_abt_init_from_json]; [tool_enabled] is how Argobots is built. *)
Definition enable_profiling (tool_enabled : bool) (p : profiler) : profiler * list abtx :=
  if negb (g_margo_abt_prof_init p) then
    if tool_enabled then (Profiler true (g_margo_abt_prof_started p) (g_margo_abt_prof_mode p), [ABTX_prof_init]) else (p, [])
  else (p, []).

Definition margo_start_abt_profiling (detailed : bool) (p : profiler) : Z * profiler * list abtx :=
  if g_margo_abt_prof_init p then
    if negb (g_margo_abt_prof_started p) then
      let mode := if detailed then ABTX_PROF_MODE_DETAILED else ABTX_PROF_MODE_BASIC in
      (0, Profiler (g_margo_abt_prof_init p) true mode, [ABTX_prof_start mode])
    else (0, p, [])
  else (0, p, []).

Definition margo_stop_abt_profiling (p : profiler) : Z * profiler * list abtx :=
  if g_margo_abt_prof_init p then
    if g_margo_abt_prof_started p then
      (0, Profiler (g_margo_abt_prof_init p) false (g_margo_abt_prof_mode p), [ABTX_prof_stop])
    else (0, p, [])
  else (0, p, []).

Definition margo_abt_profiling_dump_fp (p : profiler) : list abtx :=
  if g_margo_abt_prof_started p then [ABTX_prof_stop; ABTX_prof_print; ABTX_prof_start (g_margo_abt_prof_mode p)] else [].

(** [opened]: whether [margo_output_file_open] gives a file. *)
Definition margo_dump_abt_profiling (opened : bool) (p : profiler) : Z * list abtx :=
  if negb (g_margo_abt_prof_init p) then (-1, [])
  else if negb opened then (-1, []) else (0, margo_abt_profiling_dump_fp p).

(** What it prints besides the profile is left out. *)
Definition margo_state_dump (opened : bool) (p : profiler) : Z * list abtx :=
  if negb opened then (-1, []) else (0, margo_abt_profiling_dump_fp p).

(** In [__margo_abt_destroy], with the last instance. *)
Definition disable_profiling (p : profiler) : profiler * list abtx :=
  if g_margo_abt_prof_init p then
    let '(p, l) := if g_margo_abt_prof_started p then
                     (Profiler (g_margo_abt_prof_init p) false (g_margo_abt_prof_mode p), [ABTX_prof_stop])
                   else (p, []) in
    (Profiler false (g_margo_abt_prof_started p) (g_margo_abt_prof_mode p), l ++ [ABTX_prof_finalize])
  else (p, []).

(** The variables of a process at its start. *)
Definition profiler_start : profiler := Profiler false false 0.

(** ** The protocol of the profiler *)

Inductive prof_state := Off | Ready | Running (mode : Z).

(** What the profiler accepts. *)
Definition prof_next (s : prof_state) (c : abtx) : option prof_state :=
  match s, c with
  | Off, ABTX_prof_init => Some Ready
  | Ready, ABTX_prof_start mode => Some (Running mode)
  | Ready, ABTX_prof_print => Some Ready
  | Ready, ABTX_prof_finalize => Some Off
  | Running _, ABTX_prof_stop => Some Ready
  | _, _ => None
  end.

Fixpoint prof_run (s : prof_state) (l : list abtx) : option prof_state :=
  match l with [] => Some s | c :: l => s' ← prof_next s c; prof_run s' l end.

(** The state that the variables stand for. *)
Definition prof_abs (p : profiler) : prof_state :=
  if negb (g_margo_abt_prof_init p) then Off
  else if g_margo_abt_prof_started p then Running (g_margo_abt_prof_mode p) else Ready.

(** One call by any instance, and what the process asks for. *)
Inductive prof_op := Enable (tool_enabled : bool) | Start (detailed : bool) | Stop | Dump (opened : bool) | StateDump (opened : bool) | Disable.

Definition prof_step (op : prof_op) (p : profiler) : profiler * list abtx :=
  match op with
  | Enable tool_enabled => enable_profiling tool_enabled p
  | Start detailed => let '(_, p, l) := margo_start_abt_profiling detailed p in (p, l)
  | Stop => let '(_, p, l) := margo_stop_abt_profiling p in (p, l)
  | Dump opened => (p, (margo_dump_abt_profiling opened p).2)
  | StateDump opened => (p, (margo_state_dump opened p).2)
  | Disable => disable_profiling p
  end.

Fixpoint prof_steps (ops : list prof_op) (p : profiler) : profiler * list abtx :=
  match ops with
  | [] => (p, [])
  | op :: ops => let '(p, l) := prof_step op p in let '(p, l') := prof_steps ops p in (p, l ++ l')
  end.

(** Without the code: what each call means in the states of the profiler. *)
Definition prof_meaning (op : prof_op) (s : prof_state) : prof_state :=
  match op, s with
  | Enable true, Off => Ready
  | Start detailed, Ready => Running (if detailed then ABTX_PROF_MODE_DETAILED else ABTX_PROF_MODE_BASIC)
  | Stop, Running _ => Ready
  | Disable, _ => Off
  | _, s => s
  end.

Lemma prof_run_app l1 l2 s : prof_run s (l1 ++ l2) = (s' ← prof_run s l1; prof_run s' l2).
Proof.
  revert s. induction l1 as [|c l1 IH]; intros s; [done|]. cbn. destruct (prof_next s c); [apply IH|done].
Qed.

(** A profiler that is not initialised is not started. *)
Definition prof_ok (p : profiler) : Prop := g_margo_abt_prof_started p = true -> g_margo_abt_prof_init p = true.

Lemma prof_step_correct op p : prof_ok p ->
  let '(p', l) := prof_step op p in
  prof_ok p' /\ prof_abs p' = prof_meaning op (prof_abs p) /\ prof_run (prof_abs p) l = Some (prof_abs p').
Proof.
  destruct p as [[] [] mode]; intros Hok; [| |by specialize (Hok eq_refl)|]; destruct op as [[]|[]| |[]|[]|]; by repeat split.
Qed.

(** From the start of the process, the calls that any sequence of starts, stops,
    dumps, initialisations and finalizations makes follow the protocol of the
    profiler - it is started only when initialised and stopped, stopped and
    finalized only in order, and prints only while stopped - and leave it in the
    state that the variables stand for, which is the one the calls mean; a dump
    leaves a running profiler running, in its mode, after printing once. *)
Theorem profiler_protocol ops : forall p l, prof_steps ops profiler_start = (p, l) ->
  prof_run Off l = Some (prof_abs p) /\ prof_abs p = foldl (fun s op => prof_meaning op s) Off ops /\
  (forall opened, prof_run (prof_abs p) (prof_step (Dump opened) p).2 = Some (prof_abs p)).
Proof.
  assert (forall p0 p l, prof_ok p0 -> prof_steps ops p0 = (p, l) ->
    prof_ok p /\ prof_run (prof_abs p0) l = Some (prof_abs p) /\ prof_abs p = foldl (fun s op => prof_meaning op s) (prof_abs p0) ops) as Hsteps.
  { induction ops as [|op ops IH]; intros p0 p l Hok; cbn [prof_steps foldl]; [by intros [= <- <-]|].
    pose proof (prof_step_correct op p0 Hok) as Hs. destruct (prof_step op p0) as [p1 l1]. destruct Hs as (Hok1 & Habs & Hrun).
    destruct (prof_steps ops p1) as [p2 l2] eqn:H2. intros [= <- <-]. destruct (IH p1 p2 l2 Hok1 H2) as (Hok2 & Hrun2 & Hm).
    split; [done|]. split; [by rewrite prof_run_app, Hrun|]. by rewrite <- Habs. }
  intros p l Hp. apply Hsteps in Hp as (Hok & Hrun & Hm); [|done]. split; [exact Hrun|]. split; [exact Hm|].
  intros opened. pose proof (prof_step_correct (Dump opened) p Hok) as Hs. cbn [prof_step snd] in Hs |- *. apply Hs.
Qed.

Lemma profiler_protocol_witness :
  let run := prof_steps [Enable true; Start true; Start false; Dump true; Disable; Start true; Enable true] profiler_start in
  run.2 = [ABTX_prof_init; ABTX_prof_start 1; ABTX_prof_stop; ABTX_prof_print; ABTX_prof_start 1; ABTX_prof_stop; ABTX_prof_finalize; ABTX_prof_init] /\
  prof_run Off run.2 = Some (prof_abs run.1).
Proof.
  set (ops := [Enable true; Start true; Start false; Dump true; Disable; Start true; Enable true]). split; [reflexivity|].
  exact (proj1 (profiler_protocol ops (prof_steps ops profiler_start).1 (prof_steps ops profiler_start).2 eq_refl)).
Defined.

(** ** The files *)

Inductive output := Stdout | File (name : string).

Definition revised_file_name (file extension hostname : string) (pid : Z) (uniquify : bool) : string :=
  if uniquify then file +:+ "." +:+ hostname +:+ "." +:+ pretty pid +:+ "." +:+ extension else file +:+ "." +:+ extension.

Definition starts_with_slash (s : string) : bool := match s with String "/" _ => true | _ => false end.

Definition absolute_file_name (profiling_dir revised : string) : string :=
  if starts_with_slash revised then revised else profiling_dir +:+ "/" +:+ revised.

(** The two allocations and [fopen] may fail; the second result is what is written
    through [resolved_file_name]. *)
Definition margo_output_file_open (malloc1 malloc2 : bool) (fopen : string -> bool) (hostname : string) (pid : Z) (profiling_dir : string)
    (file : string) (uniquify : bool) (extension : string) : option output * option string :=
  if bool_decide (file = "-"%string) then (Some Stdout, Some "<STDOUT>"%string)
  else if negb malloc1 then (None, None)
  else
    let revised := revised_file_name file extension hostname pid uniquify in
    if negb (starts_with_slash revised) && negb malloc2 then (None, None)
    else
      let name := absolute_file_name profiling_dir revised in
      (if fopen name then Some (File name) else None, Some name).

(** The sizes of the two buffers. *)
Definition revised_size (file : string) : Z := Z.of_nat (String.length file) + 256.
Definition absolute_size (profiling_dir revised : string) : Z :=
  if starts_with_slash revised then Z.of_nat (String.length revised) + 1
  else Z.of_nat (String.length profiling_dir) + Z.of_nat (String.length revised) + 2.

Lemma length_app_string a b : String.length (a +:+ b) = Nat.add (String.length a) (String.length b).
Proof. induction a as [|x a IHa]; [reflexivity|]. change (S (String.length (a +:+ b)) = S (Nat.add (String.length a) (String.length b))). by rewrite IHa. Qed.

Lemma string_assoc s1 s2 s3 : (s1 +:+ s2) +:+ s3 = s1 +:+ (s2 +:+ s3).
Proof. induction s1 as [|c s1 IH]; [done|]. change (String c ((s1 +:+ s2) +:+ s3) = String c (s1 +:+ (s2 +:+ s3))). by rewrite IH. Qed.

Lemma pretty_go_length k : forall x s, (x < 10 ^ N.of_nat k)%N -> (String.length (pretty_N_go x s) <= k + String.length s)%nat.
Proof.
  induction k as [|k IH]; intros x s Hx.
  - assert (x = 0%N) as -> by (cbn in Hx; lia). done.
  - destruct (decide (x = 0%N)) as [->|Hne]; [rewrite pretty_N_go_0; lia|]. rewrite pretty_N_go_step by lia.
    etrans; [apply IH|cbn; lia]. rewrite Nat2N.inj_succ, N.pow_succ_r' in Hx. by apply N.Div0.div_lt_upper_bound.
Qed.

Lemma pretty_length n : 0 <= n < 10 ^ 10 -> (String.length (pretty n) <= 10)%nat.
Proof.
  intros Hn. destruct n as [|p|p]; [cbn; lia| |lia]. change (String.length (pretty_N_go (N.pos p) "") <= 10)%nat.
  etrans; [apply (pretty_go_length 10); lia|cbn; lia].
Qed.

Lemma app_string_inj s s1 s2 : s +:+ s1 = s +:+ s2 -> s1 = s2.
Proof. induction s as [|c s IH]; [done|]. intros [= H]. by apply IH. Qed.

Lemma app_string_inj_r s s1 s2 : s1 +:+ s = s2 +:+ s -> s1 = s2.
Proof.
  revert s2. induction s1 as [|c s1 IH]; intros [|c2 s2] He; [done| | |].
  - apply (f_equal String.length) in He. rewrite !length_app_string in He. cbn [String.length] in He. lia.
  - apply (f_equal String.length) in He. rewrite !length_app_string in He. cbn [String.length] in He. lia.
  - injection He as -> He. f_equal. by apply IH.
Qed.

(** Opening the file of a profile or of a state dump writes inside its buffers,
    with a host name that fits in the 128 bytes given to [gethostname] and any
    process id; the file that is opened is the one given when its name is absolute,
    and otherwise one in the profiling directory; the caller is told its name; and
    processes of one host that make their files unique never share one. *)
Theorem output_file_safe malloc1 malloc2 fopen hostname pid profiling_dir file uniquify extension :
  (String.length hostname <= 127)%nat -> 0 <= pid < 2 ^ 31 -> extension = "abt.txt"%string \/ extension = "state.txt"%string ->
  let revised := revised_file_name file extension hostname pid uniquify in
  let '(out, resolved) := margo_output_file_open malloc1 malloc2 fopen hostname pid profiling_dir file uniquify extension in
  Z.of_nat (String.length revised) + 1 <= revised_size file /\
  Z.of_nat (String.length (absolute_file_name profiling_dir revised)) + 1 <= absolute_size profiling_dir revised /\
  (forall name, out = Some (File name) -> file ≠ "-"%string /\ fopen name = true /\ resolved = Some name /\
    exists tail, name = (if starts_with_slash file then file else profiling_dir +:+ "/" +:+ file) +:+ "." +:+ tail) /\
  (forall pid' malloc1' malloc2' fopen' name,
    out = Some (File name) -> uniquify = true -> 0 <= pid' < 2 ^ 31 -> pid' ≠ pid ->
    (margo_output_file_open malloc1' malloc2' fopen' hostname pid' profiling_dir file uniquify extension).1 ≠ Some (File name)).
Proof.
  intros Hhost Hpid Hext revised. assert ((String.length extension <= 9)%nat) as Hel by (destruct Hext as [-> | ->]; cbn; lia).
  destruct (margo_output_file_open _ _ _ _ _ _ _ _ _) as [out resolved] eqn:Ho.
  assert (Z.of_nat (String.length revised) + 1 <= revised_size file) as Hrev.
  { subst revised. unfold revised_file_name, revised_size. pose proof (pretty_length pid ltac:(lia)).
    destruct uniquify; rewrite ?length_app_string; cbn [String.length]; rewrite ?length_app_string; cbn [String.length]; lia. }
  assert (forall p, starts_with_slash (revised_file_name file extension hostname p uniquify) = starts_with_slash file) as Hslash.
  { intros p. unfold revised_file_name. destruct file as [|c file]; [by destruct uniquify|]. by destruct uniquify. }
  assert (forall m1 m2 fo p n, (margo_output_file_open m1 m2 fo hostname p profiling_dir file uniquify extension).1 = Some (File n) ->
    file ≠ "-"%string /\ fo n = true /\ n = absolute_file_name profiling_dir (revised_file_name file extension hostname p uniquify) /\
    (margo_output_file_open m1 m2 fo hostname p profiling_dir file uniquify extension).2 = Some n) as Hopen.
  { intros m1 m2 fo p n. unfold margo_output_file_open. case_bool_decide; [done|]. destruct (negb m1); [done|]. destruct (_ && negb m2); [done|].
    cbn [fst snd]. destruct (fo _) eqn:Hf; [|done]. by intros [= <-]. }
  split; [exact Hrev|]. split.
  { unfold absolute_file_name, absolute_size. destruct (starts_with_slash revised); [lia|]. rewrite !length_app_string. cbn [String.length]. lia. }
  split.
  - intros name ->. pose proof (Hopen malloc1 malloc2 fopen pid name) as H. rewrite Ho in H. cbn [fst snd] in H.
    destruct (H eq_refl) as (H1 & H2 & H3 & H4). split_and!; [done..|].
    exists (if uniquify then hostname +:+ "." +:+ pretty pid +:+ "." +:+ extension else extension). rewrite H3.
    unfold absolute_file_name. rewrite Hslash. unfold revised_file_name.
    destruct (starts_with_slash file), uniquify; rewrite ?string_assoc; done.
  - intros pid' m1 m2 fo name -> Hu Hpid' Hne [_ (_ & H3' & _)]%Hopen. pose proof (Hopen malloc1 malloc2 fopen pid name) as H. rewrite Ho in H.
    destruct (H eq_refl) as (_ & _ & H3 & _). rewrite H3' in H3. unfold absolute_file_name in H3. rewrite !Hslash in H3.
    assert (revised_file_name file extension hostname pid' uniquify = revised_file_name file extension hostname pid uniquify) as He.
    { destruct (starts_with_slash file); [done|]. by apply app_string_inj, (app_string_inj "/") in H3. }
    unfold revised_file_name in He. rewrite Hu in He. do 4 apply app_string_inj in He. apply app_string_inj_r in He.
    by apply (inj pretty) in He.
Qed.

Lemma output_file_safe_witness :
  margo_output_file_open true true (fun _ => true) "node1" 42 "/tmp" "margo-profile" true "abt.txt" =
    (Some (File "/tmp/margo-profile.node1.42.abt.txt"), Some "/tmp/margo-profile.node1.42.abt.txt")%string /\
  (margo_output_file_open true true (fun _ => true) "node1" 43 "/tmp" "margo-profile" true "abt.txt").1 ≠
    Some (File "/tmp/margo-profile.node1.42.abt.txt"%string).
Proof.
  split; [reflexivity|].
  pose proof (output_file_safe true true (fun _ => true) "node1" 42 "/tmp" "margo-profile" true "abt.txt" ltac:(cbn; lia) ltac:(lia) (or_introl eq_refl)) as H.
  destruct H as (_ & _ & _ & H). apply (H 43 true true (fun _ => true) "/tmp/margo-profile.node1.42.abt.txt"%string); [reflexivity|reflexivity|lia|lia].
Defined.
