(* ===== verification/Config.v ===== *)
(** * Elastic configuration of an instance (src/margo-config.c)

    The functions that search, reference, release, add and remove the pools and
    the execution streams of a running instance, by handle, by name and by
    index.  Both tables are behind one interface, [Table], and the functions on
    one table are instances of the same loops.  Each function gives its return
    code, the new tables and what it did in order: taking and giving back the
    mutex, and the calls of the monitor. *)

From stdpp Require Import strings pretty.
From S2P Require Import Prelude Json AbtConfig AbtTables.

#[local] Open Scope Z_scope.

(** ** State *)

Record instance := Instance { abt : margo_abt; progress_pool_idx : Z; rpc_pool_idx : Z }.

Definition set_abt (a : margo_abt) (m : instance) : instance := Instance a (progress_pool_idx m) (rpc_pool_idx m).

(** [FnEnd] carries the code the monitor reads in its arguments. *)
Inductive act := Lock | Unlock | FnStart | FnEnd (ret : hg_return_t).

#[export] Instance act_eq_dec : EqDecision act.
Proof. solve_decision. Defined.

Record info := Info { i_index : Z; i_name : string; i_handle : Z }.

(** Reading an entry past the length of a table: the array is zeroed there up to
    its capacity, so the handle is NULL. *)
Definition pool_at (a : margo_abt) (idx : Z) : Z :=
  match pools a !! Z.to_nat idx with Some p => p_pool p | None => 0 end.
Definition MARGO_PROGRESS_POOL (m : instance) : Z := pool_at (abt m) (progress_pool_idx m).
Definition MARGO_RPC_POOL (m : instance) : Z := pool_at (abt m) (rpc_pool_idx m).

(** ** The two tables *)

Class Table (E : Type) := {
  entries : margo_abt -> list E;
  put_entries : list E -> margo_abt -> margo_abt;
  e_name : E -> string;
  e_handle : E -> Z;
  e_refcount : E -> Z;
  set_refcount : Z -> E -> E;
  find_index_by_name : margo_abt -> option string -> Z;
  find_index_by_handle : margo_abt -> Z -> Z
}.

Definition pool_set_refcount (n : Z) (p : margo_abt_pool) : margo_abt_pool :=
  Pool (p_name p) (p_pool p) (p_kind p) (p_access p) n (p_num_xstreams p) (p_margo_free_flag p) (p_used_by_primary p).
Definition xstream_set_refcount (n : Z) (x : margo_abt_xstream) : margo_abt_xstream :=
  Xstream (x_name x) (x_xstream x) (x_sched_type x) n (x_margo_free_flag x).

#[export] Instance pool_table : Table margo_abt_pool := {
  entries := pools; put_entries := set_pools; e_name := p_name; e_handle := p_pool; e_refcount := p_refcount;
  set_refcount := pool_set_refcount;
  find_index_by_name := __margo_abt_find_pool_by_name; find_index_by_handle := __margo_abt_find_pool_by_handle
}.
#[export] Instance xstream_table : Table margo_abt_xstream := {
  entries := xstreams; put_entries := set_xstreams; e_name := x_name; e_handle := x_xstream; e_refcount := x_refcount;
  set_refcount := xstream_set_refcount;
  find_index_by_name := __margo_abt_find_xstream_by_name; find_index_by_handle := __margo_abt_find_xstream_by_handle
}.

(** The first entry that satisfies a test, with its index. *)
Fixpoint first_entry {E} (test : E -> bool) (l : list E) (i : nat) : option (nat * E) :=
  match l with [] => None | e :: l => if test e then Some (i, e) else first_entry test l (S i) end.

Section Loops.
Context {E : Type} `{Table E}.

Definition has_handle (handle : Z) (e : E) : bool := e_handle e =? handle.
Definition has_name (name : string) (e : E) : bool := bool_decide (e_name e = name).

(** The loop under the mutex of the functions by handle and by name: [body]
    gives what it does to the mutex, the code, the entry and a result. *)
Definition locked_loop {R} (test : E -> bool) (body : nat -> E -> list act * hg_return_t * E * R) (r0 : R) (m : instance)
    : list act * hg_return_t * instance * R :=
  match first_entry test (entries (abt m)) 0 with
  | None => ([Lock; Unlock], HG_NOENTRY, m, r0)
  | Some (i, e) =>
      let '(acts, ret, e, r) := body i e in
      ([Lock] ++ acts ++ [Unlock], ret, set_abt (put_entries (<[i := e]> (entries (abt m))) (abt m)) m, r)
  end.

Definition locked_index {R} (index : Z) (body : nat -> E -> list act * hg_return_t * E * R) (r0 : R) (m : instance)
    : list act * hg_return_t * instance * R :=
  match entries (abt m) !! Z.to_nat index with
  | None => ([Lock; Unlock], HG_INVALID_ARG, m, r0)
  | Some e =>
      let '(acts, ret, e, r) := body (Z.to_nat index) e in
      ([Lock] ++ acts, ret, set_abt (put_entries (<[Z.to_nat index := e]> (entries (abt m))) (abt m)) m, r)
  end.

Definition find_body (i : nat) (e : E) : list act * hg_return_t * E * option info :=
  ([], HG_SUCCESS, e, Some (Info (Z.of_nat i) (e_name e) (e_handle e))).
Definition incr_body (i : nat) (e : E) : list act * hg_return_t * E * unit :=
  ([], HG_SUCCESS, set_refcount (u32 (e_refcount e + 1)) e, tt).
Definition count_body (i : nat) (e : E) : list act * hg_return_t * E * option Z :=
  ([], HG_SUCCESS, e, Some (e_refcount e)).
(** The mutex is given back before the loop is left. *)
Definition release_body (i : nat) (e : E) : list act * hg_return_t * E * unit :=
  if e_refcount e =? 0 then ([Unlock], HG_PERMISSION, e, tt)
  else ([], HG_SUCCESS, set_refcount (u32 (e_refcount e - 1)) e, tt).

(** With an index there is no loop, and one [Unlock] on each path. *)
Definition unlocked {R} (body : nat -> E -> list act * hg_return_t * E * R) (i : nat) (e : E) : list act * hg_return_t * E * R :=
  let '(_, ret, e, r) := body i e in ([Unlock], ret, e, r).

Definition by_handle {R} body (r0 : R) (m : instance) (handle : Z) :=
  if handle =? 0 then ([], HG_INVALID_ARG, m, r0) else locked_loop (has_handle handle) body r0 m.
Definition by_name {R} body (r0 : R) (m : instance) (name : option string) :=
  match name with None => ([], HG_INVALID_ARG, m, r0) | Some name => locked_loop (has_name name) body r0 m end.
Definition by_index {R} body (r0 : R) (m : instance) (index : Z) := locked_index index (unlocked body) r0 m.
End Loops.

(** ** Pools *)

Definition margo_get_num_pools (m : instance) : Z := Z.of_nat (length (pools (abt m))).
Definition margo_get_num_xstreams (m : instance) : Z := Z.of_nat (length (xstreams (abt m))).

Definition margo_find_pool_by_handle := by_handle (E := margo_abt_pool) find_body None.
Definition margo_find_pool_by_name := by_name (E := margo_abt_pool) find_body None.
Definition margo_find_pool_by_index := by_index (E := margo_abt_pool) find_body None.

Definition margo_pool_ref_incr_by_handle := by_handle (E := margo_abt_pool) incr_body tt.
Definition margo_pool_ref_incr_by_name := by_name (E := margo_abt_pool) incr_body tt.
Definition margo_pool_ref_incr_by_index := by_index (E := margo_abt_pool) incr_body tt.

Definition margo_pool_ref_count_by_handle := by_handle (E := margo_abt_pool) count_body None.
Definition margo_pool_ref_count_by_name := by_name (E := margo_abt_pool) count_body None.
Definition margo_pool_ref_count_by_index := by_index (E := margo_abt_pool) count_body None.

Definition margo_pool_release_by_handle := by_handle (E := margo_abt_pool) release_body tt.
Definition margo_pool_release_by_name := by_name (E := margo_abt_pool) release_body tt.
Definition margo_pool_release_by_index := by_index (E := margo_abt_pool) release_body tt.

(** [json] is the parsed configuration, [None] for an empty string; a parse
    error is [json_ok = false]. *)
Definition margo_add_pool_from_json (initialized realloc json_ok : bool) (create : Z * Z) (json : option json) (m : instance)
    : list act * hg_return_t * instance :=
  if negb json_ok then ([], HG_INVALID_ARG, m)
  else
    let '(b, a) := __margo_abt_add_pool_from_json initialized realloc create json (abt m) in
    ([Lock; FnStart; FnEnd HG_SUCCESS; Unlock], (if b then HG_SUCCESS else HG_INVALID_ARG), set_abt a m).

Definition set_free_flag (b : bool) (p : margo_abt_pool) : margo_abt_pool :=
  Pool (p_name p) (p_pool p) (p_kind p) (p_access p) (p_refcount p) (p_num_xstreams p) b (p_used_by_primary p).
Definition set_xstream_free_flag (b : bool) (x : margo_abt_xstream) : margo_abt_xstream :=
  Xstream (x_name x) (x_xstream x) (x_sched_type x) (x_refcount x) b.

Definition margo_add_pool_external (realloc : bool) (name : option string) (pool : Z) (take_ownership : bool) (m : instance)
    : list act * hg_return_t * instance :=
  let '(b, a) := __margo_abt_add_external_pool realloc name pool (abt m) in
  let a := if b then set_pools (alter (set_free_flag take_ownership) (length (pools a) - 1)%nat (pools a)) a else a in
  ([Lock; FnStart; FnEnd HG_SUCCESS; Unlock], (if b then HG_SUCCESS else HG_INVALID_ARG), set_abt a m).

(** The part common to the three removals, under the mutex. *)
Definition remove_pool_at (total : Z * Z) (index : Z) (m : instance) : list act * hg_return_t * instance :=
  if pool_at (abt m) index =? MARGO_PROGRESS_POOL m then ([Lock; Unlock], HG_OTHER_ERROR, m)
  else if pool_at (abt m) index =? MARGO_RPC_POOL m then ([Lock; Unlock], HG_OTHER_ERROR, m)
  else
    let '(ret, a) := __margo_abt_remove_pool total index (abt m) in
    ([Lock; FnStart; FnEnd ret; Unlock], ret, set_abt a m).

Definition margo_remove_pool_by_index (total : Z * Z) (index : Z) (m : instance) : list act * hg_return_t * instance :=
  if Z.of_nat (length (pools (abt m))) <=? index then ([Lock; Unlock], HG_INVALID_ARG, m)
  else remove_pool_at total index m.

Definition margo_remove_pool_by_name (total : Z * Z) (name : option string) (m : instance) : list act * hg_return_t * instance :=
  let index := __margo_abt_find_pool_by_name (abt m) name in
  if index <? 0 then ([Lock; Unlock], HG_INVALID_ARG, m)
  else if Z.of_nat (length (pools (abt m))) <=? index then ([Lock; Unlock], HG_INVALID_ARG, m)
  else remove_pool_at total index m.

Definition margo_remove_pool_by_handle (total : Z * Z) (handle : Z) (m : instance) : list act * hg_return_t * instance :=
  let index := __margo_abt_find_pool_by_handle (abt m) handle in
  if index <? 0 then ([Lock; Unlock], HG_INVALID_ARG, m)
  else if Z.of_nat (length (pools (abt m))) <=? index then ([Lock; Unlock], HG_INVALID_ARG, m)
  else remove_pool_at total index m.

(** ** Execution streams *)

Definition margo_find_xstream_by_handle := by_handle (E := margo_abt_xstream) find_body None.
Definition margo_find_xstream_by_name := by_name (E := margo_abt_xstream) find_body None.
Definition margo_find_xstream_by_index := by_index (E := margo_abt_xstream) find_body None.

Definition margo_xstream_ref_incr_by_handle := by_handle (E := margo_abt_xstream) incr_body tt.
Definition margo_xstream_ref_incr_by_name := by_name (E := margo_abt_xstream) incr_body tt.
Definition margo_xstream_ref_incr_by_index := by_index (E := margo_abt_xstream) incr_body tt.

Definition margo_xstream_ref_count_by_handle := by_handle (E := margo_abt_xstream) count_body None.
Definition margo_xstream_ref_count_by_name := by_name (E := margo_abt_xstream) count_body None.
Definition margo_xstream_ref_count_by_index := by_index (E := margo_abt_xstream) count_body None.

Definition margo_xstream_release_by_handle := by_handle (E := margo_abt_xstream) release_body tt.
Definition margo_xstream_release_by_name := by_name (E := margo_abt_xstream) release_body tt.
Definition margo_xstream_release_by_index := by_index (E := margo_abt_xstream) release_body tt.

Definition margo_add_xstream_from_json (initialized realloc json_ok : bool) (o : xstream_oracle) (json : option json) (m : instance)
    : list act * hg_return_t * instance :=
  if negb json_ok then ([], HG_INVALID_ARG, m)
  else
    let '(b, a) := __margo_abt_add_xstream_from_json initialized realloc o json (abt m) in
    ([Lock; FnStart; FnEnd HG_SUCCESS; Unlock], (if b then HG_SUCCESS else HG_INVALID_ARG), set_abt a m).

(** [None] when the code compares a NULL name. *)
Definition margo_add_xstream_external (realloc : bool) (o : xstream_oracle) (name : option string) (xstream : Z)
    (take_ownership : bool) (m : instance) : option (list act * hg_return_t * instance) :=
  '(b, a) ← __margo_abt_add_external_xstream realloc o name xstream (abt m);
  let a := if b : bool then set_xstreams (alter (set_xstream_free_flag take_ownership) (length (xstreams a) - 1)%nat (xstreams a)) a else a in
  Some ([Lock; FnStart; FnEnd HG_SUCCESS; Unlock], (if b then HG_SUCCESS else HG_INVALID_ARG), set_abt a m).

Definition margo_remove_xstream_by_index (c : sched_codes) (index : Z) (m : instance) : list act * hg_return_t * instance :=
  if Z.of_nat (length (xstreams (abt m))) <=? index then ([Lock; Unlock], HG_OTHER_ERROR, m)
  else
    let '(ret, a) := __margo_abt_remove_xstream c index (abt m) in
    ([Lock; FnStart; FnEnd ret; Unlock], ret, set_abt a m).

Definition margo_remove_xstream_by_name (c : sched_codes) (name : option string) (m : instance) : list act * hg_return_t * instance :=
  let index := __margo_abt_find_xstream_by_name (abt m) name in
  if index <? 0 then ([Lock; Unlock], HG_INVALID_ARG, m)
  else
    let '(ret, a) := __margo_abt_remove_xstream c index (abt m) in
    ([Lock; FnStart; FnEnd ret; Unlock], ret, set_abt a m).

Definition margo_remove_xstream_by_handle (c : sched_codes) (handle : Z) (m : instance) : list act * hg_return_t * instance :=
  let index := __margo_abt_find_xstream_by_handle (abt m) handle in
  if index <? 0 then ([Lock; Unlock], HG_INVALID_ARG, m)
  else
    let '(ret, a) := __margo_abt_remove_xstream c index (abt m) in
    ([Lock; FnStart; Unlock; FnEnd ret], ret, set_abt a m).

(** ** Moving the content of a pool *)

(** A pool of Argobots: popping gives at most so many threads, and some if there
    are any. *)
Class AbtPool (P : Type) := {
  contents : P -> list Z;
  ABT_pool_pop_threads : nat -> P -> list Z * P;
  ABT_pool_push_threads : list Z -> P -> P;
  pop_contents p n : contents p ≡ₚ (ABT_pool_pop_threads n p).1 ++ contents (ABT_pool_pop_threads n p).2;
  pop_some p n : (0 < n)%nat -> (ABT_pool_pop_threads n p).1 = [] -> contents p = [];
  push_contents p l : contents (ABT_pool_push_threads l p) ≡ₚ contents p ++ l
}.

(** [None]: not finished within the fuel. *)
Fixpoint margo_transfer_pool_content {P} `{AbtPool P} (fuel : nat) (origin target : P) : option (hg_return_t * P * P) :=
  match fuel with
  | O => None
  | S fuel =>
      let '(threads, origin) := ABT_pool_pop_threads 64 origin in
      match threads with
      | [] => Some (HG_SUCCESS, origin, target)
      | _ => margo_transfer_pool_content fuel origin (ABT_pool_push_threads threads target)
      end
  end.

(** ** The three forms of access *)

(** What a caller gets, without the actions. *)
Definition outcome {A S R} (x : A * hg_return_t * S * R) : hg_return_t * S * R := let '(_, ret, s, r) := x in (ret, s, r).

Lemma first_entry_key {E K} `{EqDecision K} (key : E -> K) (test : E -> bool) l i e : forall j,
  (forall x, test x = true <-> key x = key e) -> NoDup (map key l) -> l !! i = Some e ->
  first_entry test l j = Some ((j + i)%nat, e).
Proof.
  revert i. induction l as [|x l IH]; intros i j Ht Hnd Hi; [done|]. simpl. apply NoDup_cons in Hnd as [Hx Hnd].
  destruct i as [|i].
  - simpl in Hi. injection Hi as ->. rewrite (proj2 (Ht e)), Nat.add_0_r by done. done.
  - simpl in Hi. destruct (test x) eqn:Hxt.
    + apply Ht in Hxt. destruct Hx. rewrite Hxt. apply list_elem_of_fmap. exists e. split; [done|]. by eapply list_elem_of_lookup_2.
    + rewrite (IH i) by done. f_equal. f_equal. lia.
Qed.

Section Forms.
Context {E : Type} `{Table E} (m : instance) (i : nat) (e : E).
Hypothesis Hi : entries (abt m) !! i = Some e.
Hypothesis Hnames : NoDup (map e_name (entries (abt m))).
Hypothesis Hhandles : NoDup (map e_handle (entries (abt m))).
Hypothesis Hnn : e_handle e ≠ 0.

Lemma by_handle_eq {R} body (r0 : R) :
  by_handle body r0 m (e_handle e) =
  let '(acts, ret, e, r) := body i e in
  ([Lock] ++ acts ++ [Unlock], ret, set_abt (put_entries (<[i := e]> (entries (abt m))) (abt m)) m, r).
Proof.
  unfold by_handle, locked_loop. rewrite (proj2 (Z.eqb_neq _ _) Hnn).
  rewrite (first_entry_key e_handle _ _ i e 0); [done| |done|done]. intros x. apply Z.eqb_eq.
Qed.

Lemma by_name_eq {R} body (r0 : R) :
  by_name body r0 m (Some (e_name e)) =
  let '(acts, ret, e, r) := body i e in
  ([Lock] ++ acts ++ [Unlock], ret, set_abt (put_entries (<[i := e]> (entries (abt m))) (abt m)) m, r).
Proof.
  unfold by_name, locked_loop.
  rewrite (first_entry_key e_name _ _ i e 0); [done| |done|done]. intros x. apply bool_decide_eq_true.
Qed.

Lemma by_index_eq {R} body (r0 : R) :
  by_index body r0 m (Z.of_nat i) =
  let '(_, ret, e, r) := body i e in
  ([Lock; Unlock], ret, set_abt (put_entries (<[i := e]> (entries (abt m))) (abt m)) m, r).
Proof. unfold by_index, locked_index, unlocked. rewrite Nat2Z.id, Hi. by destruct (body i e) as [[[acts ret] e'] r]. Qed.

Lemma forms_agree {R} body (r0 : R) :
  outcome (by_handle body r0 m (e_handle e)) = outcome (by_index body r0 m (Z.of_nat i)) /\
  outcome (by_name body r0 m (Some (e_name e))) = outcome (by_index body r0 m (Z.of_nat i)).
Proof. rewrite by_handle_eq, by_name_eq, by_index_eq. by destruct (body i e) as [[[acts ret] e'] r]. Qed.
End Forms.

Lemma wf_pool m i p : wf (abt m) -> pools (abt m) !! i = Some p -> p_pool p ≠ 0.
Proof. intros [] Hi. rewrite Forall_forall in wf_nonnull. by eapply wf_nonnull, list_elem_of_lookup_2. Qed.
Lemma wf_xstream m i x : wf (abt m) -> xstreams (abt m) !! i = Some x -> x_xstream x ≠ 0.
Proof. intros [] Hi. rewrite Forall_forall in wf_xnonnull. by eapply wf_xnonnull, list_elem_of_lookup_2. Qed.

Lemma find_by_name_index m i p : wf (abt m) -> pools (abt m) !! i = Some p ->
  __margo_abt_find_pool_by_name (abt m) (Some (p_name p)) = Z.of_nat i.
Proof.
  intros [] Hi. destruct (find_pool_by_name_spec (abt m) (p_name p)) as [[_ Hn]|(k & q & -> & Hq & He)].
  - destruct Hn. apply list_elem_of_fmap. exists p. split; [done|by eapply list_elem_of_lookup_2].
  - f_equal. eapply (NoDup_lookup _ _ _ (p_name p)); [exact wf_names|..]; rewrite lookup_map; [by rewrite Hq, <- He|by rewrite Hi].
Qed.

Lemma find_by_handle_index m i p : wf (abt m) -> pools (abt m) !! i = Some p ->
  __margo_abt_find_pool_by_handle (abt m) (p_pool p) = Z.of_nat i.
Proof.
  intros Hwf Hi. pose proof (wf_pool _ _ _ Hwf Hi) as Hnn. destruct Hwf.
  destruct (find_pool_by_handle_spec (abt m) (p_pool p) Hnn) as [[_ Hn]|(k & q & -> & Hq & He)].
  - destruct Hn. apply list_elem_of_fmap. exists p. split; [done|by eapply list_elem_of_lookup_2].
  - f_equal. eapply (NoDup_lookup _ _ _ (p_pool p)); [exact wf_handles|..]; rewrite lookup_map; [by rewrite Hq, <- He|by rewrite Hi].
Qed.

(** In well-formed tables the functions by handle, by name and by index do
    the same: for an entry they return the same code, result and new tables,
    whether they search, reference, count or release it, for pools and for
    execution streams, and the three removals of a pool are equal. *)
Theorem access_forms_agree m : wf (abt m) ->
  (forall i p, pools (abt m) !! i = Some p ->
    outcome (margo_find_pool_by_handle m (p_pool p)) = outcome (margo_find_pool_by_index m (Z.of_nat i)) /\
    outcome (margo_find_pool_by_name m (Some (p_name p))) = outcome (margo_find_pool_by_index m (Z.of_nat i)) /\
    outcome (margo_pool_ref_incr_by_handle m (p_pool p)) = outcome (margo_pool_ref_incr_by_index m (Z.of_nat i)) /\
    outcome (margo_pool_ref_incr_by_name m (Some (p_name p))) = outcome (margo_pool_ref_incr_by_index m (Z.of_nat i)) /\
    outcome (margo_pool_ref_count_by_handle m (p_pool p)) = outcome (margo_pool_ref_count_by_index m (Z.of_nat i)) /\
    outcome (margo_pool_ref_count_by_name m (Some (p_name p))) = outcome (margo_pool_ref_count_by_index m (Z.of_nat i)) /\
    outcome (margo_pool_release_by_handle m (p_pool p)) = outcome (margo_pool_release_by_index m (Z.of_nat i)) /\
    outcome (margo_pool_release_by_name m (Some (p_name p))) = outcome (margo_pool_release_by_index m (Z.of_nat i)) /\
    forall total,
      margo_remove_pool_by_handle total (p_pool p) m = margo_remove_pool_by_index total (Z.of_nat i) m /\
      margo_remove_pool_by_name total (Some (p_name p)) m = margo_remove_pool_by_index total (Z.of_nat i) m) /\
  (forall i x, xstreams (abt m) !! i = Some x ->
    outcome (margo_find_xstream_by_handle m (x_xstream x)) = outcome (margo_find_xstream_by_index m (Z.of_nat i)) /\
    outcome (margo_find_xstream_by_name m (Some (x_name x))) = outcome (margo_find_xstream_by_index m (Z.of_nat i)) /\
    outcome (margo_xstream_ref_incr_by_handle m (x_xstream x)) = outcome (margo_xstream_ref_incr_by_index m (Z.of_nat i)) /\
    outcome (margo_xstream_ref_incr_by_name m (Some (x_name x))) = outcome (margo_xstream_ref_incr_by_index m (Z.of_nat i)) /\
    outcome (margo_xstream_release_by_handle m (x_xstream x)) = outcome (margo_xstream_release_by_index m (Z.of_nat i)) /\
    outcome (margo_xstream_release_by_name m (Some (x_name x))) = outcome (margo_xstream_release_by_index m (Z.of_nat i))).
Proof.
  intros Hwf. split.
  - intros i p Hi. pose proof (wf_pool _ _ _ Hwf Hi) as Hnn.
    pose proof (AbtTables.wf_names _ Hwf) as Hn. pose proof (AbtTables.wf_handles _ Hwf) as Hh.
    pose proof (fun R body (r0 : R) => forms_agree (E := margo_abt_pool) m i p Hi Hn Hh Hnn body r0) as HF.
    do 4 (split; [apply HF|split; [apply HF|]]). intros total.
    unfold margo_remove_pool_by_handle, margo_remove_pool_by_name, margo_remove_pool_by_index.
    rewrite (find_by_name_index _ _ _ Hwf Hi), (find_by_handle_index _ _ _ Hwf Hi).
    apply lookup_lt_Some in Hi. rewrite (proj2 (Z.ltb_ge (Z.of_nat i) 0)) by lia. done.
  - intros i x Hi. pose proof (wf_xstream _ _ _ Hwf Hi) as Hnn.
    destruct Hwf as [_ _ _ Hn Hh _ _ _ _ _].
    pose proof (fun R body (r0 : R) => forms_agree (E := margo_abt_xstream) m i x Hi Hn Hh Hnn body r0) as HF.
    do 3 (split; [apply HF|first [split; [apply HF|]|apply HF]]).
Qed.

(** ** References *)

Lemma referenced_pool_refused m i p total : wf (abt m) -> pools (abt m) !! i = Some p -> p_refcount p ≠ 0 ->
  let '(_, ret, m') := margo_remove_pool_by_handle total (p_pool p) m in
  (ret = HG_PERMISSION \/ ret = HG_OTHER_ERROR) /\ m' = m.
Proof.
  intros Hwf Hi Hr. unfold margo_remove_pool_by_handle. rewrite (find_by_handle_index _ _ _ Hwf Hi).
  apply lookup_lt_Some in Hi as Hlt. rewrite (proj2 (Z.ltb_ge (Z.of_nat i) 0)), (proj2 (Z.leb_gt _ _)) by lia.
  unfold remove_pool_at. destruct (_ =? MARGO_PROGRESS_POOL m); [by auto|]. destruct (_ =? MARGO_RPC_POOL m); [by auto|].
  unfold __margo_abt_remove_pool. rewrite Nat2Z.id, Hi, (proj2 (Z.eqb_neq _ _) Hr). simpl. destruct m. by auto.
Qed.

(** Changing the reference count of an entry. *)
Definition with_refcount (i : nat) (n : Z) (p : margo_abt_pool) (m : instance) : instance :=
  set_abt (set_pools (<[i := pool_set_refcount n p]> (pools (abt m))) (abt m)) m.

Lemma with_refcount_map i n p m : pools (abt m) !! i = Some p -> forall {K} (key : margo_abt_pool -> K),
  key (pool_set_refcount n p) = key p -> map key (pools (abt (with_refcount i n p m))) = map key (pools (abt m)).
Proof.
  intros Hi K key Hkey. simpl. apply list_eq. intros j. rewrite !lookup_map.
  destruct (decide (j = i)) as [->|]; [|by rewrite list_lookup_insert_ne].
  rewrite list_lookup_insert_eq by (by eapply lookup_lt_Some). rewrite Hi. simpl. by rewrite Hkey.
Qed.

Lemma wf_with_refcount i n p m : wf (abt m) -> pools (abt m) !! i = Some p -> wf (abt (with_refcount i n p m)).
Proof.
  intros [] Hi. pose proof (fun K => @with_refcount_map i n p m Hi K) as Hk.
  assert (forall P, Forall P (pools (abt m)) -> P (pool_set_refcount n p) -> Forall P (pools (abt (with_refcount i n p m)))) as HF.
  { intros P HP Hp. simpl. by apply Forall_insert. }
  constructor; try done; try (by rewrite Hk).
  - apply HF; [done|]. rewrite Forall_forall in wf_nonnull. simpl. by eapply wf_nonnull, list_elem_of_lookup_2.
  - simpl. by rewrite length_insert.
  - change (used_pools (abt (with_refcount i n p m))) with (used_pools (abt m)). apply HF; [done|].
    rewrite Forall_forall in wf_count. simpl. by eapply wf_count, list_elem_of_lookup_2.
Qed.

(** The functions by handle on an entry of a well-formed table. *)
Lemma pool_by_handle m i p {R} body (r0 : R) : wf (abt m) -> pools (abt m) !! i = Some p ->
  by_handle (E := margo_abt_pool) body r0 m (p_pool p) =
  let '(acts, ret, e, r) := body i p in
  ([Lock] ++ acts ++ [Unlock], ret, set_abt (set_pools (<[i := e]> (pools (abt m))) (abt m)) m, r).
Proof.
  intros Hwf Hi. exact (by_handle_eq (H := pool_table) m i p Hi (AbtTables.wf_handles _ Hwf) (wf_pool _ _ _ Hwf Hi) body r0).
Qed.

(** A reference keeps a pool: after [margo_pool_ref_incr_by_handle] has
    succeeded, a removal by handle is refused and changes nothing, and
    [margo_pool_release_by_handle] gives back exactly the state before. *)
Theorem reference_keeps_pool m i p total : wf (abt m) -> pools (abt m) !! i = Some p -> 0 <= p_refcount p < 2 ^ 32 - 1 ->
  exists m', margo_pool_ref_incr_by_handle m (p_pool p) = ([Lock; Unlock], HG_SUCCESS, m', tt) /\
    outcome (margo_pool_ref_count_by_handle m' (p_pool p)) = (HG_SUCCESS, m', Some (p_refcount p + 1)) /\
    (let '(_, ret, m'') := margo_remove_pool_by_handle total (p_pool p) m' in
     (ret = HG_PERMISSION \/ ret = HG_OTHER_ERROR) /\ m'' = m') /\
    outcome (margo_pool_release_by_handle m' (p_pool p)) = (HG_SUCCESS, m, tt).
Proof.
  intros Hwf Hi Hr. set (p' := pool_set_refcount (p_refcount p + 1) p). set (m' := with_refcount i (p_refcount p + 1) p m).
  assert (pools (abt m') !! i = Some p') as Hi' by (simpl; apply list_lookup_insert_eq; by eapply lookup_lt_Some).
  pose proof (wf_with_refcount i (p_refcount p + 1) p m Hwf Hi) as Hwf'. fold m' in Hwf'.
  change (p_pool p) with (p_pool p') at 2 3 4. exists m'. split_and!.
  - unfold margo_pool_ref_incr_by_handle. rewrite (pool_by_handle m i p) by done.
    simpl. by rewrite u32_id by (unfold is_u32; lia).
  - unfold margo_pool_ref_count_by_handle. rewrite (pool_by_handle m' i p') by done. cbn [count_body outcome].
    assert (set_abt (set_pools (<[i := p']> (pools (abt m'))) (abt m')) m' = m') as ->; [|done].
    unfold set_abt, m', with_refcount, set_pools. simpl. by rewrite list_insert_insert_eq.
  - apply (referenced_pool_refused m' i p'); [done..|]. simpl. lia.
  - unfold margo_pool_release_by_handle. rewrite (pool_by_handle m' i p') by done. unfold release_body. cbn [e_refcount pool_table].
    rewrite (proj2 (Z.eqb_neq (p_refcount p') 0)) by (simpl; lia). cbn [outcome].
    do 2 f_equal. unfold set_abt, m', with_refcount, set_pools. simpl. rewrite u32_id by (unfold is_u32; lia).
    rewrite list_insert_insert_eq, list_insert_id; [by destruct m as [[] ? ?]|]. rewrite Hi. f_equal.
    unfold pool_set_refcount. destruct p. simpl. f_equal. lia.
Qed.

(** Releasing a pool or an execution stream that has no reference, by handle
    or by name, gives the mutex back twice; by index, once. *)
Theorem release_unlocks_twice m : wf (abt m) ->
  (forall i p, pools (abt m) !! i = Some p -> p_refcount p = 0 ->
    margo_pool_release_by_handle m (p_pool p) = ([Lock; Unlock; Unlock], HG_PERMISSION, m, tt) /\
    margo_pool_release_by_name m (Some (p_name p)) = ([Lock; Unlock; Unlock], HG_PERMISSION, m, tt) /\
    margo_pool_release_by_index m (Z.of_nat i) = ([Lock; Unlock], HG_PERMISSION, m, tt)) /\
  (forall i x, xstreams (abt m) !! i = Some x -> x_refcount x = 0 ->
    margo_xstream_release_by_handle m (x_xstream x) = ([Lock; Unlock; Unlock], HG_PERMISSION, m, tt) /\
    margo_xstream_release_by_name m (Some (x_name x)) = ([Lock; Unlock; Unlock], HG_PERMISSION, m, tt)).
Proof.
  intros Hwf. split; intros i e Hi Hr.
  - assert (set_abt (set_pools (<[i := e]> (pools (abt m))) (abt m)) m = m) as Hs.
    { rewrite list_insert_id by done. by destruct m as [[] ? ?]. }
    pose proof (AbtTables.wf_names _ Hwf) as Hn. pose proof (AbtTables.wf_handles _ Hwf) as Hh.
    unfold margo_pool_release_by_handle, margo_pool_release_by_name, margo_pool_release_by_index.
    rewrite (by_handle_eq (H := pool_table) m i e Hi Hh (wf_pool _ _ _ Hwf Hi)).
    rewrite (by_name_eq (H := pool_table) m i e Hi Hn), (by_index_eq (H := pool_table) m i e Hi).
    unfold release_body. cbn [e_refcount pool_table entries put_entries]. rewrite Hr. simpl. by rewrite Hs.
  - assert (set_abt (set_xstreams (<[i := e]> (xstreams (abt m))) (abt m)) m = m) as Hs.
    { rewrite list_insert_id by done. by destruct m as [[] ? ?]. }
    pose proof (AbtTables.wf_xnames _ Hwf) as Hn. pose proof (AbtTables.wf_xhandles _ Hwf) as Hh.
    unfold margo_xstream_release_by_handle, margo_xstream_release_by_name.
    rewrite (by_handle_eq (H := xstream_table) m i e Hi Hh (wf_xstream _ _ _ Hwf Hi)).
    rewrite (by_name_eq (H := xstream_table) m i e Hi Hn).
    unfold release_body. cbn [e_refcount xstream_table entries put_entries]. rewrite Hr. simpl. by rewrite Hs.
Qed.

(** ** Removal and the pools of the instance *)

Lemma swap_remove_last {A} (l : list A) i x : (i < length l - 1)%nat -> last l = Some x ->
  swap_remove i l !! i = Some x /\ length (swap_remove i l) = (length l - 1)%nat.
Proof.
  intros Hi Hl. assert (length (swap_remove i l) = (length l - 1)%nat) as Hlen.
  { destruct (lookup_lt_is_Some_2 l i) as [y Hy]; [lia|]. pose proof (swap_remove_perm l i y Hy) as Hp.
    apply Permutation_length in Hp. simpl in Hp. lia. }
  split; [|done]. unfold swap_remove. rewrite Hl. apply last_Some in Hl as [l' ->]. rewrite length_app in *. simpl in *.
  rewrite (proj2 (Nat.eqb_neq i _)) by lia. rewrite insert_app_l by lia. rewrite removelast_last.
  apply list_lookup_insert_eq. lia.
Qed.

(** A removal that moves the last pool of the table into the place of the
    removed one leaves the index of the progress pool as it was: when the
    progress pool is the last one, the instance then reads its handle past the
    end of the table, where it is NULL, and no test protects the moved pool any
    more. *)
Theorem removal_loses_progress_pool m total index p q m' : wf (abt m) ->
  0 <= index < progress_pool_idx m -> Z.to_nat (progress_pool_idx m) = (length (pools (abt m)) - 1)%nat ->
  pools (abt m) !! Z.to_nat (progress_pool_idx m) = Some q -> pools (abt m) !! Z.to_nat index = Some p ->
  (exists acts, margo_remove_pool_by_index total index m = (acts, HG_SUCCESS, m')) ->
  MARGO_PROGRESS_POOL m = p_pool q /\ pool_at (abt m') index = p_pool q /\ MARGO_PROGRESS_POOL m' = 0 /\
  (p_pool q ≠ MARGO_RPC_POOL m' -> p_refcount q = 0 -> p_num_xstreams q = 0 ->
     exists acts m'', margo_remove_pool_by_handle (0, 0) (p_pool q) m' = (acts, HG_SUCCESS, m'')).
Proof.
  intros Hwf Hidx Hlast Hq Hp [acts Hrem]. assert (last (pools (abt m)) = Some q) as Hl.
  { rewrite last_lookup. replace (pred _) with (Z.to_nat (progress_pool_idx m)) by lia. done. }
  assert (pools (abt m') = swap_remove (Z.to_nat index) (pools (abt m)) /\ progress_pool_idx m' = progress_pool_idx m) as [Hp' Hi'].
  { unfold margo_remove_pool_by_index in Hrem. destruct (_ <=? index); [done|]. unfold remove_pool_at in Hrem.
    destruct (_ =? MARGO_PROGRESS_POOL m); [done|]. destruct (_ =? MARGO_RPC_POOL m); [done|].
    destruct (__margo_abt_remove_pool total index (abt m)) as [ret a] eqn:Ha. injection Hrem as _ -> <-.
    apply remove_pool_spec in Ha as [[? _]|(r & _ & _ & _ & _ & _ & ->)]; done. }
  destruct (swap_remove_last (pools (abt m)) (Z.to_nat index) q ltac:(lia) Hl) as [Hmoved Hlen].
  assert (MARGO_PROGRESS_POOL m' = 0) as Hnull.
  { unfold MARGO_PROGRESS_POOL, pool_at. rewrite Hi', Hp'.
    rewrite (proj2 (lookup_ge_None _ _)); [done|]. rewrite Hlen. lia. }
  split_and!; [unfold MARGO_PROGRESS_POOL, pool_at; by rewrite Hq|unfold pool_at; by rewrite Hp', Hmoved|done|].
  intros Hrpc Hr Hx. pose proof (wf_pool m _ q Hwf Hq) as Hnn.
  destruct (find_pool_by_handle_spec (abt m') (p_pool q) Hnn) as [[_ Hnin]|(k & r & Hk & Hrk & Hre)].
  { destruct Hnin. apply list_elem_of_fmap. exists q. rewrite Hp'. split; [done|]. by eapply list_elem_of_lookup_2. }
  assert (r = q) as ->.
  { pose proof (swap_remove_perm _ _ _ Hp) as Hperm. rewrite <- Hp' in Hperm.
    assert (r ∈ pools (abt m)) as [j Hj]%list_elem_of_lookup by (rewrite Hperm; constructor; by eapply list_elem_of_lookup_2).
    assert (j = Z.to_nat (progress_pool_idx m)) as ->; [|congruence].
    eapply (NoDup_lookup _ _ _ (p_pool q)); [exact (AbtTables.wf_handles _ Hwf)|..]; rewrite lookup_map; [by rewrite Hj, <- Hre|by rewrite Hq]. }
  unfold margo_remove_pool_by_handle. rewrite Hk. apply lookup_lt_Some in Hrk as Hlt.
  rewrite (proj2 (Z.ltb_ge _ 0)), (proj2 (Z.leb_gt _ _)) by lia. unfold remove_pool_at, pool_at. rewrite Nat2Z.id, Hrk, Hnull.
  rewrite (proj2 (Z.eqb_neq _ _) Hnn), (proj2 (Z.eqb_neq _ _) Hrpc).
  unfold __margo_abt_remove_pool. rewrite Nat2Z.id, Hrk, Hr, Hx. by do 2 eexists.
Qed.

(** ** Moving the content of a pool *)

(** [margo_transfer_pool_content] ends, within one turn more than there are
    threads in the origin, and moves every thread: the origin is empty and the
    target holds what both held. *)
Theorem transfer_pool_terminates {P} `{AbtPool P} (origin target : P) fuel : (length (contents origin) < fuel)%nat ->
  exists origin' target', margo_transfer_pool_content fuel origin target = Some (HG_SUCCESS, origin', target') /\
    contents origin' = [] /\ contents target' ≡ₚ contents target ++ contents origin.
Proof.
  revert origin target. induction fuel as [|fuel IH]; intros origin target Hf; [lia|]. simpl.
  pose proof (pop_contents origin 64) as Hp. pose proof (pop_some origin 64 ltac:(lia)) as Hs.
  destruct (ABT_pool_pop_threads 64 origin) as [threads origin']. simpl in Hp, Hs. destruct threads as [|t threads].
  - exists origin', target. rewrite Hs in * by done. apply Permutation_nil_l in Hp. rewrite app_nil_r.
    split_and!; [done|by apply (f_equal length) in Hp; apply nil_length_inv|done].
  - pose proof (Permutation_length Hp) as Hl. rewrite length_app in Hl. simpl in Hl.
    destruct (IH origin' (ABT_pool_push_threads (t :: threads) target)) as (o & tg & -> & Ho & Ht); [lia|].
    exists o, tg. split_and!; [done..|]. rewrite Ht, push_contents, Hp. by rewrite <- app_assoc.
Qed.

(** ** Examples *)

Definition demo : instance := Instance demo3 1 1.

Lemma demo_wf : wf (abt demo).
Proof. exact (reachable_wf true ∅ demo3 demo_reachable). Qed.

Lemma access_forms_agree_witness :
  outcome (margo_pool_ref_incr_by_name demo (Some "q"%string)) = outcome (margo_pool_ref_incr_by_index demo 1) /\
  (margo_pool_ref_count_by_handle (margo_pool_ref_incr_by_name demo (Some "q"%string)).1.2 8).2 = Some 1.
Proof.
  split; [|vm_compute; reflexivity].
  destruct (access_forms_agree demo demo_wf) as [Hp _].
  destruct (Hp 1%nat (Pool "q" 8 "fifo_wait" (Some "mpmc"%string) 0 1 true false)) as (_ & _ & _ & H & _); [vm_compute; reflexivity|exact H].
Defined.

Lemma reference_keeps_pool_witness :
  exists m', margo_pool_ref_incr_by_handle demo 7 = ([Lock; Unlock], HG_SUCCESS, m', tt) /\
    (let '(_, ret, m'') := margo_remove_pool_by_handle (0, 0) 7 m' in
     (ret = HG_PERMISSION \/ ret = HG_OTHER_ERROR) /\ m'' = m').
Proof.
  destruct (reference_keeps_pool demo 0 (Pool "p" 7 "external" None 0 0 false false) (0, 0) demo_wf) as (m' & Hi & _ & Hr & _).
  - vm_compute. reflexivity.
  - simpl. lia.
  - exists m'. split; [exact Hi|exact Hr].
Defined.

Lemma release_unlocks_twice_witness : (margo_pool_release_by_handle demo 7).1.1.1 = [Lock; Unlock; Unlock].
Proof.
  destruct (release_unlocks_twice demo demo_wf) as [Hp _].
  destruct (Hp 0%nat (Pool "p" 7 "external" None 0 0 false false)) as [H _]; [vm_compute; reflexivity|reflexivity|].
  exact (f_equal (fun x => x.1.1.1) H).
Defined.

(** The progress pool is the last of two pools, and the first one is removed. *)
Definition demo_progress : instance := Instance demo2 1 1.

Lemma removal_loses_progress_pool_witness :
  MARGO_PROGRESS_POOL demo_progress = 8 /\
  exists m', (exists acts, margo_remove_pool_by_index (0, 0) 0 demo_progress = (acts, HG_SUCCESS, m')) /\
    MARGO_PROGRESS_POOL m' = 0 /\ exists acts m'', margo_remove_pool_by_handle (0, 0) 8 m' = (acts, HG_SUCCESS, m'').
Proof.
  split; [vm_compute; reflexivity|].
  assert (Hr : exists m', exists acts, margo_remove_pool_by_index (0, 0) 0 demo_progress = (acts, HG_SUCCESS, m')).
  { eexists. eexists. vm_compute. reflexivity. }
  destruct Hr as [m' Hr]. exists m'. split; [exact Hr|].
  destruct (removal_loses_progress_pool demo_progress (0, 0) 0 (Pool "p" 7 "external" None 0 0 false false)
              (Pool "q" 8 "fifo_wait" (Some "mpmc"%string) 0 0 true false) m') as (_ & _ & Hn & Hrem).
  - exact (reachable_wf true ∅ demo2 demo2_reachable).
  - vm_compute. split; [discriminate|reflexivity].
  - vm_compute. reflexivity.
  - vm_compute. reflexivity.
  - vm_compute. reflexivity.
  - exact Hr.
  - split; [exact Hn|]. apply Hrem; [|reflexivity|reflexivity].
    destruct Hr as [acts Ha]. vm_compute in Ha. injection Ha as _ <-. vm_compute. discriminate.
Defined.

(** A first-in first-out pool. *)
#[export] Instance fifo_pool : AbtPool (list Z).
Proof.
  refine {| contents := id; ABT_pool_pop_threads n p := (take n p, drop n p); ABT_pool_push_threads l p := p ++ l |}.
  - intros p n. simpl. by rewrite take_drop.
  - intros p n Hn. simpl. intros Ht. destruct p; [done|]. destruct n; [lia|done].
  - intros p l. done.
Defined.

Lemma transfer_pool_terminates_witness :
  exists o t, margo_transfer_pool_content 101 (map Z.of_nat (seq 0 100)) [7] = Some (HG_SUCCESS, o, t) /\
    contents o = [] /\ contents t ≡ₚ contents [7] ++ contents (map Z.of_nat (seq 0 100)).
Proof. apply (transfer_pool_terminates (map Z.of_nat (seq 0 100)) [7] 101). vm_compute. lia. Defined.
