(* ===== verification/HgConfig.v ===== *)
(** * Configuration of Mercury (src/margo-hg-config.c)

    Validation of the "mercury" section, the structure that is given to Mercury,
    the objects made or taken from the user, their JSON form, and their
    destruction.  The code is read for Mercury 2.2 and later (all the features
    that depend on the version).  The calls of Mercury that make and destroy
    objects are emitted as effects, their results are parameters; so are the
    widths of the fields of Mercury and its flags. *)

From Stdlib Require Import Ascii.
From stdpp Require Import strings pretty.
From S2P Require Import Prelude Json.

#[local] Open Scope Z_scope.

(** ** Data *)

Inductive hg_checksum_level := HG_CHECKSUM_NONE | HG_CHECKSUM_RPC_HEADERS | HG_CHECKSUM_RPC_PAYLOAD.
Inductive na_addr_format := NA_ADDR_UNSPEC | NA_ADDR_IPV4 | NA_ADDR_IPV6 | NA_ADDR_NATIVE.

(** [struct hg_init_info] with its [na_init_info]; strings may be NULL. *)
Record hg_init_info := HgInitInfo {
  request_post_init : Z;
  request_post_incr : Z;
  auto_sm : bool;
  no_bulk_eager : bool;
  no_loopback : bool;
  stats : bool;
  progress_mode : Z;
  max_contexts : Z;
  ip_subnet : option string;
  auth_key : option string;
  max_unexpected_size : Z;
  max_expected_size : Z;
  sm_info_string : option string;
  request_mem_device : bool;
  checksum_level : hg_checksum_level;
  addr_format : na_addr_format
}.

Definition zero_init_info : hg_init_info :=
  HgInitInfo 0 0 false false false false 0 0 None None 0 0 None false HG_CHECKSUM_NONE NA_ADDR_UNSPEC.

(** Classes, contexts and addresses are numbers. *)
Record margo_hg := MargoHg {
  init_info : hg_init_info;
  hg_class : option Z;
  hg_context : option Z;
  self_addr : option Z;
  self_addr_str : option string;
  log_level : option string;
  log_subsys : option string;
  owns_class : bool;
  owns_context : bool
}.
Definition zero_hg : margo_hg := MargoHg zero_init_info None None None None None None false false.

Record margo_hg_user_args := UserArgs {
  protocol : option string;
  listening : bool;
  user_init_info : option hg_init_info;
  user_class : option Z;
  user_context : option Z
}.

(** The calls that change Mercury. *)
Inductive effect :=
  | HG_Init_opt (address : option string) (cls : Z)
  | HG_Context_create (cls ctx : Z)
  | HG_Addr_free (cls addr : Z)
  | HG_Context_destroy (ctx : Z)
  | HG_Finalize (cls : Z)
  | HG_Set_log_level (level : string)
  | HG_Set_log_subsys (subsys : string).

(** ** Validation *)

Definition optional (json_ : option json) (fields : list (string * json_type)) : bool :=
  forallb (fun f => ASSERT_CONFIG_HAS_OPTIONAL json_ f.1 f.2) fields.

Definition enum_or_absent (j : option json) (vals : list string) : bool :=
  match j with None => true | Some _ => CONFIG_IS_IN_ENUM_STRING j vals end.

Definition __margo_hg_validate_json (json_ : option json) : bool :=
  match json_ with
  | None => true
  | Some _ =>
      if negb (json_object_is_type json_ json_type_object) then false else
      optional json_ [("address", json_type_string); ("version", json_type_string); ("listening", json_type_boolean);
        ("request_post_incr", json_type_int); ("request_post_init", json_type_int); ("auto_sm", json_type_boolean);
        ("no_bulk_eager", json_type_boolean); ("no_loopback", json_type_boolean); ("stats", json_type_boolean);
        ("na_no_block", json_type_boolean); ("na_no_retry", json_type_boolean); ("max_contexts", json_type_int);
        ("ip_subnet", json_type_string); ("auth_key", json_type_string); ("input_eager_size", json_type_int);
        ("output_eager_size", json_type_int); ("log_level", json_type_string); ("log_subsys", json_type_string);
        ("na_max_unexpected_size", json_type_int); ("na_max_expected_size", json_type_int); ("sm_info_string", json_type_string);
        ("na_request_mem_device", json_type_boolean); ("checksum_level", json_type_string)]%string &&
      enum_or_absent (json_object_object_get json_ "checksum_level") ["none"; "rpc_headers"; "rpc_payload"]%string &&
      ASSERT_CONFIG_HAS_OPTIONAL json_ "na_addr_format" json_type_string &&
      enum_or_absent (json_object_object_get json_ "na_addr_format") ["unspec"; "ipv4"; "ipv4"; "ipv6"; "native"]%string
  end.

(** ** The authentication key of CXI *)

(** [strchr] on commas. *)
Fixpoint commas (s : string) : nat :=
  match s with EmptyString => O | String c s => if decide (c = ","%char) then S (commas s) else commas s end.

Fixpoint prefix (p s : string) : bool :=
  match p, s with
  | EmptyString, _ => true
  | String c p, String d s => bool_decide (c = d) && prefix p s
  | _, EmptyString => false
  end.
Fixpoint strstr (s p : string) : bool :=
  prefix p s || match s with EmptyString => false | String _ s => strstr s p end.

(** The key, and the three flags. *)
Definition auto_set_cxi_auth_key (protocol : string) (slingshot_vnis : option string) (auth_key : option string) :
  option string * (bool * Z * bool) :=
  if negb (strstr protocol "cxi") then (auth_key, (false, -1, false)) else
  match auth_key with
  | Some _ => (auth_key, (false, -1, true))
  | None =>
      match slingshot_vnis with
      | None => (None, (true, -1, false))
      | Some vni_env =>
          let vni_env_count := (1 + commas vni_env)%nat in
          if (1 <? vni_env_count)%nat then (Some "0:0:1"%string, (true, 1, false)) else (None, (true, -1, false))
      end
  end.

(** ** Initialisation *)

Section Mercury.
(** The conversions to the fields of Mercury that are narrower than 64 bits, and
    the flags of the progress mode. *)
Context (to_post to_contexts : Z -> Z) (NA_NO_BLOCK NA_NO_RETRY : Z).

(** The string of a field; [strdup] of NULL is undefined. *)
Definition strdup_field (json_ : option json) (key : string) : option (option string) :=
  match json_object_object_get json_ key with
  | None => Some None
  | Some j => s ← json_object_get_string (Some j); Some (Some s)
  end.

Definition read_checksum_level (json_ : option json) : option hg_checksum_level :=
  s ← strdup_field json_ "checksum_level";
  Some (match s with
        | None => HG_CHECKSUM_NONE
        | Some s => if bool_decide (s = "rpc_headers"%string) then HG_CHECKSUM_RPC_HEADERS
                    else if bool_decide (s = "rpc_payload"%string) then HG_CHECKSUM_RPC_PAYLOAD
                    else HG_CHECKSUM_NONE
        end).
Definition read_addr_format (json_ : option json) : option na_addr_format :=
  s ← strdup_field json_ "na_addr_format";
  Some (match s with
        | None => NA_ADDR_UNSPEC
        | Some s => if bool_decide (s = "ipv4"%string) then NA_ADDR_IPV4
                    else if bool_decide (s = "ipv6"%string) then NA_ADDR_IPV6
                    else if bool_decide (s = "native"%string) then NA_ADDR_NATIVE
                    else NA_ADDR_UNSPEC
        end).

(** The structure read from JSON, with the logging settings; looking for "cxi" in a
    NULL address is undefined. *)
Definition init_info_from_json (json_ : option json) (protocol : option string) (slingshot_vnis : option string) :
  option (hg_init_info * option string * option string) :=
  let mode := 0 in
  let mode := if json_object_object_get_bool_or json_ "na_no_block" false then Z.lor mode NA_NO_BLOCK else mode in
  let mode := if json_object_object_get_bool_or json_ "na_no_retry" false then Z.lor mode NA_NO_RETRY else mode in
  subnet ← strdup_field json_ "ip_subnet";
  key ← strdup_field json_ "auth_key";
  key ← match key with Some _ => Some key | None => p ← protocol; Some (auto_set_cxi_auth_key p slingshot_vnis None).1 end;
  level ← strdup_field json_ "log_level";
  subsys ← strdup_field json_ "log_subsys";
  sm ← strdup_field json_ "sm_info_string";
  checksum ← read_checksum_level json_;
  format ← read_addr_format json_;
  Some (HgInitInfo
    (to_post (json_object_object_get_uint64_or json_ "request_post_init" 256))
    (to_post (json_object_object_get_uint64_or json_ "request_post_incr" 256))
    (json_object_object_get_bool_or json_ "auto_sm" false)
    (json_object_object_get_bool_or json_ "no_bulk_eager" false)
    (json_object_object_get_bool_or json_ "no_loopback" false)
    (json_object_object_get_bool_or json_ "stats" false)
    mode
    (to_contexts (json_object_object_get_uint64_or json_ "max_contexts" 0))
    subnet key
    (json_object_object_get_uint64_or json_ "na_max_unexpected_size" 0)
    (json_object_object_get_uint64_or json_ "na_max_expected_size" 0)
    sm
    (json_object_object_get_bool_or json_ "na_request_mem_device" false)
    checksum format, level, subsys).

(** What the calls of Mercury return in one run; [plumber] gives the resolved form of
    an address, when Margo is built with mochi-plumber ([Plumber] models it; [None] is
    undefined). *)
Record mercury := Mercury {
  plumber : option (string -> option string);
  new_class : option Z;
  new_context : option Z;
  class_of_context : option Z;
  addr_self : option Z;
  addr_string : option string;
  class_is_listening : bool;
  calloc_works : bool
}.

Definition __margo_hg_destroy (hg : margo_hg) : list effect * margo_hg :=
  (match hg_class hg, self_addr hg with Some c, Some a => [HG_Addr_free c a] | _, _ => [] end ++
   match hg_context hg with Some x => if owns_context hg then [HG_Context_destroy x] else [] | None => [] end ++
   match hg_class hg with Some c => if owns_class hg then [HG_Finalize c] else [] | None => [] end,
   zero_hg).

Definition resolve_address (user : margo_hg_user_args) (w : mercury) : option (option string) :=
  match plumber w with
  | None => Some (protocol user)
  | Some f => p ← protocol user; a ← f p; Some (Some a)
  end.

(** The class: the one of the user, or a new one; [Some None] jumps to [error]. *)
Definition init_class (user : margo_hg_user_args) (w : mercury) (hg : margo_hg) : option (option (list effect * margo_hg)) :=
  match user_class user, user_context user with
  | Some c, None => Some (Some ([], MargoHg (init_info hg) (Some c) (hg_context hg) (self_addr hg) (self_addr_str hg) (log_level hg) (log_subsys hg) (owns_class hg) (owns_context hg)))
  | _, _ =>
      address ← resolve_address user w;
      Some (c ← new_class w;
            Some ([HG_Init_opt address c],
                  MargoHg (init_info hg) (Some c) (hg_context hg) (self_addr hg) (self_addr_str hg) (log_level hg) (log_subsys hg) true false))
  end.

Definition init_context (user : margo_hg_user_args) (w : mercury) (hg : margo_hg) : list effect * margo_hg * bool :=
  match user_context user with
  | Some x =>
      ([], MargoHg (init_info hg) (class_of_context w) (Some x) (self_addr hg) (self_addr_str hg) (log_level hg) (log_subsys hg) (owns_class hg) (owns_context hg),
       bool_decide (is_Some (class_of_context w)))
  | None =>
      match new_context w, hg_class hg with
      | Some x, Some c =>
          ([HG_Context_create c x],
           MargoHg (init_info hg) (Some c) (Some x) (self_addr hg) (self_addr_str hg) (log_level hg) (log_subsys hg) (owns_class hg) true, true)
      | _, _ => ([], hg, false)
      end
  end.

(** Without a string, a client that does not listen gets a buffer of no bytes. *)
Definition init_self_addr (w : mercury) (hg : margo_hg) : margo_hg * bool :=
  match addr_self w with
  | None => (hg, false)
  | Some a =>
      let with_str s := MargoHg (init_info hg) (hg_class hg) (hg_context hg) (Some a) s (log_level hg) (log_subsys hg) (owns_class hg) (owns_context hg) in
      match addr_string w with
      | None => if class_is_listening w then (with_str None, true) else if calloc_works w then (with_str (Some EmptyString), true) else (with_str None, false)
      | Some s => if calloc_works w then (with_str (Some s), true) else (with_str None, false)
      end
  end.

(** The structure was zeroed by the caller.  [None] is undefined, otherwise the effects,
    the structure, and what is returned. *)
Definition __margo_hg_init_from_json (json_ : option json) (slingshot_vnis : option string) (user : margo_hg_user_args) (w : mercury) :
  option (list effect * margo_hg * bool) :=
  hg ← (match user_init_info user, user_class user with
        | Some info, None => Some (MargoHg info None None None None None None false false)
        | _, _ =>
            '(info, level, subsys) ← init_info_from_json json_ (protocol user) slingshot_vnis;
            Some (MargoHg info None None None None level subsys false false)
        end);
  let error e hg := Some (e ++ (__margo_hg_destroy hg).1, (__margo_hg_destroy hg).2, false) in
  made ← init_class user w hg;
  match made with
  | None => error [] hg
  | Some (e1, hg) =>
      let '(e2, hg, ok) := init_context user w hg in
      if negb ok then error (e1 ++ e2) hg else
      let '(hg, ok) := init_self_addr w hg in
      if negb ok then error (e1 ++ e2) hg else
      let level := default "warning"%string (log_level hg) in
      let subsys := default "hg,na"%string (log_subsys hg) in
      Some (e1 ++ e2 ++ [HG_Set_log_level level; HG_Set_log_subsys subsys],
            MargoHg (init_info hg) (hg_class hg) (hg_context hg) (self_addr hg) (self_addr_str hg) (Some level) (Some subsys) (owns_class hg) (owns_context hg), true)
  end.

(** ** JSON *)

Definition add_string (key : string) (s : option string) (l : members) : members :=
  match s with Some s => json_object_object_add_ex key (JString s) l | None => l end.

Definition checksum_level_str (c : hg_checksum_level) : string :=
  match c with HG_CHECKSUM_NONE => "none" | HG_CHECKSUM_RPC_HEADERS => "rpc_headers" | HG_CHECKSUM_RPC_PAYLOAD => "rpc_payload" end%string.
Definition na_addr_format_str (f : na_addr_format) : string :=
  match f with NA_ADDR_UNSPEC => "unspec" | NA_ADDR_IPV4 => "ipv4" | NA_ADDR_IPV6 => "ipv6" | NA_ADDR_NATIVE => "native" end%string.

(** [version], [is_listening] and the sizes are given by Mercury. *)
Definition __margo_hg_to_json (version : string) (is_listening : bool) (input_eager_size output_eager_size : Z) (hg : margo_hg) : json :=
  let info := init_info hg in
  let add key v l := json_object_object_add_ex key v l in
  let j := add "version"%string (JString version) [] in
  let j := add_string "address" (self_addr_str hg) j in
  let j := add "listening"%string (JBool is_listening) j in
  let j := add "input_eager_size"%string (json_object_new_uint64 input_eager_size) j in
  let j := add "output_eager_size"%string (json_object_new_uint64 output_eager_size) j in
  if negb (owns_class hg) then JObject j else
  let j := add "request_post_init"%string (json_object_new_uint64 (request_post_init info)) j in
  let j := add "request_post_incr"%string (json_object_new_uint64 (request_post_incr info)) j in
  let j := add "auto_sm"%string (JBool (auto_sm info)) j in
  let j := add "no_bulk_eager"%string (JBool (no_bulk_eager info)) j in
  let j := add "no_loopback"%string (JBool (no_loopback info)) j in
  let j := add "stats"%string (JBool (stats info)) j in
  let j := add "na_no_block"%string (JBool (negb (Z.land (progress_mode info) NA_NO_BLOCK =? 0))) j in
  let j := add "na_no_retry"%string (JBool (negb (Z.land (progress_mode info) NA_NO_RETRY =? 0))) j in
  let j := add "max_contexts"%string (json_object_new_uint64 (max_contexts info)) j in
  let j := add_string "ip_subnet" (ip_subnet info) j in
  let j := add_string "auth_key" (auth_key info) j in
  let j := add_string "log_level" (log_level hg) j in
  let j := add_string "log_subsys" (log_subsys hg) j in
  let j := add "na_max_unexpected_size"%string (json_object_new_uint64 (max_unexpected_size info)) j in
  let j := add "na_max_expected_size"%string (json_object_new_uint64 (max_expected_size info)) j in
  let j := add_string "sm_info_string" (sm_info_string info) j in
  let j := add "na_request_mem_device"%string (JBool (request_mem_device info)) j in
  let j := add "checksum_level"%string (JString (checksum_level_str (checksum_level info))) j in
  JObject (add "na_addr_format"%string (JString (na_addr_format_str (addr_format info))) j).
End Mercury.

(** ** Validation *)

Lemma optional_all j fields key t : optional j fields = true -> (key, t) ∈ fields -> ASSERT_CONFIG_HAS_OPTIONAL j key t = true.
Proof. unfold optional. rewrite forallb_forall. intros H Hin. apply list_elem_of_In in Hin. apply (H _ Hin). Qed.

Lemma strdup_defined j key : ASSERT_CONFIG_HAS_OPTIONAL j key json_type_string = true -> is_Some (strdup_field j key).
Proof.
  unfold ASSERT_CONFIG_HAS_OPTIONAL, strdup_field. destruct (json_object_object_get j key) as [[]|]; try done; by eexists.
Qed.

Lemma validated_strings j key : __margo_hg_validate_json j = true ->
  key ∈ ["ip_subnet"; "auth_key"; "log_level"; "log_subsys"; "sm_info_string"; "checksum_level"; "na_addr_format"]%string ->
  is_Some (strdup_field j key).
Proof.
  destruct j as [j|]; [|intros _ _; by exists None]. unfold __margo_hg_validate_json.
  destruct (json_object_is_type (Some j) json_type_object); [|done]. cbn [negb]. rewrite !andb_true_iff. intros [[[Ho _] Hf] _] Hk. apply strdup_defined.
  assert (key = "na_addr_format"%string \/ key ≠ "na_addr_format"%string) as [->|Hne] by (destruct (decide (key = "na_addr_format"%string)); auto); [done|].
  apply (optional_all _ _ _ _ Ho). set_solver.
Qed.


(** ** Round trip *)

(** The members that are not null. *)
Definition drop_null (l : list (string * option json)) : list (string * option json) := filter (fun e => is_Some e.2) l.

Lemma assoc_none l key : key ∉ l.*1 -> assoc l key = None.
Proof.
  induction l as [|[k v] l IH]; [done|]. cbn [assoc fmap list_fmap fst]. intros H%not_elem_of_cons. destruct H as [Hk Hl].
  rewrite bool_decide_false by done. by apply IH.
Qed.

Lemma assoc_drop_null l key : NoDup l.*1 -> assoc (drop_null l) key = assoc l key.
Proof.
  unfold drop_null. induction l as [|[k v] l IH]; [done|]. intros [Hk Hl]%NoDup_cons. rewrite filter_cons. cbn [assoc fst snd] in *.
  destruct (decide (k = key)) as [->|Hne].
  - rewrite (bool_decide_true (key = key)) by done. destruct v as [v|].
    + rewrite decide_True by eauto. cbn [assoc]. by rewrite bool_decide_true.
    + rewrite decide_False by (by intros []). rewrite IH by done. by apply assoc_none.
  - rewrite (bool_decide_false (k = key)) by done. destruct (decide _); [cbn [assoc]; rewrite bool_decide_false by done|]; by apply IH.
Qed.

Definition hg_members (nb nr : Z) (version : string) (listens : bool) (i o : Z) (hg : margo_hg) : members :=
  let info := init_info hg in
  [("version", Some (JString version)); ("address", JString <$> self_addr_str hg); ("listening", Some (JBool listens));
   ("input_eager_size", Some (JInt i)); ("output_eager_size", Some (JInt o));
   ("request_post_init", Some (JInt (request_post_init info))); ("request_post_incr", Some (JInt (request_post_incr info)));
   ("auto_sm", Some (JBool (auto_sm info))); ("no_bulk_eager", Some (JBool (no_bulk_eager info)));
   ("no_loopback", Some (JBool (no_loopback info))); ("stats", Some (JBool (stats info)));
   ("na_no_block", Some (JBool (negb (Z.land (progress_mode info) nb =? 0)%Z))); ("na_no_retry", Some (JBool (negb (Z.land (progress_mode info) nr =? 0)%Z)));
   ("max_contexts", Some (JInt (max_contexts info))); ("ip_subnet", JString <$> ip_subnet info); ("auth_key", JString <$> auth_key info);
   ("log_level", JString <$> log_level hg); ("log_subsys", JString <$> log_subsys hg);
   ("na_max_unexpected_size", Some (JInt (max_unexpected_size info))); ("na_max_expected_size", Some (JInt (max_expected_size info)));
   ("sm_info_string", JString <$> sm_info_string info); ("na_request_mem_device", Some (JBool (request_mem_device info)));
   ("checksum_level", Some (JString (checksum_level_str (checksum_level info)))); ("na_addr_format", Some (JString (na_addr_format_str (addr_format info))))]%string.

Definition hg_keys : list string := (hg_members 0 0 "" false 0 0 zero_hg).*1.
Lemma hg_keys_nodup : NoDup hg_keys.
Proof. apply (bool_decide_unpack (NoDup hg_keys)). vm_compute. exact I. Qed.

Lemma hg_json_get nb nr version listens i o hg key : owns_class hg = true ->
  json_object_object_get (Some (__margo_hg_to_json nb nr version listens i o hg)) key = assoc (hg_members nb nr version listens i o hg) key.
Proof.
  intros Ho. rewrite <- assoc_drop_null by exact hg_keys_nodup.
  unfold __margo_hg_to_json. rewrite Ho. cbn [negb json_object_object_get]. f_equal. unfold hg_members, add_string.
  destruct hg as [[] ? ? ? sa ll ls ? ?]. cbn [init_info self_addr_str log_level log_subsys ip_subnet auth_key sm_info_string].
  destruct sa, ip_subnet0, auth_key0, ll, ls, sm_info_string0; reflexivity.
Qed.

Lemma assoc_member l key v : NoDup l.*1 -> (key, v) ∈ l -> assoc l key = v.
Proof.
  induction l as [|[k w] l IH]; [set_solver|]. cbn [fmap list_fmap fst assoc]. intros [Hk Hl]%NoDup_cons [Heq|Hin]%elem_of_cons.
  - injection Heq as <- <-. by rewrite bool_decide_true.
  - rewrite bool_decide_false; [by apply IH|]. intros <-. apply Hk, list_elem_of_fmap. by exists (k, v).
Qed.

Lemma hg_json_fields nb nr version listens i o hg : owns_class hg = true ->
  Forall (fun e => json_object_object_get (Some (__margo_hg_to_json nb nr version listens i o hg)) e.1 = e.2) (hg_members nb nr version listens i o hg).
Proof.
  intros Ho. apply Forall_forall. intros [k v] Hin. cbn [fst snd]. rewrite hg_json_get by done. apply assoc_member; [exact hg_keys_nodup|done].
Qed.

Lemma hg_json_object nb nr version listens i o hg : json_object_is_type (Some (__margo_hg_to_json nb nr version listens i o hg)) json_type_object = true.
Proof. unfold __margo_hg_to_json. by destruct (owns_class hg). Qed.

Lemma mode_bits nb nr m : Z.land nb nr = 0 -> nb ≠ 0 -> nr ≠ 0 -> m ∈ [0; nb; nr; Z.lor nb nr] ->
  (let mode := if negb (Z.land m nb =? 0) then Z.lor 0 nb else 0 in if negb (Z.land m nr =? 0) then Z.lor mode nr else mode) = m.
Proof.
  intros Hd Hb Hr Hm. assert (Z.land nr nb = 0) as Hd' by (by rewrite Z.land_comm).
  assert (Z.land nb nb = nb /\ Z.land nr nr = nr) as [Hbb Hrr] by (by rewrite !Z.land_diag).
  repeat (apply elem_of_cons in Hm as [->|Hm]); [| | | |by apply elem_of_nil in Hm]; cbv zeta;
    rewrite ?Z.land_0_l, ?Z.land_lor_distr_l, ?Hd, ?Hd', ?Hbb, ?Hrr, ?Z.lor_0_r, ?Z.lor_0_l; simpl (0 =? 0);
    rewrite ?(proj2 (Z.eqb_neq nb 0)), ?(proj2 (Z.eqb_neq nr 0)) by done; done.
Qed.

Lemma hg_json_valid nb nr version listens i o hg : owns_class hg = true ->
  __margo_hg_validate_json (Some (__margo_hg_to_json nb nr version listens i o hg)) = true.
Proof.
  intros Ho. pose proof (hg_json_fields nb nr version listens i o hg Ho) as Hget.
  pose proof (hg_json_object nb nr version listens i o hg) as Hobj. set (j := __margo_hg_to_json _ _ _ _ _ _ hg) in *. clearbody j.
  unfold hg_members in Hget. repeat (apply Forall_cons in Hget as [? Hget]). cbn [fst snd] in *.
  unfold __margo_hg_validate_json. rewrite Hobj. unfold optional, ASSERT_CONFIG_HAS_OPTIONAL, enum_or_absent. cbn [forallb fst snd negb].
  repeat match goal with H : json_object_object_get _ _ = _ |- _ => rewrite !H; clear H end.
  destruct hg as [[] ? ? ? sa ll ls ? ?]. cbn [init_info ip_subnet auth_key sm_info_string self_addr_str log_level log_subsys checksum_level addr_format].
  repeat match goal with |- _ && _ = true => apply andb_true_iff; split end;
    first [reflexivity | by destruct sa | by destruct ip_subnet0 | by destruct auth_key0 | by destruct ll | by destruct ls | by destruct sm_info_string0
          | by destruct checksum_level0 | by destruct addr_format0].
Qed.

(** The JSON form of a configuration that Margo gave to Mercury is accepted by
    the validation and gives the same configuration back (the integers being in
    the range of their fields, and no authentication key being invented from the
    environment). *)
Theorem hg_config_roundtrip to_post to_contexts nb nr version listens i o p vnis hg :
  let info := init_info hg in
  let json := Some (__margo_hg_to_json nb nr version listens i o hg) in
  owns_class hg = true ->
  to_post (request_post_init info) = request_post_init info -> to_post (request_post_incr info) = request_post_incr info ->
  to_contexts (max_contexts info) = max_contexts info ->
  Forall (fun n => 0 <= n) [request_post_init info; request_post_incr info; max_contexts info; max_unexpected_size info; max_expected_size info] ->
  Z.land nb nr = 0 -> nb ≠ 0 -> nr ≠ 0 -> progress_mode info ∈ [0; nb; nr; Z.lor nb nr] ->
  (auth_key info = None -> exists s, p = Some s /\ strstr s "cxi" = false) ->
  __margo_hg_validate_json json = true /\
  init_info_from_json to_post to_contexts nb nr json p vnis = Some (info, log_level hg, log_subsys hg).
Proof.
  intros info json Ho H1 H2 H3 Hn Hd Hb Hr Hm Hk.
  pose proof (hg_json_fields nb nr version listens i o hg Ho) as Hget. fold json in Hget.
  assert (__margo_hg_validate_json json = true) as Hvalid by (by apply hg_json_valid).
  pose proof (mode_bits nb nr _ Hd Hb Hr Hm) as Hmode. unfold info in *. clear Hm info.
  rewrite !Forall_cons in Hn. destruct Hn as (N1 & N2 & N3 & N4 & N5 & _).
  assert (exists j, json = Some j) as [j Hj] by (by eexists). clearbody json. subst json. unfold hg_members in Hget.
  repeat (apply Forall_cons in Hget as [? Hget]). cbn [fst snd] in *.
  split.
  - exact Hvalid.
  - unfold init_info_from_json, read_checksum_level, read_addr_format, strdup_field, json_object_object_get_bool_or, json_object_object_get_uint64_or.
    repeat match goal with H : json_object_object_get _ _ = _ |- _ => rewrite !H; clear H end.
    assert (forall o, match JString <$> o with Some j => s ← json_object_get_string (Some j); Some (Some s) | None => Some None end = Some o) as Hs
      by (by intros []).
    rewrite !Hs. clear Hs. destruct hg as [[] ? ? ? sa ll ls ? ?].
    cbn [init_info owns_class request_post_init request_post_incr max_contexts max_unexpected_size max_expected_size progress_mode auth_key log_level log_subsys
      mbind option_bind json_object_get_string json_object_is_type json_object_get_type] in *.
    rewrite !bool_decide_true by done. rewrite Hmode.
    unfold json_object_get_uint64. cbn [json_object_get_int64]. rewrite !Z.max_r by done. rewrite H1, H2, H3.
    assert (match auth_key0 with Some _ => Some auth_key0 | None => p ← p; Some (auto_set_cxi_auth_key p vnis None).1 end = Some auth_key0) as ->.
    { destruct auth_key0; [done|]. destruct Hk as (s & -> & Hs); [done|]. unfold auto_set_cxi_auth_key. cbn [mbind option_bind]. by rewrite Hs. }
    by destruct checksum_level0, addr_format0.
Qed.

(** ** Ownership *)

Definition made (l : list effect) : list Z := omap (fun e => match e with HG_Init_opt _ c => Some c | _ => None end) l.
Definition finalized (l : list effect) : list Z := omap (fun e => match e with HG_Finalize c => Some c | _ => None end) l.
Definition contexts_made (l : list effect) : list Z := omap (fun e => match e with HG_Context_create _ x => Some x | _ => None end) l.
Definition contexts_destroyed (l : list effect) : list Z := omap (fun e => match e with HG_Context_destroy x => Some x | _ => None end) l.

(** What a sequence of effects made is destroyed by another one that follows it. *)
Definition settled (e e' : list effect) : Prop :=
  made (e ++ e') = finalized (e ++ e') /\ contexts_made (e ++ e') = contexts_destroyed (e ++ e').

Lemma init_settled to_post to_contexts nb nr j vnis user w e hg ok : user_context user = None ->
  __margo_hg_init_from_json to_post to_contexts nb nr j vnis user w = Some (e, hg, ok) -> settled e (__margo_hg_destroy hg).1.
Proof.
  intros Hu. unfold __margo_hg_init_from_json. intros (hg0 & Hg & Hi)%bind_Some.
  assert (exists info level subsys, hg0 = MargoHg info None None None None level subsys false false) as (info & level & subsys & ->).
  { destruct (user_init_info user), (user_class user); try (apply bind_Some in Hg as ([[info level] subsys] & _ & [= <-]); eauto); injection Hg as <-; eauto. }
  clear Hg. revert Hi. unfold init_class, init_context. rewrite Hu.
  destruct (user_class user) as [uc|]; [|destruct (resolve_address user w), (new_class w) as [nc|]; simpl; try done; try by intros [= <- <- <-]].
  all: destruct (new_context w) as [nx|]; simpl; [|by intros [= <- <- <-]].
  all: unfold init_self_addr; destruct (addr_self w) as [ad|]; simpl; [|by intros [= <- <- <-]].
  all: destruct (addr_string w), (class_is_listening w), (calloc_works w); simpl; by intros [= <- <- <-].
Qed.

(** The initialisation, and the destruction that follows when it succeeds. *)
Definition life (to_post to_contexts : Z -> Z) (nb nr : Z) (json_ : option json) (vnis : option string) (user : margo_hg_user_args) (w : mercury) :
  option (list effect) :=
  '(e, hg, ok) ← __margo_hg_init_from_json to_post to_contexts nb nr json_ vnis user w;
  Some (if ok : bool then e ++ (__margo_hg_destroy hg).1 else e).

(** Without a context of the user, the class and the context that Margo made,
    and only these, are destroyed in the end or by the error path, whatever
    Mercury answers; with a context of the user, the class Margo made is never
    finalized, and the one of the user's context is. *)
Theorem hg_ownership to_post to_contexts nb nr j vnis user w e :
  life to_post to_contexts nb nr j vnis user w = Some e ->
  contexts_made e = contexts_destroyed e /\
  (user_context user = None -> made e = finalized e /\ (is_Some (user_class user) -> made e = [])) /\
  (forall x c c', user_context user = Some x -> new_class w = Some c -> class_of_context w = Some c' ->
     made e = [c] /\ finalized e = [c']).
Proof.
  unfold life, __margo_hg_init_from_json. intros ([[e0 hg] ok] & (hg0 & Hg & Hi)%bind_Some & [= <-])%bind_Some.
  assert (exists info level subsys, hg0 = MargoHg info None None None None level subsys false false) as (info & level & subsys & ->).
  { destruct (user_init_info user), (user_class user); try (apply bind_Some in Hg as ([[info level] subsys] & _ & [= <-]); eauto); injection Hg as <-; eauto. }
  clear Hg. revert Hi. unfold init_class, init_context, init_self_addr, contexts_made, contexts_destroyed, made, finalized.
  destruct (user_class user) as [uc|], (user_context user) as [ux|], (resolve_address user w), (new_class w) as [nc|]; simpl; try done;
    try destruct (class_of_context w) as [cc|]; try destruct (new_context w) as [nx|]; simpl;
    try destruct (addr_self w) as [ad|]; simpl; try destruct (addr_string w); simpl; try destruct (class_is_listening w); simpl;
    try destruct (calloc_works w); simpl; intros [= <- <- <-]; simpl; (split; [reflexivity|]); split;
    try (intros ?; done); try (intros _; split; [reflexivity|by intros []]); intros ??????; simplify_eq; try done.
Qed.

(** ** Examples *)

Definition demo_user (cls ctx : option Z) : margo_hg_user_args := UserArgs (Some "ofi+tcp"%string) true None cls ctx.
Definition demo_mercury : mercury := Mercury None (Some 1) (Some 2) (Some 7) (Some 3) (Some "ofi+tcp://a"%string) true true.
Definition demo_section : option json := Some (JObject [("auto_sm", Some (JBool true)); ("checksum_level", Some (JString "rpc_headers"))]%string).


Definition demo_hg : margo_hg :=
  MargoHg (HgInitInfo 256 256 true false false false 3 0 (Some "10.0.0.0"%string) None 0 4096 None true HG_CHECKSUM_RPC_PAYLOAD NA_ADDR_IPV6)
    (Some 1) (Some 2) (Some 3) None (Some "warning"%string) (Some "hg,na"%string) true true.

Lemma hg_config_roundtrip_witness :
  init_info_from_json u32 u8 1 2 (Some (__margo_hg_to_json 1 2 "2.4.0" true 4080 4080 demo_hg)) (Some "ofi+tcp"%string) None =
    Some (init_info demo_hg, Some "warning"%string, Some "hg,na"%string).
Proof.
  apply (hg_config_roundtrip u32 u8 1 2 "2.4.0" true 4080 4080 (Some "ofi+tcp"%string) None demo_hg);
    [reflexivity|reflexivity|reflexivity|reflexivity|simpl; repeat constructor; lia|reflexivity|lia|lia|simpl; set_solver|]. intros _. by eexists.
Defined.

(** With a context of the user, class 1 is lost and class 7 is finalized. *)
Lemma hg_ownership_witness : exists e, life u32 u8 1 2 None None (demo_user None (Some 9)) demo_mercury = Some e /\ made e = [1] /\ finalized e = [7].
Proof.
  assert (He : exists e, life u32 u8 1 2 None None (demo_user None (Some 9)) demo_mercury = Some e) by (eexists; vm_compute; reflexivity).
  destruct He as [e He]. exists e. split; [exact He|].
  destruct (hg_ownership u32 u8 1 2 None None (demo_user None (Some 9)) demo_mercury e He) as (_ & _ & H). exact (H 9 1 7 eq_refl eq_refl eq_refl).
Defined.
