(* ===== verification/Plumber.v ===== *)
(** * Selection of network interfaces (src/mochi-plumber.c)

    The resolution of an address to one network card of the machine: the
    distribution of the cards into buckets, and the policies that choose one.
    What hwloc, libfabric and the system answer are parameters, the token files
    of the round robin policy are explicit state; undefined behaviour (a NULL
    package, an overflow, a read out of bounds) is [None]. *)

From Stdlib Require Import Ascii.
From stdpp Require Import strings list.
From S2P Require Import Prelude HgConfig.

#[local] Open Scope Z_scope.

(** ** Data *)

(** The PCI device of a card in the topology: the first node of its first ancestor
    that is not I/O (-1 without one), and the index of its package, if any. *)
Record pci_device := PciDevice { node : Z; package : option Z }.
(** A card libfabric lists; [on_pci] tells that it has PCI attributes. *)
Record fi_info := FiInfo { domain_name : string; on_pci : bool; pcidev : option pci_device }.
(** Where the thread last ran: its first node, its package, and its first CPU. *)
Record location := Location { last_node : Z; last_package : option Z; last_cpu : Z }.

Inductive obj_type := HWLOC_OBJ_PACKAGE | HWLOC_OBJ_OTHER.
#[export] Instance obj_type_eq_dec : EqDecision obj_type.
Proof. solve_decision. Defined.

Record machine := Machine {
  nodeset_weight : Z;
  root_children : list obj_type;
  fi_getinfo : Z * list fi_info;
  get_last_cpu_location : option location;
  cpubind_first : option Z;
  rand : Z
}.

(** The number stored in the token file of each bucket, and whether the files can be
    used. *)
Record tokens := Tokens { stored : gmap Z Z; usable : bool }.

(** ** Addresses *)

Fixpoint last_two (s : string) : option (ascii * ascii) :=
  match s with
  | String a (String b EmptyString) => Some (a, b)
  | String _ s => last_two s
  | EmptyString => None
  end.

Definition canonicalize_addr_string (in_address : string) : string :=
  if strstr in_address "://" then in_address else (in_address +:+ "://")%string.

(** ** Buckets *)

Fixpoint count_packages (children : list obj_type) : Z :=
  match children with
  | [] => 0
  | t :: children => (if decide (t = HWLOC_OBJ_PACKAGE) then 1 else 0) + count_packages children
  end.

Definition num_buckets (m : machine) (bucket_policy : string) : option Z :=
  if bool_decide (bucket_policy = "all"%string) then Some 1
  else if bool_decide (bucket_policy = "numa"%string) then Some (nodeset_weight m)
  else if bool_decide (bucket_policy = "package"%string) then Some (count_packages (root_children m))
  else None.

(** The bucket of a card; the outer option is undefined behaviour.  With another
    policy the index of the card before is kept, but then there is one bucket. *)
Definition bucket_of (bucket_policy : string) (nbuckets before : Z) (d : pci_device) : option Z :=
  if nbuckets =? 1 then Some 0
  else if bool_decide (bucket_policy = "numa"%string) then Some (node d)
  else if bool_decide (bucket_policy = "package"%string) then package d
  else Some before.

(** The result of a function: undefined, an error, or a value. *)
Inductive result (A : Type) := Undefined | Error | Ok (a : A).
#[global] Arguments Undefined {A}.
#[global] Arguments Error {A}.
#[global] Arguments Ok {A} _.

Fixpoint assign_loop (bucket_policy : string) (nbuckets bucket_idx : Z) (infos : list fi_info) (buckets : list (list string)) : result (list (list string)) :=
  match infos with
  | [] => Ok buckets
  | cur :: infos =>
      if negb (on_pci cur) then assign_loop bucket_policy nbuckets bucket_idx infos buckets else
      match pcidev cur with
      | None => Error
      | Some d =>
          match bucket_of bucket_policy nbuckets bucket_idx d with
          | None => Undefined
          | Some bucket_idx =>
              if (bucket_idx <? 0) || (nbuckets <=? bucket_idx) then Error
              else assign_loop bucket_policy nbuckets bucket_idx infos (alter (fun b => b ++ [domain_name cur]) (Z.to_nat bucket_idx) buckets)
          end
      end
  end.

(** Memory is not exhausted, but a negative size (hwloc's weight of an infinite set)
    is too large.  The caller takes a positive error of libfabric for a success, with
    the buckets freed. *)
Definition setup_buckets (m : machine) (bucket_policy : string) : result (list (list string)) :=
  match num_buckets m bucket_policy with
  | None => Error
  | Some nbuckets =>
      let '(ret, info) := fi_getinfo m in
      if nbuckets <? 0 then Error
      else if negb (ret =? 0) then (if ret <? 0 then Error else Undefined)
      else assign_loop bucket_policy nbuckets 0 info (replicate (Z.to_nat nbuckets) [])
  end.

(** ** Selection *)

Definition nic_at (bucket : list string) (i : Z) : result string :=
  if i <? 0 then Undefined else match bucket !! Z.to_nat i with Some n => Ok n | None => Undefined end.

Definition select_nic_roundrobin (bucket_idx : Z) (bucket : list string) (t : tokens) : result string * tokens :=
  let num_nics := Z.of_nat (length bucket) in
  if num_nics <=? 0 then (Error, t) else
  if negb (usable t) then (Error, t) else
  let nic_idx := default (-1) (stored t !! bucket_idx) in
  let nic_idx := if nic_idx <? 0 then -1 else nic_idx in
  if nic_idx =? 2 ^ 31 - 1 then (Undefined, t) else
  let nic_idx := Z.rem (nic_idx + 1) num_nics in
  (nic_at bucket nic_idx, Tokens (<[bucket_idx := nic_idx]> (stored t)) true).

Definition select_nic_random (m : machine) (bucket : list string) : result string :=
  let num_nics := Z.of_nat (length bucket) in
  if num_nics <=? 0 then Error else nic_at bucket (Z.rem (rand m) num_nics).

Definition select_nic_bycore (m : machine) (bucket : list string) : result string :=
  let num_nics := Z.of_nat (length bucket) in
  if num_nics <=? 0 then Error else
  match get_last_cpu_location m with
  | None => Error
  | Some l => if last_cpu l <? 0 then Error else nic_at bucket (Z.rem (last_cpu l) num_nics)
  end.

Definition select_nic_byset (m : machine) (bucket : list string) : result string :=
  let num_nics := Z.of_nat (length bucket) in
  if num_nics <=? 0 then Error else
  match cpubind_first m with
  | None => Error
  | Some first => if first <? 0 then Error else nic_at bucket (Z.rem first num_nics)
  end.

Definition in_range (idx nbuckets : Z) : result Z := if (idx <? 0) || (nbuckets <=? idx) then Error else Ok idx.

Definition choose_bucket (m : machine) (bucket_policy : string) (nbuckets : Z) : result Z :=
  if nbuckets =? 1 then Ok 0
  else if bool_decide (bucket_policy = "numa"%string) then
    match get_last_cpu_location m with None => Error | Some l => in_range (last_node l) nbuckets end
  else if bool_decide (bucket_policy = "package"%string) then
    match get_last_cpu_location m with
    | None => Error
    | Some l => match last_package l with None => Undefined | Some i => in_range i nbuckets end
    end
  else Error.

Definition select_nic (m : machine) (bucket_policy nic_policy : string) (buckets : list (list string)) (t : tokens) : result string * tokens :=
  match choose_bucket m bucket_policy (Z.of_nat (length buckets)) with
  | Undefined => (Undefined, t)
  | Error => (Error, t)
  | Ok bucket_idx =>
      match buckets !! Z.to_nat bucket_idx with
      | None => (Undefined, t)
      | Some bucket =>
          if (length bucket =? 1)%nat then (nic_at bucket 0, t)
          else if bool_decide (nic_policy = "roundrobin"%string) then select_nic_roundrobin bucket_idx bucket t
          else if bool_decide (nic_policy = "random"%string) then (select_nic_random m bucket, t)
          else if bool_decide (nic_policy = "bycore"%string) then (select_nic_bycore m bucket, t)
          else if bool_decide (nic_policy = "byset"%string) then (select_nic_byset m bucket, t)
          else (Error, t)
      end
  end.

(** The address that is returned; without memory shortage there is always one. *)
Definition mochi_plumber_resolve_nic (m : machine) (in_address bucket_policy nic_policy : string) (t : tokens) : option string * tokens :=
  let canon := canonicalize_addr_string in_address in
  if bool_decide (nic_policy = "passthrough"%string) || bool_decide (bucket_policy = "passthrough"%string) then (Some canon, t) else
  if negb (prefix "cxi" canon) && negb (prefix "ofi+cxi" canon) then (Some canon, t) else
  match last_two canon with
  | None => (None, t)
  | Some (a, b) =>
      if negb (bool_decide (b = "/"%char)) || negb (bool_decide (a = "/"%char)) then (Some canon, t) else
      match setup_buckets m bucket_policy with
      | Undefined => (None, t)
      | Error => (Some canon, t)
      | Ok buckets =>
          if existsb (fun b => (length b <? 1)%nat) buckets then (Some canon, t) else
          match select_nic m bucket_policy nic_policy buckets t with
          | (Undefined, t) => (None, t)
          | (Error, t) => (Some canon, t)
          | (Ok nic, t) => (Some (canon +:+ nic)%string, t)
          end
      end
  end.

(** ** Distribution *)

(** The cards of a bucket, [before] being irrelevant for the three policies. *)
Definition card_in (bucket_policy : string) (nbuckets i : Z) (c : fi_info) : Prop :=
  on_pci c = true /\ exists d, pcidev c = Some d /\ bucket_of bucket_policy nbuckets 0 d = Some i.
#[global] Instance card_in_dec p n i c : Decision (card_in p n i c).
Proof.
  unfold card_in. destruct (on_pci c); [|by right; intros []]. destruct (pcidev c) as [d|]; [|right; by intros (_ & d & ? & _)].
  destruct (decide (bucket_of p n 0 d = Some i)) as [H|H]; [left; eauto|right; intros (_ & d' & [= <-] & Hd); done].
Defined.

Lemma bucket_of_before p n before d : n = 1 \/ p = "numa"%string \/ p = "package"%string -> bucket_of p n before d = bucket_of p n 0 d.
Proof. intros [-> | [-> | ->]]; unfold bucket_of; [done| |]; by destruct (n =? 1). Qed.

Lemma assign_loop_spec p n idx infos bs r : n = 1 \/ p = "numa"%string \/ p = "package"%string -> n = Z.of_nat (length bs) ->
  assign_loop p n idx infos bs = Ok r ->
  length r = length bs /\
  forall i b, bs !! i = Some b -> r !! i = Some (b ++ map domain_name (filter (card_in p n (Z.of_nat i)) infos)).
Proof.
  intros Hp. revert idx bs. induction infos as [|c infos IH]; intros idx bs Hn; cbn [assign_loop].
  - intros [= <-]. split; [done|]. intros i b Hb. by rewrite app_nil_r.
  - destruct (on_pci c) eqn:Hc; cbn [negb].
    2: { intros [Hl Hr]%IH; [|done]. split; [done|]. intros i b Hb. rewrite filter_cons, decide_False by (intros []; congruence). by apply Hr. }
    destruct (pcidev c) as [d|] eqn:Hd; [|done]. rewrite bucket_of_before by done. destruct (bucket_of p n 0 d) as [j|] eqn:Hj; [|done].
    destruct ((j <? 0) || (n <=? j)) eqn:Hrange; [done|]. apply orb_false_iff in Hrange as [Hj0 Hjn].
    intros [Hl Hr]%IH; [|by rewrite length_alter]. rewrite length_alter in Hl. split; [done|]. intros i b Hb. rewrite filter_cons.
    destruct (decide (Z.to_nat j = i)) as [<-|Hne].
    + rewrite decide_True by (split; [done|]; exists d; split; [done|]; rewrite Z2Nat.id by lia; done).
      rewrite (Hr (Z.to_nat j) (b ++ [domain_name c])) by (by rewrite list_lookup_alter_eq, Hb). cbn [map]. by rewrite <- app_assoc.
    + rewrite decide_False. 2: { intros (_ & d' & Hd' & Hi). rewrite Hd in Hd'. injection Hd' as <-. rewrite Hj in Hi. injection Hi as ->. lia. }
      rewrite (Hr i b); [done|]. by rewrite list_lookup_alter_ne.
Qed.

Lemma setup_buckets_runs m p buckets : setup_buckets m p = Ok buckets -> exists n, num_buckets m p = Some n /\ 0 <= n /\
  assign_loop p n 0 (fi_getinfo m).2 (replicate (Z.to_nat n) []) = Ok buckets.
Proof.
  unfold setup_buckets. destruct (num_buckets m p) as [n|]; [|done]. destruct (fi_getinfo m) as [ret info]. cbn [snd].
  destruct (Z.ltb_spec n 0); [done|]. destruct (ret =? 0); [|by cbn; destruct (ret <? 0)]. by exists n.
Qed.

Lemma concat_alter_snoc (x : string) i bs : (i < length bs)%nat -> concat (alter (fun b => b ++ [x]) i bs) ≡ₚ x :: concat bs.
Proof.
  revert i. induction bs as [|b bs IH]; intros [|i] Hi; simpl in *; [lia|lia| |].
  - rewrite <- app_assoc. simpl. by rewrite <- Permutation_middle.
  - change (b ++ concat (alter (fun b => b ++ [x]) i bs) ≡ₚ x :: b ++ concat bs). rewrite IH by lia. by rewrite Permutation_middle.
Qed.

Lemma assign_loop_cards p n idx infos bs r : n = Z.of_nat (length bs) -> assign_loop p n idx infos bs = Ok r ->
  concat r ≡ₚ map domain_name (filter (fun c => on_pci c = true) infos) ++ concat bs.
Proof.
  revert idx bs. induction infos as [|c infos IH]; intros idx bs Hn; cbn [assign_loop]; [by intros [= <-]|].
  rewrite filter_cons. destruct (on_pci c); cbn [negb]; [|by apply IH]. rewrite decide_True by done.
  destruct (pcidev c) as [d|]; [|done]. destruct (bucket_of p n idx d) as [j|]; [|done].
  destruct (_ || _) eqn:Hrange; [done|]. apply orb_false_iff in Hrange as [??].
  intros ->%IH; [|by rewrite length_alter]. rewrite concat_alter_snoc by lia. cbn [map app]. by rewrite Permutation_middle.
Qed.

(** The buckets hold exactly the PCI cards that libfabric lists, each once, in the
    bucket of its node or package and in the order of the list; there are as many
    buckets as the policy says. *)
Theorem setup_buckets_exact m p buckets : setup_buckets m p = Ok buckets ->
  num_buckets m p = Some (Z.of_nat (length buckets)) /\
  (forall i b, buckets !! i = Some b ->
    b = map domain_name (filter (card_in p (Z.of_nat (length buckets)) (Z.of_nat i)) (fi_getinfo m).2)) /\
  concat buckets ≡ₚ map domain_name (filter (fun c => on_pci c = true) (fi_getinfo m).2).
Proof.
  intros (n & Hn & Hn0 & Ha)%setup_buckets_runs.
  assert (n = 1 \/ p = "numa"%string \/ p = "package"%string) as Hp.
  { unfold num_buckets in Hn. repeat case_bool_decide; simplify_eq; auto. }
  assert (n = Z.of_nat (length (replicate (Z.to_nat n) ([] : list string)))) as Hlen by (rewrite length_replicate; lia).
  destruct (assign_loop_spec p n 0 _ _ buckets Hp Hlen Ha) as [Hl Hr]. rewrite Hl, <- Hlen. split; [done|]. split.
  - intros i b Hb. assert (i < Z.to_nat n)%nat by (apply lookup_lt_Some in Hb; lia).
    rewrite (Hr i []) in Hb by (by apply lookup_replicate_2). by injection Hb as <-.
  - rewrite (assign_loop_cards _ _ _ _ _ _ Hlen Ha). clear. induction (Z.to_nat n) as [|k IH]; [by rewrite app_nil_r|done].
Qed.

(** Four cards on two packages, one of the cards not on PCI. *)
Definition two_sockets := Machine 4 [HWLOC_OBJ_PACKAGE; HWLOC_OBJ_OTHER; HWLOC_OBJ_PACKAGE]
  (0, [FiInfo "cxi0" true (Some (PciDevice 1 (Some 0))); FiInfo "lo" false None;
       FiInfo "cxi1" true (Some (PciDevice 2 (Some 1))); FiInfo "cxi2" true (Some (PciDevice 3 (Some 1)))]%string)
  (Some (Location 2 (Some 1) 5)) (Some 3) 7.

Lemma setup_buckets_exact_witness : setup_buckets two_sockets "package" = Ok [["cxi0"]; ["cxi1"; "cxi2"]]%string /\
  num_buckets two_sockets "package" = Some 2.
Proof.
  split; [vm_compute; reflexivity|].
  by destruct (setup_buckets_exact two_sockets "package" [["cxi0"]; ["cxi1"; "cxi2"]]%string ltac:(vm_compute; reflexivity)) as [H _].
Defined.

(** ** Round robin *)

(** Consecutive selections, by any processes: the token file is locked. *)
Fixpoint selections (k : nat) (bucket_idx : Z) (bucket : list string) (t : tokens) : option (list string * tokens) :=
  match k with
  | O => Some ([], t)
  | S k =>
      match select_nic_roundrobin bucket_idx bucket t with
      | (Ok n, t) => '(l, t) ← selections k bucket_idx bucket t; Some (n :: l, t)
      | _ => None
      end
  end.

Definition token_of (bucket_idx : Z) (t : tokens) : Z := let x := default (-1) (stored t !! bucket_idx) in if x <? 0 then -1 else x.

Lemma roundrobin_step i bucket t : bucket ≠ [] -> usable t = true -> token_of i t < 2 ^ 31 - 1 ->
  let x := (token_of i t + 1) mod Z.of_nat (length bucket) in
  exists n t', select_nic_roundrobin i bucket t = (Ok n, t') /\ bucket !! Z.to_nat x = Some n /\ token_of i t' = x /\ usable t' = true.
Proof.
  intros Hb Hu Ht x. assert (0 < Z.of_nat (length bucket)) as Hlen by (destruct bucket; [done|simpl; lia]).
  pose proof (Z.mod_pos_bound (token_of i t + 1) _ Hlen) as Hx. fold x in Hx.
  assert (-1 <= token_of i t) as Hge by (unfold token_of; destruct (Z.ltb_spec (default (-1) (stored t !! i)) 0); lia).
  unfold select_nic_roundrobin. fold (token_of i t). rewrite Hu. cbn [negb].
  destruct (Z.leb_spec (Z.of_nat (length bucket)) 0); [lia|]. destruct (Z.eqb_spec (token_of i t) (2 ^ 31 - 1)); [lia|].
  rewrite Z.rem_mod_nonneg by lia. fold x. unfold nic_at. destruct (Z.ltb_spec x 0); [lia|].
  destruct (lookup_lt_is_Some_2 bucket (Z.to_nat x)) as [nic Hnic]; [lia|]. rewrite Hnic.
  do 2 eexists. split; [reflexivity|]. split; [done|]. split; [|done]. unfold token_of. cbn [stored].
  rewrite lookup_insert_eq. change (default (-1) (Some x)) with x. destruct (Z.ltb_spec x 0); lia.
Qed.

Lemma selections_spec k i bucket t : bucket ≠ [] -> usable t = true -> token_of i t < 2 ^ 31 - 1 -> Z.of_nat (length bucket) < 2 ^ 31 ->
  exists l t', selections k i bucket t = Some (l, t') /\ length l = k /\
    (forall j, (j < k)%nat -> l !! j = bucket !! Z.to_nat ((token_of i t + 1 + Z.of_nat j) mod Z.of_nat (length bucket))) /\
    usable t' = true /\ token_of i t' < 2 ^ 31 - 1.
Proof.
  intros Hb Hu Ht Hs. assert (0 < Z.of_nat (length bucket)) as Hlen by (destruct bucket; [done|simpl; lia]).
  revert t Hu Ht. induction k as [|k IH]; intros t Hu Ht; [by exists [], t; do 2 (split; [done|]); split; [lia|]|].
  destruct (roundrobin_step i bucket t Hb Hu Ht) as (n & t1 & Hsel & Hn & Htok & Hu1).
  pose proof (Z.mod_pos_bound (token_of i t + 1) _ Hlen).
  destruct (IH t1 Hu1) as (l & t2 & Hsels & Hk & Hl & Hrest); [lia|]. exists (n :: l), t2. simpl. rewrite Hsel, Hsels. split; [done|].
  split; [by rewrite Hk|]. split; [|done].
  intros [|j] Hj; [rewrite Z.add_0_r; symmetry; exact Hn|]. change ((n :: l) !! S j) with (l !! j). rewrite Hl by lia. f_equal. f_equal.
  rewrite Htok, <- Z.add_assoc, Zplus_mod_idemp_l. f_equal. lia.
Qed.

Lemma rotation (bucket l : list string) (x : Z) : 0 <= x < Z.of_nat (length bucket) -> length l = length bucket ->
  (forall j, (j < length bucket)%nat -> l !! j = bucket !! Z.to_nat ((x + Z.of_nat j) mod Z.of_nat (length bucket))) ->
  l = drop (Z.to_nat x) bucket ++ take (Z.to_nat x) bucket.
Proof.
  intros Hx Hl H. apply list_eq_same_length with (n := length bucket); [rewrite length_app, length_drop, length_take; lia|done|].
  intros j a b Hj. rewrite H by done. destruct (decide (Z.to_nat x + j < length bucket)%nat) as [Hlt|Hge].
  - rewrite Z.mod_small, lookup_app_l, lookup_drop by (rewrite ?length_drop; lia).
    replace (Z.to_nat (x + Z.of_nat j)) with (Z.to_nat x + j)%nat by lia. congruence.
  - rewrite lookup_app_r, length_drop by (rewrite length_drop; lia). rewrite lookup_take_lt by lia.
    replace ((x + Z.of_nat j) mod Z.of_nat (length bucket)) with (x + Z.of_nat j - Z.of_nat (length bucket)).
    2: { rewrite <- (Z.mod_add _ (-1)), Z.mod_small by lia. lia. }
    replace (Z.to_nat (x + Z.of_nat j - Z.of_nat (length bucket))) with (j - (length bucket - Z.to_nat x))%nat by lia. congruence.
Qed.

(** Round robin is fair: consecutive selections from a bucket, whatever the token
    file holds below INT_MAX, go through all its cards in order, starting after the
    last one used: every card is chosen once in each turn. *)
Theorem roundrobin_fair i bucket t : bucket ≠ [] -> usable t = true -> token_of i t < 2 ^ 31 - 1 -> Z.of_nat (length bucket) < 2 ^ 31 ->
  let x := Z.to_nat ((token_of i t + 1) mod Z.of_nat (length bucket)) in
  exists t', selections (length bucket) i bucket t = Some (drop x bucket ++ take x bucket, t') /\
    drop x bucket ++ take x bucket ≡ₚ bucket /\ (x < length bucket)%nat /\ usable t' = true /\ token_of i t' < 2 ^ 31 - 1.
Proof.
  intros Hb Hu Ht Hs x. assert (0 < Z.of_nat (length bucket)) as Hlen by (destruct bucket; [done|simpl; lia]).
  pose proof (Z.mod_pos_bound (token_of i t + 1) _ Hlen) as Hx.
  destruct (selections_spec (length bucket) i bucket t Hb Hu Ht Hs) as (l & t' & Hsel & Hll & Hl & Hu' & Ht').
  exists t'. rewrite Hsel. split; [|split; [rewrite Permutation_app_comm; by rewrite take_drop|split; [lia|done]]].
  f_equal. f_equal. apply rotation; [done|done|]. intros j Hj. rewrite Hl by done. by rewrite Zplus_mod_idemp_l.
Qed.

Lemma roundrobin_fair_witness :
  exists t', selections 3 0 ["cxi0"; "cxi1"; "cxi2"]%string (Tokens {[0 := 0]} true) = Some (["cxi1"; "cxi2"; "cxi0"]%string, t') /\ usable t' = true.
Proof.
  destruct (roundrobin_fair 0 ["cxi0"; "cxi1"; "cxi2"]%string (Tokens {[0 := 0]} true)) as (t' & H & _ & _ & Hu & _); [done|done|done|done|].
  exists t'. by split.
Defined.

(** ** The resolution *)

Section Resolution.
Context (m : machine) (t : tokens).
(** libfabric's errors are negative; hwloc finds a package above each card and above
    the CPUs of the thread; rand() is not negative; the token files hold less than
    INT_MAX. *)
Hypothesis errors_negative : (fi_getinfo m).1 <= 0.
Hypothesis packages_found : forall c d, c ∈ (fi_getinfo m).2 -> pcidev c = Some d -> is_Some (package d).
Hypothesis location_package : forall l, get_last_cpu_location m = Some l -> is_Some (last_package l).
Hypothesis rand_nonneg : 0 <= rand m.
Hypothesis tokens_sane : forall i, token_of i t < 2 ^ 31 - 1.

Lemma assign_loop_defined p n idx infos bs : (forall c d, c ∈ infos -> pcidev c = Some d -> is_Some (package d)) ->
  assign_loop p n idx infos bs ≠ Undefined.
Proof.
  revert idx bs. induction infos as [|c infos IH]; intros idx bs Hp; cbn [assign_loop]; [done|].
  assert (forall c' d, c' ∈ infos -> pcidev c' = Some d -> is_Some (package d)) as Hp' by (intros c' d Hc; apply Hp; by right).
  destruct (on_pci c); cbn [negb]; [|by apply IH]. destruct (pcidev c) as [d|] eqn:Hd; [|done].
  assert (is_Some (bucket_of p n idx d)) as [j ->].
  { unfold bucket_of. destruct (n =? 1); [by eexists|]. repeat case_bool_decide; [by eexists| |by eexists]. eapply Hp; [left|done]. }
  destruct (_ || _); [done|by apply IH].
Qed.

Lemma setup_buckets_defined p : setup_buckets m p ≠ Undefined.
Proof.
  unfold setup_buckets. destruct (num_buckets m p) as [n|]; [|done]. destruct (fi_getinfo m) as [ret info]. cbn [fst snd] in *.
  destruct (n <? 0); [done|]. destruct (Z.eqb_spec ret 0); cbn [negb]; [by apply assign_loop_defined|].
  destruct (Z.ltb_spec ret 0); [done|lia].
Qed.

Lemma choose_bucket_range p n : 0 <= n -> match choose_bucket m p n with Undefined => False | Error => True | Ok i => 0 <= i < n end.
Proof.
  intros Hn. unfold choose_bucket, in_range. destruct (Z.eqb_spec n 1); [lia|].
  repeat case_bool_decide; [| |done]; (destruct (get_last_cpu_location m) as [l|] eqn:Hl; [|done]).
  - destruct (_ || _) eqn:Hr; [done|]. apply orb_false_iff in Hr as [??]. lia.
  - destruct (location_package l eq_refl) as [k ->]. destruct (_ || _) eqn:Hr; [done|]. apply orb_false_iff in Hr as [??]. lia.
Qed.

Definition drawn_from (bucket : list string) (r : result string) : Prop :=
  match r with Undefined => False | Error => True | Ok nic => nic ∈ bucket end.

Lemma nic_at_drawn bucket x : 0 <= x -> bucket ≠ [] -> drawn_from bucket (nic_at bucket (Z.rem x (Z.of_nat (length bucket)))).
Proof.
  intros Hx Hb. assert (0 < Z.of_nat (length bucket)) as Hlen by (destruct bucket; [done|simpl; lia]).
  rewrite Z.rem_mod_nonneg by lia. pose proof (Z.mod_pos_bound x _ Hlen). unfold nic_at. destruct (Z.ltb_spec (x mod Z.of_nat (length bucket)) 0); [lia|].
  destruct (lookup_lt_is_Some_2 bucket (Z.to_nat (x mod Z.of_nat (length bucket)))) as [nic Hnic]; [lia|]. rewrite Hnic. simpl.
  by apply list_elem_of_lookup_2 in Hnic.
Qed.

Lemma select_nic_drawn p np buckets : Forall (fun b => b ≠ []) buckets ->
  exists b, drawn_from b (select_nic m p np buckets t).1 /\ incl b (concat buckets).
Proof.
  intros Hall. unfold select_nic. pose proof (choose_bucket_range p (Z.of_nat (length buckets))) as Hc.
  destruct (choose_bucket _ _ _) as [| |i]; [by destruct Hc; lia|exists []; split; [done|by intros ? []]|].
  destruct (lookup_lt_is_Some_2 buckets (Z.to_nat i)) as [b Hb]; [lia|]. rewrite Hb.
  assert (b ≠ []) as Hne by (by eapply Forall_lookup_1 in Hall). exists b. split.
  2: { intros x Hx. apply in_concat. exists b. split; [|done]. apply list_elem_of_In. by eapply list_elem_of_lookup_2. }
  destruct (Nat.eqb_spec (length b) 1) as [H1|H1].
  { pose proof (nic_at_drawn b 0 ltac:(lia) Hne) as H. by rewrite H1 in H. }
  repeat case_bool_decide; cbn [fst]; [| | | |done].
  - unfold select_nic_roundrobin. destruct (_ <=? _); [done|]. destruct (usable t); [|done]. cbn [negb]. fold (token_of i t).
    pose proof (tokens_sane i). destruct (Z.eqb_spec (token_of i t) (2 ^ 31 - 1)); [lia|]. cbn [fst]. apply nic_at_drawn; [|done].
    unfold token_of. destruct (Z.ltb_spec (default (-1) (stored t !! i)) 0); lia.
  - unfold select_nic_random. destruct (_ <=? _); [done|]. by apply nic_at_drawn.
  - unfold select_nic_bycore. destruct (_ <=? _); [done|]. destruct (get_last_cpu_location m) as [l|]; [|done].
    destruct (Z.ltb_spec (last_cpu l) 0); [done|]. by apply nic_at_drawn.
  - unfold select_nic_byset. destruct (_ <=? _); [done|]. destruct (cpubind_first m) as [x|]; [|done].
    destruct (Z.ltb_spec x 0); [done|]. by apply nic_at_drawn.
Qed.

Lemma canonical_long s : exists a b, last_two (canonicalize_addr_string s) = Some (a, b).
Proof.
  assert (forall s a b, exists a' b', last_two (String a (String b s)) = Some (a', b')) as Hlong.
  { induction s0 as [|c s0 IH]; intros a b; [by do 2 eexists|]. exact (IH b c). }
  assert (forall u, exists a' b', last_two (u +:+ "://")%string = Some (a', b')) as Happ.
  { intros [|a [|b u]]; [by do 2 eexists| |]; [exact (Hlong "//"%string a ":"%char)|exact (Hlong _ a b)]. }
  unfold canonicalize_addr_string. destruct (strstr s "://") eqn:Hs; [|apply Happ].
  destruct s as [|a [|b s]]; [done| |apply Hlong]. exfalso. destruct a as [x0 x1 x2 x3 x4 x5 x6 x7]. by destruct x0, x1, x2, x3, x4, x5, x6, x7.
Qed.

Lemma cards_of_buckets p buckets nic : setup_buckets m p = Ok buckets -> In nic (concat buckets) ->
  exists c, nic = domain_name c /\ c ∈ (fi_getinfo m).2 /\ on_pci c = true.
Proof.
  intros (n & _ & Hn & Ha)%setup_buckets_runs Hnic. apply assign_loop_cards in Ha; [|rewrite length_replicate; lia].
  assert (concat (replicate (Z.to_nat n) ([] : list string)) = []) as Hnil by (clear; by induction (Z.to_nat n)).
  rewrite Hnil, app_nil_r in Ha. apply list_elem_of_In in Hnic. rewrite Ha in Hnic.
  apply list_elem_of_fmap in Hnic as (c & -> & [Hc Hin]%list_elem_of_filter). by exists c.
Qed.

(** Resolving an address is a best effort and never undefined: the result is the
    canonical address (the given one, or the given one with "://" after it), as it is
    or followed by the name of a PCI card that libfabric lists; it is returned as it
    is, the token files untouched, for another transport than cxi and for an address
    that is resolved already. *)
Theorem resolve_nic_best_effort in_address p np :
  let canon := canonicalize_addr_string in_address in
  exists r t', mochi_plumber_resolve_nic m in_address p np t = (Some r, t') /\
    (r = canon \/ exists c, c ∈ (fi_getinfo m).2 /\ on_pci c = true /\ r = (canon +:+ domain_name c)%string) /\
    (r = canon /\ t' = t \/ (prefix "cxi" canon = true \/ prefix "ofi+cxi" canon = true) /\ last_two canon = Some ("/"%char, "/"%char)).
Proof.
  intros canon. unfold mochi_plumber_resolve_nic. fold canon.
  destruct (_ || _); [by exists canon, t; auto|].
  destruct (negb (prefix "cxi" canon) && negb (prefix "ofi+cxi" canon)) eqn:Hpre; [by exists canon, t; auto|].
  destruct (canonical_long in_address) as (a & b & Hab). fold canon in Hab. rewrite Hab.
  destruct (_ || _) eqn:Hend; [by exists canon, t; auto|].
  pose proof (setup_buckets_defined p) as Hdef. destruct (setup_buckets m p) as [| |buckets] eqn:Hset; [done|by exists canon, t; auto|].
  destruct (existsb _ buckets) eqn:Hex; [by exists canon, t; auto|].
  assert ((prefix "cxi" canon = true \/ prefix "ofi+cxi" canon = true) /\ Some (a, b) = Some ("/"%char, "/"%char)) as Hgood.
  { apply andb_false_iff in Hpre. apply orb_false_iff in Hend. rewrite !negb_false_iff in *. rewrite !bool_decide_eq_true in Hend.
    destruct Hend as [-> ->]. split; [tauto|done]. }
  destruct (select_nic_drawn p np buckets) as (bk & Hdrawn & Hincl).
  { apply Forall_forall. intros bk Hbk ->. apply not_true_iff_false in Hex. apply Hex, existsb_exists. exists []. split; [by apply list_elem_of_In|done]. }
  destruct (select_nic m p np buckets t) as [[| |nic] t']; [done|by exists canon, t'; auto|].
  exists (canon +:+ nic)%string, t'. split; [done|]. split; [|by right]. right.
  destruct (cards_of_buckets p buckets nic Hset) as (c & -> & Hc & Hon); [by apply Hincl, list_elem_of_In|]. by exists c.
Qed.
End Resolution.

Lemma resolve_nic_best_effort_witness : exists r t',
  mochi_plumber_resolve_nic two_sockets "cxi" "package" "roundrobin" (Tokens {[1 := 0]} true) = (Some r, t') /\ r = "cxi://cxi2"%string.
Proof.
  destruct (resolve_nic_best_effort two_sockets (Tokens {[1 := 0]} true)) with (in_address := "cxi"%string) (p := "package"%string) (np := "roundrobin"%string) as (r & t' & H & _).
  - done.
  - intros c d Hc Hd. apply list_elem_of_In in Hc. simpl in Hc. by destruct Hc as [<-|[<-|[<-|[<-|[]]]]]; simplify_eq/=; eexists.
  - intros l [= <-]. by eexists.
  - done.
  - intros i. unfold token_of. cbn [stored]. destruct (decide (i = 1)) as [->|Hi]; [done|]. by rewrite lookup_singleton_ne.
  - exists r, t'. split; [done|]. by vm_compute in H; injection H as <- _.
Defined.
