(* ===== verification/Init.v ===== *)
(** * The configuration of an instance (src/margo-init.c)

    The validation of a configuration, with and without a parent instance, and
    the choice of the progress and RPC pools.  [Instance] has the rest of
    [margo_init_ext]. *)

From stdpp Require Import strings pretty.
From S2P Require Import Prelude Json AbtConfig AbtTables AbtStart Config HgConfig.

#[local] Open Scope Z_scope.

(** ** Validation *)

Definition CONFIG_HAS (config : option json) (key : string) : bool := bool_decide (is_Some (json_object_object_get config key)).

(** An optional integer that is not negative. *)
Definition check_natural (config : option json) (key : string) : bool :=
  ASSERT_CONFIG_HAS_OPTIONAL config key json_type_int &&
  (if CONFIG_HAS config key then CONFIG_INTEGER_MUST_BE_POSITIVE config key else true).

(** [have_plumber]: whether Margo is built with mochi-plumber. *)
Definition __margo_plumber_validate_json (have_plumber : bool) (p : option json) : bool :=
  match p with
  | None => true
  | Some _ =>
      have_plumber && json_object_is_type p json_type_object &&
      ASSERT_CONFIG_HAS_OPTIONAL p "bucket_policy" json_type_string &&
      ASSERT_CONFIG_HAS_OPTIONAL p "nic_policy" json_type_string
  end.

(** An optional reference to one of [num_pools] pools, by index or by a name
    that [known] has. *)
Definition check_pool_field (num_pools : Z) (known : string -> bool) (jpool : option json) : bool :=
  match jpool with
  | None => true
  | Some (JInt _) => let idx := json_object_get_int jpool in negb ((idx <? 0) || (num_pools <=? idx))
  | Some (JString name) => bool_decide (name = "__primary__"%string) || known name
  | Some _ => false
  end.

Definition __margo_validate_json (initialized have_plumber : bool) (_margo : option json) : bool :=
  let _argobots := json_object_object_get _margo "argobots" in
  let _pools := json_object_object_get _argobots "pools" in
  let num_pools := Z.of_nat (length (json_object_array _pools)) in
  __margo_hg_validate_json (json_object_object_get _margo "mercury") &&
  __margo_abt_validate_json initialized _argobots &&
  __margo_plumber_validate_json have_plumber (json_object_object_get _margo "plumber") &&
  check_natural _margo "progress_spindown_msec" &&
  check_natural _margo "progress_timeout_ub_msec" &&
  check_natural _margo "handle_cache_size" &&
  check_pool_field num_pools (CONFIG_ARRAY_MUST_HAVE_ITEM_NAMED _pools) (json_object_object_get _margo "progress_pool") &&
  ASSERT_CONFIG_HAS_OPTIONAL _margo "use_progress_thread" json_type_boolean &&
  check_pool_field num_pools (CONFIG_ARRAY_MUST_HAVE_ITEM_NAMED _pools) (json_object_object_get _margo "rpc_pool") &&
  ASSERT_CONFIG_HAS_OPTIONAL _margo "rpc_thread_count" json_type_int.

Definition __margo_validate_json_with_parent (parent_abt : margo_abt) (have_plumber : bool) (_margo : option json) : bool :=
  let num_pools := Z.of_nat (length (pools parent_abt)) in
  let known name := 0 <=? __margo_abt_find_pool_by_name parent_abt (Some name) in
  __margo_hg_validate_json (json_object_object_get _margo "mercury") &&
  negb (CONFIG_HAS _margo "argobots") &&
  negb (CONFIG_HAS _margo "use_progress_thread") &&
  negb (CONFIG_HAS _margo "rpc_thread_count") &&
  __margo_plumber_validate_json have_plumber (json_object_object_get _margo "plumber") &&
  check_natural _margo "progress_spindown_msec" &&
  check_natural _margo "progress_timeout_ub_msec" &&
  check_natural _margo "handle_cache_size" &&
  check_pool_field num_pools known (json_object_object_get _margo "progress_pool") &&
  check_pool_field num_pools known (json_object_object_get _margo "rpc_pool").

(** ** The progress and RPC pools *)

(** The pools the caller gives, 0 for none. *)
Record init_args := InitArgs { arg_progress_pool : Z; arg_rpc_pool : Z }.

(** What the calls that add pools and execution streams return. *)
Record pool_oracle := PoolOracle {
  e_realloc : bool;
  e_progress : Z * Z;
  e_progress_es : xstream_oracle;
  e_rpc : Z * Z;
  e_rpc_es : nat -> xstream_oracle
}.

Definition pool_json : json := JObject [("access"%string, Some (JString "mpmc"))].
Definition es_on_pool_json (idx : Z) : json :=
  JObject [("scheduler"%string, Some (JObject [("pools"%string, Some (JArray [Some (JInt idx)]))]))].

(** A pool of the configuration, by index or by name. *)
Definition pool_of_json (a : margo_abt) (jpool : option json) : Z :=
  if json_object_is_type jpool json_type_int then json_object_get_int jpool
  else __margo_abt_find_pool_by_name a (json_object_get_string jpool).

(** [None]: the initialisation fails. *)
Definition choose_progress_pool (o : pool_oracle) (args : init_args) (config : option json) (primary_pool_idx primary_pool : Z)
    (a : margo_abt) : option Z * margo_abt :=
  let jprogress_pool := json_object_object_get config "progress_pool" in
  if negb (primary_pool =? 0) && (arg_progress_pool args =? primary_pool) then (Some primary_pool_idx, a)
  else if negb (arg_progress_pool args =? 0) then
    let idx := Z.of_nat (length (pools a)) in
    let '(ok, a) := __margo_abt_add_external_pool (e_realloc o) None (arg_progress_pool args) a in
    (if ok then Some idx else None, a)
  else
    match jprogress_pool with
    | Some _ => (Some (pool_of_json a jprogress_pool), a)
    | None =>
        if json_object_object_get_bool_or config "use_progress_thread" false then
          let idx := Z.of_nat (length (pools a)) in
          let '(ok, a) := __margo_abt_add_pool_from_json true (e_realloc o) (e_progress o) (Some pool_json) a in
          if negb ok then (None, a)
          else
            let '(ok, a) := __margo_abt_add_xstream_from_json true (e_realloc o) (e_progress_es o) (Some (es_on_pool_json idx)) a in
            (if ok then Some idx else None, a)
        else (Some primary_pool_idx, a)
    end.

Fixpoint add_rpc_xstreams (o : pool_oracle) (n : nat) (idx : Z) (a : margo_abt) : bool * margo_abt :=
  match n with
  | O => (true, a)
  | S n =>
      let '(ok, a) := __margo_abt_add_xstream_from_json true (e_realloc o) (e_rpc_es o n) (Some (es_on_pool_json idx)) a in
      if ok then add_rpc_xstreams o n idx a else (false, a)
  end.

Definition choose_rpc_pool (o : pool_oracle) (args : init_args) (config : option json)
    (primary_pool_idx primary_pool progress_pool_idx : Z) (a : margo_abt) : option Z * margo_abt :=
  let jrpc_pool := json_object_object_get config "rpc_pool" in
  let jrpc_thread_count := json_object_object_get config "rpc_thread_count" in
  if negb (primary_pool =? 0) && (arg_rpc_pool args =? primary_pool) then (Some primary_pool_idx, a)
  else if negb (arg_progress_pool args =? 0) && (arg_rpc_pool args =? arg_progress_pool args) then (Some progress_pool_idx, a)
  else if negb (arg_rpc_pool args =? 0) then
    let idx := Z.of_nat (length (pools a)) in
    let '(ok, a) := __margo_abt_add_external_pool (e_realloc o) None (arg_rpc_pool args) a in
    (if ok then Some idx else None, a)
  else
    match jrpc_pool with
    | Some _ => (Some (pool_of_json a jrpc_pool), a)
    | None =>
        let count := json_object_get_int jrpc_thread_count in
        if bool_decide (is_Some jrpc_thread_count) && (count <? 0) then (Some progress_pool_idx, a)
        else if bool_decide (is_Some jrpc_thread_count) && (0 <? count) then
          let idx := Z.of_nat (length (pools a)) in
          let '(ok, a) := __margo_abt_add_pool_from_json true (e_realloc o) (e_rpc o) (Some pool_json) a in
          if negb ok then (None, a)
          else
            let '(ok, a) := add_rpc_xstreams o (Z.to_nat count) idx a in
            (if ok then Some idx else None, a)
        else (Some primary_pool_idx, a)
    end.

Definition in_range (idx : Z) (a : margo_abt) : bool := (0 <=? idx) && (idx <? Z.of_nat (length (pools a))).

(** The indices of the progress pool and of the RPC pool; [None] is [goto error]. *)
Definition choose_pools (o : pool_oracle) (args : init_args) (config : option json) (a : margo_abt) : option (Z * Z) * margo_abt :=
  let primary_pool_idx := __margo_abt_find_pool_by_name a (Some "__primary__"%string) in
  if primary_pool_idx <? 0 then (None, a)
  else
    let primary_pool := pool_at a primary_pool_idx in
    let '(progress, a) := choose_progress_pool o args config primary_pool_idx primary_pool a in
    match progress with
    | None => (None, a)
    | Some progress =>
        let '(rpc, a) := choose_rpc_pool o args config primary_pool_idx primary_pool progress a in
        match rpc with
        | None => (None, a)
        | Some rpc => if negb (in_range progress a) || negb (in_range rpc a) then (None, a) else (Some (progress, rpc), a)
        end
    end.

(** ** The pools only grow *)

(** Names and handles in order. *)
Definition keys (a : margo_abt) : list (string * Z) := map (fun p => (p_name p, p_pool p)) (pools a).

Definition key_at (a : margo_abt) (idx : Z) : option (string * Z) := keys a !! Z.to_nat idx.

Lemma keys_keeps f l : keeps f -> map (fun p => (p_name p, p_pool p)) (map f l) = map (fun p => (p_name p, p_pool p)) l.
Proof. intros Hf. rewrite map_map. apply map_ext. intros p. by destruct (Hf p) as (-> & -> & _). Qed.

Lemma keys_alter f i l : keeps f -> map (fun p => (p_name p, p_pool p)) (alter f i l) = map (fun p => (p_name p, p_pool p)) l.
Proof.
  intros Hf. apply list_eq. intros j. rewrite !lookup_map, list_lookup_alter. destruct (decide (i = j)) as [->|]; [|done].
  destruct (l !! j) as [p|]; simpl; [|done]. by destruct (Hf p) as (-> & -> & _).
Qed.

Lemma each_pool_keys get f sched : keeps f -> forall i a, keys (each_pool get f i sched a).2 = keys a.
Proof.
  intros Hf. induction sched as [|h sched IH]; intros i a; simpl; [done|].
  destruct (negb _); [done|]. destruct (_ <? 0); [done|]. rewrite IH. unfold keys. simpl. by apply keys_alter.
Qed.

Lemma xstream_destroy_keys c x a : keys (__margo_abt_xstream_destroy c x a) = keys a.
Proof.
  unfold __margo_abt_xstream_destroy. destruct (x_xstream x =? 0); simpl; [by rewrite andb_false_r|].
  destruct (negb (c_main_sched c =? 0)); [by destruct (_ && _)|]. destruct (negb (c_num_pools c =? 0)); [by destruct (_ && _)|].
  pose proof (each_pool_keys (c_get_pools c) decr_xstreams (main_pools a (x_xstream x)) keeps_decr 0 a) as H.
  by destruct (_ && _).
Qed.

Lemma xstream_init_keys o j a : keys (__margo_abt_xstream_init_from_json o j a).2 = keys a.
Proof.
  unfold __margo_abt_xstream_init_from_json. destruct (match json_object_object_get j "name" with None => _ | _ => _ end); [|done].
  destruct (__margo_abt_sched_init_from_json _ _ _) as [[type sched]|]; [|simpl; apply xstream_destroy_keys].
  assert (forall primary x a2, keys a2 = keys a ->
    keys (if negb (c_num_pools (o_codes o) =? 0) then (None, __margo_abt_xstream_destroy (o_undo o) x a2)
          else let '(ok, a3) := each_pool (c_get_pools (o_codes o)) (incr_xstreams primary) 0 sched a2 in
               if ok then (Some x, a3) else (None, __margo_abt_xstream_destroy (o_undo o) x a3)).2 = keys a) as Hc.
  { intros primary x a2 Ha. destruct (negb _); [simpl; by rewrite xstream_destroy_keys|].
    pose proof (each_pool_keys (c_get_pools (o_codes o)) (incr_xstreams primary) sched (keeps_incr primary) 0 a2) as He.
    destruct (each_pool _ _ _ _ _) as [[] a3]; simpl in *; rewrite ?xstream_destroy_keys; congruence. }
  case_bool_decide; simpl.
  - destruct (o_self o) as [ret h]. destruct (negb (ret =? 0)); [simpl; by rewrite xstream_destroy_keys|].
    destruct (negb (o_set_main o =? 0)); [simpl; by rewrite xstream_destroy_keys|]. by apply Hc.
  - destruct (o_create o) as [ret h]. destruct (ret =? 0); by apply Hc.
Qed.

Lemma add_xstream_keys initialized realloc o j a : keys (__margo_abt_add_xstream_from_json initialized realloc o j a).2 = keys a.
Proof.
  unfold __margo_abt_add_xstream_from_json. destruct (negb _); [done|]. destruct (0 <=? _); [done|].
  destruct (grow_cap _ _ _) as [cap|]; [|done].
  pose proof (xstream_init_keys o j (with_caps (pools_cap a) cap a)) as H.
  destruct (__margo_abt_xstream_init_from_json _ _ _) as [[x|] a']; exact H.
Qed.

Lemma add_pool_keys initialized realloc create j a a' :
  __margo_abt_add_pool_from_json initialized realloc create j a = (true, a') -> exists n, keys a' = keys a ++ [(n, create.2)].
Proof.
  unfold __margo_abt_add_pool_from_json. destruct (negb _); [done|]. destruct (0 <=? _); [done|].
  destruct (grow_cap _ _ _) as [cap|]; [|done]. destruct (__margo_abt_pool_init_from_json _ _ _) as [p|] eqn:Hp; [|done].
  intros [= <-]. exists (p_name p). apply pool_init_from_json_spec in Hp as (_ & <- & _). unfold keys. simpl. by rewrite map_app.
Qed.

Lemma add_external_keys realloc name h a a' :
  __margo_abt_add_external_pool realloc name h a = (true, a') -> exists n, keys a' = keys a ++ [(n, h)].
Proof.
  unfold __margo_abt_add_external_pool. destruct (0 <=? _); [done|]. destruct (0 <=? _); [done|].
  destruct (grow_cap _ _ _) as [cap|]; [|done]. destruct (__margo_abt_pool_init_external _ _ _) as [p|] eqn:Hp; [|done].
  intros [= <-]. apply bind_Some in Hp as (n & _ & [= <-]). exists n. unfold keys. simpl. by rewrite map_app.
Qed.

Lemma add_rpc_xstreams_keys o idx : forall n a, keys (add_rpc_xstreams o n idx a).2 = keys a.
Proof.
  induction n as [|n IH]; intros a; simpl; [done|].
  pose proof (add_xstream_keys true (e_realloc o) (e_rpc_es o n) (Some (es_on_pool_json idx)) a) as H.
  destruct (__margo_abt_add_xstream_from_json _ _ _ _ _) as [[] a']; simpl in *; [|done]. by rewrite IH.
Qed.

Lemma keys_length a : length (keys a) = length (pools a).
Proof. apply length_map. Qed.

Lemma key_at_app a a' l idx k : keys a' = keys a ++ l -> key_at a idx = Some k -> key_at a' idx = Some k.
Proof. unfold key_at. intros -> Hk. rewrite lookup_app_l; [done|]. by eapply lookup_lt_Some. Qed.

Lemma key_at_end a a' k : keys a' = keys a ++ [k] -> key_at a' (Z.of_nat (length (pools a))) = Some k.
Proof. unfold key_at. intros ->. rewrite Nat2Z.id, <- keys_length, lookup_app_r, Nat.sub_diag by lia. done. Qed.

Lemma key_at_pool a idx : pool_at a idx = default 0 (snd <$> key_at a idx).
Proof. unfold pool_at, key_at, keys. rewrite lookup_map. by destruct (pools a !! Z.to_nat idx). Qed.

(** A name that is found. *)
Lemma find_by_name_key a s : 0 <= __margo_abt_find_pool_by_name a s ->
  exists n h, s = Some n /\ key_at a (__margo_abt_find_pool_by_name a s) = Some (n, h).
Proof.
  destruct s as [n|]; [|done]. destruct (find_pool_by_name_spec a n) as [[-> _]|(k & p & -> & Hp & Hn)]; [done|]. intros _.
  exists n, (p_pool p). split; [done|]. unfold key_at, keys. by rewrite Nat2Z.id, lookup_map, Hp, <- Hn.
Qed.

(** ** The choice of the pools *)

(** The pool that a configuration field asks for, when the index is in range. *)
Definition field_ok (jpool : option json) (a : margo_abt) (idx : Z) : Prop :=
  match jpool with
  | Some (JInt _) => idx = json_object_get_int jpool
  | Some (JString n) => exists h, key_at a idx = Some (n, h)
  | _ => True
  end.

Definition is_primary (a : margo_abt) (idx : Z) : Prop := exists h, key_at a idx = Some ("__primary__"%string, h).

(** What a choice promises: the pool given as argument, or the field, or the
    default. *)
Definition chosen (arg : Z) (jpool : option json) (fallback : Prop) (a : margo_abt) (idx : Z) : Prop :=
  (arg ≠ 0 -> pool_at a idx = arg) /\
  (arg = 0 -> is_Some jpool -> 0 <= idx -> field_ok jpool a idx) /\
  (arg = 0 -> jpool = None -> fallback).

Lemma pool_of_json_ok a jpool : 0 <= pool_of_json a jpool -> field_ok jpool a (pool_of_json a jpool).
Proof.
  unfold pool_of_json. destruct jpool as [[]|]; simpl; try done; intros H.
  destruct (find_by_name_key a (Some s) H) as (n & h & Hs & Hk). injection Hs as <-. by exists h.
Qed.

(** Where a chosen index is: in the table, or given as a number, or negative. *)
Definition located (arg : Z) (jpool : option json) (a : margo_abt) (idx : Z) : Prop :=
  in_range idx a = true \/ (arg = 0 /\ exists n, jpool = Some (JInt n)) \/ idx < 0.

Lemma key_at_range a idx k : 0 <= idx -> key_at a idx = Some k -> in_range idx a = true.
Proof.
  intros H0 Hk. apply lookup_lt_Some in Hk. rewrite keys_length in Hk.
  apply andb_true_iff. split; [apply Z.leb_le|apply Z.ltb_lt]; lia.
Qed.

Lemma choose_progress_spec o args config idx0 h0 a idx a' :
  0 <= idx0 -> key_at a idx0 = Some ("__primary__"%string, h0) ->
  choose_progress_pool o args config idx0 h0 a = (Some idx, a') ->
  (exists l, keys a' = keys a ++ l) /\
  chosen (arg_progress_pool args) (json_object_object_get config "progress_pool")
    (json_object_object_get_bool_or config "use_progress_thread" false = false -> is_primary a' idx) a' idx /\
  located (arg_progress_pool args) (json_object_object_get config "progress_pool") a' idx.
Proof.
  intros H0 Hk. unfold choose_progress_pool, located. pose proof (key_at_range _ _ _ H0 Hk) as Hr0.
  destruct (negb (h0 =? 0) && (arg_progress_pool args =? h0)) eqn:Hp.
  { apply andb_true_iff in Hp as [Hn%negb_true_iff%Z.eqb_neq He%Z.eqb_eq]. intros [= <- <-].
    split; [exists []; by rewrite app_nil_r|]. split; [|tauto]. split_and!; [|congruence..]. intros _. by rewrite key_at_pool, Hk. }
  destruct (Z.eqb_spec (arg_progress_pool args) 0) as [Ha|Ha]; simpl.
  2:{ destruct (__margo_abt_add_external_pool _ _ _ _) as [[] a2] eqn:Hadd; intros [= <- <-].
      apply add_external_keys in Hadd as [n Hadd]. pose proof (key_at_end _ _ _ Hadd) as He.
      split; [by eexists|]. split; [|left; eapply key_at_range; [lia|exact He]]. split_and!; [|congruence..]. intros _. by rewrite key_at_pool, He. }
  destruct (json_object_object_get config "progress_pool") as [j|].
  { intros [= <- <-]. split; [exists []; by rewrite app_nil_r|].
    split; [split_and!; [done| |done]; intros _ _; apply pool_of_json_ok|].
    destruct (Z.leb_spec 0 (pool_of_json a (Some j))) as [Hj|Hj]; [|by auto].
    destruct j as [| |n| | |]; try (left; destruct (find_by_name_key a _ Hj) as (n & h & _ & Hn); by eapply key_at_range).
    right. left. split; [done|]. by exists n. }
  destruct (json_object_object_get_bool_or _ _ _).
  - destruct (__margo_abt_add_pool_from_json _ _ _ _ _) as [[] a2] eqn:Hadd; simpl; [|done].
    apply add_pool_keys in Hadd as [n Hadd].
    pose proof (add_xstream_keys true (e_realloc o) (e_progress_es o) (Some (es_on_pool_json (Z.of_nat (length (pools a))))) a2) as Hx.
    destruct (__margo_abt_add_xstream_from_json _ _ _ _ _) as [[] a3]; simpl in Hx; intros [= <- <-].
    split; [rewrite Hx; by eexists|]. split; [by split_and!|]. left.
    rewrite <- Hx in Hadd. eapply key_at_range; [lia|exact (key_at_end _ _ _ Hadd)].
  - intros [= <- <-]. split; [exists []; by rewrite app_nil_r|]. split; [|by auto]. split_and!; [done..|]. intros _ _ _. by exists h0.
Qed.

Lemma choose_rpc_spec o args config idx0 h0 progress a idx a' :
  key_at a idx0 = Some ("__primary__"%string, h0) ->
  (arg_progress_pool args ≠ 0 -> pool_at a progress = arg_progress_pool args) ->
  choose_rpc_pool o args config idx0 h0 progress a = (Some idx, a') ->
  (exists l, keys a' = keys a ++ l) /\
  chosen (arg_rpc_pool args) (json_object_object_get config "rpc_pool")
    (let count := json_object_get_int (json_object_object_get config "rpc_thread_count") in
     (count < 0 -> idx = progress) /\ (count = 0 -> is_primary a' idx)) a' idx.
Proof.
  intros Hk Hpr. unfold choose_rpc_pool.
  destruct (negb (h0 =? 0) && (arg_rpc_pool args =? h0)) eqn:Hp.
  { apply andb_true_iff in Hp as [Hn%negb_true_iff%Z.eqb_neq He%Z.eqb_eq]. intros [= <- <-].
    split; [exists []; by rewrite app_nil_r|]. split_and!; [|congruence..]. intros _. by rewrite key_at_pool, Hk. }
  destruct (negb (arg_progress_pool args =? 0) && (arg_rpc_pool args =? arg_progress_pool args)) eqn:Hq.
  { apply andb_true_iff in Hq as [Hn%negb_true_iff%Z.eqb_neq He%Z.eqb_eq]. intros [= <- <-].
    split; [exists []; by rewrite app_nil_r|]. split_and!; [|congruence..]. intros _. rewrite He. by apply Hpr. }
  destruct (Z.eqb_spec (arg_rpc_pool args) 0) as [Ha|Ha]; simpl.
  2:{ destruct (__margo_abt_add_external_pool _ _ _ _) as [[] a2] eqn:Hadd; intros [= <- <-].
      apply add_external_keys in Hadd as [n Hadd]. split; [by eexists|]. split_and!; [|congruence..]. intros _.
      by rewrite key_at_pool, (key_at_end _ _ _ Hadd). }
  destruct (json_object_object_get config "rpc_pool") as [j|].
  { intros [= <- <-]. split; [exists []; by rewrite app_nil_r|]. split_and!; [done| |done]. intros _ _. apply pool_of_json_ok. }
  set (jcount := json_object_object_get config "rpc_thread_count").
  destruct (Z.ltb_spec (json_object_get_int jcount) 0).
  { assert (is_Some jcount) as Hc by (destruct jcount as [[]|]; done).
    rewrite (bool_decide_eq_true_2 _ Hc). simpl. intros [= <- <-]. split; [exists []; by rewrite app_nil_r|].
    split_and!; [done..|]. intros _ _. simpl. split; [done|lia]. }
  rewrite andb_false_r. destruct (Z.ltb_spec 0 (json_object_get_int jcount)).
  - assert (is_Some jcount) as Hc by (destruct jcount as [[]|]; done). rewrite (bool_decide_eq_true_2 _ Hc). simpl.
    destruct (__margo_abt_add_pool_from_json _ _ _ _ _) as [[] a2] eqn:Hadd; simpl; [|done].
    apply add_pool_keys in Hadd as [n Hadd].
    pose proof (add_rpc_xstreams_keys o (Z.of_nat (length (pools a))) (Z.to_nat (json_object_get_int jcount)) a2) as Hx.
    destruct (add_rpc_xstreams _ _ _ _) as [[] a3]; simpl in Hx; intros [= <- <-].
    split; [rewrite Hx; by eexists|]. split_and!; [done..|]. intros _ _. simpl. lia.
  - rewrite andb_false_r. intros [= <- <-]. split; [exists []; by rewrite app_nil_r|].
    split_and!; [done..|]. intros _ _. simpl. split; [lia|]. intros _. by exists h0.
Qed.

(** ** The pools asked for *)

Lemma chosen_app arg jpool (fb fb' : Prop) a a' l idx : keys a' = keys a ++ l -> located arg jpool a idx -> (fb -> fb') -> 0 <= idx ->
  chosen arg jpool fb a idx -> chosen arg jpool fb' a' idx.
Proof.
  intros Hl Hr Hfb H0 (H1 & H2 & H3). destruct Hr as [Hr|[(Ha & n & ->)|Hneg]]; [| |lia].
  - apply andb_true_iff in Hr as [_ Hlt%Z.ltb_lt].
    assert (key_at a' idx = key_at a idx) as Hk.
    { unfold key_at. rewrite Hl, lookup_app_l; [done|]. rewrite keys_length. lia. }
    split_and!; [| |auto].
    + intros Ha. rewrite key_at_pool, Hk, <- key_at_pool. auto.
    + intros Ha Hj Hi. specialize (H2 Ha Hj Hi). unfold field_ok in *. by destruct jpool as [[]|]; rewrite ?Hk.
  - split_and!; [congruence| |congruence]. intros _ Hj Hi. exact (H2 Ha Hj Hi).
Qed.

Lemma is_primary_app a a' l idx : keys a' = keys a ++ l -> is_primary a idx -> is_primary a' idx.
Proof. intros Hl [h Hk]. exists h. by eapply key_at_app. Qed.

(** When the choice succeeds, the indices are inside the table, and each is the pool
    that the caller gives, else the one of the configuration, else the default. *)
Lemma choose_pools_spec o args config a progress rpc a' : choose_pools o args config a = (Some (progress, rpc), a') ->
  (exists l, keys a' = keys a ++ l) /\ in_range progress a' = true /\ in_range rpc a' = true /\
  chosen (arg_progress_pool args) (json_object_object_get config "progress_pool")
    (json_object_object_get_bool_or config "use_progress_thread" false = false -> is_primary a' progress) a' progress /\
  chosen (arg_rpc_pool args) (json_object_object_get config "rpc_pool")
    (let count := json_object_get_int (json_object_object_get config "rpc_thread_count") in
     (count < 0 -> rpc = progress) /\ (count = 0 -> is_primary a' rpc)) a' rpc.
Proof.
  unfold choose_pools. set (idx0 := __margo_abt_find_pool_by_name a (Some "__primary__"%string)).
  destruct (Z.ltb_spec idx0 0) as [|Hp0]; [done|].
  destruct (find_by_name_key a (Some "__primary__"%string) Hp0) as (n & h0 & [= <-] & Hk). fold idx0 in Hk.
  assert (pool_at a idx0 = h0) as -> by (by rewrite key_at_pool, Hk).
  destruct (choose_progress_pool _ _ _ _ _ _) as [[pr|] a1] eqn:Hprog; [|done].
  apply choose_progress_spec in Hprog as ([l Hl] & Hc & Hloc); [|done..].
  destruct (choose_rpc_pool _ _ _ _ _ _ _) as [[rp|] a2] eqn:Hrpc; [|done].
  destruct (in_range pr a2) eqn:Hr1; simpl; [|done]. destruct (in_range rp a2) eqn:Hr2; simpl; [|done].
  intros [= <- <- <-].
  apply choose_rpc_spec in Hrpc as ([l2 Hl2] & Hc2); [| |apply Hc].
  2:{ by eapply key_at_app. }
  split_and!; try done; [rewrite Hl2, Hl, <- app_assoc; by eexists|].
  eapply (chosen_app _ _ _ _ a1 a2 l2); [done|done| | |exact Hc].
  - intros Hfb Ht. eapply is_primary_app; [exact Hl2|auto].
  - by apply andb_true_iff in Hr1 as [?%Z.leb_le _].
Qed.
