(* ===== verification/Sanity.v ===== *)
(** * Checks of the pools of an instance (src/margo-init.c)

    [sanity_check_abt_configuration]: the flags of each pool, collected over the
    execution streams, and the warnings that they give.  Argobots' main
    schedulers are those of [AbtConfig]; an index outside the array of flags is
    undefined ([None]). *)

From stdpp Require Import strings list.
From S2P Require Import Prelude Json AbtConfig AbtTables AbtStart.

#[local] Open Scope Z_scope.

(** ** Definitions *)

Definition USED_AS_FIRST : Z := 1.
Definition WITH_PROGRESS : Z := 2.
Definition AFTER_PROGRESS : Z := 4.
Definition BEFORE_PROGRESS : Z := 8.

(** [pool_flags[i] |= flag]. *)
Definition or_flag (flag i : Z) (pool_flags : list Z) : option (list Z) :=
  if (i <? 0) || (Z.of_nat (length pool_flags) <=? i) then None
  else Some (alter (fun f => Z.lor f flag) (Z.to_nat i) pool_flags).

Section Check.
Context (abt : margo_abt) (progress_pool_idx : Z).

(** The pools of one scheduler; [first] is [j == 0]. *)
Fixpoint walk_pools (sched : list Z) (first this_es_has_progress_pool : bool) (pool_flags : list Z) : option (bool * list Z) :=
  match sched with
  | [] => Some (this_es_has_progress_pool, pool_flags)
  | pool :: sched =>
      let pool_index := __margo_abt_find_pool_by_handle abt pool in
      let has := (pool_index =? progress_pool_idx) || this_es_has_progress_pool in
      pool_flags ← if first then or_flag USED_AS_FIRST pool_index pool_flags else Some pool_flags;
      pool_flags ← if has && negb (pool_index =? progress_pool_idx) then or_flag AFTER_PROGRESS pool_index pool_flags else Some pool_flags;
      pool_flags ← if negb has && negb (pool_index =? progress_pool_idx) then or_flag BEFORE_PROGRESS pool_index pool_flags else Some pool_flags;
      walk_pools sched false has pool_flags
  end.

Fixpoint mark_with_progress (sched : list Z) (pool_flags : list Z) : option (list Z) :=
  match sched with
  | [] => Some pool_flags
  | pool :: sched =>
      pool_flags ← or_flag WITH_PROGRESS (__margo_abt_find_pool_by_handle abt pool) pool_flags;
      mark_with_progress sched pool_flags
  end.

Fixpoint walk_xstreams (xs : list margo_abt_xstream) (pool_flags : list Z) : option (list Z) :=
  match xs with
  | [] => Some pool_flags
  | es :: xs =>
      let sched := main_pools abt (x_xstream es) in
      '(has, pool_flags) ← walk_pools sched true false pool_flags;
      pool_flags ← (if has : bool then mark_with_progress sched pool_flags else Some pool_flags);
      walk_xstreams xs pool_flags
  end.

Inductive warning := NoXstream | NeverFirst | NeverBefore | AfterProgress | WithProgress.

Definition flag_set (f flag : Z) : bool := negb (Z.land f flag =? 0).

Definition pool_warnings (i : nat) (f : Z) : list (nat * warning) :=
  if f =? 0 then [(i, NoXstream)] else
  (if flag_set f USED_AS_FIRST then [] else [(i, NeverFirst)]) ++
  (if Z.of_nat i =? progress_pool_idx then [] else
   (if flag_set f BEFORE_PROGRESS then [] else [(i, NeverBefore)]) ++
   (if flag_set f AFTER_PROGRESS then [(i, AfterProgress)] else []) ++
   (if flag_set f WITH_PROGRESS then [(i, WithProgress)] else [])).

(** The warnings; the check itself always succeeds, also without memory
    ([calloc]), where it says nothing. *)
Definition sanity_check_abt_configuration (calloc : bool) : option (list (nat * warning)) :=
  if negb calloc then Some [] else
  pool_flags ← walk_xstreams (xstreams abt) (replicate (length (pools abt)) 0);
  Some (concat (imap pool_warnings pool_flags)).

(** ** Specification *)

(** The pools of an execution stream, as indices. *)
Definition sched_indices (x : margo_abt_xstream) : list Z := map (__margo_abt_find_pool_by_handle abt) (main_pools abt (x_xstream x)).

Definition after (es : list Z) (i : Z) : Prop := exists l1 l2, es = l1 ++ progress_pool_idx :: l2 /\ i ∈ l2.
Definition before (es : list Z) (i : Z) : Prop := exists l1 l2, es = l1 ++ i :: l2 /\ progress_pool_idx ∉ l1.

Lemma after_nil i : ~ after [] i.
Proof. by intros ([|] & l2 & H & _). Qed.
Lemma after_cons j es i : after (j :: es) i <-> (j = progress_pool_idx /\ i ∈ es) \/ after es i.
Proof.
  split.
  - intros ([|k l1] & l2 & [= -> ->] & Hi); [by left|]. right. by exists l1, l2.
  - intros [[-> Hi]|(l1 & l2 & -> & Hi)]; [by exists [], es|by exists (j :: l1), l2].
Qed.
Lemma before_nil i : ~ before [] i.
Proof. by intros ([|] & l2 & H & _). Qed.
Lemma before_cons j es i : before (j :: es) i <-> j = i \/ (j ≠ progress_pool_idx /\ before es i).
Proof.
  split.
  - intros ([|k l1] & l2 & [= -> ->] & Hi); [by left|]. right. apply not_elem_of_cons in Hi as [Hk Hi]. split; [congruence|]. by exists l1, l2.
  - intros [->|[Hj (l1 & l2 & -> & Hi)]]; [exists [], es; split; [done|apply not_elem_of_nil]|].
    exists (j :: l1), l2. split; [done|]. apply not_elem_of_cons. split; [congruence|done].
Qed.

(** What the pools of one scheduler add to bit [b] of the flags of pool [i]. *)
Definition adds (es : list Z) (first has : bool) (i b : Z) : Prop :=
  b = 0 /\ first = true /\ head es = Some i \/
  b = 2 /\ i ≠ progress_pool_idx /\ (has = true /\ i ∈ es \/ after es i) \/
  b = 3 /\ i ≠ progress_pool_idx /\ has = false /\ before es i.

(** Bits are added to flags. *)
Definition updates (fs fs' : list Z) (P : Z -> Z -> Prop) : Prop :=
  length fs' = length fs /\
  forall i f, fs !! i = Some f -> exists f', fs' !! i = Some f' /\ forall b, 0 <= b -> Z.testbit f' b = true <-> Z.testbit f b = true \/ P (Z.of_nat i) b.

Lemma updates_refl fs (P : Z -> Z -> Prop) : (forall i b, ~ P i b) -> updates fs fs P.
Proof. intros HP. split; [done|]. intros i f Hf. exists f. split; [done|]. intros b _. specialize (HP (Z.of_nat i) b). tauto. Qed.

Lemma updates_app fs1 fs2 fs3 (P Q : Z -> Z -> Prop) : updates fs1 fs2 P -> updates fs2 fs3 Q -> updates fs1 fs3 (fun i b => P i b \/ Q i b).
Proof.
  intros [L1 U1] [L2 U2]. split; [congruence|]. intros i f Hf. destruct (U1 i f Hf) as (f' & Hf' & H1). destruct (U2 i f' Hf') as (f'' & Hf'' & H2).
  exists f''. split; [done|]. intros b Hb. rewrite H2, H1 by done. tauto.
Qed.

Lemma updates_ext fs fs' (P Q : Z -> Z -> Prop) : (forall i b, Q i b <-> P i b) -> updates fs fs' P -> updates fs fs' Q.
Proof.
  intros HQ [L U]. split; [done|]. intros i f Hf. destruct (U i f Hf) as (f' & Hf' & H). exists f'. split; [done|]. intros b Hb. by rewrite H, HQ.
Qed.

Lemma or_flag_updates n i fs : 0 <= n -> 0 <= i < Z.of_nat (length fs) ->
  exists fs', or_flag (2 ^ n) i fs = Some fs' /\ updates fs fs' (fun j b => j = i /\ b = n).
Proof.
  intros Hn Hi. unfold or_flag. destruct (Z.ltb_spec i 0); [lia|]. destruct (Z.leb_spec (Z.of_nat (length fs)) i); [lia|].
  eexists. split; [reflexivity|]. split; [apply length_alter|]. intros j f Hf. destruct (decide (j = Z.to_nat i)) as [->|Hne].
  - rewrite list_lookup_alter_eq, Hf. eexists. split; [reflexivity|]. intros b Hb. rewrite Z.lor_spec, orb_true_iff.
    rewrite (Z.pow2_bits_eqb n b) by done. rewrite Z.eqb_eq. split; intros [|]; auto; [right; split; [lia|done]|right; symmetry; tauto].
  - rewrite list_lookup_alter_ne by done. exists f. split; [done|]. intros b _. split; [by left|]. intros [|[? _]]; [done|lia].
Qed.

(** Flags updated on a condition. *)
Lemma or_flag_if (c : bool) n i fs : 0 <= n -> 0 <= i < Z.of_nat (length fs) ->
  exists fs', (if c then or_flag (2 ^ n) i fs else Some fs) = Some fs' /\ updates fs fs' (fun j b => c = true /\ j = i /\ b = n).
Proof.
  intros Hn Hi. destruct c.
  - destruct (or_flag_updates n i fs Hn Hi) as (fs' & -> & L & U). exists fs'. split; [done|]. split; [done|].
    intros j f Hf. destruct (U j f Hf) as (f' & Hf' & H). exists f'. split; [done|]. intros b Hb. rewrite H by done. tauto.
  - exists fs. split; [done|]. apply updates_refl. by intros j b [? _].
Qed.

Lemma adds_nil first has i b : ~ adds [] first has i b.
Proof.
  intros [(_ & _ & H)|[(_ & _ & [[_ H]|H])|(_ & _ & _ & H)]]; [done|by apply not_elem_of_nil in H|by apply after_nil in H|by apply before_nil in H].
Qed.

Lemma adds_cons j es first has i b :
  let has' := (j =? progress_pool_idx) || has in
  adds (j :: es) first has i b <->
  (first = true /\ i = j /\ b = 0) \/
  ((has' && negb (j =? progress_pool_idx)) = true /\ i = j /\ b = 2) \/
  ((negb has' && negb (j =? progress_pool_idx)) = true /\ i = j /\ b = 3) \/
  adds es false has' i b.
Proof.
  intros has'. subst has'. unfold adds. rewrite after_cons, before_cons, elem_of_cons. cbn [head].
  destruct (Z.eqb_spec j progress_pool_idx), has, first; cbn [orb andb negb]; naive_solver.
Qed.

Definition in_flags (fs : list Z) (j : Z) : Prop := 0 <= j < Z.of_nat (length fs).

Lemma walk_pools_updates sched : forall first has fs,
  let es := map (__margo_abt_find_pool_by_handle abt) sched in
  Forall (in_flags fs) es ->
  exists fs', walk_pools sched first has fs = Some (has || bool_decide (progress_pool_idx ∈ es), fs') /\ updates fs fs' (adds es first has).
Proof.
  induction sched as [|pool sched IH]; intros first has fs es; subst es; cbn [map walk_pools].
  { intros _. exists fs. rewrite bool_decide_false, orb_false_r by apply not_elem_of_nil. split; [done|]. apply updates_refl. apply adds_nil. }
  set (j := __margo_abt_find_pool_by_handle abt pool). intros [Hj Hall]%Forall_cons. unfold in_flags in Hj.
  destruct (or_flag_if first 0 j fs) as (f1 & H1 & U1); [lia|done|]. pose proof (proj1 U1) as L1.
  destruct (or_flag_if (((j =? progress_pool_idx) || has) && negb (j =? progress_pool_idx)) 2 j f1) as (f2 & H2 & U2); [lia|by rewrite L1|].
  pose proof (proj1 U2) as L2.
  destruct (or_flag_if (negb ((j =? progress_pool_idx) || has) && negb (j =? progress_pool_idx)) 3 j f2) as (f3 & H3 & U3); [lia|by rewrite L2, L1|].
  pose proof (proj1 U3) as L3.
  destruct (IH false ((j =? progress_pool_idx) || has) f3) as (f4 & H4 & U4).
  { unfold in_flags. by rewrite L3, L2, L1. }
  exists f4. change USED_AS_FIRST with (2 ^ 0). change AFTER_PROGRESS with (2 ^ 2). change BEFORE_PROGRESS with (2 ^ 3).
  rewrite H1. cbn [mbind option_bind]. rewrite H2. cbn [mbind option_bind]. rewrite H3. cbn [mbind option_bind]. rewrite H4. split.
  - f_equal. f_equal. destruct (Z.eqb_spec j progress_pool_idx) as [->|Hne]; cbn [orb].
    + rewrite bool_decide_true by left. by rewrite orb_true_r.
    + f_equal. apply bool_decide_ext. rewrite elem_of_cons. naive_solver.
  - eapply updates_ext; [intros i b; apply adds_cons|]. exact (updates_app _ _ _ _ _ U1 (updates_app _ _ _ _ _ U2 (updates_app _ _ _ _ _ U3 U4))).
Qed.

Lemma mark_updates sched : forall fs,
  let es := map (__margo_abt_find_pool_by_handle abt) sched in
  Forall (in_flags fs) es ->
  exists fs', mark_with_progress sched fs = Some fs' /\ updates fs fs' (fun i b => b = 1 /\ i ∈ es).
Proof.
  induction sched as [|pool sched IH]; intros fs es; subst es; cbn [map mark_with_progress].
  { intros _. exists fs. split; [done|]. apply updates_refl. by intros i b [_ ?%not_elem_of_nil]. }
  intros [Hj Hall]%Forall_cons. destruct (or_flag_updates 1 _ fs ltac:(lia) Hj) as (f1 & H1 & U1). change WITH_PROGRESS with (2 ^ 1). rewrite H1.
  destruct (IH f1) as (f2 & H2 & U2); [unfold in_flags; by rewrite (proj1 U1)|]. exists f2. split; [done|].
  eapply updates_ext; [|exact (updates_app _ _ _ _ _ U1 U2)]. intros i b. cbn beta. rewrite elem_of_cons. naive_solver.
Qed.

(** What one execution stream adds. *)
Definition es_adds (es : list Z) (i b : Z) : Prop := adds es true false i b \/ b = 1 /\ progress_pool_idx ∈ es /\ i ∈ es.

Lemma walk_xstreams_updates xs : forall fs,
  Forall (fun x => Forall (in_flags fs) (sched_indices x)) xs ->
  exists fs', walk_xstreams xs fs = Some fs' /\ updates fs fs' (fun i b => Exists (fun x => es_adds (sched_indices x) i b) xs).
Proof.
  induction xs as [|x xs IH]; intros fs; cbn [walk_xstreams].
  { intros _. exists fs. split; [done|]. apply updates_refl. by intros i b ?%Exists_nil. }
  intros [Hx Hall]%Forall_cons. unfold sched_indices in Hx.
  destruct (walk_pools_updates (main_pools abt (x_xstream x)) true false fs Hx) as (f1 & H1 & U1). rewrite H1. cbn [mbind option_bind orb].
  pose proof (proj1 U1) as L1.
  assert (exists f2, (if bool_decide (progress_pool_idx ∈ map (__margo_abt_find_pool_by_handle abt) (main_pools abt (x_xstream x)))
      then mark_with_progress (main_pools abt (x_xstream x)) f1 else Some f1) = Some f2 /\
      updates f1 f2 (fun i b => b = 1 /\ progress_pool_idx ∈ sched_indices x /\ i ∈ sched_indices x)) as (f2 & H2 & U2).
  { case_bool_decide as Hp.
    - destruct (mark_updates (main_pools abt (x_xstream x)) f1) as (f2 & -> & L & U); [unfold in_flags; by rewrite L1|].
      exists f2. split; [done|]. split; [done|]. intros i f Hf. destruct (U i f Hf) as (f' & Hf' & H). exists f'. split; [done|].
      intros b Hb. rewrite H by done. unfold sched_indices. tauto.
    - exists f1. split; [done|]. apply updates_refl. unfold sched_indices. tauto. }
  rewrite H2. cbn [mbind option_bind]. destruct (IH f2) as (f3 & H3 & U3); [unfold in_flags in *; by rewrite (proj1 U2), L1|].
  exists f3. split; [done|]. eapply updates_ext; [|exact (updates_app _ _ _ _ _ U1 (updates_app _ _ _ _ _ U2 U3))].
  intros i b. cbn beta. rewrite Exists_cons. unfold es_adds, sched_indices. tauto.
Qed.

(** ** The warnings *)

Lemma flag_set_testbit f n : 0 <= n -> flag_set f (2 ^ n) = Z.testbit f n.
Proof.
  intros Hn. unfold flag_set. destruct (Z.testbit f n) eqn:Hf; destruct (Z.eqb_spec (Z.land f (2 ^ n)) 0) as [H0|H0]; try done; exfalso.
  - assert (Z.testbit (Z.land f (2 ^ n)) n = false) as H by (by rewrite H0, Z.bits_0). by rewrite Z.land_spec, Hf, Z.pow2_bits_true in H.
  - apply H0. apply Z.bits_inj'. intros m Hm. rewrite Z.land_spec, Z.bits_0, Z.pow2_bits_eqb by done.
    destruct (Z.eqb_spec n m) as [<-|]; [by rewrite Hf|apply andb_false_r].
Qed.

Lemma zero_no_bits f : f = 0 <-> forall b, 0 <= b -> Z.testbit f b = true -> False.
Proof.
  split; [intros -> b _; by rewrite Z.bits_0|]. intros H. apply Z.bits_inj'. intros b Hb. rewrite Z.bits_0.
  destruct (Z.testbit f b) eqn:E; [by destruct (H b Hb)|done].
Qed.

Lemma in_pool_warnings i f k w : (k, w) ∈ pool_warnings i f <-> k = i /\
  match w with
  | NoXstream => f = 0
  | NeverFirst => f ≠ 0 /\ Z.testbit f 0 = false
  | NeverBefore => f ≠ 0 /\ Z.of_nat i ≠ progress_pool_idx /\ Z.testbit f 3 = false
  | AfterProgress => Z.of_nat i ≠ progress_pool_idx /\ Z.testbit f 2 = true
  | WithProgress => Z.of_nat i ≠ progress_pool_idx /\ Z.testbit f 1 = true
  end.
Proof.
  unfold pool_warnings. change USED_AS_FIRST with (2 ^ 0). change WITH_PROGRESS with (2 ^ 1). change AFTER_PROGRESS with (2 ^ 2).
  change BEFORE_PROGRESS with (2 ^ 3). rewrite !flag_set_testbit by lia. destruct (Z.eqb_spec f 0) as [->|Hf].
  - rewrite list_elem_of_singleton, !Z.bits_0. destruct w; naive_solver.
  - destruct (Z.eqb_spec (Z.of_nat i) progress_pool_idx), (Z.testbit f 0), (Z.testbit f 1), (Z.testbit f 2), (Z.testbit f 3); cbn [app];
      rewrite ?elem_of_cons, ?elem_of_nil; destruct w; naive_solver.
Qed.

Lemma in_warnings flags k w : (k, w) ∈ concat (imap pool_warnings flags) <-> exists f, flags !! k = Some f /\ (k, w) ∈ pool_warnings k f.
Proof.
  rewrite list_elem_of_In, in_concat. split.
  - intros (l & Hl%list_elem_of_In & Hk%list_elem_of_In). apply elem_of_lookup_imap in Hl as (i & f & -> & Hf).
    pose proof Hk as [-> _]%in_pool_warnings. by exists f.
  - intros (f & Hf & Hk). exists (pool_warnings k f). rewrite <- !list_elem_of_In. split; [|done]. apply elem_of_lookup_imap. by exists k, f.
Qed.

Definition uses (i : nat) (x : margo_abt_xstream) : Prop := Z.of_nat i ∈ sched_indices x.

#[local] Instance uses_dec i x : Decision (uses i x).
Proof. unfold uses. apply _. Defined.

Lemma used_bits i x : uses i x <-> exists b, 0 <= b /\ es_adds (sched_indices x) (Z.of_nat i) b.
Proof.
  unfold uses, es_adds, adds. split.
  - intros Hi. destruct (decide (progress_pool_idx ∈ sched_indices x)) as [Hp|Hp]; [exists 1; split; [lia|by right]|].
    exists 3. split; [lia|]. left. right. right. split; [done|]. split; [congruence|]. split; [done|].
    apply list_elem_of_split in Hi as (l1 & l2 & E). exists l1, l2. split; [done|]. intros Hl. apply Hp. rewrite E, elem_of_app. by left.
  - intros (b & _ & [[(_ & _ & H)|[(_ & _ & [[? _]|(l1 & l2 & -> & H)])|(_ & _ & _ & (l1 & l2 & -> & _))]]|(_ & _ & H)]); try done;
      try (rewrite elem_of_app, elem_of_cons; tauto).
    destruct (sched_indices x); [done|]. injection H as ->. left.
Qed.

Lemma bit_meaning es i b :
  es_adds es i b <-> b = 0 /\ head es = Some i \/ b = 1 /\ progress_pool_idx ∈ es /\ i ∈ es \/
    b = 2 /\ i ≠ progress_pool_idx /\ after es i \/ b = 3 /\ i ≠ progress_pool_idx /\ before es i.
Proof. unfold es_adds, adds. naive_solver. Qed.

Lemma exists_and {A} (P : Prop) (Q : A -> Prop) l : Exists (fun x => P /\ Q x) l <-> P /\ Exists Q l.
Proof. rewrite !Exists_exists. naive_solver. Qed.

Lemma exists_iff {A} (P Q : A -> Prop) l : (forall x, P x <-> Q x) -> Exists P l <-> Exists Q l.
Proof. intros H. rewrite !Exists_exists. split; intros (x & Hx & Hp); exists x; (split; [done|by apply H]). Qed.

Lemma bit_exists i xs :
  let any P := Exists (fun x => P (sched_indices x)) xs in
  (any (fun es => es_adds es i 0) <-> any (fun es => head es = Some i)) /\
  (any (fun es => es_adds es i 1) <-> any (fun es => progress_pool_idx ∈ es /\ i ∈ es)) /\
  (any (fun es => es_adds es i 2) <-> i ≠ progress_pool_idx /\ any (fun es => after es i)) /\
  (any (fun es => es_adds es i 3) <-> i ≠ progress_pool_idx /\ any (fun es => before es i)).
Proof.
  cbv zeta. rewrite <- !exists_and. split_and!; apply exists_iff; intros x; rewrite bit_meaning; naive_solver lia.
Qed.

(** C27: For well-formed tables the check never leaves the array of flags and warns
    exactly of these: a pool without execution stream; a pool that is first in
    none; and, for another pool than the progress pool, one that comes before it
    in none, one that comes after it in some, and one that shares an execution
    stream with it. *)
Theorem sanity_check_exact : wf abt -> exists ws,
  sanity_check_abt_configuration true = Some ws /\
  forall i, (i < length (pools abt))%nat ->
    let ess := xstreams abt in let z := Z.of_nat i in
    ((i, NoXstream) ∈ ws <-> ~ Exists (uses i) ess) /\
    ((i, NeverFirst) ∈ ws <-> Exists (uses i) ess /\ ~ Exists (fun x => head (sched_indices x) = Some z) ess) /\
    ((i, NeverBefore) ∈ ws <-> z ≠ progress_pool_idx /\ Exists (uses i) ess /\ ~ Exists (fun x => before (sched_indices x) z) ess) /\
    ((i, AfterProgress) ∈ ws <-> z ≠ progress_pool_idx /\ Exists (fun x => after (sched_indices x) z) ess) /\
    ((i, WithProgress) ∈ ws <-> z ≠ progress_pool_idx /\ Exists (fun x => progress_pool_idx ∈ sched_indices x /\ uses i x) ess).
Proof.
  intros Hwf. unfold sanity_check_abt_configuration. cbn [negb].
  destruct (walk_xstreams_updates (xstreams abt) (replicate (length (pools abt)) 0)) as (flags & -> & L & U).
  { apply Forall_forall. intros x Hx. apply Forall_forall. intros j (h & -> & Hh)%list_elem_of_fmap. unfold in_flags. rewrite length_replicate.
    assert (h ∈ map p_pool (pools abt)) as Hin.
    { eapply (proj1 (Forall_forall _ _) (wf_registered _ Hwf)). apply list_elem_of_bind. by exists x. }
    assert (h ≠ 0) as Hnz.
    { apply list_elem_of_fmap in Hin as (p & -> & Hp). by apply (proj1 (Forall_forall _ _) (wf_nonnull _ Hwf)). }
    destruct (find_pool_by_handle_spec abt h Hnz) as [[_ Hno]|(k & p & -> & Hk & _)]; [done|]. apply lookup_lt_Some in Hk. lia. }
  cbn [mbind option_bind]. eexists. split; [reflexivity|]. intros i Hi.
  destruct (U i 0) as (f & Hf & Hbits); [by apply lookup_replicate_2|].
  assert (forall b, 0 <= b -> Z.testbit f b = true <-> Exists (fun x => es_adds (sched_indices x) (Z.of_nat i) b) (xstreams abt)) as Hb.
  { intros b Hb. rewrite Hbits by done. rewrite Z.bits_0. naive_solver. }
  assert (f ≠ 0 <-> Exists (uses i) (xstreams abt)) as Hused.
  { rewrite zero_no_bits, Exists_exists. split.
    - intros Hn. destruct (Exists_dec (uses i) (xstreams abt)) as [Hyes|Hno]; [by apply Exists_exists|].
      destruct Hn. intros b H0 (x & Hx & Ha)%Hb%Exists_exists; [|done]. apply Hno, Exists_exists. exists x. split; [done|]. apply used_bits. by exists b.
    - intros (x & Hx & (b & H0 & Ha)%used_bits) Hn. apply (Hn b H0), Hb; [done|]. apply Exists_exists. by exists x. }
  assert (forall w, (i, w) ∈ concat (imap pool_warnings flags) <-> (i, w) ∈ pool_warnings i f) as Hw.
  { intros w. rewrite in_warnings. rewrite Hf. naive_solver. }
  assert (forall b, 0 <= b -> Z.testbit f b = false <-> ~ Exists (fun x => es_adds (sched_indices x) (Z.of_nat i) b) (xstreams abt)) as Hnb.
  { intros b H0. by rewrite <- Hb, not_true_iff_false. }
  rewrite !Hw, !in_pool_warnings, !Hb, !Hnb by lia. rewrite Hused.
  assert (f = 0 <-> ~ Exists (uses i) (xstreams abt)) as -> by (rewrite <- Hused; lia).
  destruct (bit_exists (Z.of_nat i) (xstreams abt)) as (-> & -> & -> & ->). unfold uses. tauto.
Qed.
End Check.


(** ** Example *)

(** The progress pool and another one on one execution stream, in this order, and a
    pool without. *)
Definition shared_tables : margo_abt :=
  Abt [Pool "progress" 8 "fifo_wait" None 0 1 true false; Pool "rpc" 9 "fifo_wait" None 0 1 true false; Pool "idle" 10 "fifo_wait" None 0 0 true false]
      4 [Xstream "es" 5 "basic_wait" 0 true] 1 "." {[5 := [8; 9]]} [].

Lemma shared_tables_wf : wf shared_tables.
Proof.
  constructor; cbn; try (apply (bool_decide_unpack _); vm_compute; exact I); try lia.
Qed.

Lemma sanity_check_exact_witness :
  sanity_check_abt_configuration shared_tables 0 true =
    Some [(1%nat, NeverFirst); (1%nat, NeverBefore); (1%nat, AfterProgress); (1%nat, WithProgress); (2%nat, NoXstream)] /\
  Exists (fun x => after 0 (sched_indices shared_tables x) 1) (xstreams shared_tables).
Proof.
  split; [vm_compute; reflexivity|].
  destruct (sanity_check_exact shared_tables 0 shared_tables_wf) as (ws & Hws & H). vm_compute in Hws. injection Hws as <-.
  destruct (H 1%nat) as (_ & _ & _ & Hafter & _); [cbn; lia|]. apply Hafter. set_solver.
Defined.
