(* ===== verification/Rpc.v ===== *)
(** * Registration of RPCs (src/margo-core.c)

    Registering, deregistering and moving RPCs between pools, with the counts of
    the RPC ids that use each pool of the instance.  Mercury's table of
    registered RPCs is behind a class; the data Margo attaches to an id is read
    and written through it. *)

From stdpp Require Import strings pretty.
From S2P Require Import Prelude Id Json AbtConfig AbtTables Config.

#[local] Open Scope Z_scope.

(** ** Data *)

(** [struct margo_rpc_data]; callbacks and user data are numbers, 0 is NULL. *)
Record rpc_data := RpcData {
  r_pool : Z;
  r_name : option string;
  r_in_proc : Z;
  r_out_proc : Z;
  r_user_data : Z;
  r_user_free : Z
}.

Definition set_pool (pool : Z) (d : rpc_data) : rpc_data :=
  RpcData pool (r_name d) (r_in_proc d) (r_out_proc d) (r_user_data d) (r_user_free d).
Definition set_user (data free_callback : Z) (d : rpc_data) : rpc_data :=
  RpcData (r_pool d) (r_name d) (r_in_proc d) (r_out_proc d) data free_callback.

(** Mercury's table: registering an id again keeps its data, deregistering it
    forgets them. *)
Class Registry (H : Type) := {
  HG_Registered_data : H -> Z -> option rpc_data;
  HG_Register : H -> Z -> hg_return_t * H;
  HG_Register_data : H -> Z -> rpc_data -> hg_return_t * H;
  HG_Deregister : H -> Z -> hg_return_t * H;
  write_data : H -> Z -> rpc_data -> H;
  register_keeps h id id' : HG_Registered_data (HG_Register h id).2 id' = HG_Registered_data h id';
  register_data_spec h id d id' :
    HG_Registered_data (HG_Register_data h id d).2 id' =
    if is_success (HG_Register_data h id d).1 && (id' =? id) then Some d else HG_Registered_data h id';
  deregister_spec h id id' :
    HG_Registered_data (HG_Deregister h id).2 id' =
    if is_success (HG_Deregister h id).1 && (id' =? id) then None else HG_Registered_data h id';
  write_data_spec h id d id' : is_Some (HG_Registered_data h id) ->
    HG_Registered_data (write_data h id d) id' = if id' =? id then Some d else HG_Registered_data h id'
}.

(** Calls of user callbacks that free user data. *)
Inductive freed := UserFree (callback data : Z).

Record state (H : Type) := State {
  inst : instance;
  hg : H;
  registered_rpcs : list (string * Z);
  num_registered_rpcs : Z;
  frees : list freed
}.
Arguments State {H} _ _ _ _ _.
Arguments inst {H} _.
Arguments hg {H} _.
Arguments registered_rpcs {H} _.
Arguments num_registered_rpcs {H} _.
Arguments frees {H} _.

Section Registration.
Context {H : Type} `{Registry H}.

Definition with_inst (m : instance) (s : state H) : state H := State m (hg s) (registered_rpcs s) (num_registered_rpcs s) (frees s).
Definition with_hg (h : H) (s : state H) : state H := State (inst s) h (registered_rpcs s) (num_registered_rpcs s) (frees s).
Definition with_rpcs (l : list (string * Z)) (n : Z) (s : state H) : state H := State (inst s) (hg s) l n (frees s).
Definition with_frees (l : list freed) (s : state H) : state H :=
  State (inst s) (hg s) (registered_rpcs s) (num_registered_rpcs s) (frees s ++ l).

(** The reference count of entry [index], up or down. *)
Definition add_ref (d : Z) (p : margo_abt_pool) : margo_abt_pool := pool_set_refcount (u32 (p_refcount p + d)) p.
Definition ref_at (d : Z) (index : Z) (s : state H) : state H :=
  let a := abt (inst s) in with_inst (set_abt (set_pools (alter (add_ref d) (Z.to_nat index) (pools a)) a) (inst s)) s.

(** ** Operations *)

(** [malloc] is whether the data can be allocated; 0 is the result of a failure. *)
Definition margo_register_internal (malloc : bool) (name : option string) (id in_proc_cb out_proc_cb pool : Z) (s : state H)
    : Z * state H :=
  let pool := if pool =? 0 then MARGO_RPC_POOL (inst s) else pool in
  let '(hret, h) := HG_Register (hg s) id in
  let s := with_hg h s in
  if negb (is_success hret) then (0, s)
  else
    let '(ok, s) :=
      match HG_Registered_data (hg s) id with
      | Some _ => (true, s)
      | None =>
          if negb malloc then (false, s)
          else
            let '(hret, h) := HG_Register_data (hg s) id (RpcData pool name in_proc_cb out_proc_cb 0 0) in
            (is_success hret, with_hg h s)
      end in
    if negb ok then (0, s)
    else
      let '(_, ret, _, info) := margo_find_pool_by_handle (inst s) pool in
      match info with
      | Some i => (id, ref_at 1 (i_index i) s)
      | None => (id, s)
      end.

Definition margo_provider_register_name (hg_ge_2_3 calloc malloc : bool) (func_name : string) (in_proc_cb out_proc_cb provider_id pool : Z)
    (s : state H) : Z * state H :=
  let id := gen_id hg_ge_2_3 func_name provider_id in
  if negb calloc then (0, s)
  else
    let s := with_rpcs ((String.substring 0 63 func_name, id) :: registered_rpcs s) (u16 (num_registered_rpcs s + 1)) s in
    let '(id, s) := margo_register_internal malloc (Some func_name) id in_proc_cb out_proc_cb pool s in
    if id =? 0 then (0, with_rpcs (tail (registered_rpcs s)) (u16 (num_registered_rpcs s - 1)) s) else (id, s).

Definition margo_rpc_data_free (d : rpc_data) : list freed :=
  if negb (r_user_data d =? 0) && negb (r_user_free d =? 0) then [UserFree (r_user_free d) (r_user_data d)] else [].

(** Mercury frees the data with [margo_rpc_data_free]. *)
Definition margo_deregister (rpc_id : Z) (s : state H) : hg_return_t * state H :=
  let data := HG_Registered_data (hg s) rpc_id in
  let s :=
    match data with
    | Some d =>
        let index := __margo_abt_find_pool_by_handle (abt (inst s)) (r_pool d) in
        if 0 <=? index then ref_at (-1) index s else s
    | None => s
    end in
  let '(hret, h) := HG_Deregister (hg s) rpc_id in
  let s := with_hg h s in
  match data with
  | Some d => if is_success hret then (hret, with_frees (margo_rpc_data_free d) s) else (hret, s)
  | None => (hret, s)
  end.

Definition margo_register_data (id data free_callback : Z) (s : state H) : hg_return_t * state H :=
  match HG_Registered_data (hg s) id with
  | None => (HG_OTHER_ERROR, s)
  | Some d => (HG_SUCCESS, with_frees (margo_rpc_data_free d) (with_hg (write_data (hg s) id (set_user data free_callback d)) s))
  end.

Definition margo_registered_data (id : Z) (s : state H) : Z :=
  match HG_Registered_data (hg s) id with Some d => r_user_data d | None => 0 end.

Definition margo_rpc_get_name (id : Z) (s : state H) : option string := HG_Registered_data (hg s) id ≫= r_name.

Definition margo_rpc_get_pool (id : Z) (s : state H) : hg_return_t * option Z :=
  match HG_Registered_data (hg s) id with None => (HG_NOENTRY, None) | Some d => (HG_SUCCESS, Some (r_pool d)) end.

Definition margo_rpc_set_pool (id pool : Z) (s : state H) : hg_return_t * state H :=
  match HG_Registered_data (hg s) id with
  | None => (HG_NOENTRY, s)
  | Some d =>
      let pool := if pool =? 0 then MARGO_RPC_POOL (inst s) else pool in
      let old_pool_entry_idx := __margo_abt_find_pool_by_handle (abt (inst s)) (r_pool d) in
      let new_pool_entry_idx := __margo_abt_find_pool_by_handle (abt (inst s)) pool in
      let s := if 0 <=? old_pool_entry_idx then ref_at (-1) old_pool_entry_idx s else s in
      let s := if 0 <=? new_pool_entry_idx then ref_at 1 new_pool_entry_idx s else s in
      (HG_SUCCESS, with_hg (write_data (hg s) id (set_pool pool d)) s)
  end.

(** ** Specification *)

(** The registered ids among [ids] that use a pool. *)
Definition users (h : H) (ids : list Z) (pool : Z) : nat :=
  length (filter (fun id => r_pool <$> HG_Registered_data h id = Some pool) ids).

(** [ids] are the registered ids and [ext] the references taken by
    [margo_pool_ref_incr]; each pool counts both. *)
Record rpc_inv (s : state H) (ids : list Z) (ext : Z -> nat) : Prop := {
  ri_wf : wf (abt (inst s));
  ri_nodup : NoDup ids;
  ri_ids : forall id, is_Some (HG_Registered_data (hg s) id) <-> id ∈ ids;
  ri_counts : Forall (fun p => p_refcount p = u32 (Z.of_nat (users (hg s) ids (p_pool p) + ext (p_pool p)))) (pools (abt (inst s)))
}.

(** One call.  RPCs are registered under ids that are not registered, calls of
    Mercury to deregister succeed, a pool enters the table before it is used,
    and users release only references they took. *)
Inductive rstep (s : state H) (ids : list Z) (ext : Z -> nat) : state H -> list Z -> (Z -> nat) -> Prop :=
  | r_register malloc name id in_proc_cb out_proc_cb pool id' s' :
      id ≠ 0 -> id ∉ ids ->
      margo_register_internal malloc name id in_proc_cb out_proc_cb pool s = (id', s') ->
      rstep s ids ext s' (if id' =? 0 then ids else id :: ids) ext
  | r_deregister id s' :
      margo_deregister id s = (HG_SUCCESS, s') ->
      rstep s ids ext s' (filter (fun i => i ≠ id) ids) ext
  | r_set_pool id pool ret s' :
      margo_rpc_set_pool id pool s = (ret, s') -> rstep s ids ext s' ids ext
  | r_incr pool acts m' :
      margo_pool_ref_incr_by_handle (inst s) pool = (acts, HG_SUCCESS, m', tt) ->
      rstep s ids ext (with_inst m' s) ids (fun h => if decide (h = pool) then S (ext h) else ext h)
  | r_release pool acts m' n :
      ext pool = S n ->
      margo_pool_release_by_handle (inst s) pool = (acts, HG_SUCCESS, m', tt) ->
      rstep s ids ext (with_inst m' s) ids (fun h => if decide (h = pool) then n else ext h)
  | r_table initialized c a' :
      AbtTables.step initialized c (abt (inst s)) a' ->
      (forall name h, c = AddJson name h true \/ c = AddExternal name h true -> users (hg s) ids h = 0%nat /\ ext h = 0%nat) ->
      rstep s ids ext (with_inst (set_abt a' (inst s)) s) ids ext.

Inductive rsteps (s : state H) (ids : list Z) (ext : Z -> nat) : state H -> list Z -> (Z -> nat) -> Prop :=
  | rsteps_refl : rsteps s ids ext s ids ext
  | rsteps_step s1 ids1 ext1 s2 ids2 ext2 :
      rsteps s ids ext s1 ids1 ext1 -> rstep s1 ids1 ext1 s2 ids2 ext2 -> rsteps s ids ext s2 ids2 ext2.
End Registration.

(** ** One more or one less reference *)

Definition ref_pool (d h : Z) (a : margo_abt) : margo_abt :=
  set_pools (map (fun p => if decide (p_pool p = h) then add_ref d p else p) (pools a)) a.

Lemma ref_pool_absent d h a : h ∉ map p_pool (pools a) -> ref_pool d h a = a.
Proof.
  intros Hh. unfold ref_pool. rewrite (map_ext_in _ id), map_id; [by destruct a|].
  intros p Hp%list_elem_of_In. case_decide as He; [|done]. destruct Hh. apply list_elem_of_fmap. by exists p.
Qed.

Lemma alter_ref a k p d : NoDup (map p_pool (pools a)) -> pools a !! k = Some p ->
  set_pools (alter (add_ref d) k (pools a)) a = ref_pool d (p_pool p) a.
Proof. intros Hnd Hk. unfold ref_pool. by rewrite (alter_by_key _ _ _ _ Hnd Hk). Qed.

Lemma map_ref_key {K} (key : margo_abt_pool -> K) d h l : (forall n p, key (pool_set_refcount n p) = key p) ->
  map key (map (fun p => if decide (p_pool p = h) then add_ref d p else p) l) = map key l.
Proof. intros Hk. rewrite map_map. apply map_ext. intros p. case_decide; [apply Hk|done]. Qed.

Lemma wf_ref_pool d h a : wf a -> wf (ref_pool d h a).
Proof.
  intros []. constructor; try done; unfold ref_pool; cbn [pools set_pools pools_cap]; rewrite ?map_ref_key by done; try done.
  - apply Forall_map. eapply Forall_impl; [exact wf_nonnull|]. intros p Hp. by case_decide.
  - by rewrite length_map.
  - apply Forall_map. eapply Forall_impl; [exact wf_count|]. intros p Hp. by case_decide.
Qed.

Lemma find_ref_pool d h a handle : __margo_abt_find_pool_by_handle (ref_pool d h a) handle = __margo_abt_find_pool_by_handle a handle.
Proof.
  unfold __margo_abt_find_pool_by_handle. destruct (handle =? 0); [done|]. unfold ref_pool. cbn [pools set_pools].
  generalize 0. induction (pools a) as [|p l IH]; intros i; simpl; [done|]. rewrite IH. by case_decide.
Qed.

(** The counts follow. *)
Lemma ref_pool_counts d h a (F G : Z -> nat) :
  (forall h', Z.of_nat (G h') = Z.of_nat (F h') + if decide (h' = h) then d else 0) ->
  Forall (fun p => p_refcount p = u32 (Z.of_nat (F (p_pool p)))) (pools a) ->
  Forall (fun p => p_refcount p = u32 (Z.of_nat (G (p_pool p)))) (pools (ref_pool d h a)).
Proof.
  intros HG HF. unfold ref_pool. cbn [pools set_pools]. apply Forall_map. eapply Forall_impl; [exact HF|].
  intros p Hp. cbn beta. specialize (HG (p_pool p)). destruct (decide (p_pool p = h)).
  - change (p_pool (add_ref d p)) with (p_pool p). unfold add_ref, pool_set_refcount. cbn [p_refcount]. by rewrite Hp, u32_add_l, HG.
  - by rewrite Hp, HG, Z.add_0_r.
Qed.

Lemma counts_ext a (F G : Z -> nat) : (forall h, G h = F h) ->
  Forall (fun p => p_refcount p = u32 (Z.of_nat (F (p_pool p)))) (pools a) ->
  Forall (fun p => p_refcount p = u32 (Z.of_nat (G (p_pool p)))) (pools a).
Proof. intros HG HF. eapply Forall_impl; [exact HF|]. intros p Hp. cbn beta in *. by rewrite HG. Qed.

Section Facts.
Context {H : Type} `{Registry H}.
Implicit Types (s : state H).

Lemma find_ref d h s : wf (abt (inst s)) ->
  (if 0 <=? __margo_abt_find_pool_by_handle (abt (inst s)) h then ref_at d (__margo_abt_find_pool_by_handle (abt (inst s)) h) s else s) =
  with_inst (set_abt (ref_pool d h (abt (inst s))) (inst s)) s.
Proof.
  intros Hwf. destruct (Z.eq_dec h 0) as [->|Hh].
  - rewrite ref_pool_absent; [by destruct s as [[] ? ? ? ?]|]. intros (p & Hp0 & Hp)%list_elem_of_fmap.
    pose proof (AbtTables.wf_nonnull _ Hwf) as Hn. rewrite Forall_forall in Hn. by apply (Hn p).
  - destruct (find_pool_by_handle_spec (abt (inst s)) h Hh) as [[-> Hn]|(k & p & -> & Hk & <-)].
    + rewrite ref_pool_absent by done. by destruct s as [[] ? ? ? ?].
    + rewrite (proj2 (Z.leb_le 0 (Z.of_nat k))) by lia. unfold ref_at. rewrite Nat2Z.id.
      by rewrite (alter_ref _ _ _ _ (AbtTables.wf_handles _ Hwf) Hk).
Qed.

(** The functions by handle of Config, found or not. *)
Lemma first_entry_absent h l j : h ∉ map p_pool l -> first_entry (has_handle (E := margo_abt_pool) h) l j = None.
Proof.
  revert j. induction l as [|p l IH]; intros j Hn; [done|]. simpl in *. apply not_elem_of_cons in Hn as [Hne Hn].
  unfold has_handle at 1. simpl. rewrite (proj2 (Z.eqb_neq _ _)) by congruence. by apply IH.
Qed.

Lemma by_handle_cases {R} body (r0 : R) m h : wf (abt m) ->
  (exists acts ret, by_handle (E := margo_abt_pool) body r0 m h = (acts, ret, m, r0) /\ ret ≠ HG_SUCCESS /\ h ∉ map p_pool (pools (abt m))) \/
  exists k p, pools (abt m) !! k = Some p /\ p_pool p = h /\ h ≠ 0 /\
    by_handle (E := margo_abt_pool) body r0 m h =
    let '(acts, ret, e, r) := body k p in
    ([Lock] ++ acts ++ [Unlock], ret, set_abt (set_pools (<[k := e]> (pools (abt m))) (abt m)) m, r).
Proof.
  intros Hwf. destruct (Z.eq_dec h 0) as [->|Hh].
  - left. exists [], HG_INVALID_ARG. split_and!; [done..|]. intros (p & Hp0 & Hp)%list_elem_of_fmap.
    pose proof (AbtTables.wf_nonnull _ Hwf) as Hn. rewrite Forall_forall in Hn. by apply (Hn p).
  - destruct (find_pool_by_handle_spec (abt m) h Hh) as [[_ Hn]|(k & p & _ & Hk & Hp)].
    + left. exists [Lock; Unlock], HG_NOENTRY. split_and!; [|done..]. unfold by_handle, locked_loop.
      rewrite (proj2 (Z.eqb_neq _ _) Hh). change (entries (abt m)) with (pools (abt m)). by rewrite first_entry_absent.
    + right. exists k, p. split_and!; [done..|]. subst h. by apply pool_by_handle.
Qed.

Lemma insert_ref d k p m : wf (abt m) -> pools (abt m) !! k = Some p ->
  set_pools (<[k := add_ref d p]> (pools (abt m))) (abt m) = ref_pool d (p_pool p) (abt m).
Proof.
  intros Hwf Hk. rewrite <- (alter_ref _ _ _ _ (AbtTables.wf_handles _ Hwf) Hk). f_equal. apply list_eq. intros j.
  rewrite list_lookup_alter. destruct (decide (k = j)) as [->|].
  - rewrite list_lookup_insert_eq by (by eapply lookup_lt_Some). by rewrite Hk.
  - by rewrite list_lookup_insert_ne.
Qed.

(** *** Users of a pool *)

Lemma users_cons h id ids pool :
  users h (id :: ids) pool = ((if decide (r_pool <$> HG_Registered_data h id = Some pool) then 1 else 0) + users h ids pool)%nat.
Proof. unfold users. rewrite filter_cons. by case_decide. Qed.

Lemma users_perm h ids ids' pool : ids ≡ₚ ids' -> users h ids pool = users h ids' pool.
Proof. intros Hp. unfold users. by rewrite Hp. Qed.

Lemma users_ext h h' ids pool : (forall id, id ∈ ids -> HG_Registered_data h' id = HG_Registered_data h id) ->
  users h' ids pool = users h ids pool.
Proof.
  induction ids as [|id ids IH]; intros He; [done|]. rewrite !users_cons, He by (by constructor).
  rewrite IH; [done|]. intros. apply He. by constructor.
Qed.

Lemma register_inv malloc name id inp outp pool s id' s' ids ext : rpc_inv s ids ext -> id ≠ 0 -> id ∉ ids ->
  margo_register_internal malloc name id inp outp pool s = (id', s') ->
  rpc_inv s' (if id' =? 0 then ids else id :: ids) ext.
Proof.
  intros [Hwf Hnd Hids Hc] Hid0 Hid. unfold margo_register_internal.
  set (pl := if pool =? 0 then MARGO_RPC_POOL (inst s) else pool).
  pose proof (register_keeps (hg s) id) as Hk. destruct (HG_Register (hg s) id) as [hret h]. simpl in Hk.
  assert (rpc_inv (with_hg h s) ids ext) as Hinv.
  { constructor; simpl; [done|done|intros i; by rewrite Hk|]. apply (counts_ext _ (fun p => users (hg s) ids p + ext p)%nat (fun p => users h ids p + ext p)%nat); [|exact Hc]. intros p.
    f_equal. by apply users_ext. }
  destruct (is_success hret); simpl; [|by intros [= <- <-]].
  rewrite Hk. assert (HG_Registered_data (hg s) id = None) as Hnone.
  { apply eq_None_not_Some. by rewrite Hids. }
  rewrite Hnone. destruct malloc; simpl; [|by intros [= <- <-]].
  pose proof (register_data_spec h id (RpcData pl name inp outp 0 0)) as Hd.
  destruct (HG_Register_data h id _) as [hret2 h2]. simpl in Hd.
  destruct (is_success hret2) eqn:Hs2; simpl in Hd |- *.
  2:{ intros [= <- <-]. constructor; simpl; [done|done|intros i; by rewrite Hd, Hk, Hids|]. 
      apply (counts_ext _ (fun p => users (hg s) ids p + ext p)%nat (fun p => users h2 ids p + ext p)%nat); [|exact Hc].
      intros p. f_equal. apply users_ext. intros i _. by rewrite Hd, Hk. }
  assert (forall p, users h2 (id :: ids) p = ((if decide (p = pl) then 1 else 0) + users (hg s) ids p)%nat) as Hu.
  { intros p. rewrite users_cons, Hd, Z.eqb_refl. f_equal; [destruct (decide (p = pl)) as [->|]; [by rewrite decide_True|by rewrite decide_False by (cbn; congruence)]|].
    apply users_ext. intros i Hi. rewrite Hd, (proj2 (Z.eqb_neq i id)) by congruence. by rewrite Hk. }
  assert (forall i, is_Some (HG_Registered_data h2 i) <-> i ∈ id :: ids) as Hids2.
  { intros i. rewrite Hd, elem_of_cons. destruct (Z.eqb_spec i id); simpl; [naive_solver|]. rewrite Hk, Hids. naive_solver. }
  assert (Forall (fun p => p_refcount p = u32 (Z.of_nat (users h2 (id :: ids) (p_pool p) + ext (p_pool p)))) (pools (ref_pool 1 pl (abt (inst s))))) as Hc2.
  { apply (ref_pool_counts 1 pl _ (fun p => users (hg s) ids p + ext p)%nat (fun p => users h2 (id :: ids) p + ext p)%nat); [|exact Hc].
    intros p. rewrite Hu. case_decide; lia. }
  unfold margo_find_pool_by_handle.
  destruct (by_handle_cases find_body None (inst s) pl Hwf) as [(acts & ret & -> & _ & Hn)|(k & p & Hkp & Hp & _ & ->)]; simpl;
    intros [= <- <-]; rewrite (proj2 (Z.eqb_neq _ _) Hid0).
  - rewrite ref_pool_absent in Hc2 by done. constructor; [done|by constructor|exact Hids2|exact Hc2].
  - unfold ref_at. simpl. rewrite Nat2Z.id, (alter_ref _ _ _ _ (AbtTables.wf_handles _ Hwf) Hkp), Hp.
    constructor; [by apply wf_ref_pool|by constructor|exact Hids2|exact Hc2].
Qed.

Lemma filter_ne_perm (id : Z) ids : NoDup ids -> id ∈ ids -> ids ≡ₚ id :: filter (fun i => i ≠ id) ids.
Proof.
  intros Hnd Hin. apply NoDup_Permutation; [done| |].
  - apply NoDup_cons. split; [by intros [? _]%list_elem_of_filter|by apply NoDup_filter].
  - intros i. rewrite elem_of_cons, list_elem_of_filter. destruct (Z.eq_dec i id); naive_solver.
Qed.

Lemma filter_ne_absent (id : Z) (ids : list Z) : id ∉ ids -> filter (fun i => i ≠ id) ids = ids.
Proof.
  induction ids as [|i ids IH]; intros Hn; [done|]. apply not_elem_of_cons in Hn as [Hne Hn].
  rewrite filter_cons, decide_True by congruence. by rewrite IH.
Qed.

Lemma deregister_inv id s s' ids ext : rpc_inv s ids ext -> margo_deregister id s = (HG_SUCCESS, s') ->
  rpc_inv s' (filter (fun i => i ≠ id) ids) ext.
Proof.
  intros [Hwf Hnd Hids Hc]. unfold margo_deregister. destruct (HG_Registered_data (hg s) id) as [d|] eqn:Hd.
  - rewrite find_ref by done. cbn [hg with_inst].
    pose proof (deregister_spec (hg s) id) as Hr. destruct (HG_Deregister (hg s) id) as [hret h]. simpl in Hr.
    destruct (is_success hret) eqn:Hs; intros [= He <-]; [|by subst].
    assert (id ∈ ids) as Hin by (apply Hids; by eexists).
    pose proof (filter_ne_perm id ids Hnd Hin) as Hp.
    assert (forall i, is_Some (HG_Registered_data h i) <-> i ∈ filter (fun i => i ≠ id) ids) as Hids2.
    { intros i. rewrite Hr, list_elem_of_filter. destruct (Z.eqb_spec i id); simpl; [split; [by intros []|naive_solver]|]. rewrite Hids. naive_solver. }
    constructor; cbn [inst hg with_frees with_hg with_inst abt set_abt]; [by apply wf_ref_pool|by apply NoDup_filter|exact Hids2|].
    apply (ref_pool_counts (-1) (r_pool d) _ (fun p => users (hg s) ids p + ext p)%nat
      (fun p => users h (filter (fun i => i ≠ id) ids) p + ext p)%nat); [|exact Hc].
    intros p. rewrite (users_perm _ _ _ p Hp), users_cons, Hd.
    rewrite (users_ext (hg s) h (filter (fun i => i ≠ id) ids) p).
    + simpl. repeat case_decide; simplify_eq; lia.
    + intros i [Hi _]%list_elem_of_filter. by rewrite Hr, (proj2 (Z.eqb_neq _ _) Hi).
  - assert (id ∉ ids) as Hn by (rewrite <- Hids, Hd; by intros []). rewrite filter_ne_absent by done.
    pose proof (deregister_spec (hg s) id) as Hr. destruct (HG_Deregister (hg s) id) as [hret h]. simpl in Hr.
    assert (forall i, HG_Registered_data h i = HG_Registered_data (hg s) i) as Hsame.
    { intros i. rewrite Hr. destruct (Z.eqb_spec i id) as [->|]; [|by rewrite andb_false_r]. rewrite Hd. by destruct (is_success hret). }
    intros [= -> <-]. constructor; simpl; [done|done|intros i; by rewrite Hsame|]. 
    apply (counts_ext _ (fun p => users (hg s) ids p + ext p)%nat (fun p => users h ids p + ext p)%nat); [|exact Hc].
    intros p. f_equal. by apply users_ext.
Qed.

Lemma set_pool_inv id pool ret s s' ids ext : rpc_inv s ids ext -> margo_rpc_set_pool id pool s = (ret, s') -> rpc_inv s' ids ext.
Proof.
  intros [Hwf Hnd Hids Hc]. unfold margo_rpc_set_pool. destruct (HG_Registered_data (hg s) id) as [d|] eqn:Hd; [|by intros [= <- <-]].
  set (pl := if pool =? 0 then MARGO_RPC_POOL (inst s) else pool).
  rewrite find_ref by done. set (a1 := ref_pool (-1) (r_pool d) (abt (inst s))).
  assert (__margo_abt_find_pool_by_handle (abt (inst s)) pl = __margo_abt_find_pool_by_handle a1 pl) as ->.
  { symmetry. apply find_ref_pool. }
  pose proof (wf_ref_pool (-1) (r_pool d) _ Hwf) as Hwf1. fold a1 in Hwf1.
  set (s1 := with_inst (set_abt a1 (inst s)) s).
  change (__margo_abt_find_pool_by_handle a1 pl) with (__margo_abt_find_pool_by_handle (abt (inst s1)) pl).
  rewrite find_ref by done. intros [= <- <-]. assert (id ∈ ids) as Hin by (apply Hids; by eexists).
  pose proof (fun id' => write_data_spec (hg s1) id (set_pool pl d) id' ltac:(simpl; by eexists)) as Hw.
  set (h' := write_data (hg s1) id (set_pool pl d)) in *. change (hg s1) with (hg s) in Hw.
  constructor; cbn [inst hg with_frees with_hg with_inst abt set_abt s1]; [by apply wf_ref_pool|done| |].
  - intros i. rewrite Hw. destruct (Z.eqb_spec i id) as [->|]; [|apply Hids]. split; [done|by eexists].
  - pose proof (filter_ne_perm id ids Hnd Hin) as Hp. set (rest := filter (fun i => i ≠ id) ids) in *.
    assert (forall p, users h' rest p = users (hg s) rest p) as Hrest.
    { intros p. apply users_ext. intros i [Hi _]%list_elem_of_filter. by rewrite Hw, (proj2 (Z.eqb_neq _ _) Hi). }
    apply (ref_pool_counts 1 pl _ (fun p => users (hg s) rest p + ext p)%nat (fun p => users h' ids p + ext p)%nat).
    + intros p. rewrite (users_perm h' _ _ p Hp), users_cons, Hw, Z.eqb_refl, Hrest. simpl. repeat case_decide; simplify_eq; lia.
    + apply (ref_pool_counts (-1) (r_pool d) _ (fun p => users (hg s) ids p + ext p)%nat (fun p => users (hg s) rest p + ext p)%nat); [|exact Hc].
      intros p. rewrite (users_perm (hg s) _ _ p Hp), users_cons, Hd. simpl. repeat case_decide; simplify_eq; lia.
Qed.

(** *** The other calls *)

Lemma ref_inv d h m s ids ext ext' : rpc_inv s ids ext ->
  (forall h', Z.of_nat (ext' h') = Z.of_nat (ext h') + if decide (h' = h) then d else 0) ->
  m = set_abt (ref_pool d h (abt (inst s))) (inst s) -> rpc_inv (with_inst m s) ids ext'.
Proof.
  intros [Hwf Hnd Hids Hc] Hn ->. constructor; cbn [inst hg with_inst abt set_abt]; [by apply wf_ref_pool|done|done|].
  apply (ref_pool_counts d h _ (fun p => users (hg s) ids p + ext p)%nat (fun p => users (hg s) ids p + ext' p)%nat); [|done].
  intros p. specialize (Hn p). lia.
Qed.

Lemma incr_inv pool acts m s ids ext : rpc_inv s ids ext ->
  margo_pool_ref_incr_by_handle (inst s) pool = (acts, HG_SUCCESS, m, tt) ->
  rpc_inv (with_inst m s) ids (fun h => if decide (h = pool) then S (ext h) else ext h).
Proof.
  intros Hinv Hi. apply (ref_inv 1 pool _ _ _ ext); [done|intros p; case_decide; lia|]. unfold margo_pool_ref_incr_by_handle in Hi.
  destruct (by_handle_cases incr_body tt (inst s) pool (ri_wf _ _ _ Hinv)) as [(? & ? & He & ? & _)|(k & p & Hk & <- & _ & He)];
    rewrite He in Hi; [by simplify_eq|]. simpl in Hi. injection Hi as _ <-. f_equal.
  exact (insert_ref 1 k p (inst s) (ri_wf _ _ _ Hinv) Hk).
Qed.

Lemma release_inv pool acts m s ids ext n : rpc_inv s ids ext -> ext pool = S n ->
  margo_pool_release_by_handle (inst s) pool = (acts, HG_SUCCESS, m, tt) ->
  rpc_inv (with_inst m s) ids (fun h => if decide (h = pool) then n else ext h).
Proof.
  intros Hinv Hn Hi. apply (ref_inv (-1) pool _ _ _ ext); [done|intros p; case_decide; subst; lia|]. unfold margo_pool_release_by_handle in Hi.
  destruct (by_handle_cases release_body tt (inst s) pool (ri_wf _ _ _ Hinv)) as [(? & ? & He & ? & _)|(k & p & Hk & <- & _ & He)];
    rewrite He in Hi; [by simplify_eq|].
  unfold release_body in Hi. destruct (e_refcount p =? 0); [done|]. simpl in Hi. injection Hi as _ <-. f_equal.
  exact (insert_ref (-1) k p (inst s) (ri_wf _ _ _ Hinv) Hk).
Qed.

(** The entries after a call on the tables keep their counts, or are new. *)
Lemma step_refcounts initialized c a a' : wf a -> AbtTables.step initialized c a a' ->
  forall p', p' ∈ pools a' ->
    (exists p, p ∈ pools a /\ p_pool p' = p_pool p /\ p_refcount p' = p_refcount p) \/
    (p_refcount p' = 0 /\ exists name h, (c = AddJson name h true \/ c = AddExternal name h true) /\ p_pool p' = h).
Proof.
  intros Hwf Hs.
  assert (forall q q' (f : margo_abt_pool -> margo_abt_pool), keeps f -> pools q' = map f (pools q) -> forall p', p' ∈ pools q' ->
    exists p, p ∈ pools q /\ p_pool p' = p_pool p /\ p_refcount p' = p_refcount p) as Hk.
  { intros q q' f Hf -> p' (p & -> & Hp)%list_elem_of_fmap. exists p. by destruct (Hf p) as (_ & -> & _ & _ & ->). }
  destruct Hs as [realloc create config a ok a' Hl Hf H1|realloc name h a ok a' Hl Hh H1|
    total index p a ret a' Hu Hp H1|realloc o h config a ok a' Hl Ho H1|realloc o name h a ok a' Hl Hc He Hh Hr H1|
    index a ret a' H1|h l a Hh]; intros p' Hp'.
  - apply add_pool_from_json_spec in H1; [|done..]. destruct ok; [|destruct H1 as (pc & xc & -> & _); eauto].
    destruct H1 as [_ (q & cap & -> & _ & _ & Hq & _ & Hq0 & _)]. simpl in Hp'.
    apply elem_of_app in Hp' as [Hp'| ->%list_elem_of_singleton]; eauto 10.
  - apply add_external_pool_spec in H1; [|done..]. destruct ok; [|destruct H1 as (pc & xc & -> & _); eauto].
    destruct H1 as [_ (q & cap & -> & _ & _ & Hq & _ & Hq0 & _)]. simpl in Hp'.
    apply elem_of_app in Hp' as [Hp'| ->%list_elem_of_singleton]; eauto 10.
  - left. exists p'. split; [|done]. apply remove_pool_spec in H1 as [[_ ->]|(q & _ & Hq & _ & _ & _ & ->)]; [done|].
    rewrite (swap_remove_perm _ _ _ Hq). by constructor.
  - left. eapply add_xstream_from_json_spec in H1 as [_ (f & Hf & Hm)]; [|done..]. by eapply Hk.
  - left. eapply add_external_xstream_spec in H1 as [_ (f & Hf & Hm)]; [|done..]. by eapply Hk.
  - left. apply remove_xstream_spec in H1 as [[_ ->]|(x & _ & Hx & ->)]; [by exists p'| |done].
    eapply (Hk a _ _ (keeps_repeat _ (main_pools a (x_xstream x)) keeps_decr)); [|exact Hp']. done.
  - eauto.
Qed.

Lemma rstep_inv s ids ext s' ids' ext' : rpc_inv s ids ext -> rstep s ids ext s' ids' ext' -> rpc_inv s' ids' ext'.
Proof.
  intros Hinv [malloc name id inp outp pool id' s1 Hid Hn Hr|id s1 Hr|id pool ret s1 Hr|pool acts m Hr|pool acts m n Hn Hr|ini c a' Hs Hc].
  - by eapply register_inv.
  - by eapply deregister_inv.
  - by eapply set_pool_inv.
  - by eapply incr_inv.
  - by eapply release_inv.
  - destruct Hinv as [Hwf Hnd Hids Hcnt]. constructor; cbn [inst hg with_inst abt set_abt]; [by eapply step_wf|done|done|].
    apply Forall_forall. intros p' Hp'. rewrite Forall_forall in Hcnt.
    destruct (step_refcounts _ _ _ _ Hwf Hs p' Hp') as [(p & Hp & -> & ->)|(-> & name & h & Hh & ->)]; [by apply Hcnt|].
    by destruct (Hc name h Hh) as [-> ->].
Qed.

Lemma rsteps_inv s ids ext s' ids' ext' : rpc_inv s ids ext -> rsteps s ids ext s' ids' ext' -> rpc_inv s' ids' ext'.
Proof. intros Hinv Hs. induction Hs as [|s1 ids1 ext1 s2 ids2 ext2 _ IH Hst]; [done|]. by eapply rstep_inv. Qed.

(** *** Removing a pool *)

Lemma removed_by_handle total handle acts m m' : margo_remove_pool_by_handle total handle m = (acts, HG_SUCCESS, m') ->
  exists k p, pools (abt m) !! k = Some p /\ p_pool p = handle /\ p_refcount p = 0 /\ pools (abt m) ≡ₚ p :: pools (abt m').
Proof.
  unfold margo_remove_pool_by_handle. destruct (Z.eq_dec handle 0) as [->|Hh]; [done|].
  destruct (find_pool_by_handle_spec (abt m) handle Hh) as [[-> _]|(k & p & -> & Hk & Hp)]; [done|].
  destruct (_ <? 0); [done|]. destruct (_ <=? _); [done|]. unfold remove_pool_at.
  destruct (_ =? _); [done|]. destruct (_ =? _); [done|].
  destruct (__margo_abt_remove_pool _ _ _) as [ret a] eqn:Hr. intros [= _ -> <-].
  apply remove_pool_spec in Hr as [[? _]|(q & _ & Hq & Hrc & _ & _ & ->)]; [done|].
  rewrite Nat2Z.id in *. rewrite Hk in Hq. injection Hq as <-. exists k, p. split_and!; [done..|]. by apply swap_remove_perm.
Qed.

Lemma removed_unused total handle acts m' s ids ext : rpc_inv s ids ext ->
  Z.of_nat (users (hg s) ids handle + ext handle) < 2 ^ 32 ->
  margo_remove_pool_by_handle total handle (inst s) = (acts, HG_SUCCESS, m') ->
  users (hg s) ids handle = 0%nat /\ ext handle = 0%nat /\ handle ∉ map p_pool (pools (abt m')).
Proof.
  intros [Hwf _ _ Hc] Hlt (k & p & Hk & Hp & Hrc & Hperm)%removed_by_handle. rewrite Forall_forall in Hc.
  specialize (Hc p ltac:(by eapply list_elem_of_lookup_2)). rewrite Hrc, Hp, u32_id in Hc by (unfold is_u32; lia).
  split_and!; [lia..|]. pose proof (AbtTables.wf_handles _ Hwf) as Hnd. rewrite (Permutation_map p_pool Hperm) in Hnd.
  simpl in Hnd. rewrite Hp in Hnd. by apply NoDup_cons in Hnd as [? _].
Qed.

Lemma reregister_inv malloc name id inp outp pool d s id' s' ids ext : rpc_inv s ids ext ->
  HG_Registered_data (hg s) id = Some d -> (HG_Register (hg s) id).1 = HG_SUCCESS -> pool ≠ 0 ->
  margo_register_internal malloc name id inp outp pool s = (id', s') ->
  id' = id /\ HG_Registered_data (hg s') id = Some d /\ rpc_inv s' ids (fun h => if decide (h = pool) then S (ext h) else ext h).
Proof.
  intros Hinv Hd Hr Hp0. unfold margo_register_internal. rewrite (proj2 (Z.eqb_neq _ _) Hp0).
  pose proof (register_keeps (hg s) id) as Hk. destruct (HG_Register (hg s) id) as [hret h]. simpl in Hk, Hr. subst hret. simpl.
  rewrite Hk, Hd. simpl.
  assert (rpc_inv (with_hg h s) ids ext) as Hinv1.
  { destruct Hinv as [Hwf Hnd Hids Hc]. constructor; simpl; [done|done|intros i; by rewrite Hk|].
    apply (counts_ext _ (fun p => users (hg s) ids p + ext p)%nat (fun p => users h ids p + ext p)%nat); [|exact Hc].
    intros p. f_equal. by apply users_ext. }
  unfold margo_find_pool_by_handle.
  destruct (by_handle_cases find_body None (inst s) pool (ri_wf _ _ _ Hinv)) as [(acts & ret & -> & _ & Hn)|(k & p & Hkp & Hp & _ & ->)];
    simpl; intros [= <- <-]; (split; [done|]); (split; [simpl; by rewrite Hk|]).
  - apply (ref_inv 1 pool (inst s)) with (ext' := fun h' : Z => if decide (h' = pool) then S (ext h') else ext h') in Hinv1;
      [done|intros p; case_decide; lia|]. simpl. rewrite ref_pool_absent by done. by destruct (inst s).
  - unfold ref_at. simpl. rewrite Nat2Z.id, (alter_ref _ _ _ _ (AbtTables.wf_handles _ (ri_wf _ _ _ Hinv)) Hkp), Hp.
    apply (ref_inv 1 pool _ (with_hg h s) ids ext); [done|intros p'; case_decide; lia|done].
Qed.

(** ** Theorems *)


(** Registering an id that is registered already takes one more reference to
    the pool of the new call while the data of the id keep the pool of the first
    one; after the id has been deregistered the reference is left, and the pool
    of the second call can never be removed. *)
Theorem reregister_leaks s ids ext id d malloc name inp outp pool id' s1 s2 :
  rpc_inv s ids ext -> HG_Registered_data (hg s) id = Some d -> (HG_Register (hg s) id).1 = HG_SUCCESS -> pool ≠ 0 ->
  margo_register_internal malloc name id inp outp pool s = (id', s1) ->
  margo_deregister id s1 = (HG_SUCCESS, s2) ->
  margo_rpc_get_pool id s1 = (HG_SUCCESS, Some (r_pool d)) /\ margo_rpc_get_pool id s2 = (HG_NOENTRY, None) /\
  rpc_inv s2 (filter (fun i => i ≠ id) ids) (fun h => if decide (h = pool) then S (ext h) else ext h) /\
  forall total acts m', Z.of_nat (users (hg s2) (filter (fun i => i ≠ id) ids) pool + S (ext pool)) < 2 ^ 32 ->
    margo_remove_pool_by_handle total pool (inst s2) ≠ (acts, HG_SUCCESS, m').
Proof.
  intros Hinv Hd Hr Hp H1 H2. destruct (reregister_inv _ _ _ _ _ _ _ _ _ _ _ _ Hinv Hd Hr Hp H1) as (-> & Hd1 & Hinv1).
  pose proof (deregister_inv _ _ _ _ _ Hinv1 H2) as Hinv2. split_and!.
  - unfold margo_rpc_get_pool. by rewrite Hd1.
  - unfold margo_rpc_get_pool. destruct (HG_Registered_data (hg s2) id) eqn:Hd2; [|done].
    assert (id ∈ filter (fun i => i ≠ id) ids) as [? _]%list_elem_of_filter by (apply (ri_ids _ _ _ Hinv2); by eexists). done.
  - done.
  - intros total acts m' Hlt Hrem. eapply removed_unused in Hrem as (_ & He & _); [|exact Hinv2|].
    + simpl in He. by rewrite decide_True in He.
    + simpl. by rewrite decide_True.
Qed.
End Facts.

(** ** Examples *)

(** A table in which registering always succeeds. *)
#[export] Instance map_registry : Registry (gmap Z rpc_data).
Proof.
  refine {| HG_Registered_data h id := h !! id; HG_Register h id := (HG_SUCCESS, h);
            HG_Register_data h id d := (HG_SUCCESS, <[id := d]> h); HG_Deregister h id := (HG_SUCCESS, delete id h);
            write_data h id d := <[id := d]> h |}; simpl.
  - done.
  - intros h id d id'. destruct (Z.eqb_spec id' id) as [->|]; [by rewrite lookup_insert_eq|by rewrite lookup_insert_ne].
  - intros h id id'. destruct (Z.eqb_spec id' id) as [->|]; [by rewrite lookup_delete_eq|by rewrite lookup_delete_ne].
  - intros h id d id' _. destruct (Z.eqb_spec id' id) as [->|]; [by rewrite lookup_insert_eq|by rewrite lookup_insert_ne].
Defined.

Definition rpc_start : state (gmap Z rpc_data) := State (Instance (empty_abt ∅) 1 1) ∅ [] 0 [].
Definition rpc_pools : state (gmap Z rpc_data) := State (Instance demo2 1 1) ∅ [] 0 [].

Lemma rpc_pools_reached : rsteps rpc_start [] (fun _ => 0%nat) rpc_pools [] (fun _ => 0%nat).
Proof.
  apply (rsteps_step _ _ _ (State (Instance demo1 1 1) ∅ [] 0 []) [] (fun _ => 0%nat)).
  - apply (rsteps_step _ _ _ rpc_start [] (fun _ => 0%nat)); [apply rsteps_refl|].
    apply (r_table rpc_start [] (fun _ => 0%nat) true (AddExternal (Some "p"%string) 7 true) demo1); [|done].
    apply (step_add_external true true); [vm_compute; reflexivity|done|vm_compute; reflexivity].
  - apply (r_table (State (Instance demo1 1 1) ∅ [] 0 []) [] (fun _ => 0%nat) true (AddJson (Some "q"%string) 8 true) demo2); [|done].
    apply (step_add_pool true true (0, 8) (Some q_json) demo1 true); [vm_compute; reflexivity| |vm_compute; reflexivity].
    intros _. split; [done|]. change (8 ∉ [7]). by rewrite list_elem_of_singleton.
Qed.

(** An RPC is registered for the first pool. *)
Definition rpc_one : state (gmap Z rpc_data) := (margo_register_internal true (Some "f"%string) 5 1 2 7 rpc_pools).2.

Lemma rpc_one_reached : rsteps rpc_start [] (fun _ => 0%nat) rpc_one [5] (fun _ => 0%nat).
Proof.
  apply (rsteps_step _ _ _ rpc_pools [] (fun _ => 0%nat)); [apply rpc_pools_reached|].
  apply (r_register rpc_pools [] (fun _ => 0%nat) true (Some "f"%string) 5 1 2 7 5 rpc_one); [done|apply not_elem_of_nil|].
  vm_compute. reflexivity.
Qed.

(** The pool cannot be removed; it can after the RPC has moved to the second pool. *)
Definition rpc_moved : state (gmap Z rpc_data) := (margo_rpc_set_pool 5 8 rpc_one).2.

Lemma rpc_moved_reached : rsteps rpc_start [] (fun _ => 0%nat) rpc_moved [5] (fun _ => 0%nat).
Proof.
  apply (rsteps_step _ _ _ rpc_one [5] (fun _ => 0%nat)); [apply rpc_one_reached|].
  apply (r_set_pool rpc_one [5] (fun _ => 0%nat) 5 8 HG_SUCCESS rpc_moved). vm_compute. reflexivity.
Qed.

Lemma rpc_moved_removes : exists acts m', margo_remove_pool_by_handle (0, 0) 7 (inst rpc_moved) = (acts, HG_SUCCESS, m').
Proof. do 2 eexists. vm_compute. reflexivity. Qed.


(** The RPC is registered twice. *)
Definition rpc_twice : state (gmap Z rpc_data) := (margo_register_internal true (Some "f"%string) 5 1 2 7 rpc_one).2.

Lemma reregister_leaks_witness :
  let s := (margo_deregister 5 rpc_twice).2 in
  margo_rpc_get_pool 5 s = (HG_NOENTRY, None) /\
  forall acts m', margo_remove_pool_by_handle (0, 0) 7 (inst s) ≠ (acts, HG_SUCCESS, m').
Proof.
  assert (Hinv : rpc_inv rpc_one [5] (fun _ => 0%nat)).
  { eapply rsteps_inv; [|exact rpc_one_reached]. constructor; [exact (wf_empty ∅)|constructor| |constructor].
    intros id. change (is_Some ((∅ : gmap Z rpc_data) !! id) <-> id ∈ []). rewrite lookup_empty. split; [by intros []|by intros ?%not_elem_of_nil]. }
  destruct (reregister_leaks rpc_one [5] (fun _ => 0%nat) 5 (RpcData 7 (Some "f"%string) 1 2 0 0) true (Some "f"%string) 1 2 7 5
              rpc_twice (margo_deregister 5 rpc_twice).2) as (_ & Hg & _ & Hrem).
  - exact Hinv.
  - vm_compute. reflexivity.
  - reflexivity.
  - discriminate.
  - vm_compute. reflexivity.
  - vm_compute. reflexivity.
  - split; [exact Hg|]. intros acts m'. apply Hrem. vm_compute. reflexivity.
Defined.
