(* ===== verification/Services.v ===== *)
(** * The RPCs that every instance has (src/margo-identity.c, src/margo-init.c, src/margo-core.c)

    The identity of a provider: a string attached to an RPC of its own, which
    anyone may ask for; and the remote shutdown of an instance.  Registration is
    that of [Rpc]; the strings that [strdup] makes are in a heap, from which the
    callback [free] removes them.  What Mercury answers to the client is an
    argument. *)

From stdpp Require Import strings.
From S2P Require Import Prelude Id Json AbtConfig AbtTables Config Rpc.

#[local] Open Scope Z_scope.

(** ** Calls of a client *)

(** The codes of [margo_create], of the forward and of [margo_get_output]. *)
Record client := Client { c_create : hg_return_t; c_forward : hg_return_t; c_output : hg_return_t }.

Inductive handle_call := Create | Forward (id : Z) | GetOutput | FreeOutput | Destroy.

(** One call of an RPC without argument: [body] reads the output, [fail] is the result
    for a code; the handle's calls are traced. *)
Definition call_rpc {R} (c : client) (id : Z) (body : R) (fail : hg_return_t -> R) : R * list handle_call :=
  if negb (is_success (c_create c)) then (fail (c_create c), []) else
  if negb (is_success (c_forward c)) then (fail (c_forward c), [Create; Forward id; Destroy]) else
  if negb (is_success (c_output c)) then (fail (c_output c), [Create; Forward id; GetOutput; Destroy]) else
  (body, [Create; Forward id; GetOutput; FreeOutput; Destroy]).

(** ** Remote shutdown *)

Definition margo_shutdown_remote_instance (c : client) (shutdown_rpc_id out_ret : Z) : Z * list handle_call :=
  call_rpc c (mux_id shutdown_rpc_id MARGO_DEFAULT_PROVIDER_ID) out_ret (fun _ => -1).

Inductive server_call := Respond (ret : Z) | DestroyHandle | Finalize.

(** The flag is read twice; nothing writes 0 to it. *)
Definition remote_shutdown_ult (enable_before enable_after : bool) : list server_call :=
  [Respond (if enable_before then 0 else -1); DestroyHandle] ++ (if enable_after then [Finalize] else []).

(** ** Identities *)

(** The number of the callback [free]. *)
Definition FREE : Z := 1.

Notation heap := (gmap Z string).

Section Identity.
Context {H : Type} `{REG : Registry H}.

(** The strings that were freed between two states. *)
Definition collect (s s' : Rpc.state H) (h : heap) : heap :=
  foldl (fun h f => match f with UserFree cb data => if cb =? FREE then delete data h else h end) h (drop (length (frees s)) (frees s')).

(** [data] is the pointer that [strdup] gives, NULL when it fails. *)
Definition margo_provider_register_identity (ge calloc malloc : bool) (proc_string provider_id data : Z) (identity : option string)
    (s : Rpc.state H) (h : heap) : hg_return_t * Rpc.state H * heap :=
  match identity with
  | None => (HG_INVALID_ARG, s, h)
  | Some str =>
      let '(id, s1) := margo_provider_register_name ge calloc malloc "__identity__" 0 proc_string provider_id 0 s in
      if id =? 0 then (HG_OTHER_ERROR, s1, h) else
      let h := if data =? 0 then h else <[data := str]> h in
      let '(_, s2) := margo_register_data id data FREE s1 in
      (HG_SUCCESS, s2, collect s1 s2 h)
  end.

(** [reg]: the code of [HG_Registered] and its flag. *)
Definition margo_provider_deregister_identity (ge : bool) (reg : hg_return_t * bool) (provider_id : Z) (s : Rpc.state H) (h : heap) :
    hg_return_t * Rpc.state H * heap :=
  let id := gen_id ge "__identity__" provider_id in
  if negb (is_success reg.1) then (reg.1, s, h) else
  if negb reg.2 then (HG_NOENTRY, s, h) else
  let '(_, s') := margo_deregister id s in
  (HG_SUCCESS, s', collect s s' h).

(** The string at a pointer, NULL for NULL. *)
Definition string_at (data : Z) (h : heap) : option string := if data =? 0 then None else h !! data.

Definition margo_provider_registered_identity (ge : bool) (reg : hg_return_t * bool) (provider_id : Z) (s : Rpc.state H) (h : heap) : option string :=
  let id := gen_id ge "__identity__" provider_id in
  if negb (is_success reg.1) then None else if negb reg.2 then None else string_at (margo_registered_data id s) h.

(** The identity with which the handler of the RPC [info] responds. *)
Definition get_identity (info : option Z) (s : Rpc.state H) (h : heap) : option string :=
  match info with None => None | Some id => string_at (margo_registered_data id s) h end.

(** ** Specification: a map from provider ids to strings *)

Definition identity_id (ge : bool) (provider_id : Z) : Z := gen_id ge "__identity__" provider_id.
Definition data_at (ge : bool) (s : Rpc.state H) (provider_id : Z) : option rpc_data := HG_Registered_data (hg s) (identity_id ge provider_id).

(** One call, with the map.  [strdup] gives NULL or a pointer that is not in use;
    an operation on other RPCs keeps the data of identities. *)
Inductive istep (ge : bool) : Rpc.state H * heap * gmap Z string -> Rpc.state H * heap * gmap Z string -> Prop :=
  | i_register calloc malloc proc_string pid data str s h m ret s' h' :
      is_u16 pid -> h !! data = None ->
      margo_provider_register_identity ge calloc malloc proc_string pid data (Some str) s h = (ret, s', h') ->
      istep ge (s, h, m) (s', h', if negb (is_success ret) then m else if data =? 0 then delete pid m else <[pid := str]> m)
  | i_deregister reg pid s h m ret s' h' :
      is_u16 pid -> (HG_Deregister (hg s) (identity_id ge pid)).1 = HG_SUCCESS ->
      margo_provider_deregister_identity ge reg pid s h = (ret, s', h') ->
      istep ge (s, h, m) (s', h', if is_success ret then delete pid m else m)
  | i_other s h m s' :
      (forall pid, is_u16 pid -> data_at ge s' pid = data_at ge s pid) -> istep ge (s, h, m) (s', h, m).

Inductive isteps (ge : bool) (x : Rpc.state H * heap * gmap Z string) : Rpc.state H * heap * gmap Z string -> Prop :=
  | isteps_refl : isteps ge x x
  | isteps_step y z : isteps ge x y -> istep ge y z -> isteps ge x z.

(** The pointers attached to identities are those of the heap, each once, with the
    callback [free]. *)
Record identities (ge : bool) (s : Rpc.state H) (h : heap) (m : gmap Z string) : Prop := {
  id_map : forall pid, is_u16 pid -> string_at (margo_registered_data (identity_id ge pid) s) h = m !! pid;
  id_keys : forall pid, is_Some (m !! pid) -> is_u16 pid;
  id_free : forall pid d, is_u16 pid -> data_at ge s pid = Some d -> r_user_data d ≠ 0 -> r_user_free d = FREE;
  id_live : forall pid, is_u16 pid -> let a := margo_registered_data (identity_id ge pid) s in a ≠ 0 -> is_Some (h !! a);
  id_inj : forall p q, is_u16 p -> is_u16 q -> let a := margo_registered_data (identity_id ge p) s in
    a = margo_registered_data (identity_id ge q) s -> a ≠ 0 -> p = q;
  id_owned : forall a, is_Some (h !! a) -> a ≠ 0 /\ exists pid, is_u16 pid /\ margo_registered_data (identity_id ge pid) s = a
}.

(** ** Registration and the data of RPCs *)

Lemma register_name_effect ge calloc malloc name inp outp pid pool s id s1 :
  margo_provider_register_name ge calloc malloc name inp outp pid pool s = (id, s1) ->
  let g := gen_id ge name pid in
  frees s1 = frees s /\ (forall i, i ≠ g -> HG_Registered_data (hg s1) i = HG_Registered_data (hg s) i) /\
  (HG_Registered_data (hg s1) g = HG_Registered_data (hg s) g \/
   HG_Registered_data (hg s) g = None /\ exists d, HG_Registered_data (hg s1) g = Some d /\ r_user_data d = 0) /\
  (id ≠ 0 -> id = g /\ is_Some (HG_Registered_data (hg s1) g)).
Proof.
  intros Hreg g. unfold margo_provider_register_name in Hreg. fold g in Hreg. destruct (negb calloc); [injection Hreg as <- <-; split; [done|split; [done|split; [by left|done]]]|].
  revert Hreg. set (s0 := with_rpcs _ _ s). destruct (margo_register_internal malloc (Some name) g inp outp pool s0) as [id' s'] eqn:Hr. intros Hreg.
  assert (frees s' = frees s /\ (forall i, i ≠ g -> HG_Registered_data (hg s') i = HG_Registered_data (hg s) i) /\
    (HG_Registered_data (hg s') g = HG_Registered_data (hg s) g \/
     HG_Registered_data (hg s) g = None /\ exists d, HG_Registered_data (hg s') g = Some d /\ r_user_data d = 0) /\
    (id' ≠ 0 -> id' = g /\ is_Some (HG_Registered_data (hg s') g))) as Hs'.
  2: { destruct (id' =? 0); injection Hreg as <- <-; [|done]. destruct Hs' as (? & ? & ? & _). done. }
  clear Hreg. unfold margo_register_internal in Hr. pose proof (register_keeps (hg s0) g) as Hk. destruct (HG_Register (hg s0) g) as [hret h].
  cbn [fst snd] in Hk. destruct (negb (is_success hret)); [injection Hr as <- <-; split_and!; [done|intros; apply Hk|left; apply Hk|done]|].
  assert (forall s2 p ok, (let '(_, _, _, info) := margo_find_pool_by_handle (inst s2) p in
      match info with Some i => (g, ref_at 1 (i_index i) s2) | None => (g, s2) end) = (id', s') -> ok = true ->
      id' = g /\ frees s' = frees s2 /\ hg s' = hg s2) as Hend.
  { intros s2 p _ Hf _. destruct (margo_find_pool_by_handle _ _) as [[[? ?] ?] [i|]]; by injection Hf as <- <-. }
  cbn [with_hg hg] in Hr. rewrite Hk in Hr. change (hg s0) with (hg s) in Hr, Hk. destruct (HG_Registered_data (hg s) g) as [d|] eqn:Hd.
  - cbn [negb] in Hr. apply (Hend _ _ true) in Hr as (-> & -> & ->); [|done]. cbn [hg with_hg frees].
    split_and!; [done|intros; apply Hk|left; rewrite Hk; congruence|intros _; split; [done|rewrite Hk, Hd; by eexists]].
  - destruct (negb malloc); [injection Hr as <- <-; cbn [hg with_hg]; split_and!; [done|intros; apply Hk|left; by rewrite Hk|done]|].
    set (dd := RpcData _ _ _ _ _ _) in Hr. pose proof (register_data_spec h g dd) as Hspec. destruct (HG_Register_data h g dd) as [hret2 h2].
    cbn [fst snd] in Hspec. destruct (is_success hret2); cbn [negb andb] in Hr, Hspec.
    + apply (Hend _ _ true) in Hr as (-> & -> & ->); [|done]. cbn [hg with_hg frees]. assert (HG_Registered_data h2 g = Some dd) as Hg by (by rewrite Hspec, Z.eqb_refl).
      split_and!; [done| |right; split; [done|by exists dd]|intros _; split; [done|by eexists]].
      intros i Hi. rewrite Hspec, (proj2 (Z.eqb_neq _ _) Hi). apply Hk.
    + injection Hr as <- <-. cbn [hg with_hg frees]. split_and!; [done|intros; rewrite Hspec; apply Hk|left; by rewrite Hspec, Hk|done].
Qed.

(** ** Strings that are freed *)

Definition free_ptr (a : Z) (h : heap) : heap := if a =? 0 then h else delete a h.

Lemma collect_app s s' l h : frees s' = frees s ++ l ->
  collect s s' h = foldl (fun h f => match f with UserFree cb data => if cb =? FREE then delete data h else h end) h l.
Proof. intros Hf. unfold collect. by rewrite Hf, drop_app_length. Qed.

Lemma collect_data s s' d h : frees s' = frees s ++ margo_rpc_data_free d -> (r_user_data d ≠ 0 -> r_user_free d = FREE) ->
  collect s s' h = free_ptr (r_user_data d) h.
Proof.
  intros Hf Hd. rewrite (collect_app _ _ _ _ Hf). unfold margo_rpc_data_free, free_ptr.
  destruct (Z.eqb_spec (r_user_data d) 0) as [He|He]; [done|]. by rewrite (Hd He).
Qed.

Lemma identity_id_inj ge p q : is_u16 p -> is_u16 q -> identity_id ge p = identity_id ge q -> p = q.
Proof. intros Hp Hq. unfold identity_id. rewrite !gen_id_arith by done. lia. Qed.

Lemma data_pointer ge s pid : margo_registered_data (identity_id ge pid) s = match data_at ge s pid with Some d => r_user_data d | None => 0 end.
Proof. done. Qed.

(** The data of one provider changes: [new] is the new string and its pointer. *)
Lemma identities_set ge s h m s' pid (new : option (Z * string)) : identities ge s h m -> is_u16 pid ->
  (forall q, is_u16 q -> q ≠ pid -> data_at ge s' q = data_at ge s q) ->
  match new with
  | Some (a, _) => a ≠ 0 /\ h !! a = None /\ exists d, data_at ge s' pid = Some d /\ r_user_data d = a /\ r_user_free d = FREE
  | None => margo_registered_data (identity_id ge pid) s' = 0
  end ->
  identities ge s' (free_ptr (margo_registered_data (identity_id ge pid) s) (match new with Some (a, str) => <[a := str]> h | None => h end))
    (match new with Some (_, str) => <[pid := str]> m | None => delete pid m end).
Proof.
  intros [Hmap Hkeys Hfree Hlive Hinj Hown] Hpid Hother Hnew. cbv zeta in Hlive, Hinj. set (o := margo_registered_data (identity_id ge pid) s).
  set (h' := free_ptr _ _).
  assert (match new with Some (b, _) => margo_registered_data (identity_id ge pid) s' = b | None => margo_registered_data (identity_id ge pid) s' = 0 end) as Ha'.
  { destruct new as [[a str]|]; [|done]. destruct Hnew as (_ & _ & d & Hd & <- & _). by rewrite data_pointer, Hd. }
  assert (forall q, is_u16 q -> q ≠ pid -> margo_registered_data (identity_id ge q) s' = margo_registered_data (identity_id ge q) s) as Hsame.
  { intros q Hq Hne. by rewrite !data_pointer, Hother. }
  assert (forall a, a ≠ o -> a ≠ 0 -> h' !! a = match new with Some (b, str) => if decide (a = b) then Some str else h !! a | None => h !! a end) as Hh'.
  { intros a Hao Ha. unfold h', free_ptr. assert (forall k : heap, (if o =? 0 then k else delete o k) !! a = k !! a) as ->.
    { intros k. destruct (o =? 0); [done|by rewrite lookup_delete_ne]. }
    destruct new as [[b str]|]; [|done]. case_decide as He; [subst; by rewrite lookup_insert_eq|by rewrite lookup_insert_ne]. }
  assert (forall q, is_u16 q -> q ≠ pid -> margo_registered_data (identity_id ge q) s ≠ 0 ->
    h' !! margo_registered_data (identity_id ge q) s = h !! margo_registered_data (identity_id ge q) s) as Hkeep.
  { intros q Hq Hne Hq0. rewrite Hh'; [|by intros He; apply Hne; apply (Hinj q pid)|done]. destruct new as [[b str]|]; [|done].
    case_decide as He; [|done]. destruct Hnew as (_ & Hb & _). destruct (Hlive q Hq Hq0) as [x Hx]. congruence. }
  assert (match new with Some (b, str) => h' !! b = Some str | None => True end) as Hb'.
  { destruct new as [[b str]|]; [|done]. destruct Hnew as (Hb0 & Hb & _).
    rewrite Hh'; [by rewrite decide_True|intros ->; destruct (Hlive pid Hpid Hb0) as [x Hx]; fold o in Hx; congruence|done]. }
  assert (o ≠ 0 -> h' !! o = None) as Ho.
  { intros Ho. unfold h', free_ptr. rewrite (proj2 (Z.eqb_neq _ _) Ho). apply lookup_delete_eq. }
  constructor.
  - intros q Hq. destruct (decide (q = pid)) as [->|Hne].
    + unfold string_at. destruct new as [[b str]|]; rewrite Ha'; [|by rewrite lookup_delete_eq].
      rewrite lookup_insert_eq, (proj2 (Z.eqb_neq _ _)) by (by destruct Hnew). done.
    + rewrite Hsame by done. transitivity (m !! q); [|destruct new as [[b str]|]; [by rewrite lookup_insert_ne|by rewrite lookup_delete_ne]].
      rewrite <- Hmap by done. unfold string_at. destruct (Z.eqb_spec (margo_registered_data (identity_id ge q) s) 0); [done|by apply Hkeep].
  - intros q Hq. destruct (decide (q = pid)) as [->|Hne]; [done|]. apply Hkeys. destruct new as [[b str]|]; [by rewrite lookup_insert_ne in Hq|by rewrite lookup_delete_ne in Hq].
  - intros q d Hq Hd Hd0. destruct (decide (q = pid)) as [->|Hne]; [|rewrite Hother in Hd by done; by apply (Hfree q)].
    destruct new as [[b str]|]; [destruct Hnew as (_ & _ & e & He & _ & Hf); congruence|]. rewrite data_pointer, Hd in Hnew. done.
  - intros q Hq a Ha. destruct (decide (q = pid)) as [->|Hne].
    + subst a. destruct new as [[b str]|]; rewrite Ha' in *; [by eexists|done].
    + subst a. rewrite Hsame in Ha |- * by done. rewrite Hkeep by done. by apply Hlive.
  - intros p q Hp Hq a He Ha. subst a. destruct (decide (p = pid)) as [->|Hp'], (decide (q = pid)) as [->|Hq']; [done| | |].
    + rewrite (Hsame q) in He by done. destruct new as [[b str]|]; rewrite Ha' in *; [|done]. destruct Hnew as (_ & Hb & _).
      rewrite He in Ha, Hb. destruct (Hlive q Hq Ha) as [x Hx]. congruence.
    + rewrite (Hsame p) in He, Ha by done. destruct new as [[b str]|]; rewrite Ha' in He; [|done]. destruct Hnew as (_ & Hb & _).
      rewrite <- He in Hb. destruct (Hlive p Hp Ha) as [x Hx]. congruence.
    + rewrite !Hsame in He by done. rewrite Hsame in Ha by done. by apply Hinj.
  - intros a Ha. destruct (decide (a = 0)) as [->|Ha0].
    + exfalso. revert Ha. unfold h', free_ptr. destruct (Z.eqb_spec o 0); rewrite ?lookup_delete_ne by done;
        (destruct new as [[b str]|]; [rewrite lookup_insert_ne by (by destruct Hnew)|]); by intros [? _]%Hown.
    + split; [done|]. destruct (decide (a = o)) as [->|Hao]; [rewrite Ho in Ha by done; by destruct Ha|]. rewrite Hh' in Ha by done.
      assert ((exists str, new = Some (a, str)) \/ is_Some (h !! a)) as [[str ->]|Hh].
      { destruct new as [[b str]|]; [|by right]. case_decide as He; [subst; left; by eexists|by right]. }
      * by exists pid.
      * apply Hown in Hh as [_ (q & Hq & <-)]. exists q. split; [done|]. apply Hsame; [done|]. by intros ->.
Qed.

Lemma identities_same ge s h m s' : identities ge s h m -> (forall q, is_u16 q -> data_at ge s' q = data_at ge s q) -> identities ge s' h m.
Proof.
  intros [Hmap Hkeys Hfree Hlive Hinj Hown] Hd.
  assert (forall q, is_u16 q -> margo_registered_data (identity_id ge q) s' = margo_registered_data (identity_id ge q) s) as Hp.
  { intros q Hq. by rewrite !data_pointer, Hd. }
  constructor; [|done| | | |].
  - intros q Hq. rewrite Hp by done. by apply Hmap.
  - intros q d Hq. rewrite Hd by done. by apply Hfree.
  - intros q Hq. cbv zeta. rewrite Hp by done. by apply Hlive.
  - intros p q Hpp Hq. cbv zeta. rewrite !Hp by done. by apply Hinj.
  - intros a (? & q & Hq & Ha)%Hown. split; [done|]. exists q. by rewrite Hp.
Qed.

(** ** The operations keep the correspondence *)

Lemma register_identities ge calloc malloc outp pid s h m id s1 : identities ge s h m -> is_u16 pid ->
  margo_provider_register_name ge calloc malloc "__identity__" 0 outp pid 0 s = (id, s1) -> identities ge s1 h m.
Proof.
  intros Hi Hpid Hr. apply register_name_effect in Hr as (_ & Hother & Hg & _).
  assert (forall q, is_u16 q -> q ≠ pid -> data_at ge s1 q = data_at ge s q) as Hsame.
  { intros q Hq Hne. apply Hother. intros He. by apply Hne, (identity_id_inj ge). }
  destruct Hg as [Hg|(Hnone & d & Hd & Hd0)].
  - apply (identities_same _ _ _ _ _ Hi). intros q Hq. destruct (decide (q = pid)) as [->|]; [exact Hg|by apply Hsame].
  - assert (margo_registered_data (identity_id ge pid) s = 0) as Hz by (rewrite data_pointer; unfold data_at, identity_id; by rewrite Hnone).
    pose proof (identities_set ge s h m s1 pid None Hi Hpid Hsame) as H1. rewrite Hz, delete_id in H1.
    + apply H1. rewrite data_pointer. unfold data_at, identity_id. by rewrite Hd.
    + rewrite <- (id_map _ _ _ _ Hi pid Hpid), Hz. done.
Qed.

Lemma istep_identities ge x y : istep ge x y -> identities ge x.1.1 x.1.2 x.2 -> identities ge y.1.1 y.1.2 y.2.
Proof.
  intros [calloc malloc outp pid data str s h m ret s' h' Hpid Hfresh Hr|reg pid s h m ret s' h' Hpid Hok Hd|s h m s' Hsame];
    cbn [fst snd]; intros Hi; [| |by eapply identities_same].
  - unfold margo_provider_register_identity in Hr. destruct (margo_provider_register_name _ _ _ _ _ _ _ _ s) as [id s1] eqn:Hreg.
    pose proof (register_identities _ _ _ _ _ _ _ _ _ _ Hi Hpid Hreg) as Hi1. apply register_name_effect in Hreg as (_ & _ & _ & Hg).
    destruct (Z.eqb_spec id 0) as [|Hid]; [by injection Hr as <- <- <-|]. destruct (Hg Hid) as [-> [d Hd]]. clear Hg.
    unfold margo_register_data in Hr. rewrite Hd in Hr. injection Hr as <- <- <-. change (is_success HG_SUCCESS) with true. cbn [negb].
    pose proof (id_free _ _ _ _ Hi1 pid d Hpid Hd) as Hfree. rewrite (collect_data s1 _ d) by done.
    set (s2 := with_frees _ _). assert (forall q, data_at ge s2 q = if identity_id ge q =? identity_id ge pid then Some (set_user data FREE d) else data_at ge s1 q) as Hs2.
    { intros q. unfold data_at, s2. cbn [hg with_frees with_hg]. apply write_data_spec. by exists d. }
    assert (r_user_data d = margo_registered_data (identity_id ge pid) s1) as -> by (rewrite data_pointer; unfold data_at, identity_id; by rewrite Hd).
    assert (forall q, is_u16 q -> q ≠ pid -> data_at ge s2 q = data_at ge s1 q) as Hother.
    { intros q Hq Hne. rewrite Hs2, (proj2 (Z.eqb_neq _ _)); [done|]. intros He. by apply Hne, (identity_id_inj ge). }
    pose proof (Hs2 pid) as Hpd. rewrite Z.eqb_refl in Hpd. destruct (Z.eqb_spec data 0) as [->|Hne].
    + apply (identities_set ge s1 h m s2 pid None Hi1 Hpid Hother). by rewrite data_pointer, Hpd.
    + apply (identities_set ge s1 h m s2 pid (Some (data, str)) Hi1 Hpid Hother). split; [done|]. split; [done|]. by eexists.
  - unfold margo_provider_deregister_identity in Hd. destruct (is_success reg.1) eqn:Hs; cbn [negb] in Hd; [|injection Hd as <- <- <-; by rewrite Hs].
    destruct (negb reg.2); [by injection Hd as <- <- <-|]. unfold margo_deregister in Hd. fold (identity_id ge pid) in Hd.
    fold (data_at ge s pid) in Hd. pose proof (deregister_spec (hg s) (identity_id ge pid)) as Hspec. rewrite Hok in Hspec. cbn [is_success andb] in Hspec.
    set (s1 := match data_at ge s pid with Some d => _ | None => s end) in Hd.
    assert (hg s1 = hg s /\ frees s1 = frees s) as [Hhg Hfr] by (clear Hd; subst s1; destruct (data_at ge s pid); [case_match|]; split; reflexivity).
    rewrite Hhg in Hd. destruct (HG_Deregister (hg s) (identity_id ge pid)) as [hret hg']. cbn [fst snd] in Hok, Hspec. subst hret.
    cbn [is_success] in Hd. assert (forall fs, identities ge (with_frees fs (with_hg hg' s1)) (free_ptr (margo_registered_data (identity_id ge pid) s) h) (delete pid m)) as Hend.
    { intros fs. apply (identities_set ge s h m _ pid None Hi Hpid).
      - intros q Hq Hne. unfold data_at. cbn [hg with_frees with_hg]. rewrite Hspec, (proj2 (Z.eqb_neq _ _)); [done|].
        intros He. by apply Hne, (identity_id_inj ge).
      - rewrite data_pointer. unfold data_at. cbn [hg with_frees with_hg]. by rewrite Hspec, Z.eqb_refl. }
    rewrite data_pointer in Hend. destruct (data_at ge s pid) as [d|] eqn:Hdp; injection Hd as <- <- <-.
    + rewrite (collect_data s _ d); [by apply Hend| |by apply (id_free _ _ _ _ Hi pid d Hpid Hdp)].
      cbn [frees with_frees with_hg]. by rewrite Hfr.
    + rewrite (collect_app s _ []); [|cbn [frees with_hg]; by rewrite Hfr, app_nil_r].
      specialize (Hend []). unfold free_ptr in Hend. cbn [Z.eqb foldl] in *. eapply identities_same; [exact Hend|]. done.
Qed.

Lemma identities_start ge s : (forall pid, is_u16 pid -> margo_registered_data (identity_id ge pid) s = 0) -> identities ge s ∅ ∅.
Proof.
  intros H0. constructor.
  - intros pid Hp. by rewrite H0, lookup_empty.
  - intros pid. rewrite lookup_empty. by intros [].
  - intros pid d Hp Hd Hd0. specialize (H0 pid Hp). by rewrite data_pointer, Hd in H0.
  - intros pid Hp a Ha. by destruct Ha; apply H0.
  - intros p q Hp Hq a _ Ha. by destruct Ha; apply H0.
  - intros a. rewrite lookup_empty. by intros [].
Qed.

(** What [Id.mux_gen_id] states, for the proofs here. *)
Lemma mux_gen ge name p q : is_u16 p -> is_u16 q -> mux_id (gen_id ge name p) q = gen_id ge name q.
Proof. intros Hp Hq. rewrite mux_id_arith by auto using gen_id_range. rewrite !gen_id_arith by done. by rewrite div_add_mul. Qed.

Lemma isteps_identities ge x y : isteps ge x y -> identities ge x.1.1 x.1.2 x.2 -> identities ge y.1.1 y.1.2 y.2.
Proof. induction 1 as [|y z _ IH Hs]; [done|]. intros Hx. by eapply istep_identities, IH. Qed.
End Identity.

(** [bufsize] is what the pointer points to and [buffer] whether it is not NULL.  The
    result: the code, the string that is written, and [*bufsize]. *)
Definition margo_provider_get_identity (c : client) (identity_rpc_id provider_id : Z) (out : option string) (buffer : bool) (bufsize : option Z) :
    hg_return_t * option string * option Z * list handle_call :=
  match bufsize with
  | None => (HG_INVALID_ARG, None, None, [])
  | Some n =>
      if negb buffer then (HG_INVALID_ARG, None, Some n, []) else
      let '((ret, written, n), l) :=
        call_rpc c (mux_id identity_rpc_id provider_id)
          (match out with
           | Some out =>
               let len := Z.of_nat (String.length out) in
               if len + 1 <=? n then (HG_SUCCESS, Some out, len + 1)
               else (HG_NOMEM_ERROR, if n =? 0 then None else Some EmptyString, len + 1)
           | None => (HG_SUCCESS, None, 0)
           end)
          (fun ret => (ret, None, n)) in
      (ret, written, Some n, l)
  end.

(** ** Theorems *)

Definition all_ok (c : client) : Prop := c_create c = HG_SUCCESS /\ c_forward c = HG_SUCCESS /\ c_output c = HG_SUCCESS.

Lemma get_identity_spec c id pid str n : all_ok c ->
  margo_provider_get_identity c id pid (Some str) true (Some n) =
  let len := Z.of_nat (String.length str) in
  (if len + 1 <=? n then (HG_SUCCESS, Some str, Some (len + 1))
   else (HG_NOMEM_ERROR, if n =? 0 then None else Some EmptyString, Some (len + 1)),
   [Create; Forward (mux_id id pid); GetOutput; FreeOutput; Destroy]).
Proof.
  intros (H1 & H2 & H3). unfold margo_provider_get_identity, call_rpc. rewrite H1, H2, H3. change (is_success HG_SUCCESS) with true. cbn [negb]. cbv zeta.
  by destruct (Z.of_nat (String.length str) + 1 <=? n).
Qed.

Section Theorems.
Context {H : Type} `{REG : Registry H}.

(** C25: Identities are a map from provider ids to strings: from an instance where
    none is attached, after any sequence of registrations, deregistrations and
    operations on other RPCs, with any failure of allocations and of Mercury's
    registration, asking the instance gives the string of the map; the client that
    replaces the provider of any other identity RPC reaches it; what it gets is the
    string when the buffer is large enough and otherwise the size to ask for; and
    the strings in memory are exactly those of the map, each with one owner. *)
Theorem identities_refine_map ge (s0 s : Rpc.state H) h m :
  (forall pid, is_u16 pid -> margo_registered_data (identity_id ge pid) s0 = 0) ->
  isteps ge (s0, ∅, ∅) (s, h, m) ->
  (forall pid reg, is_u16 pid -> reg.1 = HG_SUCCESS -> (is_Some (data_at ge s pid) -> reg.2 = true) ->
    margo_provider_registered_identity ge reg pid s h = m !! pid) /\
  (forall pid q, is_u16 pid -> is_u16 q -> get_identity (Some (mux_id (identity_id ge q) pid)) s h = m !! pid) /\
  (forall pid q str c n, is_u16 q -> m !! pid = Some str -> all_ok c ->
    let id := identity_id ge q in let len := Z.of_nat (String.length str) in
    (margo_provider_get_identity c id pid (get_identity (Some (mux_id id pid)) s h) true (Some n)).1 =
      if len + 1 <=? n then (HG_SUCCESS, Some str, Some (len + 1))
      else (HG_NOMEM_ERROR, if n =? 0 then None else Some EmptyString, Some (len + 1))) /\
  (forall a, is_Some (h !! a) <-> a ≠ 0 /\ exists pid, is_Some (m !! pid) /\ margo_registered_data (identity_id ge pid) s = a) /\
  (forall p q, is_Some (m !! p) -> is_Some (m !! q) ->
    margo_registered_data (identity_id ge p) s = margo_registered_data (identity_id ge q) s -> p = q).
Proof.
  intros H0 Hs. apply isteps_identities in Hs; [|by apply identities_start]. cbn [fst snd] in Hs. destruct Hs as [Hmap Hkeys Hfree Hlive Hinj Hown].
  assert (forall pid q, is_u16 pid -> is_u16 q -> get_identity (Some (mux_id (identity_id ge q) pid)) s h = m !! pid) as Hget.
  { intros pid q Hp Hq. unfold identity_id. rewrite mux_gen by done. by apply Hmap. }
  assert (forall p, is_Some (m !! p) -> margo_registered_data (identity_id ge p) s ≠ 0) as Hptr.
  { intros p Hp He. rewrite <- Hmap, He in Hp by (by apply Hkeys). by destruct Hp. }
  split_and!; [|exact Hget| | |].
  - intros pid reg Hpid Hr1 Hr2. rewrite <- (Hmap pid) by done. unfold margo_provider_registered_identity. fold (identity_id ge pid). rewrite Hr1.
    change (is_success HG_SUCCESS) with true. cbn [negb]. destruct reg.2; [done|]. rewrite data_pointer.
    destruct (data_at ge s pid); [|done]. by specialize (Hr2 ltac:(by eexists)).
  - intros pid q str c n Hq Hm Hc. cbv zeta. rewrite Hget by (try done; by apply Hkeys; eexists). rewrite Hm, get_identity_spec by done. done.
  - intros a. split.
    + intros Ha. destruct (Hown a Ha) as [Hne (pid & Hpid & Hp)]. split; [done|]. exists pid. split; [|done]. rewrite <- Hmap, Hp by done.
      unfold string_at. by rewrite (proj2 (Z.eqb_neq _ _) Hne).
    + intros [Hne (pid & Hm & <-)]. apply Hlive; [by apply Hkeys|done].
  - intros p q Hp Hq He. apply Hinj; [by apply Hkeys|by apply Hkeys|done|by apply Hptr].
Qed.

(** A client that is told that the shutdown was accepted talked to a server that
    finalizes, the flag being never reset; and the handle it creates is destroyed
    once, whatever fails. *)
Lemma remote_shutdown_honest c id before after ret l : (before = true -> after = true) ->
  margo_shutdown_remote_instance c id (if before then 0 else -1) = (ret, l) ->
  (ret = 0 -> remote_shutdown_ult before after = [Respond 0; DestroyHandle; Finalize]) /\
  (l = [] \/ exists l', l = Create :: l' ++ [Destroy] /\ Create ∉ l' /\ Destroy ∉ l').
Proof.
  intros Hf. unfold margo_shutdown_remote_instance, call_rpc.
  repeat match goal with |- context [if negb (is_success ?x) then _ else _] => destruct (is_success x); cbn [negb] end; intros [= <- <-]; split;
    try (intros ?; destruct before; try done; by rewrite Hf); try (by left); right.
  all: match goal with |- exists l', Create :: ?t = _ /\ _ => exists (removelast t) end; cbn; split; [done|].
  all: rewrite ?not_elem_of_cons; split_and?; try done; apply not_elem_of_nil.
Qed.
End Theorems.

(** ** Examples *)

(** Two providers take an identity, and the first gives it up. *)
Definition svc_one := margo_provider_register_identity true true true 102 7 100 (Some "alpha"%string) rpc_pools ∅.
Definition svc_two := margo_provider_register_identity true true true 102 9 200 (Some "beta"%string) svc_one.1.2 svc_one.2.
Definition svc_three := margo_provider_deregister_identity true (HG_SUCCESS, true) 7 svc_two.1.2 svc_two.2.

Lemma svc_steps : isteps true (rpc_pools, ∅, ∅) (svc_three.1.2, svc_three.2, {[ 9 := "beta"%string ]}).
Proof.
  eapply isteps_step; [eapply isteps_step; [eapply isteps_step; [apply isteps_refl|]|]|].
  - apply (i_register true true true 102 7 100 "alpha" rpc_pools ∅ ∅ HG_SUCCESS svc_one.1.2 svc_one.2); [by unfold is_u16|done|vm_compute; reflexivity].
  - apply (i_register true true true 102 9 200 "beta" svc_one.1.2 svc_one.2 _ HG_SUCCESS svc_two.1.2 svc_two.2);
      [by unfold is_u16|vm_compute; reflexivity|vm_compute; reflexivity].
  - assert (forall m m', m' = delete 7 m -> istep true (svc_two.1.2, svc_two.2, m) (svc_three.1.2, svc_three.2, m')) as Hstep.
    { intros m m' ->. apply (i_deregister true (HG_SUCCESS, true) 7 svc_two.1.2 svc_two.2 m HG_SUCCESS svc_three.1.2 svc_three.2);
        [by unfold is_u16|vm_compute; reflexivity|vm_compute; reflexivity]. }
    apply Hstep. vm_compute. reflexivity.
Qed.

Lemma identities_refine_map_witness :
  get_identity (Some (mux_id (identity_id true MARGO_DEFAULT_PROVIDER_ID) 9)) svc_three.1.2 svc_three.2 = Some "beta"%string /\
  get_identity (Some (mux_id (identity_id true MARGO_DEFAULT_PROVIDER_ID) 7)) svc_three.1.2 svc_three.2 = None /\
  svc_two.2 !! 100 = Some "alpha"%string /\ svc_three.2 !! 100 = None /\
  let out := get_identity (Some (mux_id (identity_id true MARGO_DEFAULT_PROVIDER_ID) 9)) svc_three.1.2 svc_three.2 in
  (margo_provider_get_identity (Client HG_SUCCESS HG_SUCCESS HG_SUCCESS) (identity_id true MARGO_DEFAULT_PROVIDER_ID) 9 out true (Some 3)).1 =
    (HG_NOMEM_ERROR, Some EmptyString, Some 5) /\
  (margo_provider_get_identity (Client HG_SUCCESS HG_SUCCESS HG_SUCCESS) (identity_id true MARGO_DEFAULT_PROVIDER_ID) 9 out true (Some 5)).1 =
    (HG_SUCCESS, Some "beta"%string, Some 5).
Proof.
  destruct (identities_refine_map true rpc_pools svc_three.1.2 svc_three.2 {[ 9 := "beta"%string ]}) as (_ & Hget & Hclient & _ & _).
  - intros pid _. reflexivity.
  - exact svc_steps.
  - split; [exact (Hget 9 MARGO_DEFAULT_PROVIDER_ID ltac:(by unfold is_u16) ltac:(by unfold is_u16))|].
    split; [exact (Hget 7 MARGO_DEFAULT_PROVIDER_ID ltac:(by unfold is_u16) ltac:(by unfold is_u16))|].
    split; [vm_compute; reflexivity|]. split; [vm_compute; reflexivity|].
    pose proof (fun n => Hclient 9 MARGO_DEFAULT_PROVIDER_ID "beta"%string (Client HG_SUCCESS HG_SUCCESS HG_SUCCESS) n
      ltac:(by unfold is_u16) eq_refl ltac:(by repeat split)) as Hc.
    split; [exact (Hc 3)|exact (Hc 5)].
Defined.
