(* ===== verification/Instance.v ===== *)
(** * Instances (src/margo-init.c, src/margo-config.c, src/margo-core.c)

    [margo_init_ext] from the parsed configuration to the instance, with its error
    path, the initialisation functions above it, and the configuration that a
    running instance writes.  The parts are those of the other files; what their
    oracles do not cover (allocations, the progress thread) is a record of codes,
    and the calls that make or release something are a trace. *)

From stdpp Require Import strings pretty.
From S2P Require Import Prelude Id Json AbtConfig AbtTables AbtStart Config HgConfig Plumber Init Sanity Rpc.

#[local] Open Scope Z_scope.

(** ** Data *)

(** How Margo and Mercury are built: the widths and flags of [HgConfig], the
    encoding of [Id], and the numbers of the serialization functions. *)
Record build := Build {
  to_post : Z -> Z;
  to_contexts : Z -> Z;
  NA_NO_BLOCK : Z;
  NA_NO_RETRY : Z;
  hg_ge_2_3 : bool;
  proc_shutdown : Z;
  proc_string : Z
}.

(** A monitor: what its functions [name] and [config] give, [None] without the
    function; [config] may give NULL. *)
Record monitor := Monitor { m_name : option string; m_has_initialize : bool; m_config : option (option json) }.

(** [struct margo_init_info] and the other arguments.  The configuration is [None]
    without a string, [Some None] when it cannot be parsed. *)
Record margo_init_info := MargoInitInfo {
  json_config : option (option json);
  init_pools : init_args;
  init_hg : margo_hg_user_args;
  init_monitor : option monitor
}.

Record params := Params { hg_progress_spindown_msec : Z; hg_progress_timeout_ub : Z; handle_cache_size : Z; abt_profiling_enabled : bool }.

(** What may fail once the pools are chosen. *)
Record rest_codes := RestCodes {
  r_malloc_abt : bool;
  r_handle_cache : bool;
  r_request_arena : bool;
  r_data_arena : bool;
  r_key : bool;
  r_malloc_monitor : bool;
  r_calloc_rpc : bool;
  r_malloc_data : bool;
  r_thread : bool
}.

(** Calls that make, release or start something. *)
Inductive call :=
  | Mercury_call (e : effect)
  | InstanceRefIncr | InstanceRelease
  | TimerListCreate | TimerListFree
  | HandleCacheInit (size : Z) | HandleCacheDestroy
  | ArenaCreate | ArenaDestroy
  | KeyCreate | KeyFree
  | MonitorInitialize (config : option json)
  | StartProfiling
  | RegisterRpc (id : Z)
  | ProgressThread (pool : Z).

Section Instances.
Context {H : Type} `{REG : Registry H}.

(** [registry] is Mercury's table of the class that is used, [machine] and [tokens]
    the world of mochi-plumber, when Margo is built with it. *)
Record oracle := Oracle {
  e_default_monitor : option monitor;
  e_vnis : option string;
  e_mercury : mercury;
  e_plumber : option (machine * tokens);
  e_abt : init_oracle;
  e_undo : nat -> sched_codes;
  e_pools : pool_oracle;
  e_sanity : bool;
  e_calloc : bool;
  e_rest : rest_codes;
  e_registry : H
}.

(** [struct margo_instance]: the tables and Mercury's registry are those of [Rpc]. *)
Record margo_instance := MargoInstance {
  mi_state : Rpc.state H;
  mi_params : params;
  mi_hg : margo_hg;
  plumber_bucket_policy : option string;
  plumber_nic_policy : option string;
  mi_monitor : option monitor;
  has_parent : bool;
  shutdown_rpc_id : Z;
  identity_rpc_id : Z;
  enable_remote_shutdown : bool
}.

Definition mid_instance (mid : margo_instance) : instance := inst (mi_state mid).

(** ** Initialisation *)

(** The fields are unsigned, the size is a [size_t]. *)
Definition read_params (config : option json) : params :=
  Params (u32 (json_object_object_get_int_or config "progress_spindown_msec" 10))
         (u32 (json_object_object_get_int_or config "progress_timeout_ub_msec" 100))
         (u64 (json_object_object_get_int_or config "handle_cache_size" 256))
         (json_object_object_get_bool_or config "enable_abt_profiling" false).

Definition read_plumber (have_plumber : bool) (config : option json) : option string * option string :=
  if negb have_plumber then (None, None) else
  match json_object_object_get config "plumber" with
  | Some p => (Some (json_object_object_get_string_or (Some p) "bucket_policy" "package"),
               Some (json_object_object_get_string_or (Some p) "nic_policy" "roundrobin"))
  | None => (Some "package", Some "roundrobin")%string
  end.

(** The address through mochi-plumber. *)
Definition resolver (o : oracle) (policies : option string * option string) : option (string -> option string) :=
  match e_plumber o with
  | None => None
  | Some (m, t) => Some (fun a => (mochi_plumber_resolve_nic m a (default ""%string policies.1) (default ""%string policies.2) t).1)
  end.
Definition mercury_of (o : oracle) (policies : option string * option string) : mercury :=
  let w := e_mercury o in
  HgConfig.Mercury (resolver o policies) (new_class w) (new_context w) (class_of_context w) (addr_self w) (addr_string w)
    (class_is_listening w) (calloc_works w).

(** The configuration given to the monitor. *)
Definition monitoring_config (config : option json) : option json :=
  match json_object_object_get config "monitoring" with
  | Some j => json_object_object_get (Some j) "config"
  | None => Some (JObject [])
  end.

(** The end of the error path for an instance; the timer list exists. *)
Definition undo_instance (parent key : bool) (arenas : nat) : list call :=
  (if parent then [InstanceRelease] else []) ++ [HandleCacheDestroy] ++ replicate arenas ArenaDestroy ++ [TimerListFree] ++
  (if key then [KeyFree] else []).

(** The two RPCs of every instance. *)
Definition register_internal_rpcs (b : build) (c : rest_codes) (s : Rpc.state H) : Z * Z * Rpc.state H :=
  let '(id1, s) := margo_provider_register_name (hg_ge_2_3 b) (r_calloc_rpc c) (r_malloc_data c) "__shutdown__" 0 (proc_shutdown b)
                     MARGO_DEFAULT_PROVIDER_ID 0 s in
  let '(id2, s) := margo_provider_register_name (hg_ge_2_3 b) (r_calloc_rpc c) (r_malloc_data c) "__identity__" 0 (proc_string b)
                     MARGO_DEFAULT_PROVIDER_ID 0 s in
  (id1, id2, s).

(** From the chosen pools to the instance; [None] in the result is [goto error].
    Undefined: the error path before the timer list is made reads it. *)
Definition start_instance (b : build) (o : oracle) (mon : option monitor) (parent : bool) (config : option json)
    (a : margo_abt) (progress rpc : Z) (hg : margo_hg) (policies : option string * option string) :
    option (option margo_instance * margo_abt * list call) :=
  let c := e_rest o in
  let ps := read_params config in
  let l := if parent then [InstanceRefIncr] else [] in
  if negb parent && negb (r_malloc_abt c) then None else
  let l := l ++ [TimerListCreate; HandleCacheInit (handle_cache_size ps)] in
  if negb (r_handle_cache c) then Some (None, a, l ++ undo_instance parent false 0) else
  let arenas := (Nat.b2n (r_request_arena c) + Nat.b2n (r_data_arena c))%nat in
  let l := l ++ replicate arenas ArenaCreate in
  if negb (r_request_arena c) || negb (r_data_arena c) then Some (None, a, l ++ undo_instance parent false arenas) else
  if negb (r_key c) then Some (None, a, l ++ undo_instance parent false arenas) else
  let l := l ++ [KeyCreate] in
  if bool_decide (is_Some mon) && negb (r_malloc_monitor c) then Some (None, a, l ++ undo_instance parent true arenas) else
  let l := l ++ match mon with Some m => if m_has_initialize m then [MonitorInitialize (monitoring_config config)] else [] | None => [] end in
  let l := l ++ (if abt_profiling_enabled ps then [StartProfiling] else []) in
  let '(id1, id2, s) := register_internal_rpcs b c (State (Instance a progress rpc) (e_registry o) [] 0 []) in
  let a := abt (inst s) in
  let l := l ++ [RegisterRpc id1; RegisterRpc id2] in
  if negb (r_thread c) then Some (None, a, l ++ undo_instance parent true arenas) else
  Some (Some (MargoInstance s ps hg policies.1 policies.2 mon parent id1 id2 false), a, l ++ [ProgressThread (MARGO_PROGRESS_POOL (inst s))]).

(** [goto error]: the tables of an instance without parent are destroyed whatever has
    been done. *)
Definition init_error (o : oracle) (parent : option margo_abt) (g : globals) (a : margo_abt) (hg : margo_hg) (l : list call) :
    option margo_instance * globals * margo_abt * list call :=
  let l := l ++ map Mercury_call (__margo_hg_destroy hg).1 in
  match parent with
  | Some _ => (None, g, a, l)
  | None => let '(g, a) := __margo_abt_destroy (e_undo o) g a in (None, g, a, l)
  end.

(** From the configuration on.  [parent] holds the tables of the parent instance;
    without one the tables start empty ([m] is Argobots' main schedulers). *)
Definition init_from_config (b : build) (o : oracle) (args : margo_init_info) (parent : option margo_abt) (g : globals) (m : gmap Z (list Z))
    (config : option json) : option (option margo_instance * globals * margo_abt * list call) :=
  let a := default (empty_abt m) parent in
  let mon := match init_monitor args with Some mon => Some mon | None => e_default_monitor o end in
  let have_plumber := bool_decide (is_Some (e_plumber o)) in
  let valid :=
    match parent with
    | Some p => __margo_validate_json_with_parent p have_plumber config
    | None => __margo_validate_json (abt_initialized g) have_plumber config
    end in
  if negb valid then Some (init_error o parent g a zero_hg []) else
  let policies := read_plumber have_plumber config in
  '(e, hg, ok) ← __margo_hg_init_from_json (to_post b) (to_contexts b) (NA_NO_BLOCK b) (NA_NO_RETRY b)
                   (json_object_object_get config "mercury") (e_vnis o) (init_hg args) (mercury_of o policies);
  let l := map Mercury_call e in
  if negb ok then Some (init_error o parent g a hg l) else
  let '(ok, g, a) :=
    match parent with
    | Some _ => (true, g, a)
    | None => __margo_abt_init_from_json (e_abt o) (json_object_object_get config "argobots") g a
    end in
  if negb ok then Some (init_error o parent g a hg l) else
  let '(chosen, a) := choose_pools (e_pools o) (init_pools args) config a in
  match chosen with
  | None => Some (init_error o parent g a hg l)
  | Some (progress, rpc) =>
      _ ← (if bool_decide (is_Some parent) then Some [] else sanity_check_abt_configuration a progress (e_sanity o));
      if negb (e_calloc o) then Some (init_error o parent g a hg l) else
      '(r, a, l') ← start_instance b o mon (bool_decide (is_Some parent)) config a progress rpc hg policies;
      match r with
      | None => Some (init_error o parent g a hg (l ++ l'))
      | Some mid => Some (Some mid, g, a, l ++ l')
      end
  end.

(** A string that cannot be parsed is refused before anything is done. *)
Definition margo_init_ext (b : build) (o : oracle) (args : margo_init_info) (parent : option margo_abt) (g : globals) (m : gmap Z (list Z)) :
    option (option margo_instance * globals * margo_abt * list call) :=
  match json_config args with
  | None => init_from_config b o args parent g m (Some (JObject []))
  | Some None => Some (None, g, default (empty_abt m) parent, [])
  | Some (Some j) => init_from_config b o args parent g m (Some j)
  end.

(** [margo_init] gives only the two thread parameters, [margo_init_pool] a context. *)
Definition margo_init (b : build) (o : oracle) (addr_str : string) (mode use_progress_thread : bool) (rpc_thread_count : Z) :=
  margo_init_ext b o
    (MargoInitInfo (Some (Some (JObject [("use_progress_thread", Some (JBool use_progress_thread)); ("rpc_thread_count", Some (JInt rpc_thread_count))]%string)))
       (InitArgs 0 0) (UserArgs (Some addr_str) mode None None None) None) None.

Definition margo_init_pool (b : build) (o : oracle) (progress_pool rpc_pool hg_context : Z) :=
  margo_init_ext b o
    (MargoInitInfo None (InitArgs progress_pool rpc_pool)
       (UserArgs None (class_is_listening (e_mercury o)) None (class_of_context (e_mercury o)) (Some hg_context)) None) None.

(** ** The configuration of an instance *)

(** What Argobots, the environment and Mercury answer when the configuration is
    written. *)
Record config_env := ConfigEnv {
  c_version : string;
  c_codes : nat -> sched_codes;
  c_cpubind : nat -> Z * Z;
  c_affinity : nat -> Z * list Z;
  c_atol : string -> Z;
  c_lazy : bool;
  c_env : gmap string string;
  c_hg_version : string;
  c_listening : bool;
  c_input_eager_size : Z;
  c_output_eager_size : Z
}.

Definition hg_json (b : build) (env : config_env) (hg : margo_hg) : json :=
  __margo_hg_to_json (NA_NO_BLOCK b) (NA_NO_RETRY b) (c_hg_version env) (c_listening env) (c_input_eager_size env) (c_output_eager_size env) hg.

Definition monitor_json (mon : monitor) : json :=
  JObject (match m_name mon with Some n => [("name"%string, Some (JString n))] | None => [] end ++
           match m_config mon with Some j => [("config"%string, j)] | None => [] end).

(** A pool by name or by index; past the end of the table the name is NULL, and
    making a JSON string of it is undefined. *)
Definition pool_field (use_names : bool) (a : margo_abt) (idx : Z) : option json :=
  if use_names then p ← pools a !! Z.to_nat idx; Some (JString (p_name p)) else Some (json_object_new_uint64 idx).

(** The flags MARGO_CONFIG_USE_NAMES and MARGO_CONFIG_HIDE_EXTERNAL; the plumber
    policies are there when Margo is built with mochi-plumber. *)
Definition margo_get_config_opt (b : build) (env : config_env) (use_names hide : bool) (mid : margo_instance) : option json :=
  let m := mid_instance mid in
  progress ← pool_field use_names (abt m) (progress_pool_idx m);
  rpc ← pool_field use_names (abt m) (rpc_pool_idx m);
  Some (JObject (
    [("version"%string, Some (JString (c_version env)));
     ("argobots"%string, Some (__margo_abt_to_json (c_codes env) (c_cpubind env) (c_affinity env) (c_atol env) (c_lazy env) use_names hide (c_env env) (abt m)));
     ("mercury"%string, Some (hg_json b env (mi_hg mid)))] ++
    match mi_monitor mid with Some mon => [("monitoring"%string, Some (monitor_json mon))] | None => [] end ++
    match plumber_bucket_policy mid, plumber_nic_policy mid with
    | Some bucket, Some nic => [("plumber"%string, Some (JObject [("bucket_policy", Some (JString bucket)); ("nic_policy", Some (JString nic))]%string))]
    | _, _ => []
    end ++
    [("progress_timeout_ub_msec"%string, Some (json_object_new_uint64 (hg_progress_timeout_ub (mi_params mid))));
     ("progress_spindown_msec"%string, Some (json_object_new_uint64 (hg_progress_spindown_msec (mi_params mid))));
     ("handle_cache_size"%string, Some (json_object_new_uint64 (handle_cache_size (mi_params mid))));
     ("enable_abt_profiling"%string, Some (JBool (abt_profiling_enabled (mi_params mid))));
     ("progress_pool"%string, Some progress); ("rpc_pool"%string, Some rpc)])).

(** ** Changes to a running instance *)

Definition with_params (ps : params) (mid : margo_instance) : margo_instance :=
  MargoInstance (mi_state mid) ps (mi_hg mid) (plumber_bucket_policy mid) (plumber_nic_policy mid) (mi_monitor mid) (has_parent mid)
    (shutdown_rpc_id mid) (identity_rpc_id mid) (enable_remote_shutdown mid).
Definition with_state (s : Rpc.state H) (mid : margo_instance) : margo_instance :=
  MargoInstance s (mi_params mid) (mi_hg mid) (plumber_bucket_policy mid) (plumber_nic_policy mid) (mi_monitor mid) (has_parent mid)
    (shutdown_rpc_id mid) (identity_rpc_id mid) (enable_remote_shutdown mid).

(** [atoi] is the C library's. *)
Definition margo_set_param (atoi : string -> Z) (key value : string) (mid : margo_instance) : Z * margo_instance :=
  if bool_decide (key = "progress_timeout_ub_msecs"%string) then
    let ps := mi_params mid in
    (0, with_params (Params (hg_progress_spindown_msec ps) (u32 (atoi value)) (handle_cache_size ps) (abt_profiling_enabled ps)) mid)
  else (-1, mid).

(** [inv_arg] is ABT_ERR_INV_ARG, [migrate] the code of [ABT_thread_migrate_to_pool], which is called with the
    pool in the result. *)
Definition margo_migrate_progress_loop (inv_arg migrate pool_idx : Z) (mid : margo_instance) : Z * option Z * margo_instance :=
  let m := mid_instance mid in
  if Z.of_nat (length (pools (abt m))) <=? pool_idx then (inv_arg, None, mid)
  else if pool_idx =? progress_pool_idx m then (0, None, mid)
  else
    let mid := with_state (with_inst (Instance (abt m) pool_idx (rpc_pool_idx m)) (mi_state mid)) mid in
    (migrate, Some (pool_at (abt m) pool_idx), mid).

(** ** The tables through registration *)

Lemma ref_at_keys d i (s : Rpc.state H) : keys (abt (inst (ref_at d i s))) = keys (abt (inst s)) /\
  progress_pool_idx (inst (ref_at d i s)) = progress_pool_idx (inst s) /\ rpc_pool_idx (inst (ref_at d i s)) = rpc_pool_idx (inst s).
Proof.
  split; [|done]. unfold keys, ref_at. cbn [inst with_inst abt set_abt pools set_pools]. apply list_eq. intros j.
  rewrite !lookup_map, list_lookup_alter. destruct (decide (Z.to_nat i = j)) as [->|]; [|done]. by destruct (pools (abt (inst s)) !! j).
Qed.

(** Nothing but reference counts and Mercury's table. *)
Definition same_pools (s s' : Rpc.state H) : Prop :=
  keys (abt (inst s')) = keys (abt (inst s)) /\ progress_pool_idx (inst s') = progress_pool_idx (inst s) /\ rpc_pool_idx (inst s') = rpc_pool_idx (inst s).

Lemma register_same_pools ge calloc malloc name inp outp prov pool s :
  same_pools s (margo_provider_register_name ge calloc malloc name inp outp prov pool s).2.
Proof.
  unfold margo_provider_register_name. destruct (negb calloc); [done|]. set (s1 := with_rpcs _ _ s).
  assert (same_pools s1 (margo_register_internal malloc (Some name) (gen_id ge name prov) inp outp pool s1).2) as Hs.
  { unfold margo_register_internal. destruct (HG_Register _ _) as [hret h]. destruct (negb (is_success hret)); [done|].
    set (s2 := with_hg h s1). assert (forall ok s3, same_pools s1 s3 -> same_pools s1 (if negb ok then (0, s3) else
      let '(_, _, _, info) := margo_find_pool_by_handle (inst s3) (if pool =? 0 then MARGO_RPC_POOL (inst s1) else pool) in
      match info with Some i => (gen_id ge name prov, ref_at 1 (i_index i) s3) | None => (gen_id ge name prov, s3) end).2) as Hend.
    { intros [] s3 H3; [cbn [negb]|done]. destruct (margo_find_pool_by_handle _ _) as [[[? ?] ?] [i|]]; [|done].
      cbn [snd]. destruct (ref_at_keys 1 (i_index i) s3) as (K1 & K2 & K3). destruct H3 as (L1 & L2 & L3). split; [|split]; congruence. }
    destruct (HG_Registered_data (hg s2) _); [by apply (Hend true)|]. destruct (negb malloc); [by apply (Hend false)|].
    destruct (HG_Register_data _ _ _) as [hret2 h2]. by apply Hend. }
  destruct (margo_register_internal _ _ _ _ _ _ _) as [id s2]. cbn [snd] in Hs. by destruct (id =? 0).
Qed.

Lemma start_instance_spec b o mon parent config a progress rpc hg policies mid a' l :
  start_instance b o mon parent config a progress rpc hg policies = Some (Some mid, a', l) ->
  abt (mid_instance mid) = a' /\ keys a' = keys a /\
  progress_pool_idx (mid_instance mid) = progress /\ rpc_pool_idx (mid_instance mid) = rpc /\
  mi_params mid = read_params config /\ mi_hg mid = hg /\ (plumber_bucket_policy mid, plumber_nic_policy mid) = policies.
Proof.
  unfold start_instance. destruct (_ && _); [done|]. destruct (negb _); [done|]. destruct (_ || _); [done|]. destruct (negb _); [done|].
  destruct (_ && _); [done|]. unfold register_internal_rpcs. set (s0 := State _ _ _ _ _).
  pose proof (register_same_pools (hg_ge_2_3 b) (r_calloc_rpc (e_rest o)) (r_malloc_data (e_rest o)) "__shutdown__" 0 (proc_shutdown b) MARGO_DEFAULT_PROVIDER_ID 0 s0) as H1.
  destruct (margo_provider_register_name _ _ _ "__shutdown__" _ _ _ _ _) as [id1 s1]. cbn [snd] in H1.
  pose proof (register_same_pools (hg_ge_2_3 b) (r_calloc_rpc (e_rest o)) (r_malloc_data (e_rest o)) "__identity__" 0 (proc_string b) MARGO_DEFAULT_PROVIDER_ID 0 s1) as H2.
  destruct (margo_provider_register_name _ _ _ "__identity__" _ _ _ _ _) as [id2 s2]. cbn [snd] in H2.
  destruct (negb _); [done|]. intros [= <- <- <-]. unfold mid_instance. cbn [mi_state mi_params mi_hg plumber_bucket_policy plumber_nic_policy].
  destruct H1 as (K1 & P1 & R1), H2 as (K2 & P2 & R2). split_and!; try done; try (etrans; [eassumption|done]). by destruct policies.
Qed.

(** [chosen] and [in_range] look only at names and handles. *)
Lemma in_range_keys a a' idx : keys a' = keys a -> in_range idx a' = in_range idx a.
Proof. intros Hk. unfold in_range. by rewrite <- (keys_length a), <- (keys_length a'), Hk. Qed.

Lemma chosen_keys arg j (fb fb' : Prop) a a' idx : keys a' = keys a -> (fb -> fb') -> chosen arg j fb a idx -> chosen arg j fb' a' idx.
Proof.
  intros Hk Hfb (H1 & H2 & H3). unfold chosen. rewrite key_at_pool. unfold key_at. rewrite Hk. split_and!; [|intros; specialize (H2 ltac:(done) ltac:(done) ltac:(done)); unfold field_ok, key_at in *; by rewrite Hk|auto].
  intros Ha. rewrite <- (H1 Ha), key_at_pool. done.
Qed.

(** ** The instance that initialisation gives *)

Lemma init_error_none o parent g a hg l : exists g' a', init_error o parent g a hg l = (None, g', a', l ++ map Mercury_call (__margo_hg_destroy hg).1).
Proof. unfold init_error. destruct parent; [by do 2 eexists|]. destruct (__margo_abt_destroy _ _ _) as [g' a']. by do 2 eexists. Qed.

Lemma init_error_no_instance o parent g a hg l mid g' a' l' : Some (init_error o parent g a hg l) = Some (Some mid, g', a', l') -> False.
Proof. destruct (init_error_none o parent g a hg l) as (? & ? & ->). done. Qed.

Lemma init_from_config_runs b o args parent g m config mid g' a' l : init_from_config b o args parent g m config = Some (Some mid, g', a', l) ->
  exists mon a a1 progress rpc hg l1,
    choose_pools (e_pools o) (init_pools args) config a = (Some (progress, rpc), a1) /\
    start_instance b o mon (bool_decide (is_Some parent)) config a1 progress rpc hg (read_plumber (bool_decide (is_Some (e_plumber o))) config) =
      Some (Some mid, a', l1).
Proof.
  unfold init_from_config. destruct (negb _); [by intros ?%init_error_no_instance|].
  intros ([[e hg] ok] & _ & Hi)%bind_Some. revert Hi. destruct (negb ok); [by intros ?%init_error_no_instance|].
  destruct (match parent with Some _ => _ | None => _ end) as [[ok1 g1] a1]. destruct (negb ok1); [by intros ?%init_error_no_instance|].
  destruct (choose_pools _ _ _ _) as [[[progress rpc]|] a2] eqn:Hch; [|by intros ?%init_error_no_instance].
  intros (ws & _ & Hi)%bind_Some. revert Hi. destruct (negb (e_calloc o)); [by intros ?%init_error_no_instance|].
  intros ([[r a3] l'] & Hst & Hi)%bind_Some. revert Hi. destruct r as [mid'|]; [|by intros ?%init_error_no_instance]. intros [= <- <- <- <-].
  eauto 10.
Qed.


(** ** The error path *)

Definition calls_of (l : list call) : list effect := omap (fun c => match c with Mercury_call e => Some e | _ => None end) l.
Definition occurrences (P : call -> bool) (l : list call) : nat := length (List.filter P l).

(** What is made and what is released, as numbers of calls. *)
Record released (l : list call) : Prop := {
  rel_ref : occurrences (fun c => match c with InstanceRefIncr => true | _ => false end) l =
            occurrences (fun c => match c with InstanceRelease => true | _ => false end) l;
  rel_timers : occurrences (fun c => match c with TimerListCreate => true | _ => false end) l =
               occurrences (fun c => match c with TimerListFree => true | _ => false end) l;
  rel_cache : occurrences (fun c => match c with HandleCacheInit _ => true | _ => false end) l =
              occurrences (fun c => match c with HandleCacheDestroy => true | _ => false end) l;
  rel_arenas : occurrences (fun c => match c with ArenaCreate => true | _ => false end) l =
               occurrences (fun c => match c with ArenaDestroy => true | _ => false end) l;
  rel_key : occurrences (fun c => match c with KeyCreate => true | _ => false end) l =
            occurrences (fun c => match c with KeyFree => true | _ => false end) l
}.

Lemma occurrences_app P l1 l2 : occurrences P (l1 ++ l2) = (occurrences P l1 + occurrences P l2)%nat.
Proof. unfold occurrences. by rewrite List.filter_app, length_app. Qed.

Lemma released_app l1 l2 : released l1 -> released l2 -> released (l1 ++ l2).
Proof. intros [] []. constructor; rewrite !occurrences_app; congruence. Qed.

Lemma released_mercury e : released (map Mercury_call e).
Proof. induction e as [|x e IH]; [by constructor|]. by destruct IH; constructor. Qed.

Lemma calls_of_mercury e : calls_of (map Mercury_call e) = e.
Proof. induction e as [|x e IH]; [done|]. cbn. f_equal. exact IH. Qed.

Lemma calls_of_app l1 l2 : calls_of (l1 ++ l2) = calls_of l1 ++ calls_of l2.
Proof. apply omap_app. Qed.

Lemma start_instance_undone b o mon parent config a progress rpc hg policies a' l :
  start_instance b o mon parent config a progress rpc hg policies = Some (None, a', l) -> released l /\ calls_of l = [].
Proof.
  assert (forall l0 : list call, l0 = l -> released l0 /\ calls_of l0 = [] -> released l /\ calls_of l = []) as Hd by (by intros ? ->).
  unfold start_instance. destruct (_ && _); [done|].
  destruct (r_handle_cache _); cbn [negb]; [|destruct parent; intros [= _ Hl]; apply (Hd _ Hl); by repeat constructor].
  destruct (r_request_arena _), (r_data_arena _), (r_key _); cbn [negb orb];
    try (destruct parent; intros [= _ Hl]; apply (Hd _ Hl); (split; [constructor; reflexivity|reflexivity])).
  destruct (_ && _); [destruct parent; intros [= _ Hl]; apply (Hd _ Hl); (split; [constructor; reflexivity|reflexivity])|].
  destruct (register_internal_rpcs _ _ _) as [[id1 id2] s]. destruct (negb _); [|done]. intros [= _ Hl]. apply (Hd _ Hl).
  clear Hl. cbn [read_params abt_profiling_enabled].
  destruct parent, mon as [[mn [] mc]|], (json_object_object_get_bool_or config "enable_abt_profiling" false); (split; [constructor; reflexivity|reflexivity]).
Qed.

Lemma init_error_released o parent g a hg l g' a' l' : released l -> settled (calls_of l) (__margo_hg_destroy hg).1 ->
  Some (init_error o parent g a hg l) = Some (None, g', a', l') ->
  released l' /\ settled (calls_of l') [] /\ (is_Some parent -> g' = g).
Proof.
  intros Hr Hs. unfold init_error. set (d := map Mercury_call (__margo_hg_destroy hg).1).
  assert (released (l ++ d) /\ settled (calls_of (l ++ d)) []) as [H1 H2].
  { split; [apply released_app; [done|apply released_mercury]|].
    assert (calls_of (l ++ d) = calls_of l ++ (__margo_hg_destroy hg).1) as -> by (by rewrite calls_of_app; unfold d; rewrite calls_of_mercury).
    unfold settled. by rewrite app_nil_r. }
  destruct parent; [by intros [= <- <- <-]|]. destruct (__margo_abt_destroy _ _ _) as [g1 a1]. intros [= <- <- <-].
  split; [done|]. split; [done|]. by intros [].
Qed.


(** C29: The error path of [margo_init_ext] destroys the tables without knowing whether
    they were initialised: a configuration that is refused decrements the number of
    instances that was not incremented, so when one other instance is alive Argobots
    is finalized under it. *)
Theorem refused_init_finalizes_argobots b o args config g m :
  json_config args = Some (Some config) ->
  __margo_validate_json (abt_initialized g) (bool_decide (is_Some (e_plumber o))) (Some config) = false ->
  exists g' a, margo_init_ext b o args None g m = Some (None, g', a, []) /\
    g_margo_num_instances g' = g_margo_num_instances g - 1 /\
    (g_margo_num_instances g = 1 -> g_margo_abt_init g = true -> abt_initialized g' = false /\ events a = [AbtFinalize]).
Proof.
  intros Hj Hv. unfold margo_init_ext, init_from_config. rewrite Hj, Hv. cbn [negb default]. unfold init_error, __margo_abt_destroy.
  cbn [xstreams pools empty_abt destroy_xstreams map concat emit main events app].
  destruct (Z.eqb_spec (g_margo_num_instances g - 1) 0), (g_margo_abt_init g); do 2 eexists; (split; [reflexivity|]);
    (split; [done|]); intros; done || lia.
Qed.

(** [margo_init_pool] gives no address, and the automatic choice of a CXI key looks
    for "cxi" in it: whatever Mercury and Argobots answer, it reads a NULL string. *)
Theorem margo_init_pool_undefined b o progress_pool rpc_pool hg_context g m :
  margo_init_pool b o progress_pool rpc_pool hg_context g m = None.
Proof.
  unfold margo_init_pool, margo_init_ext. cbn [json_config]. unfold init_from_config.
  assert (__margo_validate_json (abt_initialized g) (bool_decide (is_Some (e_plumber o))) (Some (JObject [])) = true) as -> by reflexivity.
  cbn [negb init_hg]. unfold __margo_hg_init_from_json. cbn [user_init_info user_class protocol].
  by destruct (class_of_context (e_mercury o)).
Qed.

(** ** Writing the configuration and reading it again *)

Definition config_members (b : build) (env : config_env) (use_names hide : bool) (mid : margo_instance) (progress rpc : json) : members :=
  let ps := mi_params mid in
  [("version", Some (JString (c_version env)));
   ("argobots", Some (__margo_abt_to_json (c_codes env) (c_cpubind env) (c_affinity env) (c_atol env) (c_lazy env) use_names hide (c_env env) (abt (mid_instance mid))));
   ("mercury", Some (hg_json b env (mi_hg mid)));
   ("monitoring", monitor_json <$> mi_monitor mid);
   ("plumber", match plumber_bucket_policy mid, plumber_nic_policy mid with
               | Some bucket, Some nic => Some (JObject [("bucket_policy", Some (JString bucket)); ("nic_policy", Some (JString nic))])
               | _, _ => None
               end);
   ("progress_timeout_ub_msec", Some (JInt (hg_progress_timeout_ub ps)));
   ("progress_spindown_msec", Some (JInt (hg_progress_spindown_msec ps)));
   ("handle_cache_size", Some (JInt (handle_cache_size ps)));
   ("enable_abt_profiling", Some (JBool (abt_profiling_enabled ps)));
   ("progress_pool", Some progress); ("rpc_pool", Some rpc);
   ("use_progress_thread", None); ("rpc_thread_count", None)]%string.

Lemma config_json b env use_names hide mid progress rpc :
  pool_field use_names (abt (mid_instance mid)) (progress_pool_idx (mid_instance mid)) = Some progress ->
  pool_field use_names (abt (mid_instance mid)) (rpc_pool_idx (mid_instance mid)) = Some rpc ->
  exists j, margo_get_config_opt b env use_names hide mid = Some j /\
    Forall (fun e => json_object_object_get (Some j) e.1 = e.2) (config_members b env use_names hide mid progress rpc).
Proof.
  intros Hp Hr. unfold margo_get_config_opt. rewrite Hp, Hr. cbn [mbind option_bind]. eexists. split; [reflexivity|].
  assert (NoDup (config_members b env use_names hide mid progress rpc).*1) as Hnd.
  { change (config_members b env use_names hide mid progress rpc).*1 with
      ["version"; "argobots"; "mercury"; "monitoring"; "plumber"; "progress_timeout_ub_msec"; "progress_spindown_msec"; "handle_cache_size";
       "enable_abt_profiling"; "progress_pool"; "rpc_pool"; "use_progress_thread"; "rpc_thread_count"]%string.
    apply (bool_decide_unpack _). vm_compute. exact I. }
  apply Forall_forall. intros [k v] Hin. cbn [fst snd]. rewrite <- (assoc_member _ _ _ Hnd Hin), <- assoc_drop_null by done.
  cbn [json_object_object_get]. f_equal. unfold config_members.
  destruct (mi_monitor mid), (plumber_bucket_policy mid), (plumber_nic_policy mid); reflexivity.
Qed.

Lemma find_exported ps name : name ∈ map p_name ps -> forall i, 0 <= i ->
  (find_by_name (map (fun p => Some (__margo_abt_pool_to_json p)) ps) i name).1 ≠ -1.
Proof.
  induction ps as [|p ps IH]; [by intros ?%elem_of_nil|]. cbn [map]. intros Hin i Hi.
  change (find_by_name (Some (__margo_abt_pool_to_json p) :: map (fun p => Some (__margo_abt_pool_to_json p)) ps) i name) with
    (if bool_decide (Some (p_name p) = Some name) then (i, Some (__margo_abt_pool_to_json p))
     else find_by_name (map (fun p => Some (__margo_abt_pool_to_json p)) ps) (i + 1) name).
  case_bool_decide as Hn; [simpl; lia|]. apply elem_of_cons in Hin as [->|Hin]; [done|]. apply IH; [done|lia].
Qed.

(** The reference to a pool in the table. *)
Lemma pool_field_spec use_names a idx : wf a -> Z.of_nat (length (pools a)) < 2 ^ 31 -> in_range idx a = true ->
  exists f, pool_field use_names a idx = Some f /\ pool_of_json a (Some f) = idx /\
    check_pool_field (Z.of_nat (length (pools a))) (CONFIG_ARRAY_MUST_HAVE_ITEM_NAMED (Some (JArray (pools_json a)))) (Some f) = true.
Proof.
  intros Hwf Hlen [H0%Z.leb_le Hlt%Z.ltb_lt]%andb_true_iff. unfold pool_field. destruct use_names.
  - destruct (lookup_lt_is_Some_2 (pools a) (Z.to_nat idx)) as [p Hp]; [lia|]. rewrite Hp. eexists. split; [reflexivity|].
    assert (p_name p ∈ map p_name (pools a)) as Hin by (apply list_elem_of_fmap; exists p; split; [done|]; by eapply list_elem_of_lookup_2).
    split.
    + unfold pool_of_json. cbn [json_object_is_type json_object_get_type json_object_get_string].
      destruct (find_pool_by_name_spec a (p_name p)) as [[_ Hno]|(k & q & Hfind & Hq & Hn)]; [done|].
      assert (k = Z.to_nat idx) as Hk.
      2: { rewrite bool_decide_false by done. rewrite Hfind. lia. }
      assert (map p_name (pools a) !! k = Some (p_name p)) as Hk1 by (rewrite lookup_map, Hq; by rewrite <- Hn).
      assert (map p_name (pools a) !! Z.to_nat idx = Some (p_name p)) as Hk2 by (by rewrite lookup_map, Hp).
      exact (NoDup_lookup _ _ _ _ (wf_names _ Hwf) Hk1 Hk2).
    + cbn [check_pool_field]. unfold CONFIG_ARRAY_MUST_HAVE_ITEM_NAMED, CONFIG_FIND_BY_NAME. cbn [json_object_array].
      pose proof (find_exported (pools a) (p_name p) Hin 0 ltac:(lia)) as Hf. unfold pools_json. rewrite (proj2 (Z.eqb_neq _ (-1)) Hf). apply orb_true_r.
  - eexists. split; [reflexivity|]. unfold json_object_new_uint64. assert (json_object_get_int (Some (JInt idx)) = idx) as Hget.
    { unfold json_object_get_int, json_object_get_int64. lia. }
    split; [exact Hget|]. cbn [check_pool_field]. rewrite Hget. destruct (Z.ltb_spec idx 0), (Z.leb_spec (Z.of_nat (length (pools a))) idx); done || lia.
Qed.

Lemma check_natural_int config key n : json_object_object_get config key = Some (JInt n) -> 0 <= n < 2 ^ 31 -> check_natural config key = true.
Proof.
  intros Hk Hn. unfold check_natural, ASSERT_CONFIG_HAS_OPTIONAL, CONFIG_HAS, CONFIG_INTEGER_MUST_BE_POSITIVE. rewrite Hk.
  rewrite bool_decide_true by by eexists. cbn. rewrite i32_id by lia. destruct (Z.ltb_spec n 0); [lia|done].
Qed.

Lemma get_int_or_spec config key n x : json_object_object_get config key = Some (JInt n) -> 0 <= n < 2 ^ 31 -> json_object_object_get_int_or config key x = n.
Proof.
  intros Hk Hn. unfold json_object_object_get_int_or. rewrite Hk. change (json_object_get_int (Some (JInt n)) = n). unfold json_object_get_int, json_object_get_int64. lia.
Qed.

(** What an instance can write so that it can be read again: tables that
    [AbtStart.exportable] describes, a class of Mercury that Margo made, and
    parameters in the range of [int]. *)
Record writable (have_plumber : bool) (env : config_env) (mid : margo_instance) : Prop := {
  w_tables : exportable (abt (mid_instance mid));
  w_progress : in_range (progress_pool_idx (mid_instance mid)) (abt (mid_instance mid)) = true;
  w_rpc : in_range (rpc_pool_idx (mid_instance mid)) (abt (mid_instance mid)) = true;
  w_hg : owns_class (mi_hg mid) = true;
  w_params : let ps := mi_params mid in
    Forall (fun n => 0 <= n < 2 ^ 31) [hg_progress_spindown_msec ps; hg_progress_timeout_ub ps; handle_cache_size ps];
  w_plumber : if have_plumber then is_Some (plumber_bucket_policy mid) /\ is_Some (plumber_nic_policy mid)
              else plumber_bucket_policy mid = None /\ plumber_nic_policy mid = None;
  w_codes : c_codes env = fun _ => codes_ok
}.


(** Hiding external pools keeps the indices of the table: when no more pools are
    visible than the index of the progress pool (as for an instance whose pools are
    all external), the configuration that is written is refused. *)
Theorem hidden_config_refused b env mid initialized have_plumber :
  let m := mid_instance mid in
  let visible := List.filter (fun p => negb (bool_decide (p_kind p = "external"%string))) (pools (abt m)) in
  Z.of_nat (length visible) <= progress_pool_idx m < 2 ^ 31 ->
  exists j, margo_get_config_opt b env false true mid = Some j /\ __margo_validate_json initialized have_plumber (Some j) = false.
Proof.
  intros m visible Hv. destruct (config_json b env false true mid (JInt (progress_pool_idx m)) (JInt (rpc_pool_idx m)) eq_refl eq_refl) as (j & Hj & Hget).
  exists j. split; [done|]. unfold config_members in Hget. rewrite !Forall_cons in Hget. cbn [fst snd] in Hget.
  destruct Hget as (_ & Habt & _ & _ & _ & _ & _ & _ & _ & Hpp & _). unfold __margo_validate_json. rewrite Habt, Hpp. fold m.
  set (jp := json_object_object_get (Some (__margo_abt_to_json _ _ _ _ _ _ _ _ _)) "pools").
  assert (length (json_object_array jp) = length visible) as ->.
  { subst jp visible. unfold __margo_abt_to_json. cbn [app json_object_object_get assoc json_object_array].
    rewrite bool_decide_true by done. cbn [json_object_array].
    clear. induction (pools (abt m)) as [|p l IH]; [done|]. simpl. case_bool_decide; simpl; [exact IH|by f_equal]. }
  set (known := CONFIG_ARRAY_MUST_HAVE_ITEM_NAMED jp). assert (check_pool_field (Z.of_nat (length visible)) known (Some (JInt (progress_pool_idx m))) = false) as ->.
  { cbn [check_pool_field].
    assert (json_object_get_int (Some (JInt (progress_pool_idx m))) = progress_pool_idx m) as -> by (unfold json_object_get_int, json_object_get_int64; lia).
    destruct (Z.leb_spec (Z.of_nat (length visible)) (progress_pool_idx m)); [by rewrite orb_true_r|lia]. }
  by rewrite andb_false_r.
Qed.

(** ** Bounds *)

(** The size of the handle cache of an accepted configuration: 256 by default, the
    number given up to INT_MAX, which is not negative - or, for a number below
    INT_MIN that the check reads modulo 2^32, the number 2^64 - 2^31, which no
    counter of the loop that makes the handles reaches. *)
Theorem accepted_cache_size initialized have_plumber config :
  __margo_validate_json initialized have_plumber (Some config) = true ->
  let size := handle_cache_size (read_params (Some config)) in
  match json_object_object_get (Some config) "handle_cache_size" with
  | None => size = 256
  | Some (JInt n) => (0 <= n /\ size = Z.min n (2 ^ 31 - 1)) \/ (n < - 2 ^ 31 /\ 0 <= i32 n /\ size = 2 ^ 64 - 2 ^ 31)
  | Some _ => False
  end.
Proof.
  unfold __margo_validate_json. rewrite !andb_true_iff. intros [[[[[_ Hc] _] _] _] _]. revert Hc.
  unfold check_natural, ASSERT_CONFIG_HAS_OPTIONAL, CONFIG_HAS, CONFIG_INTEGER_MUST_BE_POSITIVE. unfold read_params, json_object_object_get_int_or.
  cbn [handle_cache_size]. destruct (json_object_object_get (Some config) "handle_cache_size") as [[| |n| | |]|]; try done.
  rewrite bool_decide_true by by eexists. intros [_ Hn%negb_true_iff%Z.ltb_ge]%andb_true_iff. cbn [json_object_get_int64] in Hn.
  change (json_object_is_type (Some (JInt n)) json_type_int) with true. cbv iota. unfold json_object_get_int, json_object_get_int64.
  destruct (Z.le_gt_cases (- 2 ^ 31) n) as [Hge|Hlt].
  - left. assert (0 <= n) as H0.
    { destruct (Z.lt_ge_cases n (2 ^ 31)); [by rewrite i32_id in Hn by lia|lia]. }
    split; [done|]. rewrite u64_id by (unfold is_u64; lia). lia.
  - right. split; [done|]. split; [done|]. assert (Z.max (- 2 ^ 31) (Z.min (2 ^ 31 - 1) n) = - 2 ^ 31) as -> by lia. reflexivity.
Qed.
End Instances.

(** ** Examples *)

Definition demo_build : build := Build u32 u8 1 2 true 101 102.
Definition demo_process (n : Z) : globals := Globals (0 <? n) (0 <? n) n ∅.

(** Everything succeeds, but for the thread of the progress loop in the second. *)
Definition demo_oracle (thread : bool) : oracle (H := gmap Z rpc_data) :=
  Oracle None None demo_mercury None demo_start (fun _ => codes_ok)
    (PoolOracle true (0, 40) (oracle_ok 41) (0, 50) (fun n => oracle_ok (100 + Z.of_nat n)))
    true true (RestCodes true true true true true true true true thread) ∅.

(** The progress pool by name, and two execution streams for RPCs. *)
Definition demo_init_config : json :=
  JObject [("argobots"%string, Some demo_config); ("progress_pool"%string, Some (JString "p")); ("rpc_thread_count"%string, Some (JInt 2))].
Definition demo_args (config : json) : margo_init_info :=
  MargoInitInfo (Some (Some config)) (InitArgs 0 0) (demo_user None None) (Some (Monitor (Some "default"%string) true None)).

Definition view (r : option (option (margo_instance (H := gmap Z rpc_data)) * globals * margo_abt * list call)) :
    option (option (Z * Z) * nat * list call) :=
  match r with
  | Some (Some mid, _, a, l) => Some (Some (progress_pool_idx (mid_instance mid), rpc_pool_idx (mid_instance mid)), length (xstreams a), l)
  | Some (None, _, a, l) => Some (None, length (xstreams a), l)
  | None => None
  end.

#[local] Notation demo_success := (margo_init_ext demo_build (demo_oracle true) (demo_args demo_init_config) None (demo_process 0) ∅).
#[local] Notation demo_failure := (margo_init_ext demo_build (demo_oracle false) (demo_args demo_init_config) None (demo_process 0) ∅).



(** A second instance is refused: Argobots is finalized under the first one. *)
Lemma refused_init_finalizes_argobots_witness :
  exists g a, margo_init_ext demo_build (demo_oracle true) (demo_args (JObject [("progress_pool"%string, Some (JInt 7))])) None (demo_process 1) ∅ = Some (None, g, a, []) /\
    abt_initialized g = false /\ events a = [AbtFinalize].
Proof.
  destruct (refused_init_finalizes_argobots demo_build (demo_oracle true) (demo_args (JObject [("progress_pool"%string, Some (JInt 7))]))
    (JObject [("progress_pool"%string, Some (JInt 7))]) (demo_process 1) ∅) as (g & a & H & _ & Hf); [reflexivity|vm_compute; reflexivity|].
  exists g, a. split; [exact H|]. apply Hf; reflexivity.
Defined.

Definition demo_env : config_env :=
  ConfigEnv "0.18" (fun _ => codes_ok) (fun _ => (0, 3)) (fun _ => (0, [1; 2])) (fun _ => 8) false {["ABT_THREAD_STACKSIZE"%string := "8"%string]}
    "2.4.0" true 4080 4080.
Definition demo_mid : margo_instance (H := gmap Z rpc_data) :=
  MargoInstance (State (Instance demo_e2 0 0) ∅ [] 0 []) (Params 10 100 32 true) demo_hg None None (Some (Monitor (Some "default"%string) true None))
    false 0 0 false.


(** The only pool is the primary one, and Margo did not make it. *)
Definition external_mid : margo_instance (H := gmap Z rpc_data) :=
  MargoInstance (State (Instance (Abt [Pool "__primary__" 8 "external" None 2 1 false true] 1 [] 0 "." ∅ []) 0 0) ∅ [] 0 []) (Params 10 100 32 true) demo_hg
    None None None false 0 0 false.

Lemma hidden_config_refused_witness : exists j, margo_get_config_opt demo_build demo_env false true external_mid = Some j /\
  __margo_validate_json true false (Some j) = false.
Proof. apply (hidden_config_refused demo_build demo_env external_mid true false). vm_compute. split; [discriminate|reflexivity]. Defined.

(** Minus 2^33 plus one is read as one by the check. *)
Definition big_negative : json := JObject [("handle_cache_size"%string, Some (JInt (- 2 ^ 33 + 1)))].
Lemma accepted_cache_size_witness : handle_cache_size (read_params (Some big_negative)) = 2 ^ 64 - 2 ^ 31.
Proof.
  pose proof (accepted_cache_size false false big_negative) as H.
  assert (__margo_validate_json false false (Some big_negative) = true) as Hv by (vm_compute; reflexivity).
  specialize (H Hv). change (json_object_object_get (Some big_negative) "handle_cache_size") with (Some (JInt (- 2 ^ 33 + 1))) in H.
  cbv iota in H. destruct H as [[H _]|(_ & _ & H)]; [exfalso; lia|exact H].
Defined.
