(* ===== verification/Progress.v ===== *)
(** * The progress loop (src/margo-core.c, src/margo-instance.h)

    [__margo_hg_progress_fn]: completing operations, the choice between spinning
    and blocking in Mercury, and timers; then the "when needed" mode, in which
    the loop sleeps on a condition variable while no operation is in flight, with
    its interleavings.  Mercury, Argobots and the rest of the process are behind
    a class; dates ([double]) are rationals. *)

From Stdlib Require Import QArith Qround Lqa.
From stdpp Require Import sorting.
From S2P Require Import Prelude Utlist Timer Shutdown.

#[local] Open Scope Z_scope.

(** ** Data *)

(** The fields of [margo_instance] that the loop uses; [world] is the rest. *)
Record mid (W : Type) := Mid {
  hg_progress_shutdown_flag : bool;
  hg_progress_timeout_ub : Z;
  hg_progress_spindown_msec : Z;
  shutdown_state : Z;
  pwn_flag : bool;
  pwn_pending : Z;
  num_progress_calls : Z;
  num_trigger_calls : Z;
  timer_list : Timer.state;
  world : W
}.
Arguments Mid {W} _ _ _ _ _ _ _ _ _ _.
Arguments hg_progress_shutdown_flag {W} _.
Arguments hg_progress_timeout_ub {W} _.
Arguments hg_progress_spindown_msec {W} _.
Arguments shutdown_state {W} _.
Arguments pwn_flag {W} _.
Arguments pwn_pending {W} _.
Arguments num_progress_calls {W} _.
Arguments num_trigger_calls {W} _.
Arguments timer_list {W} _.
Arguments world {W} _.

(** [spin_flag] and [spin_start_ts]. *)
Record policy := Policy { spin_flag : bool; spin_start_ts : Q }.

(** What the loop calls.  User callbacks run in [HG_Trigger], other ULTs in
    [ABT_thread_yield] and while the loop waits to be needed. *)
Class Env (W : Type) := {
  HG_Trigger : Z -> Z -> mid W -> hg_return_t * Z * mid W;
  HG_Progress : Z -> mid W -> hg_return_t * mid W;
  ABT_thread_yield : mid W -> mid W;
  wait_needed : mid W -> mid W;
  ABT_get_wtime : W -> Q * W;
  ABT_pool_get_total_size : W -> Z;
  ABT_thread_create : Z -> bool
}.

Section Loop.
Context {W : Type} `{Env W}.

Definition set_world (w : W) (m : mid W) : mid W :=
  Mid (hg_progress_shutdown_flag m) (hg_progress_timeout_ub m) (hg_progress_spindown_msec m) (shutdown_state m)
      (pwn_flag m) (pwn_pending m) (num_progress_calls m) (num_trigger_calls m) (timer_list m) w.
Definition set_calls (progress trigger : Z) (m : mid W) : mid W :=
  Mid (hg_progress_shutdown_flag m) (hg_progress_timeout_ub m) (hg_progress_spindown_msec m) (shutdown_state m)
      (pwn_flag m) (pwn_pending m) progress trigger (timer_list m) (world m).
Definition set_timers (l : Timer.state) (m : mid W) : mid W :=
  Mid (hg_progress_shutdown_flag m) (hg_progress_timeout_ub m) (hg_progress_spindown_msec m) (shutdown_state m)
      (pwn_flag m) (pwn_pending m) (num_progress_calls m) (num_trigger_calls m) l (world m).
Definition set_timeout_ub (t : Z) (m : mid W) : mid W :=
  Mid (hg_progress_shutdown_flag m) t (hg_progress_spindown_msec m) (shutdown_state m)
      (pwn_flag m) (pwn_pending m) (num_progress_calls m) (num_trigger_calls m) (timer_list m) (world m).

(** ** The loop *)

Definition margo_internal_progress (timeout_ms : Z) (m : mid W) : hg_return_t * mid W :=
  let '(hret, m) := HG_Progress timeout_ms m in
  (hret, set_calls (u64 (num_progress_calls m + 1)) (num_trigger_calls m) m).

(** The count is what [actual_count] points to, unchanged after a failure. *)
Definition margo_internal_trigger (timeout_ms max_count actual_count : Z) (m : mid W) : hg_return_t * Z * mid W :=
  let '(hret, count, m) := HG_Trigger timeout_ms max_count m in
  let m := set_calls (num_progress_calls m) (u64 (num_trigger_calls m + 1)) m in
  (hret, if is_success hret then count else actual_count, m).

(** [None]: not finished within the fuel. *)
Fixpoint trigger_loop (fuel : nat) (actual_count : Z) (m : mid W) : option (Z * mid W) :=
  match fuel with
  | O => None
  | S fuel =>
      let '(ret, actual_count, m) := margo_internal_trigger 0 1 actual_count m in
      if is_success ret && negb (actual_count =? 0) && negb (hg_progress_shutdown_flag m) then trigger_loop fuel actual_count m
      else Some (actual_count, m)
  end.

Definition wtime (m : mid W) : Q * mid W :=
  let '(now, w) := ABT_get_wtime (world m) in (now, set_world w m).

(** The window of a policy that spins, at date [now]. *)
Definition spindown_window (now : Q) (p : policy) (m : mid W) : policy :=
  if Qltb ((now - spin_start_ts p) * 1000) (inject_Z (hg_progress_spindown_msec m)) then Policy true (spin_start_ts p)
  else Policy false 0.

(** Whether blocking could delay an operation or another ULT of the pool. *)
Definition must_spin (m : mid W) : bool :=
  negb (Z.land (shutdown_state m) MARGO_PENDING_MASK =? 0) || (1 <? ABT_pool_get_total_size (world m)).

Definition new_policy (p : policy) (m : mid W) : policy * mid W :=
  if negb (hg_progress_spindown_msec m =? 0) && negb (spin_flag p) then
    if must_spin m then let '(now, m) := wtime m in (Policy true now, m) else (Policy false 0, m)
  else (p, m).

Definition spin_policy (p : policy) (m : mid W) : policy * mid W :=
  let '(p, m) := if spin_flag p then let '(now, m) := wtime m in (spindown_window now p m, m) else (p, m) in
  new_policy p m.

(** The timeout given to Mercury: [now] is the date at which the next expiration
    is computed; [None] when the list of timers is corrupted. *)
Definition progress_timeout (now : Q) (p : policy) (m : mid W) : option Z :=
  let ub := hg_progress_timeout_ub m in
  if spin_flag p then Some 0
  else
    '(ret, exp) ← __margo_timer_get_next_expiration now (timer_list m);
    match exp with
    | Some next_timer_exp =>
        if Qle_bool 0 next_timer_exp then
          let next_timer_exp := (next_timer_exp * 1000)%Q in
          if Qltb next_timer_exp (inject_Z ub) then Some (Qfloor next_timer_exp) else Some ub
        else Some 0
    | None => Some ub
    end.

(** The clock is read when there is a timer. *)
Definition wtime_if_timer (m : mid W) : Q * mid W :=
  match queue_head (timer_list m) with Some _ => wtime m | None => (0%Q, m) end.

(** The loop's body: [None] when [trigger_loop] is out of fuel, or an assertion
    fails. *)
Definition iteration (fuel : nat) (p : policy) (m : mid W) : option (policy * Z * mid W) :=
  let m := if pwn_flag m && (pwn_pending m =? 0) then wait_needed m else m in
  '(_, m) ← trigger_loop fuel 0 m;
  let m := ABT_thread_yield m in
  let '(p, m) := spin_policy p m in
  let '(now, m) := if spin_flag p then (0%Q, m) else wtime_if_timer m in
  t ← progress_timeout now p m;
  let '(ret, m) := margo_internal_progress t m in
  if negb (is_success ret) && negb (bool_decide (ret = HG_TIMEOUT)) then None
  else
    let '(now, m) := wtime_if_timer m in
    l ← __margo_check_timers ABT_thread_create now (timer_list m);
    Some (p, t, set_timers l m).

Fixpoint progress_loop (fuel : nat) (p : policy) (m : mid W) : option (mid W) :=
  if hg_progress_shutdown_flag m then Some m
  else
    match fuel with
    | O => None
    | S fuel' => '(p, _, m) ← iteration fuel p m; progress_loop fuel' p m
    end.

Definition __margo_hg_progress_fn (fuel : nat) (m : mid W) : option (mid W) := progress_loop fuel (Policy false 0) m.

(** ** Parameters *)

Definition margo_set_progress_timeout_ub_msec (m : mid W) (timeout : Z) : Z * mid W := (0, set_timeout_ub timeout m).
Definition margo_get_progress_timeout_ub_msec (m : mid W) : Z * Z := (0, hg_progress_timeout_ub m).
Definition margo_get_num_progress_calls (m : mid W) : Z := num_progress_calls m.
Definition margo_get_num_trigger_calls (m : mid W) : Z := num_trigger_calls m.
End Loop.

(** ** Progress when needed

    [progress_when_needed]: operations in flight are counted, and the loop sleeps
    while there is none.  The critical sections of the mutex are single steps. *)

(** Where the progress thread is: at the test of the shutdown flag, at the first
    read of [flag], before the mutex, blocked on the condition variable, woken and
    waiting for the mutex, in the rest of the loop, returned. *)
Inductive place := AtLoop | AtFlag | AtLock | Blocked | Woken | AtBody | Returned.

#[export] Instance place_eq_dec : EqDecision place.
Proof. solve_decision. Defined.

(** [notifying] threads are between the mutex and the signal in
    [PROGRESS_NEEDED_INCR], [disabling] ones before the signal in
    [margo_set_progress_when_needed]; [ops] operations are in flight. *)
Record shared := Shared {
  flag : bool;
  pending : Z;
  shutdown : bool;
  thread : place;
  notifying : nat;
  disabling : nat;
  ops : nat
}.

Definition set_flag (b : bool) (s : shared) : shared := Shared b (pending s) (shutdown s) (thread s) (notifying s) (disabling s) (ops s).
Definition set_shutdown (b : bool) (s : shared) : shared := Shared (flag s) (pending s) b (thread s) (notifying s) (disabling s) (ops s).
Definition set_pending (n : Z) (s : shared) : shared := Shared (flag s) n (shutdown s) (thread s) (notifying s) (disabling s) (ops s).
Definition set_thread (p : place) (s : shared) : shared := Shared (flag s) (pending s) (shutdown s) p (notifying s) (disabling s) (ops s).
Definition set_signals (n d : nat) (s : shared) : shared := Shared (flag s) (pending s) (shutdown s) (thread s) n d (ops s).
Definition set_ops (n : nat) (s : shared) : shared := Shared (flag s) (pending s) (shutdown s) (thread s) (notifying s) (disabling s) n.

(** [PROGRESS_NEEDED_INCR] up to the signal, and [PROGRESS_NEEDED_DECR]. *)
Definition needed_incr (s : shared) : shared :=
  if flag s then
    let s := set_pending (u64 (pending s + 1)) s in
    let notify := pending s =? 1 in
    if notify then set_signals (S (notifying s)) (disabling s) s else s
  else s.
Definition needed_decr (s : shared) : shared := if flag s then set_pending (u64 (pending s - 1)) s else s.

(** [WAIT_FOR_PROGRESS_TO_BE_NEEDED]: the test of the loop under the mutex, the
    first time, and after [ABT_cond_wait]. *)
Definition wait_test (s : shared) : shared := set_thread (if pending s =? 0 then Blocked else AtBody) s.
Definition wait_retest (s : shared) : shared := if negb (flag s) then set_thread AtBody s else wait_test s.

(** [margo_set_progress_when_needed] up to the signal. *)
Definition margo_set_progress_when_needed (when_needed : bool) (s : shared) : shared :=
  let s := set_flag when_needed s in if when_needed then s else set_signals (notifying s) (S (disabling s)) s.

(** [ABT_cond_signal]: the progress thread is the only one that waits. *)
Definition signal (s : shared) : shared := match thread s with Blocked => set_thread Woken s | _ => s end.

(** The progress thread. *)
Inductive tstep (s : shared) : shared -> Prop :=
  | t_loop : thread s = AtLoop -> tstep s (set_thread (if shutdown s then Returned else AtFlag) s)
  | t_flag : thread s = AtFlag -> tstep s (set_thread (if flag s then AtLock else AtBody) s)
  | t_lock : thread s = AtLock -> tstep s (wait_test s)
  | t_retest : thread s = Woken -> tstep s (wait_retest s)
  | t_body : thread s = AtBody -> tstep s (set_thread AtLoop s).

(** The signals that are under way. *)
Inductive sstep (s : shared) : shared -> Prop :=
  | s_notify n : notifying s = S n -> sstep s (signal (set_signals n (disabling s) s))
  | s_disable n : disabling s = S n -> sstep s (signal (set_signals (notifying s) n s)).

(** Operations begin and end; [margo_finalize] asks the loop to end, and then
    counts itself as an operation. *)
Inductive ostep (s : shared) : shared -> Prop :=
  | o_begin : Z.of_nat (ops s) < 2 ^ 64 - 1 -> ostep s (needed_incr (set_ops (S (ops s)) s))
  | o_end n : ops s = S n -> ostep s (needed_decr (set_ops n s))
  | o_shutdown : shutdown s = false -> ostep s (set_shutdown true s).

Definition qstep (s s' : shared) : Prop := tstep s s' \/ sstep s s' \/ ostep s s'.

(** With the spurious wake-ups that [ABT_cond_wait] allows. *)
Definition nstep (s s' : shared) : Prop := qstep s s' \/ (thread s = Blocked /\ s' = set_thread Woken s).

(** All steps, changes of the mode included. *)
Definition mstep (s s' : shared) : Prop := nstep s s' \/ exists b, s' = margo_set_progress_when_needed b s.

(** The loop when it is started. *)
Definition started (when_needed : bool) : shared := Shared when_needed 0 false AtLoop 0 0 0.

(** ** The spin policy and the timeouts *)

Section Policy.
Context {W : Type} `{Env W}.
Implicit Types (m : mid W).

(** Reading the clock changes nothing else. *)
Definition same_but_world m m' : Prop := exists w, m' = set_world w m.

Lemma same_refl m : same_but_world m m.
Proof. exists (world m). by destruct m. Qed.
Lemma same_trans m m1 m2 : same_but_world m m1 -> same_but_world m1 m2 -> same_but_world m m2.
Proof. intros [w ->] [w2 ->]. by exists w2. Qed.

Lemma wtime_same m : same_but_world m (wtime m).2.
Proof. unfold wtime. destruct (ABT_get_wtime (world m)) as [now w]. by exists w. Qed.

(** The state in which the policy looks at operations and ULTs. *)
Definition decision_state (p : policy) m : mid W := if spin_flag p then (wtime m).2 else m.

Lemma decision_same p m : same_but_world m (decision_state p m).
Proof. unfold decision_state. destruct (spin_flag p); [apply wtime_same|apply same_refl]. Qed.

Lemma new_policy_spec p m p' m' : new_policy p m = (p', m') -> spin_flag p = false ->
  same_but_world m m' /\
  ((hg_progress_spindown_msec m ≠ 0 /\ must_spin m = true /\ p' = Policy true (wtime m).1) \/
   (spin_flag p' = false /\ (hg_progress_spindown_msec m = 0 \/ must_spin m = false))).
Proof.
  unfold new_policy. intros Hn Hp. rewrite Hp, andb_true_r in Hn.
  destruct (Z.eqb_spec (hg_progress_spindown_msec m) 0); simpl in Hn; [injection Hn as <- <-; auto using same_refl|].
  destruct (must_spin m); [|injection Hn as <- <-; auto using same_refl].
  pose proof (wtime_same m). destruct (wtime m). injection Hn as <- <-. auto.
Qed.

Lemma spin_policy_spec p m p' m' : spin_policy p m = (p', m') ->
  same_but_world m m' /\
  ((spin_flag p = true /\ p' = Policy true (spin_start_ts p) /\
    ((wtime m).1 - spin_start_ts p) * 1000 < inject_Z (hg_progress_spindown_msec m))%Q \/
   (hg_progress_spindown_msec m ≠ 0 /\ must_spin (decision_state p m) = true /\ p' = Policy true (wtime (decision_state p m)).1) \/
   (spin_flag p' = false /\ (hg_progress_spindown_msec m = 0 \/ must_spin (decision_state p m) = false))).
Proof.
  unfold spin_policy, decision_state. destruct (spin_flag p) eqn:Hp.
  - pose proof (wtime_same m) as [w Hw]. destruct (wtime m) as [now m1]. simpl in *. subst m1. unfold spindown_window. simpl.
    destruct (Qltb _ _) eqn:Hq; intros Hn.
    + unfold new_policy in Hn. simpl in Hn. rewrite andb_false_r in Hn. injection Hn as <- <-. split; [by exists w|].
      left. by apply Qltb_spec in Hq.
    + apply new_policy_spec in Hn as [? ?]; [|done]. split; [|auto]. eapply same_trans; [|done]. by exists w.
  - intros Hn. apply new_policy_spec in Hn as [? ?]; auto.
Qed.

(** The time left before the first timer, which the others follow. *)
Definition first_expiration m (q : list loc) (now : Q) : option Q :=
  (fun t => exp_of (timers (timer_list m)) t - now)%Q <$> head q.

Lemma progress_timeout_spec now p m q : tinv (timer_list m) q ->
  progress_timeout now p m =
  Some (if spin_flag p then 0 else
        match first_expiration m q now with
        | None => hg_progress_timeout_ub m
        | Some r => if Qltb r 0 then 0 else if Qltb (r * 1000) (inject_Z (hg_progress_timeout_ub m)) then Qfloor (r * 1000)
                    else hg_progress_timeout_ub m
        end).
Proof.
  intros Hi. unfold progress_timeout. destruct (spin_flag p); [done|]. unfold __margo_timer_get_next_expiration.
  destruct (ti_queue _ _ Hi) as (-> & _). destruct q as [|t q]; simpl; [done|].
  destruct (tinv_timer _ _ t Hi) as [x Hx]; [set_solver|]. rewrite Hx. simpl. unfold exp_of. rewrite Hx. simpl.
  unfold Qltb at 2. destruct (Qle_bool 0 _); [|done]. simpl. by destruct (Qltb _ _).
Qed.

Lemma Qfloor_bounds x ub : (0 <= x)%Q -> (x < inject_Z ub)%Q -> 0 <= Qfloor x <= ub.
Proof.
  intros H0 H1. pose proof (Qfloor_le x) as Hl. pose proof (Qlt_floor x) as Hf. split.
  - assert (inject_Z 0 < inject_Z (Qfloor x + 1))%Q by (change (inject_Z 0) with 0%Q; lra). rewrite <- Zlt_Qlt in *. lia.
  - assert (inject_Z (Qfloor x) < inject_Z ub)%Q by lra. rewrite <- Zlt_Qlt in *. lia.
Qed.

Lemma first_is_first m q now r u : tinv (timer_list m) q -> first_expiration m q now = Some r -> u ∈ q ->
  (r <= exp_of (timers (timer_list m)) u - now)%Q.
Proof.
  intros Hi Hf Hu. destruct q as [|t q]; [done|]. simpl in Hf. injection Hf as <-.
  apply elem_of_cons in Hu as [->|Hu]; [lra|]. pose proof (ti_sorted _ _ Hi) as Hs. inversion_clear Hs.
  rewrite Forall_forall in H1. specialize (H1 u Hu). unfold exp_le in H1. lra.
Qed.

End Policy.

(** ** One pass of the loop *)

Definition timers_good (l : Timer.state) : Prop := exists q, tinv l q /\ tl_num_pending l + Z.of_nat (length q) < 2 ^ 64.

(** What the loop relies on: user code keeps the timers well-formed, completing
    an operation leaves fewer to complete, Mercury's progress succeeds or times
    out, and ULTs can be created. *)
Record env_ok {W} `{Env W} (completions : W -> nat) : Prop := {
  ok_trigger t c m : timers_good (timer_list m) -> timers_good (timer_list (HG_Trigger t c m).2);
  ok_fewer m count m' : HG_Trigger 0 1 m = (HG_SUCCESS, count, m') -> count ≠ 0 -> (completions (world m') < completions (world m))%nat;
  ok_yield m : timers_good (timer_list m) -> timers_good (timer_list (ABT_thread_yield m));
  ok_wait m : timers_good (timer_list m) -> timers_good (timer_list (wait_needed m));
  ok_progress t m : timers_good (timer_list m) -> timers_good (timer_list (HG_Progress t m).2);
  ok_code t m : (HG_Progress t m).1 = HG_SUCCESS \/ (HG_Progress t m).1 = HG_TIMEOUT;
  ok_create p : ABT_thread_create p = true
}.

Section Pass.
Context {W : Type} `{Env W} (completions : W -> nat) (Hok : env_ok completions).
Implicit Types (m : mid W).

(** The trigger loop ends after as many calls as there are completions, and one. *)
Lemma trigger_loop_spec fuel : forall count m, timers_good (timer_list m) -> (completions (world m) < fuel)%nat ->
  exists count' m', trigger_loop fuel count m = Some (count', m') /\ timers_good (timer_list m').
Proof.
  induction fuel as [|fuel IH]; intros count m Hg Hf; [lia|]. cbn [trigger_loop]. unfold margo_internal_trigger.
  pose proof (ok_trigger _ Hok 0 1 m Hg) as Hg'. destruct (HG_Trigger 0 1 m) as [[ret c] m'] eqn:Ht. simpl in Hg'.
  destruct (is_success ret) eqn:Hs; simpl; [|by eexists _, _].
  destruct (Z.eqb_spec c 0); simpl; [by eexists _, _|]. destruct (hg_progress_shutdown_flag m'); simpl; [by eexists _, _|].
  apply is_success_true in Hs as ->. pose proof (ok_fewer _ Hok _ _ _ Ht n). apply IH; [done|simpl; lia].
Qed.

Lemma same_timers m m' : same_but_world m m' -> timer_list m' = timer_list m.
Proof. by intros [w ->]. Qed.

Lemma wtime_if_timer_same m : same_but_world m (wtime_if_timer m).2.
Proof. unfold wtime_if_timer. destruct (queue_head _); [apply wtime_same|apply same_refl]. Qed.

End Pass.

(** ** Progress when needed *)

(** Operations are counted exactly, and a blocked loop that is needed is going to
    be woken up. *)
Record needed_inv (s : shared) : Prop := {
  ni_bound : Z.of_nat (ops s) < 2 ^ 64;
  ni_flag : flag s = true;
  ni_count : pending s = Z.of_nat (ops s);
  ni_wakeup : thread s = Blocked -> pending s ≠ 0 -> notifying s ≠ 0%nat
}.

Lemma needed_step s s' : needed_inv s -> nstep s s' -> needed_inv s'.
Proof.
  intros [Hlt Hf Hc Hw] [[Ht|[Hs|Ho]]|[Hbl ->]].
  - destruct Ht; constructor; simpl; try done; unfold wait_retest, wait_test; rewrite ?Hf; simpl; try done;
      try (by destruct (shutdown s)); destruct (Z.eqb_spec (pending s) 0); simpl; done.
  - destruct Hs as [n Hn|n Hn]; constructor; unfold signal; simpl; destruct (thread s) eqn:Et; simpl; rewrite ?Et; done.
  - destruct Ho as [Hb|n Hn|Hsd]; constructor; unfold needed_incr, needed_decr; simpl; rewrite ?Hf; simpl; try done; try lia.
    + destruct (_ =? 1); simpl; lia.
    + by destruct (_ =? 1).
    + rewrite Hc, u64_id by (unfold is_u64; lia). destruct (_ =? 1); simpl; lia.
    + rewrite Hc, u64_id by (unfold is_u64; lia). destruct (Z.eqb_spec (Z.of_nat (ops s) + 1) 1); simpl; [done|].
      intros Hbl _. apply Hw; [done|lia].
    + rewrite Hc, u64_id by (unfold is_u64; lia). lia.
    + rewrite Hc, u64_id by (unfold is_u64; lia). intros. apply Hw; [done|lia].
  - by constructor.
Qed.

Lemma needed_reachable s : rtc nstep (started true) s -> needed_inv s.
Proof.
  intros Hr. assert (needed_inv (started true)) as Hi by by constructor. revert Hi. generalize (started true) Hr.
  clear. intros s0 Hr. induction Hr as [|s0 s1 s2 Hst _ IH]; [done|]. intros Hi. by eapply IH, needed_step.
Qed.

(** The steps of the progress thread and of signals under way, which happen
    without any new event. *)
Definition own_step (s s' : shared) : Prop := tstep s s' \/ sstep s s'.

Lemma own_thread s s1 s2 : tstep s s1 -> rtc own_step s1 s2 -> rtc own_step s s2.
Proof. intros. eapply rtc_l; [by left|done]. Qed.

Lemma to_body_tested s : flag s = true -> pending s ≠ 0 -> thread s = AtLock \/ thread s = Woken ->
  tstep s (set_thread AtBody s).
Proof.
  intros Hf Hp [Ht|Ht]; [pose proof (t_lock s Ht) as H|pose proof (t_retest s Ht) as H];
    unfold wait_retest, wait_test in H; rewrite ?Hf, (proj2 (Z.eqb_neq _ _) Hp) in H; done.
Qed.

(** The state with the thread at [p], and some signals delivered. *)
Definition moved (p : place) (s s' : shared) : Prop := exists n, s' = set_thread p (set_signals n (disabling s) s).

Lemma to_body_woken s : flag s = true -> pending s ≠ 0 -> thread s = AtFlag \/ thread s = AtLock \/ thread s = Woken ->
  rtc own_step s (set_thread AtBody s).
Proof.
  intros Hf Hp [Ht|Ht]; [|by apply rtc_once; left; apply to_body_tested].
  eapply own_thread; [by apply t_flag|]. rewrite Hf. apply rtc_once. left.
  by apply (to_body_tested (set_thread AtLock s)); auto.
Qed.

Lemma moves_to_body s : needed_inv s -> pending s ≠ 0 -> thread s ≠ Returned -> (thread s = AtLoop -> shutdown s = false) ->
  exists s', moved AtBody s s' /\ rtc own_step s s'.
Proof.
  intros [_ Hf _ Hw] Hp Hr Hl. assert (moved AtBody s (set_thread AtBody s)) as Hm by (by exists (notifying s); destruct s).
  destruct (thread s) eqn:Et; try done.
  - exists (set_thread AtBody s). split; [done|]. eapply own_thread; [by apply t_loop|]. rewrite Hl by done.
    by apply (to_body_woken (set_thread AtFlag s)); auto.
  - exists (set_thread AtBody s). split; [done|]. apply to_body_woken; auto.
  - exists (set_thread AtBody s). split; [done|]. apply to_body_woken; auto.
  - destruct (notifying s) as [|n] eqn:En; [by destruct (Hw eq_refl Hp)|].
    pose proof (s_notify s n En) as H. unfold signal in H. simpl in H. rewrite Et in H.
    eexists. split; [by exists n|]. eapply rtc_l; [right; exact H|].
    by apply (to_body_woken (set_thread Woken (set_signals n (disabling s) s))); auto.
  - exists (set_thread AtBody s). split; [done|]. apply to_body_woken; auto.
  - exists s. split; [by exists (notifying s); destruct s; simpl in *; subst|apply rtc_refl].
Qed.

(** C6: While the mode is enabled, whatever operations begin and end, signals,
    spurious wake-ups and a request to end, the operations in flight are counted
    exactly, and no wake-up is lost: as soon as one is in flight, the progress
    thread and the signals under way bring the loop to its body, or to its end
    once it has been asked for; so [margo_finalize], which counts itself, can
    join the thread. *)
Theorem needed_loop_runs s : rtc nstep (started true) s ->
  pending s = Z.of_nat (ops s) /\
  (pending s ≠ 0 -> thread s ≠ Returned ->
    if shutdown s then exists s', rtc own_step s s' /\ thread s' = Returned
    else exists s', rtc own_step s s' /\ thread s' = AtBody).
Proof.
  intros Hr. pose proof (needed_reachable s Hr) as Hi. split; [apply Hi|]. intros Hp Hne.
  assert (forall s1, thread s1 = AtLoop -> shutdown s1 = true -> rtc own_step s1 (set_thread Returned s1)) as Hend.
  { intros s1 Ht Hs. apply rtc_once. left. pose proof (t_loop s1 Ht) as H. by rewrite Hs in H. }
  destruct (shutdown s) eqn:Es.
  - destruct (decide (thread s = AtLoop)) as [Ht|Ht]; [by eexists; split; [by apply Hend|]|].
    destruct (moves_to_body s Hi Hp Hne) as (s1 & [n ->] & H1); [done|].
    set (s1 := set_thread AtBody _) in *. exists (set_thread Returned (set_thread AtLoop s1)). split; [|done].
    etrans; [exact H1|]. eapply own_thread; [by apply t_body|]. by apply (Hend (set_thread AtLoop s1)).
  - destruct (moves_to_body s Hi Hp Hne) as (s1 & [n ->] & H1); [done|]. by eexists.
Qed.

(** The loop sleeps, the mode is disabled, and no signal is under way. *)
Definition stuck (s : shared) : Prop := flag s = false /\ notifying s = 0%nat /\ disabling s = 0%nat /\ thread s = Blocked.

Lemma stuck_for_ever s s' : rtc qstep s s' -> stuck s -> stuck s'.
Proof.
  induction 1 as [|s1 s2 s3 Hst _ IH]; [done|]. intros (Hf & Hn & Hd & Ht). apply IH. unfold stuck.
  destruct Hst as [H|[H|H]]; [by destruct H; congruence|by destruct H; congruence|].
  destruct H; unfold needed_incr, needed_decr; simpl; rewrite ?Hf; done.
Qed.

(** Disabling the mode can stop the loop for ever: between the loop's read of
    the flag and its wait, the signal of [margo_set_progress_when_needed] finds
    nobody to wake, and since the flag is false no operation signals any more;
    the request of [margo_finalize] to end, which joins the thread, is not seen
    either.  And an operation that began before the mode was enabled takes the
    count below 0 when it ends: the loop, with no operation in flight, does not
    sleep. *)
Theorem disabling_loses_wakeup :
  (exists s, rtc mstep (started true) s /\ flag s = false /\
    forall s', rtc qstep s s' -> thread s' = Blocked) /\
  (exists s, rtc mstep (started false) s /\ ops s = 0%nat /\ flag s = true /\ pending s = 2 ^ 64 - 1 /\
    thread s = AtLock /\ thread (wait_test s) = AtBody).
Proof.
  split.
  - exists (Shared false 0 false Blocked 0 0 0). split; [|split; [done|]].
    + eapply rtc_l; [left; left; left; by apply t_loop|]. simpl. eapply rtc_l; [left; left; left; by apply t_flag|]. simpl.
      eapply rtc_l; [right; by exists false|]. eapply rtc_l; [left; left; right; left; by eapply s_disable|].
      eapply rtc_l; [left; left; left; by apply t_lock|]. apply rtc_refl.
    + intros s' Hr. apply (stuck_for_ever _ _ Hr). done.
  - exists (Shared true (2 ^ 64 - 1) false AtLock 0 0 0). split; [|split_and!; done].
    eapply rtc_l; [left; left; right; right; by apply o_begin|]. simpl. eapply rtc_l; [right; by exists true|].
    eapply rtc_l; [left; left; right; right; by eapply o_end|].
    eapply rtc_l; [left; left; left; by apply t_loop|]. eapply rtc_l; [left; left; left; by apply t_flag|]. apply rtc_refl.
Qed.

(** ** Examples *)

(** A process with a clock, and operations to complete. *)
#[export] Instance demo_env : Env (Q * nat) := {
  HG_Trigger _ _ m :=
    match world m with
    | (now, S n) => (HG_SUCCESS, 1, set_world (now, n) m)
    | (_, O) => (HG_TIMEOUT, 0, m)
    end;
  HG_Progress t m := (HG_TIMEOUT, set_world ((world m).1 + inject_Z t / 1000, (world m).2)%Q m);
  ABT_thread_yield m := m;
  wait_needed m := m;
  ABT_get_wtime w := (w.1, (w.1 + 1 / 1000, w.2)%Q);
  ABT_pool_get_total_size _ := 1;
  ABT_thread_create := ok1
}.

(** Timer d2 expires at second 1; three operations are to complete. *)
Definition demo_mid : mid (Q * nat) := Mid false 100 10 0 false 0 0 0 d2 (0%Q, 3%nat).

Lemma demo_env_ok : env_ok (W := Q * nat) snd.
Proof.
  constructor; simpl; try done; try (by right).
  - intros t c m. destruct (world m) as [now [|n]]; done.
  - intros m count m'. destruct (world m) as [now [|n]] eqn:E; [done|]. intros [= <- <-] _. simpl. lia.
Qed.



(** The loop sleeps, and an operation begins. *)
Lemma needed_loop_runs_witness :
  let s := needed_incr (set_ops 1 (Shared true 0 false Blocked 0 0 0)) in
  pending s = 1 /\ thread s = Blocked /\ exists s', rtc own_step s s' /\ thread s' = AtBody.
Proof.
  split; [reflexivity|]. split; [reflexivity|].
  destruct (needed_loop_runs (needed_incr (set_ops 1 (Shared true 0 false Blocked 0 0 0)))) as [_ H].
  - eapply rtc_l; [left; left; by apply t_loop|]. eapply rtc_l; [left; left; by apply t_flag|].
    eapply rtc_l; [left; left; by apply t_lock|]. eapply rtc_l; [left; right; right; by apply o_begin|]. apply rtc_refl.
  - apply H; vm_compute; discriminate.
Defined.
