(* ===== verification/Handler.v ===== *)
(** * Dispatch of RPCs (src/include/margo.h, src/margo-core.c)

    The function that Mercury calls when an RPC arrives, and the user-level
    thread (ULT) it creates, as the macros of margo.h define them.  Both are the
    sequences of calls they make; the ULT runs on any execution stream, so its
    calls interleave with the end of the handler. *)

From S2P Require Import Prelude Id Shutdown Request.

#[local] Open Scope Z_scope.

(** ** Data *)

(** The two functions of the monitor. *)
Inductive hook := RpcHandler | RpcUlt.

(** The calls, those on the handle of the RPC first.  [UserCall] is any call of
    the user's function on the handle. *)
Inductive event :=
  | SetHandleData
  | Respond (ret : hg_return_t)
  | Destroy
  | RefIncr
  | ThreadCreate (pool : Z)
  | GetInput
  | UserCall
  | MonitorStart (h : hook) (parent_id : Z)
  | MonitorEnd (h : hook) (ret : hg_return_t)
  | SetCurrentId (id : Z)
  | IncrPending (admitted : bool)
  | DecrPending
  | Finalize.

(** What the calls of the handler return: the code of
    [__margo_internal_set_handle_data], whether the handle has an instance, the
    pool of its data and the default one, whether responses are disabled, the
    header of the input, and the code of [ABT_thread_create]. *)
Record handler_oracle := HandlerOracle {
  o_set_data : hg_return_t;
  o_mid : bool;
  o_pool : Z;
  o_rpc_pool : Z;
  o_disabled : hg_return_t * bool;
  o_input : hg_return_t * Z;
  o_create : Z
}.

(** ** The handler *)

(** [has_data] is whether data are attached to the handle. *)
Definition margo_hg_handle_get_handler_pool (has_data : bool) (pool rpc_pool : Z) : Z :=
  if negb has_data then 0 else if pool =? 0 then rpc_pool else pool.

Definition respond_with_error (disabled : hg_return_t * bool) (ret : hg_return_t) : list event :=
  map (fun _ => Respond ret) (__margo_respond_with_error disabled ret).

Definition __margo_internal_pre_handler_hooks (o : handler_oracle) : list event :=
  [GetInput; MonitorStart RpcHandler (check_parent_id_in_input (o_input o) 0).2].

Definition __margo_internal_post_handler_hooks (ret : hg_return_t) : list event := [MonitorEnd RpcHandler ret].

(** [__MARGO_INTERNAL_RPC_HANDLER_BODY]: the returned code, the word of pending
    operations, the calls up to the creation of the ULT, and those after it. *)
Definition handler_body (o : handler_oracle) (w : Z) : hg_return_t * Z * list event * list event :=
  let ret := o_set_data o in
  if negb (is_success ret) then (ret, w, [SetHandleData] ++ respond_with_error (o_disabled o) ret ++ [Destroy], [])
  else if negb (o_mid o) then
    (HG_OTHER_ERROR, w, [SetHandleData] ++ respond_with_error (o_disabled o) HG_NOENTRY ++ [Destroy], [])
  else
    let '(w, admitted) := __margo_internal_incr_pending w in
    if admitted =? 0 then
      (HG_CANCELED, w,
       [SetHandleData; IncrPending false] ++ respond_with_error (o_disabled o) HG_PERMISSION ++ [Destroy], [])
    else
      let pool := margo_hg_handle_get_handler_pool true (o_pool o) (o_rpc_pool o) in
      let before := [SetHandleData; IncrPending true] ++ __margo_internal_pre_handler_hooks o ++ [ThreadCreate pool] in
      if negb (o_create o =? 0) then
        (HG_NOMEM_ERROR, __margo_internal_decr_pending w, before,
         respond_with_error (o_disabled o) HG_OTHER_ERROR ++ [Destroy; DecrPending] ++ __margo_internal_post_handler_hooks HG_NOMEM_ERROR)
      else (ret, w, before, __margo_internal_post_handler_hooks ret).

(** [_handler_for_NULL]. *)
Definition _handler_for_NULL (disabled : hg_return_t * bool) : hg_return_t * list event :=
  (HG_SUCCESS, respond_with_error disabled HG_NOENTRY ++ [Destroy]).

(** ** The ULT *)

(** [key_set] is what [ABT_key_set] returns. *)
Definition margo_set_current_rpc_id (key_set parent_id : Z) : hg_return_t * Z :=
  let parent_id := if parent_id =? 0 then mux_id 0 MARGO_DEFAULT_PROVIDER_ID else parent_id in
  (if key_set =? 0 then HG_SUCCESS else HG_OTHER_ERROR, parent_id).

Definition margo_get_current_rpc_id (key_get : Z * Z) : hg_return_t * Z :=
  if negb (key_get.1 =? 0) || (key_get.2 =? 0) then (HG_OTHER_ERROR, mux_id 0 MARGO_DEFAULT_PROVIDER_ID)
  else (HG_SUCCESS, key_get.2).

(** [info] is the id of the RPC, [None] when the handle has no info. *)
Definition __margo_internal_pre_wrapper_hooks (info : option Z) : list event :=
  match info with
  | None => []
  | Some id => [SetCurrentId (margo_set_current_rpc_id 0 id).2; MonitorStart RpcUlt 0; RefIncr]
  end.

(** [w] is the word of pending operations when the ULT ends. *)
Definition __margo_internal_post_wrapper_hooks (w : Z) : Z * list event :=
  let w := __margo_internal_decr_pending w in
  (w, [MonitorEnd RpcUlt HG_SUCCESS; Destroy; DecrPending] ++ if __margo_internal_finalize_requested w then [Finalize] else []).

(** [__MARGO_INTERNAL_RPC_WRAPPER_BODY]; [user] is what the user's function
    does. *)
Definition wrapper_body (mid : bool) (info : option Z) (user : list event) (w : Z) : Z * list event :=
  if negb mid then (w, [Destroy])
  else
    let '(w, post) := __margo_internal_post_wrapper_hooks w in
    (w, __margo_internal_pre_wrapper_hooks info ++ user ++ post).

(** ** Specification *)

(** Calls that use the handle; [late] counts the monitor's call at the end of the
    handler among them. *)
Definition touches (late : bool) (e : event) : bool :=
  match e with
  | SetHandleData | Respond _ | Destroy | RefIncr | ThreadCreate _ | GetInput | UserCall
  | MonitorStart _ _ | MonitorEnd RpcUlt _ => true
  | MonitorEnd RpcHandler _ => late
  | SetCurrentId _ | IncrPending _ | DecrPending | Finalize => false
  end.

Definition ref_change (e : event) : Z := match e with RefIncr => 1 | Destroy => -1 | _ => 0 end.

(** The references of the handle after some calls, [None] when a call uses it
    without a reference left. *)
Fixpoint run (late : bool) (r : Z) (l : list event) : option Z :=
  match l with
  | [] => Some r
  | e :: l => if touches late e && (r <=? 0) then None else run late (r + ref_change e) l
  end.

(** What a handler of the user may do: anything with the handle, and one
    [margo_destroy] more than [margo_ref_incr]. *)
Definition user_ok (user : list event) : Prop :=
  Forall (fun e => match e with Respond _ | Destroy | RefIncr | GetInput | UserCall => True | _ => False end) user /\
  run true 2 user = Some 1.

(** Two threads. *)
Inductive merge {A} : list A -> list A -> list A -> Prop :=
  | merge_nil : merge [] [] []
  | merge_left x l1 l2 l : merge l1 l2 l -> merge (x :: l1) l2 (x :: l)
  | merge_right x l1 l2 l : merge l1 l2 l -> merge l1 (x :: l2) (x :: l).

Definition creates (e : event) : bool := match e with ThreadCreate _ => true | _ => false end.
Definition responses (l : list event) : list hg_return_t := omap (fun e => match e with Respond ret => Some ret | _ => None end) l.
Definition destroys (l : list event) : nat := length (List.filter (fun e => match e with Destroy => true | _ => false end) l).
Definition starts (h : hook) (l : list event) : nat :=
  length (List.filter (fun e => match e, h with MonitorStart RpcHandler _, RpcHandler | MonitorStart RpcUlt _, RpcUlt => true | _, _ => false end) l).
Definition ends (h : hook) (l : list event) : nat :=
  length (List.filter (fun e => match e, h with MonitorEnd RpcHandler _, RpcHandler | MonitorEnd RpcUlt _, RpcUlt => true | _, _ => false end) l).

(** ** Lemmas *)

Lemma run_app late r l k : run late r (l ++ k) = r' ← run late r l; run late r' k.
Proof. revert r. induction l as [|e l IH]; intros r; [done|]. simpl. destruct (_ && _); [done|]. apply IH. Qed.

Lemma merge_nil_l {A} (k l : list A) : merge [] k l -> l = k.
Proof. intros Hm. remember (@nil A) as n eqn:Hn. induction Hm; simplify_eq; f_equal; auto. Qed.

Lemma merge_cons_l {A} (x : A) l : forall k, merge [x] k l -> exists k1 k2, k = k1 ++ k2 /\ l = k1 ++ x :: k2.
Proof.
  induction l as [|y l IH]; intros k Hm; inversion Hm; subst.
  - match goal with H : merge [] k l |- _ => apply merge_nil_l in H as -> end. by exists [], k.
  - match goal with H : merge [x] _ l |- _ => destruct (IH _ H) as (k1 & k2 & -> & ->) end. by exists (y :: k1), k2.
Qed.

(** The monitor's call at the end of the handler changes no reference. *)
Lemma run_skip r ret l k : run false r (l ++ MonitorEnd RpcHandler ret :: k) = run false r (l ++ k).
Proof.
  rewrite !run_app. destruct (run false r l) as [r'|]; [|done]. simpl. by rewrite Z.add_0_r.
Qed.

Lemma run_mono r l n : run true r l = Some n -> run false r l = Some n.
Proof.
  revert r. induction l as [|e l IH]; intros r; [done|]. simpl. intros Hr.
  destruct (touches true e && (r <=? 0)) eqn:E; [done|].
  replace (touches false e && (r <=? 0)) with false; [by apply IH|].
  destruct e as [| | | | | | | |[]| | | |]; done.
Qed.

Lemma incr_pending_spec f n : 0 <= n < 2 ^ 31 - 1 ->
  __margo_internal_incr_pending (word f n) = if f then (word f n, 0) else (word f (n + 1), 1).
Proof.
  intros Hn. unfold __margo_internal_incr_pending. destruct (incr_pending_turn _ _ _) as [w' [r|c]] eqn:Et.
  - destruct (Z.eq_dec r 1) as [->|Hr].
    + apply incr_turn_admit in Et as [-> ->]; [done|lia].
    + pose proof Et as Et2. apply incr_turn_fail in Et as ->; [|congruence]. unfold incr_pending_turn in Et2.
      rewrite word_flag in Et2 by lia. destruct f; simpl in Et2; [by simplify_eq|].
      rewrite Z.eqb_refl in Et2. simpl in Et2. by simplify_eq.
  - unfold incr_pending_turn in Et. rewrite word_flag, Z.eqb_refl in Et by lia. by destruct f.
Qed.

(** The paths on which the handler answers with [code]. *)
Ltac handled code o :=
  split_and!; try done; try (by rewrite Z.add_0_r); try (exists code; split; [done|]);
  by destruct (is_success (o_disabled o).1), (o_disabled o).2.

(** C4: An RPC that arrives is handled once: the handler returns success exactly
    when it has created the ULT, in the pool of the RPC or the default pool, and
    counted the operation; otherwise it answers with an error, unless responses
    are disabled, gives the handle back and leaves the count as it was.  The calls
    of the monitor are paired, nothing uses a destroyed handle before the ULT
    exists, except, when the ULT cannot be created, the monitor's call at the end
    of the handler; no ULT is created once finalization has been requested. *)
Theorem rpc_handled_once o f n : 0 <= n < 2 ^ 31 - 1 ->
  let '(ret, w, before, after) := handler_body o (word f n) in
  let ok := is_success ret in
  let answered := is_success (o_disabled o).1 && negb (o_disabled o).2 in
  (ok = true -> f = false /\ before = [SetHandleData; IncrPending true] ++ __margo_internal_pre_handler_hooks o ++
     [ThreadCreate (if o_pool o =? 0 then o_rpc_pool o else o_pool o)] /\ o_create o = 0) /\
  w = word f (n + if ok then 1 else 0) /\
  (exists code, code ≠ HG_SUCCESS /\ responses (before ++ after) = if negb ok && answered then [code] else []) /\
  destroys (before ++ after) = (if ok then 0 else 1)%nat /\
  starts RpcHandler (before ++ after) = ends RpcHandler (before ++ after) /\
  run false 1 (before ++ after) = Some (if ok then 1 else 0) /\
  (ok = false -> ends RpcHandler (before ++ after) ≠ 0%nat -> run true 1 (before ++ after) = None).
Proof.
  intros Hn. unfold handler_body, respond_with_error, __margo_respond_with_error.
  destruct (is_success (o_set_data o)) eqn:Hs; simpl.
  2:{ rewrite Hs. assert (o_set_data o ≠ HG_SUCCESS) by (intros He; by rewrite He in Hs). handled (o_set_data o) o. }
  destruct (o_mid o); simpl; [|handled HG_NOENTRY o].
  rewrite incr_pending_spec by done. destruct f; simpl; [handled HG_PERMISSION o|].
  destruct (Z.eqb_spec (o_create o) 0) as [Hc|Hc]; simpl.
  - rewrite Hs. split_and!; try done; by exists HG_OTHER_ERROR.
  - rewrite decr_word by lia. replace (n + 1 - 1) with (n + 0) by lia. handled HG_OTHER_ERROR o.
Qed.

(** C11: Whatever the interleaving of the ULT with the end of the handler, when the
    user's function gives the handle back once, every call on the handle except
    one finds a reference, the last reference is given back at the end, the
    operation is counted out, and [margo_finalize] is called again exactly when
    it has been requested meanwhile.  The exception is the monitor's call at the
    end of the handler: when the ULT ends first, it is given a destroyed
    handle. *)
Theorem rpc_handle_lifetime o n f' id user l : 0 <= n < 2 ^ 31 - 1 -> user_ok user ->
  (handler_body o (word false n)).1.1.1 = HG_SUCCESS ->
  let '(_, w, before, after) := handler_body o (word false n) in
  let '(w', ult) := wrapper_body true (Some id) user (word f' (n + 1)) in
  merge after ult l ->
  run false 1 (before ++ l) = Some 0 /\ w' = word f' n /\
  (Finalize ∈ l <-> f' = true) /\
  run true 1 (before ++ ult ++ after) = None /\ run true 1 (before ++ after ++ ult) = Some 0.
Proof.
  intros Hn [Hu Hr] Hok. pose proof (rpc_handled_once o false n Hn) as Ho.
  destruct (handler_body o (word false n)) as [[[ret w] before] after] eqn:Hb. simpl in Hok. subst ret.
  destruct Ho as (Hbefore & _). destruct (Hbefore eq_refl) as (_ & -> & Hc). clear Hbefore.
  assert (after = [MonitorEnd RpcHandler HG_SUCCESS]) as ->.
  { unfold handler_body in Hb. destruct (is_success (o_set_data o)) eqn:Hs; simpl in Hb; [|injection Hb as He; by rewrite He in Hs].
    destruct (o_mid o); simpl in Hb; [|done]. rewrite incr_pending_spec in Hb by done. simpl in Hb. rewrite Hc in Hb.
    apply (f_equal (fun x => (x.1.1.1, x.2))) in Hb. simpl in Hb. injection Hb as He <-. by rewrite He. }
  unfold wrapper_body, __margo_internal_post_wrapper_hooks, __margo_internal_pre_wrapper_hooks.
  rewrite decr_word, requested_word by lia. simpl. replace (n + 1 - 1) with n by lia.
  set (fin := if f' then [Finalize] else []). intros Hm. apply merge_cons_l in Hm as (k1 & k2 & Hk & ->).
  assert (forall late, run late 2 (user ++ [MonitorEnd RpcUlt HG_SUCCESS; Destroy; DecrPending] ++ fin) = Some 0) as Hrun.
  { intros late. rewrite run_app. replace (run late 2 user) with (Some 1); [by destruct late, f'|].
    destruct late; [done|]. symmetry. by apply run_mono. }
  assert (forall late k, run late 1 (SetCurrentId (if id =? 0 then mux_id 0 MARGO_DEFAULT_PROVIDER_ID else id)
    :: MonitorStart RpcUlt 0 :: RefIncr :: k) = run late 2 k) as Hult by (by intros []).
  change (1 + 0 + 0 + 0 + 0 + 0 + 0 + 0 + 1) with 2. change (1 + 0 + 0 + 0 + 0 + 0 + 0 + 0 + 0 + 1) with 2.
  change (1 + 0 + 0 + 0 + 0 + 0) with 1. split_and!.
  - rewrite run_skip, <- Hk, Hult. apply (Hrun false).
  - done.
  - assert (Finalize ∈ k1 ++ MonitorEnd RpcHandler HG_SUCCESS :: k2 <-> Finalize ∈ k1 ++ k2) as ->.
    { rewrite !elem_of_app, elem_of_cons. naive_solver. }
    rewrite <- Hk, !elem_of_cons, elem_of_app, !elem_of_cons. rewrite Forall_forall in Hu. unfold fin. split.
    + intros [|[|[|[Hf|[|[|[|Hf]]]]]]]; try done; [by destruct (Hu _ Hf)|]. destruct f'; [done|by apply not_elem_of_nil in Hf].
    + intros ->. do 3 right. right. do 3 right. by apply list_elem_of_singleton.
  - pose proof (Hrun true) as Ht. cbn [app] in Ht. by rewrite run_app, Ht.
  - apply (Hrun true).
Qed.

(** ** Examples *)

Definition demo_oracle : handler_oracle := HandlerOracle HG_SUCCESS true 0 7 (HG_SUCCESS, false) (HG_SUCCESS, 12) 0.
Definition no_thread_oracle : handler_oracle := HandlerOracle HG_SUCCESS true 0 7 (HG_SUCCESS, false) (HG_SUCCESS, 12) 3.

Lemma rpc_handled_once_witness :
  let '(ret, w, before, after) := handler_body no_thread_oracle (word false 4) in
  ret = HG_NOMEM_ERROR /\ w = word false (4 + 0) /\ responses (before ++ after) = [HG_OTHER_ERROR] /\
  run true 1 (before ++ after) = None.
Proof.
  split; [reflexivity|]. destruct (rpc_handled_once no_thread_oracle false 4) as (_ & Hw & _ & _ & _ & _ & Hd); [lia|].
  split; [exact Hw|]. split; [reflexivity|]. apply Hd; [reflexivity|discriminate].
Defined.

Definition demo_user : list event := [GetInput; UserCall; Respond HG_SUCCESS; Destroy].

Lemma rpc_handle_lifetime_witness :
  let '(_, w, before, after) := handler_body demo_oracle (word false 4) in
  let '(w', ult) := wrapper_body true (Some 9) demo_user (word true (4 + 1)) in
  run false 1 (before ++ after ++ ult) = Some 0 /\ w' = word true 4 /\ run true 1 (before ++ ult ++ after) = None.
Proof.
  assert (Hm : merge (handler_body demo_oracle (word false 4)).2 (wrapper_body true (Some 9) demo_user (word true (4 + 1))).2
    ((handler_body demo_oracle (word false 4)).2 ++ (wrapper_body true (Some 9) demo_user (word true (4 + 1))).2)).
  { vm_compute. constructor. repeat constructor. }
  destruct (rpc_handle_lifetime demo_oracle 4 true 9 demo_user _ ltac:(lia) ltac:(split; [repeat constructor|reflexivity]) eq_refl Hm)
    as (H1 & H2 & _ & H3 & _).
  split; [exact H1|]. split; [exact H2|exact H3].
Defined.
