(* ===== verification/Stats.v ===== *)
(** * Statistics and time series (src/margo-default-monitoring.c)

    The accumulators of the default monitor and its time series, which are
    linked lists of arrays.  Durations and dates ([double]) are rationals; a
    block of memory is an address of a finite map. *)

From Stdlib Require Import QArith Lqa Qfield.
From stdpp Require Import strings.
From S2P Require Import Prelude Utlist Timer AbtConfig.

#[local] Open Scope Z_scope.

(** ** Statistics *)

Record statistics := Statistics { num : Z; min : Q; max : Q; sum : Q; avg : Q; var : Q }.

(** What [calloc] gives. *)
Definition zero_statistics : statistics := Statistics 0 0 0 0 0 0.

Definition UPDATE_STATISTICS_WITH (stats : statistics) (value : Q) : statistics :=
  let n := u64 (num stats + 1) in
  let mn := if Qltb value (min stats) || (n =? 1) then value else min stats in
  let mx := if Qltb (max stats) value then value else max stats in
  let sm := (sum stats + value)%Q in
  let old_avg := avg stats in
  let av := (sm / inject_Z n)%Q in
  Statistics n mn mx sm av (var stats + (value - old_avg) * (value - av))%Q.

(** The accumulator after some samples. *)
Definition samples (l : list Q) : statistics := foldl UPDATE_STATISTICS_WITH zero_statistics l.

(** Reference definitions. *)
Definition total (l : list Q) : Q := foldr Qplus 0%Q l.
Definition mean (l : list Q) : Q := (total l / inject_Z (Z.of_nat (length l)))%Q.
Definition deviations (m : Q) (l : list Q) : Q := total (map (fun x => (x - m) * (x - m))%Q l).

(** ** Time series *)

Record timedval_frame := Frame { next : option loc; data : list (Q * Z) }.
Record time_series := Series { frame_capacity : Z; first_frame : option loc; last_frame : option loc }.

Notation heap := (gmap loc timedval_frame).

(** [new] is the address [malloc] returns. *)
Definition time_series_append (new : loc) (series : time_series) (ts : Q) (val : Z) (h : heap) : option (heap * time_series) :=
  full ← match last_frame series with
         | None => Some true
         | Some p => f ← h !! p; Some (Z.of_nat (length (data f)) =? frame_capacity series)
         end;
  let '(h, series) :=
    if full : bool then (<[new := Frame None []]> h, Series (frame_capacity series) (first_frame series) (Some new))
    else (h, series) in
  frame ← last_frame series;
  let series := match first_frame series with None => Series (frame_capacity series) (Some frame) (last_frame series) | Some _ => series end in
  f ← h !! frame;
  Some (<[frame := Frame (next f) (data f ++ [(ts, val)])]> h, series).

Fixpoint clear_loop (fuel : nat) (p : option loc) (h : heap) : option heap :=
  match p with
  | None => Some h
  | Some a => match fuel with O => None | S fuel => f ← h !! a; clear_loop fuel (next f) (delete a h) end
  end.

Definition time_series_clear (series : time_series) (h : heap) : option (heap * time_series) :=
  h ← clear_loop (size h) (first_frame series) h; Some (h, Series (frame_capacity series) None None).

(** The loop over the frames when a series is written. *)
Fixpoint frame_values (fuel : nat) (p : option loc) (h : heap) : option (list (Q * Z)) :=
  match p with
  | None => Some []
  | Some a => match fuel with O => None | S fuel => f ← h !! a; l ← frame_values fuel (next f) h; Some (data f ++ l) end
  end.

Definition series_values (series : time_series) (h : heap) : option (list (Q * Z)) := frame_values (size h) (first_frame series) h.

(** Appending several points, with the addresses of the frames. *)
Inductive appends : time_series -> heap -> list (Q * Z) -> time_series -> heap -> Prop :=
  | appends_nil s h : appends s h [] s h
  | appends_cons s h l s1 h1 new ts val s2 h2 :
      appends s h l s1 h1 -> h1 !! new = None -> time_series_append new s1 ts val h1 = Some (h2, s2) ->
      appends s h (l ++ [(ts, val)]) s2 h2.

(** ** The series of pools

    One array of series per measure, one series per pool of the table. *)

Definition empty_series (capacity : Z) : time_series := Series capacity None None.

(** [on_add_pool], before the pool enters a table of [n] pools. *)
Definition add_pool_series (n : nat) (a : list time_series) : option (list time_series) :=
  s ← a !! (n - 1)%nat; Some (take n a ++ [empty_series (frame_capacity s)]).

(** [on_remove_pool], after the pool left a table that keeps [n] pools: the
    series after it are moved down by [memmove]. *)
Definition remove_pool_series (n index : nat) (a : list time_series) (h : heap) : option (list time_series * heap) :=
  s ← a !! index;
  '(h, _) ← time_series_clear s h;
  Some (take index a ++ take (n - index) (drop (S index) a) ++ drop n a, h).

(** ** Accumulators *)

Lemma total_app l k : (total (l ++ k) == total l + total k)%Q.
Proof. induction l as [|x l IH]; simpl; [ring|]. rewrite IH. ring. Qed.

Lemma samples_snoc l x : samples (l ++ [x]) = UPDATE_STATISTICS_WITH (samples l) x.
Proof. unfold samples. by rewrite foldl_app. Qed.

Definition squares (l : list Q) : Q := total (map (fun x => x * x)%Q l).

Lemma deviations_expand m l : (deviations m l == squares l - 2 * m * total l + inject_Z (Z.of_nat (length l)) * m * m)%Q.
Proof.
  unfold deviations, squares. induction l as [|x l IH]; simpl map; simpl length; cbn [total foldr]; [simpl; ring|].
  fold (total (map (fun x => (x - m) * (x - m))%Q l)) (total (map (fun x => x * x)%Q l)) (total l). rewrite IH.
  rewrite Nat2Z.inj_succ, <- Z.add_1_r, inject_Z_plus. change (inject_Z 1) with 1%Q. ring.
Qed.

Lemma inject_pos n : 0 < n -> ~ (inject_Z n == 0)%Q.
Proof. intros Hn He. unfold Qeq in He. simpl in He. lia. Qed.

(** The deviations from the mean, by the sums. *)
Lemma deviations_mean l : l ≠ [] ->
  (deviations (mean l) l == squares l - total l * total l / inject_Z (Z.of_nat (length l)))%Q.
Proof.
  intros Hl. rewrite deviations_expand. unfold mean. field. apply inject_pos. destruct l; [done|cbn [length]; lia].
Qed.

(** One more sample (Welford's recurrence). *)
Lemma deviations_snoc l x :
  (deviations (mean (l ++ [x])) (l ++ [x]) ==
   (if decide (l = []) then 0 else deviations (mean l) l) +
   (x - (if decide (l = []) then 0 else mean l)) * (x - mean (l ++ [x])))%Q.
Proof.
  assert (~ inject_Z (Z.of_nat (length l)) + 1 == 0)%Q as Hn1.
  { unfold Qeq. simpl. lia. }
  assert (mean (l ++ [x]) == (total l + x) / (inject_Z (Z.of_nat (length l)) + 1))%Q as Hm.
  { unfold mean. rewrite total_app, length_app, Nat2Z.inj_add, inject_Z_plus. cbn [total foldr]. by rewrite Qplus_0_r. }
  assert (inject_Z (Z.of_nat (length (l ++ [x]))) == inject_Z (Z.of_nat (length l)) + 1)%Q as Hl1.
  { by rewrite length_app, Nat2Z.inj_add, inject_Z_plus. }
  rewrite deviations_mean, Hm, Hl1 by (by destruct l). unfold squares. rewrite map_app, !total_app. cbn [map total foldr].
  fold (squares l). destruct (decide (l = [])) as [->|Hl].
  - unfold squares. simpl. field.
  - rewrite deviations_mean by done. unfold mean. set (n := inject_Z (Z.of_nat (length l))) in *.
    assert (~ n == 0)%Q by (apply inject_pos; destruct l; [done|cbn [length]; lia]).
    field. done.
Qed.

Record accumulates (l : list Q) (s : statistics) : Prop := {
  ac_num : num s = Z.of_nat (length l);
  ac_sum : (sum s == total l)%Q;
  ac_avg : (avg s == if decide (l = []) then 0 else mean l)%Q;
  ac_var : (var s == if decide (l = []) then 0 else deviations (mean l) l)%Q;
  ac_min : l ≠ [] -> min s ∈ l /\ Forall (fun x => min s <= x)%Q l;
  ac_max : max s ∈ 0%Q :: l /\ Forall (fun x => x <= max s)%Q (0%Q :: l)
}.

#[export] Instance mean_proper_help : Proper (Qeq ==> Qeq ==> Qeq) Qdiv.
Proof. solve_proper. Qed.

Lemma accumulates_snoc l s x : accumulates l s -> Z.of_nat (length l) + 1 < 2 ^ 64 -> accumulates (l ++ [x]) (UPDATE_STATISTICS_WITH s x).
Proof.
  intros [Hn Hs Ha Hv Hmin Hmax] Hb. unfold UPDATE_STATISTICS_WITH. rewrite Hn, u64_id by (unfold is_u64; lia).
  assert (l ++ [x] ≠ []) as Hne by (by destruct l).
  assert ((sum s + x) / inject_Z (Z.of_nat (length l) + 1) == mean (l ++ [x]))%Q as Hav.
  { unfold mean. rewrite total_app, length_app, Hs. cbn [total foldr length]. rewrite Nat2Z.inj_add, Qplus_0_r. done. }
  constructor; cbn [num sum avg var min max]; rewrite ?decide_False by done.
  - rewrite length_app. simpl. lia.
  - rewrite total_app, Hs. simpl. by rewrite Qplus_0_r.
  - exact Hav.
  - rewrite deviations_snoc, Hv, Ha, Hav. done.
  - intros _. destruct (Qltb x (min s)) eqn:Hlt; simpl.
    + apply Qltb_spec in Hlt. split; [set_solver|]. apply Forall_app. split; [|repeat constructor; lra].
      destruct (decide (l = [])) as [->|Hl]; [done|]. eapply Forall_impl; [by apply Hmin|]. intros y Hy. simpl in Hy. lra.
    + apply Qltb_false in Hlt. destruct (Z.eqb_spec (Z.of_nat (length l) + 1) 1).
      * assert (l = []) as -> by (destruct l; [done|simpl in *; lia]). split; [set_solver|]. repeat constructor; lra.
      * destruct (decide (l = [])) as [->|Hl]; [done|]. destruct (Hmin Hl). split; [set_solver|]. apply Forall_app. split; [done|by repeat constructor].
  - destruct Hmax as [Hin Hall]. destruct (Qltb (max s) x) eqn:Hlt; [apply Qltb_spec in Hlt|apply Qltb_false in Hlt]; split; try set_solver.
    + change (Forall (fun y => y <= x)%Q ((0%Q :: l) ++ [x])). apply Forall_app. split; [|repeat constructor; lra].
      eapply Forall_impl; [exact Hall|]. intros y Hy. simpl in Hy. lra.
    + change (Forall (fun y => y <= max s)%Q ((0%Q :: l) ++ [x])). apply Forall_app. split; [done|by repeat constructor].
Qed.


(** ** Frames *)

(** A series after the points [l], from an empty one in heap [h0]. *)
Inductive series_inv (c : nat) (h0 : heap) : time_series -> heap -> list (Q * Z) -> Prop :=
  | inv_empty : series_inv c h0 (empty_series (Z.of_nat c)) h0 []
  | inv_frames f g d h l :
      h !! f = Some (Frame None (take c l)) -> h !! g = Some (Frame None d) -> h0 !! f = None -> h0 !! g = None ->
      l ≠ [] -> (length d <= c)%nat ->
      (if decide (length l <= c)%nat then f = g /\ delete f h = h0 else f ≠ g) ->
      series_inv c h0 (Series (Z.of_nat c) (Some f) (Some g)) h l.

Lemma append_step c h0 s h l new ts val : (0 < c)%nat -> series_inv c h0 s h l -> h !! new = None -> h0 !! new = None ->
  exists h' s', time_series_append new s ts val h = Some (h', s') /\ series_inv c h0 s' h' (l ++ [(ts, val)]).
Proof.
  intros Hc Hi Hnew Hnew0. destruct Hi as [|f g d h l Hf Hg Hf0 Hg0 Hl Hd Hfg]; unfold time_series_append; simpl.
  - rewrite lookup_insert_eq. simpl. do 2 eexists. split; [reflexivity|]. rewrite insert_insert_eq.
    apply inv_frames with [(ts, val)]; try done; simpl; rewrite ?lookup_insert_eq.
    + destruct c; [lia|]. simpl. by rewrite take_nil.
    + done.
    + rewrite decide_True by lia. split; [done|]. by apply delete_insert_id.
  - rewrite Hg. simpl. destruct (Z.eqb_spec (Z.of_nat (length d)) (Z.of_nat c)) as [Hfull|Hroom]; simpl.
    + rewrite lookup_insert_eq. simpl. do 2 eexists. split; [reflexivity|]. rewrite insert_insert_eq.
      assert (c <= length l)%nat.
      { case_decide; [|lia]. destruct Hfg as [-> _]. rewrite Hf in Hg. injection Hg as <-. rewrite length_take in Hfull. lia. }
      assert (f ≠ new) by congruence. assert (length (l ++ [(ts, val)]) > c)%nat by (rewrite length_app; simpl; lia).
      apply inv_frames with [(ts, val)]; rewrite ?lookup_insert_eq, ?lookup_insert_ne by done; try done.
      * by rewrite take_app_le.
      * by destruct l.
      * by rewrite decide_False by lia.
    + rewrite Hg. simpl. do 2 eexists. split; [reflexivity|]. case_decide as Hlen.
      * destruct Hfg as [-> Hdel]. rewrite Hf in Hg. injection Hg as <-.
        rewrite length_take in Hroom. assert (length l < c)%nat by lia. rewrite (take_ge l c) in * by lia.
        apply inv_frames with (l ++ [(ts, val)]); rewrite ?lookup_insert_eq; try done.
        -- rewrite take_ge; [done|]. rewrite length_app. simpl. lia.
        -- by destruct l.
        -- rewrite length_app. simpl. lia.
        -- rewrite decide_True by (rewrite length_app; simpl; lia). split; [done|]. by rewrite delete_insert_eq.
      * apply inv_frames with (d ++ [(ts, val)]); rewrite ?lookup_insert_eq, ?lookup_insert_ne by done; try done.
        -- by rewrite take_app_le by lia.
        -- by destruct l.
        -- rewrite length_app. simpl. lia.
        -- by rewrite decide_False by (rewrite length_app; simpl; lia).
Qed.

Lemma append_dom new s ts val h h' s' a : time_series_append new s ts val h = Some (h', s') -> is_Some (h !! a) -> is_Some (h' !! a).
Proof.
  unfold time_series_append. intros (full & Hf & Ht)%bind_Some Hs.
  assert (forall h1 s1, is_Some (h1 !! a) -> (frame ← last_frame s1;
    let s := match first_frame s1 with None => Series (frame_capacity s1) (Some frame) (last_frame s1) | Some _ => s1 end in
    f ← h1 !! frame; Some (<[frame := Frame (next f) (data f ++ [(ts, val)])]> h1, s)) = Some (h', s') -> is_Some (h' !! a)) as Hk.
  { intros h1 s1 Hs1 (frame & _ & (f & _ & [= <- _])%bind_Some)%bind_Some. apply lookup_insert_is_Some. destruct (decide (frame = a)); auto. }
  destruct full; (eapply Hk; [|exact Ht]); [|done]. apply lookup_insert_is_Some. destruct (decide (new = a)); auto.
Qed.

Lemma appends_inv c h0 l s' h' : (0 < c)%nat -> appends (empty_series (Z.of_nat c)) h0 l s' h' ->
  series_inv c h0 s' h' l /\ forall a, is_Some (h0 !! a) -> is_Some (h' !! a).
Proof.
  intros Hc Ha. remember (empty_series (Z.of_nat c)) as s0 eqn:Hs. induction Ha as [s h|s h l s1 h1 new ts val s2 h2 _ IH Hn Ht]; subst.
  - split; [constructor|done].
  - destruct (IH eq_refl) as [Hi Hd]. assert (h !! new = None) as Hn0.
    { apply eq_None_not_Some. intros Hs. apply Hd in Hs. rewrite Hn in Hs. by destruct Hs. }
    destruct (append_step c h s1 h1 l new ts val Hc Hi Hn Hn0) as (h' & s' & Ht' & Hi').
    rewrite Ht in Ht'. injection Ht' as <- <-. split; [done|]. intros a Hs. apply Hd in Hs. by eapply append_dom.
Qed.

Lemma walk_one h f d : h !! f = Some (Frame None d) ->
  frame_values (size h) (Some f) h = Some d /\ clear_loop (size h) (Some f) h = Some (delete f h).
Proof.
  intros Hf. assert (size h ≠ 0)%nat as Hs.
  { intros Hz. apply map_size_empty_inv in Hz. subst. by rewrite lookup_empty in Hf. }
  destruct (size h) as [|n]; [done|]. simpl. rewrite Hf. simpl. destruct n; simpl; by rewrite app_nil_r.
Qed.

(** A series that was appended any points gives back its first frame only:
    the frames allocated after it are never linked to it.  Up to the capacity of
    a frame all points are read, in order, and clearing the series frees what it
    had allocated; past it, the later points are lost, and their frames are not
    freed. *)
Theorem series_keeps_first_frame c h l s' h' : (0 < c)%nat -> appends (empty_series (Z.of_nat c)) h l s' h' ->
  series_values s' h' = Some (take c l) /\
  exists h'', time_series_clear s' h' = Some (h'', empty_series (Z.of_nat c)) /\
    if decide (length l <= c)%nat then h'' = h else exists a, h !! a = None /\ is_Some (h'' !! a).
Proof.
  intros Hc Ha. apply appends_inv in Ha as [Hi _]; [|done]. destruct Hi as [|f g d h1 l Hf Hg Hf0 Hg0 Hl Hd Hfg].
  - split; [unfold series_values; simpl; by destruct (size h), c|]. exists h. split; [|done].
    unfold time_series_clear. simpl. by destruct (size h).
  - destruct (walk_one h1 f _ Hf) as [Hv Hcl]. split; [done|]. unfold time_series_clear. simpl. rewrite Hcl. simpl.
    eexists. split; [reflexivity|]. case_decide; [by destruct Hfg as [_ <-]|]. exists g. split; [done|].
    rewrite lookup_delete_ne by done. by eexists.
Qed.

(** ** The series of pools *)

Lemma swap_remove_lookup {A} (l : list A) index i : (index < length l)%nat -> (i < length l - 1)%nat ->
  swap_remove index l !! i = l !! (if decide (i = index) then length l - 1 else i)%nat.
Proof.
  intros Hx Hi. unfold swap_remove. destruct (last l) as [y|] eqn:Hl; [|apply last_None in Hl; subst; simpl in *; lia].
  rewrite removelast_firstn_len. assert (length (if (index =? length l - 1)%nat then l else <[index:=y]> l) = length l) as ->.
  { by destruct (_ =? _)%nat; rewrite ?length_insert. }
  rewrite lookup_take_lt by lia. destruct (Nat.eqb_spec index (length l - 1)); [by rewrite decide_False by lia|].
  case_decide; subst; [|by rewrite list_lookup_insert_ne].
  rewrite list_lookup_insert_eq by lia. rewrite last_lookup in Hl. rewrite <- Hl. f_equal. lia.
Qed.

(** The monitor moves all later series down when a pool is removed, while the
    table moves its last pool into the hole: from the position of the removed
    pool on, each series is that of another pool, unless the pool was the last
    or the one before. *)
Theorem removal_misplaces_series n index (pools : list margo_abt_pool) a h a' h' :
  length pools = S n -> length a = S n -> (index <= n)%nat -> remove_pool_series n index a h = Some (a', h') ->
  (forall i, (i < n)%nat -> a' !! i = a !! (if decide (i < index) then i else S i)%nat /\
    swap_remove index pools !! i = pools !! (if decide (i = index) then n else i)%nat) /\
  ((n <= S index)%nat <-> forall i, (i < n)%nat ->
     (if decide (i < index) then i else S i)%nat = (if decide (i = index) then n else i)%nat).
Proof.
  intros Hp Ha Hx. unfold remove_pool_series. destruct (a !! index) as [s|]; [|done]. simpl.
  destruct (time_series_clear s h) as [[h1 s1]|]; [|done]. simpl. intros [= <- _]. split.
  - intros i Hi. split.
    + destruct (decide (i < index)%nat).
      * rewrite lookup_app_l, lookup_take_lt by (rewrite ?length_take; lia). done.
      * rewrite lookup_app_r by (rewrite length_take; lia). rewrite length_take, Ha.
        rewrite lookup_app_l by (rewrite length_take, length_drop; lia). rewrite lookup_take_lt by lia.
        rewrite lookup_drop. f_equal. lia.
    + rewrite swap_remove_lookup by lia. case_decide; [|done]. f_equal. lia.
  - split.
    + intros Hn i Hi. repeat case_decide; lia.
    + intros Hall. destruct (decide (n <= S index)%nat); [done|]. specialize (Hall (S index) ltac:(lia)).
      rewrite !decide_False in Hall by lia. lia.
Qed.

(** ** Examples *)


(** Two points in frames of one. *)
Lemma two_points : exists s h, appends (empty_series (Z.of_nat 1)) ∅ [(0%Q, 5); (1%Q, 6)] s h /\ size h = 2%nat.
Proof.
  do 2 eexists. split.
  - apply (appends_cons _ _ [(0%Q, 5)] (Series 1 (Some 1%positive) (Some 1%positive)) {[1%positive := Frame None [(0%Q, 5)]]} 2%positive);
      [|vm_compute; reflexivity|vm_compute; reflexivity].
    apply (appends_cons _ _ [] (empty_series 1) ∅ 1%positive); [apply appends_nil|vm_compute; reflexivity|vm_compute; reflexivity].
  - vm_compute. reflexivity.
Qed.

Lemma series_keeps_first_frame_witness :
  exists s h, appends (empty_series (Z.of_nat 1)) ∅ [(0%Q, 5); (1%Q, 6)] s h /\ series_values s h = Some [(0%Q, 5)].
Proof.
  destruct two_points as (s & h & Ha & _). exists s, h. split; [exact Ha|].
  destruct (series_keeps_first_frame 1 ∅ _ _ _ ltac:(lia) Ha) as [Hv _]. exact Hv.
Defined.

Definition demo_pool (n : string) : margo_abt_pool := Pool n 0 "fifo" None 0 0 false false.

Lemma removal_misplaces_series_witness :
  exists a h, remove_pool_series 2 0 [empty_series 1; empty_series 2; empty_series 3] ∅ = Some (a, h) /\
    a !! 0%nat = Some (empty_series 2) /\
    swap_remove 0 [demo_pool "a"; demo_pool "b"; demo_pool "c"] !! 0%nat = Some (demo_pool "c").
Proof.
  assert (Hr : exists a h, remove_pool_series 2 0 [empty_series 1; empty_series 2; empty_series 3] ∅ = Some (a, h)).
  { do 2 eexists. vm_compute. reflexivity. }
  destruct Hr as (a & h & Hr). exists a, h. split; [exact Hr|].
  destruct (removal_misplaces_series 2 0 [demo_pool "a"; demo_pool "b"; demo_pool "c"] [empty_series 1; empty_series 2; empty_series 3] ∅ a h)
    as [H _]; [reflexivity|reflexivity|lia|exact Hr|].
  destruct (H 0%nat ltac:(lia)) as [H1 H2]. split; [exact H1|exact H2].
Defined.
