(* ===== verification/Monitor.v ===== *)
(** * The default monitor (src/margo-default-monitoring.c)

    The state of the default monitor and its callbacks, one function per
    callback.  The hash tables of uthash.h keep the order of insertion: they are
    lists of entries.  A pointer to an entry is its key, since entries are only
    removed at the end; a session is an address of an arena, 0 is NULL.  What
    uses NULL, or a session that was released, is undefined: [None].  Each
    callback runs under the mutex of the table it changes. *)

From Stdlib Require Import QArith.
From stdpp Require Import strings.
From S2P Require Import Prelude Utlist Id Timer Handler Stats.

#[local] Open Scope Z_scope.

(** ** Data *)

Record callpath := Callpath { rpc_id : Z; parent_id : Z; addr_id : Z }.
#[export] Instance callpath_eq_dec : EqDecision callpath.
Proof. solve_decision. Defined.

Inductive hg_bulk_op := HG_BULK_PULL | HG_BULK_PUSH.
#[export] Instance hg_bulk_op_eq_dec : EqDecision hg_bulk_op.
Proof. solve_decision. Defined.

Record bulk_key := BulkKey { bk_callpath : callpath; remote_addr_id : Z; operation : hg_bulk_op }.
#[export] Instance bulk_key_eq_dec : EqDecision bulk_key.
Proof. solve_decision. Defined.

(** The fields that are pairs, indexed by [DURATION] and [TIMESTAMP]. *)
Inductive kind := DURATION | TIMESTAMP.
#[export] Instance kind_eq_dec : EqDecision kind.
Proof. solve_decision. Defined.
Inductive origin_field := forward | forward_cb | wait | set_input | get_output.
#[export] Instance origin_field_eq_dec : EqDecision origin_field.
Proof. solve_decision. Defined.
Inductive target_field := ult | respond | respond_cb | target_wait | set_output | get_input.
#[export] Instance target_field_eq_dec : EqDecision target_field.
Proof. solve_decision. Defined.
Inductive transfer_field := transfer_cb | transfer_wait.
#[export] Instance transfer_field_eq_dec : EqDecision transfer_field.
Proof. solve_decision. Defined.
Inductive hg_field := progress_with_timeout | progress_without_timeout | progress_timeout_value | trigger.
#[export] Instance hg_field_eq_dec : EqDecision hg_field.
Proof. solve_decision. Defined.

Definition origin_rpc_statistics := origin_field -> kind -> statistics.
Record target_rpc_statistics := Target { handler : statistics; target_pairs : target_field -> kind -> statistics }.
Record bulk_create_statistics := BulkCreate { duration : statistics; size : statistics }.
Record bulk_transfer_statistics := BulkTransfer {
  transfer : statistics;
  transfer_size : statistics;
  transfer_pairs : transfer_field -> kind -> statistics
}.
Definition hg_statistics := hg_field -> statistics.

Record session := Session {
  create_ts : Q;
  forward_start_ts : Q;
  forward_end_ts : Q;
  wait_end_ts : Q;
  origin_stats : option callpath;
  handler_start_ts : Q;
  ult_start_ts : Q;
  respond_start_ts : Q;
  respond_end_ts : Q;
  target_stats : option callpath
}.
Record bulk_session := BulkSession { transfer_start_ts : Q; transfer_end_ts : Q; transfer_stats : option bulk_key }.

Record rpc_time_series := RpcSeries { rpc_count : Z; rpc_count_series : time_series; bulk_size : Z; bulk_size_series : time_series }.

(** The tables, the names, the sessions in use with what handles and requests
    carry, the series, and the rest of [default_monitor_state]. *)
Record tables := Tables {
  hg_stats : hg_statistics;
  bulk_create_stats : list (callpath * bulk_create_statistics);
  bulk_transfer_stats : list (bulk_key * bulk_transfer_statistics);
  origin_rpc_stats : list (callpath * origin_rpc_statistics);
  target_rpc_stats : list (callpath * target_rpc_statistics)
}.
Record names := Names { rpc_info : list (Z * string); addr_info : list (string * Z); addr_info_last_id : Z }.
Record carried := Carried {
  sessions : gmap Z session;
  bulk_sessions : gmap Z bulk_session;
  handle_data : gmap Z Z;
  request_data : gmap Z Z
}.
Record series_state := SeriesState {
  frames : heap;
  rpc_series : list (Z * rpc_time_series);
  rpc_time_series_last_ts : Q;
  pool_size_time_series : list time_series;
  pool_total_size_time_series : list time_series
}.
Record default_monitor_state := Monitor {
  enable_statistics : bool;
  enable_time_series : bool;
  sample_progress_every : Z;
  time_series_interval : Q;
  progress_sampling : Z;
  tbl : tables;
  nam : names;
  car : carried;
  ser : series_state
}.

Definition with_sampling (n : Z) (m : default_monitor_state) : default_monitor_state :=
  Monitor (enable_statistics m) (enable_time_series m) (sample_progress_every m) (time_series_interval m) n (tbl m) (nam m) (car m) (ser m).
Definition with_tbl (t : tables) (m : default_monitor_state) : default_monitor_state :=
  Monitor (enable_statistics m) (enable_time_series m) (sample_progress_every m) (time_series_interval m) (progress_sampling m) t (nam m) (car m) (ser m).
Definition with_nam (n : names) (m : default_monitor_state) : default_monitor_state :=
  Monitor (enable_statistics m) (enable_time_series m) (sample_progress_every m) (time_series_interval m) (progress_sampling m) (tbl m) n (car m) (ser m).
Definition with_car (c : carried) (m : default_monitor_state) : default_monitor_state :=
  Monitor (enable_statistics m) (enable_time_series m) (sample_progress_every m) (time_series_interval m) (progress_sampling m) (tbl m) (nam m) c (ser m).
Definition with_ser (s : series_state) (m : default_monitor_state) : default_monitor_state :=
  Monitor (enable_statistics m) (enable_time_series m) (sample_progress_every m) (time_series_interval m) (progress_sampling m) (tbl m) (nam m) (car m) s.

(** ** Tables *)

Section Table.
Context {K V : Type} `{EqDecision K}.
#[local] Notation table := (list (K * V)).

Fixpoint HASH_FIND (k : K) (l : table) : option V :=
  match l with [] => None | (k', v) :: l => if decide (k' = k) then Some v else HASH_FIND k l end.

Definition find_or_add (k : K) (v : V) (l : table) : table :=
  match HASH_FIND k l with Some _ => l | None => l ++ [(k, v)] end.

(** Changing an entry through its pointer. *)
Definition update (k : K) (f : V -> V) (l : table) : table :=
  map (fun e => if decide (e.1 = k) then (e.1, f e.2) else e) l.
End Table.

Definition set_pair {F} `{EqDecision F} (f : F) (k : kind) (v : Q) (p : F -> kind -> statistics) : F -> kind -> statistics :=
  fun f' k' => if decide (f' = f /\ k' = k) then UPDATE_STATISTICS_WITH (p f' k') v else p f' k'.

Definition zero_pairs {F} : F -> kind -> statistics := fun _ _ => zero_statistics.

Definition update_hg (f : hg_field) (v : Q) (t : tables) : tables :=
  Tables (fun f' => if decide (f' = f) then UPDATE_STATISTICS_WITH (hg_stats t f') v else hg_stats t f')
         (bulk_create_stats t) (bulk_transfer_stats t) (origin_rpc_stats t) (target_rpc_stats t).
Definition with_origin (l : list (callpath * origin_rpc_statistics)) (t : tables) : tables :=
  Tables (hg_stats t) (bulk_create_stats t) (bulk_transfer_stats t) l (target_rpc_stats t).
Definition with_target (l : list (callpath * target_rpc_statistics)) (t : tables) : tables :=
  Tables (hg_stats t) (bulk_create_stats t) (bulk_transfer_stats t) (origin_rpc_stats t) l.
Definition with_create (l : list (callpath * bulk_create_statistics)) (t : tables) : tables :=
  Tables (hg_stats t) l (bulk_transfer_stats t) (origin_rpc_stats t) (target_rpc_stats t).
Definition with_transfer (l : list (bulk_key * bulk_transfer_statistics)) (t : tables) : tables :=
  Tables (hg_stats t) (bulk_create_stats t) l (origin_rpc_stats t) (target_rpc_stats t).

Definition update_origin (c : callpath) (f : origin_field) (k : kind) (v : Q) (m : default_monitor_state) : default_monitor_state :=
  with_tbl (with_origin (update c (set_pair f k v) (origin_rpc_stats (tbl m))) (tbl m)) m.
Definition update_target (c : callpath) (f : target_field) (k : kind) (v : Q) (m : default_monitor_state) : default_monitor_state :=
  with_tbl (with_target (update c (fun s => Target (handler s) (set_pair f k v (target_pairs s))) (target_rpc_stats (tbl m))) (tbl m)) m.
Definition update_transfer (b : bulk_key) (f : transfer_field) (k : kind) (v : Q) (m : default_monitor_state) : default_monitor_state :=
  with_tbl (with_transfer (update b (fun s => BulkTransfer (transfer s) (transfer_size s) (set_pair f k v (transfer_pairs s)))
    (bulk_transfer_stats (tbl m))) (tbl m)) m.

(** ** Sessions *)

Definition with_sessions (s : gmap Z session) (c : carried) : carried := Carried s (bulk_sessions c) (handle_data c) (request_data c).
Definition with_bulk_sessions (s : gmap Z bulk_session) (c : carried) : carried := Carried (sessions c) s (handle_data c) (request_data c).
Definition with_handle_data (d : gmap Z Z) (c : carried) : carried := Carried (sessions c) (bulk_sessions c) d (request_data c).
Definition with_request_data (d : gmap Z Z) (c : carried) : carried := Carried (sessions c) (bulk_sessions c) (handle_data c) d.

(** An object of an arena holds what its last use left; the fields a callback
    does not set are not read before they are. *)
Definition fresh_session : session := Session 0 0 0 0 None 0 0 0 0 None.

Definition margo_get_monitoring_data (handle : Z) (m : default_monitor_state) : Z := default 0 (handle_data (car m) !! handle).
Definition margo_request_get_monitoring_data (request : Z) (m : default_monitor_state) : Z := default 0 (request_data (car m) !! request).

Definition RETRIEVE_SESSION (handle : Z) (m : default_monitor_state) : option session :=
  sessions (car m) !! margo_get_monitoring_data handle m.
Definition RETRIEVE_BULK_SESSION (request : Z) (m : default_monitor_state) : option bulk_session :=
  bulk_sessions (car m) !! margo_request_get_monitoring_data request m.

(** Writing to the session of a handle. *)
Definition set_session (handle : Z) (s : session) (m : default_monitor_state) : default_monitor_state :=
  with_car (with_sessions (<[margo_get_monitoring_data handle m := s]> (sessions (car m))) (car m)) m.

Definition new_session (new : Z) (handle : Z) (s : session) (m : default_monitor_state) : default_monitor_state :=
  with_car (with_handle_data (<[handle := new]> (handle_data (car m))) (with_sessions (<[new := s]> (sessions (car m))) (car m))) m.

Inductive margo_monitor_event := FN_START | FN_END.
#[export] Instance margo_monitor_event_eq_dec : EqDecision margo_monitor_event.
Proof. solve_decision. Defined.

(** What [margo_request_get_type] and [margo_request_get_handle] read. *)
Inductive margo_request_type := MARGO_FORWARD_REQUEST | MARGO_RESPONSE_REQUEST | MARGO_BULK_REQUEST | MARGO_INVALID_REQUEST.
Record margo_request := Request { req : Z; req_type : margo_request_type; req_handle : Z }.

(** ** Addresses and names *)

(** [addr] is the string of [margo_addr_to_string], [None] on an error. *)
Definition addr_info_find_or_add (addr : option string) (m : default_monitor_state) : Z * default_monitor_state :=
  let addr_str := default "<unknown>"%string addr in
  match HASH_FIND addr_str (addr_info (nam m)) with
  | Some id => (id, m)
  | None =>
      let id := u64 (addr_info_last_id (nam m) + 1) in
      (id, with_nam (Names (rpc_info (nam m)) (addr_info (nam m) ++ [(addr_str, id)]) id) m)
  end.

Definition addr_info_find_by_id (id : Z) (m : default_monitor_state) : option string :=
  fst <$> list_find (fun e => e.2 = id) (addr_info (nam m)) ≫= fun e => Some e.2.

(** The entries of the same id are chained from the newest. *)
Definition rpc_info_find (id : Z) (m : default_monitor_state) : option string := HASH_FIND id (rev (rpc_info (nam m))).

Definition on_register (ev : margo_monitor_event) (id : Z) (name : string) (m : default_monitor_state) : default_monitor_state :=
  match ev with
  | FN_START => m
  | FN_END => with_nam (Names (rpc_info (nam m) ++ [(id, name)]) (addr_info (nam m)) (addr_info_last_id (nam m))) m
  end.

(** ** Time series

    [malloc] chooses the address of a new frame. *)

Section Series.
Context (malloc : heap -> loc).

Definition find_or_add_time_series_for_rpc (rpc_id : Z) (l : list (Z * rpc_time_series)) : list (Z * rpc_time_series) :=
  find_or_add rpc_id (RpcSeries 0 (empty_series 256) 0 (empty_series 256)) l.

Definition append_point (ts : Q) (val : Z) (s : time_series) (h : heap) : option (heap * time_series) :=
  time_series_append (malloc h) s ts val h.

Fixpoint update_rpc_loop (timestamp : Q) (l : list (Z * rpc_time_series)) (h : heap) : option (heap * list (Z * rpc_time_series)) :=
  match l with
  | [] => Some (h, [])
  | (id, rpc_ts) :: l =>
      '(h, counts) ← append_point timestamp (rpc_count rpc_ts) (rpc_count_series rpc_ts) h;
      '(h, bulks) ← append_point timestamp (bulk_size rpc_ts) (bulk_size_series rpc_ts) h;
      '(h, l) ← update_rpc_loop timestamp l h;
      Some (h, (id, RpcSeries 0 counts 0 bulks) :: l)
  end.

Definition update_rpc_time_series (timestamp : Q) (m : default_monitor_state) : option default_monitor_state :=
  if negb (enable_time_series m) then Some m
  else
    '(h, l) ← update_rpc_loop timestamp (rpc_series (ser m)) (frames (ser m));
    Some (with_ser (SeriesState h l timestamp (pool_size_time_series (ser m)) (pool_total_size_time_series (ser m))) m).

(** For each pool of the instance, its size and its total size, [None] when they
    are not obtained. *)
Fixpoint update_pool_loop (timestamp : Q) (i : nat) (pools : list (option (Z * Z))) (sizes totals : list time_series) (h : heap) :
  option (heap * list time_series * list time_series) :=
  match pools with
  | [] => Some (h, sizes, totals)
  | None :: pools => update_pool_loop timestamp (S i) pools sizes totals h
  | Some (pool_size, pool_total_size) :: pools =>
      s ← sizes !! i;
      '(h, s) ← append_point timestamp pool_size s h;
      t ← totals !! i;
      '(h, t) ← append_point timestamp pool_total_size t h;
      update_pool_loop timestamp (S i) pools (<[i := s]> sizes) (<[i := t]> totals) h
  end.

Definition update_pool_time_series (timestamp : Q) (pools : list (option (Z * Z))) (m : default_monitor_state) : option default_monitor_state :=
  if negb (enable_time_series m) then Some m
  else
    '(h, sizes, totals) ← update_pool_loop timestamp 0 pools (pool_size_time_series (ser m)) (pool_total_size_time_series (ser m)) (frames (ser m));
    Some (with_ser (SeriesState h (rpc_series (ser m)) (rpc_time_series_last_ts (ser m)) sizes totals) m).

(** The loop of [free_all_time_series] over the series of RPCs. *)
Fixpoint free_rpc_loop (l : list (Z * rpc_time_series)) (h : heap) : option heap :=
  match l with
  | [] => Some h
  | (_, p) :: l =>
      '(h, _) ← time_series_clear (rpc_count_series p) h;
      '(h, _) ← time_series_clear (bulk_size_series p) h;
      free_rpc_loop l h
  end.

(** The loop over the series of pools, [n] pools being left. *)
Fixpoint free_pool_loop (n i : nat) (sizes totals : list time_series) (h : heap) : option heap :=
  match n with
  | O => Some h
  | S n =>
      s ← sizes !! i;
      '(h, _) ← time_series_clear s h;
      t ← totals !! i;
      '(h, _) ← time_series_clear t h;
      free_pool_loop n (S i) sizes totals h
  end.

Definition free_all_time_series (num_pools : nat) (m : default_monitor_state) : option default_monitor_state :=
  if negb (enable_time_series m) then Some m
  else
    h ← free_rpc_loop (rpc_series (ser m)) (frames (ser m));
    h ← free_pool_loop num_pools 0 (pool_size_time_series (ser m)) (pool_total_size_time_series (ser m)) h;
    Some (with_ser (SeriesState h [] (rpc_time_series_last_ts (ser m)) [] []) m).

(** ** The progress loop

    [uctx] is the field of the same name of the arguments, which the two calls
    of an event share; a callback returns it with the state. *)

Definition on_progress (timestamp : Q) (ev : margo_monitor_event) (timeout_ms : Z) (pools : list (option (Z * Z))) (uctx : Q)
  (m : default_monitor_state) : option (Q * default_monitor_state) :=
  m ← (if bool_decide (ev = FN_END) && enable_time_series m && Qltb (rpc_time_series_last_ts (ser m) + time_series_interval m) timestamp
       then m ← update_rpc_time_series timestamp m; update_pool_time_series timestamp pools m
       else Some m);
  if negb (enable_statistics m) then Some (uctx, m) else
  match ev with
  | FN_START =>
      if sample_progress_every m =? 0 then Some (uctx, m) else
      let n := if progress_sampling m =? 0 then u64 (sample_progress_every m) else progress_sampling m in
      let n := u64 (n - 1) in
      let m := with_sampling n m in
      if negb (n =? 0) then Some (uctx, m) else Some (timestamp, m)
  | FN_END =>
      if (sample_progress_every m =? 0) || negb (progress_sampling m =? 0) then Some (uctx, m) else
      let t := (timestamp - uctx)%Q in
      if negb (timeout_ms =? 0)
      then Some (uctx, with_tbl (update_hg progress_timeout_value (inject_Z timeout_ms) (update_hg progress_with_timeout t (tbl m))) m)
      else Some (uctx, with_tbl (update_hg progress_without_timeout t (tbl m)) m)
  end.
End Series.

Definition on_trigger (timestamp : Q) (ev : margo_monitor_event) (actual_count : Z) (uctx : Q) (m : default_monitor_state) :
  Q * default_monitor_state :=
  if negb (enable_statistics m) then (uctx, m) else
  match ev with
  | FN_START => (timestamp, m)
  | FN_END =>
      if actual_count =? 0 then (uctx, m)
      else (uctx, with_tbl (update_hg trigger (timestamp - uctx) (tbl m)) m)
  end.

(** ** RPCs at their origin *)

(** [new] is the session that [mochi_arena_get] returns. *)
Definition on_create (timestamp : Q) (ev : margo_monitor_event) (handle new : Z) (uctx : Q) (m : default_monitor_state) : Q * default_monitor_state :=
  if negb (enable_statistics m) then (uctx, m) else
  match ev with
  | FN_START => (timestamp, m)
  | FN_END => (uctx, new_session new handle (Session timestamp 0 0 0 None 0 0 0 0 None) m)
  end.

(** [handle_info] is the id and the address of [margo_get_info], [key_get] what
    the key of the current RPC id holds. *)
Definition on_forward (timestamp : Q) (ev : margo_monitor_event) (handle provider_id : Z) (handle_info : option (Z * option string))
  (key_get : Z * Z) (uctx : Q) (m : default_monitor_state) : option (Q * default_monitor_state) :=
  if negb (enable_statistics m) then Some (uctx, m) else
  match handle_info with
  | None => Some (uctx, m)
  | Some (id, addr) =>
      match ev with
      | FN_START =>
          let '(addr_id, m) := addr_info_find_or_add addr m in
          let key := Callpath (mux_id id provider_id) (margo_get_current_rpc_id key_get).2 addr_id in
          let m := with_tbl (with_origin (find_or_add key zero_pairs (origin_rpc_stats (tbl m))) (tbl m)) m in
          s ← RETRIEVE_SESSION handle m;
          let m := update_origin key forward TIMESTAMP (timestamp - create_ts s) m in
          Some (timestamp, set_session handle
            (Session (create_ts s) timestamp (forward_end_ts s) (wait_end_ts s) (Some key)
               (handler_start_ts s) (ult_start_ts s) (respond_start_ts s) (respond_end_ts s) (target_stats s)) m)
      | FN_END =>
          s ← RETRIEVE_SESSION handle m;
          rpc_stats ← origin_stats s;
          let m := update_origin rpc_stats forward DURATION (timestamp - uctx) m in
          Some (uctx, set_session handle
            (Session (create_ts s) (forward_start_ts s) timestamp (wait_end_ts s) (origin_stats s)
               (handler_start_ts s) (ult_start_ts s) (respond_start_ts s) (respond_end_ts s) (target_stats s)) m)
      end
  end.

Definition on_set_input (timestamp : Q) (ev : margo_monitor_event) (request : margo_request) (uctx : Q) (m : default_monitor_state) :
  option (Q * default_monitor_state) :=
  if negb (enable_statistics m) then Some (uctx, m) else
  s ← RETRIEVE_SESSION (req_handle request) m;
  rpc_stats ← origin_stats s;
  match ev with
  | FN_START => Some (timestamp, update_origin rpc_stats set_input TIMESTAMP (timestamp - forward_start_ts s) m)
  | FN_END => Some (uctx, update_origin rpc_stats set_input DURATION (timestamp - uctx) m)
  end.

Definition on_get_output (timestamp : Q) (ev : margo_monitor_event) (handle : Z) (uctx : Q) (m : default_monitor_state) :
  option (Q * default_monitor_state) :=
  if negb (enable_statistics m) then Some (uctx, m) else
  s ← RETRIEVE_SESSION handle m;
  rpc_stats ← origin_stats s;
  match ev with
  | FN_START => Some (timestamp, update_origin rpc_stats get_output TIMESTAMP (timestamp - wait_end_ts s) m)
  | FN_END => Some (uctx, update_origin rpc_stats get_output DURATION (timestamp - uctx) m)
  end.

Definition on_forward_cb (timestamp : Q) (ev : margo_monitor_event) (request : margo_request) (uctx : Q) (m : default_monitor_state) :
  option (Q * default_monitor_state) :=
  if negb (enable_statistics m) then Some (uctx, m) else
  s ← RETRIEVE_SESSION (req_handle request) m;
  rpc_stats ← origin_stats s;
  match ev with
  | FN_START => Some (timestamp, update_origin rpc_stats forward_cb TIMESTAMP (timestamp - forward_start_ts s) m)
  | FN_END => Some (uctx, update_origin rpc_stats forward_cb DURATION (timestamp - uctx) m)
  end.

(** ** RPCs at their target *)

Definition on_set_output (timestamp : Q) (ev : margo_monitor_event) (request : margo_request) (uctx : Q) (m : default_monitor_state) :
  option (Q * default_monitor_state) :=
  if negb (enable_statistics m) then Some (uctx, m) else
  s ← RETRIEVE_SESSION (req_handle request) m;
  rpc_stats ← target_stats s;
  match ev with
  | FN_START => Some (timestamp, update_target rpc_stats set_output TIMESTAMP (timestamp - respond_start_ts s) m)
  | FN_END => Some (uctx, update_target rpc_stats set_output DURATION (timestamp - uctx) m)
  end.

Definition on_get_input (timestamp : Q) (ev : margo_monitor_event) (handle : Z) (uctx : Q) (m : default_monitor_state) :
  option (Q * default_monitor_state) :=
  if negb (enable_statistics m) then Some (uctx, m) else
  s ← RETRIEVE_SESSION handle m;
  rpc_stats ← target_stats s;
  match ev with
  | FN_START => Some (timestamp, update_target rpc_stats get_input TIMESTAMP (timestamp - ult_start_ts s) m)
  | FN_END => Some (uctx, update_target rpc_stats get_input DURATION (timestamp - uctx) m)
  end.

Definition on_respond (timestamp : Q) (ev : margo_monitor_event) (request : margo_request) (uctx : Q) (m : default_monitor_state) :
  option (Q * default_monitor_state) :=
  if negb (enable_statistics m) then Some (uctx, m) else
  s ← RETRIEVE_SESSION (req_handle request) m;
  rpc_stats ← target_stats s;
  match ev with
  | FN_START =>
      let m := update_target rpc_stats respond TIMESTAMP (timestamp - ult_start_ts s) m in
      Some (timestamp, set_session (req_handle request)
        (Session (create_ts s) (forward_start_ts s) (forward_end_ts s) (wait_end_ts s) (origin_stats s)
           (handler_start_ts s) (ult_start_ts s) timestamp (respond_end_ts s) (target_stats s)) m)
  | FN_END =>
      let m := update_target rpc_stats respond DURATION (timestamp - uctx) m in
      Some (uctx, set_session (req_handle request)
        (Session (create_ts s) (forward_start_ts s) (forward_end_ts s) (wait_end_ts s) (origin_stats s)
           (handler_start_ts s) (ult_start_ts s) (respond_start_ts s) timestamp (target_stats s)) m)
  end.

Definition on_respond_cb (timestamp : Q) (ev : margo_monitor_event) (request : margo_request) (uctx : Q) (m : default_monitor_state) :
  option (Q * default_monitor_state) :=
  if negb (enable_statistics m) then Some (uctx, m) else
  s ← RETRIEVE_SESSION (req_handle request) m;
  rpc_stats ← target_stats s;
  match ev with
  | FN_START => Some (timestamp, update_target rpc_stats respond_cb TIMESTAMP (timestamp - respond_start_ts s) m)
  | FN_END => Some (uctx, update_target rpc_stats respond_cb DURATION (timestamp - uctx) m)
  end.

(** An object that goes back to its arena; releasing it twice is undefined. *)
Definition release_session (a : Z) (m : default_monitor_state) : option default_monitor_state :=
  if a =? 0 then Some m
  else _ ← sessions (car m) !! a; Some (with_car (with_sessions (delete a (sessions (car m))) (car m)) m).
Definition release_bulk_session (a : Z) (m : default_monitor_state) : option default_monitor_state :=
  if a =? 0 then Some m
  else _ ← bulk_sessions (car m) !! a; Some (with_car (with_bulk_sessions (delete a (bulk_sessions (car m))) (car m)) m).

(** The session of the request is read before the sample, [upd] adds the sample. *)
Definition on_wait (timestamp : Q) (ev : margo_monitor_event) (request : margo_request) (uctx : Q) (m : default_monitor_state) :
  option (Q * default_monitor_state) :=
  if negb (enable_statistics m) then Some (uctx, m) else
  let sample (upd : kind -> Q -> default_monitor_state -> default_monitor_state) (ref_ts : Q) (m : default_monitor_state) :=
    match ev with
    | FN_START => (timestamp, upd TIMESTAMP (timestamp - ref_ts)%Q m)
    | FN_END => (uctx, upd DURATION (timestamp - uctx)%Q m)
    end in
  match req_type request with
  | MARGO_FORWARD_REQUEST =>
      s ← RETRIEVE_SESSION (req_handle request) m;
      rpc_stats ← origin_stats s;
      let m :=
        match ev with
        | FN_START => m
        | FN_END => set_session (req_handle request)
            (Session (create_ts s) (forward_start_ts s) (forward_end_ts s) timestamp (origin_stats s)
               (handler_start_ts s) (ult_start_ts s) (respond_start_ts s) (respond_end_ts s) (target_stats s)) m
        end in
      Some (sample (update_origin rpc_stats wait) (forward_end_ts s) m)
  | MARGO_RESPONSE_REQUEST =>
      s ← RETRIEVE_SESSION (req_handle request) m;
      rpc_stats ← target_stats s;
      Some (sample (update_target rpc_stats target_wait) (respond_end_ts s) m)
  | MARGO_BULK_REQUEST =>
      s ← RETRIEVE_BULK_SESSION (req request) m;
      stats ← transfer_stats s;
      let '(uctx, m) := sample (update_transfer stats transfer_wait) (transfer_end_ts s) m in
      m ← (match ev with FN_START => Some m | FN_END => release_bulk_session (margo_request_get_monitoring_data (req request) m) m end);
      Some (uctx, m)
  | MARGO_INVALID_REQUEST =>
      Some (sample (fun _ _ m => m) 0%Q m)
  end.

Definition count_rpc (s : rpc_time_series) : rpc_time_series :=
  RpcSeries (u64 (rpc_count s + 1)) (rpc_count_series s) (bulk_size s) (bulk_size_series s).
Definition count_bulk (n : Z) (s : rpc_time_series) : rpc_time_series :=
  RpcSeries (rpc_count s) (rpc_count_series s) (u64 (bulk_size s + n)) (bulk_size_series s).

(** Changing the counters of an RPC, its series being added if needed. *)
Definition update_series (rpc_id : Z) (f : rpc_time_series -> rpc_time_series) (m : default_monitor_state) : default_monitor_state :=
  with_ser (SeriesState (frames (ser m)) (update rpc_id f (find_or_add_time_series_for_rpc rpc_id (rpc_series (ser m))))
    (rpc_time_series_last_ts (ser m)) (pool_size_time_series (ser m)) (pool_total_size_time_series (ser m))) m.

Definition on_rpc_handler (timestamp : Q) (ev : margo_monitor_event) (handle new parent_rpc_id : Z) (handle_info : option (Z * option string))
  (uctx : Q) (m : default_monitor_state) : option (Q * default_monitor_state) :=
  if negb (enable_statistics m || enable_time_series m) then Some (uctx, m) else
  match handle_info with
  | None => Some (uctx, m)
  | Some (id, addr) =>
      match ev with
      | FN_START =>
          let '(addr_id, m) := addr_info_find_or_add addr m in
          let key := Callpath id parent_rpc_id addr_id in
          '(uctx, m) ← (if enable_statistics m then
            s ← (if margo_get_monitoring_data handle m =? 0 then Some fresh_session else RETRIEVE_SESSION handle m);
            let a := if margo_get_monitoring_data handle m =? 0 then new else margo_get_monitoring_data handle m in
            let m := with_tbl (with_target (find_or_add key (Target zero_statistics zero_pairs) (target_rpc_stats (tbl m))) (tbl m)) m in
            Some (timestamp, new_session a handle
              (Session (create_ts s) (forward_start_ts s) (forward_end_ts s) (wait_end_ts s) (origin_stats s)
                 timestamp (ult_start_ts s) (respond_start_ts s) (respond_end_ts s) (Some key)) m)
            else Some (uctx, m));
          Some (uctx, if enable_time_series m then update_series id count_rpc m else m)
      | FN_END =>
          if enable_statistics m then
            s ← RETRIEVE_SESSION handle m;
            rpc_stats ← target_stats s;
            Some (uctx, with_tbl (with_target (update rpc_stats (fun x =>
              Target (UPDATE_STATISTICS_WITH (handler x) (timestamp - uctx)) (target_pairs x)) (target_rpc_stats (tbl m))) (tbl m)) m)
          else Some (uctx, m)
      end
  end.

(** [key] is what the key of the call paths holds in the ULT. *)
Definition on_rpc_ult (timestamp : Q) (ev : margo_monitor_event) (handle : Z) (key : option callpath) (uctx : Q) (m : default_monitor_state) :
  option (Q * option callpath * default_monitor_state) :=
  if negb (enable_statistics m) then Some (uctx, key, m) else
  s ← RETRIEVE_SESSION handle m;
  rpc_stats ← target_stats s;
  match ev with
  | FN_START =>
      let m := update_target rpc_stats ult TIMESTAMP (timestamp - handler_start_ts s) m in
      Some (timestamp, Some rpc_stats, set_session handle
        (Session (create_ts s) (forward_start_ts s) (forward_end_ts s) (wait_end_ts s) (origin_stats s)
           (handler_start_ts s) timestamp (respond_start_ts s) (respond_end_ts s) (target_stats s)) m)
  | FN_END => Some (uctx, key, update_target rpc_stats ult DURATION (timestamp - uctx) m)
  end.

Definition on_destroy (ev : margo_monitor_event) (handle : Z) (m : default_monitor_state) : option default_monitor_state :=
  if negb (enable_statistics m) then Some m else
  match ev with
  | FN_END => Some m
  | FN_START => release_session (margo_get_monitoring_data handle m) m
  end.

(** ** Bulk operations *)

(** Without a call path in the ULT. *)
Definition default_key : callpath :=
  Callpath (mux_id 0 MARGO_DEFAULT_PROVIDER_ID) (mux_id 0 MARGO_DEFAULT_PROVIDER_ID) 0.

Definition on_bulk_create (timestamp : Q) (ev : margo_monitor_event) (sizes : list Z) (key : option callpath) (uctx : Q)
  (m : default_monitor_state) : Q * default_monitor_state :=
  if negb (enable_statistics m) then (uctx, m) else
  match ev with
  | FN_START => (timestamp, m)
  | FN_END =>
      let pkey := default default_key key in
      let l := find_or_add pkey (BulkCreate zero_statistics zero_statistics) (bulk_create_stats (tbl m)) in
      let t := (timestamp - uctx)%Q in
      let total_size := foldl (fun n s => u64 (n + s)) 0 sizes in
      (uctx, with_tbl (with_create (update pkey (fun s =>
         BulkCreate (UPDATE_STATISTICS_WITH (duration s) t) (UPDATE_STATISTICS_WITH (size s) (inject_Z total_size))) l) (tbl m)) m)
  end.

(** [new] is the bulk session [mochi_arena_get] returns. *)
Definition on_bulk_transfer (timestamp : Q) (ev : margo_monitor_event) (request new : Z) (op : hg_bulk_op) (origin_addr : option string)
  (bytes : Z) (key : option callpath) (uctx : Q) (m : default_monitor_state) : option (Q * default_monitor_state) :=
  if negb (enable_statistics m || enable_time_series m) then Some (uctx, m) else
  match ev with
  | FN_START =>
      let '(addr_id, m) := addr_info_find_or_add origin_addr m in
      let bulk_key := BulkKey (default default_key key) addr_id op in
      let '(uctx, m) :=
        if enable_statistics m then
          let l := find_or_add bulk_key (BulkTransfer zero_statistics zero_statistics zero_pairs) (bulk_transfer_stats (tbl m)) in
          let m := with_tbl (with_transfer l (tbl m)) m in
          (timestamp, with_car (with_request_data (<[request := new]> (request_data (car m)))
            (with_bulk_sessions (<[new := BulkSession timestamp 0 (Some bulk_key)]> (bulk_sessions (car m))) (car m))) m)
        else (uctx, m) in
      Some (uctx, if enable_time_series m then update_series (rpc_id (bk_callpath bulk_key)) (count_bulk bytes) m else m)
  | FN_END =>
      if enable_statistics m then
        s ← RETRIEVE_BULK_SESSION request m;
        bulk_stats ← transfer_stats s;
        let t := (timestamp - uctx)%Q in
        let m := with_tbl (with_transfer (update bulk_stats (fun s =>
          BulkTransfer (UPDATE_STATISTICS_WITH (transfer s) t) (UPDATE_STATISTICS_WITH (transfer_size s) (inject_Z bytes)) (transfer_pairs s))
          (bulk_transfer_stats (tbl m))) (tbl m)) m in
        Some (uctx, with_car (with_bulk_sessions (<[margo_request_get_monitoring_data request m :=
          BulkSession (transfer_start_ts s) timestamp (transfer_stats s)]> (bulk_sessions (car m))) (car m)) m)
      else Some (uctx, m)
  end.

Definition on_bulk_transfer_cb (timestamp : Q) (ev : margo_monitor_event) (request : Z) (uctx : Q) (m : default_monitor_state) :
  option (Q * default_monitor_state) :=
  if negb (enable_statistics m) then Some (uctx, m) else
  s ← RETRIEVE_BULK_SESSION request m;
  bulk_stats ← transfer_stats s;
  match ev with
  | FN_START => Some (timestamp, update_transfer bulk_stats transfer_cb TIMESTAMP (timestamp - transfer_start_ts s) m)
  | FN_END => Some (uctx, update_transfer bulk_stats transfer_cb DURATION (timestamp - uctx) m)
  end.

(** ** Pools *)

Definition with_pool_series (h : heap) (sizes totals : list time_series) (m : default_monitor_state) : default_monitor_state :=
  with_ser (SeriesState h (rpc_series (ser m)) (rpc_time_series_last_ts (ser m)) sizes totals) m.

(** [n] is the number of pools of the instance. *)
Definition on_add_pool (ev : margo_monitor_event) (n : nat) (m : default_monitor_state) : option default_monitor_state :=
  if negb (enable_time_series m) then Some m else
  match ev with
  | FN_END => Some m
  | FN_START =>
      sizes ← add_pool_series n (pool_size_time_series (ser m));
      totals ← add_pool_series n (pool_total_size_time_series (ser m));
      Some (with_pool_series (frames (ser m)) sizes totals m)
  end.

Definition on_remove_pool (ev : margo_monitor_event) (ret : hg_return_t) (n index : nat) (m : default_monitor_state) : option default_monitor_state :=
  match ev with
  | FN_START => Some m
  | FN_END =>
      if negb (is_success ret) then Some m else
      if negb (enable_time_series m) then Some m else
      '(sizes, h) ← remove_pool_series n index (pool_size_time_series (ser m)) (frames (ser m));
      '(totals, h) ← remove_pool_series n index (pool_total_size_time_series (ser m)) h;
      Some (with_pool_series h sizes totals m)
  end.
