(* ===== verification/MonitorCalls.v ===== *)
(** * Calls under the default monitor

    The callbacks of Monitor.v composed: the events of RPCs and bulk transfers
    as the runtime raises them, from any ULTs in any order.  What a complete call
    adds to the statistics, which samples a run adds, and what is sampled of the
    progress loop. *)

From Stdlib Require Import QArith.
From stdpp Require Import strings.
From S2P Require Import Prelude Utlist Id Timer Handler Stats Monitor.

#[local] Open Scope Z_scope.

(** ** Events *)

Inductive event :=
  | ev_trigger (actual_count : Z)
  | ev_create (handle new : Z)
  | ev_forward (handle provider_id : Z) (handle_info : option (Z * option string)) (key_get : Z * Z)
  | ev_set_input (request : margo_request)
  | ev_get_output (handle : Z)
  | ev_forward_cb (request : margo_request)
  | ev_set_output (request : margo_request)
  | ev_get_input (handle : Z)
  | ev_respond (request : margo_request)
  | ev_respond_cb (request : margo_request)
  | ev_wait (request : margo_request)
  | ev_rpc_handler (handle new parent_rpc_id : Z) (handle_info : option (Z * option string))
  | ev_rpc_ult (handle : Z)
  | ev_destroy (handle : Z)
  | ev_bulk_create (sizes : list Z)
  | ev_bulk_transfer (request new : Z) (op : hg_bulk_op) (origin_addr : option string) (bytes : Z)
  | ev_bulk_transfer_cb (request : Z).

(** One call of a callback: the ULT, and the address of the arguments, which the
    two calls of an event share. *)
Record call := Call { at_ts : Q; side : margo_monitor_event; ult_id : Z; args : Z; what : event }.

Record system := System { mon : default_monitor_state; uctxs : gmap Z Q; keys : gmap Z callpath }.

Definition dispatch (c : call) (uctx : Q) (key : option callpath) (m : default_monitor_state) : option (Q * option callpath * default_monitor_state) :=
  let t := at_ts c in
  let ev := side c in
  let keep r := '(u, m) ← r; Some (u, key, m) : option (Q * option callpath * default_monitor_state) in
  match what c with
  | ev_trigger n => keep (Some (on_trigger t ev n uctx m))
  | ev_create h new => keep (Some (on_create t ev h new uctx m))
  | ev_forward h p info k => keep (on_forward t ev h p info k uctx m)
  | ev_set_input r => keep (on_set_input t ev r uctx m)
  | ev_get_output h => keep (on_get_output t ev h uctx m)
  | ev_forward_cb r => keep (on_forward_cb t ev r uctx m)
  | ev_set_output r => keep (on_set_output t ev r uctx m)
  | ev_get_input h => keep (on_get_input t ev h uctx m)
  | ev_respond r => keep (on_respond t ev r uctx m)
  | ev_respond_cb r => keep (on_respond_cb t ev r uctx m)
  | ev_wait r => keep (on_wait t ev r uctx m)
  | ev_rpc_handler h new parent info => keep (on_rpc_handler t ev h new parent info uctx m)
  | ev_rpc_ult h => on_rpc_ult t ev h key uctx m
  | ev_destroy h => keep (m ← on_destroy ev h m; Some (uctx, m))
  | ev_bulk_create sizes => keep (Some (on_bulk_create t ev sizes key uctx m))
  | ev_bulk_transfer r new op addr n => keep (on_bulk_transfer t ev r new op addr n key uctx m)
  | ev_bulk_transfer_cb r => keep (on_bulk_transfer_cb t ev r uctx m)
  end.

Definition __MARGO_MONITOR (c : call) (s : system) : option system :=
  '(u, key, m) ← dispatch c (default 0%Q (uctxs s !! args c)) (keys s !! ult_id c) (mon s);
  Some (System m (<[args c := u]> (uctxs s)) (match key with Some k => <[ult_id c := k]> (keys s) | None => keys s end)).

Fixpoint run (l : list call) (s : system) : option system :=
  match l with [] => Some s | c :: l => s ← __MARGO_MONITOR c s; run l s end.

(** ** Tables *)

Section Tables.
Context {K V : Type} `{EqDecision K}.

Lemma find_update (c k : K) (f : V -> V) l : HASH_FIND c (update k f l) = (if decide (c = k) then f <$> HASH_FIND c l else HASH_FIND c l).
Proof.
  induction l as [|[k' v] l IH]; simpl; [by case_decide|]. destruct (decide (k' = k)) as [->|Hk]; simpl.
  - destruct (decide (k = c)) as [->|]; [by rewrite decide_True|]. by rewrite IH.
  - destruct (decide (k' = c)) as [->|]; [by rewrite decide_False|]. by rewrite IH.
Qed.

Lemma find_app (c : K) (l1 l2 : list (K * V)) : HASH_FIND c (l1 ++ l2) = (match HASH_FIND c l1 with Some v => Some v | None => HASH_FIND c l2 end).
Proof. induction l1 as [|[k v] l1 IH]; simpl; [done|]. by case_decide. Qed.

Lemma find_find_or_add (c k : K) (v : V) l : HASH_FIND c (find_or_add k v l) =
  (match HASH_FIND c l with Some w => Some w | None => if decide (c = k) then Some v else None end).
Proof.
  unfold find_or_add. destruct (HASH_FIND k l) as [w|] eqn:Hk.
  - destruct (HASH_FIND c l) eqn:Hc; [done|]. case_decide; [congruence|done].
  - rewrite find_app. simpl. destruct (HASH_FIND c l); [done|]. repeat case_decide; congruence.
Qed.

Lemma update_keys (k : K) (f : V -> V) l : (update k f l).*1 = l.*1.
Proof. induction l as [|[k' v] l IH]; [done|]. simpl. f_equal; [by case_decide|exact IH]. Qed.

Lemma find_is_Some (c : K) (l : list (K * V)) : is_Some (HASH_FIND c l) <-> c ∈ l.*1.
Proof.
  induction l as [|[k v] l IH]; simpl; [split; [by intros []|set_solver]|].
  destruct (decide (k = c)) as [->|Hk]; [set_solver|]. rewrite IH. set_solver.
Qed.

Lemma find_or_add_keys (k : K) (v : V) l : NoDup l.*1 -> NoDup (find_or_add k v l).*1.
Proof.
  intros Hl. unfold find_or_add. destruct (HASH_FIND k l) eqn:Hk; [done|]. rewrite fmap_app. apply NoDup_app. split_and!; [done| |apply NoDup_singleton].
  intros c Hc Hc'. apply list_elem_of_singleton in Hc'. subst c. apply (find_is_Some k l) in Hc. rewrite Hk in Hc. by destruct Hc.
Qed.
End Tables.

(** The statistics of a call path, zero when it has no entry. *)
Definition origin_stat (m : default_monitor_state) (c : callpath) : origin_rpc_statistics :=
  default zero_pairs (HASH_FIND c (origin_rpc_stats (tbl m))).
Definition target_stat (m : default_monitor_state) (c : callpath) : target_rpc_statistics :=
  default (Target zero_statistics zero_pairs) (HASH_FIND c (target_rpc_stats (tbl m))).
Definition transfer_stat (m : default_monitor_state) (b : bulk_key) : bulk_transfer_statistics :=
  default (BulkTransfer zero_statistics zero_statistics zero_pairs) (HASH_FIND b (bulk_transfer_stats (tbl m))).

(** ** Steps *)

(** A call that leaves the key of its ULT alone. *)
Lemma run_step c l s u m' : dispatch c (default 0%Q (uctxs s !! args c)) (keys s !! ult_id c) (mon s) = Some (u, keys s !! ult_id c, m') ->
  run (c :: l) s = run l (System m' (<[args c := u]> (uctxs s)) (keys s)).
Proof.
  intros Hd. simpl. unfold __MARGO_MONITOR. rewrite Hd. simpl. destruct (keys s !! ult_id c) eqn:Hk; [|done]. rewrite (insert_id (keys s)); [done|exact Hk].
Qed.

(** The state with a session and a table for the origin of RPCs. *)
Definition origin_state (sess : Z) (s : session) (l : list (callpath * origin_rpc_statistics)) (m : default_monitor_state) : default_monitor_state :=
  with_car (with_sessions (<[sess := s]> (sessions (car m))) (car m)) (with_tbl (with_origin l (tbl m)) m).

Lemma origin_retrieve h sess s l m : handle_data (car m) !! h = Some sess -> RETRIEVE_SESSION h (origin_state sess s l m) = Some s.
Proof. intros Hh. unfold RETRIEVE_SESSION, margo_get_monitoring_data. simpl. by rewrite Hh, lookup_insert_eq. Qed.

Lemma origin_set h sess s s' l m : handle_data (car m) !! h = Some sess -> set_session h s' (origin_state sess s l m) = origin_state sess s' l m.
Proof.
  intros Hh. unfold set_session, margo_get_monitoring_data, origin_state, with_car, with_sessions. simpl. rewrite Hh. simpl. by rewrite insert_insert_eq.
Qed.

Lemma origin_sample sess s l m c f k v : update_origin c f k v (origin_state sess s l m) = origin_state sess s (update c (set_pair f k v) l) m.
Proof. done. Qed.

Lemma addr_info_state addr sess s l m :
  addr_info_find_or_add addr (origin_state sess s l m) =
  ((addr_info_find_or_add addr m).1, origin_state sess s l (addr_info_find_or_add addr m).2).
Proof. unfold addr_info_find_or_add. simpl. by destruct (HASH_FIND _ _). Qed.

Lemma addr_info_fields addr m : let m' := (addr_info_find_or_add addr m).2 in
  enable_statistics m' = enable_statistics m /\ car m' = car m /\ tbl m' = tbl m /\ ser m' = ser m.
Proof. unfold addr_info_find_or_add. by destruct (HASH_FIND _ _). Qed.

Lemma addr_info_id addr m m' : nam m = nam m' -> (addr_info_find_or_add addr m).1 = (addr_info_find_or_add addr m').1.
Proof. intros Hn. unfold addr_info_find_or_add. rewrite Hn. by destruct (HASH_FIND _ _). Qed.

Lemma create_state ts u h sess m : enable_statistics m = true ->
  on_create ts FN_END h sess u m =
  (u, origin_state sess (Session ts 0 0 0 None 0 0 0 0 None) (origin_rpc_stats (tbl m)) (with_car (with_handle_data (<[h := sess]> (handle_data (car m))) (car m)) m)).
Proof. intros He. unfold on_create. rewrite He. by destruct m as [? ? ? ? ? [] ? [] ?]. Qed.

Section Origin.
Context (h sess : Z) (m : default_monitor_state) (He : enable_statistics m = true) (Hh : handle_data (car m) !! h = Some sess).

Ltac callback :=
  match goal with |- context [origin_state sess ?s ?l ?m'] => change (enable_statistics (origin_state sess s l m')) with (enable_statistics m') end;
  rewrite ?He; cbn [negb];
  repeat match goal with H : req_handle _ = h |- _ => rewrite H end.

Lemma forward_start_state ts u p id addr kg s l :
  let key := Callpath (mux_id id p) (margo_get_current_rpc_id kg).2 (addr_info_find_or_add addr m).1 in
  on_forward ts FN_START h p (Some (id, addr)) kg u (origin_state sess s l m) =
  Some (ts, origin_state sess
    (Session (create_ts s) ts (forward_end_ts s) (wait_end_ts s) (Some key)
       (handler_start_ts s) (ult_start_ts s) (respond_start_ts s) (respond_end_ts s) (target_stats s))
    (update key (set_pair forward TIMESTAMP (ts - create_ts s)%Q) (find_or_add key zero_pairs l)) (addr_info_find_or_add addr m).2).
Proof.
  intros key. unfold on_forward. callback. rewrite addr_info_state. fold key. destruct (addr_info_fields addr m) as (_ & Hc & _ & _).
  match goal with |- context [RETRIEVE_SESSION h ?x] => change x with (origin_state sess s (find_or_add key zero_pairs l) (addr_info_find_or_add addr m).2) end.
  rewrite origin_retrieve by (by rewrite Hc). cbn [mbind option_bind]. rewrite origin_sample, origin_set by (by rewrite Hc). done.
Qed.

Lemma forward_end_state ts u p info kg s l c : origin_stats s = Some c ->
  on_forward ts FN_END h p (Some info) kg u (origin_state sess s l m) =
  Some (u, origin_state sess
    (Session (create_ts s) (forward_start_ts s) ts (wait_end_ts s) (Some c)
       (handler_start_ts s) (ult_start_ts s) (respond_start_ts s) (respond_end_ts s) (target_stats s))
    (update c (set_pair forward DURATION (ts - u)%Q) l) m).
Proof.
  intros Ho. unfold on_forward. callback. destruct info. rewrite origin_retrieve by done. simpl. rewrite Ho. simpl.
  rewrite origin_sample, origin_set by done. done.
Qed.

(** The callbacks that only add a sample. *)
Lemma set_input_state ts ev rq u s l c : req_handle rq = h -> origin_stats s = Some c ->
  on_set_input ts ev rq u (origin_state sess s l m) =
  match ev with
  | FN_START => Some (ts, origin_state sess s (update c (set_pair set_input TIMESTAMP (ts - forward_start_ts s)%Q) l) m)
  | FN_END => Some (u, origin_state sess s (update c (set_pair set_input DURATION (ts - u)%Q) l) m)
  end.
Proof. intros Hr Ho. unfold on_set_input. callback. rewrite origin_retrieve by done. simpl. rewrite Ho. by destruct ev. Qed.

Lemma forward_cb_state ts ev rq u s l c : req_handle rq = h -> origin_stats s = Some c ->
  on_forward_cb ts ev rq u (origin_state sess s l m) =
  match ev with
  | FN_START => Some (ts, origin_state sess s (update c (set_pair forward_cb TIMESTAMP (ts - forward_start_ts s)%Q) l) m)
  | FN_END => Some (u, origin_state sess s (update c (set_pair forward_cb DURATION (ts - u)%Q) l) m)
  end.
Proof. intros Hr Ho. unfold on_forward_cb. callback. rewrite origin_retrieve by done. simpl. rewrite Ho. by destruct ev. Qed.

Lemma get_output_state ts ev u s l c : origin_stats s = Some c ->
  on_get_output ts ev h u (origin_state sess s l m) =
  match ev with
  | FN_START => Some (ts, origin_state sess s (update c (set_pair get_output TIMESTAMP (ts - wait_end_ts s)%Q) l) m)
  | FN_END => Some (u, origin_state sess s (update c (set_pair get_output DURATION (ts - u)%Q) l) m)
  end.
Proof. intros Ho. unfold on_get_output. callback. rewrite origin_retrieve by done. simpl. rewrite Ho. by destruct ev. Qed.

Lemma wait_state ts ev rq u s l c : req_handle rq = h -> req_type rq = MARGO_FORWARD_REQUEST -> origin_stats s = Some c ->
  on_wait ts ev rq u (origin_state sess s l m) =
  match ev with
  | FN_START => Some (ts, origin_state sess s (update c (set_pair wait TIMESTAMP (ts - forward_end_ts s)%Q) l) m)
  | FN_END => Some (u, origin_state sess
      (Session (create_ts s) (forward_start_ts s) (forward_end_ts s) ts (Some c)
         (handler_start_ts s) (ult_start_ts s) (respond_start_ts s) (respond_end_ts s) (target_stats s))
      (update c (set_pair wait DURATION (ts - u)%Q) l) m)
  end.
Proof.
  intros Hr Ht Ho. unfold on_wait. callback. rewrite Ht, origin_retrieve by done. simpl. rewrite Ho. simpl. destruct ev; [done|].
  by rewrite origin_set.
Qed.

Lemma destroy_state s l : sess ≠ 0 -> sessions (car m) !! sess = None ->
  on_destroy FN_START h (origin_state sess s l m) = Some (with_tbl (with_origin l (tbl m)) m).
Proof.
  intros Hs Hf. unfold on_destroy. callback. unfold release_session, margo_get_monitoring_data. simpl. rewrite Hh. simpl.
  destruct (Z.eqb_spec sess 0); [done|]. rewrite lookup_insert_eq. simpl. unfold with_car, with_sessions. simpl.
  rewrite delete_insert_id by done. by destruct m as [? ? ? ? ? ? ? [] ?].
Qed.
End Origin.

(** ** A call at its origin *)

Section Client.
Context (u a b : Z) (h sess : Z) (r : margo_request) (provider_id id : Z) (addr : option string) (key_get : Z * Z).
(** The dates of the fourteen calls. *)
Context (t : nat -> Q).

Definition create_forward : list call :=
  [Call (t 0) FN_START u a (ev_create h sess); Call (t 1) FN_END u a (ev_create h sess);
   Call (t 2) FN_START u a (ev_forward h provider_id (Some (id, addr)) key_get);
   Call (t 3) FN_START u b (ev_set_input r); Call (t 4) FN_END u b (ev_set_input r);
   Call (t 5) FN_END u a (ev_forward h provider_id (Some (id, addr)) key_get)].

(** The callback runs in the progress loop [p], with its arguments at [d]. *)
Definition complete_wait (p d : Z) : list call :=
  [Call (t 6) FN_START u a (ev_wait r);
   Call (t 7) FN_START p d (ev_forward_cb r); Call (t 8) FN_END p d (ev_forward_cb r);
   Call (t 9) FN_END u a (ev_wait r);
   Call (t 10) FN_START u a (ev_get_output h); Call (t 11) FN_END u a (ev_get_output h);
   Call (t 12) FN_START u a (ev_destroy h); Call (t 13) FN_END u a (ev_destroy h)].

Definition client_key (m : default_monitor_state) : callpath :=
  Callpath (mux_id id provider_id) (margo_get_current_rpc_id key_get).2 (addr_info_find_or_add addr m).1.

(** The one sample of each statistic. *)
Definition client_sample (f : origin_field) (k : kind) : Q :=
  match f, k with
  | forward, TIMESTAMP => t 2 - t 1
  | forward, DURATION => t 5 - t 2
  | set_input, TIMESTAMP => t 3 - t 2
  | set_input, DURATION => t 4 - t 3
  | wait, TIMESTAMP => t 6 - t 5
  | wait, DURATION => t 9 - t 6
  | forward_cb, TIMESTAMP => t 7 - t 2
  | forward_cb, DURATION => t 8 - t 7
  | get_output, TIMESTAMP => t 10 - t 9
  | get_output, DURATION => t 11 - t 10
  end.
End Client.


(** Samples added to the entry of a call path. *)
Definition sample_entry (l : list (origin_field * kind * Q)) (p : origin_rpc_statistics) : origin_rpc_statistics :=
  foldl (fun p x => set_pair x.1.1 x.1.2 x.2 p) p l.
Definition add_samples (key : callpath) (l : list (origin_field * kind * Q)) (t : list (callpath * origin_rpc_statistics)) :
  list (callpath * origin_rpc_statistics) :=
  foldl (fun (t : list (callpath * origin_rpc_statistics)) x => update key (set_pair x.1.1 x.1.2 x.2) t) t l.

Lemma find_add_samples key c l t : HASH_FIND c (add_samples key l t) =
  (if decide (c = key) then sample_entry l <$> HASH_FIND c t else HASH_FIND c t).
Proof.
  revert t. induction l as [|x l IH]; intros t.
  - change (add_samples key [] t) with t. case_decide; [|done].  by destruct (HASH_FIND c t).
  - change (add_samples key (x :: l) t) with (add_samples key l (update key (set_pair x.1.1 x.1.2 x.2) t)). rewrite IH, find_update.
    case_decide; [|done]. by destruct (HASH_FIND c t).
Qed.

Definition client_samples (t : nat -> Q) : list (origin_field * kind * Q) :=
  map (fun x => (x, client_sample t x.1 x.2)) [(forward, TIMESTAMP); (set_input, TIMESTAMP); (set_input, DURATION); (forward, DURATION);
    (wait, TIMESTAMP); (forward_cb, TIMESTAMP); (forward_cb, DURATION); (wait, DURATION); (get_output, TIMESTAMP); (get_output, DURATION)].

Definition forwarding_samples (t : nat -> Q) : list (origin_field * kind * Q) := take 4 (client_samples t).
Definition completion_samples (t : nat -> Q) : list (origin_field * kind * Q) := drop 4 (client_samples t).

Ltac step_by tac :=
  erewrite run_step; [|cbn [what dispatch at_ts side args ult_id mon uctxs keys]; rewrite ?lookup_insert_eq; tac; reflexivity];
  cbn [create_ts forward_start_ts forward_end_ts wait_end_ts origin_stats handler_start_ts ult_start_ts respond_start_ts respond_end_ts target_stats].

(** After [create_forward]. *)
Definition forwarded (sess : Z) (c : callpath) (l : list (callpath * origin_rpc_statistics)) (t : nat -> Q) (m : default_monitor_state) :=
  origin_state sess (Session (t 1%nat) (t 2%nat) (t 5%nat) 0 (Some c) 0 0 0 0 None)
    (add_samples c (forwarding_samples t) (find_or_add c zero_pairs l)) m.

Lemma create_forward_run u a b h sess r p id addr kg t l s m1 :
  enable_statistics (mon s) = true -> req_handle r = h -> a ≠ b ->
  m1 = with_car (with_handle_data (<[h := sess]> (handle_data (car (mon s)))) (car (mon s))) (mon s) ->
  exists uc, run (create_forward u a b h sess r p id addr kg t ++ l) s =
    run l (System (forwarded sess (client_key p id addr kg m1) (origin_rpc_stats (tbl (mon s))) t (addr_info_find_or_add addr m1).2) uc (keys s)).
Proof.
  intros He Hr Hab Hm1. destruct s as [m uc ks]. cbn [mon keys] in *.
  set (m2 := (addr_info_find_or_add addr m1).2). destruct (addr_info_fields addr m1) as (He2 & Hc2 & _). fold m2 in He2, Hc2.
  assert (handle_data (car m1) !! h = Some sess) as Hh1 by (subst m1; simpl; by rewrite lookup_insert_eq).
  assert (enable_statistics m1 = true) as He1 by (by subst m1).
  assert (handle_data (car m2) !! h = Some sess) as Hh2 by (by rewrite Hc2).
  assert (enable_statistics m2 = true) as He2' by (by rewrite He2).
  unfold create_forward. cbn [app].
  step_by ltac:(unfold on_create; rewrite He).
  step_by ltac:(rewrite create_state by done). rewrite <- Hm1.
  step_by ltac:(rewrite (forward_start_state h sess m1) by done). fold m2.
  step_by ltac:(erewrite (set_input_state h sess m2) by first [eassumption|reflexivity]).
  step_by ltac:(erewrite (set_input_state h sess m2) by first [eassumption|reflexivity]).
  step_by ltac:(rewrite lookup_insert_ne, lookup_insert_ne, lookup_insert_eq by done; erewrite (forward_end_state h sess m2) by first [eassumption|reflexivity]).
  eexists. reflexivity.
Qed.

Lemma complete_wait_run u a h r t p d sess m c l0 uc ks : enable_statistics m = true -> handle_data (car m) !! h = Some sess ->
  req_handle r = h -> req_type r = MARGO_FORWARD_REQUEST -> a ≠ d -> sess ≠ 0 -> sessions (car m) !! sess = None ->
  exists uc', run (complete_wait u a h r t p d) (System (forwarded sess c l0 t m) uc ks) =
    Some (System (with_tbl (with_origin (add_samples c (client_samples t) (find_or_add c zero_pairs l0)) (tbl m)) m) uc' ks).
Proof.
  intros He Hh Hr Ht Had Hs Hf. unfold complete_wait, forwarded.
  step_by ltac:(erewrite (wait_state h sess m) by first [eassumption|reflexivity]).
  step_by ltac:(erewrite (forward_cb_state h sess m) by first [eassumption|reflexivity]).
  step_by ltac:(erewrite (forward_cb_state h sess m) by first [eassumption|reflexivity]).
  step_by ltac:(rewrite lookup_insert_ne, lookup_insert_ne, lookup_insert_eq by done; erewrite (wait_state h sess m) by first [eassumption|reflexivity]).
  step_by ltac:(erewrite (get_output_state h sess m) by first [eassumption|reflexivity]).
  step_by ltac:(erewrite (get_output_state h sess m) by first [eassumption|reflexivity]).
  step_by ltac:(rewrite (destroy_state h sess m) by done).
  step_by ltac:(unfold on_destroy; cbn [enable_statistics with_tbl]; rewrite He).
  eexists. reflexivity.
Qed.

(** C32: A complete call at its origin (create, forward, its input being encoded in
    it, completion in the progress loop while the caller waits, reading of the
    output, destruction of the handle) adds exactly one sample to each of the ten
    statistics of its call path, the one of [client_sample]: the durations of the
    operations and their dates relative to the operations they follow; no other
    statistic changes, and the session is released. *)
Theorem client_call_recorded u a b p d h sess r provider_id id addr key_get t s :
  enable_statistics (mon s) = true -> req_type r = MARGO_FORWARD_REQUEST -> req_handle r = h ->
  a ≠ b -> a ≠ d -> sess ≠ 0 -> sessions (car (mon s)) !! sess = None ->
  exists s', run (create_forward u a b h sess r provider_id id addr key_get t ++ complete_wait u a h r t p d) s = Some s' /\
    (forall c f k, origin_stat (mon s') c f k =
       if decide (c = client_key provider_id id addr key_get (mon s)) then UPDATE_STATISTICS_WITH (origin_stat (mon s) c f k) (client_sample t f k)
       else origin_stat (mon s) c f k) /\
    sessions (car (mon s')) = sessions (car (mon s)) /\ keys s' = keys s /\
    with_origin [] (tbl (mon s')) = with_origin [] (tbl (mon s)).
Proof.
  intros He Ht Hr Hab Had Hs Hfree.
  edestruct (create_forward_run u a b h sess r provider_id id addr key_get t (complete_wait u a h r t p d) s _ He Hr Hab eq_refl) as [uc ->].
  match goal with |- context [(addr_info_find_or_add addr ?x).2] => set (m1 := x) end.
  destruct (addr_info_fields addr m1) as (He2 & Hc2 & Ht2 & _).
  edestruct (complete_wait_run u a h r t p d sess (addr_info_find_or_add addr m1).2) as [uc' ->]; try done; [by rewrite He2|by rewrite Hc2; subst m1; simpl; rewrite lookup_insert_eq|by rewrite Hc2|].
  eexists. split; [reflexivity|]. cbn [mon keys]. split_and!; [|by cbn [car with_tbl]; rewrite Hc2|done|cbn [tbl with_tbl]; by rewrite Ht2].
  intros c f k. unfold origin_stat. cbn [tbl with_tbl origin_rpc_stats with_origin]. rewrite find_add_samples, find_find_or_add.
  assert (client_key provider_id id addr key_get m1 = client_key provider_id id addr key_get (mon s)) as ->.
  { unfold client_key. by rewrite (addr_info_id addr m1 (mon s)). }
  case_decide; [|by destruct (HASH_FIND c _)]. destruct (HASH_FIND c _), f, k; reflexivity.
Qed.

(** ** Samples are neither lost nor doubled *)

(** The statistic of the origin, and of the target, an event adds a sample to. *)
Definition side_kind (ev : margo_monitor_event) : kind := match ev with FN_START => TIMESTAMP | FN_END => DURATION end.
Definition origin_sampled (ev : margo_monitor_event) (e : event) : option (origin_field * kind) :=
  match e with
  | ev_forward _ _ (Some _) _ => Some (forward, side_kind ev)
  | ev_set_input _ => Some (set_input, side_kind ev)
  | ev_get_output _ => Some (get_output, side_kind ev)
  | ev_forward_cb _ => Some (forward_cb, side_kind ev)
  | ev_wait r => match req_type r with MARGO_FORWARD_REQUEST => Some (wait, side_kind ev) | _ => None end
  | _ => None
  end.
Definition target_sampled (ev : margo_monitor_event) (e : event) : option (target_field * kind) :=
  match e with
  | ev_set_output _ => Some (set_output, side_kind ev)
  | ev_get_input _ => Some (get_input, side_kind ev)
  | ev_respond _ => Some (respond, side_kind ev)
  | ev_respond_cb _ => Some (respond_cb, side_kind ev)
  | ev_rpc_ult _ => Some (ult, side_kind ev)
  | ev_wait r => match req_type r with MARGO_RESPONSE_REQUEST => Some (target_wait, side_kind ev) | _ => None end
  | _ => None
  end.

(** The samples of a statistic, over the call paths. *)
Definition tally {V} (g : V -> Z) (l : list (callpath * V)) : Z := foldr (fun e n => g e.2 + n) 0 l.
Definition origin_total (f : origin_field) (k : kind) (m : default_monitor_state) : Z :=
  tally (fun p => num (p f k)) (origin_rpc_stats (tbl m)).
Definition target_total (f : target_field) (k : kind) (m : default_monitor_state) : Z :=
  tally (fun p => num (target_pairs p f k)) (target_rpc_stats (tbl m)).

Definition events_of {F} `{EqDecision F} (sampled : margo_monitor_event -> event -> option (F * kind)) (f : F) (k : kind) (l : list call) : Z :=
  Z.of_nat (length (filter (fun c => sampled (side c) (what c) = Some (f, k)) l)).

Definition refers {V} (o : option callpath) (l : list (callpath * V)) : Prop := forall c, o = Some c -> c ∈ l.*1.

(** Statistics are enabled, each call path has one entry, and sessions refer to
    entries. *)
Record monitor_wf (m : default_monitor_state) : Prop := {
  wf_enabled : enable_statistics m = true;
  wf_origin : NoDup (origin_rpc_stats (tbl m)).*1;
  wf_target : NoDup (target_rpc_stats (tbl m)).*1;
  wf_sessions : forall a s, sessions (car m) !! a = Some s ->
    refers (origin_stats s) (origin_rpc_stats (tbl m)) /\ refers (target_stats s) (target_rpc_stats (tbl m))
}.

Definition hits {F} `{EqDecision F} (o : option (F * kind)) (f : F) (k : kind) : Z := if decide (o = Some (f, k)) then 1 else 0.

(** What a callback does to the tables and the sessions. *)
Definition adds (o : option (origin_field * kind)) (g : option (target_field * kind)) (m m' : default_monitor_state) : Prop :=
  monitor_wf m -> monitor_wf m' /\
  (forall f k, u64 (origin_total f k m') = u64 (origin_total f k m + hits o f k)) /\
  (forall f k, u64 (target_total f k m') = u64 (target_total f k m + hits g f k)).

Lemma hits_none {F} `{EqDecision F} (f : F) k : hits None f k = 0.
Proof. done. Qed.

Lemma u64_add a b c : u64 a = u64 b -> u64 (a + c) = u64 (b + c).
Proof. unfold u64. intros H. rewrite Zplus_mod, H, <- Zplus_mod. done. Qed.

Lemma adds_same m m' : (enable_statistics m', origin_rpc_stats (tbl m'), target_rpc_stats (tbl m'), sessions (car m')) =
  (enable_statistics m, origin_rpc_stats (tbl m), target_rpc_stats (tbl m), sessions (car m)) -> adds None None m m'.
Proof.
  intros [= He Ho Ht Hs] [Hwe Hwo Hwt Hws]. unfold origin_total, target_total. rewrite Ho, Ht. split; [split; rewrite ?He, ?Ho, ?Ht, ?Hs; done|].
  split; intros; by rewrite hits_none, Z.add_0_r.
Qed.

Lemma adds_before o g m1 m2 m3 : adds None None m1 m2 -> adds o g m2 m3 -> adds o g m1 m3.
Proof.
  intros H1 H2 Hw. destruct (H1 Hw) as (Hw2 & Ho1 & Ht1). destruct (H2 Hw2) as (Hw3 & Ho2 & Ht2). split; [done|].
  split; intros f k; [rewrite Ho2|rewrite Ht2]; apply u64_add; [rewrite Ho1|rewrite Ht1]; by rewrite hits_none, Z.add_0_r.
Qed.

Lemma adds_after o g m1 m2 m3 : adds o g m1 m2 -> (monitor_wf m1 -> monitor_wf m2 -> adds None None m2 m3) -> adds o g m1 m3.
Proof.
  intros H1 H2 Hw. destruct (H1 Hw) as (Hw2 & Ho1 & Ht1). destruct (H2 Hw Hw2 Hw2) as (Hw3 & Ho2 & Ht2). split; [done|].
  split; intros f k; [rewrite Ho2, hits_none, Z.add_0_r|rewrite Ht2, hits_none, Z.add_0_r]; done.
Qed.

Lemma tally_update {V} (g : V -> Z) (h : V -> V) d k (l : list (callpath * V)) : NoDup l.*1 -> k ∈ l.*1 ->
  (forall v, u64 (g (h v)) = u64 (g v + d)) -> u64 (tally g (update k h l)) = u64 (tally g l + d).
Proof.
  intros Hn Hk Hd. induction l as [|[k' v] l IH]; [set_solver|]. apply NoDup_cons in Hn as [Hn1 Hn2]. simpl in *.
  destruct (decide (k' = k)) as [->|Hne]; simpl.
  - assert (update k h l = l) as ->.
    { clear -Hn1. induction l as [|[k' v'] l IH]; [done|]. simpl in *. rewrite decide_False by set_solver. f_equal. apply IH. set_solver. }
    replace (g v + tally g l + d) with (g v + d + tally g l) by lia. by apply u64_add.
  - rewrite Z.add_comm. rewrite (Z.add_comm (g v)), <- Z.add_assoc, (Z.add_comm (g v)), Z.add_assoc. apply u64_add. apply IH; [done|set_solver].
Qed.

Lemma tally_add {V} (g : V -> Z) k v (l : list (callpath * V)) : g v = 0 -> tally g (find_or_add k v l) = tally g l.
Proof.
  intros Hg. unfold find_or_add. destruct (HASH_FIND k l); [done|]. unfold tally. induction l as [|e l IH]; simpl; [lia|]. lia.
Qed.

Lemma refers_update {V} o k (h : V -> V) l : refers o l -> refers o (update k h l).
Proof. intros Hr c Hc. rewrite update_keys. by apply Hr. Qed.

Lemma keys_add {V} k (v : V) l c : c ∈ (find_or_add k v l : list (callpath * V)).*1 <-> c = k \/ c ∈ l.*1.
Proof.
  rewrite <- !find_is_Some, find_find_or_add. destruct (HASH_FIND c l); [naive_solver|]. case_decide; naive_solver.
Qed.

Lemma refers_add {V} o k (v : V) l : refers o l -> refers o (find_or_add k v l).
Proof. intros Hr c Hc. apply keys_add. right. by apply Hr. Qed.

Lemma num_update s v : u64 (num (UPDATE_STATISTICS_WITH s v)) = u64 (num s + 1).
Proof. unfold UPDATE_STATISTICS_WITH, u64. simpl. by rewrite Z.mod_mod. Qed.

Lemma num_set_pair {F} `{EqDecision F} f' k' v (p : F -> kind -> statistics) f k :
  u64 (num (set_pair f' k' v p f k)) = u64 (num (p f k) + hits (Some (f', k')) f k).
Proof.
  unfold set_pair, hits. destruct (decide (f = f' /\ k = k')) as [[-> ->]|Hn].
  - rewrite decide_True by done. apply num_update.
  - rewrite decide_False by naive_solver. by rewrite Z.add_0_r.
Qed.

Lemma adds_origin c f k v m : (monitor_wf m -> c ∈ (origin_rpc_stats (tbl m)).*1) -> adds (Some (f, k)) None m (update_origin c f k v m).
Proof.
  intros Hc Hw. specialize (Hc Hw). destruct Hw as [He Ho Ht Hs]. split; [|split].
  - split; simpl; rewrite ?update_keys; [done|done|done|]. intros a s Ha. destruct (Hs a s Ha). split; [by apply refers_update|done].
  - intros f' k'. unfold origin_total. simpl. apply tally_update; [done|done|]. intros p. apply num_set_pair.
  - intros f' k'. by rewrite hits_none, Z.add_0_r.
Qed.

Lemma adds_target c f k v m : (monitor_wf m -> c ∈ (target_rpc_stats (tbl m)).*1) -> adds None (Some (f, k)) m (update_target c f k v m).
Proof.
  intros Hc Hw. specialize (Hc Hw). destruct Hw as [He Ho Ht Hs]. split; [|split].
  - split; simpl; rewrite ?update_keys; [done|done|done|]. intros a s Ha. destruct (Hs a s Ha). split; [done|by apply refers_update].
  - intros f' k'. by rewrite hits_none, Z.add_0_r.
  - intros f' k'. unfold target_total. simpl. apply tally_update; [done|done|]. intros p. apply num_set_pair.
Qed.

Lemma adds_handler c v m : (monitor_wf m -> c ∈ (target_rpc_stats (tbl m)).*1) ->
  adds None None m (with_tbl (with_target (update c (fun x => Target (UPDATE_STATISTICS_WITH (handler x) v) (target_pairs x)) (target_rpc_stats (tbl m))) (tbl m)) m).
Proof.
  intros Hc Hw. specialize (Hc Hw). destruct Hw as [He Ho Ht Hs]. split; [|split].
  - split; simpl; rewrite ?update_keys; [done|done|done|]. intros a s Ha. destruct (Hs a s Ha). split; [done|by apply refers_update].
  - intros f' k'. by rewrite hits_none, Z.add_0_r.
  - intros f' k'. unfold target_total. simpl. apply tally_update; [done|done|]. intros p. by rewrite hits_none, Z.add_0_r.
Qed.

Lemma adds_origin_entry c m : adds None None m (with_tbl (with_origin (find_or_add c zero_pairs (origin_rpc_stats (tbl m))) (tbl m)) m).
Proof.
  intros [He Ho Ht Hs]. split; [|split].
  - split; simpl; [done|by apply find_or_add_keys|done|]. intros a s Ha. destruct (Hs a s Ha). split; [by apply refers_add|done].
  - intros f' k'. unfold origin_total. simpl. by rewrite tally_add, hits_none, Z.add_0_r.
  - intros f' k'. by rewrite hits_none, Z.add_0_r.
Qed.

Lemma adds_target_entry c m :
  adds None None m (with_tbl (with_target (find_or_add c (Target zero_statistics zero_pairs) (target_rpc_stats (tbl m))) (tbl m)) m).
Proof.
  intros [He Ho Ht Hs]. split; [|split].
  - split; simpl; [done|done|by apply find_or_add_keys|]. intros a s Ha. destruct (Hs a s Ha). split; [done|by apply refers_add].
  - intros f' k'. by rewrite hits_none, Z.add_0_r.
  - intros f' k'. unfold target_total. simpl. by rewrite tally_add, hits_none, Z.add_0_r.
Qed.

(** Changing the sessions. *)
Lemma adds_sessions m m' :
  (enable_statistics m', origin_rpc_stats (tbl m'), target_rpc_stats (tbl m')) = (enable_statistics m, origin_rpc_stats (tbl m), target_rpc_stats (tbl m)) ->
  (forall a s, sessions (car m') !! a = Some s -> sessions (car m) !! a = Some s \/
     refers (origin_stats s) (origin_rpc_stats (tbl m)) /\ refers (target_stats s) (target_rpc_stats (tbl m))) ->
  adds None None m m'.
Proof.
  intros [= He Ho Ht] Hs [Hwe Hwo Hwt Hws]. unfold origin_total, target_total. rewrite Ho, Ht. split; [split; rewrite ?He, ?Ho, ?Ht; try done|].
  - intros a s Ha. destruct (Hs a s Ha); [by apply (Hws a)|done].
  - split; intros; by rewrite hits_none, Z.add_0_r.
Qed.

Lemma session_origin h m s c : monitor_wf m -> RETRIEVE_SESSION h m = Some s -> origin_stats s = Some c -> c ∈ (origin_rpc_stats (tbl m)).*1.
Proof. intros Hw Hs Hc. by apply (wf_sessions _ Hw _ _ Hs). Qed.

Lemma session_target h m s c : monitor_wf m -> RETRIEVE_SESSION h m = Some s -> target_stats s = Some c -> c ∈ (target_rpc_stats (tbl m)).*1.
Proof. intros Hw Hs Hc. by apply (wf_sessions _ Hw _ _ Hs). Qed.

(** Writing to a session, its entries being known. *)
Lemma adds_set_session h s m : (monitor_wf m -> refers (origin_stats s) (origin_rpc_stats (tbl m)) /\ refers (target_stats s) (target_rpc_stats (tbl m))) ->
  adds None None m (set_session h s m).
Proof.
  intros Hr Hw. refine (adds_sessions m (set_session h s m) eq_refl _ Hw). intros a s'. simpl. rewrite lookup_insert_Some.
  intros [[_ <-]|[_ H]]; [right; by apply Hr|by left].
Qed.

Lemma adds_new_session a h s m : (monitor_wf m -> refers (origin_stats s) (origin_rpc_stats (tbl m)) /\ refers (target_stats s) (target_rpc_stats (tbl m))) ->
  adds None None m (new_session a h s m).
Proof.
  intros Hr Hw. refine (adds_sessions m (new_session a h s m) eq_refl _ Hw). intros a' s'. simpl. rewrite lookup_insert_Some.
  intros [[_ <-]|[_ H]]; [right; by apply Hr|by left].
Qed.

Lemma addr_adds addr m : adds None None m (addr_info_find_or_add addr m).2.
Proof. apply adds_same. destruct (addr_info_fields addr m) as (-> & -> & -> & _). done. Qed.

Ltac origin_member := eapply session_origin; eassumption.
Ltac target_member := eapply session_target; eassumption.

(** A sample through the session of a handle. *)
Ltac start He := rewrite ?He; cbn [negb orb andb].

Lemma forward_adds ts ev h p info kg u m u' m' : enable_statistics m = true -> on_forward ts ev h p info kg u m = Some (u', m') ->
  adds (match info with Some _ => Some (forward, side_kind ev) | None => None end) None m m'.
Proof.
  intros He. unfold on_forward. start He. destruct info as [[id addr]|]; [|intros [= _ <-]; by apply adds_same]. destruct ev.
  - pose proof (addr_adds addr m) as Ha. destruct (addr_info_find_or_add addr m) as [ad m1]. cbn [snd] in Ha.
    set (key := Callpath _ _ _). set (m2 := with_tbl _ m1). intros (s & Hs & [= _ <-])%bind_Some.
    eapply adds_before; [exact Ha|]. eapply adds_before; [apply (adds_origin_entry key)|]. fold m2.
    assert (key ∈ (origin_rpc_stats (tbl m2)).*1) as Hk by (apply keys_add; by left).
    eapply adds_after; [by apply adds_origin|]. intros Hw _. apply adds_set_session. intros _. simpl.
    split; [intros c [= <-]; by rewrite update_keys|]. by apply (wf_sessions _ Hw _ _ Hs).
  - intros (s & Hs & (c & Hc & [= _ <-])%bind_Some)%bind_Some.
    eapply adds_after; [apply adds_origin; intros Hw; origin_member|]. intros Hw _. apply adds_set_session. intros _. simpl.
    destruct (wf_sessions _ Hw _ _ Hs). split; [by apply refers_update|done].
Qed.

(** The callbacks that add a sample through the session of a handle. *)
Ltac sample_adds He :=
  start He; intros (s & Hs & (c & Hc & H)%bind_Some)%bind_Some;
  match type of H with context [match ?e with FN_START => _ | FN_END => _ end] => destruct e end;
  injection H as _ <-; first [apply adds_origin; intros Hw; origin_member | apply adds_target; intros Hw; target_member].

Lemma set_input_adds ts ev r u m u' m' : enable_statistics m = true -> on_set_input ts ev r u m = Some (u', m') ->
  adds (Some (set_input, side_kind ev)) None m m'.
Proof. intros He. unfold on_set_input. sample_adds He. Qed.
Lemma get_output_adds ts ev r u m u' m' : enable_statistics m = true -> on_get_output ts ev r u m = Some (u', m') ->
  adds (Some (get_output, side_kind ev)) None m m'.
Proof. intros He. unfold on_get_output. sample_adds He. Qed.
Lemma forward_cb_adds ts ev r u m u' m' : enable_statistics m = true -> on_forward_cb ts ev r u m = Some (u', m') ->
  adds (Some (forward_cb, side_kind ev)) None m m'.
Proof. intros He. unfold on_forward_cb. sample_adds He. Qed.
Lemma set_output_adds ts ev r u m u' m' : enable_statistics m = true -> on_set_output ts ev r u m = Some (u', m') ->
  adds None (Some (set_output, side_kind ev)) m m'.
Proof. intros He. unfold on_set_output. sample_adds He. Qed.
Lemma get_input_adds ts ev r u m u' m' : enable_statistics m = true -> on_get_input ts ev r u m = Some (u', m') ->
  adds None (Some (get_input, side_kind ev)) m m'.
Proof. intros He. unfold on_get_input. sample_adds He. Qed.
Lemma respond_cb_adds ts ev r u m u' m' : enable_statistics m = true -> on_respond_cb ts ev r u m = Some (u', m') ->
  adds None (Some (respond_cb, side_kind ev)) m m'.
Proof. intros He. unfold on_respond_cb. sample_adds He. Qed.

(** The same, when the session changes too. *)
Lemma target_session_adds h m s c f k v s' : RETRIEVE_SESSION h m = Some s -> target_stats s = Some c ->
  origin_stats s' = origin_stats s -> target_stats s' = target_stats s ->
  adds None (Some (f, k)) m (set_session h s' (update_target c f k v m)).
Proof.
  intros Hs Hc Ho Ht. eapply adds_after; [apply adds_target; intros Hw; target_member|]. intros Hw _.
  apply adds_set_session. intros _. rewrite Ho, Ht. destruct (wf_sessions _ Hw _ _ Hs). split; [done|by apply refers_update].
Qed.

Lemma respond_adds ts ev r u m u' m' : enable_statistics m = true -> on_respond ts ev r u m = Some (u', m') ->
  adds None (Some (respond, side_kind ev)) m m'.
Proof.
  intros He. unfold on_respond. start He. intros (s & Hs & (c & Hc & H)%bind_Some)%bind_Some.
  destruct ev; injection H as _ <-; by eapply target_session_adds.
Qed.

Lemma rpc_ult_adds ts ev h key u m u' key' m' : enable_statistics m = true -> on_rpc_ult ts ev h key u m = Some (u', key', m') ->
  adds None (Some (ult, side_kind ev)) m m'.
Proof.
  intros He. unfold on_rpc_ult. start He. intros (s & Hs & (c & Hc & H)%bind_Some)%bind_Some. destruct ev; injection H as _ _ <-.
  - by eapply target_session_adds.
  - apply adds_target. intros Hw. target_member.
Qed.

Lemma release_adds a m m' : release_session a m = Some m' -> adds None None m m'.
Proof.
  unfold release_session. destruct (a =? 0); [intros [= <-]; by apply adds_same|]. intros (s & _ & [= <-])%bind_Some.
  apply adds_sessions; [done|]. intros a' s'. simpl. rewrite lookup_delete_Some. intros [_ ?]. by left.
Qed.

Lemma release_bulk_view a m m' : release_bulk_session a m = Some m' ->
  (enable_statistics m', origin_rpc_stats (tbl m'), target_rpc_stats (tbl m'), sessions (car m')) =
  (enable_statistics m, origin_rpc_stats (tbl m), target_rpc_stats (tbl m), sessions (car m)).
Proof. unfold release_bulk_session. destruct (a =? 0); [by intros [= <-]|]. by intros (s & _ & [= <-])%bind_Some. Qed.

Lemma wait_adds ts ev r u m u' m' : enable_statistics m = true -> on_wait ts ev r u m = Some (u', m') ->
  adds (origin_sampled ev (ev_wait r)) (target_sampled ev (ev_wait r)) m m'.
Proof.
  intros He. unfold on_wait, origin_sampled, target_sampled. start He. destruct (req_type r).
  - intros (s & Hs & (c & Hc & H)%bind_Some)%bind_Some. destruct ev; injection H as _ <-; [apply adds_origin; intros Hw; origin_member|].
    match goal with |- context [set_session _ ?s' _] => assert (adds None None m (set_session (req_handle r) s' m)) as Hset end.
    { apply adds_set_session. intros Hw. by apply (wf_sessions _ Hw _ _ Hs). }
    intros Hw. apply (adds_before _ _ _ _ _ Hset); [|exact Hw]. apply adds_origin. intros _. exact (session_origin _ _ _ _ Hw Hs Hc).
  - intros (s & Hs & (c & Hc & H)%bind_Some)%bind_Some. destruct ev; injection H as _ <-; apply adds_target; intros Hw; target_member.
  - intros (s & Hs & (c & Hc & H)%bind_Some)%bind_Some. destruct ev; simpl in H.
    + injection H as _ <-. by apply adds_same.
    + apply bind_Some in H as (m1 & Hm & [= _ <-]). apply adds_same. by rewrite (release_bulk_view _ _ _ Hm).
  - intros H. destruct ev; injection H as _ <-; by apply adds_same.
Qed.

Lemma rpc_handler_adds ts ev h new parent info u m u' m' : enable_statistics m = true -> on_rpc_handler ts ev h new parent info u m = Some (u', m') ->
  adds None None m m'.
Proof.
  intros He. unfold on_rpc_handler. start He. destruct info as [[id addr]|]; [|intros [= _ <-]; by apply adds_same]. destruct ev.
  - pose proof (addr_adds addr m) as Ha. destruct (addr_info_fields addr m) as (He1 & _). destruct (addr_info_find_or_add addr m) as [ad m1]. cbn [snd] in *.
    rewrite He1, He. set (key := Callpath _ _ _). set (m2 := with_tbl _ m1).
    intros ([u1 m3] & (s & Hs & [= _ <-])%bind_Some & [= _ <-])%bind_Some.
    eapply adds_before; [exact Ha|]. eapply adds_before; [apply (adds_target_entry key)|]. fold m2.
    assert (key ∈ (target_rpc_stats (tbl m2)).*1) as Hk by (apply keys_add; by left).
    match goal with |- context [new_session ?a h ?s' m2] => assert (adds None None m2 (new_session a h s' m2)) as Hn end.
    { apply adds_new_session. intros Hw. simpl. split; [|by intros c [= <-]].
      destruct (margo_get_monitoring_data h m1 =? 0); [injection Hs as <-; by intros c|]. by apply (wf_sessions _ Hw _ _ Hs). }
    eapply adds_before; [exact Hn|]. destruct (enable_time_series _); by apply adds_same.
  - intros (s & Hs & (c & Hc & [= _ <-])%bind_Some)%bind_Some. apply adds_handler. intros Hw. target_member.
Qed.

Lemma bulk_transfer_adds ts ev r new op addr n key u m u' m' : enable_statistics m = true ->
  on_bulk_transfer ts ev r new op addr n key u m = Some (u', m') -> adds None None m m'.
Proof.
  intros He. unfold on_bulk_transfer. start He. destruct ev.
  - pose proof (addr_adds addr m) as Ha. destruct (addr_info_fields addr m) as (He1 & _). destruct (addr_info_find_or_add addr m) as [ad m1]. cbn [snd] in *.
    rewrite He1, He. intros [= _ <-]. eapply adds_before; [exact Ha|]. destruct (enable_time_series _); by apply adds_same.
  - intros (s & Hs & (c & Hc & [= _ <-])%bind_Some)%bind_Some. by apply adds_same.
Qed.

Lemma bulk_transfer_cb_adds ts ev r u m u' m' : enable_statistics m = true -> on_bulk_transfer_cb ts ev r u m = Some (u', m') -> adds None None m m'.
Proof.
  intros He. unfold on_bulk_transfer_cb. start He. intros (s & Hs & (c & Hc & H)%bind_Some)%bind_Some. destruct ev; injection H as _ <-; by apply adds_same.
Qed.

(** Every callback. *)
Lemma dispatch_adds c u key m u' key' m' : enable_statistics m = true -> dispatch c u key m = Some (u', key', m') ->
  adds (origin_sampled (side c) (what c)) (target_sampled (side c) (what c)) m m'.
Proof.
  intros He. destruct c as [ts ev ul ar e]. unfold dispatch. cbn [at_ts side what]. destruct e; cbn [origin_sampled target_sampled].
  all: try (intros ([u1 m1] & Hd & [= _ _ <-])%bind_Some).
  - injection Hd as Hd. revert Hd. unfold on_trigger. start He. destruct ev; [|destruct (_ =? 0)]; intros [= _ <-]; by apply adds_same.
  - injection Hd as Hd. revert Hd. unfold on_create. start He. destruct ev; intros [= _ <-]; [by apply adds_same|].
    apply adds_new_session. intros _. by split; intros c.
  - by eapply forward_adds in Hd; destruct handle_info.
  - by eapply set_input_adds.
  - by eapply get_output_adds.
  - by eapply forward_cb_adds.
  - by eapply set_output_adds.
  - by eapply get_input_adds.
  - by eapply respond_adds.
  - by eapply respond_cb_adds.
  - by eapply wait_adds in Hd.
  - by eapply rpc_handler_adds.
  - intros Hd. by eapply rpc_ult_adds.
  - apply bind_Some in Hd as (m2 & Hd & [= _ <-]). revert Hd. unfold on_destroy. start He. destruct ev.
    + apply release_adds.
    + intros [= <-]. by apply adds_same.
  - injection Hd as Hd. revert Hd. unfold on_bulk_create. start He. destruct ev; intros [= _ <-]; by apply adds_same.
  - by eapply bulk_transfer_adds.
  - by eapply bulk_transfer_cb_adds.
Qed.

Lemma events_cons {F} `{EqDecision F} (sampled : margo_monitor_event -> event -> option (F * kind)) f k c l :
  events_of sampled f k (c :: l) = hits (sampled (side c) (what c)) f k + events_of sampled f k l.
Proof. unfold events_of, hits. rewrite filter_cons. case_decide; simpl; lia. Qed.


(** ** Progress *)

(** One call of the progress function, its arguments in [uctx]. *)
Definition progress_call (malloc : heap -> loc) (t0 t1 : Q) (timeout_ms : Z) (pools : list (option (Z * Z))) (m : default_monitor_state) :
  option default_monitor_state :=
  '(u, m) ← on_progress malloc t0 FN_START timeout_ms pools 0%Q m;
  '(_, m) ← on_progress malloc t1 FN_END timeout_ms pools u m;
  Some m.

Fixpoint progress_calls (malloc : heap -> loc) (l : list (Q * Q * Z)) (pools : list (option (Z * Z))) (m : default_monitor_state) : option default_monitor_state :=
  match l with
  | [] => Some m
  | (t0, t1, timeout_ms) :: l => m ← progress_call malloc t0 t1 timeout_ms pools m; progress_calls malloc l pools m
  end.

Definition progress_num (m : default_monitor_state) : Z :=
  num (hg_stats (tbl m) progress_with_timeout) + num (hg_stats (tbl m) progress_without_timeout).

(** The calls left before the next sample; 0 is at a sample. *)
Definition sampling_inv (n : Z) (k : Z) (m : default_monitor_state) : Prop :=
  enable_statistics m = true /\ enable_time_series m = false /\ sample_progress_every m = n /\
  progress_sampling m = (- k) mod n /\ progress_num m = k / n /\
  0 <= num (hg_stats (tbl m) progress_with_timeout) /\ 0 <= num (hg_stats (tbl m) progress_without_timeout).

Lemma countdown n k : 0 < n -> (if (- k) mod n =? 0 then n else (- k) mod n) - 1 = (- (k + 1)) mod n.
Proof.
  intros Hn. pose proof (Z.mod_pos_bound (- k) n Hn). destruct (Z.eqb_spec ((- k) mod n) 0) as [Hz|Hz].
  - apply (Z.mod_unique_pos _ _ ((- k) / n - 1)); [lia|]. pose proof (Z.div_mod (- k) n ltac:(lia)). nia.
  - apply (Z.mod_unique_pos _ _ ((- k) / n)); [lia|]. pose proof (Z.div_mod (- k) n ltac:(lia)). nia.
Qed.

Lemma sampled_count n k : 0 < n -> (k + 1) / n = k / n + (if (- (k + 1)) mod n =? 0 then 1 else 0).
Proof.
  intros Hn. pose proof (Z.div_mod k n ltac:(lia)). pose proof (Z.mod_pos_bound k n Hn). pose proof (Z.div_mod (- (k + 1)) n ltac:(lia)).
  pose proof (Z.mod_pos_bound (- (k + 1)) n Hn). symmetry. destruct (Z.eqb_spec ((- (k + 1)) mod n) 0) as [Hz|Hz].
  - apply (Z.div_unique_pos _ _ _ 0); [lia|]. assert (k mod n = n - 1); [|nia].
    set (x := - ((- (k + 1)) / n) - k / n).
    assert (n * x = k mod n + 1) as Hx by (unfold x; nia). assert (x = 1) as Hx1 by nia. rewrite Hx1 in Hx. lia.
  - apply (Z.div_unique_pos _ _ _ (k mod n + 1)); [|lia]. assert (k mod n ≠ n - 1); [|lia]. intros Hm. apply Hz.
    symmetry. apply (Z.mod_unique_pos _ _ (- (k / n) - 1)); nia.
Qed.

Lemma progress_start malloc ts ms pools u m n k : 0 < n < 2 ^ 31 -> enable_statistics m = true -> sample_progress_every m = n ->
  progress_sampling m = (- k) mod n ->
  exists u', on_progress malloc ts FN_START ms pools u m = Some (u', with_sampling ((- (k + 1)) mod n) m).
Proof.
  intros Hn He Hs Hp. pose proof (Z.mod_pos_bound (- (k + 1)) n ltac:(lia)). unfold on_progress. rewrite bool_decide_false by done. cbn [andb mbind option_bind].
  rewrite He, Hs, Hp. cbn [negb]. assert (n =? 0 = false) as -> by lia. rewrite (u64_id n), countdown, u64_id by (unfold is_u64; lia).
  destruct (_ =? 0); cbn [negb]; by eexists.
Qed.

Lemma hg_update_num f f' v t : num (hg_stats (update_hg f v t) f') = (if decide (f' = f) then u64 (num (hg_stats t f') + 1) else num (hg_stats t f')).
Proof. simpl. by case_decide. Qed.

Lemma progress_end malloc ts ms pools u m n : 0 < n -> enable_statistics m = true -> enable_time_series m = false -> sample_progress_every m = n ->
  0 <= num (hg_stats (tbl m) progress_with_timeout) < 2 ^ 63 -> 0 <= num (hg_stats (tbl m) progress_without_timeout) < 2 ^ 63 ->
  exists m', on_progress malloc ts FN_END ms pools u m = Some (u, m') /\
    enable_statistics m' = true /\ enable_time_series m' = false /\ sample_progress_every m' = n /\ progress_sampling m' = progress_sampling m /\
    progress_num m' = progress_num m + (if progress_sampling m =? 0 then 1 else 0) /\
    0 <= num (hg_stats (tbl m') progress_with_timeout) /\ 0 <= num (hg_stats (tbl m') progress_without_timeout).
Proof.
  intros Hn He Ht Hs H1 H2. unfold on_progress. rewrite Ht, andb_false_r. cbn [andb mbind option_bind]. rewrite He, Hs. cbn [negb].
  assert (n =? 0 = false) as -> by lia. cbn [orb]. destruct (progress_sampling m =? 0); cbn [negb].
  - destruct (ms =? 0); cbn [negb]; eexists; (split; [reflexivity|]); unfold progress_num; cbn [tbl with_tbl];
      rewrite !hg_update_num; repeat first [rewrite decide_True by done | rewrite decide_False by done];
      rewrite u64_id by (unfold is_u64; lia); split_and!; try done; lia.
  - exists m. split_and!; try done; lia.
Qed.

Lemma sampling_step malloc n k t0 t1 ms pools m : 0 < n < 2 ^ 31 -> 0 <= k < 2 ^ 63 -> sampling_inv n k m ->
  exists m', progress_call malloc t0 t1 ms pools m = Some m' /\ sampling_inv n (k + 1) m'.
Proof.
  intros Hn Hk (He & Hts & Hs & Hp & Hnum & H1 & H2).
  destruct (progress_start malloc t0 ms pools 0%Q m n k Hn He Hs Hp) as [u Hst].
  assert (k / n < 2 ^ 63) as Hkn by (apply Z.div_lt_upper_bound; nia).
  destruct (progress_end malloc t1 ms pools u (with_sampling ((- (k + 1)) mod n) m) n) as (m' & Hend & He' & Ht' & Hs' & Hp' & Hn' & H1' & H2');
    [lia|done|done|done|unfold progress_num in Hnum; simpl; lia|unfold progress_num in Hnum; simpl; lia|].
  exists m'. unfold progress_call. rewrite Hst. cbn [mbind option_bind]. rewrite Hend. split; [done|].
  split_and!; try done. rewrite Hn'. unfold progress_num in *. cbn [tbl with_sampling progress_sampling]. rewrite Hnum. symmetry. apply sampled_count. lia.
Qed.

Lemma sampling_run malloc n l pools : 0 < n < 2 ^ 31 -> forall k m, 0 <= k -> k + Z.of_nat (length l) < 2 ^ 63 -> sampling_inv n k m ->
  exists m', progress_calls malloc l pools m = Some m' /\ sampling_inv n (k + Z.of_nat (length l)) m'.
Proof.
  intros Hn. induction l as [|[[t0 t1] ms] l IH]; intros k m Hk Hl Hi.
  - exists m. split; [done|]. cbn [length]. by rewrite Z.add_0_r.
  - cbn [length] in Hl. destruct (sampling_step malloc n k t0 t1 ms pools m) as (m1 & Hm & Hi1); [done|lia|done|].
    destruct (IH (k + 1) m1) as (m' & Hm' & Hi'); [lia|lia|done|]. exists m'. split; [simpl; by rewrite Hm|].
    replace (k + Z.of_nat (length ((t0, t1, ms) :: l))) with (k + 1 + Z.of_nat (length l)) by (cbn [length]; lia). done.
Qed.

(** When one of every [n] calls is sampled (and time series are disabled),
    from a new monitor, [k] calls of the progress function leave exactly [k / n]
    samples of its duration, whatever their timeouts. *)
Theorem progress_sampled_one_in_n malloc n l pools m : 0 < n < 2 ^ 31 -> Z.of_nat (length l) < 2 ^ 63 ->
  enable_statistics m = true -> enable_time_series m = false -> sample_progress_every m = n -> progress_sampling m = 0 ->
  hg_stats (tbl m) progress_with_timeout = zero_statistics -> hg_stats (tbl m) progress_without_timeout = zero_statistics ->
  exists m', progress_calls malloc l pools m = Some m' /\ progress_num m' = Z.of_nat (length l) / n.
Proof.
  intros Hn Hl He Ht Hs Hp H1 H2. destruct (sampling_run malloc n l pools Hn 0 m) as (m' & Hm & _ & _ & _ & _ & Hnum & _); [lia|lia| |by exists m'].
  unfold sampling_inv, progress_num. rewrite H1, H2, Hp. by rewrite Z.mod_0_l, Z.div_0_l by lia.
Qed.

(** ** A callback that comes late *)

(** What happens to the data of a handle that goes back to the cache or that is
    freed. *)
Definition reset_handle (h : Z) (s : system) : system :=
  System (with_car (with_handle_data (delete h (handle_data (car (mon s)))) (car (mon s))) (mon s)) (uctxs s) (keys s).

(** The progress loop wakes up the caller before it raises the end of
    [forward_cb].  If the caller destroys its handle in between, the end of
    [forward_cb] uses a session that was released, or NULL once the handle is
    reset: no behaviour is defined. *)
Theorem late_forward_cb_undefined u a d p h sess t1 t2 t3 r s : enable_statistics (mon s) = true ->
  handle_data (car (mon s)) !! h = Some sess -> sess ≠ 0 -> is_Some (sessions (car (mon s)) !! sess) -> sessions (car (mon s)) !! 0 = None ->
  req_handle r = h ->
  exists s1, run [Call t1 FN_START u a (ev_destroy h); Call t2 FN_END u a (ev_destroy h)] s = Some s1 /\
    run [Call t3 FN_END p d (ev_forward_cb r)] s1 = None /\ run [Call t3 FN_END p d (ev_forward_cb r)] (reset_handle h s1) = None.
Proof.
  intros He Hh Hs [se Hse] H0 Hr.
  assert (exists m', on_destroy FN_START h (mon s) = Some m' /\ enable_statistics m' = true /\ handle_data (car m') = handle_data (car (mon s)) /\
    sessions (car m') = delete sess (sessions (car (mon s)))) as (m' & Hd & He' & Hh' & Hs').
  { unfold on_destroy, release_session, margo_get_monitoring_data. rewrite He, Hh. simpl. destruct (Z.eqb_spec sess 0); [done|]. rewrite Hse. by eexists. }
  erewrite run_step; [|cbn [what dispatch at_ts side]; rewrite Hd; reflexivity].
  erewrite run_step; [|cbn [what dispatch at_ts side mon]; unfold on_destroy; rewrite He'; reflexivity].
  eexists. split; [reflexivity|]. split; simpl; unfold __MARGO_MONITOR; cbn [what dispatch at_ts side mon reset_handle];
    unfold on_forward_cb; cbn [enable_statistics with_car]; rewrite He'; unfold RETRIEVE_SESSION, margo_get_monitoring_data; simpl; rewrite Hr, Hs', ?Hh'.
  - rewrite Hh. simpl. by rewrite lookup_delete_eq.
  - rewrite lookup_delete_eq. simpl. by rewrite lookup_delete_ne, H0 by done.
Qed.

(** ** Examples *)

Definition demo_series : series_state := SeriesState ∅ [] 0 [] [].
Definition demo_tables : tables := Tables (fun _ => zero_statistics) [] [] [] [].
Definition demo_monitor : default_monitor_state :=
  Monitor true false 1 1 0 demo_tables (Names [] [] 0) (Carried ∅ ∅ ∅ ∅) demo_series.
Definition demo_system : system := System demo_monitor ∅ ∅.
Definition demo_request : margo_request := Request 1 MARGO_FORWARD_REQUEST 7.
Definition demo_dates (n : nat) : Q := inject_Z (Z.of_nat n).

Lemma client_call_recorded_witness :
  exists s', run (create_forward 1 10 11 7 3 demo_request 5 65536 (Some "na+sm://1"%string) (0, 0) demo_dates ++ complete_wait 1 10 7 demo_request demo_dates 2 20)
      demo_system = Some s' /\
    num (origin_stat (mon s') (Callpath 65541 (mux_id 0 MARGO_DEFAULT_PROVIDER_ID) 1) wait DURATION) = 1.
Proof.
  destruct (client_call_recorded 1 10 11 2 20 7 3 demo_request 5 65536 (Some "na+sm://1"%string) (0, 0) demo_dates demo_system) as (s' & Hr & Hst & _);
    [reflexivity|reflexivity|reflexivity|lia|lia|lia|reflexivity|].
  exists s'. split; [exact Hr|]. rewrite (Hst (Callpath 65541 (mux_id 0 MARGO_DEFAULT_PROVIDER_ID) 1) wait DURATION). vm_compute. reflexivity.
Defined.


Lemma progress_sampled_one_in_n_witness :
  let m := with_sampling 0 (Monitor true false 2 1 0 demo_tables (Names [] [] 0) (Carried ∅ ∅ ∅ ∅) demo_series) in
  exists m', progress_calls (fun _ => 1%positive) [(0%Q, 1%Q, 100); (1%Q, 2%Q, 0); (2%Q, 3%Q, 100); (4%Q, 5%Q, 0); (5%Q, 6%Q, 7)] [] m = Some m' /\
    progress_num m' = 2.
Proof.
  intros m. destruct (progress_sampled_one_in_n (fun _ => 1%positive) 2 [(0%Q, 1%Q, 100); (1%Q, 2%Q, 0); (2%Q, 3%Q, 100); (4%Q, 5%Q, 0); (5%Q, 6%Q, 7)] [] m)
    as (m' & Hr & Hn); [lia|vm_compute; reflexivity|reflexivity|reflexivity|reflexivity|reflexivity|reflexivity|reflexivity|].
  exists m'. split; [exact Hr|exact Hn].
Defined.

Lemma late_forward_cb_undefined_witness :
  exists s1, run [Call 1 FN_START 1 10 (ev_destroy 7); Call 2 FN_END 1 10 (ev_destroy 7)]
      (System (with_car (Carried {[3 := fresh_session]} ∅ {[7 := 3]} ∅) demo_monitor) ∅ ∅) = Some s1 /\
    run [Call 3 FN_END 2 20 (ev_forward_cb demo_request)] s1 = None.
Proof.
  destruct (late_forward_cb_undefined 1 10 20 2 7 3 1 2 3 demo_request (System (with_car (Carried {[3 := fresh_session]} ∅ {[7 := 3]} ∅) demo_monitor) ∅ ∅))
    as (s1 & Hr & Hn & _); [reflexivity|reflexivity|lia|by eexists|reflexivity|reflexivity|].
  exists s1. split; [exact Hr|exact Hn].
Defined.
