(* ===== verification/MonitorJson.v ===== *)
(** * The files of the default monitor (src/margo-default-monitoring.c)

    The conversion of the statistics and of the time series to JSON, with the
    reset of what was written.  An object under construction is the list of its
    members; printing a double is a parameter. *)

From Stdlib Require Import QArith Ascii.
From stdpp Require Import strings pretty.
From S2P Require Import Prelude Utlist Id Timer Json Stats Monitor.

#[local] Open Scope Z_scope.

(** ** Objects *)

(** Changing the first value of a key. *)
Fixpoint alter_member (key : string) (f : members -> members) (l : members) : members :=
  match l with
  | [] => []
  | m :: rest =>
      let '(k, v) := m in
      if bool_decide (k = key) then (k, match v with Some (JObject o) => Some (JObject (f o)) | v => v end) :: rest
      else m :: alter_member key f rest
  end.

(** Changing the object at a key, after adding [init] when there is none. *)
Definition in_object (key : string) (init : members) (f : members -> members) (l : members) : members :=
  match assoc l key with
  | Some _ => alter_member key f l
  | None => json_object_object_add_ex key (JObject (f init)) l
  end.

Definition json_object_object_get_or_create_object (key : string) (f : members -> members) (l : members) : members := in_object key [] f l.

Section Dump.
Context (json_object_new_double : Q -> string).

Definition double (x : Q) : json := JDouble (json_object_new_double x).

(** ** Statistics *)

Definition statistics_to_json (stats : statistics) (reset : bool) : json * statistics :=
  (JObject [("num", Some (json_object_new_int (num stats))); ("min", Some (double (min stats))); ("max", Some (double (max stats)));
            ("avg", Some (double (avg stats))); ("var", Some (double (var stats))); ("sum", Some (double (sum stats)))]%string,
   if reset then Statistics 0 0 0 0 0 0 else stats).

Definition set_field {F} `{EqDecision F} (f : F) (k : kind) (s : statistics) (p : F -> kind -> statistics) : F -> kind -> statistics :=
  fun f' k' => if decide (f' = f /\ k' = k) then s else p f' k'.

Definition statistics_pair_to_json {F} `{EqDecision F} (f : F) (p : F -> kind -> statistics) (name1 name2 : string) (reset : bool) :
  json * (F -> kind -> statistics) :=
  let '(j1, s1) := statistics_to_json (p f DURATION) reset in
  let '(j2, s2) := statistics_to_json (p f TIMESTAMP) reset in
  (JObject [(name1, Some j1); (name2, Some j2)], set_field f TIMESTAMP s2 (set_field f DURATION s1 p)).

Definition set_hg (f : hg_field) (s : statistics) (h : hg_statistics) : hg_statistics := fun f' => if decide (f' = f) then s else h f'.

Definition hg_statistics_to_json (stats : hg_statistics) (reset : bool) : json * hg_statistics :=
  let '(j1, s1) := statistics_to_json (stats progress_with_timeout) reset in
  let '(j2, s2) := statistics_to_json (stats progress_timeout_value) reset in
  let '(j3, s3) := statistics_to_json (stats progress_without_timeout) reset in
  let '(j4, s4) := statistics_to_json (stats trigger) reset in
  (JObject [("progress_with_timeout", Some j1); ("progress_timeout_value_msec", Some j2); ("progress_without_timeout", Some j3); ("trigger", Some j4)]%string,
   set_hg trigger s4 (set_hg progress_without_timeout s3 (set_hg progress_timeout_value s2 (set_hg progress_with_timeout s1 stats)))).

Definition bulk_create_statistics_to_json (stats : bulk_create_statistics) (reset : bool) : json * bulk_create_statistics :=
  let '(j1, s1) := statistics_to_json (duration stats) reset in
  let '(j2, s2) := statistics_to_json (size stats) reset in
  (JObject [("duration", Some j1); ("size", Some j2)]%string, BulkCreate s1 s2).

Definition bulk_transfer_statistics_to_json (stats : bulk_transfer_statistics) (reset : bool) : json * bulk_transfer_statistics :=
  let '(j1, s1) := statistics_to_json (transfer stats) reset in
  let '(j2, s2) := statistics_to_json (transfer_size stats) reset in
  let '(j3, p) := statistics_pair_to_json transfer_cb (transfer_pairs stats) "duration" "relative_timestamp_from_itransfer_start" reset in
  let '(j4, p) := statistics_pair_to_json transfer_wait p "duration" "relative_timestamp_from_itransfer_end" reset in
  (JObject [("itransfer", Some (JObject [("duration", Some j1); ("size", Some j2)])); ("transfer_cb", Some j3); ("itransfer_wait", Some j4)]%string,
   BulkTransfer s1 s2 p).

Definition origin_rpc_statistics_to_json (stats : origin_rpc_statistics) (reset : bool) : json * origin_rpc_statistics :=
  let '(j1, p) := statistics_pair_to_json forward stats "duration" "relative_timestamp_from_create" reset in
  let '(j2, p) := statistics_pair_to_json forward_cb p "duration" "relative_timestamp_from_iforward_start" reset in
  let '(j3, p) := statistics_pair_to_json wait p "duration" "relative_timestamp_from_iforward_end" reset in
  let '(j4, p) := statistics_pair_to_json set_input p "duration" "relative_timestamp_from_iforward_start" reset in
  let '(j5, p) := statistics_pair_to_json get_output p "duration" "relative_timestamp_from_wait_end" reset in
  (JObject [("iforward", Some j1); ("forward_cb", Some j2); ("iforward_wait", Some j3); ("set_input", Some j4); ("get_output", Some j5)]%string, p).

Definition target_rpc_statistics_to_json (stats : target_rpc_statistics) (reset : bool) : json * target_rpc_statistics :=
  let '(j0, h) := statistics_to_json (handler stats) reset in
  let '(j1, p) := statistics_pair_to_json ult (target_pairs stats) "duration" "relative_timestamp_from_handler_start" reset in
  let '(j2, p) := statistics_pair_to_json respond p "duration" "relative_timestamp_from_ult_start" reset in
  let '(j3, p) := statistics_pair_to_json respond_cb p "duration" "relative_timestamp_from_irespond_start" reset in
  let '(j4, p) := statistics_pair_to_json target_wait p "duration" "relative_timestamp_from_irespond_end" reset in
  let '(j5, p) := statistics_pair_to_json set_output p "duration" "relative_timestamp_from_irespond_start" reset in
  let '(j6, p) := statistics_pair_to_json get_input p "duration" "relative_timestamp_from_ult_start" reset in
  (JObject [("handler", Some (JObject [("duration", Some j0)])); ("ult", Some j1); ("irespond", Some j2); ("respond_cb", Some j3);
            ("irespond_wait", Some j4); ("set_output", Some j5); ("get_input", Some j6)]%string, Target h p).

(** ** The names of call paths *)

Definition build_rpc_key (c : callpath) : string :=
  let '(base_id, provider_id) := demux_id (rpc_id c) in
  let '(parent_base_id, parent_provider_id) := demux_id (parent_id c) in
  (pretty parent_base_id +:+ ":" +:+ pretty parent_provider_id +:+ ":" +:+ pretty base_id +:+ ":" +:+ pretty provider_id)%string.

Definition fill_json_with_rpc_info (c : callpath) (m : default_monitor_state) : members :=
  let '(base_id, provider_id) := demux_id (rpc_id c) in
  let '(parent_base_id, parent_provider_id) := demux_id (parent_id c) in
  [("rpc_id", Some (json_object_new_uint64 base_id)); ("provider_id", Some (json_object_new_uint64 provider_id));
   ("parent_rpc_id", Some (json_object_new_uint64 parent_base_id)); ("parent_provider_id", Some (json_object_new_uint64 parent_provider_id));
   ("name", Some (JString (default "" (rpc_info_find (rpc_id c) m))))]%string.

Definition addr_name (id : Z) (m : default_monitor_state) : string := default "<unknown>"%string (addr_info_find_by_id id m).

(** ** The loops over the tables *)

Definition in_section (m : default_monitor_state) (c : callpath) (section : string) (f : members -> members) (rpcs : members) : members :=
  in_object (build_rpc_key c) (fill_json_with_rpc_info c m) (json_object_object_get_or_create_object section f) rpcs.

Fixpoint origin_loop (m : default_monitor_state) (reset : bool) (l : list (callpath * origin_rpc_statistics)) (rpcs : members) :
  members * list (callpath * origin_rpc_statistics) :=
  match l with
  | [] => (rpcs, [])
  | (c, p) :: l =>
      let '(stats, p) := origin_rpc_statistics_to_json p reset in
      let addr_key := ("sent to " +:+ addr_name (addr_id c) m)%string in
      let '(rpcs, l) := origin_loop m reset l (in_section m c "origin" (json_object_object_add_ex addr_key stats) rpcs) in
      (rpcs, (c, p) :: l)
  end.

Fixpoint target_loop (m : default_monitor_state) (reset : bool) (l : list (callpath * target_rpc_statistics)) (rpcs : members) :
  members * list (callpath * target_rpc_statistics) :=
  match l with
  | [] => (rpcs, [])
  | (c, p) :: l =>
      let '(stats, p) := target_rpc_statistics_to_json p reset in
      let addr_key := ("received from " +:+ addr_name (addr_id c) m)%string in
      let '(rpcs, l) := target_loop m reset l (in_section m c "target" (json_object_object_add_ex addr_key stats) rpcs) in
      (rpcs, (c, p) :: l)
  end.

(** The object "bulk" of a call path. *)
Definition in_bulk (m : default_monitor_state) (c : callpath) (f : members -> members) (rpcs : members) : members :=
  in_section m c "target" (json_object_object_get_or_create_object ("received from " +:+ addr_name (addr_id c) m)
    (json_object_object_get_or_create_object "bulk" f)) rpcs.

Fixpoint bulk_create_loop (m : default_monitor_state) (reset : bool) (l : list (callpath * bulk_create_statistics)) (rpcs : members) :
  members * list (callpath * bulk_create_statistics) :=
  match l with
  | [] => (rpcs, [])
  | (c, p) :: l =>
      let '(create, p) := bulk_create_statistics_to_json p reset in
      let '(rpcs, l) := bulk_create_loop m reset l (in_bulk m c (json_object_object_add_ex "create" create) rpcs) in
      (rpcs, (c, p) :: l)
  end.

Fixpoint bulk_transfer_loop (m : default_monitor_state) (reset : bool) (l : list (bulk_key * bulk_transfer_statistics)) (rpcs : members) :
  members * list (bulk_key * bulk_transfer_statistics) :=
  match l with
  | [] => (rpcs, [])
  | (b, p) :: l =>
      let xfer_addr_key :=
        match operation b with
        | HG_BULK_PULL => ("pull from " +:+ addr_name (remote_addr_id b) m)%string
        | HG_BULK_PUSH => ("push to " +:+ addr_name (remote_addr_id b) m)%string
        end in
      let '(stats, p) := bulk_transfer_statistics_to_json p reset in
      let '(rpcs, l) := bulk_transfer_loop m reset l (in_bulk m (bk_callpath b) (json_object_object_add_ex xfer_addr_key stats) rpcs) in
      (rpcs, (b, p) :: l)
  end.

(** The arguments in the buffer of [/proc/self/cmdline]; a string that is not
    terminated in it is undefined. *)
Fixpoint cmdline_args (p : string) (buffer : list ascii) : option (list string) :=
  match buffer with
  | [] => match p with EmptyString => Some [] | _ => None end
  | c :: buffer =>
      if decide (c = "000"%char) then
        l ← cmdline_args EmptyString buffer; Some (match p with EmptyString => l | _ => p :: l end)
      else cmdline_args (p +:+ String c EmptyString) buffer
  end.

(** [cmdline] is what is read from [/proc/self/cmdline], [None] when it cannot be
    opened. *)
Definition monitor_statistics_to_json (self_addr hostname : string) (pid : Z) (cmdline : option (list ascii)) (m : default_monitor_state) (reset : bool) :
  option (json * tables) :=
  let t := tbl m in
  let '(progress_loop, hg) := hg_statistics_to_json (hg_stats t) reset in
  let '(rpcs, origins) := origin_loop m reset (origin_rpc_stats t) [] in
  let '(rpcs, targets) := target_loop m reset (target_rpc_stats t) rpcs in
  let '(rpcs, creates) := bulk_create_loop m reset (bulk_create_stats t) rpcs in
  let '(rpcs, transfers) := bulk_transfer_loop m reset (bulk_transfer_stats t) rpcs in
  let json := [("address", Some (JString self_addr)); ("progress_loop", Some progress_loop); ("rpcs", Some (JObject rpcs));
               ("hostname", Some (JString hostname)); ("pid", Some (json_object_new_int pid))]%string in
  json ← (match cmdline with
          | None => Some json
          | Some buffer => l ← cmdline_args EmptyString buffer; Some (json ++ [("cmdline"%string, Some (JArray (map (fun s => Some (JString s)) l)))])
          end);
  Some (JObject json, Tables hg creates transfers origins targets).

(** ** Time series *)

(** The two arrays a loop over the frames fills. *)
Definition timestamps_of (l : list (Q * Z)) : json := JArray (map (fun x => Some (double x.1)) l).
Definition values_of (l : list (Q * Z)) : json := JArray (map (fun x => Some (json_object_new_uint64 x.2)) l).

Definition clear_if (reset : bool) (s : time_series) (h : heap) : option (heap * time_series) :=
  if reset then time_series_clear s h else Some (h, s).

Definition rpc_time_series_to_json (rpc_ts : rpc_time_series) (reset : bool) (h : heap) : option (json * heap * rpc_time_series) :=
  count ← series_values (rpc_count_series rpc_ts) h;
  bulk ← series_values (bulk_size_series rpc_ts) h;
  let json := JObject [("timestamps", Some (timestamps_of count)); ("count", Some (values_of count)); ("bulk_size", Some (values_of bulk))]%string in
  '(h, s1) ← clear_if reset (rpc_count_series rpc_ts) h;
  '(h, s2) ← clear_if reset (bulk_size_series rpc_ts) h;
  Some (json, h, RpcSeries (rpc_count rpc_ts) s1 (bulk_size rpc_ts) s2).

Fixpoint series_loop (m : default_monitor_state) (reset : bool) (l : list (Z * rpc_time_series)) (rpcs : members) (h : heap) :
  option (members * heap * list (Z * rpc_time_series)) :=
  match l with
  | [] => Some (rpcs, h, [])
  | (id, rpc_ts) :: l =>
      let key := match rpc_info_find id m with
                 | Some name => (name +:+ ":" +:+ pretty (demux_id id).2)%string
                 | None => "<unknown>"%string
                 end in
      '(json_ts, h, rpc_ts) ← rpc_time_series_to_json rpc_ts reset h;
      '(rpcs, h, l) ← series_loop m reset l (json_object_object_add_ex key json_ts rpcs) h;
      Some (rpcs, h, (id, rpc_ts) :: l)
  end.

(** [names] are the names of the pools of the instance. *)
Fixpoint pool_series_loop (names : list string) (i : nat) (sizes totals : list time_series) (h : heap) (json : members) : option members :=
  match names with
  | [] => Some json
  | name :: names =>
      s ← sizes !! i;
      t ← totals !! i;
      l ← series_values s h;
      k ← series_values t h;
      pool_series_loop names (S i) sizes totals h (json_object_object_add_ex name
        (JObject [("timestamps", Some (timestamps_of l)); ("size", Some (values_of l)); ("total_size", Some (values_of k))]%string) json)
  end.

Fixpoint pool_clear_loop (n i : nat) (sizes totals : list time_series) (h : heap) : option (heap * list time_series * list time_series) :=
  match n with
  | O => Some (h, sizes, totals)
  | S n =>
      s ← sizes !! i;
      '(h, s) ← time_series_clear s h;
      t ← totals !! i;
      '(h, t) ← time_series_clear t h;
      pool_clear_loop n (S i) (<[i := s]> sizes) (<[i := t]> totals) h
  end.

Definition pool_time_series_to_json (names : list string) (reset : bool) (sizes totals : list time_series) (h : heap) :
  option (json * heap * list time_series * list time_series) :=
  json ← pool_series_loop names 0 sizes totals h [];
  if reset then '(h, sizes, totals) ← pool_clear_loop (length names) 0 sizes totals h; Some (JObject json, h, sizes, totals)
  else Some (JObject json, h, sizes, totals).

Definition monitor_time_series_to_json (self_addr : string) (names : list string) (m : default_monitor_state) (reset : bool) :
  option (json * series_state) :=
  '(rpcs, h, l) ← series_loop m reset (rpc_series (ser m)) [] (frames (ser m));
  '(pools, h, sizes, totals) ← pool_time_series_to_json names reset (pool_size_time_series (ser m)) (pool_total_size_time_series (ser m)) h;
  Some (JObject [("address", Some (JString self_addr)); ("rpcs", Some (JObject rpcs)); ("pools", Some pools)]%string,
        SeriesState h l (rpc_time_series_last_ts (ser m)) sizes totals).
End Dump.

(** ** Strings *)

(** A character that does not occur. *)
Fixpoint free_of (c : ascii) (s : string) : Prop :=
  match s with EmptyString => True | String c' s => c' ≠ c /\ free_of c s end.

Lemma append_separator c a b r r' : free_of c a -> free_of c b -> (a +:+ String c r = b +:+ String c r')%string -> a = b /\ r = r'.
Proof.
  assert (forall s, (EmptyString +:+ s)%string = s) as He by done.
  assert (forall x s s', (String x s +:+ s')%string = String x (s +:+ s')) as Hx by done.
  revert b. induction a as [|x a IH]; intros [|y b]; simpl; rewrite ?He, ?Hx.
  - by intros _ _ [= ->].
  - intros _ [Hy _] H. congruence.
  - intros [Hy _] _ H. congruence.
  - intros [_ Ha] [_ Hb] [= -> H]. by destruct (IH b Ha Hb H) as [-> ->].
Qed.

Lemma pretty_go_free c x s : free_of c s -> (forall d, pretty_N_char d ≠ c) -> free_of c (pretty_N_go x s).
Proof.
  intros Hs Hc. revert s Hs. induction (N.lt_wf_0 x) as [x _ IH]; intros s Hs.
  destruct (decide (x = 0%N)) as [->|Hx]; [done|]. rewrite pretty_N_go_step by lia.
  apply IH; [apply N.div_lt; lia|]. by split.
Qed.

Lemma pretty_free (z : Z) : 0 <= z -> free_of ":" (pretty z).
Proof.
  intros Hz. assert (forall d, pretty_N_char d ≠ ":"%char) as Hc.
  { intros d. unfold pretty_N_char. by repeat case_match. }
  destruct z as [|p|p]; [done| |lia]. change (free_of ":" (pretty (N.pos p))). unfold pretty, pretty_N. rewrite decide_False by done.
  by apply pretty_go_free.
Qed.

Definition callpath_ok (c : callpath) : Prop := is_u64 (rpc_id c) /\ is_u64 (parent_id c).

(** Two call paths have the same name in the files exactly when they are the
    same RPC called from the same parent RPC, whatever the addresses. *)
Theorem rpc_key_identifies c1 c2 : callpath_ok c1 -> callpath_ok c2 ->
  build_rpc_key c1 = build_rpc_key c2 <-> rpc_id c1 = rpc_id c2 /\ parent_id c1 = parent_id c2.
Proof.
  intros [H1 P1] [H2 P2]. unfold build_rpc_key. rewrite !demux_id_arith by done. split.
  - unfold is_u64 in *. intros H.
    repeat (apply append_separator in H as [?%(inj pretty) H]; [|apply pretty_free; Z.to_euclidean_division_equations; lia..]).
    apply (inj pretty) in H. Z.to_euclidean_division_equations. lia.
  - intros [-> ->]. done.
Qed.

(** ** Objects under construction *)

Lemma assoc_alter key key' f l : assoc (alter_member key f l) key' =
  (if decide (key' = key) then match assoc l key with Some (JObject o) => Some (JObject (f o)) | v => v end else assoc l key').
Proof.
  induction l as [|[k v] l IH]; simpl; [by case_decide|]. destruct (decide (k = key)) as [->|Hk].
  - rewrite bool_decide_true by done. simpl. destruct (decide (key' = key)) as [->|].
    + rewrite !bool_decide_true by done. by destruct v as [[]|].
    + by rewrite !bool_decide_false by congruence.
  - rewrite bool_decide_false by done. simpl. rewrite IH. destruct (decide (key' = key)) as [->|]; [by rewrite bool_decide_false|done].
Qed.

Lemma assoc_app l k key : assoc (l ++ k) key = (if decide (key ∈ l.*1) then assoc l key else assoc k key).
Proof.
  induction l as [|[k' v] l IH]; [by rewrite decide_False by set_solver|]. cbn [app assoc]. destruct (decide (k' = key)) as [->|Hk].
  - rewrite bool_decide_true, decide_True by (done || set_solver). done.
  - rewrite bool_decide_false, IH by done. repeat case_decide; set_solver.
Qed.

Lemma assoc_absent l key : key ∉ l.*1 -> assoc l key = None.
Proof.
  induction l as [|[k v] l IH]; [done|]. cbn [assoc fmap list_fmap fst]. intros H%not_elem_of_cons. destruct H as [Hk Hl].
  rewrite bool_decide_false by done. by apply IH.
Qed.

(** Objects without null members. *)
Definition nonnull (l : members) : Prop := Forall (fun e => e.2 ≠ None) l.

Lemma nonnull_assoc l key : nonnull l -> assoc l key = None -> key ∉ l.*1.
Proof.
  intros Hl. induction Hl as [|[k v] l Hv Hl IH]; simpl; [set_solver|]. destruct (decide (k = key)) as [->|Hk].
  - rewrite bool_decide_true by done. done.
  - rewrite bool_decide_false by done. intros H. apply IH in H. set_solver.
Qed.

Lemma assoc_in_object key init f l key' : nonnull l ->
  assoc (in_object key init f l) key' =
  (if decide (key' = key) then
     match assoc l key with Some (JObject o) => Some (JObject (f o)) | None => Some (JObject (f init)) | v => v end
   else assoc l key').
Proof.
  intros Hl. unfold in_object. destruct (assoc l key) as [v|] eqn:Ha; [rewrite assoc_alter, Ha; by destruct v|].
  unfold json_object_object_add_ex. rewrite assoc_app. pose proof (nonnull_assoc _ _ Hl Ha) as Hk. cbn [assoc].
  destruct (decide (key' = key)) as [->|Hne]; [by rewrite decide_False, bool_decide_true|].
  rewrite bool_decide_false by done. case_decide; [done|]. by rewrite assoc_absent.
Qed.

Lemma nonnull_alter key f l : nonnull l -> nonnull (alter_member key f l).
Proof.
  induction 1 as [|[k v] l Hv Hl IH]; simpl; [constructor|]. destruct (bool_decide _); [|by constructor].
  constructor; [|done]. simpl in *. by destruct v as [[]|].
Qed.

Lemma nonnull_in_object key init f l : nonnull l -> nonnull (in_object key init f l).
Proof.
  intros Hl. unfold in_object. destruct (assoc l key); [by apply nonnull_alter|]. apply Forall_app. split; [done|by repeat constructor].
Qed.

(** The members of the object at a key. *)
Definition object_at (key : string) (l : members) : members := match assoc l key with Some (JObject o) => o | _ => [] end.
Definition objects_at (P : members -> Prop) (keys : string -> Prop) (l : members) : Prop :=
  nonnull l /\ forall key, keys key -> match assoc l key with Some (JObject o) => P o | None => True | _ => False end.

Lemma object_at_in_object key init f l key' P keys : objects_at P keys l -> keys key ->
  object_at key' (in_object key init f l) =
  (if decide (key' = key) then f (if assoc l key then object_at key l else init) else object_at key' l).
Proof.
  intros [Hn Hk] Hkey. unfold object_at. rewrite assoc_in_object by done. case_decide; [|done]. specialize (Hk key Hkey).
  by destruct (assoc l key) as [[]|].
Qed.

Lemma objects_at_in_object key init f l P keys : objects_at P keys l -> keys key -> P init -> (forall o, P o -> P (f o)) ->
  objects_at P keys (in_object key init f l).
Proof.
  intros [Hn Hk] Hkey Hi Hf. split; [by apply nonnull_in_object|]. intros key' Hkey'. rewrite assoc_in_object by done. case_decide; [|by apply Hk].
  specialize (Hk key Hkey). destruct (assoc l key) as [[]|]; try done; by apply Hf.
Qed.

(** ** The sections of the RPCs *)

Definition is_section (s : string) : Prop := s = "origin"%string \/ s = "target"%string.
Definition rpcs_ok : members -> Prop := objects_at (objects_at (fun _ => True) is_section) (fun _ => True).
Definition section_of (key sec : string) (rpcs : members) : members := object_at sec (object_at key rpcs).

Lemma info_ok c m : objects_at (fun _ => True) is_section (fill_json_with_rpc_info c m).
Proof.
  unfold fill_json_with_rpc_info. destruct (demux_id _), (demux_id _). split; [by repeat constructor|]. by intros key [-> | ->].
Qed.

Lemma in_section_ok m c sec f rpcs : rpcs_ok rpcs -> is_section sec -> rpcs_ok (in_section m c sec f rpcs).
Proof.
  intros Hr Hs. apply objects_at_in_object; [done|done| |].
  - apply info_ok.
  - intros o Ho. by apply objects_at_in_object.
Qed.

Lemma info_section c m sec : is_section sec -> object_at sec (fill_json_with_rpc_info c m) = [].
Proof. unfold fill_json_with_rpc_info. destruct (demux_id _), (demux_id _). by intros [-> | ->]. Qed.

Lemma section_in_section m c sec f rpcs key sec' : rpcs_ok rpcs -> is_section sec -> is_section sec' ->
  section_of key sec' (in_section m c sec f rpcs) =
  (if decide (key = build_rpc_key c /\ sec' = sec) then f (section_of key sec' rpcs) else section_of key sec' rpcs).
Proof.
  intros Hr Hs Hs'. unfold section_of, in_section. rewrite (object_at_in_object _ _ _ _ _ _ _ Hr) by done.
  destruct (decide (key = build_rpc_key c)) as [->|Hk]; [|by rewrite decide_False by tauto].
  assert (forall o, objects_at (fun _ => True) is_section o ->
    object_at sec' (json_object_object_get_or_create_object sec f o) = if decide (sec' = sec) then f (object_at sec' o) else object_at sec' o) as Hin.
  { intros o Ho. unfold json_object_object_get_or_create_object. rewrite (object_at_in_object _ _ _ _ _ _ _ Ho) by done.
    case_decide; [|done]. subst. f_equal. unfold object_at. by destruct (assoc o sec). }
  destruct Hr as [_ Hr]. specialize (Hr (build_rpc_key c) I). cbn beta in Hr.
  assert (object_at (build_rpc_key c) rpcs = match assoc rpcs (build_rpc_key c) with Some (JObject o) => o | _ => [] end) as Ho by done.
  destruct (assoc rpcs (build_rpc_key c)) as [[]|]; try done; rewrite Ho, Hin by (done || apply info_ok).
  - repeat case_decide; naive_solver.
  - rewrite info_section by done. repeat case_decide; naive_solver.
Qed.

(** ** The loops *)

Section Loops.
Context (json_double : Q -> string) (m : default_monitor_state) (reset : bool).

Definition origin_members (l : list (callpath * origin_rpc_statistics)) : members :=
  map (fun e => ("sent to " +:+ addr_name (addr_id e.1) m, Some (origin_rpc_statistics_to_json json_double e.2 reset).1)%string) l.

Lemma origin_loop_section l rpcs : rpcs_ok rpcs -> let r := origin_loop json_double m reset l rpcs in
  rpcs_ok r.1 /\ forall key, section_of key "origin" r.1 =
    section_of key "origin" rpcs ++ origin_members (filter (fun e => build_rpc_key e.1 = key) l).
Proof.
  revert rpcs. induction l as [|[c p] l IH]; intros rpcs Hr; cbn [origin_loop fst].
  - split; [done|]. intros key. by rewrite app_nil_r.
  - destruct (origin_rpc_statistics_to_json json_double p reset) as [j p'] eqn:Hp.
    set (f := json_object_object_add_ex _ j). assert (is_section "origin") as Hs by by left.
    destruct (IH (in_section m c "origin" f rpcs)) as [Hok Hsec]; [by apply in_section_ok|].
    destruct (origin_loop json_double m reset l _) as [rpcs' l']. cbn [fst] in *. split; [done|]. intros key.
    rewrite Hsec, section_in_section by done. rewrite filter_cons. cbn [fst].
    destruct (decide (build_rpc_key c = key)) as [<-|Hk]; [rewrite decide_True by done|by rewrite decide_False by naive_solver].
    unfold f, json_object_object_add_ex. rewrite <- app_assoc. cbn [origin_members map fst snd app]. by rewrite Hp.
Qed.

(** The other loops leave these sections alone. *)
Lemma target_section c f rpcs : rpcs_ok rpcs ->
  rpcs_ok (in_section m c "target" f rpcs) /\ forall key, section_of key "origin" (in_section m c "target" f rpcs) = section_of key "origin" rpcs.
Proof.
  intros Hr. assert (is_section "target") by by right. assert (is_section "origin") by by left.
  split; [by apply in_section_ok|]. intros key. rewrite section_in_section by done. by rewrite decide_False by naive_solver.
Qed.

Definition keeps_origin (rpcs rpcs' : members) : Prop :=
  rpcs_ok rpcs -> rpcs_ok rpcs' /\ forall key, section_of key "origin" rpcs' = section_of key "origin" rpcs.

Lemma keeps_trans r1 r2 r3 : keeps_origin r1 r2 -> keeps_origin r2 r3 -> keeps_origin r1 r3.
Proof. intros H1 H2 Hr. destruct (H1 Hr) as [Hr2 He2]. destruct (H2 Hr2) as [Hr3 He3]. split; [done|]. intros key. by rewrite He3. Qed.

Lemma target_loop_keeps l rpcs : keeps_origin rpcs (target_loop json_double m reset l rpcs).1.
Proof.
  revert rpcs. induction l as [|[c p] l IH]; intros rpcs; cbn [target_loop]; [by intros ?|]. destruct (target_rpc_statistics_to_json _ _ _).
  match goal with |- context [target_loop _ _ _ l ?r] => specialize (IH r); destruct (target_loop json_double m reset l r) end.
  eapply keeps_trans; [intros Hr; apply target_section, Hr|exact IH].
Qed.

Lemma bulk_create_loop_keeps l rpcs : keeps_origin rpcs (bulk_create_loop json_double m reset l rpcs).1.
Proof.
  revert rpcs. induction l as [|[c p] l IH]; intros rpcs; cbn [bulk_create_loop]; [by intros ?|]. destruct (bulk_create_statistics_to_json _ _ _).
  match goal with |- context [bulk_create_loop _ _ _ l ?r] => specialize (IH r); destruct (bulk_create_loop json_double m reset l r) end.
  eapply keeps_trans; [intros Hr; apply target_section, Hr|exact IH].
Qed.

Lemma bulk_transfer_loop_keeps l rpcs : keeps_origin rpcs (bulk_transfer_loop json_double m reset l rpcs).1.
Proof.
  revert rpcs. induction l as [|[c p] l IH]; intros rpcs; cbn [bulk_transfer_loop]; [by intros ?|]. destruct (bulk_transfer_statistics_to_json _ _ _).
  match goal with |- context [bulk_transfer_loop _ _ _ l ?r] => specialize (IH r); destruct (bulk_transfer_loop json_double m reset l r) end.
  eapply keeps_trans; [intros Hr; apply target_section, Hr|exact IH].
Qed.

(** What the reset does to the entries. *)
Definition after (s : statistics) : statistics := if reset then zero_statistics else s.

Lemma pair_after {F} `{EqDecision F} (f : F) p n1 n2 f' k : (statistics_pair_to_json json_double f p n1 n2 reset).2 f' k =
  (if decide (f' = f) then after (p f' k) else p f' k).
Proof.
  unfold statistics_pair_to_json, statistics_to_json, set_field, after. cbn [snd]. destruct (decide (f' = f)) as [->|Hf].
  - destruct k; [rewrite decide_False, decide_True by naive_solver|rewrite decide_True by done]; by destruct reset.
  - rewrite !decide_False by tauto. done.
Qed.

Definition origin_after (p p' : origin_rpc_statistics) : Prop := forall f k, p' f k = after (p f k).
Definition target_after (p p' : target_rpc_statistics) : Prop :=
  handler p' = after (handler p) /\ forall f k, target_pairs p' f k = after (target_pairs p f k).
Definition create_after (p p' : bulk_create_statistics) : Prop := p' = BulkCreate (after (duration p)) (after (size p)).
Definition transfer_after (p p' : bulk_transfer_statistics) : Prop :=
  transfer p' = after (transfer p) /\ transfer_size p' = after (transfer_size p) /\ forall f k, transfer_pairs p' f k = after (transfer_pairs p f k).
Definition entries_after {K V} (R : V -> V -> Prop) : list (K * V) -> list (K * V) -> Prop := Forall2 (fun e e' => e'.1 = e.1 /\ R e.2 e'.2).

Ltac split_pairs :=
  repeat match goal with |- context [statistics_pair_to_json json_double ?f ?p ?n1 ?n2 reset] =>
    pose proof (pair_after f p n1 n2); destruct (statistics_pair_to_json json_double f p n1 n2 reset) as [? ?]; cbn [fst snd] in * end.
Ltac follow_pairs f k :=
  repeat match goal with H : forall f' k', ?p f' k' = _ |- _ => rewrite !(H f k); clear H end; by destruct f.

Lemma origin_json_after p : origin_after p (origin_rpc_statistics_to_json json_double p reset).2.
Proof. unfold origin_rpc_statistics_to_json. split_pairs. intros f k. follow_pairs f k. Qed.

Lemma target_json_after p : target_after p (target_rpc_statistics_to_json json_double p reset).2.
Proof. unfold target_rpc_statistics_to_json. cbn [statistics_to_json]. split_pairs. split; [done|]. intros f k. cbn [snd target_pairs]. follow_pairs f k. Qed.

Lemma create_json_after p : create_after p (bulk_create_statistics_to_json json_double p reset).2.
Proof. done. Qed.

Lemma transfer_json_after p : transfer_after p (bulk_transfer_statistics_to_json json_double p reset).2.
Proof. unfold bulk_transfer_statistics_to_json. cbn [statistics_to_json]. split_pairs. split_and!; [done|done|]. intros f k. cbn [snd transfer_pairs]. follow_pairs f k. Qed.

Lemma origin_loop_after l rpcs : entries_after origin_after l (origin_loop json_double m reset l rpcs).2.
Proof.
  revert rpcs. induction l as [|[c p] l IH]; intros rpcs; cbn [origin_loop]; [constructor|].
  pose proof (origin_json_after p) as Hp. destruct (origin_rpc_statistics_to_json _ _ _).
  match goal with |- context [origin_loop _ _ _ l ?r] => specialize (IH r); destruct (origin_loop json_double m reset l r) end. by constructor.
Qed.
Lemma target_loop_after l rpcs : entries_after target_after l (target_loop json_double m reset l rpcs).2.
Proof.
  revert rpcs. induction l as [|[c p] l IH]; intros rpcs; cbn [target_loop]; [constructor|].
  pose proof (target_json_after p) as Hp. destruct (target_rpc_statistics_to_json _ _ _).
  match goal with |- context [target_loop _ _ _ l ?r] => specialize (IH r); destruct (target_loop json_double m reset l r) end. by constructor.
Qed.
Lemma bulk_create_loop_after l rpcs : entries_after create_after l (bulk_create_loop json_double m reset l rpcs).2.
Proof.
  revert rpcs. induction l as [|[c p] l IH]; intros rpcs; cbn [bulk_create_loop]; [constructor|].
  pose proof (create_json_after p) as Hp. destruct (bulk_create_statistics_to_json _ _ _).
  match goal with |- context [bulk_create_loop _ _ _ l ?r] => specialize (IH r); destruct (bulk_create_loop json_double m reset l r) end. by constructor.
Qed.
Lemma bulk_transfer_loop_after l rpcs : entries_after transfer_after l (bulk_transfer_loop json_double m reset l rpcs).2.
Proof.
  revert rpcs. induction l as [|[c p] l IH]; intros rpcs; cbn [bulk_transfer_loop]; [constructor|].
  pose proof (transfer_json_after p) as Hp. destruct (bulk_transfer_statistics_to_json _ _ _).
  match goal with |- context [bulk_transfer_loop _ _ _ l ?r] => specialize (IH r); destruct (bulk_transfer_loop json_double m reset l r) end. by constructor.
Qed.
End Loops.

Lemma rpcs_ok_nil : rpcs_ok [].
Proof. split; [constructor|done]. Qed.

(** C34: In the statistics file, the section "origin" of each RPC has exactly one
    member per entry of the table of origins with that RPC and parent RPC, in the
    order of the table, named after the address and holding the statistics of the
    entry. *)
Theorem origin_sections_exact json_double self host pid cmdline m reset j t :
  monitor_statistics_to_json json_double self host pid cmdline m reset = Some (j, t) ->
  exists rpcs, json_object_object_get (Some j) "rpcs" = Some (JObject rpcs) /\
    forall key, section_of key "origin" rpcs =
      map (fun e => ("sent to " +:+ addr_name (addr_id e.1) m, Some (origin_rpc_statistics_to_json json_double e.2 reset).1)%string)
        (filter (fun e => build_rpc_key e.1 = key) (origin_rpc_stats (tbl m))).
Proof.
  unfold monitor_statistics_to_json. destruct (hg_statistics_to_json _ _ _).
  destruct (origin_loop_section json_double m reset (origin_rpc_stats (tbl m)) [] rpcs_ok_nil) as [Hok Hsec].
  destruct (origin_loop _ _ _ _ _) as [r1 l1]. cbn [fst] in *.
  pose proof (target_loop_keeps json_double m reset (target_rpc_stats (tbl m)) r1) as H2. destruct (target_loop _ _ _ _ _) as [r2 l2].
  pose proof (bulk_create_loop_keeps json_double m reset (bulk_create_stats (tbl m)) r2) as H3. destruct (bulk_create_loop _ _ _ _ _) as [r3 l3].
  pose proof (bulk_transfer_loop_keeps json_double m reset (bulk_transfer_stats (tbl m)) r3) as H4. destruct (bulk_transfer_loop _ _ _ _ _) as [r4 l4].
  cbn [fst] in *. destruct (keeps_trans _ _ _ H2 (keeps_trans _ _ _ H3 H4) Hok) as [_ Hkeep].
  intros (l & Hl & [= <- _])%bind_Some. exists r4. split.
  - destruct cmdline; [apply bind_Some in Hl as (args & _ & [= <-])|injection Hl as <-]; done.
  - intros key. by rewrite Hkeep, Hsec.
Qed.

(** Writing the statistics keeps every entry of every table, and leaves each of
    its statistics as it was, or empty when the reset is asked: no statistic of
    any table escapes the reset. *)
Theorem dump_resets_all json_double self host pid cmdline m reset j t :
  monitor_statistics_to_json json_double self host pid cmdline m reset = Some (j, t) ->
  (forall f, hg_stats t f = after reset (hg_stats (tbl m) f)) /\
  entries_after (origin_after reset) (origin_rpc_stats (tbl m)) (origin_rpc_stats t) /\
  entries_after (target_after reset) (target_rpc_stats (tbl m)) (target_rpc_stats t) /\
  entries_after (create_after reset) (bulk_create_stats (tbl m)) (bulk_create_stats t) /\
  entries_after (transfer_after reset) (bulk_transfer_stats (tbl m)) (bulk_transfer_stats t).
Proof.
  unfold monitor_statistics_to_json.
  assert (forall f, (hg_statistics_to_json json_double (hg_stats (tbl m)) reset).2 f = after reset (hg_stats (tbl m) f)) as H0.
  { intros f. unfold hg_statistics_to_json, statistics_to_json, set_hg, after. cbn [snd]. by destruct f, reset. }
  destruct (hg_statistics_to_json _ _ _) as [j0 h].
  pose proof (origin_loop_after json_double m reset (origin_rpc_stats (tbl m)) []) as H1. destruct (origin_loop _ _ _ _ _) as [r1 l1].
  pose proof (target_loop_after json_double m reset (target_rpc_stats (tbl m)) r1) as H2. destruct (target_loop _ _ _ _ _) as [r2 l2].
  pose proof (bulk_create_loop_after json_double m reset (bulk_create_stats (tbl m)) r2) as H3. destruct (bulk_create_loop _ _ _ _ _) as [r3 l3].
  pose proof (bulk_transfer_loop_after json_double m reset (bulk_transfer_stats (tbl m)) r3) as H4. destruct (bulk_transfer_loop _ _ _ _ _) as [r4 l4].
  intros (l & Hl & [= _ <-])%bind_Some. by split_and!.
Qed.

(** ** The command line *)

Definition nul_terminated (args : list string) : list ascii := concat (map (fun a => String.list_ascii_of_string a ++ ["000"%char]) args).

Lemma append_empty s : (s +:+ EmptyString)%string = s.
Proof. induction s as [|c s IH]; [done|]. change (String c (s +:+ EmptyString) = String c s)%string. by rewrite IH. Qed.
Lemma append_cons s c s' : (s +:+ String c s' = (s +:+ String c EmptyString) +:+ s')%string.
Proof. induction s as [|x s IH]; [done|]. change (String x (s +:+ String c s') = String x ((s +:+ String c EmptyString) +:+ s'))%string. by rewrite IH. Qed.

Lemma cmdline_chunk p a l : free_of "000"%char a ->
  cmdline_args p (String.list_ascii_of_string a ++ l) = cmdline_args (p +:+ a) l.
Proof.
  revert p. induction a as [|c a IH]; intros p Ha; simpl in *.
  - by rewrite append_empty.
  - destruct Ha as [Hc Ha]. rewrite decide_False by done. rewrite IH by done. by rewrite (append_cons p c a).
Qed.

(** The arguments of the command line are read back in order, the empty ones
    being dropped, from strings that end in a null character and fit in the
    buffer; a last string that the buffer cuts is read past the end. *)
Theorem cmdline_roundtrip args : Forall (free_of "000"%char) args ->
  cmdline_args EmptyString (nul_terminated args) = Some (filter (fun a => a ≠ EmptyString) args) /\
  forall a, a ≠ EmptyString -> free_of "000"%char a -> cmdline_args EmptyString (nul_terminated args ++ String.list_ascii_of_string a) = None.
Proof.
  intros Hf. unfold nul_terminated. induction Hf as [|x args Hx Hf [IH1 IH2]]; simpl.
  - split; [done|]. intros a Ha Hfree. rewrite <- (app_nil_r (String.list_ascii_of_string a)), cmdline_chunk by done.
    by destruct a.
  - split.
    + rewrite <- app_assoc, cmdline_chunk by done. simpl. rewrite IH1. simpl. rewrite filter_cons. by destruct x.
    + intros a Ha Hfree. rewrite <- !app_assoc, cmdline_chunk by done. simpl. by rewrite IH2.
Qed.

(** ** Examples *)

Definition demo_path (rpc parent addr : Z) : callpath := Callpath rpc parent addr.
Definition sampled_pairs : origin_rpc_statistics := set_pair wait DURATION 3 (set_pair forward DURATION 2 zero_pairs).
Definition demo_dumped : default_monitor_state :=
  Monitor true false 1 1 0
    (Tables (fun _ => zero_statistics) [] [] [(demo_path 65541 65535 1, sampled_pairs); (demo_path 65541 65535 2, zero_pairs); (demo_path 131072 65535 1, zero_pairs)] [])
    (Names [(65541, "sum"%string)] [("na+sm://1", 1); ("na+sm://2", 2)]%string 2) (Carried ∅ ∅ ∅ ∅) (SeriesState ∅ [] 0 [] []).

Lemma rpc_key_identifies_witness : build_rpc_key (demo_path 65541 65535 1) = "65535:65535:131071:5"%string /\
  build_rpc_key (demo_path 65541 65535 1) = build_rpc_key (demo_path 65541 65535 2).
Proof.
  split; [vm_compute; reflexivity|].
  apply (rpc_key_identifies (demo_path 65541 65535 1) (demo_path 65541 65535 2));
    [unfold callpath_ok, is_u64; simpl; lia|unfold callpath_ok, is_u64; simpl; lia|split; reflexivity].
Defined.

Lemma origin_sections_exact_witness : exists rpcs,
  json_object_object_get (fst <$> monitor_statistics_to_json (fun _ => "0"%string) "na+sm://0" "host" 1 None demo_dumped false) "rpcs" = Some (JObject rpcs) /\
  (section_of "65535:65535:131071:5" "origin" rpcs).*1 = ["sent to na+sm://1"; "sent to na+sm://2"]%string.
Proof.
  assert (Hs : exists j, fst <$> monitor_statistics_to_json (fun _ => "0"%string) "na+sm://0" "host" 1 None demo_dumped false = Some j) by (eexists; vm_compute; reflexivity).
  destruct (monitor_statistics_to_json (fun _ => "0"%string) "na+sm://0" "host" 1 None demo_dumped false) as [[j t]|] eqn:He; [clear Hs|destruct Hs as [? [=]]].
  destruct (origin_sections_exact _ _ _ _ _ _ _ _ _ He) as (rpcs & Hj & Hs). exists rpcs. split; [exact Hj|].
  rewrite Hs. vm_compute. reflexivity.
Defined.

Lemma dump_resets_all_witness : exists j t,
  monitor_statistics_to_json (fun _ => "0"%string) "na+sm://0" "host" 1 None demo_dumped true = Some (j, t) /\
  entries_after (origin_after true) (origin_rpc_stats (tbl demo_dumped)) (origin_rpc_stats t).
Proof.
  assert (Hs : exists j, fst <$> monitor_statistics_to_json (fun _ => "0"%string) "na+sm://0" "host" 1 None demo_dumped true = Some j) by (eexists; vm_compute; reflexivity).
  destruct (monitor_statistics_to_json (fun _ => "0"%string) "na+sm://0" "host" 1 None demo_dumped true) as [[j t]|] eqn:He; [clear Hs|destruct Hs as [? [=]]].
  exists j, t. split; [reflexivity|]. apply (dump_resets_all _ _ _ _ _ _ _ _ _ He).
Defined.

Lemma cmdline_roundtrip_witness : cmdline_args EmptyString (nul_terminated ["prog"; ""; "-v"]%string) = Some ["prog"; "-v"]%string.
Proof. refine (proj1 (cmdline_roundtrip ["prog"; ""; "-v"]%string _)). repeat constructor; discriminate. Defined.
