(* ===== verification/MonitorInit.v ===== *)
(** * The life of the default monitor (src/margo-default-monitoring.c)

    Its configuration, its initialisation, the dump of its state into files, and
    its finalisation.  Reading and printing doubles are parameters, like the
    outcome of opening a file. *)

From Stdlib Require Import QArith Ascii.
From stdpp Require Import strings pretty.
From S2P Require Import Prelude Utlist Id Timer Json Stats Monitor MonitorJson.

#[local] Open Scope Z_scope.

(** ** Configuration *)

Record monitor_config := MonitorConfig {
  filename_prefix : string;
  precision : Z;
  stats_pretty_json : Z;
  time_series_pretty_json : Z;
  sample_every : Z;
  interval : Q;
  statistics_on : bool;
  time_series_on : bool
}.

Definition JSON_C_TO_STRING_PRETTY : Z := 2.

Definition json_object_get_boolean (j : option json) : bool := match j with Some (JBool b) => b | _ => false end.

Section Configuration.
(** [strtod] reads a double of a JSON document, [json_double] prints one. *)
Context (strtod : string -> Q) (json_double : Q -> string).

Definition json_object_get_double (j : option json) : Q :=
  match j with Some (JDouble s) => strtod s | Some (JInt n) => inject_Z n | _ => 0 end.

Definition read_statistics (statistics : option json) (c : monitor_config) : monitor_config :=
  if negb (json_object_is_type statistics json_type_object) then c else
  let disable := json_object_object_get statistics "disable" in
  let on := if json_object_is_type disable json_type_boolean then negb (json_object_get_boolean disable) else statistics_on c in
  let p := json_object_object_get statistics "precision" in
  let prec := if json_object_is_type p json_type_int then json_object_get_int p else precision c in
  let prec := if 9 <? prec then 9 else prec in
  let sampling := json_object_object_get statistics "sample_progress_every" in
  let every :=
    if json_object_is_type sampling json_type_int then
      let n := json_object_get_int sampling in if n <=? 0 then 0 else n
    else sample_every c in
  let pretty_json := json_object_object_get statistics "pretty_json" in
  let pretty :=
    if json_object_is_type pretty_json json_type_boolean && json_object_get_boolean pretty_json then JSON_C_TO_STRING_PRETTY else stats_pretty_json c in
  MonitorConfig (filename_prefix c) prec pretty (time_series_pretty_json c) every (interval c) on (time_series_on c).

Definition read_time_series (time_series : option json) (c : monitor_config) : monitor_config :=
  if negb (json_object_is_type time_series json_type_object) then c else
  let disable := json_object_object_get time_series "disable" in
  let on := if json_object_is_type disable json_type_boolean then negb (json_object_get_boolean disable) else time_series_on c in
  let p := json_object_object_get time_series "precision" in
  let prec := if json_object_is_type p json_type_int then json_object_get_int p else precision c in
  let time_interval := json_object_object_get time_series "time_interval_sec" in
  let i :=
    if json_object_is_type time_interval json_type_double then
      if json_object_is_type time_interval json_type_double then json_object_get_double time_interval
      else if json_object_is_type time_interval json_type_int then inject_Z (json_object_get_int64 time_interval)
      else interval c
    else interval c in
  let pretty_json := json_object_object_get time_series "pretty_json" in
  let pretty :=
    if json_object_is_type pretty_json json_type_boolean && json_object_get_boolean pretty_json then JSON_C_TO_STRING_PRETTY else time_series_pretty_json c in
  MonitorConfig (filename_prefix c) prec (stats_pretty_json c) pretty (sample_every c) i (statistics_on c) on.

(** The three environment variables, [None] when they are not set. *)
Definition read_config (prefix disable_stats disable_series : option string) (config : option json) : monitor_config :=
  let c := MonitorConfig (default "margo"%string prefix) 9 0 0 1 1 (bool_decide (disable_stats = None)) (bool_decide (disable_series = None)) in
  let filename := json_object_object_get config "filename_prefix" in
  let c :=
    match json_object_get_string filename with
    | Some s => MonitorConfig s (precision c) (stats_pretty_json c) (time_series_pretty_json c) (sample_every c) (interval c) (statistics_on c) (time_series_on c)
    | None => c
    end in
  let c := read_statistics (json_object_object_get config "statistics") c in
  read_time_series (json_object_object_get config "time_series") c.

(** [self_addr] is what [margo_addr_to_string] leaves in the buffer. *)
Definition __margo_default_monitor_initialize (prefix disable_stats disable_series : option string) (config : option json) (num_pools : nat)
  (self_addr : string) : monitor_config * string * default_monitor_state :=
  let c := read_config prefix disable_stats disable_series config in
  let pools := if time_series_on c then repeat (empty_series 256) num_pools else [] in
  (c, if bool_decide (self_addr = EmptyString) then "<unknown>"%string else self_addr,
   Monitor (statistics_on c) (time_series_on c) (sample_every c) (interval c) 0 (Tables (fun _ => zero_statistics) [] [] [] [])
     (Names [] [] 0) (Carried ∅ ∅ ∅ ∅) (SeriesState ∅ [] 0 pools pools)).

Definition __margo_default_monitor_config (c : monitor_config) : json :=
  JObject [("filename_prefix", Some (JString (filename_prefix c)));
           ("precision", Some (json_object_new_int (precision c)));
           ("statistics", Some (JObject
              [("pretty_json", Some (JBool (negb (stats_pretty_json c =? 0)%Z))); ("disable", Some (JBool (negb (statistics_on c))))]));
           ("time_series", Some (JObject
              [("pretty_json", Some (JBool (negb (stats_pretty_json c =? 0)%Z))); ("disable", Some (JBool (negb (time_series_on c))));
               ("time_interval_sec", Some (JDouble (json_double (interval c))))]))]%string.
End Configuration.

(** The format of doubles, its third character replaced. *)
Definition double_format (c : monitor_config) : string :=
  String "%" (String "." (String (ascii_of_N (Z.to_N (u8 (48 + precision c)))) (String "f" EmptyString))).

(** ** Files *)

Section Files.
Context (json_double : Q -> string) (malloc : heap -> loc).

(** What the functions read of the process: its host, pid, command line, and
    whether the two files can be opened. *)
Record process := Process { hostname : string; pid : Z; cmdline : option (list ascii); stats_opens : bool; series_opens : bool }.

(** A file that is written: its name, the format of its doubles, and whether it
    is pretty-printed. *)
Record file := File { file_name : string; file_format : string; file_pretty : Z; file_json : json }.

Definition monitor_file_name (c : monitor_config) (p : process) (suffix : string) : string :=
  (filename_prefix c +:+ "." +:+ hostname p +:+ "." +:+ pretty (pid p) +:+ suffix)%string.

(** [names] are the names of the pools. *)
Definition write_monitor_state_to_json_file (c : monitor_config) (self : string) (p : process) (names : list string) (m : default_monitor_state)
  (reset : bool) : option (list file * default_monitor_state) :=
  if bool_decide (filename_prefix c = EmptyString) then Some ([], m) else
  '(f1, m) ← (if enable_statistics m && stats_opens p then
      '(json, t) ← monitor_statistics_to_json json_double self (hostname p) (pid p) (cmdline p) m reset;
      Some ([File (monitor_file_name c p ".stats.json") (double_format c) (stats_pretty_json c) json], with_tbl t m)
    else Some ([], m));
  '(f2, m) ← (if enable_time_series m && series_opens p then
      '(json, s) ← monitor_time_series_to_json json_double self names m reset;
      Some ([File (monitor_file_name c p ".series.json") (double_format c) (time_series_pretty_json c) json], with_ser s m)
    else Some ([], m));
  Some (f1 ++ f2, m).

Definition __margo_default_monitor_dump (self : string) (p : process) (names : list string) (m : default_monitor_state) (reset : bool) :
  option (json * default_monitor_state) :=
  '(l, m) ← (if enable_statistics m then
      '(json, t) ← monitor_statistics_to_json json_double self (hostname p) (pid p) (cmdline p) m reset;
      Some ([("stats"%string, Some json)], with_tbl t m)
    else Some ([], m));
  '(k, m) ← (if enable_time_series m then
      '(json, s) ← monitor_time_series_to_json json_double self names m reset;
      Some ([("series"%string, Some json)], with_ser s m)
    else Some ([], m));
  Some (JObject (l ++ k), m).

(** [pools] are the sizes of the pools, [names] their names; the frames that are
    still allocated are left. *)
Definition __margo_default_monitor_finalize (ts : Q) (pools : list (option (Z * Z))) (names : list string) (c : monitor_config) (self : string)
  (p : process) (m : default_monitor_state) : option (list file * heap) :=
  m ← update_rpc_time_series malloc ts m;
  m ← update_pool_time_series malloc ts pools m;
  '(files, m) ← write_monitor_state_to_json_file c self p names m false;
  m ← free_all_time_series (length names) m;
  Some (files, frames (ser m)).
End Files.

(** ** Properties *)

Lemma config_sections json_double c :
  let j := Some (__margo_default_monitor_config json_double c) in
  json_object_object_get j "filename_prefix" = Some (JString (filename_prefix c)) /\
  json_object_object_get j "statistics" =
    Some (JObject [("pretty_json", Some (JBool (negb (stats_pretty_json c =? 0)%Z))); ("disable", Some (JBool (negb (statistics_on c))))]%string) /\
  json_object_object_get j "time_series" =
    Some (JObject [("pretty_json", Some (JBool (negb (stats_pretty_json c =? 0)%Z))); ("disable", Some (JBool (negb (time_series_on c))));
               ("time_interval_sec", Some (JDouble (json_double (interval c))))]%string).
Proof. done. Qed.

(** A monitor that is given the configuration another one reports behaves as
    that one in what it records, when and where, but forgets some of its
    settings: the precision is 9 again, one of every call of the progress function is
    sampled, and the time series are printed as the statistics were. *)
Theorem config_forgets_settings strtod json_double e1 e2 e3 c : strtod (json_double (interval c)) = interval c ->
  let c' := read_config strtod e1 e2 e3 (Some (__margo_default_monitor_config json_double c)) in
  filename_prefix c' = filename_prefix c /\ statistics_on c' = statistics_on c /\ time_series_on c' = time_series_on c /\ interval c' = interval c /\
  (stats_pretty_json c' =? 0) = (stats_pretty_json c =? 0) /\
  precision c' = 9 /\ sample_every c' = 1 /\ time_series_pretty_json c' = stats_pretty_json c'.
Proof.
  intros Hd c'. unfold c', read_config. destruct (config_sections json_double c) as (-> & -> & ->).
  unfold read_time_series, read_statistics. simpl. rewrite Hd, !negb_involutive. split_and!; try done; by destruct (stats_pretty_json c =? 0).
Qed.

Lemma read_statistics_precision o c : precision c <= 9 -> precision (read_statistics o c) <= 9.
Proof.
  intros Hc. unfold read_statistics. destruct (json_object_is_type o json_type_object); [|done]. cbn [negb precision].
  destruct (Z.ltb_spec 9 (if json_object_is_type (json_object_object_get o "precision") json_type_int
    then json_object_get_int (json_object_object_get o "precision") else precision c)); lia.
Qed.

(** Without a precision for time series the precision is at most 9; from 0 to 9 the format
    of doubles asks for that many digits.  The precision given for time series is
    taken as it is. *)
Theorem precision_format strtod e1 e2 e3 config :
  let c := read_config strtod e1 e2 e3 config in
  let p := json_object_object_get (json_object_object_get config "time_series") "precision" in
  (json_object_is_type p json_type_int = false -> precision c <= 9) /\
  (0 <= precision c <= 9 -> double_format c = ("%." +:+ pretty (precision c) +:+ "f")%string) /\
  (forall n, - 2 ^ 31 <= n < 2 ^ 31 -> p = Some (JInt n) -> precision c = n).
Proof.
  intros c p. split_and!.
  - intros Hp. unfold c, read_config. cbv zeta. unfold read_time_series. fold p. rewrite Hp.
    destruct (json_object_is_type _ json_type_object); cbn [negb precision]; apply read_statistics_precision;
      by destruct (json_object_get_string _).
  - unfold double_format. generalize (precision c). intros n Hn.
    destruct n as [|q|q]; [done| |lia]. do 4 (destruct q as [q|q|]; try done; try lia).
  - intros n Hn Hp. unfold c, read_config. cbv zeta. unfold read_time_series. fold p. rewrite Hp.
    assert (json_object_is_type (json_object_object_get config "time_series") json_type_object = true) as ->.
    { unfold p in Hp. by destruct (json_object_object_get config "time_series") as [[]|]. }
    change (json_object_get_int (Some (JInt n)) = n). unfold json_object_get_int. simpl json_object_get_int64. lia.
Qed.

(** ** Examples *)

Lemma config_forgets_settings_witness :
  let c := MonitorConfig "trace" 3 0 JSON_C_TO_STRING_PRETTY 10 (1 # 2) true false in
  let c' := read_config (fun _ => (1 # 2)%Q) None None None (Some (__margo_default_monitor_config (fun _ => "0.5"%string) c)) in
  filename_prefix c' = "trace"%string /\ time_series_pretty_json c' = 0.
Proof.
  intros c c'.
  destruct (config_forgets_settings (fun _ => (1 # 2)%Q) (fun _ => "0.5"%string) None None None c eq_refl) as (Hf & _ & _ & _ & _ & _ & _ & Hp).
  split; [exact Hf|]. unfold c'. rewrite Hp. vm_compute. reflexivity.
Defined.

Lemma precision_format_witness :
  let config := Some (JObject [("time_series", Some (JObject [("precision", Some (JInt 17))]))]%string) in
  precision (read_config (fun _ => 0%Q) None None None config) = 17 /\
  double_format (read_config (fun _ => 0%Q) None None None config) = "%.Af"%string.
Proof.
  intros config. split.
  - apply (precision_format (fun _ => 0%Q) None None None config); [lia|reflexivity].
  - vm_compute. reflexivity.
Defined.
