(* ===== verification/Uthash.v ===== *)
(** * Hash tables (src/uthash.h)

    The macros of uthash that the default monitor uses, on the memory of the
    elements' handles: the list in the order of addition, the chains of the buckets
    and the growth of the table.  The fields of a handle are in three stores, one
    for [prev] and [next], one for [hh_prev] and [hh_next], one for the key and its
    hash; a result of [None] is an access to NULL or to a freed element.  A table
    is shown to be what [Monitor] takes it for: an association list. *)

From S2P Require Import Monitor.
From stdpp Require Import base fin_maps gmap.
From S2P Require Import Prelude Utlist.

#[local] Open Scope Z_scope.

Definition HASH_INITIAL_NUM_BUCKETS : Z := 32.
Definition HASH_INITIAL_NUM_BUCKETS_LOG2 : Z := 5.
Definition HASH_BKT_CAPACITY_THRESH : Z := 10.

Record UT_hash_bucket := Bucket { hh_head : option loc; count : Z; expand_mult : Z }.

(** [tail] is an element where the code has its handle. *)
Record UT_hash_table := Table {
  buckets : list UT_hash_bucket;
  num_buckets : Z;
  log2_num_buckets : Z;
  num_items : Z;
  tail : loc;
  ideal_chain_maxlen : Z;
  nonideal_items : Z;
  ineff_expands : Z;
  noexpand : bool
}.

Definition HASH_TO_BKT (hashv num_bkts : Z) : nat := Z.to_nat (Z.land hashv (u32 (num_bkts - 1))).

Section Uthash.

(** Keys are compared by their bytes and lengths; [hash] is HASH_FUNCTION. *)
Context {K : Type} `{EqDecision K} (hash : K -> Z).

(** The handles.  A head is the first element with its table, [None] for NULL. *)
Record mem := Mem { order : store; chains : store; keys : gmap loc (K * Z) }.
Notation head := (option (loc * UT_hash_table)).

(** ** Lookup *)

(** [fuel] bounds the length of the chain. *)
Fixpoint HASH_FIND_IN_BKT (fuel : nat) (m : mem) (out : option loc) (key : K) (hashval : Z) : option (option loc) :=
  match out with
  | None => Some None
  | Some x =>
      match fuel with
      | O => None
      | S fuel =>
          '(k, hashv) ← keys m !! x;
          if (hashv =? hashval) && bool_decide (k = key) then Some (Some x)
          else n ← get_next (chains m) x; HASH_FIND_IN_BKT fuel m n key hashval
      end
  end.

Definition HASH_FIND (m : mem) (h : head) (key : K) : option (option loc) :=
  match h with
  | None => Some None
  | Some (_, tbl) =>
      let hashval := hash key in
      b ← buckets tbl !! HASH_TO_BKT hashval (num_buckets tbl);
      HASH_FIND_IN_BKT (S (size (chains m))) m (hh_head b) key hashval
  end.

(** ** Growth *)

(** An element goes to the front of its new bucket. *)
Definition move_to (bkts : list UT_hash_bucket) (σ : store) (ideal nonideal : Z) (i : nat) (x : loc) : option (list UT_hash_bucket * store * Z) :=
  b ← bkts !! i;
  let count := u32 (count b + 1) in
  let '(nonideal, mult) :=
    if count >? ideal then (u32 (nonideal + 1), if count >? u32 (expand_mult b * ideal) then u32 (expand_mult b + 1) else expand_mult b)
    else (nonideal, expand_mult b) in
  σ ← set_prev σ x None;
  σ ← set_next σ x (hh_head b);
  σ ← (match hh_head b with Some h => set_prev σ h (Some x) | None => Some σ end);
  Some (<[i := Bucket (Some x) count mult]> bkts, σ, nonideal).

(** The chain of one old bucket. *)
Fixpoint move_chain (fuel : nat) (ks : gmap loc (K * Z)) (num ideal : Z) (thh : option loc) (bkts : list UT_hash_bucket) (σ : store) (nonideal : Z)
    : option (list UT_hash_bucket * store * Z) :=
  match thh with
  | None => Some (bkts, σ, nonideal)
  | Some x =>
      match fuel with
      | O => None
      | S fuel =>
          nxt ← get_next σ x;
          '(_, hashv) ← ks !! x;
          '(bkts, σ, nonideal) ← move_to bkts σ ideal nonideal (HASH_TO_BKT hashv num) x;
          move_chain fuel ks num ideal nxt bkts σ nonideal
      end
  end.

Fixpoint move_buckets (ks : gmap loc (K * Z)) (num ideal : Z) (old bkts : list UT_hash_bucket) (σ : store) (nonideal : Z)
    : option (list UT_hash_bucket * store * Z) :=
  match old with
  | [] => Some (bkts, σ, nonideal)
  | b :: old =>
      '(bkts, σ, nonideal) ← move_chain (S (size σ)) ks num ideal (hh_head b) bkts σ nonideal;
      move_buckets ks num ideal old bkts σ nonideal
  end.

Definition HASH_EXPAND_BUCKETS (ks : gmap loc (K * Z)) (σ : store) (tbl : UT_hash_table) : option (store * UT_hash_table) :=
  let num := u32 (num_buckets tbl * 2) in
  let ideal := u32 (Z.shiftr (num_items tbl) (log2_num_buckets tbl + 1) + if Z.land (num_items tbl) (u32 (num - 1)) =? 0 then 0 else 1) in
  '(bkts, σ, nonideal) ← move_buckets ks num ideal (buckets tbl) (replicate (Z.to_nat (num_buckets tbl * 2)) (Bucket None 0 0)) σ 0;
  let ineff := if nonideal >? Z.shiftr (num_items tbl) 1 then u32 (ineff_expands tbl + 1) else 0 in
  Some (σ, Table bkts num (u32 (log2_num_buckets tbl + 1)) (num_items tbl) (tail tbl) ideal nonideal ineff ((ineff >? 1) || noexpand tbl)).

(** ** Addition *)

Definition with_buckets (bkts : list UT_hash_bucket) (t : UT_hash_table) : UT_hash_table :=
  Table bkts (num_buckets t) (log2_num_buckets t) (num_items t) (tail t) (ideal_chain_maxlen t) (nonideal_items t) (ineff_expands t) (noexpand t).
Definition with_items (n : Z) (t : UT_hash_table) : UT_hash_table :=
  Table (buckets t) (num_buckets t) (log2_num_buckets t) n (tail t) (ideal_chain_maxlen t) (nonideal_items t) (ineff_expands t) (noexpand t).
Definition with_tail (x : loc) (t : UT_hash_table) : UT_hash_table :=
  Table (buckets t) (num_buckets t) (log2_num_buckets t) (num_items t) x (ideal_chain_maxlen t) (nonideal_items t) (ineff_expands t) (noexpand t).

Definition HASH_ADD_TO_BKT (ks : gmap loc (K * Z)) (σ : store) (tbl : UT_hash_table) (i : nat) (add : loc) : option (store * UT_hash_table) :=
  b ← buckets tbl !! i;
  let n := u32 (count b + 1) in
  σ ← set_next σ add (hh_head b);
  σ ← set_prev σ add None;
  σ ← (match hh_head b with Some h => set_prev σ h (Some add) | None => Some σ end);
  let tbl := with_buckets (<[i := Bucket (Some add) n (expand_mult b)]> (buckets tbl)) tbl in
  if (u32 (u32 (expand_mult b + 1) * HASH_BKT_CAPACITY_THRESH) <=? n) && negb (noexpand tbl) then HASH_EXPAND_BUCKETS ks σ tbl
  else Some (σ, tbl).

(** Running out of memory ends the process. *)
Definition HASH_MAKE_TABLE (add : loc) : UT_hash_table :=
  Table (replicate (Z.to_nat HASH_INITIAL_NUM_BUCKETS) (Bucket None 0 0)) HASH_INITIAL_NUM_BUCKETS HASH_INITIAL_NUM_BUCKETS_LOG2 0 add 0 0 0 false.

Definition HASH_APPEND_LIST (σ : store) (tbl : UT_hash_table) (add : loc) : option (store * UT_hash_table) :=
  σ ← set_next σ add None;
  σ ← set_prev σ add (Some (tail tbl));
  σ ← set_next σ (tail tbl) (Some add);
  Some (σ, with_tail add tbl).

Definition HASH_ADD (m : mem) (h : head) (add : loc) (key : K) : option (mem * head) :=
  let hashval := hash key in
  let ks := <[add := (key, hashval)]> (keys m) in
  '(σ, hd, tbl) ←
    match h with
    | None =>
        σ ← set_next (order m) add None;
        σ ← set_prev σ add None;
        Some (σ, add, HASH_MAKE_TABLE add)
    | Some (hd, tbl) => '(σ, tbl) ← HASH_APPEND_LIST (order m) tbl add; Some (σ, hd, tbl)
    end;
  let tbl := with_items (u32 (num_items tbl + 1)) tbl in
  '(χ, tbl) ← HASH_ADD_TO_BKT ks (chains m) tbl (HASH_TO_BKT hashval (num_buckets tbl)) add;
  Some (Mem σ χ ks, Some (hd, tbl)).

(** ** Deletion *)

Definition HASH_DEL_IN_BKT (σ : store) (tbl : UT_hash_table) (i : nat) (del : loc) : option (store * UT_hash_table) :=
  b ← buckets tbl !! i;
  nx ← get_next σ del;
  pv ← get_prev σ del;
  let b := Bucket (if ptr_eqb (hh_head b) (Some del) then nx else hh_head b) (u32 (count b - 1)) (expand_mult b) in
  σ ← (match pv with Some p => set_next σ p nx | None => Some σ end);
  nx ← get_next σ del;
  σ ← (match nx with Some n => pv ← get_prev σ del; set_prev σ n pv | None => Some σ end);
  Some (σ, with_buckets (<[i := b]> (buckets tbl)) tbl).

Definition HASH_DELETE (m : mem) (h : head) (del : loc) : option (mem * head) :=
  '(hd, tbl) ← h;
  pv ← get_prev (order m) del;
  nx ← get_next (order m) del;
  match pv, nx with
  | None, None => Some (m, None)
  | _, _ =>
      tbl ← (if bool_decide (del = tail tbl) then p ← pv; Some (with_tail p tbl) else Some tbl);
      '(σ, hd) ← (match pv with
                  | Some p => σ ← set_next (order m) p nx; Some (σ, hd)
                  | None => n ← nx; Some (order m, n)
                  end);
      σ ← (match nx with Some n => set_prev σ n pv | None => Some σ end);
      '(_, hashv) ← keys m !! del;
      '(χ, tbl) ← HASH_DEL_IN_BKT (chains m) tbl (HASH_TO_BKT hashv (num_buckets tbl)) del;
      Some (Mem σ χ (keys m), Some (hd, with_items (u32 (num_items tbl - 1)) tbl))
  end.

(** ** Iteration *)

(** The elements in the order in which HASH_ITER visits them; [tmp] is read before
    the body runs. *)
Fixpoint HASH_ITER (fuel : nat) (σ : store) (el : option loc) : option (list loc) :=
  match el with
  | None => Some []
  | Some x =>
      match fuel with
      | O => None
      | S fuel => tmp ← get_next σ x; l ← HASH_ITER fuel σ tmp; Some (x :: l)
      end
  end.

Definition free_element (x : loc) (m : mem) : mem := Mem (delete x (order m)) (delete x (chains m)) (delete x (keys m)).

(** HASH_ITER over the deletion and the release of each element, as when the
    monitor ends. *)
Fixpoint free_all (fuel : nat) (m : mem) (h : head) (el : option loc) : option (mem * head) :=
  match el with
  | None => Some (m, h)
  | Some x =>
      match fuel with
      | O => None
      | S fuel =>
          tmp ← get_next (order m) x;
          '(m, h) ← HASH_DELETE m h x;
          free_all fuel (free_element x m) h tmp
      end
  end.

(** What the monitor does with a key: find its element, or add [x]. *)
Definition hash_get (m : mem) (h : head) (key : K) (x : loc) : option (loc * mem * head) :=
  r ← HASH_FIND m h key;
  match r with
  | Some y => Some (y, m, h)
  | None => '(m, h) ← HASH_ADD m h x key; Some (x, m, h)
  end.

(** ** Chains *)

Notation chain_map := (nat -> list loc).

Definition cons_at (i : nat) (x : loc) (B : chain_map) : chain_map := fun j => if decide (j = i) then x :: B i else B j.

(** The buckets [bkts] hold the chains [B]. *)
Record chains_ok (σ : store) (bkts : list UT_hash_bucket) (B : chain_map) : Prop := {
  co_bucket : forall i b, bkts !! i = Some b -> hh_head b = hd_or (B i) None /\ count b = u32 (Z.of_nat (length (B i)));
  co_seg : forall i, (i < length bkts)%nat -> dl_seg σ None (B i) None;
  co_nodup : forall i, (i < length bkts)%nat -> NoDup (B i);
  co_disjoint : forall i j x, (i < length bkts)%nat -> (j < length bkts)%nat -> x ∈ B i -> x ∈ B j -> i = j
}.

Definition same_dom (σ σ' : store) : Prop := forall y, is_Some (σ' !! y) <-> is_Some (σ !! y).

(** An element goes to the front of a chain, its two fields being written in either
    order. *)
Lemma push_front σ bl x : NoDup bl -> x ∉ bl -> is_Some (σ !! x) -> dl_seg σ None bl None ->
  exists σ', let h := hd_or bl None in
    (σ ← set_prev σ x None; σ ← set_next σ x h; match h with Some h => set_prev σ h (Some x) | None => Some σ end) = Some σ' /\
    (σ ← set_next σ x h; σ ← set_prev σ x None; match h with Some h => set_prev σ h (Some x) | None => Some σ end) = Some σ' /\
    dl_seg σ' None (x :: bl) None /\ (forall y, y ∉ x :: bl -> σ' !! y = σ !! y) /\ same_dom σ σ'.
Proof.
  intros Hnd Hx [[p n] Hn] Hs. destruct bl as [|h bl].
  - cbn [hd_or]. dl_run. eexists. split; [done|]. rewrite !insert_insert_eq. split; [done|].
    split; [by simplify_map_eq|]. split; [intros y Hy; dl_nodup; by simplify_map_eq|]. unfold same_dom. dom_solve.
  - destruct Hs as [Hh Hs]. dl_nodup. cbn [hd_or]. dl_run. eexists. split; [done|]. rewrite !insert_insert_eq. split; [done|].
    split; [|split; [intros y Hy; dl_nodup; by simplify_map_eq|unfold same_dom; dom_solve]].
    simpl. split; [by simplify_map_eq|]. split; [by simplify_map_eq|]. by rewrite !dl_seg_frame by done.
Qed.

Lemma cons_at_eq i x B : cons_at i x B i = x :: B i.
Proof. unfold cons_at. by rewrite decide_True. Qed.
Lemma cons_at_ne i j x B : j ≠ i -> cons_at i x B j = B j.
Proof. intros. unfold cons_at. by rewrite decide_False. Qed.

Lemma elem_cons_at i j x y B : y ∈ cons_at i x B j <-> y ∈ B j \/ (j = i /\ y = x).
Proof.
  destruct (decide (j = i)) as [->|Hne]; [rewrite cons_at_eq, elem_of_cons|rewrite cons_at_ne by done]; naive_solver.
Qed.

Lemma chains_push σ σ' bkts B i b x mult : chains_ok σ bkts B -> bkts !! i = Some b ->
  (forall j, (j < length bkts)%nat -> x ∉ B j) ->
  dl_seg σ' None (x :: B i) None -> (forall y, y ∉ x :: B i -> σ' !! y = σ !! y) ->
  chains_ok σ' (<[i := Bucket (Some x) (u32 (count b + 1)) mult]> bkts) (cons_at i x B).
Proof.
  intros [Hb Hs Hn Hd] Hi Hx Hseg Hframe. pose proof (lookup_lt_Some _ _ _ Hi) as Hlt.
  constructor; rewrite ?length_insert.
  - intros j bj. destruct (decide (j = i)) as [->|Hne].
    + rewrite list_lookup_insert_eq by done. intros [= <-]. rewrite cons_at_eq. cbn [hh_head count]. split; [done|].
      destruct (Hb i b Hi) as [_ ->]. cbn [length]. unfold u32. rewrite Zplus_mod_idemp_l. f_equal. lia.
    + rewrite list_lookup_insert_ne by done. rewrite cons_at_ne by done. apply Hb.
  - intros j Hj. destruct (decide (j = i)) as [->|Hne]; [by rewrite cons_at_eq|]. rewrite cons_at_ne by done.
    eapply dl_seg_ext, Hs; [|done]. intros y Hy. apply Hframe. intros [->|Hyi]%elem_of_cons; [by apply (Hx j)|]. by apply Hne, (Hd j i y).
  - intros j Hj. destruct (decide (j = i)) as [->|Hne]; [rewrite cons_at_eq; apply NoDup_cons; auto|]. rewrite cons_at_ne by done. auto.
  - intros j k y Hj Hk. rewrite !elem_cons_at. intros [Hy|[-> ->]] [Hz|[-> Hz]]; [by apply (Hd j k y)| | |done].
    + subst. by destruct (Hx j Hj).
    + by destruct (Hx k Hk).
Qed.

(** ** Growth keeps the elements *)

Definition slot (ks : gmap loc (K * Z)) (num : Z) (x : loc) : option nat := (fun e => HASH_TO_BKT e.2 num) <$> ks !! x.

(** Elements that are in no bucket yet, in a chain of their own. *)
Definition waiting (ks : gmap loc (K * Z)) (num : Z) (n : nat) (B : chain_map) (rest : list loc) : Prop :=
  NoDup rest /\ forall x, x ∈ rest -> (exists i, slot ks num x = Some i /\ (i < n)%nat) /\ forall j, (j < n)%nat -> x ∉ B j.

(** What a growth has done: [rest] is in the buckets, and nothing else has moved. *)
Record moved (ks : gmap loc (K * Z)) (num : Z) (n : nat) (rest : list loc) (σ σ' : store) (B B' : chain_map) : Prop := {
  mv_elem : forall i y, (i < n)%nat -> y ∈ B' i <-> y ∈ B i \/ (y ∈ rest /\ slot ks num y = Some i);
  mv_frame : forall y, y ∉ rest -> (forall j, (j < n)%nat -> y ∉ B j) -> σ' !! y = σ !! y;
  mv_dom : same_dom σ σ'
}.

Lemma moved_nil ks num n σ B : moved ks num n [] σ σ B B.
Proof. constructor; [|done|done]. intros i y _. rewrite elem_of_nil. tauto. Qed.

Lemma moved_app ks num n l1 l2 σ σ1 σ2 B B1 B2 : moved ks num n l1 σ σ1 B B1 -> moved ks num n l2 σ1 σ2 B1 B2 -> moved ks num n (l1 ++ l2) σ σ2 B B2.
Proof.
  intros [E1 F1 D1] [E2 F2 D2]. constructor.
  - intros i y Hi. rewrite E2, E1, elem_of_app by done. tauto.
  - intros y [H1 H2]%not_elem_of_app Hy. rewrite F2; [by apply F1|done|]. intros j Hj [?|[? _]]%E1; [by apply (Hy j)|done|done].
  - intros y. etrans; [apply D2|apply D1].
Qed.

Lemma move_to_spec ks num ideal nonideal σ bkts B x i : chains_ok σ bkts B -> waiting ks num (length bkts) B [x] -> is_Some (σ !! x) ->
  slot ks num x = Some i ->
  exists bkts' σ' nonideal' B', move_to bkts σ ideal nonideal i x = Some (bkts', σ', nonideal') /\ chains_ok σ' bkts' B' /\
    length bkts' = length bkts /\ moved ks num (length bkts) [x] σ σ' B B'.
Proof.
  intros Hok [_ Hw] Hx Hi. destruct (Hw x) as [(i' & Hi' & Hlt) Hno]; [by apply list_elem_of_singleton|]. rewrite Hi in Hi'. injection Hi' as <-.
  destruct (lookup_lt_is_Some_2 bkts i Hlt) as [b Hb]. destruct (co_bucket _ _ _ Hok i b Hb) as [Hhd _].
  destruct (push_front σ (B i) x) as (σ' & Hp & _ & Hseg & Hframe & Hdom); [by eapply co_nodup|by apply Hno|done|by eapply co_seg|].
  unfold move_to. rewrite Hb. cbn [mbind option_bind]. rewrite Hhd. cbn zeta in Hp.
  destruct (if u32 (count b + 1) >? ideal then _ else _) as [nonideal' mult].
  exists (<[i := Bucket (Some x) (u32 (count b + 1)) mult]> bkts), σ', nonideal', (cons_at i x B). split.
  { cbn [mbind option_bind] in Hp. destruct (set_prev σ x None) as [σ1|]; [|done]. cbn [mbind option_bind] in Hp |- *.
    destruct (set_next σ1 x _) as [σ2|]; [|done]. cbn [mbind option_bind] in Hp |- *. rewrite Hp. reflexivity. }
  split; [by apply (chains_push σ)|]. split; [by rewrite length_insert|]. constructor; [| |done].
  - intros j y Hj. rewrite elem_cons_at, list_elem_of_singleton. split; [|intros [?|[-> Hs]]; [by left|right; split; congruence]].
    intros [?|[-> ->]]; [by left|by right].
  - intros y Hy Hyb. apply Hframe. intros [->|Hyi]%elem_of_cons; [by apply Hy, list_elem_of_singleton|by apply (Hyb i)].
Qed.

Lemma move_chain_spec ks num ideal fuel : forall rest p nonideal σ bkts B, (length rest <= fuel)%nat -> dl_seg σ p rest None ->
  chains_ok σ bkts B -> waiting ks num (length bkts) B rest ->
  exists bkts' σ' nonideal' B', move_chain fuel ks num ideal (hd_or rest None) bkts σ nonideal = Some (bkts', σ', nonideal') /\
    chains_ok σ' bkts' B' /\ length bkts' = length bkts /\ moved ks num (length bkts) rest σ σ' B B'.
Proof.
  induction fuel as [|fuel IH]; intros [|x rest] p nonideal σ bkts B Hlen Hs Hok Hw; cbn [length] in Hlen; [|lia| |].
  1, 2: exists bkts, σ, nonideal, B; split_and!; [done|done|done|apply moved_nil].
  destruct Hs as [Hx Hs], Hw as [[Hxr Hnd]%NoDup_cons Hw]. destruct (Hw x) as [(i & Hi & Hlt) Hno]; [by left|].
  destruct (move_to_spec ks num ideal nonideal σ bkts B x i Hok) as (bkts1 & σ1 & nonideal1 & B1 & Hmt & Hok1 & Hl1 & Hm1); [|by eexists|done|].
  { split; [by apply NoDup_singleton|]. intros y ->%list_elem_of_singleton. split; [by eexists|done]. }
  destruct (IH rest (Some x) nonideal1 σ1 bkts1 B1) as (bkts2 & σ2 & nonideal2 & B2 & Hmc & Hok2 & Hl2 & Hm2); [lia| |done| |].
  { eapply dl_seg_ext, Hs. intros y Hy. apply (mv_frame _ _ _ _ _ _ _ _ Hm1); [intros ->%list_elem_of_singleton; done|]. by apply Hw; right. }
  { split; [done|]. intros y Hy. rewrite Hl1. split; [by apply Hw; right|]. intros j Hj. rewrite (mv_elem _ _ _ _ _ _ _ _ Hm1) by done.
    intros [Hyb|[->%list_elem_of_singleton _]]; [|done]. revert Hyb. by apply Hw; [right|]. }
  rewrite Hl1 in Hl2, Hm2. exists bkts2, σ2, nonideal2, B2. split_and!; [|done|done|by apply (moved_app _ _ _ [x] rest _ σ1 _ _ B1)].
  cbn [move_chain hd_or]. unfold get_next. rewrite Hx. cbn [fmap option_fmap option_map mbind option_bind next].
  unfold slot in Hi. destruct (ks !! x) as [[k hv]|]; [|done]. cbn [fmap option_fmap option_map snd] in Hi. injection Hi as Hi.
  cbn [mbind option_bind]. rewrite Hi, Hmt. cbn [mbind option_bind]. exact Hmc.
Qed.

(** The chains of old buckets, from the first one on. *)
Fixpoint all_chains (n : nat) (C : chain_map) : list loc :=
  match n with O => [] | S n => C 0%nat ++ all_chains n (fun i => C (S i)) end.

Lemma elem_all_chains n : forall C x, x ∈ all_chains n C <-> exists i, (i < n)%nat /\ x ∈ C i.
Proof.
  induction n as [|n IH]; intros C x; cbn [all_chains].
  - rewrite elem_of_nil. split; [done|]. intros (i & Hi & _). lia.
  - rewrite elem_of_app, IH. split.
    + intros [H0|(i & Hi & Hx)]; [exists 0%nat; split; [lia|done]|exists (S i); split; [lia|done]].
    + intros ([|i] & Hi & Hx); [by left|right; exists i; split; [lia|done]].
Qed.

Lemma move_buckets_spec ks num ideal old : forall C nonideal σ bkts B,
  (forall i b, old !! i = Some b -> hh_head b = hd_or (C i) None) ->
  (forall i, (i < length old)%nat -> dl_seg σ None (C i) None) ->
  NoDup (all_chains (length old) C) ->
  chains_ok σ bkts B -> waiting ks num (length bkts) B (all_chains (length old) C) ->
  exists bkts' σ' nonideal' B', move_buckets ks num ideal old bkts σ nonideal = Some (bkts', σ', nonideal') /\
    chains_ok σ' bkts' B' /\ length bkts' = length bkts /\ moved ks num (length bkts) (all_chains (length old) C) σ σ' B B'.
Proof.
  induction old as [|b old IH]; intros C nonideal σ bkts B Hhd Hs Hnd Hok Hw; cbn [length all_chains] in *.
  { exists bkts, σ, nonideal, B. split_and!; [done|done|done|apply moved_nil]. }
  apply NoDup_app in Hnd as (Hnd0 & Hdisj & Hnd). destruct Hw as [_ Hw].
  destruct (move_chain_spec ks num ideal (S (size σ)) (C 0%nat) None nonideal σ bkts B) as (bkts1 & σ1 & nonideal1 & B1 & Hmc & Hok1 & Hl1 & Hm1).
  { assert (length (C 0%nat) <= size σ)%nat; [|lia]. apply length_le_size; [done|]. intros x Hx. eapply dl_seg_lookup; [|exact Hx]. apply Hs. lia. }
  { apply Hs. lia. }
  { done. }
  { split; [done|]. intros x Hx. apply Hw, elem_of_app. by left. }
  destruct (IH (fun i => C (S i)) nonideal1 σ1 bkts1 B1) as (bkts2 & σ2 & nonideal2 & B2 & Hmb & Hok2 & Hl2 & Hm2).
  { intros i bi Hi. by apply (Hhd (S i)). }
  { intros i Hi. eapply dl_seg_ext, (Hs (S i)); [|lia]. intros y Hy. apply (mv_frame _ _ _ _ _ _ _ _ Hm1).
    - intros H0. apply (Hdisj y H0), elem_all_chains. by exists i.
    - apply Hw, elem_of_app. right. apply elem_all_chains. by exists i. }
  { done. }
  { done. }
  { split; [done|]. intros x Hx. rewrite Hl1. split; [apply Hw, elem_of_app; by right|]. intros j Hj. rewrite (mv_elem _ _ _ _ _ _ _ _ Hm1) by done.
    intros [Hyb|[H0 _]]; [|by apply (Hdisj x H0)]. revert Hyb. apply Hw; [apply elem_of_app; by right|done]. }
  rewrite Hl1 in Hl2, Hm2. exists bkts2, σ2, nonideal2, B2. split_and!; [|done|done|by eapply moved_app].
  cbn [move_buckets]. rewrite (Hhd 0%nat b eq_refl), Hmc. cbn [mbind option_bind]. exact Hmb.
Qed.

(** ** The buckets of a table *)

(** The chains are the elements [l], each in the bucket of its hash, in a number of
    buckets that is a power of two. *)
Record buckets_ok (ks : gmap loc (K * Z)) (σ : store) (t : UT_hash_table) (l : list loc) (B : chain_map) : Prop := {
  bo_chains : chains_ok σ (buckets t) B;
  bo_length : length (buckets t) = Z.to_nat (num_buckets t);
  bo_num : num_buckets t = 2 ^ log2_num_buckets t;
  bo_log : 0 <= log2_num_buckets t <= 31;
  bo_elem : forall i x, (i < length (buckets t))%nat -> x ∈ B i <-> x ∈ l /\ slot ks (num_buckets t) x = Some i;
  bo_keys : forall x, x ∈ l -> is_Some (ks !! x)
}.

Lemma HASH_TO_BKT_spec hashv b : 0 <= b <= 32 -> HASH_TO_BKT hashv (2 ^ b) = Z.to_nat (hashv mod 2 ^ b).
Proof.
  intros Hb. unfold HASH_TO_BKT. assert (2 ^ b <= 2 ^ 32) by (apply Z.pow_le_mono_r; lia). assert (0 < 2 ^ b) by (apply Z.pow_pos_nonneg; lia).
  rewrite u32_id by (unfold is_u32; lia). replace (2 ^ b - 1) with (Z.ones b) by (rewrite Z.ones_equiv; lia). by rewrite Z.land_ones by lia.
Qed.

Lemma slot_lt ks b x : 0 <= b <= 32 -> is_Some (ks !! x) -> exists i, slot ks (2 ^ b) x = Some i /\ (i < Z.to_nat (2 ^ b))%nat.
Proof.
  intros Hb [[k hv] Hx]. exists (HASH_TO_BKT hv (2 ^ b)). split; [unfold slot; by rewrite Hx|]. rewrite HASH_TO_BKT_spec by done.
  assert (0 < 2 ^ b) by (apply Z.pow_pos_nonneg; lia). pose proof (Z.mod_pos_bound hv (2 ^ b)). lia.
Qed.

Lemma nodup_all_chains n : forall C : chain_map, (forall i, (i < n)%nat -> NoDup (C i)) ->
  (forall i j x, (i < n)%nat -> (j < n)%nat -> x ∈ C i -> x ∈ C j -> i = j) -> NoDup (all_chains n C).
Proof.
  induction n as [|n IH]; intros C Hnd Hd; cbn [all_chains]; [constructor|]. apply NoDup_app. split; [apply Hnd; lia|]. split.
  - intros x Hx (i & Hi & Hxi)%elem_all_chains. assert (0%nat = S i) by (apply (Hd 0%nat (S i) x); [lia|lia|done|done]). done.
  - apply IH; [intros i Hi; apply Hnd; lia|]. intros i j x Hi Hj H1 H2. assert (S i = S j) by (apply (Hd (S i) (S j) x); [lia|lia|done|done]). lia.
Qed.

Lemma empty_buckets σ n : chains_ok σ (replicate n (Bucket None 0 0)) (fun _ => []).
Proof.
  constructor; [|done|constructor|by intros ? ? ? ? ? ?%not_elem_of_nil]. intros i b Hb. apply lookup_replicate in Hb as [-> _]. done.
Qed.

Lemma expand_spec ks σ t l B : buckets_ok ks σ t l B -> log2_num_buckets t < 31 ->
  exists σ' t' B', HASH_EXPAND_BUCKETS ks σ t = Some (σ', t') /\ buckets_ok ks σ' t' l B' /\
    num_items t' = num_items t /\ tail t' = tail t /\ same_dom σ σ'.
Proof.
  intros [Hch Hlen Hnum Hlog Hel Hks] Hlt. unfold HASH_EXPAND_BUCKETS. set (b := log2_num_buckets t) in *.
  assert (num_buckets t * 2 = 2 ^ (b + 1)) as Hdouble by (rewrite Hnum, Z.pow_add_r by lia; lia).
  assert (2 ^ (b + 1) <= 2 ^ 31) by (apply Z.pow_le_mono_r; lia). assert (0 < 2 ^ (b + 1)) by (apply Z.pow_pos_nonneg; lia).
  rewrite Hdouble, u32_id by (unfold is_u32; lia). set (ideal := u32 (Z.shiftr _ _ + _)). set (n := Z.to_nat (2 ^ (b + 1))).
  assert (forall x, x ∈ all_chains (length (buckets t)) B <-> x ∈ l) as Hall.
  { intros x. rewrite elem_all_chains. split; [intros (i & Hi & Hx); by apply Hel in Hx as [? _]|]. intros Hx.
    destruct (slot_lt ks b x) as (i & Hi & Hi2); [lia|by apply Hks|]. rewrite <- Hnum, <- Hlen in Hi2. exists i. split; [done|].
    apply Hel; [done|]. by rewrite Hnum. }
  destruct (move_buckets_spec ks (2 ^ (b + 1)) ideal (buckets t) B 0 σ (replicate n (Bucket None 0 0)) (fun _ => []))
    as (bkts' & σ' & nonideal & B' & Hmove & Hok & Hl & [Hme Hmf Hmd]).
  { intros i bi Hi. by apply (co_bucket _ _ _ Hch). }
  { apply (co_seg _ _ _ Hch). }
  { apply nodup_all_chains; [apply (co_nodup _ _ _ Hch)|apply (co_disjoint _ _ _ Hch)]. }
  { apply empty_buckets. }
  { split; [apply nodup_all_chains; [apply (co_nodup _ _ _ Hch)|apply (co_disjoint _ _ _ Hch)]|]. intros x Hx%Hall.
    rewrite length_replicate. split; [|intros; apply not_elem_of_nil]. destruct (slot_lt ks (b + 1) x) as (i & ? & ?); [lia|by apply Hks|]. by exists i. }
  rewrite Hmove. cbn [mbind option_bind]. rewrite length_replicate in Hl, Hme. do 3 eexists. split; [reflexivity|].
  split; [|done]. constructor; cbn [buckets num_buckets log2_num_buckets]; [exact Hok|by rewrite Hl| | | |done].
  - by rewrite u32_id by (unfold is_u32; lia).
  - rewrite u32_id by (unfold is_u32; lia). lia.
  - intros i x. rewrite Hl. intros Hi. rewrite Hme, elem_of_nil, Hall by done. tauto.
Qed.

Lemma slot_insert ks num add e x : x ≠ add -> slot (<[add := e]> ks) num x = slot ks num x.
Proof. intros Hx. unfold slot. by rewrite lookup_insert_ne. Qed.

Lemma add_to_bkt_spec ks σ t l B add e : buckets_ok ks σ t l B -> log2_num_buckets t < 31 -> add ∉ l -> is_Some (σ !! add) ->
  exists σ' t' B', HASH_ADD_TO_BKT (<[add := e]> ks) σ t (HASH_TO_BKT e.2 (num_buckets t)) add = Some (σ', t') /\
    buckets_ok (<[add := e]> ks) σ' t' (l ++ [add]) B' /\ num_items t' = num_items t /\ tail t' = tail t /\ same_dom σ σ'.
Proof.
  intros [Hch Hlen Hnum Hlog Hel Hks] Hlt Hadd Hσ. set (ks' := <[add := e]> ks). set (i := HASH_TO_BKT e.2 (num_buckets t)).
  assert (slot ks' (num_buckets t) add = Some i) as Hslot by (unfold slot, ks'; by rewrite lookup_insert_eq).
  assert (i < length (buckets t))%nat as Hi.
  { rewrite Hlen, Hnum. destruct (slot_lt ks' (log2_num_buckets t) add) as (j & Hj & ?); [lia|unfold ks'; rewrite lookup_insert_eq; by eexists|].
    rewrite <- Hnum in Hj. congruence. }
  destruct (lookup_lt_is_Some_2 _ _ Hi) as [b Hb]. destruct (co_bucket _ _ _ Hch i b Hb) as [Hhd _].
  assert (forall j, (j < length (buckets t))%nat -> add ∉ B j) as Hno by (intros j Hj [? _]%Hel; done).
  destruct (push_front σ (B i) add) as (σ1 & _ & Hp & Hseg & Hframe & Hdom); [by apply (co_nodup _ _ _ Hch)|by apply Hno|done|by apply (co_seg _ _ _ Hch)|].
  unfold HASH_ADD_TO_BKT. rewrite Hb. cbn [mbind option_bind]. rewrite Hhd. cbn zeta in Hp. cbn [mbind option_bind] in Hp.
  destruct (set_next σ add _) as [σ2|]; [|done]. cbn [mbind option_bind] in Hp |- *.
  destruct (set_prev σ2 add _) as [σ3|]; [|done]. cbn [mbind option_bind] in Hp |- *. rewrite Hp. cbn [mbind option_bind].
  set (t1 := with_buckets _ t). assert (buckets_ok ks' σ1 t1 (l ++ [add]) (cons_at i add B)) as Hok1.
  { constructor; cbn [t1 with_buckets buckets num_buckets log2_num_buckets]; rewrite ?length_insert; try done.
    - by apply (chains_push σ).
    - intros j x Hj. rewrite elem_cons_at, Hel, elem_of_app, list_elem_of_singleton by done. destruct (decide (x = add)) as [->|Hne].
      + rewrite Hslot. split; [intros [[? _]|[-> _]]; [done|by split; [right|]]|]. intros [_ [= ->]]. by right.
      + unfold ks'. rewrite slot_insert by done. tauto.
    - intros x [Hx|Hx%list_elem_of_singleton]%elem_of_app; unfold ks'; [|rewrite Hx, lookup_insert_eq; by eexists].
      rewrite lookup_insert_ne by (by intros ->). by apply Hks. }
  destruct (_ && _).
  - destruct (expand_spec ks' σ1 t1 (l ++ [add]) _ Hok1) as (σ' & t' & B' & He & Hok' & Hn & Ht & Hd); [done|].
    exists σ', t', B'. rewrite Hn, Ht. split_and!; try done. intros y. etrans; [apply Hd|apply Hdom].
  - exists σ1, t1, (cons_at i add B). by split_and!.
Qed.

(** ** Tables *)

Record table_ok (m : mem) (hd : loc) (t : UT_hash_table) (l : list loc) (B : chain_map) : Prop := {
  tk_head : hd_or l None = Some hd;
  tk_nodup : NoDup l;
  tk_order : dl_seg (order m) None l None;
  tk_tail : last l = Some (tail t);
  tk_buckets : buckets_ok (keys m) (chains m) t l B;
  tk_keys : forall x, x ∈ l -> exists k, keys m !! x = Some (k, hash k);
  tk_items : num_items t = u32 (Z.of_nat (length l))
}.

(** The elements of the table are [l], in the order of addition. *)
Definition hash_ok (m : mem) (h : head) (l : list loc) : Prop :=
  match h with None => l = [] | Some (hd, t) => exists B, table_ok m hd t l B end.

(** The table can still grow. *)
Definition can_grow (h : head) : Prop := match h with None => True | Some (_, t) => log2_num_buckets t < 31 end.

Lemma find_in_bkt_spec m key hashval fuel : forall bl p, (length bl <= fuel)%nat -> dl_seg (chains m) p bl None ->
  (forall x, x ∈ bl -> is_Some (keys m !! x)) ->
  exists r, HASH_FIND_IN_BKT fuel m (hd_or bl None) key hashval = Some r /\
    match r with
    | Some x => x ∈ bl /\ keys m !! x = Some (key, hashval)
    | None => forall x, x ∈ bl -> keys m !! x ≠ Some (key, hashval)
    end.
Proof.
  induction fuel as [|fuel IH]; intros [|x bl] p Hlen Hs Hk; cbn [length] in Hlen; [|lia| |].
  1, 2: exists None; split; [done|by intros y ?%not_elem_of_nil].
  destruct Hs as [Hx Hs]. destruct (Hk x) as [[k hv] Hkx]; [by left|]. cbn [hd_or HASH_FIND_IN_BKT]. rewrite Hkx. cbn [mbind option_bind].
  destruct (Z.eqb_spec hv hashval) as [->|Hne]; cbn [andb]; [case_bool_decide as Hkey|].
  1: { subst k. exists (Some x). split; [done|]. split; [by left|done]. }
  all: unfold get_next; rewrite Hx; cbn [fmap option_fmap option_map mbind option_bind next].
  all: destruct (IH bl (Some x)) as (r & -> & Hr); [lia|done|intros y Hy; apply Hk; by right|].
  all: exists r; split; [done|]; destruct r as [z|]; [destruct Hr; split; [by right|done]|].
  all: intros y [->|Hy]%elem_of_cons; [congruence|by apply Hr].
Qed.

Lemma HASH_FIND_spec m h l key : hash_ok m h l ->
  exists r, HASH_FIND m h key = Some r /\
    match r with
    | Some x => x ∈ l /\ keys m !! x = Some (key, hash key)
    | None => forall x hv, x ∈ l -> keys m !! x ≠ Some (key, hv)
    end.
Proof.
  destruct h as [[hd t]|]; [|intros ->; exists None; split; [done|by intros x hv ?%not_elem_of_nil]].
  intros (B & [Hhd Hnd Hord Htl [Hch Hlen Hnum Hlog Hel Hks] Hkeys _]). cbn [HASH_FIND].
  set (i := HASH_TO_BKT (hash key) (num_buckets t)). assert (i < length (buckets t))%nat as Hi.
  { rewrite Hlen. unfold i. rewrite Hnum, HASH_TO_BKT_spec by lia. assert (0 < 2 ^ log2_num_buckets t) by (apply Z.pow_pos_nonneg; lia).
    pose proof (Z.mod_pos_bound (hash key) (2 ^ log2_num_buckets t)). lia. }
  destruct (lookup_lt_is_Some_2 _ _ Hi) as [b Hb]. rewrite Hb. cbn [mbind option_bind]. destruct (co_bucket _ _ _ Hch i b Hb) as [-> _].
  destruct (find_in_bkt_spec m key (hash key) (S (size (chains m))) (B i) None) as (r & -> & Hr).
  { assert (length (B i) <= size (chains m))%nat; [|lia]. apply length_le_size; [by apply (co_nodup _ _ _ Hch)|]. intros x Hx.
    eapply dl_seg_lookup; [by apply (co_seg _ _ _ Hch i)|done]. }
  { by apply (co_seg _ _ _ Hch). }
  { intros x [Hx _]%Hel; [by apply Hks|done]. }
  exists r. split; [done|]. destruct r as [x|]; [by destruct Hr as [[Hx _]%Hel Hk]|].
  intros x hv Hx Hk. destruct (Hkeys x Hx) as [k Hk2]. rewrite Hk2 in Hk. injection Hk as -> <-.
  apply (Hr x); [|done]. apply Hel; [done|]. split; [done|]. unfold slot. by rewrite Hk2.
Qed.

Lemma append_list_spec σ t l add : dl_seg σ None l None -> NoDup l -> last l = Some (tail t) -> add ∉ l -> is_Some (σ !! add) ->
  exists σ', HASH_APPEND_LIST σ t add = Some (σ', with_tail add t) /\ dl_seg σ' None (l ++ [add]) None /\ same_dom σ σ'.
Proof.
  intros Hs Hnd Hlast Hadd [[ap an] Ha]. destruct l as [|z l _] using rev_ind; [done|]. rewrite last_snoc in Hlast. injection Hlast as ->.
  apply dl_seg_app in Hs as [Hs [Hz _]]. cbn [hd_or] in Hs, Hz. unfold HASH_APPEND_LIST. dl_nodup. dl_run. eexists. split; [done|].
  split; [|unfold same_dom; dom_solve]. rewrite <- app_assoc. apply dl_seg_app. rewrite !dl_seg_frame by done. split; [done|].
  simpl. split; [by simplify_map_eq|]. by simplify_map_eq.
Qed.

Lemma make_table_ok ks σ add : buckets_ok ks σ (HASH_MAKE_TABLE add) [] (fun _ => []).
Proof.
  constructor; [apply empty_buckets|reflexivity|reflexivity|by split| |by intros ? ?%not_elem_of_nil].
  intros i x _. rewrite elem_of_nil. tauto.
Qed.

Lemma hd_or_snoc l x y : hd_or l None = Some y -> hd_or (l ++ [x]) None = Some y.
Proof. by destruct l. Qed.

Lemma HASH_ADD_spec m h l add key : hash_ok m h l -> can_grow h -> add ∉ l -> is_Some (order m !! add) -> is_Some (chains m !! add) ->
  exists m' h', HASH_ADD m h add key = Some (m', h') /\ hash_ok m' h' (l ++ [add]) /\
    keys m' = <[add := (key, hash key)]> (keys m) /\ same_dom (order m) (order m') /\ same_dom (chains m) (chains m').
Proof.
  intros Hok Hgrow Hadd Ho Hc. set (e := (key, hash key)).
  assert (exists σ hd tbl B, match h with
    | None => σ ← set_next (order m) add None; σ ← set_prev σ add None; Some (σ, add, HASH_MAKE_TABLE add)
    | Some (hd, tbl) => '(σ, tbl) ← HASH_APPEND_LIST (order m) tbl add; Some (σ, hd, tbl)
    end = Some (σ, hd, tbl) /\ dl_seg σ None (l ++ [add]) None /\ hd_or (l ++ [add]) None = Some hd /\ tail tbl = add /\ NoDup l /\
    buckets_ok (keys m) (chains m) tbl l B /\ log2_num_buckets tbl < 31 /\ num_items tbl = u32 (Z.of_nat (length l)) /\
    (forall x, x ∈ l -> exists k, keys m !! x = Some (k, hash k)) /\ same_dom (order m) σ) as
    (σ & hd & tbl & B & Hst & Hord & Hhd & Htl & Hnd & Hb & Hlog & Hn & Hkeys & Hdom).
  { destruct h as [[hd t]|].
    - destruct Hok as (B & [Hhd Hnd Hord Htl Hb Hkeys Hn]).
      destruct (append_list_spec (order m) t l add) as (σ & Happ & Hs & Hd); [done..|]. rewrite Happ. cbn [mbind option_bind].
      exists σ, hd, (with_tail add t), B. split_and!; try done; [by apply hd_or_snoc|]. by destruct Hb.
    - cbn [hash_ok] in Hok. subst l. destruct Ho as [[ap an] Ho]. dl_run. exists (<[add := Links None None]> (order m)), add, (HASH_MAKE_TABLE add), (fun _ => []).
      rewrite insert_insert_eq. split_and!; try done; [by simplify_map_eq|constructor|apply make_table_ok|by intros ? ?%not_elem_of_nil|unfold same_dom; dom_solve]. }
  destruct (add_to_bkt_spec (keys m) (chains m) (with_items (u32 (num_items tbl + 1)) tbl) l B add e) as (χ & t' & B' & Hbk & Hb' & Hn' & Htl' & Hd'); [by destruct Hb|done..|].
  unfold HASH_ADD. rewrite Hst. cbn [mbind option_bind]. fold e. cbn [with_items num_buckets] in Hbk |- *. change (hash key) with e.2. rewrite Hbk. cbn [mbind option_bind].
  do 2 eexists. split; [reflexivity|]. split; [|done]. exists B'. constructor; cbn [order chains keys]; try done.
  - apply NoDup_app. split; [done|]. split; [|apply NoDup_singleton]. by intros x Hx ->%list_elem_of_singleton.
  - by rewrite last_snoc, Htl'; cbn [with_items tail]; rewrite Htl.
  - intros x [Hx|Hx%list_elem_of_singleton]%elem_of_app; [|exists key; rewrite Hx; by rewrite lookup_insert_eq].
    rewrite lookup_insert_ne by (by intros ->). by apply Hkeys.
  - rewrite Hn'. cbn [with_items num_items]. rewrite Hn, length_app. cbn [length]. unfold u32. rewrite Zplus_mod_idemp_l. f_equal. lia.
Qed.

(** ** Deletion *)

Lemma hh_unlink_spec σ l1 d l2 : NoDup (l1 ++ d :: l2) -> dl_seg σ None (l1 ++ d :: l2) None ->
  get_prev σ d = Some (last l1) /\ get_next σ d = Some (hd_or l2 None) /\
  exists σ1 σ', (match last l1 with Some p => set_next σ p (hd_or l2 None) | None => Some σ end) = Some σ1 /\
    get_next σ1 d = Some (hd_or l2 None) /\ get_prev σ1 d = Some (last l1) /\
    (match hd_or l2 None with Some n => set_prev σ1 n (last l1) | None => Some σ1 end) = Some σ' /\
    dl_seg σ' None (l1 ++ l2) None /\ (forall y, y ∉ l1 ++ l2 -> σ' !! y = σ !! y) /\ same_dom σ σ'.
Proof.
  intros Hnd Hs. apply dl_seg_app in Hs as [Hl1 [Hd Hl2]].
  assert (last_or l1 None = last l1) as Hlast by (unfold last_or; by destruct (last l1)). rewrite Hlast in Hd.
  split; [unfold get_prev; by rewrite Hd|]. split; [unfold get_next; by rewrite Hd|].
  destruct l1 as [|q l1 _] using rev_ind; [|rewrite last_snoc in *; apply dl_seg_app in Hl1 as [Hl1 [Hq _]]].
  - cbn [last app] in *. destruct l2 as [|n l2]; cbn [hd_or] in *.
    + exists σ, σ. unfold get_next, get_prev. rewrite Hd. by split_and!.
    + destruct Hl2 as [Hn Hl2]. dl_nodup. dl_run. do 2 eexists. split; [done|]. split; [by simplify_map_eq|]. split; [by simplify_map_eq|]. split; [by simplify_map_eq|].
      split; [split; [by simplify_map_eq|by rewrite dl_seg_frame by done]|].
      split; [intros y Hy; dl_nodup; by simplify_map_eq|unfold same_dom; dom_solve].
  - cbn [hd_or] in Hl1, Hq. rewrite <- !app_assoc in *. cbn [app] in *. destruct l2 as [|n l2]; cbn [hd_or] in *.
    + dl_nodup. dl_run. do 2 eexists. split; [done|]. split; [by simplify_map_eq|]. split; [by simplify_map_eq|]. split; [reflexivity|].
      rewrite ?app_nil_r. split; [apply dl_seg_app; cbn [hd_or]; rewrite dl_seg_frame by done; split; [done|]; split; [by simplify_map_eq|done]|].
      split; [intros y Hy; dl_nodup; by simplify_map_eq|unfold same_dom; dom_solve].
    + destruct Hl2 as [Hn Hl2]. dl_nodup. dl_run. do 2 eexists. split; [done|]. split; [by simplify_map_eq|]. split; [by simplify_map_eq|]. split; [by simplify_map_eq|].
      split; [|split; [intros y Hy; dl_nodup; by simplify_map_eq|unfold same_dom; dom_solve]].
      apply dl_seg_app. cbn [hd_or]. rewrite !dl_seg_frame by done. split; [done|].
      cbn [dl_seg hd_or]. split; [by simplify_map_eq|]. split; [by simplify_map_eq|]. by rewrite !dl_seg_frame by done.
Qed.

Definition remove_at (i : nat) (bl : list loc) (B : chain_map) : chain_map := fun j => if decide (j = i) then bl else B j.

Lemma del_in_bkt_spec ks σ t l1 d l2 B i : buckets_ok ks σ t (l1 ++ d :: l2) B -> NoDup (l1 ++ d :: l2) -> slot ks (num_buckets t) d = Some i ->
  exists σ' t' B', HASH_DEL_IN_BKT σ t i d = Some (σ', t') /\ buckets_ok ks σ' t' (l1 ++ l2) B' /\
    num_items t' = num_items t /\ tail t' = tail t /\ log2_num_buckets t' = log2_num_buckets t /\ same_dom σ σ'.
Proof.
  intros [Hch Hlen Hnum Hlog Hel Hks] Hnd Hslot.
  assert (i < length (buckets t))%nat as Hi.
  { destruct (slot_lt ks (log2_num_buckets t) d) as (j & Hj & ?); [lia|apply Hks, elem_of_app; by right; left|].
    rewrite <- Hnum, Hslot in Hj. injection Hj as ->. lia. }
  destruct (lookup_lt_is_Some_2 _ _ Hi) as [b Hb]. destruct (co_bucket _ _ _ Hch i b Hb) as [Hhd Hcount].
  assert (d ∈ B i) as Hd by (apply Hel; [done|split; [apply elem_of_app; by right; left|done]]).
  apply list_elem_of_split in Hd as (c1 & c2 & HBi). pose proof (co_nodup _ _ _ Hch i Hi) as Hndc. rewrite HBi in Hndc.
  pose proof (co_seg _ _ _ Hch i Hi) as Hseg. rewrite HBi in Hseg.
  destruct (hh_unlink_spec σ c1 d c2 Hndc Hseg) as (Hpv & Hnx & σ1 & σ' & H1 & Hnx1 & Hpv1 & H2 & Hs' & Hframe & Hdom).
  unfold HASH_DEL_IN_BKT. rewrite Hb, Hnx, Hpv. cbn [mbind option_bind]. rewrite H1. cbn [mbind option_bind]. rewrite Hnx1. cbn [mbind option_bind].
  assert ((match hd_or c2 None with Some n => pv ← get_prev σ1 d; set_prev σ1 n pv | None => Some σ1 end) = Some σ') as ->.
  { rewrite Hpv1. cbn [mbind option_bind]. exact H2. }
  cbn [mbind option_bind]. set (b' := Bucket _ _ _). exists σ', (with_buckets (<[i := b']> (buckets t)) t), (remove_at i (c1 ++ c2) B).
  assert (forall j x, (j < length (buckets t))%nat -> x ∈ remove_at i (c1 ++ c2) B j <-> x ∈ B j /\ x ≠ d) as Helem.
  { intros j x Hj. unfold remove_at. case_decide as He; [subst j|].
    - rewrite HBi. apply NoDup_middle in Hndc as (N1 & N2 & _). rewrite !elem_of_app, elem_of_cons.
      split; [intros [?|?]; split; try tauto; by intros ->|naive_solver].
    - split; [|naive_solver]. intros Hx. split; [done|]. intros ->. apply He. apply (co_disjoint _ _ _ Hch j i d); [done|done|done|]. rewrite HBi, elem_of_app. by right; left. }
  apply NoDup_middle in Hnd as (N1 & N2 & _). apply NoDup_middle in Hndc as (C1 & C2 & Hndc).
  split; [done|]. split; [|by split_and!]. constructor; cbn [with_buckets buckets num_buckets log2_num_buckets]; rewrite ?length_insert; try done.
  - constructor; rewrite ?length_insert.
    + intros j bj. unfold remove_at. destruct (decide (j = i)) as [->|Hne]; [|rewrite list_lookup_insert_ne by done; by apply Hch].
      rewrite list_lookup_insert_eq by done. intros [= <-]. cbn [b' hh_head count]. rewrite Hhd, HBi. split.
      * destruct c1 as [|c c1]; unfold ptr_eqb; cbn [app hd_or]; [by rewrite bool_decide_true|]. rewrite bool_decide_false; [done|].
        intros [= ->]. by apply C1; left.
      * rewrite Hcount, HBi, !length_app. cbn [length]. unfold u32. rewrite Zminus_mod_idemp_l. f_equal. lia.
    + intros j Hj. unfold remove_at. case_decide as He; [done|]. eapply dl_seg_ext, (co_seg _ _ _ Hch j Hj). intros y Hy. apply Hframe. intros Hyi.
      apply He. apply (co_disjoint _ _ _ Hch j i y); [done..|]. rewrite HBi, elem_of_app, elem_of_cons. apply elem_of_app in Hyi. tauto.
    + intros j Hj. unfold remove_at. case_decide; [done|]. by apply (co_nodup _ _ _ Hch).
    + intros j k x Hj Hk [Hx _]%Helem [Hy _]%Helem; [by apply (co_disjoint _ _ _ Hch j k x)|done..].
  - intros j x Hj. rewrite Helem, Hel, !elem_of_app, elem_of_cons by done. split; [naive_solver|]. intros [Hx Hsx]. split; [naive_solver|]. intros ->. tauto.
  - intros x Hx. apply Hks. rewrite elem_of_app, elem_of_cons. apply elem_of_app in Hx. tauto.
Qed.

Lemma last_or_last n (l : list loc) d : last_or (n :: l) d = last (n :: l).
Proof. unfold last_or. destruct (last (n :: l)) eqn:Hl; [done|by apply last_None in Hl]. Qed.

Lemma HASH_DELETE_spec m h l1 d l2 : hash_ok m h (l1 ++ d :: l2) ->
  exists m' h', HASH_DELETE m h d = Some (m', h') /\ hash_ok m' h' (l1 ++ l2) /\ keys m' = keys m /\
    same_dom (order m) (order m') /\ same_dom (chains m) (chains m') /\ (can_grow h -> can_grow h').
Proof.
  destruct h as [[hd t]|]; [|by intros ?%eq_sym%app_cons_not_nil]. intros (B & [Hhd Hnd Hord Htl Hb Hkeys Hn]).
  destruct (hh_unlink_spec (order m) l1 d l2 Hnd Hord) as (Hpv & Hnx & σ1 & σ' & H1 & _ & _ & H2 & Hs' & _ & Hdom).
  unfold HASH_DELETE. cbn [mbind option_bind]. rewrite Hpv, Hnx. cbn [mbind option_bind].
  destruct (Hkeys d) as [k Hk]; [apply elem_of_app; by right; left|].
  destruct (del_in_bkt_spec (keys m) (chains m) t l1 d l2 B (HASH_TO_BKT (hash k) (num_buckets t)) Hb Hnd) as (χ & t' & B' & Hdel & Hb' & Hn' & Htl' & Hlog & Hd').
  { unfold slot. by rewrite Hk. }
  rewrite last_app_cons in Htl. apply NoDup_middle in Hnd as (N1 & N2 & Hnd).
  assert (forall x tl, last (l1 ++ l2) = Some tl -> hd_or (l1 ++ l2) None = Some x -> exists m' h',
    (σ ← (match hd_or l2 None with Some n => set_prev σ1 n (last l1) | None => Some σ1 end);
     '(_, hashv) ← keys m !! d;
     '(χ, tbl) ← HASH_DEL_IN_BKT (chains m) (with_tail tl t) (HASH_TO_BKT hashv (num_buckets (with_tail tl t))) d;
     Some (Mem σ χ (keys m), Some (x, with_items (u32 (num_items tbl - 1)) tbl))) = Some (m', h') /\
    hash_ok m' h' (l1 ++ l2) /\ keys m' = keys m /\ same_dom (order m) (order m') /\ same_dom (chains m) (chains m') /\ (can_grow (Some (hd, t)) -> can_grow h')) as Hend.
  { intros x tl Hlast Hx. rewrite H2, Hk. cbn [mbind option_bind].
    assert (HASH_DEL_IN_BKT (chains m) (with_tail tl t) (HASH_TO_BKT (hash k) (num_buckets (with_tail tl t))) d = Some (χ, with_tail tl t')) as ->.
    { revert Hdel. unfold HASH_DEL_IN_BKT. cbn [with_tail buckets num_buckets]. generalize (HASH_TO_BKT (hash k) (num_buckets t)). intros j.
      repeat (match goal with |- context [mbind _ ?o] => destruct o; cbn [mbind option_bind] end; try done). by intros [= <- <-]. }
    cbn [mbind option_bind]. do 2 eexists. split; [reflexivity|]. split; [|split; [done|split; [done|split; [done|cbn [can_grow with_items with_tail log2_num_buckets]; by rewrite Hlog]]]].
    exists B'. constructor; cbn [order chains keys with_items with_tail tail num_items]; try done.
    - by destruct Hb' as [[] ? ? ? ? ?].
    - intros y Hy. apply Hkeys. rewrite elem_of_app, elem_of_cons. apply elem_of_app in Hy. tauto.
    - rewrite Hn', Hn, !length_app. cbn [length]. unfold u32. rewrite Zminus_mod_idemp_l. f_equal. lia. }
  destruct (last l1) as [p|] eqn:Hl1; [|apply last_None in Hl1; subst l1; destruct l2 as [|n l2]].
  - (* not the first element *)
    assert (last (l1 ++ l2) = Some (if bool_decide (d = tail t) then p else tail t) /\ hd_or (l1 ++ l2) None = Some hd) as [Hlast Hhd'].
    { split; [|by destruct l1]. destruct l2 as [|n l2].
      - injection Htl as ->. by rewrite app_nil_r, bool_decide_true.
      - rewrite last_or_last in Htl. rewrite last_app, Htl. rewrite bool_decide_false; [done|]. intros ->. apply N2. by apply last_Some_elem_of in Htl. }
    destruct (Hend hd (if bool_decide (d = tail t) then p else tail t) Hlast Hhd') as (m' & h' & He & Hrest). exists m', h'. split; [|exact Hrest].
    rewrite <- He. rewrite H1. case_bool_decide; cbn [mbind option_bind]; [done|]. by destruct t.
  - by exists m, None.
  - cbn [app hd_or] in *. injection H1 as <-. assert (last (n :: l2) = Some (tail t)) as Hlast by (by rewrite last_or_last in Htl).
    destruct (Hend n (tail t) Hlast eq_refl) as (m' & h' & He & Hrest). exists m', h'. split; [|exact Hrest]. rewrite <- He.
    rewrite bool_decide_false; [by destruct t|]. intros ->. apply N2. by apply last_Some_elem_of in Hlast.
Qed.

(** ** Iteration *)

Lemma iter_seg σ fuel : forall l p, (length l <= fuel)%nat -> dl_seg σ p l None -> HASH_ITER fuel σ (hd_or l None) = Some l.
Proof.
  induction fuel as [|fuel IH]; intros [|x l] p Hlen Hs; cbn [length] in Hlen; [done|lia|done|]. destruct Hs as [Hx Hs].
  cbn [hd_or HASH_ITER]. unfold get_next. rewrite Hx. cbn [fmap option_fmap option_map mbind option_bind next]. by rewrite (IH l (Some x)) by (done || lia).
Qed.

Lemma hash_ok_nil m h : hash_ok m h [] -> h = None.
Proof. destruct h as [[hd t]|]; [|done]. by intros (B & [? _ _ _ _ _ _]). Qed.

Lemma hash_ok_head m h l : hash_ok m h l -> fst <$> h = hd_or l None.
Proof. destruct h as [[hd t]|]; [by intros (B & [-> _ _ _ _ _ _])|by intros ->]. Qed.

Lemma hash_ok_order m h l : hash_ok m h l -> NoDup l /\ dl_seg (order m) None l None.
Proof. destruct h as [[hd t]|]; [by intros (B & [_ ? ? _ _ _ _])|]. intros ->. by split; [constructor|]. Qed.

(** Only the elements of a table matter to it. *)
Lemma hash_ok_frame m m' h l : hash_ok m h l ->
  (forall y, y ∈ l -> order m' !! y = order m !! y /\ chains m' !! y = chains m !! y /\ keys m' !! y = keys m !! y) -> hash_ok m' h l.
Proof.
  intros Hok Heq. destruct h as [[hd t]|]; [|done]. destruct Hok as (B & [Hhd Hnd Hord Htl [[Cb Cs Cn Cd] Hlen Hnum Hlog Hel Hks] Hkeys Hn]).
  assert (forall i y, (i < length (buckets t))%nat -> y ∈ B i -> y ∈ l) as HB by (by intros i y Hi [? _]%Hel).
  assert (forall x, x ∈ l -> slot (keys m') (num_buckets t) x = slot (keys m) (num_buckets t) x) as Hslot.
  { intros x Hx. unfold slot. by rewrite (proj2 (proj2 (Heq x Hx))). }
  exists B. constructor; try done; [|constructor; try done; [constructor; try done| |]|].
  - eapply dl_seg_ext, Hord. intros y Hy. by apply Heq.
  - intros i Hi. eapply dl_seg_ext, (Cs i Hi). intros y Hy. by apply Heq, (HB i).
  - intros i x Hi. rewrite Hel by done. split; intros [Hx Hsx]; (split; [done|]); [by rewrite Hslot|by rewrite <- Hslot].
  - intros x Hx. rewrite (proj2 (proj2 (Heq x Hx))). by apply Hks.
  - intros x Hx. rewrite (proj2 (proj2 (Heq x Hx))). by apply Hkeys.
Qed.

(** What is in memory after the elements [l] are freed. *)
Definition freed (l : list loc) (m m' : mem) : Prop :=
  forall x, (x ∈ l -> order m' !! x = None /\ chains m' !! x = None /\ keys m' !! x = None) /\
    (x ∉ l -> (is_Some (order m' !! x) <-> is_Some (order m !! x)) /\ (is_Some (chains m' !! x) <-> is_Some (chains m !! x)) /\ keys m' !! x = keys m !! x).

Lemma free_all_spec fuel : forall m h l, (length l <= fuel)%nat -> hash_ok m h l ->
  exists m', free_all fuel m h (hd_or l None) = Some (m', None) /\ freed l m m'.
Proof.
  induction fuel as [|fuel IH]; intros m h [|x l] Hlen Hok; cbn [length] in Hlen; [|lia| |].
  1, 2: apply hash_ok_nil in Hok as ->; exists m; split; [done|]; intros x; split; [by intros ?%not_elem_of_nil|done].
  destruct (hash_ok_order _ _ _ Hok) as [[Hx Hnd]%NoDup_cons [Hox _]].
  destruct (HASH_DELETE_spec m h [] x l Hok) as (m1 & h1 & Hdel & Hok1 & Hk1 & Ho1 & Hc1 & _). cbn [app] in Hok1.
  destruct (IH (free_element x m1) h1 l) as (m' & Hfree & Hm'); [lia| |].
  { apply (hash_ok_frame m1); [done|]. intros y Hy. cbn [free_element order chains keys]. rewrite !lookup_delete_ne by (by intros ->). done. }
  exists m'. split.
  - cbn [hd_or free_all]. unfold get_next. rewrite Hox. cbn [fmap option_fmap option_map mbind option_bind next]. rewrite Hdel. cbn [mbind option_bind]. exact Hfree.
  - intros y. destruct (Hm' y) as [Hin Hout]. destruct (decide (y = x)) as [->|Hne].
    + split; [|by intros []%not_elem_of_cons]. intros _. destruct (Hout Hx) as (H1 & H2 & H3). cbn [free_element order chains keys] in H1, H2, H3.
      rewrite lookup_delete_eq in H1, H2. rewrite lookup_delete_eq in H3. split_and!; [|  |exact H3].
      * apply eq_None_not_Some. rewrite H1. by intros [].
      * apply eq_None_not_Some. rewrite H2. by intros [].
    + split; [intros [?|?]%elem_of_cons; [done|by apply Hin]|]. intros [_ Hy]%not_elem_of_cons. destruct (Hout Hy) as (H1 & H2 & H3).
      cbn [free_element order chains keys] in H1, H2, H3. rewrite lookup_delete_ne in H1, H2 by done. rewrite lookup_delete_ne in H3 by done.
      split; [etrans; [exact H1|apply Ho1]|]. split; [etrans; [exact H2|apply Hc1]|]. by rewrite H3, Hk1.
Qed.

(** ** Association lists *)

(** The table holds the entries [A], of distinct keys, in this order. *)
Record hash_list (m : mem) (h : head) (A : list (K * loc)) : Prop := {
  hl_ok : hash_ok m h (map snd A);
  hl_keys : NoDup (map fst A);
  hl_entries : forall k x, (k, x) ∈ A -> keys m !! x = Some (k, hash k)
}.

Lemma find_entry (k : K) (x : loc) (A : list (K * loc)) : NoDup (map fst A) -> (k, x) ∈ A -> Monitor.HASH_FIND k A = Some x.
Proof.
  induction A as [|[k' x'] A IH]; [by intros _ ?%not_elem_of_nil|]. intros [Hk Hnd]%NoDup_cons [He|Hin]%elem_of_cons; cbn [Monitor.HASH_FIND].
  - injection He as -> ->. by rewrite decide_True.
  - case_decide as He; [|by apply IH]. subst k'. destruct Hk. apply list_elem_of_fmap. by exists (k, x).
Qed.

Lemma find_none (k : K) (A : list (K * loc)) : (forall x, (k, x) ∉ A) -> Monitor.HASH_FIND k A = None.
Proof.
  induction A as [|[k' x'] A IH]; [done|]. intros Hno. cbn [Monitor.HASH_FIND]. case_decide as He.
  - subst k'. destruct (Hno x'). by left.
  - apply IH. intros x Hx. apply (Hno x). by right.
Qed.

Lemma hash_find_list m h A k : hash_list m h A -> HASH_FIND m h k = Some (Monitor.HASH_FIND k A).
Proof.
  intros [Hok Hnd He]. destruct (HASH_FIND_spec m h _ k Hok) as (r & -> & Hr). f_equal. destruct r as [x|].
  - destruct Hr as [([k' x'] & -> & Hin)%list_elem_of_fmap Hk]. cbn [snd] in Hk |- *. rewrite (He k' x' Hin) in Hk. injection Hk as ->.
    symmetry. by apply find_entry.
  - symmetry. apply find_none. intros x Hx. apply (Hr x (hash k)); [apply list_elem_of_fmap; by exists (k, x)|by apply He].
Qed.

Lemma hash_get_list m h A k x : hash_list m h A -> x ∉ map snd A -> is_Some (order m !! x) -> is_Some (chains m !! x) -> can_grow h ->
  exists y m' h', hash_get m h k x = Some (y, m', h') /\ Monitor.HASH_FIND k (find_or_add k x A) = Some y /\ hash_list m' h' (find_or_add k x A).
Proof.
  intros Hl Hx Ho Hc Hg. unfold hash_get, find_or_add. rewrite (hash_find_list _ _ _ k Hl). cbn [mbind option_bind].
  destruct (Monitor.HASH_FIND k A) as [y|] eqn:Hf; [by exists y, m, h|]. destruct Hl as [Hok Hnd He].
  destruct (HASH_ADD_spec m h (map snd A) x k Hok Hg Hx Ho Hc) as (m' & h' & -> & Hok' & Hk' & _). cbn [mbind option_bind].
  assert (k ∉ map fst A) as Hkn.
  { intros ([k' x'] & -> & Hin)%list_elem_of_fmap. cbn [fst] in Hf. by rewrite (find_entry k' x') in Hf. }
  assert (NoDup (map fst (A ++ [(k, x)]))) as Hnd'.
  { rewrite map_app. apply NoDup_app. split; [done|]. split; [|apply NoDup_singleton]. by intros z Hz ->%list_elem_of_singleton. }
  exists x, m', h'. split; [done|]. split; [apply find_entry; [done|apply elem_of_app; right; by left]|].
  constructor; [by rewrite map_app|done|]. intros k' x' [Hin|Hin%list_elem_of_singleton]%elem_of_app; rewrite Hk'.
  - rewrite lookup_insert_ne; [by apply He|]. intros <-. apply Hx, list_elem_of_fmap. by exists (k', x).
  - injection Hin as -> ->. by rewrite lookup_insert_eq.
Qed.

Lemma hash_delete_list m h A1 k x A2 : hash_list m h (A1 ++ (k, x) :: A2) ->
  exists m' h', HASH_DELETE m h x = Some (m', h') /\ hash_list m' h' (A1 ++ A2).
Proof.
  intros [Hok Hnd He]. rewrite map_app in Hok, Hnd. cbn [map fst snd] in Hok, Hnd.
  destruct (HASH_DELETE_spec m h _ x _ Hok) as (m' & h' & Hdel & Hok' & Hk & _). exists m', h'. split; [done|].
  constructor; [by rewrite map_app| |].
  - rewrite map_app. rewrite <- Permutation_middle in Hnd. by apply NoDup_cons in Hnd as [_ ?].
  - intros k' x' Hin. rewrite Hk. apply He. rewrite elem_of_app, elem_of_cons. apply elem_of_app in Hin. tauto.
Qed.

(** C20: A table of uthash is the association list that the monitor's tables are taken
    for: a lookup gives the entry of the key; finding an entry or adding an element
    that is in no table gives the entry afterwards, also when the buckets are
    doubled; deleting an element removes its entry; iterating visits the entries in
    the order of addition; and iterating over deletion and release frees exactly the
    elements, once each, and leaves an empty table.  No freed or NULL element is
    accessed. *)
Theorem uthash_refines_list m h A : hash_list m h A ->
  (forall k, HASH_FIND m h k = Some (Monitor.HASH_FIND k A)) /\
  (forall k x, x ∉ map snd A -> is_Some (order m !! x) -> is_Some (chains m !! x) -> can_grow h ->
    exists y m' h', hash_get m h k x = Some (y, m', h') /\ Monitor.HASH_FIND k (find_or_add k x A) = Some y /\
      hash_list m' h' (find_or_add k x A)) /\
  (forall A1 k x A2, A = A1 ++ (k, x) :: A2 -> exists m' h', HASH_DELETE m h x = Some (m', h') /\ hash_list m' h' (A1 ++ A2)) /\
  HASH_ITER (size (order m)) (order m) (fst <$> h) = Some (map snd A) /\
  exists m', free_all (size (order m)) m h (fst <$> h) = Some (m', None) /\ freed (map snd A) m m'.
Proof.
  intros Hl. pose proof (hl_ok _ _ _ Hl) as Hok. destruct (hash_ok_order _ _ _ Hok) as [Hnd Hs].
  assert (length (map snd A) <= size (order m))%nat as Hlen.
  { apply length_le_size; [done|]. intros x Hx. by eapply dl_seg_lookup. }
  rewrite (hash_ok_head _ _ _ Hok). split; [intros k; by apply hash_find_list|]. split; [intros k x; by apply hash_get_list|].
  split; [intros A1 k x A2 ->; by eapply hash_delete_list|]. split; [by apply (iter_seg _ _ _ None)|by apply free_all_spec].
Qed.
End Uthash.

(** ** Examples *)

(** Twelve keys of the same hash make the table grow. *)
Definition ut_hash (k : Z) : Z := 7.
Definition ut_elements : list loc := map Pos.of_nat (seq 1 12).
Definition ut_mem : mem (K := Z) :=
  Mem (list_to_map (map (fun x => (x, Links None None)) ut_elements)) (list_to_map (map (fun x => (x, Links None None)) ut_elements)) ∅.
Definition ut_add (s : option (mem (K := Z) * option (loc * UT_hash_table))) (x : loc) :=
  '(m, h) ← s; '(_, m, h) ← hash_get ut_hash m h (Z.pos x) x; Some (m, h).

Definition ut_full := foldl ut_add (Some (ut_mem, None)) ut_elements.

Example ut_grown :
  match ut_full with
  | Some (m, Some (hd, t)) => num_buckets t = 64 /\ noexpand t = false /\ HASH_ITER 12 (order m) (Some hd) = Some ut_elements /\
      HASH_FIND ut_hash m (Some (hd, t)) 9 = Some (Some 9%positive)
  | _ => False
  end.
Proof. vm_compute. by repeat split. Qed.

(** An element is added to the empty table, found, and freed with it. *)
Lemma uthash_refines_list_witness : exists m h,
  hash_get ut_hash ut_mem None 1 1%positive = Some (1%positive, m, h) /\ HASH_FIND ut_hash m h 1 = Some (Some 1%positive) /\
  HASH_FIND ut_hash m h 2 = Some None /\ HASH_ITER 12 (order m) (fst <$> h) = Some [1%positive].
Proof.
  assert (hash_list ut_hash ut_mem None []) as H0 by (constructor; [reflexivity|constructor|by intros k x ?%not_elem_of_nil]).
  destruct (uthash_refines_list ut_hash ut_mem None [] H0) as (_ & Hget & _).
  destruct (Hget 1 1%positive) as (y & m & h & Hg & Hy & Hl); [apply not_elem_of_nil|vm_compute; by eexists|vm_compute; by eexists|exact I|].
  vm_compute in Hy. injection Hy as <-. exists m, h. split; [exact Hg|].
  destruct (uthash_refines_list ut_hash m h _ Hl) as (Hf & _ & _ & Hi & _).
  split; [rewrite (Hf 1); reflexivity|]. split; [rewrite (Hf 2); reflexivity|].
  assert (size (order m) = 12%nat) as Hs; [|rewrite Hs in Hi; exact Hi].
  vm_compute in Hg. injection Hg as <- <-. vm_compute. reflexivity.
Defined.
