(* ===== verification/AbtxProf.v ===== *)
(** * The profiler of Argobots (src/abtx_prof.h)

    The callback that Argobots makes on every event of a thread, with the records
    that it keeps per execution stream and per thread, the memory they come from,
    and the operations that start, stop, clean and end the profiler.  The build is
    the default one: hardware cycles as an [int64_t] clock and no clock local to a
    thread.  A callback is one step: each stream only touches its own record, a
    thread has one event at a time, and what streams share is under the spin lock.
    A result [None] is the use of a NULL or dangling pointer, an index outside of
    an array, or a second release of memory. *)

From S2P Require Import Prelude.
From S2P Require Profiling.

#[local] Open Scope Z_scope.

(** ** Data *)

(** Signed 64-bit arithmetic of [ABTXI_PROF_T]. *)
Definition i64 (x : Z) : Z := (x + 2 ^ 63) mod 2 ^ 64 - 2 ^ 63.

Definition ABTXI_PROF_MEM_BLOCK_SIZE : Z := 32 * 1024.
Definition ABTXI_PROF_MAX_DEPTH : Z := 4.
Definition ABTXI_PROF_DEFAULT_NUM_XSTREAMS : Z := 32.
Definition ABTXI_PROF_TIME_LAST_RUN_INVALID : Z := -1.

Definition ABTXI_PROF_GLOBAL_STATE_CLEAN : Z := 0.
Definition ABTXI_PROF_GLOBAL_STATE_RUNNING : Z := 1.
Definition ABTXI_PROF_GLOBAL_STATE_STOPPED : Z := 2.

(** The events of a thread, in the order of the constants ABTXI_PROF_EVENT_*. *)
Inductive event :=
  | THREAD_CREATE | THREAD_JOIN | THREAD_FREE | THREAD_REVIVE | THREAD_RUN
  | THREAD_FINISH | THREAD_CANCEL | THREAD_YIELD | THREAD_SUSPEND | THREAD_RESUME.

#[export] Instance event_eq_dec : EqDecision event.
Proof. solve_decision. Defined.

Definition event_index (e : event) : nat :=
  match e with
  | THREAD_CREATE => 0 | THREAD_JOIN => 1 | THREAD_FREE => 2 | THREAD_REVIVE => 3 | THREAD_RUN => 4
  | THREAD_FINISH => 5 | THREAD_CANCEL => 6 | THREAD_YIELD => 7 | THREAD_SUSPEND => 8 | THREAD_RESUME => 9
  end.
Definition ABTXI_PROF_EVENT_END_ : nat := 10.

(** [ABTXI_prof_wu_time] and [ABTXI_prof_wu_count]. *)
Record wu := Wu { max_val : Z; min_val : Z; sum : Z; cnt : Z }.

(** The indices of the statistics, ABTXI_PROF_WU_TIME_* and ABTXI_PROF_WU_COUNT_*. *)
Definition WU_TIME_THREAD_ELAPSED : nat := 0.
Definition WU_TIME_THREAD_CREATE_FIRST_RUN : nat := 1.
Definition WU_TIME_THREAD_FIRST_RUN_LAST_FINISH : nat := 2.
Definition WU_TIME_THREAD_CREATE_LAST_FINISH : nat := 3.
Definition WU_TIME_THREAD_CREATE_FREE : nat := 4.
Definition WU_TIME_END_ : nat := 5.
Definition WU_COUNT_THREAD_NUM_REVIVALS : nat := 0.
Definition WU_COUNT_THREAD_NUM_YIELDS : nat := 1.
Definition WU_COUNT_THREAD_NUM_SUSPENSIONS : nat := 2.
Definition WU_COUNT_THREAD_NUM_XSTREAM_CHANGES : nat := 3.
Definition WU_COUNT_END_ : nat := 4.

(** Handles of threads and streams are integers, 0 for NULL. *)
Record thread_data := ThreadData {
  num_revivals : Z; num_yields : Z; num_suspensions : Z; num_xstream_changes : Z;
  time_created : Z; time_first_run : Z; time_last_run : Z; time_last_finish : Z; time_elapsed : Z;
  prev_xstream : Z; owner : Z
}.

(** A block of memory and an offset in it. *)
Notation addr := (positive * Z)%type.

Record thread_info := ThreadInfo { td : thread_data; p_next_unused : option addr; p_next_all : option addr }.

(** With 4-byte [int]s and 8-byte [int64_t]s and pointers. *)
Definition sizeof_thread_info : Z := 4 * 4 + 5 * 8 + 2 * 8 + 2 * 8.

Record xstream_data := XData {
  cur_depth : Z; num_events : list Z; times_last_run : list Z; times_elapsed : list Z;
  wu_times : list wu; wu_counts : list wu
}.

Record xstream_info := XInfo {
  rank : Z; tag : Z; xd : xstream_data;
  p_thread_all : option addr; p_thread_unused : option addr; p_memblock_head : option positive;
  p_next : option positive
}.

(** [ABTXI_prof_global] with the memory that it leads to - thread records, blocks
    of them with the pointer in their first word, records of streams, arrays of
    streams with the pointer before them - and the values of its two keys. *)
Record prof := Prof {
  state : Z; prof_mode : Z; start_prof_time : Z; stop_prof_time : Z;
  prof_key : gmap Z addr; xstream_info_key : gmap Z positive;
  p_xstream_info_head : option positive; len_p_xstreams : Z; p_xstreams : option positive; mem_p_xstreams : option positive;
  tinfos : gmap addr thread_info; memblocks : gmap positive (option positive);
  xinfos : gmap positive xstream_info; arrays : gmap positive (option positive * list (option positive))
}.

(** *** Zero-filled data *)

Definition zero_wu : wu := Wu 0 0 0 0.
Definition zero_thread_data : thread_data := ThreadData 0 0 0 0 0 0 0 0 0 0 0.
Definition zero_xstream_data : xstream_data :=
  XData 0 (replicate ABTXI_PROF_EVENT_END_ 0) (replicate (Z.to_nat ABTXI_PROF_MAX_DEPTH) 0)
    (replicate (Z.to_nat ABTXI_PROF_MAX_DEPTH) 0) (replicate WU_TIME_END_ zero_wu) (replicate WU_COUNT_END_ zero_wu).

(** *** Field updates *)

Definition with_run (s : prof) (st m t0 t1 : Z) : prof :=
  Prof st m t0 t1 (prof_key s) (xstream_info_key s) (p_xstream_info_head s) (len_p_xstreams s) (p_xstreams s)
    (mem_p_xstreams s) (tinfos s) (memblocks s) (xinfos s) (arrays s).
Definition with_keys (s : prof) (k : gmap Z addr) (x : gmap Z positive) : prof :=
  Prof (state s) (prof_mode s) (start_prof_time s) (stop_prof_time s) k x (p_xstream_info_head s) (len_p_xstreams s)
    (p_xstreams s) (mem_p_xstreams s) (tinfos s) (memblocks s) (xinfos s) (arrays s).
Definition with_table (s : prof) (len : Z) (a m : option positive) (ar : gmap positive (option positive * list (option positive))) : prof :=
  Prof (state s) (prof_mode s) (start_prof_time s) (stop_prof_time s) (prof_key s) (xstream_info_key s)
    (p_xstream_info_head s) len a m (tinfos s) (memblocks s) (xinfos s) ar.
Definition with_head (s : prof) (p : option positive) : prof :=
  Prof (state s) (prof_mode s) (start_prof_time s) (stop_prof_time s) (prof_key s) (xstream_info_key s) p
    (len_p_xstreams s) (p_xstreams s) (mem_p_xstreams s) (tinfos s) (memblocks s) (xinfos s) (arrays s).
Definition with_threads (s : prof) (t : gmap addr thread_info) (b : gmap positive (option positive)) : prof :=
  Prof (state s) (prof_mode s) (start_prof_time s) (stop_prof_time s) (prof_key s) (xstream_info_key s)
    (p_xstream_info_head s) (len_p_xstreams s) (p_xstreams s) (mem_p_xstreams s) t b (xinfos s) (arrays s).
Definition with_xinfos (s : prof) (x : gmap positive xstream_info) : prof :=
  Prof (state s) (prof_mode s) (start_prof_time s) (stop_prof_time s) (prof_key s) (xstream_info_key s)
    (p_xstream_info_head s) (len_p_xstreams s) (p_xstreams s) (mem_p_xstreams s) (tinfos s) (memblocks s) x (arrays s).

Definition set_tag (t : Z) (x : xstream_info) : xstream_info :=
  XInfo (rank x) t (xd x) (p_thread_all x) (p_thread_unused x) (p_memblock_head x) (p_next x).
Definition set_xd (v : xstream_data) (x : xstream_info) : xstream_info :=
  XInfo (rank x) (tag x) v (p_thread_all x) (p_thread_unused x) (p_memblock_head x) (p_next x).
Definition set_unused (p : option addr) (x : xstream_info) : xstream_info :=
  XInfo (rank x) (tag x) (xd x) (p_thread_all x) p (p_memblock_head x) (p_next x).
Definition set_threads (all unused : option addr) (b : option positive) (x : xstream_info) : xstream_info :=
  XInfo (rank x) (tag x) (xd x) all unused b (p_next x).
Definition set_xnext (p : option positive) (x : xstream_info) : xstream_info :=
  XInfo (rank x) (tag x) (xd x) (p_thread_all x) (p_thread_unused x) (p_memblock_head x) p.

Definition set_td (v : thread_data) (t : thread_info) : thread_info := ThreadInfo v (p_next_unused t) (p_next_all t).
Definition set_owner (o : Z) (v : thread_data) : thread_data :=
  ThreadData (num_revivals v) (num_yields v) (num_suspensions v) (num_xstream_changes v) (time_created v)
    (time_first_run v) (time_last_run v) (time_last_finish v) (time_elapsed v) (prev_xstream v) o.

Definition upd_x (s : prof) (x : positive) (f : xstream_info -> xstream_info) : option prof :=
  xi ← xinfos s !! x; Some (with_xinfos s (<[x := f xi]> (xinfos s))).
Definition upd_t (s : prof) (i : addr) (f : thread_info -> thread_info) : option prof :=
  ti ← tinfos s !! i; Some (with_threads s (<[i := f ti]> (tinfos s)) (memblocks s)).

(** ** Statistics *)

Definition ABTXI_prof_wu_time_add (v : Z) (w : wu) : wu :=
  if cnt w =? 0 then Wu v v (i64 (sum w + v)) (u64 (cnt w + 1))
  else Wu (if max_val w <? v then v else max_val w) (if v <? min_val w then v else min_val w)
          (i64 (sum w + v)) (u64 (cnt w + 1)).

Definition ABTXI_prof_wu_time_merge (src dest : wu) : wu :=
  if cnt dest =? 0 then Wu (max_val src) (min_val src) (i64 (sum dest + sum src)) (u64 (cnt dest + cnt src))
  else if negb (cnt src =? 0) then
    Wu (if max_val dest <? max_val src then max_val src else max_val dest)
       (if min_val src <? min_val dest then min_val src else min_val dest)
       (i64 (sum dest + sum src)) (u64 (cnt dest + cnt src))
  else Wu (max_val dest) (min_val dest) (i64 (sum dest + sum src)) (u64 (cnt dest + cnt src)).

(** The argument is an [int] that becomes a [uint64_t]. *)
Definition ABTXI_prof_wu_count_add (n : Z) (w : wu) : wu :=
  let v := u64 n in
  if cnt w =? 0 then Wu v v (u64 (sum w + v)) (u64 (cnt w + 1))
  else Wu (if max_val w <? v then v else max_val w) (if v <? min_val w then v else min_val w)
          (u64 (sum w + v)) (u64 (cnt w + 1)).

Definition ABTXI_prof_wu_count_merge (src dest : wu) : wu :=
  if cnt dest =? 0 then Wu (max_val src) (min_val src) (u64 (sum dest + sum src)) (u64 (cnt dest + cnt src))
  else if negb (cnt src =? 0) then
    Wu (if max_val dest <? max_val src then max_val src else max_val dest)
       (if min_val src <? min_val dest then min_val src else min_val dest)
       (u64 (sum dest + sum src)) (u64 (cnt dest + cnt src))
  else Wu (max_val dest) (min_val dest) (u64 (sum dest + sum src)) (u64 (cnt dest + cnt src)).

(** The four counts of a thread. *)
Definition merge_counts (t : thread_data) (l : list wu) : list wu :=
  alter (ABTXI_prof_wu_count_add (num_xstream_changes t)) WU_COUNT_THREAD_NUM_XSTREAM_CHANGES
    (alter (ABTXI_prof_wu_count_add (num_suspensions t)) WU_COUNT_THREAD_NUM_SUSPENSIONS
       (alter (ABTXI_prof_wu_count_add (num_yields t)) WU_COUNT_THREAD_NUM_YIELDS
          (alter (ABTXI_prof_wu_count_add (num_revivals t)) WU_COUNT_THREAD_NUM_REVIVALS l))).

Definition add_time (c : bool) (n : nat) (v : Z) (l : list wu) : list wu :=
  if c then alter (ABTXI_prof_wu_time_add v) n l else l.

Definition merge_times (t : thread_data) (time_freed : Z) (l : list wu) : list wu :=
  let l := add_time (negb (time_elapsed t =? 0)) WU_TIME_THREAD_ELAPSED (time_elapsed t) l in
  let l := add_time (negb (time_created t =? 0) && negb (time_first_run t =? 0)) WU_TIME_THREAD_CREATE_FIRST_RUN
             (i64 (time_first_run t - time_created t)) l in
  let l := add_time (negb (time_first_run t =? 0) && negb (time_last_finish t =? 0)) WU_TIME_THREAD_FIRST_RUN_LAST_FINISH
             (i64 (time_last_finish t - time_first_run t)) l in
  let l := add_time (negb (time_created t =? 0) && negb (time_last_finish t =? 0)) WU_TIME_THREAD_CREATE_LAST_FINISH
             (i64 (time_last_finish t - time_created t)) l in
  add_time (negb (time_created t =? 0) && negb (time_freed =? 0)) WU_TIME_THREAD_CREATE_FREE
    (i64 (time_freed - time_created t)) l.

Definition ABTXI_prof_merge_thread_data (x : xstream_data) (t : thread_data) (time_freed : Z) : xstream_data :=
  XData (cur_depth x) (num_events x) (times_last_run x) (times_elapsed x)
    (merge_times t time_freed (wu_times x)) (merge_counts t (wu_counts x)).

(** ** Records of threads *)

(** The loop that cuts a block in records. *)
Fixpoint alloc_loop (fuel : nat) (new : positive) (offset : Z) (ts : gmap addr thread_info) (unused all : option addr)
    : option (gmap addr thread_info * option addr * option addr) :=
  if offset + sizeof_thread_info <=? ABTXI_PROF_MEM_BLOCK_SIZE then
    match fuel with
    | O => None
    | S fuel =>
        let p_new := (new, offset) in
        alloc_loop fuel new (offset + sizeof_thread_info) (<[p_new := ThreadInfo zero_thread_data unused all]> ts)
          (Some p_new) (Some p_new)
    end
  else Some (ts, unused, all).

(** [new] is the block that [calloc] returns. *)
Definition ABTXI_prof_xstream_info_alloc_thread_info (s : prof) (x new : positive) : option prof :=
  xi ← xinfos s !! x;
  '(ts, unused, all) ← alloc_loop (Z.to_nat (ABTXI_PROF_MEM_BLOCK_SIZE / sizeof_thread_info)) new 128 (tinfos s) (p_thread_unused xi) (p_thread_all xi);
  upd_x (with_threads s ts (<[new := p_memblock_head xi]> (memblocks s))) x (set_threads all unused (Some new)).

Definition ABTXI_prof_init_thread_info (t : thread_info) : thread_info := set_td zero_thread_data t.

Definition ABTXI_prof_reset_thread_info (t : thread_info) : thread_info :=
  ThreadInfo zero_thread_data (p_next_all t) (p_next_all t).

(** The branch that gives a thread a record. *)
Definition take_thread_info (s : prof) (x : positive) (thread : Z) (new : positive) : option (addr * prof) :=
  xi ← xinfos s !! x;
  s ← match p_thread_unused xi with
      | None => ABTXI_prof_xstream_info_alloc_thread_info s x new
      | Some _ => Some s
      end;
  xi ← xinfos s !! x;
  i ← p_thread_unused xi;
  ti ← tinfos s !! i;
  s ← upd_x s x (set_unused (p_next_unused ti));
  let s := with_keys s (<[thread := i]> (prof_key s)) (xstream_info_key s) in
  s ← upd_t s i (fun ti => set_td (set_owner thread (td ti)) ti);
  Some (i, s).

Definition ABTXI_prof_get_thread_info (s : prof) (x : positive) (thread : Z) (new : positive) : option (addr * prof) :=
  match prof_key s !! thread with
  | Some i => ti ← tinfos s !! i; if owner (td ti) =? thread then Some (i, s) else take_thread_info s x thread new
  | None => take_thread_info s x thread new
  end.

Definition ABTXI_prof_release_thread_info (s : prof) (x : positive) (i : addr) (time_freed : Z) : option prof :=
  ti ← tinfos s !! i;
  xi ← xinfos s !! x;
  s ← upd_x s x (set_xd (ABTXI_prof_merge_thread_data (xd xi) (td ti) time_freed));
  s ← upd_t s i (fun ti => ThreadInfo zero_thread_data (p_thread_unused xi) (p_next_all (ABTXI_prof_init_thread_info ti)));
  upd_x s x (set_unused (Some i)).

(** ** Records of streams *)

Definition ABTXI_prof_init_xstream_info (r : Z) : xstream_info := XInfo r 0 zero_xstream_data None None None None.

Fixpoint reset_threads (fuel : nat) (ts : gmap addr thread_info) (p : option addr) : option (gmap addr thread_info) :=
  match p with
  | None => Some ts
  | Some i =>
      match fuel with
      | O => None
      | S fuel => ti ← ts !! i; reset_threads fuel (<[i := ABTXI_prof_reset_thread_info ti]> ts) (p_next_all ti)
      end
  end.

Definition ABTXI_prof_reset_xstream_info (s : prof) (x : positive) : option prof :=
  xi ← xinfos s !! x;
  ts ← reset_threads (size (tinfos s)) (tinfos s) (p_thread_all xi);
  upd_x (with_threads s ts (memblocks s)) x
    (fun xi => set_unused (p_thread_all xi) (set_xd zero_xstream_data xi)).

(** Freeing the blocks: the records in them are gone. *)
Fixpoint free_blocks (fuel : nat) (ts : gmap addr thread_info) (bs : gmap positive (option positive)) (p : option positive)
    : option (gmap addr thread_info * gmap positive (option positive)) :=
  match p with
  | None => Some (ts, bs)
  | Some b =>
      match fuel with
      | O => None
      | S fuel => nx ← bs !! b; free_blocks fuel (filter (fun kv => kv.1.1 ≠ b) ts) (delete b bs) nx
      end
  end.

Definition ABTXI_prof_destroy_xstream_info (s : prof) (x : positive) : option prof :=
  xi ← xinfos s !! x;
  '(ts, bs) ← free_blocks (size (memblocks s)) (tinfos s) (memblocks s) (p_memblock_head xi);
  Some (with_threads s ts bs).

(** Adding a new record at the head of the list. *)
Definition link_xstream_info (s : prof) (x : positive) (r : Z) : option prof :=
  let s := with_xinfos s (<[x := ABTXI_prof_init_xstream_info r]> (xinfos s)) in
  s ← upd_x s x (set_xnext (p_xstream_info_head s));
  Some (with_head s (Some x)).

(** The extension of the array. *)
Definition extend_xstreams (s : prof) (new : positive) : option prof :=
  let new_len := i32 (Z.max ABTXI_PROF_DEFAULT_NUM_XSTREAMS (len_p_xstreams s * 2)) in
  old ← match p_xstreams s with None => Some [] | Some a => '(_, l) ← arrays s !! a; Some l end;
  Some (with_table s new_len (Some new) (Some new)
          (<[new := (mem_p_xstreams s, old ++ replicate (Z.to_nat (new_len - len_p_xstreams s)) None)]> (arrays s))).

(** Who makes the callback: an execution stream with its rank, or a thread of the
    system outside of Argobots. *)
Inductive caller := ES (xstream : Z) (r : Z) | External (pthread : Z).

Definition xstream_of (c : caller) : Z := match c with ES xs _ => xs | External _ => 0 end.

(** [new_x] and [new_a] are what [malloc] and [calloc] return. *)
Definition ABTXI_prof_get_xstream_info (s : prof) (c : caller) (new_x new_a : positive) : option (positive * prof) :=
  match c with
  | External self =>
      match xstream_info_key s !! self with
      | Some x => Some (x, s)
      | None =>
          let s := with_keys s (prof_key s) (<[self := new_x]> (xstream_info_key s)) in
          s ← link_xstream_info s new_x (-1); Some (new_x, s)
      end
  | ES _ r =>
      s ← if len_p_xstreams s <=? r then extend_xstreams s new_a else Some s;
      a ← p_xstreams s;
      '(nx, l) ← arrays s !! a;
      e ← l !! Z.to_nat r;
      match e with
      | Some x => Some (x, s)
      | None =>
          s ← link_xstream_info s new_x r;
          Some (new_x, with_table s (len_p_xstreams s) (p_xstreams s) (mem_p_xstreams s)
                         (<[a := (nx, <[Z.to_nat r := Some new_x]> l)]> (arrays s)))
      end
  end.

(** ** The callback *)

(** [stack_depth] is what [ABT_tool_query_thread] answers. *)
Definition ABTXI_prof_xstream_info_get_depth_thread (force_update : bool) (stack_depth : Z) (x : xstream_data) : Z * xstream_data :=
  if force_update || (cur_depth x =? 0) then
    let cur := i32 (stack_depth + 1) in
    (i32 (cur - 1), XData cur (num_events x) (times_last_run x) (times_elapsed x) (wu_times x) (wu_counts x))
  else (i32 (cur_depth x - 1), x).

Definition count_event (e : event) (x : xstream_data) : xstream_data :=
  XData (cur_depth x) (alter (fun n => u64 (n + 1)) (event_index e) (num_events x)) (times_last_run x) (times_elapsed x)
    (wu_times x) (wu_counts x).

(** Reading and writing an array of four at an [int]. *)
Definition get_at (l : list Z) (i : Z) : option Z := if i <? 0 then None else l !! Z.to_nat i.
Definition set_at (l : list Z) (i v : Z) : option (list Z) := _ ← get_at l i; Some (<[Z.to_nat i := v]> l).

(** A stream starts to run a thread. *)
Definition stream_run (stack_depth now : Z) (x : xstream_data) : option xstream_data :=
  let '(depth, x) := ABTXI_prof_xstream_info_get_depth_thread true stack_depth x in
  if depth <? ABTXI_PROF_MAX_DEPTH then
    l ← set_at (times_last_run x) depth now;
    Some (XData (cur_depth x) (num_events x) l (times_elapsed x) (wu_times x) (wu_counts x))
  else Some x.

(** A thread leaves a stream, at its end, when it yields or when it suspends. *)
Definition stream_leave (start_prof_time stack_depth now : Z) (x : xstream_data) : option xstream_data :=
  let '(depth, x) := ABTXI_prof_xstream_info_get_depth_thread false stack_depth x in
  if depth <? ABTXI_PROF_MAX_DEPTH then
    last ← get_at (times_last_run x) depth;
    let last := if last =? 0 then start_prof_time else last in
    el ← get_at (times_elapsed x) depth;
    els ← set_at (times_elapsed x) depth (i64 (el + i64 (now - last)));
    lasts ← set_at (times_last_run x) depth ABTXI_PROF_TIME_LAST_RUN_INVALID;
    Some (XData (cur_depth x) (num_events x) lasts els (wu_times x) (wu_counts x))
  else Some x.

Definition set_time_created (now : Z) (t : thread_data) : thread_data :=
  ThreadData (num_revivals t) (num_yields t) (num_suspensions t) (num_xstream_changes t) now
    (time_first_run t) (time_last_run t) (time_last_finish t) (time_elapsed t) (prev_xstream t) (owner t).

Definition thread_revive (t : thread_data) : thread_data :=
  ThreadData (i32 (num_revivals t + 1)) (num_yields t) (num_suspensions t) (num_xstream_changes t) (time_created t)
    (time_first_run t) (time_last_run t) (time_last_finish t) (time_elapsed t) (prev_xstream t) (owner t).

Definition thread_run (xstream now : Z) (t : thread_data) : thread_data :=
  ThreadData (num_revivals t) (num_yields t) (num_suspensions t)
    (if negb (prev_xstream t =? xstream) then i32 (num_xstream_changes t + 1) else num_xstream_changes t)
    (time_created t) (if time_first_run t =? 0 then now else time_first_run t) now (time_last_finish t) (time_elapsed t)
    xstream (owner t).

(** The time that a thread has run, when it leaves its stream. *)
Definition thread_leave (start_prof_time now : Z) (t : thread_data) : thread_data :=
  let last := if time_last_run t =? 0 then start_prof_time else time_last_run t in
  ThreadData (num_revivals t) (num_yields t) (num_suspensions t) (num_xstream_changes t) (time_created t)
    (time_first_run t) last (time_last_finish t) (i64 (time_elapsed t + i64 (now - last))) (prev_xstream t) (owner t).

Definition thread_finish (start_prof_time now : Z) (t : thread_data) : thread_data :=
  let t := thread_leave start_prof_time now t in
  ThreadData (num_revivals t) (num_yields t) (num_suspensions t) (num_xstream_changes t) (time_created t)
    (time_first_run t) (time_last_run t) now (time_elapsed t) (prev_xstream t) (owner t).

Definition thread_yield (start_prof_time now : Z) (t : thread_data) : thread_data :=
  let t := thread_leave start_prof_time now t in
  ThreadData (num_revivals t) (i32 (num_yields t + 1)) (num_suspensions t) (num_xstream_changes t) (time_created t)
    (time_first_run t) (time_last_run t) (time_last_finish t) (time_elapsed t) (prev_xstream t) (owner t).

Definition thread_suspend (start_prof_time now : Z) (t : thread_data) : thread_data :=
  let t := thread_leave start_prof_time now t in
  ThreadData (num_revivals t) (num_yields t) (i32 (num_suspensions t + 1)) (num_xstream_changes t) (time_created t)
    (time_first_run t) (time_last_run t) (time_last_finish t) (time_elapsed t) (prev_xstream t) (owner t).

(** What an event does to the record of the stream. *)
Definition stream_event (e : event) (start_prof_time stack_depth now : Z) (x : xstream_data) : option xstream_data :=
  let x := count_event e x in
  match e with
  | THREAD_RUN => stream_run stack_depth now x
  | THREAD_FINISH | THREAD_YIELD | THREAD_SUSPEND => stream_leave start_prof_time stack_depth now x
  | _ => Some x
  end.

(** What it does to the record of the thread. *)
Definition thread_event (e : event) (start_prof_time xstream now : Z) (t : thread_data) : thread_data :=
  match e with
  | THREAD_CREATE => set_time_created now t
  | THREAD_REVIVE => thread_revive t
  | THREAD_RUN => thread_run xstream now t
  | THREAD_FINISH => thread_finish start_prof_time now t
  | THREAD_YIELD => thread_yield start_prof_time now t
  | THREAD_SUSPEND => thread_suspend start_prof_time now t
  | _ => t
  end.

(** The [switch] of the callback; [oi] is the record of the thread in the detailed mode. *)
Definition switch_event (s : prof) (x : positive) (oi : option addr) (e : event) (xstream stack_depth now : Z) : option prof :=
  xi ← xinfos s !! x;
  v ← stream_event e (start_prof_time s) stack_depth now (xd xi);
  s ← upd_x s x (set_xd v);
  match oi with
  | None => Some s
  | Some i =>
      match e with
      | THREAD_FREE => ABTXI_prof_release_thread_info s x i now
      | _ => upd_t s i (fun ti => set_td (thread_event e (start_prof_time s) xstream now (td ti)) ti)
      end
  end.

(** Entering and leaving the dirty phase. *)
Definition bump_tag (s : prof) (x : positive) : option prof := upd_x s x (fun xi => set_tag (i32 (tag xi + 1)) xi).

(** The memory that a callback may get. *)
Record allocs := Allocs { new_xinfo : positive; new_array : positive; new_block : positive }.

Definition ABTXI_prof_thread_callback_impl (s : prof) (c : caller) (thread : Z) (e : event) (stack_depth now : Z)
    (al : allocs) (mode : Z) : option prof :=
  '(x, s) ← ABTXI_prof_get_xstream_info s c (new_xinfo al) (new_array al);
  s ← bump_tag s x;
  '(oi, s) ← (if mode =? Profiling.ABTX_PROF_MODE_DETAILED then
                '(i, s) ← ABTXI_prof_get_thread_info s x thread (new_block al); Some (Some i, s)
              else Some (None, s));
  s ← switch_event s x oi e (xstream_of c) stack_depth now;
  bump_tag s x.

Definition ABTXI_prof_thread_callback_basic (s : prof) (c : caller) (thread : Z) (e : event) (stack_depth now : Z) (al : allocs) : option prof :=
  ABTXI_prof_thread_callback_impl s c thread e stack_depth now al Profiling.ABTX_PROF_MODE_BASIC.

Definition ABTXI_prof_thread_callback_detailed (s : prof) (c : caller) (thread : Z) (e : event) (stack_depth now : Z) (al : allocs) : option prof :=
  ABTXI_prof_thread_callback_impl s c thread e stack_depth now al Profiling.ABTX_PROF_MODE_DETAILED.

(** ** Operations *)

Inductive abt_ret := ABT_SUCCESS | ABT_ERR_OTHER | ABT_ERR_UNINITIALIZED.

#[export] Instance abt_ret_eq_dec : EqDecision abt_ret.
Proof. solve_decision. Defined.

Definition empty_prof : prof :=
  Prof ABTXI_PROF_GLOBAL_STATE_CLEAN 0 0 0 ∅ ∅ None 0 None None ∅ ∅ ∅ ∅.

(** Argobots is built with tools, it is initialised, and a key of the threads of the
    system is left. *)
Definition ABTX_prof_init (tool_enabled has_context abt_initialized key_created : bool) : abt_ret * option prof :=
  if negb tool_enabled then (ABT_ERR_OTHER, None)
  else if negb has_context then (ABT_ERR_OTHER, None)
  else if negb abt_initialized then (ABT_ERR_UNINITIALIZED, None)
  else if negb key_created then (ABT_ERR_OTHER, None)
  else (ABT_SUCCESS, Some empty_prof).

(** The loops that reset the records of all streams. *)
Fixpoint reset_all (fuel : nat) (s : prof) (p : option positive) : option prof :=
  match p with
  | None => Some s
  | Some x =>
      match fuel with
      | O => None
      | S fuel => xi ← xinfos s !! x; s ← ABTXI_prof_reset_xstream_info s x; reset_all fuel s (p_next xi)
      end
  end.

(** A context is [None] when it is NULL; [now] is the clock; registering the callback
    is the state RUNNING with its mode. *)
Definition ABTX_prof_start (context : option prof) (mode now : Z) : option (abt_ret * option prof) :=
  match context with
  | None => Some (ABT_ERR_OTHER, None)
  | Some s =>
      if state s =? ABTXI_PROF_GLOBAL_STATE_RUNNING then Some (ABT_ERR_OTHER, Some s)
      else
        s ← (if state s =? ABTXI_PROF_GLOBAL_STATE_STOPPED then reset_all (size (xinfos s)) s (p_xstream_info_head s) else Some s);
        Some (ABT_SUCCESS, Some (with_run s ABTXI_PROF_GLOBAL_STATE_RUNNING mode now (stop_prof_time s)))
  end.

Definition ABTX_prof_stop (context : option prof) (now : Z) : option (abt_ret * option prof) :=
  match context with
  | None => Some (ABT_ERR_OTHER, None)
  | Some s =>
      if negb (state s =? ABTXI_PROF_GLOBAL_STATE_RUNNING) then Some (ABT_ERR_OTHER, Some s)
      else Some (ABT_SUCCESS, Some (with_run s ABTXI_PROF_GLOBAL_STATE_STOPPED (prof_mode s) (start_prof_time s) now))
  end.

Definition ABTX_prof_clean (context : option prof) : option (abt_ret * option prof) :=
  match context with
  | None => Some (ABT_ERR_OTHER, None)
  | Some s =>
      if negb (state s =? ABTXI_PROF_GLOBAL_STATE_STOPPED) then Some (ABT_ERR_OTHER, Some s)
      else
        s ← reset_all (size (xinfos s)) s (p_xstream_info_head s);
        Some (ABT_SUCCESS, Some (with_run s ABTXI_PROF_GLOBAL_STATE_CLEAN (prof_mode s) (start_prof_time s) (stop_prof_time s)))
  end.

Fixpoint destroy_all (fuel : nat) (s : prof) (p : option positive) : option prof :=
  match p with
  | None => Some s
  | Some x =>
      match fuel with
      | O => None
      | S fuel =>
          xi ← xinfos s !! x;
          s ← ABTXI_prof_destroy_xstream_info s x;
          destroy_all fuel (with_xinfos s (delete x (xinfos s))) (p_next xi)
      end
  end.

Fixpoint free_arrays (fuel : nat) (s : prof) (p : option positive) : option prof :=
  match p with
  | None => Some s
  | Some a =>
      match fuel with
      | O => None
      | S fuel =>
          '(nx, l) ← arrays s !! a;
          free_arrays fuel (with_table s (len_p_xstreams s) (p_xstreams s) (mem_p_xstreams s) (delete a (arrays s))) nx
      end
  end.

(** On success the context is freed; the state is what is left of the memory that it
    leads to. *)
Definition ABTX_prof_finalize (context : option prof) (abt_initialized : bool) : option (abt_ret * option prof) :=
  match context with
  | None => Some (ABT_ERR_OTHER, None)
  | Some s =>
      if negb abt_initialized then Some (ABT_ERR_UNINITIALIZED, Some s)
      else if state s =? ABTXI_PROF_GLOBAL_STATE_RUNNING then Some (ABT_ERR_OTHER, Some s)
      else
        s ← destroy_all (size (xinfos s)) s (p_xstream_info_head s);
        s ← free_arrays (size (arrays s)) s (mem_p_xstreams s);
        Some (ABT_SUCCESS, Some s)
  end.

(** ** Linked lists in memory *)

(** Following [nx] from [p] through [m] visits [l] and ends. *)
Fixpoint chain {K} `{Countable K} {V} (m : gmap K V) (nx : V -> option K) (p : option K) (l : list K) : Prop :=
  match l with
  | [] => p = None
  | k :: l => p = Some k /\ exists v, m !! k = Some v /\ chain m nx (nx v) l
  end.

Section chains.
Context {K : Type} `{Countable K} {V : Type}.
Implicit Types (m : gmap K V) (nx : V -> option K).

Lemma chain_frame m m' nx l : forall p,
  (forall k, k ∈ l -> nx <$> m' !! k = nx <$> m !! k) -> chain m nx p l -> chain m' nx p l.
Proof.
  induction l as [|k l IH]; intros p Hf; [done|]. cbn [chain]. intros (-> & v & Hv & Hc). split; [done|].
  pose proof (Hf k ltac:(set_solver)) as Hk. rewrite Hv in Hk. cbn in Hk.
  destruct (m' !! k) as [v'|] eqn:Hv'; [|done]. cbn in Hk. exists v'. split; [done|]. injection Hk as ->.
  apply IH; [|done]. intros. apply Hf. set_solver.
Qed.

Lemma chain_dom m nx l k : forall p, chain m nx p l -> k ∈ l -> is_Some (m !! k).
Proof.
  induction l as [|k' l IH]; intros p; [set_solver|]. cbn [chain]. intros (-> & v & Hv & Hc) [->|Hk]%elem_of_cons; [by rewrite Hv|].
  by eapply IH.
Qed.

Lemma chain_insert m nx p l k v : k ∉ l -> chain m nx p l -> chain (<[k := v]> m) nx p l.
Proof. intros Hk. apply chain_frame. intros k' Hk'. rewrite lookup_insert_ne; [done|]. intros ->. done. Qed.

Lemma chain_delete m nx p l k : k ∉ l -> chain m nx p l -> chain (delete k m) nx p l.
Proof. intros Hk. apply chain_frame. intros k' Hk'. rewrite lookup_delete_ne; [done|]. intros ->. done. Qed.

(** An update that keeps the links. *)
Lemma chain_update m nx p l k v v' : m !! k = Some v -> nx v' = nx v -> chain m nx p l -> chain (<[k := v']> m) nx p l.
Proof.
  intros Hk Hv. apply chain_frame. intros k' _. destruct (decide (k' = k)) as [->|]; [|by rewrite lookup_insert_ne].
  rewrite lookup_insert_eq, Hk. cbn. by rewrite Hv.
Qed.
End chains.

Lemma chain_length_size {K} `{Countable K} {V} (m : gmap K V) nx p l :
  chain m nx p l -> NoDup l -> (length l <= size m)%nat.
Proof. intros Hc Hnd. apply length_le_size; [done|]. intros k Hk. by eapply chain_dom. Qed.
