(* ===== verification/AbtxInv.v ===== *)
(** * The records of the profiler (src/abtx_prof.h)

    The invariant of the memory of the profiler: the list and the table of the
    records of streams, the blocks of thread records of each stream, the lists of
    unused records that records enter and leave on any stream; every callback and
    every operation keeps it, and never uses a pointer that it should not. *)

From S2P Require Import Prelude AbtxProf.

#[local] Open Scope Z_scope.

(** ** The records cut from a block *)

(** The records from [offset] to the end of a block, the last one first. *)
Fixpoint cuts (fuel : nat) (b : positive) (offset : Z) : list addr :=
  match fuel with
  | O => []
  | S fuel =>
      if offset + sizeof_thread_info <=? ABTXI_PROF_MEM_BLOCK_SIZE then cuts fuel b (offset + sizeof_thread_info) ++ [(b, offset)] else []
  end.

Definition block_infos (b : positive) : list addr := cuts (Z.to_nat (ABTXI_PROF_MEM_BLOCK_SIZE / sizeof_thread_info)) b 128.
Definition infos_of (bs : list positive) : list addr := bs ≫= block_infos.

Lemma cuts_elem fuel b : forall o i, i ∈ cuts fuel b o -> i.1 = b /\ o <= i.2.
Proof.
  induction fuel as [|fuel IH]; intros o i; cbn [cuts]; [set_solver|].
  destruct (_ <=? _); [|set_solver]. intros [H|Hi]%elem_of_app.
  - apply IH in H as [-> ?]. split; [done|]. unfold sizeof_thread_info in *. lia.
  - apply list_elem_of_singleton in Hi as ->. done.
Qed.

Lemma cuts_nodup fuel b : forall o, NoDup (cuts fuel b o).
Proof.
  induction fuel as [|fuel IH]; intros o; cbn [cuts]; [constructor|]. destruct (_ <=? _); [|constructor].
  apply NoDup_app. split; [apply IH|]. split; [|apply NoDup_singleton].
  intros i Hi%cuts_elem ->%list_elem_of_singleton. cbn in Hi. unfold sizeof_thread_info in Hi. lia.
Qed.

(** The loop that cuts a block puts its records before both lists. *)
Lemma alloc_loop_spec fuel new : forall o ts un all lu la,
  chain ts p_next_unused un lu -> chain ts p_next_all all la -> (forall o', o <= o' -> ts !! (new, o') = None) ->
  ABTXI_PROF_MEM_BLOCK_SIZE < o + sizeof_thread_info * (Z.of_nat fuel + 1) ->
  exists ts' un' all', alloc_loop fuel new o ts un all = Some (ts', un', all') /\
    chain ts' p_next_unused un' (cuts fuel new o ++ lu) /\ chain ts' p_next_all all' (cuts fuel new o ++ la) /\
    (forall i, i ∈ cuts fuel new o -> exists ti, ts' !! i = Some ti /\ td ti = zero_thread_data) /\
    (forall i, i ∉ cuts fuel new o -> ts' !! i = ts !! i).
Proof.
  induction fuel as [|fuel IH]; intros o ts un all lu la Hu Ha Hn Hf; cbn [alloc_loop cuts].
  { rewrite (proj2 (Z.leb_gt _ _)) by lia. exists ts, un, all. split_and!; set_solver. }
  destruct (_ <=? _); [|exists ts, un, all; split_and!; set_solver].
  assert (forall l nx p, chain ts nx p l -> (new, o) ∉ l) as Hni.
  { intros l nx p Hc Hi. destruct (chain_dom _ _ _ _ _ Hc Hi) as [v Hv]. by rewrite Hn in Hv. }
  destruct (IH (o + sizeof_thread_info) (<[(new, o) := ThreadInfo zero_thread_data un all]> ts) (Some (new, o)) (Some (new, o))
              ((new, o) :: lu) ((new, o) :: la)) as (ts' & un' & all' & E & Hu' & Ha' & Hz & Hs).
  - split; [done|]. eexists. split; [apply lookup_insert_eq|]. apply chain_insert; [|done]. by eapply Hni.
  - split; [done|]. eexists. split; [apply lookup_insert_eq|]. apply chain_insert; [|done]. by eapply Hni.
  - intros o' Ho'. rewrite lookup_insert_ne; [|intros [= <-]; unfold sizeof_thread_info in Ho'; lia]. apply Hn. unfold sizeof_thread_info in Ho'. lia.
  - lia.
  - rewrite <- !app_assoc. exists ts', un', all'. split_and!; [done..| |].
    + intros i [Hi|Hi]%elem_of_app; [by apply Hz|]. apply list_elem_of_singleton in Hi as ->.
      rewrite Hs; [rewrite lookup_insert_eq; eauto|]. intros [_ Hi]%cuts_elem. cbn in Hi. unfold sizeof_thread_info in Hi. lia.
    + intros i Hi. rewrite Hs by set_solver. apply lookup_insert_ne. intros <-. set_solver.
Qed.

Lemma alloc_block_spec new ts un all lu la :
  chain ts p_next_unused un lu -> chain ts p_next_all all la -> (forall o, ts !! (new, o) = None) ->
  exists ts' un' all', alloc_loop (Z.to_nat (ABTXI_PROF_MEM_BLOCK_SIZE / sizeof_thread_info)) new 128 ts un all = Some (ts', un', all') /\
    chain ts' p_next_unused un' (block_infos new ++ lu) /\ chain ts' p_next_all all' (block_infos new ++ la) /\
    (forall i, i ∈ block_infos new -> exists ti, ts' !! i = Some ti /\ td ti = zero_thread_data) /\
    (forall i, i ∉ block_infos new -> ts' !! i = ts !! i).
Proof.
  intros Hu Ha Hn. unfold block_infos. apply alloc_loop_spec; [exact Hu|exact Ha|intros; apply Hn|vm_compute; reflexivity].
Qed.

(** A block has 370 records. *)
Lemma block_infos_length b : length (block_infos b) = 370%nat.
Proof.
  unfold block_infos. set (f := Z.to_nat _). assert (forall b', length (cuts f b' 128) = length (cuts f 1%positive 128)) as ->.
  { intros b'. clearbody f. generalize 128. induction f as [|f IH]; intros o; [done|]. cbn [cuts]. destruct (_ <=? _); [|done].
    rewrite !length_app. by rewrite IH. }
  vm_compute. reflexivity.
Qed.

Lemma block_infos_elem b i : i ∈ block_infos b -> i.1 = b.
Proof. unfold block_infos. generalize (Z.to_nat (ABTXI_PROF_MEM_BLOCK_SIZE / sizeof_thread_info)). intros n Hi. apply (cuts_elem n b 128 i Hi). Qed.
Lemma block_infos_nodup b : NoDup (block_infos b).
Proof. unfold block_infos. generalize (Z.to_nat (ABTXI_PROF_MEM_BLOCK_SIZE / sizeof_thread_info)). intros n. apply (cuts_nodup n b 128). Qed.

#[local] Opaque block_infos.

Lemma infos_of_cons b bs : infos_of (b :: bs) = block_infos b ++ infos_of bs.
Proof. done. Qed.

Lemma infos_of_elem bs i : i ∈ infos_of bs -> i.1 ∈ bs.
Proof.
  unfold infos_of. intros (b & Hi & Hb)%list_elem_of_bind. apply block_infos_elem in Hi as ->. done.
Qed.

Lemma infos_of_nodup bs : NoDup bs -> NoDup (infos_of bs).
Proof.
  induction 1 as [|b bs Hb Hnd IH]; [constructor|]. rewrite infos_of_cons. apply NoDup_app. split; [apply block_infos_nodup|].
  split; [|done]. intros i Hi Hi'. apply block_infos_elem in Hi. apply infos_of_elem in Hi'. by rewrite Hi in Hi'.
Qed.

#[local] Opaque infos_of.

(** ** The invariant of the records of threads *)

(** [B x] are the blocks of the stream record [x] and [U x] its unused records; a
    record that is not unused is the one of its owner. *)
Record threads_ok (s : prof) (B : positive -> list positive) (U : positive -> list addr) : Prop := {
  to_all : forall x xi, xinfos s !! x = Some xi -> chain (tinfos s) p_next_all (p_thread_all xi) (infos_of (B x));
  to_unused : forall x xi, xinfos s !! x = Some xi -> chain (tinfos s) p_next_unused (p_thread_unused xi) (U x);
  to_blocks : forall x xi, xinfos s !! x = Some xi -> chain (memblocks s) id (p_memblock_head xi) (B x);
  to_none : forall x, xinfos s !! x = None -> B x = [] /\ U x = [];
  to_B_nodup : forall x, NoDup (B x);
  to_B_disj : forall x y b, b ∈ B x -> b ∈ B y -> x = y;
  to_bdom : forall b, is_Some (memblocks s !! b) <-> exists x, b ∈ B x;
  to_tdom : forall i, is_Some (tinfos s !! i) <-> exists x, i ∈ infos_of (B x);
  to_U_nodup : forall x, NoDup (U x);
  to_U_disj : forall x y i, i ∈ U x -> i ∈ U y -> x = y;
  to_zero : forall x i, i ∈ U x -> exists ti, tinfos s !! i = Some ti /\ td ti = zero_thread_data;
  to_owned : forall i ti, tinfos s !! i = Some ti -> (forall x, i ∉ U x) ->
    owner (td ti) ≠ 0 /\ (state s = ABTXI_PROF_GLOBAL_STATE_RUNNING -> prof_key s !! owner (td ti) = Some i);
  to_key : forall t i, prof_key s !! t = Some i -> is_Some (tinfos s !! i)
}.

(** The same records of streams, but for the data that the streams themselves
    write: everything that the records of threads depend on. *)
Definition shape (x : xstream_info) : Z * option addr * option addr * option positive * option positive :=
  (rank x, p_thread_all x, p_thread_unused x, p_memblock_head x, p_next x).

Lemma threads_ok_upd s B U x f s' :
  threads_ok s B U -> (forall xi, shape (f xi) = shape xi) -> upd_x s x f = Some s' -> threads_ok s' B U.
Proof.
  intros [] Hf. unfold upd_x. destruct (xinfos s !! x) as [xi|] eqn:Hx; [|done]. cbn. intros [= <-].
  assert (forall y yi, <[x := f xi]> (xinfos s) !! y = Some yi -> exists yi', xinfos s !! y = Some yi' /\ shape yi = shape yi') as Hy.
  { intros y yi. destruct (decide (y = x)) as [->|]; [rewrite lookup_insert_eq|rewrite lookup_insert_ne by done; eauto].
    intros [= <-]. eauto. }
  split; cbn; try done.
  - intros y yi (yi' & Hy' & E)%Hy. injection E as _ -> _ _ _. eauto.
  - intros y yi (yi' & Hy' & E)%Hy. injection E as _ _ -> _ _. eauto.
  - intros y yi (yi' & Hy' & E)%Hy. injection E as _ _ _ -> _. eauto.
  - intros y. destruct (decide (y = x)) as [->|]; [by rewrite lookup_insert_eq|rewrite lookup_insert_ne by done; eauto].
Qed.

Definition fupd {A} (F : positive -> list A) (x : positive) (l : list A) : positive -> list A := fun y => if decide (y = x) then l else F y.

Lemma fupd_eq {A} (F : positive -> list A) x l : fupd F x l x = l.
Proof. unfold fupd. by rewrite decide_True. Qed.
Lemma fupd_ne {A} (F : positive -> list A) x l y : y ≠ x -> fupd F x l y = F y.
Proof. intros. unfold fupd. by rewrite decide_False. Qed.

Ltac fupd_case y x := destruct (decide (y = x)) as [->|]; [rewrite ?fupd_eq in *|rewrite ?(fupd_ne _ x _ y) in * by assumption].

(** What the operations on the records of threads do not change. *)
Record stable (s s' : prof) : Prop := {
  st_state : state s' = state s; st_mode : prof_mode s' = prof_mode s;
  st_start : start_prof_time s' = start_prof_time s; st_stop : stop_prof_time s' = stop_prof_time s;
  st_xkey : xstream_info_key s' = xstream_info_key s; st_head : p_xstream_info_head s' = p_xstream_info_head s;
  st_len : len_p_xstreams s' = len_p_xstreams s; st_tab : p_xstreams s' = p_xstreams s;
  st_mem : mem_p_xstreams s' = mem_p_xstreams s; st_arrays : arrays s' = arrays s;
  st_xinfos : forall y, (fun xi => (rank xi, p_next xi)) <$> xinfos s' !! y = (fun xi => (rank xi, p_next xi)) <$> xinfos s !! y
}.

Lemma stable_refl s : stable s s.
Proof. by split. Qed.
Lemma stable_trans s1 s2 s3 : stable s1 s2 -> stable s2 s3 -> stable s1 s3.
Proof. intros [] []. split; try congruence; intros y; rewrite st_xinfos1; auto. Qed.

#[local] Hint Resolve stable_refl : core.

Lemma stable_dom s s' x : stable s s' -> is_Some (xinfos s' !! x) <-> is_Some (xinfos s !! x).
Proof.
  intros Hs. pose proof (st_xinfos _ _ Hs x) as E. destruct (xinfos s' !! x), (xinfos s !! x); try done;
    by split; intros [? ?].
Qed.

(** The data of a stream record. *)
Definition xdata (s : prof) (x : positive) : option xstream_data := xd <$> xinfos s !! x.

(** A quantity of the thread record at an address, 0 where there is none. *)
Definition tval (g : thread_data -> Z) (s : prof) (i : addr) : Z := from_option (fun ti => g (td ti)) 0 (tinfos s !! i).

Lemma upd_x_stable s x f s' : upd_x s x f = Some s' -> (forall xi, rank (f xi) = rank xi /\ p_next (f xi) = p_next xi) -> stable s s'.
Proof.
  unfold upd_x. destruct (xinfos s !! x) as [xi|] eqn:Hx; [|done]. cbn. intros [= <-] Hf. split; try done. cbn. intros y.
  destruct (decide (y = x)) as [->|]; [|by rewrite lookup_insert_ne]. rewrite lookup_insert_eq, Hx. cbn.
  by destruct (Hf xi) as [-> ->].
Qed.

Lemma upd_x_xdata s x f s' y : upd_x s x f = Some s' -> (forall xi, xd (f xi) = xd xi) -> xdata s' y = xdata s y.
Proof.
  unfold upd_x, xdata. destruct (xinfos s !! x) as [xi|] eqn:Hx; [|done]. cbn. intros [= <-] Hf. cbn.
  destruct (decide (y = x)) as [->|]; [|by rewrite lookup_insert_ne]. rewrite lookup_insert_eq, Hx. cbn. by rewrite Hf.
Qed.

(** Allocation of a block for a stream that has no unused record. *)
Lemma alloc_thread_info_spec s B U x xi new :
  threads_ok s B U -> xinfos s !! x = Some xi -> U x = [] -> memblocks s !! new = None ->
  exists s', ABTXI_prof_xstream_info_alloc_thread_info s x new = Some s' /\
    threads_ok s' (fupd B x (new :: B x)) (fupd U x (block_infos new)) /\ stable s s' /\
    (forall y, xdata s' y = xdata s y) /\ prof_key s' = prof_key s /\
    (forall i, tinfos s !! i = tinfos s' !! i \/ tinfos s !! i = None /\ exists ti, tinfos s' !! i = Some ti /\ td ti = zero_thread_data).
Proof.
  intros Hok Hx HUx Hnew. unfold ABTXI_prof_xstream_info_alloc_thread_info. rewrite Hx. cbn [mbind option_bind].
  assert (forall y, new ∉ B y) as HnB. { intros y Hy. destruct (proj2 (to_bdom _ _ _ Hok new)) as [? H]; [by exists y|]. congruence. }
  assert (forall o, tinfos s !! (new, o) = None) as HnT.
  { intros o. apply eq_None_not_Some. intros (y & Hy%infos_of_elem)%(to_tdom _ _ _ Hok). by apply (HnB y). }
  pose proof (to_unused _ _ _ Hok x xi Hx) as Hu. rewrite HUx in Hu. pose proof (to_all _ _ _ Hok x xi Hx) as Ha.
  destruct (alloc_block_spec new _ _ _ _ _ Hu Ha HnT) as (ts & un & all & -> & Hu' & Ha' & Hz & Hs). rewrite app_nil_r in Hu'. cbn [mbind option_bind].
  unfold upd_x. cbn [xinfos with_threads]. rewrite Hx. cbn [mbind option_bind]. eexists. split; [done|].
  assert (forall y i, i ∈ infos_of (B y) \/ i ∈ U y -> i ∉ block_infos new) as Hold.
  { intros y i Hi Hi'. apply block_infos_elem in Hi'. assert (is_Some (tinfos s !! i)) as [? H].
    { destruct Hi as [Hi|Hi]; [apply (to_tdom _ _ _ Hok); by exists y|]. destruct (to_zero _ _ _ Hok _ _ Hi) as (? & -> & _). eauto. }
    destruct i as [b o]. cbn in Hi'. subst b. by rewrite HnT in H. }
  assert (forall y nx p l, (forall i, i ∈ l -> i ∈ infos_of (B y) \/ i ∈ U y) -> chain (tinfos s) nx p l -> chain ts nx p l) as Hfr.
  { intros y nx p l Hl. apply chain_frame. intros i Hi. by rewrite (Hs i) by eauto. }
  split; [|split; [|split; [|split]]].
  - split; cbn.
    + intros y yi. fupd_case y x; [rewrite lookup_insert_eq; intros [= <-]; by rewrite infos_of_cons|].
      rewrite lookup_insert_ne by done. intros Hy. eapply (Hfr y); [by left|]. by apply (to_all _ _ _ Hok).
    + intros y yi. fupd_case y x; [rewrite lookup_insert_eq; by intros [= <-]|].
      rewrite lookup_insert_ne by done. intros Hy. eapply (Hfr y); [by right|]. by apply (to_unused _ _ _ Hok).
    + intros y yi. fupd_case y x.
      * rewrite lookup_insert_eq. intros [= <-]. cbn. split; [done|]. eexists. split; [apply lookup_insert_eq|].
        apply chain_insert; [apply HnB|]. by apply (to_blocks _ _ _ Hok).
      * rewrite lookup_insert_ne by done. intros Hy. apply chain_insert; [apply HnB|]. by apply (to_blocks _ _ _ Hok).
    + intros y. fupd_case y x; [by rewrite lookup_insert_eq|]. rewrite lookup_insert_ne by done. apply (to_none _ _ _ Hok).
    + intros y. fupd_case y x; [|apply (to_B_nodup _ _ _ Hok)]. constructor; [apply HnB|apply (to_B_nodup _ _ _ Hok)].
    + intros y z b Hy Hz'. fupd_case y x; fupd_case z x; rewrite ?elem_of_cons in *; [reflexivity|..|exact (to_B_disj _ _ _ Hok y z b Hy Hz')].
      * destruct Hy as [->|Hy]; [by destruct (HnB z)|exact (to_B_disj _ _ _ Hok x z b Hy Hz')].
      * destruct Hz' as [->|Hz']; [by destruct (HnB y)|exact (to_B_disj _ _ _ Hok y x b Hy Hz')].
    + intros b. destruct (decide (b = new)) as [->|Hb].
      * rewrite lookup_insert_eq. split; [intros _|intros _; eexists; reflexivity]. exists x. rewrite fupd_eq. apply elem_of_cons. by left.
      * rewrite lookup_insert_ne by done. rewrite (to_bdom _ _ _ Hok). split; intros (y & Hy); exists y; fupd_case y x; rewrite ?elem_of_cons in *; [right; exact Hy|exact Hy|destruct Hy as [Hy|Hy]; [contradiction|exact Hy]|exact Hy].
    + intros i. destruct (decide (i ∈ block_infos new)) as [Hi|Hi].
      * destruct (Hz i Hi) as (ti & -> & _). split; [intros _|intros _; eexists; reflexivity]. exists x. rewrite fupd_eq, infos_of_cons. apply elem_of_app. by left.
      * rewrite Hs by done. rewrite (to_tdom _ _ _ Hok). split; intros (y & Hy); exists y; fupd_case y x; rewrite ?infos_of_cons, ?elem_of_app in *; [right; exact Hy|exact Hy|destruct Hy as [Hy|Hy]; [contradiction|exact Hy]|exact Hy].
    + intros y. fupd_case y x; [apply block_infos_nodup|apply (to_U_nodup _ _ _ Hok)].
    + intros y z i Hy Hz'. fupd_case y x; fupd_case z x; [reflexivity|..|exact (to_U_disj _ _ _ Hok y z i Hy Hz')].
      * by destruct (Hold z i (or_intror Hz')).
      * by destruct (Hold y i (or_intror Hy)).
    + intros y i. fupd_case y x; [by apply Hz|]. intros Hi. rewrite Hs by eauto. by eapply (to_zero _ _ _ Hok).
    + intros i ti Hti Hi. assert (i ∉ block_infos new) as Hin by (specialize (Hi x); by rewrite fupd_eq in Hi).
      rewrite Hs in Hti by done. apply (to_owned _ _ _ Hok i ti Hti). intros y. specialize (Hi y). fupd_case y x; [rewrite HUx; apply not_elem_of_nil|exact Hi].
    + intros t i Hi. destruct (to_key _ _ _ Hok t i Hi) as [ti Hti]. rewrite Hs; [by rewrite Hti|].
      intros H%block_infos_elem. destruct i as [b o]. cbn in H. subst b. by rewrite HnT in Hti.
  - split; [reflexivity..|]. cbn. intros y. destruct (decide (y = x)) as [->|]; [by rewrite lookup_insert_eq, Hx|by rewrite lookup_insert_ne].
  - intros y. unfold xdata. cbn. destruct (decide (y = x)) as [->|]; [by rewrite lookup_insert_eq, Hx|by rewrite lookup_insert_ne].
  - done.
  - cbn. intros i. destruct (decide (i ∈ block_infos new)) as [Hi|Hi]; [|left; by rewrite Hs].
    right. split; [|by apply Hz]. apply block_infos_elem in Hi. destruct i as [b o]. cbn in Hi. subst b. apply HnT.
Qed.

Lemma upd_t_Some s i f s' : upd_t s i f = Some s' ->
  exists ti, tinfos s !! i = Some ti /\ s' = with_threads s (<[i := f ti]> (tinfos s)) (memblocks s).
Proof. unfold upd_t. destruct (tinfos s !! i) as [ti|]; [|done]. intros [= <-]. by exists ti. Qed.

Lemma upd_x_Some s x f s' : upd_x s x f = Some s' ->
  exists xi, xinfos s !! x = Some xi /\ s' = with_xinfos s (<[x := f xi]> (xinfos s)).
Proof. unfold upd_x. destruct (xinfos s !! x) as [xi|]; [|done]. intros [= <-]. by exists xi. Qed.

(** The owner of a record that is not unused writes to it. *)
Lemma threads_ok_upd_t s B U i f ti :
  threads_ok s B U -> tinfos s !! i = Some ti -> (forall x, i ∉ U x) -> owner (f (td ti)) = owner (td ti) ->
  threads_ok (with_threads s (<[i := set_td (f (td ti)) ti]> (tinfos s)) (memblocks s)) B U.
Proof.
  intros Hok Hi HiU Hf. split; cbn.
  - intros x xi Hx. eapply chain_update; [exact Hi|reflexivity|]. by apply (to_all _ _ _ Hok).
  - intros x xi Hx. eapply chain_update; [exact Hi|reflexivity|]. by apply (to_unused _ _ _ Hok).
  - apply (to_blocks _ _ _ Hok).
  - apply (to_none _ _ _ Hok).
  - apply (to_B_nodup _ _ _ Hok).
  - apply (to_B_disj _ _ _ Hok).
  - apply (to_bdom _ _ _ Hok).
  - intros j. rewrite <- (to_tdom _ _ _ Hok). destruct (decide (j = i)) as [->|]; [rewrite lookup_insert_eq, Hi|by rewrite lookup_insert_ne].
    split; intros _; eauto.
  - apply (to_U_nodup _ _ _ Hok).
  - apply (to_U_disj _ _ _ Hok).
  - intros x j Hj. rewrite lookup_insert_ne; [by eapply (to_zero _ _ _ Hok)|]. intros <-. by destruct (HiU x).
  - intros j tj. destruct (decide (j = i)) as [->|].
    + rewrite lookup_insert_eq. intros [= <-] _. cbn. rewrite Hf. by apply (to_owned _ _ _ Hok).
    + rewrite lookup_insert_ne by done. apply (to_owned _ _ _ Hok).
  - intros t j Hj. destruct (decide (j = i)) as [->|]; [rewrite lookup_insert_eq; eauto|rewrite lookup_insert_ne by done].
    by eapply (to_key _ _ _ Hok).
Qed.

(** A stream gives its first unused record to a thread that has none. *)
Lemma give_thread_info s B U x xi t i U0 :
  threads_ok s B U -> xinfos s !! x = Some xi -> U x = i :: U0 -> t ≠ 0 ->
  (forall j tj, tinfos s !! j = Some tj -> (forall y, j ∉ U y) -> owner (td tj) ≠ t) ->
  exists ti, p_thread_unused xi = Some i /\ tinfos s !! i = Some ti /\
    let s' := with_threads (with_keys (with_xinfos s (<[x := set_unused (p_next_unused ti) xi]> (xinfos s)))
                (<[t := i]> (prof_key s)) (xstream_info_key s))
                (<[i := set_td (set_owner t (td ti)) ti]> (tinfos s)) (memblocks s) in
    threads_ok s' B (fupd U x U0) /\ (forall y, i ∉ fupd U x U0 y).
Proof.
  intros Hok Hx HU Ht Hno. pose proof (to_unused _ _ _ Hok x xi Hx) as Hu. rewrite HU in Hu. cbn [chain] in Hu.
  destruct Hu as (Hp & ti & Hi & Hu). exists ti. split; [exact Hp|]. split; [exact Hi|].
  pose proof (to_U_nodup _ _ _ Hok x) as Hnd. rewrite HU in Hnd. apply NoDup_cons in Hnd as [Hi0 Hnd].
  assert (forall y, i ∉ fupd U x U0 y) as HiU.
  { intros y. fupd_case y x; [exact Hi0|]. intros Hy. assert (y = x) as ->; [|done].
    apply (to_U_disj _ _ _ Hok y x i Hy). rewrite HU. apply elem_of_cons. by left. }
  assert (forall y j, j ∈ fupd U x U0 y -> j ∈ U y) as HUU.
  { intros y j. fupd_case y x; [|done]. rewrite HU. intros Hj. apply elem_of_cons. by right. }
  cbv zeta. split; [|exact HiU]. split; cbn.
  - intros y yi Hy. eapply chain_update; [exact Hi|reflexivity|]. destruct (decide (y = x)) as [->|].
    + rewrite lookup_insert_eq in Hy. injection Hy as <-. exact (to_all _ _ _ Hok x xi Hx).
    + rewrite lookup_insert_ne in Hy by done. by apply (to_all _ _ _ Hok).
  - intros y yi Hy. eapply chain_update; [exact Hi|reflexivity|]. fupd_case y x.
    + rewrite lookup_insert_eq in Hy. injection Hy as <-. exact Hu.
    + rewrite lookup_insert_ne in Hy by done. by apply (to_unused _ _ _ Hok).
  - intros y yi Hy. destruct (decide (y = x)) as [->|].
    + rewrite lookup_insert_eq in Hy. injection Hy as <-. exact (to_blocks _ _ _ Hok x xi Hx).
    + rewrite lookup_insert_ne in Hy by done. by apply (to_blocks _ _ _ Hok).
  - intros y Hy. fupd_case y x; [by rewrite lookup_insert_eq in Hy|]. rewrite lookup_insert_ne in Hy by done. by apply (to_none _ _ _ Hok).
  - apply (to_B_nodup _ _ _ Hok).
  - apply (to_B_disj _ _ _ Hok).
  - apply (to_bdom _ _ _ Hok).
  - intros j. rewrite <- (to_tdom _ _ _ Hok). destruct (decide (j = i)) as [->|]; [rewrite lookup_insert_eq, Hi|by rewrite lookup_insert_ne].
    split; intros _; eauto.
  - intros y. fupd_case y x; [exact Hnd|apply (to_U_nodup _ _ _ Hok)].
  - intros y z j Hy Hz. eapply (to_U_disj _ _ _ Hok); apply HUU; eassumption.
  - intros y j Hj. rewrite lookup_insert_ne; [by eapply (to_zero _ _ _ Hok), HUU|]. intros <-. by destruct (HiU y).
  - intros j tj. destruct (decide (j = i)) as [->|Hji].
    + rewrite lookup_insert_eq. intros [= <-] _. cbn. split; [done|]. intros _. apply lookup_insert_eq.
    + rewrite lookup_insert_ne by done. intros Hj HjU.
      assert (forall y, j ∉ U y) as HjU'.
      { intros y Hy. specialize (HjU y). fupd_case y x; [|done]. rewrite HU in Hy. apply elem_of_cons in Hy as [?|?]; [done|done]. }
      destruct (to_owned _ _ _ Hok j tj Hj HjU') as [Ho Hk]. split; [exact Ho|]. intros Hr.
      rewrite lookup_insert_ne; [by apply Hk|]. intros E. by apply (Hno j tj).
  - intros t' j. destruct (decide (j = i)) as [->|]; [intros _; rewrite lookup_insert_eq; eauto|].
    intros Hj. rewrite lookup_insert_ne by done. destruct (decide (t' = t)) as [->|].
    + rewrite lookup_insert_eq in Hj. congruence.
    + rewrite lookup_insert_ne in Hj by done. by eapply (to_key _ _ _ Hok).
Qed.

(** Quantities that an unused record does not have and that owners do not change. *)
Class Quantity (g : thread_data -> Z) : Prop := {
  q_zero : g zero_thread_data = 0;
  q_owner : forall t v, g (set_owner t v) = g v
}.

#[export] Instance revivals_quantity : Quantity num_revivals.
Proof. by split. Qed.
#[export] Instance yields_quantity : Quantity num_yields.
Proof. by split. Qed.
#[export] Instance suspensions_quantity : Quantity num_suspensions.
Proof. by split. Qed.

Lemma tval_eq g s s' i : tinfos s' !! i = tinfos s !! i -> tval g s' i = tval g s i.
Proof. unfold tval. by intros ->. Qed.

Lemma take_thread_info_spec s B U x t new :
  threads_ok s B U -> is_Some (xinfos s !! x) -> t ≠ 0 -> memblocks s !! new = None ->
  (forall j tj, tinfos s !! j = Some tj -> (forall y, j ∉ U y) -> owner (td tj) ≠ t) ->
  exists i s' B' U', take_thread_info s x t new = Some (i, s') /\ threads_ok s' B' U' /\ stable s s' /\
    (forall y, xdata s' y = xdata s y) /\ (forall y, i ∉ U' y) /\
    (exists ti, tinfos s' !! i = Some ti /\ owner (td ti) = t) /\
    (forall g, Quantity g -> forall j, tval g s' j = tval g s j).
Proof.
  intros Hok [xi Hx] Ht Hnew Hno. unfold take_thread_info. rewrite Hx. cbn [mbind option_bind].
  assert (exists s1 B1 U1 xi1 i U0,
    match p_thread_unused xi with None => ABTXI_prof_xstream_info_alloc_thread_info s x new | Some _ => Some s end = Some s1 /\
    threads_ok s1 B1 U1 /\ stable s s1 /\ (forall y, xdata s1 y = xdata s y) /\ prof_key s1 = prof_key s /\
    xinfos s1 !! x = Some xi1 /\ U1 x = i :: U0 /\
    (forall j tj, tinfos s1 !! j = Some tj -> (forall y, j ∉ U1 y) -> owner (td tj) ≠ t) /\
    (forall g, Quantity g -> forall j, tval g s1 j = tval g s j)) as (s1 & B1 & U1 & xi1 & i & U0 & -> & Hok1 & Hst1 & Hd1 & Hk1 & Hx1 & HU1 & Hno1 & Hq1).
  { pose proof (to_unused _ _ _ Hok x xi Hx) as Hu. destruct (p_thread_unused xi) as [i|].
    - destruct (U x) as [|i' U0] eqn:HU; [done|]. exists s, B, U, xi, i', U0.
      split_and!; [reflexivity|exact Hok|exact (stable_refl s)|reflexivity|reflexivity|exact Hx|exact HU|rewrite <- HU in *; exact Hno|reflexivity].
    - destruct (U x) as [|i' U0] eqn:HU; [|by destruct Hu].
      destruct (alloc_thread_info_spec s B U x xi new Hok Hx HU Hnew) as (s1 & E1 & Hok1 & Hst1 & Hd1 & Hk1 & Ht1).
      assert (is_Some (xinfos s1 !! x)) as [xi1 Hx1] by (apply (stable_dom s s1 x Hst1); eauto).
      destruct (block_infos new) as [|i U0] eqn:Hb; [exfalso; apply (f_equal length) in Hb; rewrite block_infos_length in Hb; discriminate Hb|].
      exists s1, (fupd B x (new :: B x)), (fupd U x (i :: U0)), xi1, i, U0.
      split_and!; [exact E1|exact Hok1|exact Hst1|exact Hd1|exact Hk1|exact Hx1|apply fupd_eq|..].
      + intros j tj Hj HjU. destruct (Ht1 j) as [E|(_ & ti & E & Hz)].
        * apply (Hno j); [by rewrite E|]. intros y Hy. specialize (HjU y). fupd_case y x; [rewrite HU in Hy; exact (not_elem_of_nil _ Hy)|exact (HjU Hy)].
        * rewrite Hj in E. injection E as ->. rewrite Hz. cbn. lia.
      + intros g Hg j. unfold tval. destruct (Ht1 j) as [->|(-> & ti & -> & Hz)]; [reflexivity|]. cbn. by rewrite Hz, (@q_zero g Hg). }
  cbn [mbind option_bind]. rewrite Hx1. cbn [mbind option_bind].
  destruct (give_thread_info s1 B1 U1 x xi1 t i U0 Hok1 Hx1 HU1 Ht Hno1) as (ti & Hp & Hi & Hok2 & HiU). cbv zeta in Hok2.
  rewrite Hp. cbn [mbind option_bind]. rewrite Hi. cbn [mbind option_bind]. unfold upd_x. rewrite Hx1. cbn [mbind option_bind].
  unfold upd_t. cbn [tinfos with_keys with_xinfos]. rewrite Hi. cbn [mbind option_bind].
  eexists i, _, B1, (fupd U1 x U0). split; [reflexivity|]. split; [exact Hok2|]. split.
  { eapply stable_trans; [exact Hst1|]. split; try reflexivity. cbn. intros y.
    destruct (decide (y = x)) as [->|]; [by rewrite lookup_insert_eq, Hx1|by rewrite lookup_insert_ne]. }
  split. { intros y. rewrite <- Hd1. unfold xdata. cbn. destruct (decide (y = x)) as [->|]; [by rewrite lookup_insert_eq, Hx1|by rewrite lookup_insert_ne]. }
  split; [exact HiU|]. split; [eexists; split; [apply lookup_insert_eq|reflexivity]|].
  intros g Hg j. rewrite <- (Hq1 g Hg j). unfold tval. cbn. destruct (decide (j = i)) as [->|]; [|by rewrite lookup_insert_ne].
  rewrite lookup_insert_eq, Hi. cbn. apply (@q_owner g Hg).
Qed.

Lemma get_thread_info_spec s B U x t new :
  threads_ok s B U -> state s = ABTXI_PROF_GLOBAL_STATE_RUNNING -> is_Some (xinfos s !! x) -> t ≠ 0 -> memblocks s !! new = None ->
  exists i s' B' U', ABTXI_prof_get_thread_info s x t new = Some (i, s') /\ threads_ok s' B' U' /\ stable s s' /\
    (forall y, xdata s' y = xdata s y) /\ (forall y, i ∉ U' y) /\
    (exists ti, tinfos s' !! i = Some ti /\ owner (td ti) = t) /\
    (forall g, Quantity g -> forall j, tval g s' j = tval g s j).
Proof.
  intros Hok Hr Hx Ht Hnew. unfold ABTXI_prof_get_thread_info. destruct (prof_key s !! t) as [i|] eqn:Hk.
  - destruct (to_key _ _ _ Hok t i Hk) as [ti Hi]. rewrite Hi. cbn [mbind option_bind]. destruct (Z.eqb_spec (owner (td ti)) t) as [E|E].
    + exists i, s, B, U. split_and!; [reflexivity|exact Hok|exact (stable_refl s)|reflexivity| |by exists ti|reflexivity]. intros y Hy. destruct (to_zero _ _ _ Hok y i Hy) as (ti' & Hi' & Hz).
      rewrite Hi in Hi'. injection Hi' as <-. rewrite Hz in E. cbn in E. lia.
    + apply (take_thread_info_spec s B U); try done. intros j tj Hj HjU E'. destruct (to_owned _ _ _ Hok j tj Hj HjU) as [_ Hkj].
      specialize (Hkj Hr). rewrite E', Hk in Hkj. injection Hkj as ->. congruence.
  - apply (take_thread_info_spec s B U); try done. intros j tj Hj HjU E'. destruct (to_owned _ _ _ Hok j tj Hj HjU) as [_ Hkj].
    specialize (Hkj Hr). rewrite E', Hk in Hkj. done.
Qed.

(** A thread record goes to the unused records of the stream that frees the thread. *)
Lemma release_thread_info_spec s B U x i xi ti freed :
  threads_ok s B U -> xinfos s !! x = Some xi -> tinfos s !! i = Some ti -> (forall y, i ∉ U y) ->
  exists s', ABTXI_prof_release_thread_info s x i freed = Some s' /\ threads_ok s' B (fupd U x (i :: U x)) /\ stable s s' /\
    (forall y, xdata s' y = if decide (y = x) then Some (ABTXI_prof_merge_thread_data (xd xi) (td ti) freed) else xdata s y) /\
    (forall g, Quantity g -> forall j, tval g s' j = if decide (j = i) then 0 else tval g s j).
Proof.
  intros Hok Hx Hi HiU. unfold ABTXI_prof_release_thread_info. rewrite Hi. cbn [mbind option_bind]. rewrite Hx. cbn [mbind option_bind].
  unfold upd_x, upd_t. rewrite Hx. cbn [mbind option_bind tinfos with_xinfos]. rewrite Hi.
  cbn [mbind option_bind xinfos with_xinfos with_threads]. rewrite lookup_insert_eq. cbn [mbind option_bind]. rewrite insert_insert_eq.
  eexists. split; [reflexivity|]. split; [|split; [|split]].
  - split; cbn.
    + intros y yi Hy. eapply chain_update; [exact Hi|reflexivity|]. destruct (decide (y = x)) as [->|].
      * rewrite lookup_insert_eq in Hy. injection Hy as <-. exact (to_all _ _ _ Hok x xi Hx).
      * rewrite lookup_insert_ne in Hy by done. by apply (to_all _ _ _ Hok).
    + intros y yi Hy. fupd_case y x.
      * rewrite lookup_insert_eq in Hy. injection Hy as <-. cbn. split; [reflexivity|]. eexists. split; [apply lookup_insert_eq|].
        cbn. apply chain_insert; [apply HiU|]. exact (to_unused _ _ _ Hok x xi Hx).
      * rewrite lookup_insert_ne in Hy by done. apply chain_insert; [apply HiU|]. by apply (to_unused _ _ _ Hok).
    + intros y yi Hy. destruct (decide (y = x)) as [->|].
      * rewrite lookup_insert_eq in Hy. injection Hy as <-. exact (to_blocks _ _ _ Hok x xi Hx).
      * rewrite lookup_insert_ne in Hy by done. by apply (to_blocks _ _ _ Hok).
    + intros y Hy. fupd_case y x; [by rewrite lookup_insert_eq in Hy|]. rewrite lookup_insert_ne in Hy by done. by apply (to_none _ _ _ Hok).
    + apply (to_B_nodup _ _ _ Hok).
    + apply (to_B_disj _ _ _ Hok).
    + apply (to_bdom _ _ _ Hok).
    + intros j. rewrite <- (to_tdom _ _ _ Hok). destruct (decide (j = i)) as [->|]; [rewrite lookup_insert_eq, Hi|by rewrite lookup_insert_ne].
      split; intros _; eauto.
    + intros y. fupd_case y x; [constructor; [apply HiU|]|]; apply (to_U_nodup _ _ _ Hok).
    + intros y z j Hy Hz. fupd_case y x; fupd_case z x; rewrite ?elem_of_cons in *; [reflexivity|..|exact (to_U_disj _ _ _ Hok y z j Hy Hz)].
      * destruct Hy as [->|Hy]; [by destruct (HiU z)|exact (to_U_disj _ _ _ Hok x z j Hy Hz)].
      * destruct Hz as [->|Hz]; [by destruct (HiU y)|exact (to_U_disj _ _ _ Hok y x j Hy Hz)].
    + intros y j Hj. destruct (decide (j = i)) as [->|]; [rewrite lookup_insert_eq; eexists; split; reflexivity|].
      rewrite lookup_insert_ne by done. fupd_case y x; [apply elem_of_cons in Hj as [?|Hj]; [done|]|]; by eapply (to_zero _ _ _ Hok).
    + intros j tj Hj HjU. destruct (decide (j = i)) as [->|].
      * destruct (HjU x). rewrite fupd_eq. apply elem_of_cons. by left.
      * rewrite lookup_insert_ne in Hj by done. apply (to_owned _ _ _ Hok j tj Hj). intros y Hy. apply (HjU y). fupd_case y x; [|exact Hy].
        apply elem_of_cons. by right.
    + intros t j Hj. destruct (decide (j = i)) as [->|]; [rewrite lookup_insert_eq; eauto|rewrite lookup_insert_ne by done].
      by eapply (to_key _ _ _ Hok).
  - split; try reflexivity. cbn. intros y. destruct (decide (y = x)) as [->|]; [by rewrite lookup_insert_eq, Hx|by rewrite lookup_insert_ne].
  - intros y. unfold xdata. cbn. destruct (decide (y = x)) as [->|]; [by rewrite lookup_insert_eq|by rewrite lookup_insert_ne].
  - intros g Hg j. unfold tval. cbn. destruct (decide (j = i)) as [->|]; [|by rewrite lookup_insert_ne].
    rewrite lookup_insert_eq. cbn. apply (@q_zero g Hg).
Qed.

(** ** Resetting *)

Lemma reset_threads_spec l : forall fuel ts p, chain ts p_next_all p l -> (length l <= fuel)%nat ->
  exists ts', reset_threads fuel ts p = Some ts' /\
    (forall i, ts' !! i = if decide (i ∈ l) then ABTXI_prof_reset_thread_info <$> ts !! i else ts !! i).
Proof.
  induction l as [|i l IH]; intros fuel ts p Hc Hf.
  { cbn in Hc. subst p. exists ts. split; [by destruct fuel|]. intros i. by rewrite decide_False by apply not_elem_of_nil. }
  destruct Hc as (-> & ti & Hi & Hc). destruct fuel as [|fuel]; [cbn in Hf; lia|]. cbn [reset_threads]. rewrite Hi. cbn [mbind option_bind].
  destruct (IH fuel (<[i := ABTXI_prof_reset_thread_info ti]> ts) (p_next_all ti)) as (ts' & -> & Hs).
  { by eapply chain_update. } { cbn in Hf. lia. }
  exists ts'. split; [reflexivity|]. intros j. rewrite Hs. destruct (decide (j = i)) as [->|Hj].
  - rewrite lookup_insert_eq, Hi, (decide_True (P := i ∈ i :: l)) by (apply elem_of_cons; by left). by destruct (decide _).
  - rewrite lookup_insert_ne by done. destruct (decide (j ∈ l)) as [Hl|Hl].
    + by rewrite decide_True by (apply elem_of_cons; by right).
    + by rewrite decide_False by (intros [?|?]%elem_of_cons; done).
Qed.

Definition reset_x (xi : xstream_info) : xstream_info := set_unused (p_thread_all xi) (set_xd zero_xstream_data xi).

(** All the streams of a list are reset, whatever their unused records are. *)
Lemma reset_all_spec B xs : forall fuel s p,
  chain (xinfos s) p_next p xs -> NoDup xs -> (length xs <= fuel)%nat ->
  (forall x, NoDup (infos_of (B x))) ->
  (forall x xi, xinfos s !! x = Some xi -> chain (tinfos s) p_next_all (p_thread_all xi) (infos_of (B x))) ->
  exists ts xf, reset_all fuel s p = Some (with_xinfos (with_threads s ts (memblocks s)) xf) /\
    (forall y, xf !! y = if decide (y ∈ xs) then reset_x <$> xinfos s !! y else xinfos s !! y) /\
    (forall i, ts !! i = if decide (i ∈ xs ≫= (fun x => infos_of (B x))) then ABTXI_prof_reset_thread_info <$> tinfos s !! i else tinfos s !! i).
Proof.
  induction xs as [|x xs IH]; intros fuel s p Hc Hnd Hf HB Ha.
  { cbn in Hc. subst p. exists (tinfos s), (xinfos s). split; [by destruct fuel, s|].
    split; intros; by rewrite decide_False by apply not_elem_of_nil. }
  destruct Hc as (-> & xi & Hx & Hc). apply NoDup_cons in Hnd as [Hx0 Hnd]. destruct fuel as [|fuel]; [cbn in Hf; lia|].
  cbn [reset_all]. rewrite Hx. cbn [mbind option_bind]. unfold ABTXI_prof_reset_xstream_info. rewrite Hx. cbn [mbind option_bind].
  destruct (reset_threads_spec (infos_of (B x)) (size (tinfos s)) (tinfos s) (p_thread_all xi) (Ha x xi Hx)) as (ts1 & -> & Hts1).
  { eapply chain_length_size; [exact (Ha x xi Hx)|apply HB]. }
  cbn [mbind option_bind]. unfold upd_x. cbn [xinfos with_threads]. rewrite Hx. cbn [mbind option_bind]. fold (reset_x xi).
  destruct (IH fuel (with_xinfos (with_threads s ts1 (memblocks s)) (<[x := reset_x xi]> (xinfos s))) (p_next xi)) as (ts & xf & -> & Hxf & Hts);
    [|done|cbn in Hf; lia|exact HB| |].
  { cbn. by apply chain_insert. }
  { cbn. intros y yi Hy. eapply chain_frame.
    - intros i _. rewrite Hts1. destruct (decide _); [|reflexivity]. by destruct (tinfos s !! i).
    - destruct (decide (y = x)) as [->|]; [rewrite lookup_insert_eq in Hy; injection Hy as <-; exact (Ha x xi Hx)|].
      rewrite lookup_insert_ne in Hy by done. exact (Ha y yi Hy). }
  exists ts, xf. split; [reflexivity|]. split.
  - intros y. rewrite Hxf. cbn. destruct (decide (y = x)) as [->|Hy].
    + rewrite lookup_insert_eq, Hx, decide_False by done. by rewrite decide_True by (apply elem_of_cons; by left).
    + rewrite lookup_insert_ne by done. destruct (decide (y ∈ xs)) as [Hys|Hys].
      * by rewrite decide_True by (apply elem_of_cons; by right).
      * by rewrite decide_False by (intros [?|?]%elem_of_cons; done).
  - intros i. rewrite Hts. cbn [tinfos with_xinfos with_threads]. rewrite Hts1, bind_cons.
    destruct (decide (i ∈ infos_of (B x))) as [Hi|Hi], (decide (i ∈ xs ≫= _)) as [Hi'|Hi'], (decide (i ∈ _ ++ _)) as [Ha'|Ha'];
      rewrite elem_of_app in Ha'; try tauto; by destruct (tinfos s !! i).
Qed.

(** Once all streams are reset every record is unused, in the stream of its block. *)
Lemma reset_threads_ok s B U xs st m t0 t1 :
  threads_ok s B U -> chain (xinfos s) p_next (p_xstream_info_head s) xs -> NoDup xs -> (forall x, is_Some (xinfos s !! x) <-> x ∈ xs) ->
  exists s', reset_all (size (xinfos s)) s (p_xstream_info_head s) = Some s' /\
    threads_ok (with_run s' st m t0 t1) B (fun x => infos_of (B x)) /\ stable s s' /\
    (forall y, xdata s' y = (fun _ => zero_xstream_data) <$> xdata s y) /\
    (forall i ti, tinfos s' !! i = Some ti -> td ti = zero_thread_data).
Proof.
  intros Hok Hc Hnd Hdom.
  destruct (reset_all_spec B xs (size (xinfos s)) s (p_xstream_info_head s) Hc Hnd) as (ts & xf & E & Hxf & Hts);
    [by eapply chain_length_size|intros x; apply infos_of_nodup, (to_B_nodup _ _ _ Hok)|exact (to_all _ _ _ Hok)|].
  assert (forall i, ts !! i = ABTXI_prof_reset_thread_info <$> tinfos s !! i) as Hts'.
  { intros i. rewrite Hts. destruct (decide _) as [|Hi]; [reflexivity|]. destruct (tinfos s !! i) as [ti|] eqn:Hti; [|reflexivity].
    destruct Hi. destruct (proj1 (to_tdom _ _ _ Hok i)) as [x Hx]; [eauto|]. apply list_elem_of_bind. exists x. split; [exact Hx|].
    apply Hdom. destruct (xinfos s !! x) eqn:Hx'; [eauto|]. destruct (to_none _ _ _ Hok x Hx') as [HB _]. apply infos_of_elem in Hx. rewrite HB in Hx. by apply not_elem_of_nil in Hx. }
  assert (forall y, xf !! y = reset_x <$> xinfos s !! y) as Hxf'.
  { intros y. rewrite Hxf. destruct (decide _) as [|Hy]; [reflexivity|]. destruct (xinfos s !! y) eqn:Hy'; [|reflexivity].
    destruct Hy. apply Hdom. by rewrite Hy'. }
  eexists. split; [exact E|]. split; [|split; [|split]].
  - split; cbn.
    + intros x xi. rewrite Hxf'. destruct (xinfos s !! x) as [xi0|] eqn:Hx; [|done]. intros [= <-]. eapply chain_frame; [|exact (to_all _ _ _ Hok x xi0 Hx)].
      intros i _. rewrite Hts'. by destruct (tinfos s !! i).
    + intros x xi. rewrite Hxf'. destruct (xinfos s !! x) as [xi0|] eqn:Hx; [|done]. intros [= <-]. cbn.
      pose proof (to_all _ _ _ Hok x xi0 Hx) as Ha. revert Ha. generalize (p_thread_all xi0). generalize (infos_of (B x)). intros l.
      induction l as [|i l IH]; intros p; [done|]. cbn [chain]. intros (-> & v & Hv & Hl). split; [done|]. rewrite Hts', Hv. eexists. split; [reflexivity|]. by apply IH.
    + intros x xi. rewrite Hxf'. destruct (xinfos s !! x) as [xi0|] eqn:Hx; [|done]. intros [= <-]. exact (to_blocks _ _ _ Hok x xi0 Hx).
    + intros x. rewrite Hxf'. destruct (xinfos s !! x) as [xi0|] eqn:Hx; [done|]. intros _. destruct (to_none _ _ _ Hok x Hx) as [-> _]. done.
    + apply (to_B_nodup _ _ _ Hok).
    + apply (to_B_disj _ _ _ Hok).
    + apply (to_bdom _ _ _ Hok).
    + intros i. rewrite Hts', fmap_is_Some. apply (to_tdom _ _ _ Hok).
    + intros x. apply infos_of_nodup, (to_B_nodup _ _ _ Hok).
    + intros x y i Hx%infos_of_elem Hy%infos_of_elem. exact (to_B_disj _ _ _ Hok x y _ Hx Hy).
    + intros x i Hi. rewrite Hts'. destruct (proj2 (to_tdom _ _ _ Hok i)) as [ti ->]; [eauto|]. eexists. split; reflexivity.
    + intros i ti Hi HiU. rewrite Hts' in Hi. destruct (proj1 (to_tdom _ _ _ Hok i)) as [x Hx]; [destruct (tinfos s !! i); [eauto|done]|]. by destruct (HiU x).
    + intros t i Hi. rewrite Hts', fmap_is_Some. exact (to_key _ _ _ Hok t i Hi).
  - split; try reflexivity. cbn. intros y. rewrite Hxf'. by destruct (xinfos s !! y).
  - intros y. unfold xdata. cbn. rewrite Hxf'. by destruct (xinfos s !! y).
  - cbn. intros i ti. rewrite Hts'. destruct (tinfos s !! i); [|done]. by intros [= <-].
Qed.

(** ** The records of streams *)

(** The array that [p_xstreams] points to. *)
Definition table (s : prof) : list (option positive) :=
  match p_xstreams s with None => [] | Some a => from_option snd [] (arrays s !! a) end.

(** [xs] are the records of streams in the order of their list. *)
Record registry (s : prof) (xs : list positive) : Prop := {
  rg_list : chain (xinfos s) p_next (p_xstream_info_head s) xs;
  rg_nodup : NoDup xs;
  rg_dom : forall x, is_Some (xinfos s !! x) <-> x ∈ xs;
  rg_len : Z.of_nat (length (table s)) = len_p_xstreams s;
  rg_tab : forall a, p_xstreams s = Some a -> is_Some (arrays s !! a);
  rg_ranked : forall n x, table s !! n = Some (Some x) -> exists xi, xinfos s !! x = Some xi /\ rank xi = Z.of_nat n;
  rg_rank : forall x xi, xinfos s !! x = Some xi -> rank xi = -1 \/ exists n, rank xi = Z.of_nat n /\ table s !! n = Some (Some x);
  rg_mem : exists ms, chain (arrays s) fst (mem_p_xstreams s) ms /\ NoDup ms /\ forall a, is_Some (arrays s !! a) <-> a ∈ ms;
  rg_key : forall t x, xstream_info_key s !! t = Some x -> exists xi, xinfos s !! x = Some xi /\ rank xi = -1
}.

Lemma registry_stable s s' xs : stable s s' -> registry s xs -> registry s' xs.
Proof.
  intros Hs [].
  assert (table s' = table s) as Ht by (unfold table; by rewrite (st_tab _ _ Hs), (st_arrays _ _ Hs)).
  assert (forall x xi, xinfos s !! x = Some xi -> exists xi', xinfos s' !! x = Some xi' /\ rank xi' = rank xi) as Hx.
  { intros x xi H. pose proof (st_xinfos _ _ Hs x) as E. rewrite H in E. destruct (xinfos s' !! x) as [xi'|]; [|done].
    injection E as E _. by exists xi'. }
  split.
  - rewrite (st_head _ _ Hs). eapply chain_frame; [|exact rg_list0]. intros k _. pose proof (st_xinfos _ _ Hs k) as E.
    destruct (xinfos s' !! k), (xinfos s !! k); try done. injection E as _ E. cbn. by rewrite E.
  - exact rg_nodup0.
  - intros x. rewrite (stable_dom _ _ _ Hs). apply rg_dom0.
  - by rewrite Ht, (st_len _ _ Hs).
  - intros a. rewrite (st_tab _ _ Hs), (st_arrays _ _ Hs). apply rg_tab0.
  - intros n x. rewrite Ht. intros (xi & H & E)%rg_ranked0. destruct (Hx x xi H) as (xi' & H' & E'). exists xi'. by rewrite E'.
  - intros x xi H. pose proof (st_xinfos _ _ Hs x) as E. rewrite H in E. destruct (xinfos s !! x) as [xi0|] eqn:H0; [|done].
    injection E as -> _. rewrite Ht. by apply (rg_rank0 x xi0).
  - rewrite (st_arrays _ _ Hs), (st_mem _ _ Hs). exact rg_mem0.
  - intros t x. rewrite (st_xkey _ _ Hs). intros (xi & H & E)%rg_key0. destruct (Hx x xi H) as (xi' & H' & E'). exists xi'. by rewrite E'.
Qed.

(** A new record of a stream, at the head of the list. *)
Definition linked (s : prof) (x : positive) (r : Z) : prof :=
  with_head (with_xinfos s (<[x := set_xnext (p_xstream_info_head s) (ABTXI_prof_init_xstream_info r)]> (xinfos s))) (Some x).

Lemma link_xstream_info_eq s x r : link_xstream_info s x r = Some (linked s x r).
Proof.
  unfold link_xstream_info, upd_x. cbn [xinfos with_xinfos]. rewrite lookup_insert_eq. cbn [mbind option_bind p_xstream_info_head with_xinfos].
  unfold linked, with_head, with_xinfos. cbn. by rewrite insert_insert_eq.
Qed.

Lemma linked_list s xs x r : registry s xs -> xinfos s !! x = None ->
  chain (xinfos (linked s x r)) p_next (Some x) (x :: xs) /\ NoDup (x :: xs) /\ (forall y, is_Some (xinfos (linked s x r) !! y) <-> y ∈ x :: xs).
Proof.
  intros Hr Hx. assert (x ∉ xs) as Hxs. { intros [xi H]%(rg_dom _ _ Hr). congruence. }
  split; [|split].
  - split; [reflexivity|]. cbn. eexists. split; [apply lookup_insert_eq|]. cbn. apply chain_insert; [exact Hxs|exact (rg_list _ _ Hr)].
  - constructor; [exact Hxs|exact (rg_nodup _ _ Hr)].
  - intros y. cbn. rewrite elem_of_cons, <- (rg_dom _ _ Hr). destruct (decide (y = x)) as [->|Hy].
    + rewrite lookup_insert_eq. split; [by left|eauto].
    + rewrite lookup_insert_ne by done. split; [by right|]. by intros [?|?].
Qed.

Lemma threads_ok_linked s B U x r : threads_ok s B U -> xinfos s !! x = None -> threads_ok (linked s x r) B U.
Proof.
  intros Hok Hx. destruct (to_none _ _ _ Hok x Hx) as [HB HU]. split; cbn; try apply Hok.
  - intros y yi Hy. destruct (decide (y = x)) as [->|]; [|rewrite lookup_insert_ne in Hy by done; by apply (to_all _ _ _ Hok)].
    rewrite lookup_insert_eq in Hy. injection Hy as <-. rewrite HB. reflexivity.
  - intros y yi Hy. destruct (decide (y = x)) as [->|]; [|rewrite lookup_insert_ne in Hy by done; by apply (to_unused _ _ _ Hok)].
    rewrite lookup_insert_eq in Hy. injection Hy as <-. rewrite HU. reflexivity.
  - intros y yi Hy. destruct (decide (y = x)) as [->|]; [|rewrite lookup_insert_ne in Hy by done; by apply (to_blocks _ _ _ Hok)].
    rewrite lookup_insert_eq in Hy. injection Hy as <-. rewrite HB. reflexivity.
  - intros y Hy. destruct (decide (y = x)) as [->|]; [by rewrite lookup_insert_eq in Hy|rewrite lookup_insert_ne in Hy by done]. by apply (to_none _ _ _ Hok).
Qed.

Definition rank_of (c : caller) : Z := match c with ES _ r => r | External _ => -1 end.

(** The extension of the table makes room for the rank of the stream; it doubles the
    table once at most. *)
Definition room (s : prof) : Z := Z.max (len_p_xstreams s) (Z.max ABTXI_PROF_DEFAULT_NUM_XSTREAMS (len_p_xstreams s * 2)).
Definition fits (s : prof) (c : caller) : Prop :=
  match c with ES _ r => 0 <= r < room s /\ len_p_xstreams s <= 2 ^ 29 | External _ => True end.

Lemma extend_xstreams_spec s xs a :
  registry s xs -> arrays s !! a = None -> len_p_xstreams s <= 2 ^ 29 ->
  exists s', extend_xstreams s a = Some s' /\ registry s' xs /\
    s' = with_table s (Z.max ABTXI_PROF_DEFAULT_NUM_XSTREAMS (len_p_xstreams s * 2)) (Some a) (Some a) (arrays s') /\
    (exists k, table s' = table s ++ replicate k None).
Proof.
  intros Hr Ha Hl. unfold extend_xstreams. pose proof (rg_len _ _ Hr) as Hlen.
  rewrite i32_id by (unfold ABTXI_PROF_DEFAULT_NUM_XSTREAMS; lia). set (n := Z.max _ _).
  assert (match p_xstreams s with None => Some [] | Some a => '(_, l) ← arrays s !! a; Some l end = Some (table s)) as ->.
  { unfold table. destruct (p_xstreams s) as [a'|] eqn:Hp; [|reflexivity]. destruct (rg_tab _ _ Hr a' Hp) as [[nx l] ->]. reflexivity. }
  cbn [mbind option_bind]. set (k := Z.to_nat _). eexists. split; [reflexivity|].
  assert (table (with_table s n (Some a) (Some a) (<[a := (mem_p_xstreams s, table s ++ replicate k None)]> (arrays s))) = table s ++ replicate k None) as Ht.
  { unfold table at 1. cbn. rewrite lookup_insert_eq. reflexivity. }
  split; [|split; [reflexivity|exists k; exact Ht]]. split.
  - exact (rg_list _ _ Hr).
  - exact (rg_nodup _ _ Hr).
  - exact (rg_dom _ _ Hr).
  - rewrite Ht, length_app, length_replicate. cbn [len_p_xstreams with_table]. subst k n. unfold ABTXI_PROF_DEFAULT_NUM_XSTREAMS. lia.
  - intros a' [= <-]. cbn. rewrite lookup_insert_eq. eauto.
  - rewrite Ht. intros m x [Hm|(_ & Hm)]%lookup_app_Some; [exact (rg_ranked _ _ Hr m x Hm)|].
    by apply lookup_replicate in Hm as [? _].
  - rewrite Ht. intros x xi Hx. destruct (rg_rank _ _ Hr x xi Hx) as [?|(m & ? & Hm)]; [by left|]. right. exists m. split; [done|].
    by apply lookup_app_l_Some.
  - destruct (rg_mem _ _ Hr) as (ms & Hc & Hnd & Hms). assert (a ∉ ms) as Ham. { intros [v Hv]%Hms. congruence. }
    exists (a :: ms). split_and!.
    + split; [reflexivity|]. cbn. eexists. split; [apply lookup_insert_eq|]. cbn. by apply chain_insert.
    + by constructor.
    + intros y. cbn. rewrite elem_of_cons, <- Hms. destruct (decide (y = a)) as [->|Hy].
      * rewrite lookup_insert_eq. split; [by left|eauto].
      * rewrite lookup_insert_ne by done. split; [by right|]. by intros [?|?].
  - exact (rg_key _ _ Hr).
Qed.

(** What finding the record of the caller does not change. *)
Record same_threads (s s' : prof) : Prop := {
  sm_state : state s' = state s; sm_mode : prof_mode s' = prof_mode s; sm_start : start_prof_time s' = start_prof_time s;
  sm_stop : stop_prof_time s' = stop_prof_time s; sm_key : prof_key s' = prof_key s;
  sm_tinfos : tinfos s' = tinfos s; sm_blocks : memblocks s' = memblocks s
}.

(** What finding the record of a caller ensures: a record of its rank, and no other
    record changed. *)
Definition found (s : prof) (c : caller) (x : positive) (s' : prof) : Prop :=
  (exists xi, xinfos s' !! x = Some xi /\ rank xi = rank_of c) /\
  forall y, xinfos s' !! y = xinfos s !! y \/
            y = x /\ xinfos s !! y = None /\ exists p, xinfos s' !! y = Some (set_xnext p (ABTXI_prof_init_xstream_info (rank_of c))).

Lemma found_linked s0 s c x r : xinfos s = xinfos s0 -> rank_of c = r -> xinfos s0 !! x = None -> found s0 c x (linked s x r).
Proof.
  intros E <- Hx. split; [eexists; split; [apply lookup_insert_eq|reflexivity]|]. intros y. cbn. destruct (decide (y = x)) as [->|].
  - right. split; [reflexivity|]. split; [exact Hx|]. rewrite lookup_insert_eq. eexists. reflexivity.
  - left. rewrite lookup_insert_ne by done. by rewrite E.
Qed.

(** The table has room for the rank, after its extension if needed. *)
Lemma make_room_spec s xs B U r a : registry s xs -> threads_ok s B U -> arrays s !! a = None -> 0 <= r < room s -> len_p_xstreams s <= 2 ^ 29 ->
  exists s1, (if len_p_xstreams s <=? r then extend_xstreams s a else Some s) = Some s1 /\ registry s1 xs /\
    r < len_p_xstreams s1 /\ xinfos s1 = xinfos s /\ same_threads s s1 /\ threads_ok s1 B U.
Proof.
  intros Hr Hok Ha Hfit Hl. destruct (Z.leb_spec (len_p_xstreams s) r).
  - destruct (extend_xstreams_spec s xs a Hr Ha Hl) as (s1 & -> & Hr1 & E & _). exists s1. split; [done|]. split; [exact Hr1|].
    split; [rewrite E; cbn; unfold room in Hfit; lia|]. rewrite E. split; [reflexivity|]. split; [by split|]. destruct Hok. by split.
  - exists s. by split_and!.
Qed.

(** A new record in the empty slot of its rank. *)
Definition slotted (s : prof) (a : positive) (nx : option positive) (l : list (option positive)) (x : positive) (r : Z) : prof :=
  let s := linked s x r in
  with_table s (len_p_xstreams s) (p_xstreams s) (mem_p_xstreams s) (<[a := (nx, <[Z.to_nat r := Some x]> l)]> (arrays s)).

Lemma registry_slotted s xs a nx l x r : registry s xs -> xinfos s !! x = None -> p_xstreams s = Some a -> arrays s !! a = Some (nx, l) ->
  0 <= r -> l !! Z.to_nat r = Some None -> registry (slotted s a nx l x r) (x :: xs).
Proof.
  intros Hr Hx Hp Hal Hr0 He. destruct (linked_list s xs x r Hr Hx) as (Hl1 & Hnd1 & Hdom1).
  assert (table s = l) as Htl by (unfold table; by rewrite Hp, Hal).
  assert (table (slotted s a nx l x r) = <[Z.to_nat r := Some x]> l) as Ht2.
  { unfold table, slotted. cbn. rewrite Hp, lookup_insert_eq. reflexivity. }
  split; [exact Hl1|exact Hnd1|exact Hdom1|..].
  - rewrite Ht2, length_insert, <- Htl. exact (rg_len _ _ Hr).
  - intros a' H. cbn in H. rewrite Hp in H. injection H as <-. cbn. rewrite lookup_insert_eq. eauto.
  - rewrite Ht2. intros n y Hn. destruct (decide (n = Z.to_nat r)) as [->|Hnr].
    + rewrite list_lookup_insert_eq in Hn by (apply lookup_lt_Some in He; exact He). injection Hn as <-. cbn. rewrite lookup_insert_eq.
      eexists. split; [reflexivity|]. cbn. lia.
    + rewrite list_lookup_insert_ne in Hn by done. rewrite <- Htl in Hn. destruct (rg_ranked _ _ Hr _ _ Hn) as (xi & Hxi & E).
      exists xi. split; [|exact E]. cbn. rewrite lookup_insert_ne; [exact Hxi|]. intros ->. congruence.
  - rewrite Ht2. cbn. intros y xi Hxi. destruct (decide (y = x)) as [->|Hne].
    + rewrite lookup_insert_eq in Hxi. injection Hxi as <-. right. exists (Z.to_nat r). cbn. split; [lia|].
      apply list_lookup_insert_eq. by apply lookup_lt_Some in He.
    + rewrite lookup_insert_ne in Hxi by done. destruct (rg_rank _ _ Hr y xi Hxi) as [?|(n & E & Hn)]; [by left|]. right. exists n.
      split; [exact E|]. rewrite Htl in Hn. rewrite list_lookup_insert_ne; [exact Hn|]. intros <-. congruence.
  - destruct (rg_mem _ _ Hr) as (ms & Hc & Hnd & Hms). exists ms. split_and!; [|exact Hnd|].
    + cbn. eapply chain_update; [exact Hal|reflexivity|exact Hc].
    + intros a'. cbn. rewrite <- Hms. destruct (decide (a' = a)) as [->|]; [rewrite lookup_insert_eq, Hal|by rewrite lookup_insert_ne].
      split; intros _; eauto.
  - cbn. intros t y Hk. destruct (rg_key _ _ Hr t y Hk) as (xi & Hxi & E). exists xi. split; [|exact E].
    rewrite lookup_insert_ne; [exact Hxi|]. intros ->. congruence.
Qed.

(** A new record under the key of a thread outside of Argobots. *)
Lemma registry_keyed s xs x self : registry s xs -> xinfos s !! x = None ->
  registry (linked (with_keys s (prof_key s) (<[self := x]> (xstream_info_key s))) x (-1)) (x :: xs).
Proof.
  intros Hr Hx. destruct (linked_list s xs x (-1) Hr Hx) as (Hl1 & Hnd1 & Hdom1). split; [exact Hl1|exact Hnd1|exact Hdom1|..].
  - exact (rg_len _ _ Hr).
  - exact (rg_tab _ _ Hr).
  - intros n y Hn. destruct (rg_ranked _ _ Hr n y Hn) as (xi & Hxi & E). exists xi. split; [|exact E]. cbn.
    rewrite lookup_insert_ne; [exact Hxi|]. intros ->. congruence.
  - cbn. intros y xi Hxi. destruct (decide (y = x)) as [->|Hne]; [rewrite lookup_insert_eq in Hxi; injection Hxi as <-; by left|].
    rewrite lookup_insert_ne in Hxi by done. exact (rg_rank _ _ Hr y xi Hxi).
  - exact (rg_mem _ _ Hr).
  - cbn. intros t y Hkx. destruct (decide (t = self)) as [->|].
    + rewrite lookup_insert_eq in Hkx. injection Hkx as <-. rewrite lookup_insert_eq. eexists. split; reflexivity.
    + rewrite lookup_insert_ne in Hkx by done. destruct (rg_key _ _ Hr t y Hkx) as (xi & Hxi & E). exists xi. split; [|exact E].
      rewrite lookup_insert_ne; [exact Hxi|]. intros ->. congruence.
Qed.

Lemma get_xstream_info_spec s xs B U c new_x new_a :
  registry s xs -> threads_ok s B U -> xinfos s !! new_x = None -> arrays s !! new_a = None -> fits s c ->
  exists x s' xs', ABTXI_prof_get_xstream_info s c new_x new_a = Some (x, s') /\ registry s' xs' /\ threads_ok s' B U /\
    same_threads s s' /\ found s c x s'.
Proof.
  intros Hr Hok Hx Ha Hfit. destruct c as [h r|self]; cbn [ABTXI_prof_get_xstream_info].
  - destruct Hfit as [Hfit Hl]. destruct (make_room_spec s xs B U r new_a Hr Hok Ha Hfit Hl) as (s1 & -> & Hr1 & Hr1l & Hx1 & Hsm & Hok1).
    cbn [mbind option_bind]. pose proof (rg_len _ _ Hr1) as Hlen. unfold table in Hlen.
    destruct (p_xstreams s1) as [a|] eqn:Hp; [|cbn in Hlen; lia]. cbn [mbind option_bind].
    destruct (rg_tab _ _ Hr1 a Hp) as [[nx l] Hal]. rewrite Hal in Hlen. cbn in Hlen. rewrite Hal. cbn [mbind option_bind].
    destruct (l !! Z.to_nat r) as [e|] eqn:He; [|apply lookup_ge_None in He; lia]. cbn [mbind option_bind]. destruct e as [x|].
    + exists x, s1, xs. split; [reflexivity|]. split; [exact Hr1|]. split; [exact Hok1|]. split; [exact Hsm|].
      assert (table s1 !! Z.to_nat r = Some (Some x)) as Ht by (unfold table; by rewrite Hp, Hal).
      destruct (rg_ranked _ _ Hr1 _ _ Ht) as (xi & Hxi & Er). split; [exists xi; split; [exact Hxi|cbn; lia]|].
      intros y. left. by rewrite Hx1.
    + rewrite link_xstream_info_eq. cbn [mbind option_bind]. assert (xinfos s1 !! new_x = None) as Hx1n by (by rewrite Hx1).
      exists new_x, (slotted s1 a nx l new_x r), (new_x :: xs). split; [reflexivity|].
      split; [apply registry_slotted; [exact Hr1|exact Hx1n|exact Hp|exact Hal|apply Hfit|exact He]|].
      split; [destruct (threads_ok_linked s1 B U new_x r Hok1 Hx1n); by split|]. split; [destruct Hsm; by split|].
      by apply (found_linked s s1).
  - destruct (xstream_info_key s !! self) as [x|] eqn:Hk.
    + exists x, s, xs. split; [reflexivity|]. split; [exact Hr|]. split; [exact Hok|]. split; [by split|].
      split; [exact (rg_key _ _ Hr self x Hk)|]. intros y. by left.
    + rewrite link_xstream_info_eq. cbn [mbind option_bind]. eexists new_x, _, (new_x :: xs). split; [reflexivity|].
      split; [by apply registry_keyed|]. split; [destruct (threads_ok_linked s B U new_x (-1) Hok Hx); by split|]. split; [by split|].
      by apply found_linked.
Qed.

(** ** The data of streams *)

Record data_ok (v : xstream_data) : Prop := {
  do_events : length (num_events v) = ABTXI_PROF_EVENT_END_;
  do_last : length (times_last_run v) = Z.to_nat ABTXI_PROF_MAX_DEPTH;
  do_elapsed : length (times_elapsed v) = Z.to_nat ABTXI_PROF_MAX_DEPTH;
  do_times : length (wu_times v) = WU_TIME_END_;
  do_counts : length (wu_counts v) = WU_COUNT_END_;
  do_depth : 0 <= cur_depth v < 2 ^ 31
}.

Lemma data_ok_zero : data_ok zero_xstream_data.
Proof. split; try reflexivity. cbn. lia. Qed.

Lemma get_at_Some l i : 0 <= i < Z.of_nat (length l) -> exists v, get_at l i = Some v.
Proof.
  intros Hi. unfold get_at. rewrite (proj2 (Z.ltb_ge i 0)) by lia. apply lookup_lt_is_Some. lia.
Qed.

Lemma set_at_Some l i v : 0 <= i < Z.of_nat (length l) -> set_at l i v = Some (<[Z.to_nat i := v]> l).
Proof. intros Hi. unfold set_at. by destruct (get_at_Some l i Hi) as [? ->]. Qed.

Lemma depth_spec force q v : data_ok v -> 0 <= q < 2 ^ 31 - 1 ->
  exists depth v', ABTXI_prof_xstream_info_get_depth_thread force q v = (depth, v') /\ 0 <= depth /\ data_ok v' /\
    num_events v' = num_events v /\ wu_counts v' = wu_counts v /\ wu_times v' = wu_times v.
Proof.
  intros Hv Hq. unfold ABTXI_prof_xstream_info_get_depth_thread. pose proof (do_depth _ Hv).
  rewrite !(i32_id (q + 1)) by lia.
  destruct (force || _) eqn:E; eexists _, _; (split; [reflexivity|]); rewrite i32_id by lia.
  - split; [lia|]. split; [|done]. destruct Hv. split; cbn; try assumption. lia.
  - apply orb_false_iff in E as [_ E%Z.eqb_neq]. split; [lia|]. done.
Qed.

(** No event of a stream is out of its arrays. *)
Lemma stream_event_spec e t0 q now v : data_ok v -> 0 <= q < 2 ^ 31 - 1 ->
  exists v', stream_event e t0 q now v = Some v' /\ data_ok v' /\ wu_counts v' = wu_counts v /\ wu_times v' = wu_times v /\
    num_events v' = alter (fun n => u64 (n + 1)) (event_index e) (num_events v).
Proof.
  intros Hv Hq. unfold stream_event. assert (data_ok (count_event e v)) as Hv1.
  { destruct Hv. split; cbn; try assumption. by rewrite length_alter. }
  assert (exists v', stream_run q now (count_event e v) = Some v' /\ data_ok v' /\ wu_counts v' = wu_counts v /\ wu_times v' = wu_times v /\
            num_events v' = alter (fun n => u64 (n + 1)) (event_index e) (num_events v)) as Hrun.
  { unfold stream_run. destruct (depth_spec true q _ Hv1 Hq) as (d & v' & -> & Hd & Hv' & E1 & E2 & E3).
    destruct (Z.ltb_spec d ABTXI_PROF_MAX_DEPTH); [|by exists v'].
    rewrite set_at_Some by (rewrite (do_last _ Hv'); unfold ABTXI_PROF_MAX_DEPTH in *; lia). cbn [mbind option_bind].
    eexists. split; [reflexivity|]. split; [|done]. destruct Hv'. split; cbn; try assumption. by rewrite length_insert. }
  assert (exists v', stream_leave t0 q now (count_event e v) = Some v' /\ data_ok v' /\ wu_counts v' = wu_counts v /\ wu_times v' = wu_times v /\
            num_events v' = alter (fun n => u64 (n + 1)) (event_index e) (num_events v)) as Hleave.
  { unfold stream_leave. destruct (depth_spec false q _ Hv1 Hq) as (d & v' & -> & Hd & Hv' & E1 & E2 & E3).
    destruct (Z.ltb_spec d ABTXI_PROF_MAX_DEPTH); [|by exists v'].
    destruct (get_at_Some (times_last_run v') d) as [l ->]; [rewrite (do_last _ Hv'); unfold ABTXI_PROF_MAX_DEPTH in *; lia|].
    cbn [mbind option_bind].
    destruct (get_at_Some (times_elapsed v') d) as [el ->]; [rewrite (do_elapsed _ Hv'); unfold ABTXI_PROF_MAX_DEPTH in *; lia|].
    cbn [mbind option_bind]. rewrite !set_at_Some by (rewrite ?(do_last _ Hv'), ?(do_elapsed _ Hv'); unfold ABTXI_PROF_MAX_DEPTH in *; lia).
    cbn [mbind option_bind]. eexists. split; [reflexivity|]. split; [|done]. destruct Hv'. split; cbn; try assumption; by rewrite length_insert. }
  destruct e; try exact Hrun; try exact Hleave; eexists; (split; [reflexivity|done]).
Qed.

Lemma merge_counts_length t l : length (merge_counts t l) = length l.
Proof. unfold merge_counts. by rewrite !length_alter. Qed.

Lemma merge_times_length t f l : length (merge_times t f l) = length l.
Proof. unfold merge_times, add_time. repeat case_match; by rewrite ?length_alter. Qed.

Lemma thread_event_owner e t0 xs now t : owner (thread_event e t0 xs now t) = owner t.
Proof. by destruct e. Qed.

(** The second half of the callback, on the record [x] of the stream and maybe the
    one of the thread. *)
Lemma switch_event_spec s B U x oi e h q now v :
  threads_ok s B U -> xdata s x = Some v -> data_ok v -> 0 <= q < 2 ^ 31 - 1 ->
  (forall i, oi = Some i -> is_Some (tinfos s !! i) /\ forall y, i ∉ U y) ->
  exists s' U' v', switch_event s x oi e h q now = Some s' /\ threads_ok s' B U' /\ stable s s' /\
    (forall y, xdata s' y = if decide (y = x) then Some v' else xdata s y) /\ data_ok v' /\
    num_events v' = alter (fun n => u64 (n + 1)) (event_index e) (num_events v) /\
    match oi with
    | None => wu_counts v' = wu_counts v /\ forall g j, tval g s' j = tval g s j
    | Some i => exists ti, tinfos s !! i = Some ti /\
        (wu_counts v' = if decide (e = THREAD_FREE) then merge_counts (td ti) (wu_counts v) else wu_counts v) /\
        forall g, Quantity g -> forall j, tval g s' j =
          if decide (j = i) then (if decide (e = THREAD_FREE) then 0 else g (thread_event e (start_prof_time s) h now (td ti))) else tval g s j
    end.
Proof.
  intros Hok Hv Hd Hq Hi. unfold switch_event. unfold xdata in Hv. destruct (xinfos s !! x) as [xi|] eqn:Hx; [|done].
  injection Hv as Hv. cbn [mbind option_bind]. rewrite Hv.
  destruct (stream_event_spec e (start_prof_time s) q now v Hd Hq) as (v1 & -> & Hd1 & Ec & Et & En). cbn [mbind option_bind].
  destruct (upd_x s x (set_xd v1)) as [s1|] eqn:E1; [|unfold upd_x in E1; by rewrite Hx in E1].
  pose proof (threads_ok_upd s B U x (set_xd v1) s1 Hok (fun _ => eq_refl) E1) as Hok1.
  pose proof (upd_x_stable s x (set_xd v1) s1 E1 (fun _ => conj eq_refl eq_refl)) as Hst1.
  apply upd_x_Some in E1 as (xi0 & Hx0 & ->). rewrite Hx in Hx0. injection Hx0 as <-. cbn [mbind option_bind].
  assert (forall y, xdata (with_xinfos s (<[x := set_xd v1 xi]> (xinfos s))) y = if decide (y = x) then Some v1 else xdata s y) as Hxd.
  { intros y. unfold xdata. cbn. destruct (decide (y = x)) as [->|]; [by rewrite lookup_insert_eq|by rewrite lookup_insert_ne]. }
  destruct oi as [i|]; [|eexists _, U, v1; split_and!; try eassumption; reflexivity].
  destruct (Hi i eq_refl) as [[ti Hti] HiU]. destruct (decide (e = THREAD_FREE)) as [->|He].
  - destruct (release_thread_info_spec _ B U x i (set_xd v1 xi) ti now Hok1 (lookup_insert_eq _ _ _) Hti HiU) as (s2 & E2 & Hok2 & Hst2 & Hd2 & Hq2).
    cbn [xd set_xd] in Hd2. eexists s2, _, _. split; [exact E2|]. split; [exact Hok2|]. split; [by eapply stable_trans|].
    split; [intros y; rewrite Hd2, Hxd; by destruct (decide (y = x))|]. split.
    { destruct Hd1. split; try assumption; [apply eq_trans with (2 := do_times0); apply merge_times_length|apply eq_trans with (2 := do_counts0); apply merge_counts_length]. }
    split; [exact En|]. exists ti. split; [exact Hti|]. split; [cbn; by rewrite Ec|]. intros g Hg j. rewrite (Hq2 g Hg j).
    by destruct (decide (j = i)).
  - assert (match e with THREAD_FREE => ABTXI_prof_release_thread_info (with_xinfos s (<[x := set_xd v1 xi]> (xinfos s))) x i now
              | _ => upd_t (with_xinfos s (<[x := set_xd v1 xi]> (xinfos s))) i (fun ti => set_td (thread_event e (start_prof_time s) h now (td ti)) ti) end
            = upd_t (with_xinfos s (<[x := set_xd v1 xi]> (xinfos s))) i (fun ti => set_td (thread_event e (start_prof_time s) h now (td ti)) ti)) as E by (destruct e; done).
    cbn [start_prof_time with_xinfos]. rewrite E. clear E. unfold upd_t. cbn [tinfos with_xinfos]. rewrite Hti. cbn [mbind option_bind].
    eexists _, U, v1. split; [reflexivity|]. split.
    { apply (threads_ok_upd_t _ B U i (thread_event e (start_prof_time s) h now) ti Hok1); [exact Hti|exact HiU|apply thread_event_owner]. }
    split; [destruct Hst1; by split|]. split; [exact Hxd|]. split; [exact Hd1|]. split; [exact En|]. exists ti. split; [reflexivity|]. split; [exact Ec|].
    intros g Hg j. unfold tval. cbn. destruct (decide (j = i)) as [->|]; [by rewrite lookup_insert_eq|by rewrite lookup_insert_ne].
Qed.
