(* ===== verification/AbtxRuns.v ===== *)
(** * Runs of the profiler (src/abtx_prof.h)

    Sequences of callbacks, starts, stops and cleanings from the creation of a
    context: no pointer is misused, threads never share a record, the events
    and the statistics are exactly what happened since the last start, and the end
    frees all the memory. *)

From S2P Require Import Prelude AbtxProf AbtxInv.
From S2P Require Profiling.

#[local] Open Scope Z_scope.
#[local] Opaque block_infos infos_of.

(** ** Sums over maps *)

Definition msum {K} `{Countable K} {A} (f : A -> Z) (m : gmap K A) : Z := map_fold (fun _ a n => f a + n) 0 m.

Section msum.
Context {K : Type} `{Countable K} {A : Type} (f : A -> Z).
Implicit Types m : gmap K A.

Definition mval m k : Z := from_option f 0 (m !! k).

Lemma msum_delete m k : msum f m = mval m k + msum f (delete k m).
Proof.
  unfold mval. destruct (m !! k) as [a|] eqn:Hk; [|by rewrite delete_id].
  rewrite <- (insert_id m k a Hk) at 1. rewrite <- insert_delete_eq. unfold msum at 1.
  rewrite map_fold_insert_L; [reflexivity|intros; lia|apply lookup_delete_eq].
Qed.

Lemma msum_zero m : (forall k, mval m k = 0) -> msum f m = 0.
Proof.
  induction m as [|k a m Hk IH] using map_ind; intros Hz; [reflexivity|].
  rewrite (msum_delete _ k), (Hz k), delete_insert_id by done. apply IH. intros k'. specialize (Hz k'). unfold mval in *.
  destruct (decide (k' = k)) as [->|]; [by rewrite Hk|]. by rewrite lookup_insert_ne in Hz.
Qed.

Lemma msum_ext m m' : (forall k, mval m' k = mval m k) -> msum f m' = msum f m.
Proof.
  revert m'. induction m as [|k a m Hk IH] using map_ind; intros m' He.
  - rewrite msum_zero; [reflexivity|]. intros k. by rewrite He.
  - rewrite (msum_delete m' k), (msum_delete (<[k := a]> m) k), (He k), delete_insert_id by done. f_equal.
    apply IH. intros k'. specialize (He k'). unfold mval in *. destruct (decide (k' = k)) as [->|].
    + by rewrite lookup_delete_eq, Hk.
    + rewrite lookup_insert_ne in He by done. by rewrite lookup_delete_ne.
Qed.

Lemma msum_change m m' k : (forall k', k' ≠ k -> mval m' k' = mval m k') -> msum f m' = msum f m - mval m k + mval m' k.
Proof.
  intros He. rewrite (msum_delete m k), (msum_delete m' k). enough (msum f (delete k m') = msum f (delete k m)) by lia.
  apply msum_ext. intros k'. unfold mval in *. destruct (decide (k' = k)) as [->|]; [by rewrite !lookup_delete_eq|].
  rewrite !lookup_delete_ne by done. by apply He.
Qed.

Lemma msum_nonneg m : (forall k, 0 <= mval m k) -> 0 <= msum f m.
Proof.
  induction m as [|k a m Hk IH] using map_ind; intros Hz; [done|]. rewrite (msum_delete _ k), delete_insert_id by done.
  pose proof (Hz k). enough (0 <= msum f m) by lia. apply IH. intros k'. specialize (Hz k'). unfold mval in *.
  destruct (decide (k' = k)) as [->|]; [by rewrite Hk|]. by rewrite lookup_insert_ne in Hz.
Qed.

Lemma msum_ge m k : (forall k, 0 <= mval m k) -> mval m k <= msum f m.
Proof.
  intros Hz. rewrite (msum_delete m k). enough (0 <= msum f (delete k m)) by lia. apply msum_nonneg. intros k'. specialize (Hz k').
  unfold mval in *. destruct (decide (k' = k)) as [->|]; [by rewrite lookup_delete_eq|]. by rewrite lookup_delete_ne.
Qed.

(** The sum over a list of the keys. *)
Lemma msum_list m l : NoDup l -> (forall k, is_Some (m !! k) -> k ∈ l) -> msum f m = foldr (fun k n => mval m k + n) 0 l.
Proof.
  revert m. induction l as [|k l IH]; intros m Hnd Hl.
  - apply msum_zero. intros k. unfold mval. destruct (m !! k) eqn:Hk; [|reflexivity]. exfalso. apply (not_elem_of_nil k), Hl. eauto.
  - apply NoDup_cons in Hnd as [Hk Hnd]. cbn [foldr]. rewrite (msum_delete m k). f_equal. rewrite (IH (delete k m) Hnd).
    + clear IH Hl. induction l as [|k' l IH]; [reflexivity|]. cbn. apply not_elem_of_cons in Hk as [Hk1 Hk2]. apply NoDup_cons in Hnd as [_ Hnd].
      rewrite IH by done. f_equal. unfold mval. by rewrite lookup_delete_ne.
    + intros k' Hk'. destruct (decide (k' = k)) as [->|]; [rewrite lookup_delete_eq in Hk'; by destruct Hk'|].
      rewrite lookup_delete_ne in Hk' by done. apply Hl in Hk'. by apply elem_of_cons in Hk' as [?|?].
Qed.
End msum.

(** ** The invariant of a context *)

Definition prof_ok (s : prof) : Prop :=
  exists xs B U, registry s xs /\ threads_ok s B U /\ forall x v, xdata s x = Some v -> data_ok v.

(** The memory that a callback may get is not in use. *)
Definition fresh_allocs (s : prof) (al : allocs) : Prop :=
  xinfos s !! new_xinfo al = None /\ arrays s !! new_array al = None /\ memblocks s !! new_block al = None.

(** What a callback does to the statistics, on the record [x] of its stream. *)
Record callback_effect (s s' : prof) (c : caller) (e : event) (x : positive) (v v' : xstream_data) : Prop := {
  ce_state : state s' = state s; ce_mode : prof_mode s' = prof_mode s;
  ce_start : start_prof_time s' = start_prof_time s; ce_stop : stop_prof_time s' = stop_prof_time s;
  ce_rank : exists xi, xinfos s' !! x = Some xi /\ rank xi = rank_of c;
  ce_ranks : forall y yi, xinfos s' !! y = Some yi -> y = x \/ exists yi', xinfos s !! y = Some yi' /\ rank yi' = rank yi;
  ce_old : v = default zero_xstream_data (xdata s x);
  ce_kept : forall xi, xinfos s !! x = Some xi -> rank xi = rank_of c;
  ce_data : forall y, xdata s' y = if decide (y = x) then Some v' else xdata s y;
  ce_events : num_events v' = alter (fun n => u64 (n + 1)) (event_index e) (num_events v);
  ce_counts : if decide (prof_mode s = Profiling.ABTX_PROF_MODE_DETAILED) then
      exists i t0, (forall g, Quantity g -> tval g s i = g t0) /\
        (wu_counts v' = if decide (e = THREAD_FREE) then merge_counts t0 (wu_counts v) else wu_counts v) /\
        exists h now, forall g, Quantity g -> forall j, tval g s' j =
          if decide (j = i) then (if decide (e = THREAD_FREE) then 0 else g (thread_event e (start_prof_time s) h now t0)) else tval g s j
    else wu_counts v' = wu_counts v /\ forall g j, tval g s' j = tval g s j
}.

Lemma bump_tag_spec s xs B U x : registry s xs -> threads_ok s B U -> is_Some (xinfos s !! x) ->
  exists s', bump_tag s x = Some s' /\ registry s' xs /\ threads_ok s' B U /\ stable s s' /\ (forall y, xdata s' y = xdata s y) /\
    tinfos s' = tinfos s /\ memblocks s' = memblocks s.
Proof.
  intros Hr Hok [xi Hx]. destruct (bump_tag s x) as [s'|] eqn:E; [|unfold bump_tag, upd_x in E; by rewrite Hx in E].
  exists s'. unfold bump_tag in E. assert (stable s s') as Hst by (eapply upd_x_stable; [exact E|]; by intros).
  split; [reflexivity|]. split; [by eapply registry_stable|]. split; [eapply threads_ok_upd; [exact Hok| |exact E]; reflexivity|].
  split; [exact Hst|]. split; [intros y; eapply upd_x_xdata; [exact E|reflexivity]|]. apply upd_x_Some in E as (? & _ & ->). done.
Qed.

Lemma same_threads_tval s s' g i : same_threads s s' -> tval g s' i = tval g s i.
Proof. intros Hs. unfold tval. by rewrite (sm_tinfos _ _ Hs). Qed.

(** The record of the thread, in the detailed mode. *)
Lemma callback_thread_spec s mode xs B U x t new :
  registry s xs -> threads_ok s B U -> state s = ABTXI_PROF_GLOBAL_STATE_RUNNING -> is_Some (xinfos s !! x) -> t ≠ 0 -> memblocks s !! new = None ->
  exists oi s' B' U',
    (if mode =? Profiling.ABTX_PROF_MODE_DETAILED then '(i, s) ← ABTXI_prof_get_thread_info s x t new; Some (Some i, s)
     else Some (None, s)) = Some (oi, s') /\ registry s' xs /\ threads_ok s' B' U' /\ stable s s' /\ (forall y, xdata s' y = xdata s y) /\
    (forall i, oi = Some i -> is_Some (tinfos s' !! i) /\ forall y, i ∉ U' y) /\
    (if decide (mode = Profiling.ABTX_PROF_MODE_DETAILED) then is_Some oi else oi = None /\ s' = s) /\
    (forall g, Quantity g -> forall j, tval g s' j = tval g s j).
Proof.
  intros Hr Hok Hrun Hx Ht Hnew. destruct (Z.eqb_spec mode Profiling.ABTX_PROF_MODE_DETAILED) as [Em|Em].
  - destruct (get_thread_info_spec s B U x t new Hok Hrun Hx Ht Hnew) as (i & s3 & B3 & U3 & -> & Hok3 & Hst3 & Hd3 & HiU & (ti & Hti & _) & Hq3).
    exists (Some i), s3, B3, U3. split; [reflexivity|]. split; [by eapply registry_stable|]. split; [exact Hok3|]. split; [exact Hst3|].
    split; [exact Hd3|]. split; [intros ? [= <-]; split; [by exists ti|exact HiU]|]. rewrite decide_True by exact Em. split; [eauto|exact Hq3].
  - exists None, s, B, U. split; [reflexivity|]. split; [exact Hr|]. split; [exact Hok|]. split; [apply stable_refl|]. split; [reflexivity|].
    split; [by intros|]. rewrite decide_False by exact Em. by split_and!.
Qed.

Lemma found_xdata s c x s' : found s c x s' ->
  forall y, xdata s' y = if decide (y = x) then Some (default zero_xstream_data (xdata s x)) else xdata s y.
Proof.
  intros [(xi & Hx & _) Hxs] y. unfold xdata. destruct (decide (y = x)) as [->|Hy].
  - destruct (Hxs x) as [E|(_ & E & p & E')]; [rewrite <- E, Hx; reflexivity|by rewrite E', E].
  - destruct (Hxs y) as [->|(? & _)]; [reflexivity|done].
Qed.

(** A callback is defined when the table of streams has room for its rank. *)
Lemma callback_spec s c t e q now al :
  prof_ok s -> state s = ABTXI_PROF_GLOBAL_STATE_RUNNING -> t ≠ 0 -> 0 <= q < 2 ^ 31 - 1 -> fits s c -> fresh_allocs s al ->
  exists s' x v v', ABTXI_prof_thread_callback_impl s c t e q now al (prof_mode s) = Some s' /\ prof_ok s' /\
    callback_effect s s' c e x v v'.
Proof.
  intros (xs & B & U & Hr & Hok & Hd) Hrun Ht Hq Hfit (Hfx & Hfa & Hfb). unfold ABTXI_prof_thread_callback_impl.
  destruct (get_xstream_info_spec s xs B U c _ _ Hr Hok Hfx Hfa Hfit) as (x & s1 & xs1 & -> & Hr1 & Hok1 & Hsm1 & Hfound).
  pose proof (found_xdata _ _ _ _ Hfound) as Hd1. destruct Hfound as [(xi1 & Hx1 & Hrk1) Hxs1].
  cbn [mbind option_bind].
  destruct (bump_tag_spec s1 xs1 B U x Hr1 Hok1) as (s2 & -> & Hr2 & Hok2 & Hst2 & Hd2 & Ht2 & Hb2); [eauto|]. cbn [mbind option_bind].
  destruct (callback_thread_spec s2 (prof_mode s) xs1 B U x t (new_block al) Hr2 Hok2) as (oi & s3 & B3 & U3 & -> & Hr3 & Hok3 & Hst3 & Hd3 & Hi3 & Hm3 & Hq3);
    [by rewrite (st_state _ _ Hst2), (sm_state _ _ Hsm1)|apply (stable_dom _ _ _ Hst2); eauto|exact Ht|by rewrite Hb2, (sm_blocks _ _ Hsm1)|].
  cbn [mbind option_bind].
  set (v := default zero_xstream_data (xdata s x)) in *.
  assert (data_ok v) as Hdv. { subst v. destruct (xdata s x) eqn:E; [by apply (Hd x)|apply data_ok_zero]. }
  destruct (switch_event_spec s3 B3 U3 x oi e (xstream_of c) q now v Hok3) as (s4 & U4 & v' & -> & Hok4 & Hst4 & Hd4 & Hdv' & Hev & Hcnt);
    [by rewrite Hd3, Hd2, Hd1, decide_True|exact Hdv|exact Hq|exact Hi3|]. cbn [mbind option_bind].
  assert (stable s1 s4) as Hst by (eapply stable_trans; [exact Hst2|]; by eapply stable_trans).
  destruct (bump_tag_spec s4 xs1 B3 U4 x) as (s5 & -> & Hr5 & Hok5 & Hst5 & Hd5 & Ht5 & _);
    [by eapply registry_stable|exact Hok4|apply (stable_dom _ _ _ Hst); eauto|].
  assert (stable s1 s5) as Hst15 by (by eapply stable_trans).
  assert (forall y, xdata s5 y = if decide (y = x) then Some v' else xdata s y) as Hd5'.
  { intros y. rewrite Hd5, Hd4, Hd3, Hd2, Hd1. by destruct (decide (y = x)). }
  exists s5, x, v, v'. split; [reflexivity|]. split.
  { exists xs1, B3, U4. split; [exact Hr5|]. split; [exact Hok5|]. intros y w. rewrite Hd5'. destruct (decide (y = x)); [by intros [= <-]|apply Hd]. }
  assert (forall g, Quantity g -> forall j, tval g s3 j = tval g s j) as Hq30.
  { intros g Hg j. rewrite (Hq3 g Hg j). unfold tval. by rewrite Ht2, (sm_tinfos _ _ Hsm1). }
  assert (forall g j, tval g s5 j = tval g s4 j) as Hq54 by (intros g j; unfold tval; by rewrite Ht5).
  assert (forall y yi, xinfos s5 !! y = Some yi -> exists yi1, xinfos s1 !! y = Some yi1 /\ rank yi1 = rank yi) as Hrk5.
  { intros y yi Hy. pose proof (st_xinfos _ _ Hst15 y) as E. rewrite Hy in E. destruct (xinfos s1 !! y) as [yi1|]; [|done].
    injection E as E _. by exists yi1. }
  split; try done.
  - by rewrite (st_state _ _ Hst15), (sm_state _ _ Hsm1).
  - by rewrite (st_mode _ _ Hst15), (sm_mode _ _ Hsm1).
  - by rewrite (st_start _ _ Hst15), (sm_start _ _ Hsm1).
  - by rewrite (st_stop _ _ Hst15), (sm_stop _ _ Hsm1).
  - pose proof (st_xinfos _ _ Hst15 x) as E. rewrite Hx1 in E. destruct (xinfos s5 !! x) as [xi5|]; [|done]. injection E as E _.
    exists xi5. by rewrite E.
  - intros y yi Hy. destruct (Hrk5 y yi Hy) as (yi1 & Hy1 & E). destruct (Hxs1 y) as [E'|(-> & _)]; [right|by left].
    exists yi1. rewrite <- E'. done.
  - intros xi Hxi. destruct (Hxs1 x) as [E|(_ & E & _)]; congruence.
  - destruct (decide (prof_mode s = _)) as [Em|Em].
    + destruct Hm3 as [i ->]. destruct Hcnt as (ti & Hti & Ew & Hg). exists i, (td ti). split.
      { intros g Hg'. rewrite <- (Hq30 g Hg'). unfold tval. by rewrite Hti. }
      split; [exact Ew|]. exists (xstream_of c), now. intros g Hg' j. rewrite Hq54, (Hg g Hg'), (Hq30 g Hg').
      by rewrite (st_start _ _ Hst3), (st_start _ _ Hst2), (sm_start _ _ Hsm1).
    + destruct Hm3 as [-> ->]. destruct Hcnt as [Ew Hg]. split; [exact Ew|]. intros g j. rewrite Hq54, Hg. unfold tval.
      by rewrite Ht2, (sm_tinfos _ _ Hsm1).
Qed.

(** ** Runs *)

Inductive label := Event (c : caller) (e : event) | Started | Stopped | Cleaned | Gone (t : Z).

(** [Gone]: Argobots forgets the keys of a thread, whose FREE event it has announced
    when the profiler was running. *)
Inductive pstep (s : prof) : label -> prof -> Prop :=
  | step_event c t e q now al s' :
      state s = ABTXI_PROF_GLOBAL_STATE_RUNNING -> t ≠ 0 -> 0 <= q < 2 ^ 31 - 1 -> fits s c -> fresh_allocs s al ->
      ABTXI_prof_thread_callback_impl s c t e q now al (prof_mode s) = Some s' -> pstep s (Event c e) s'
  | step_start mode now s' : ABTX_prof_start (Some s) mode now = Some (ABT_SUCCESS, Some s') -> pstep s Started s'
  | step_stop now s' : ABTX_prof_stop (Some s) now = Some (ABT_SUCCESS, Some s') -> pstep s Stopped s'
  | step_clean s' : ABTX_prof_clean (Some s) = Some (ABT_SUCCESS, Some s') -> pstep s Cleaned s'
  | step_gone t :
      (state s = ABTXI_PROF_GLOBAL_STATE_RUNNING -> forall i ti, tinfos s !! i = Some ti -> owner (td ti) ≠ t) ->
      pstep s (Gone t) (with_keys s (delete t (prof_key s)) (xstream_info_key s)).

(** The trace of a run, the last step first. *)
Inductive pruns : list label -> prof -> Prop :=
  | pruns_init : pruns [] empty_prof
  | pruns_step tr s l s' : pruns tr s -> pstep s l s' -> pruns (l :: tr) s'.

Lemma empty_prof_ok : prof_ok empty_prof.
Proof.
  exists [], (fun _ => []), (fun _ => []). split; [|split].
  - split; try reflexivity.
    + constructor.
    + intros x. cbn. rewrite lookup_empty. split; [by intros [? ?]|by intros ?%not_elem_of_nil].
    + by intros a.
    + by intros n x.
    + intros x xi. cbn. by rewrite lookup_empty.
    + exists []. split; [reflexivity|]. split; [constructor|]. intros a. cbn. rewrite lookup_empty. split; [by intros [? ?]|by intros ?%not_elem_of_nil].
    + intros t x. cbn. by rewrite lookup_empty.
  - split; cbn; try (intros ? ?; rewrite ?lookup_empty; done); try (intros; by constructor).
    + intros ? ? ? ?%not_elem_of_nil. done.
    + intros b. rewrite lookup_empty. split; [by intros [? ?]|by intros [? ?%not_elem_of_nil]].
    + intros i. rewrite lookup_empty. split; [by intros [? ?]|intros [? ?%infos_of_elem]; by apply not_elem_of_nil in H].
    + intros ? ? ? ?%not_elem_of_nil. done.
    + intros ? ? ?%not_elem_of_nil. done.
  - intros x v. unfold xdata. cbn. by rewrite lookup_empty.
Qed.

(** Resetting all streams, for a start or a cleaning. *)
Lemma reset_all_ok s st m t0 t1 : prof_ok s ->
  exists s', reset_all (size (xinfos s)) s (p_xstream_info_head s) = Some s' /\ prof_ok (with_run s' st m t0 t1) /\ stable s s' /\
    (forall y, xdata s' y = (fun _ => zero_xstream_data) <$> xdata s y) /\
    (forall i ti, tinfos s' !! i = Some ti -> td ti = zero_thread_data).
Proof.
  intros (xs & B & U & Hr & Hok & Hd).
  destruct (reset_threads_ok s B U xs st m t0 t1 Hok (rg_list _ _ Hr) (rg_nodup _ _ Hr) (rg_dom _ _ Hr)) as (s' & E & Hok' & Hst & Hd' & Hz).
  exists s'. split; [exact E|]. split; [|by split_and!]. exists xs, B, (fun x => infos_of (B x)). split; [|split; [exact Hok'|]].
  - pose proof (registry_stable _ _ _ Hst Hr) as []. by split.
  - intros x v. change (xdata (with_run s' st m t0 t1) x) with (xdata s' x). rewrite Hd'. destruct (xdata s x); [|done].
    intros [= <-]. apply data_ok_zero.
Qed.

(** What [ABTX_prof_start] does to the records: it resets them when the profiler was
    stopped; a profiler that is clean has nothing in them. *)
Definition clean_records (s : prof) : Prop :=
  (forall y v, xdata s y = Some v -> v = zero_xstream_data) /\ (forall i ti, tinfos s !! i = Some ti -> td ti = zero_thread_data).

Definition clean_ok (s : prof) : Prop := state s = ABTXI_PROF_GLOBAL_STATE_CLEAN -> clean_records s.

Lemma with_run_ok s st m t0 t1 : prof_ok s -> (st = ABTXI_PROF_GLOBAL_STATE_RUNNING -> state s = ABTXI_PROF_GLOBAL_STATE_RUNNING \/ clean_records s) ->
  prof_ok (with_run s st m t0 t1).
Proof.
  intros (xs & B & U & Hr & Hok & Hd) Hc. exists xs, B, U. split; [by destruct Hr; split|]. split; [|exact Hd]. destruct Hok. split; cbn; try assumption.
  intros i ti Hi HiU. destruct (to_owned i ti Hi HiU) as [Ho Hk]. split; [exact Ho|]. intros Hst. destruct (Hc Hst) as [?|[_ Hz]]; [auto|].
  specialize (Hz i ti Hi). rewrite Hz in Ho. cbn in Ho. lia.
Qed.

(** The invariant of runs. *)
Record run_ok (s : prof) : Prop := {
  ro_prof : prof_ok s;
  ro_state : state s = ABTXI_PROF_GLOBAL_STATE_CLEAN \/ state s = ABTXI_PROF_GLOBAL_STATE_RUNNING \/ state s = ABTXI_PROF_GLOBAL_STATE_STOPPED;
  ro_clean : clean_ok s
}.

Definition ranks_kept (s s' : prof) : Prop := forall y, rank <$> xinfos s' !! y = rank <$> xinfos s !! y.

Lemma reset_run s st m t0 : prof_ok s ->
  exists s', reset_all (size (xinfos s)) s (p_xstream_info_head s) = Some s' /\ stop_prof_time s' = stop_prof_time s /\
    start_prof_time s' = start_prof_time s /\ prof_mode s' = prof_mode s /\
    prof_ok (with_run s' st m t0 (stop_prof_time s')) /\ clean_records (with_run s' st m t0 (stop_prof_time s')) /\
    ranks_kept s (with_run s' st m t0 (stop_prof_time s')).
Proof.
  intros Hok. destruct (reset_all_ok s st m t0 (stop_prof_time s) Hok) as (s' & E & Hok' & Hst & Hd & Hz).
  exists s'. split; [exact E|]. rewrite (st_stop _ _ Hst), (st_start _ _ Hst), (st_mode _ _ Hst).
  split; [reflexivity|]. split; [reflexivity|]. split; [reflexivity|]. split; [exact Hok'|]. split; [split; [|exact Hz]|].
  - intros y v. change (xdata (with_run s' st m t0 (stop_prof_time s)) y) with (xdata s' y). rewrite Hd. destruct (xdata s y); [|done]. by intros [= <-].
  - intros y. cbn. pose proof (st_xinfos _ _ Hst y) as E'. by destruct (xinfos s' !! y), (xinfos s !! y); simplify_eq/=; f_equal.
Qed.

Lemma prof_start_spec s mode now : run_ok s ->
  if decide (state s = ABTXI_PROF_GLOBAL_STATE_RUNNING) then ABTX_prof_start (Some s) mode now = Some (ABT_ERR_OTHER, Some s)
  else exists s', ABTX_prof_start (Some s) mode now = Some (ABT_SUCCESS, Some s') /\ run_ok s' /\ clean_records s' /\
    state s' = ABTXI_PROF_GLOBAL_STATE_RUNNING /\ prof_mode s' = mode /\ ranks_kept s s'.
Proof.
  intros [Hok Hs Hc]. unfold ABTX_prof_start. destruct (decide _) as [->|Hr]; [reflexivity|]. rewrite (proj2 (Z.eqb_neq _ _)) by exact Hr.
  destruct (Z.eqb_spec (state s) ABTXI_PROF_GLOBAL_STATE_STOPPED) as [Es|Es].
  - destruct (reset_run s ABTXI_PROF_GLOBAL_STATE_RUNNING mode now Hok) as (s' & -> & _ & _ & _ & Hok' & Hz & Hrk). cbn [mbind option_bind].
    eexists. split; [reflexivity|]. split; [split; [exact Hok'|by right; left|done]|]. by split_and!.
  - cbn [mbind option_bind]. eexists. split; [reflexivity|]. assert (clean_records s) as Hcr by (apply Hc; tauto).
    split; [split; [apply with_run_ok; [exact Hok|by right]|by right; left|done]|]. by split_and!.
Qed.

Lemma stop_spec s now : run_ok s ->
  if decide (state s = ABTXI_PROF_GLOBAL_STATE_RUNNING) then
    exists s', ABTX_prof_stop (Some s) now = Some (ABT_SUCCESS, Some s') /\ run_ok s' /\ state s' = ABTXI_PROF_GLOBAL_STATE_STOPPED /\
      s' = with_run s ABTXI_PROF_GLOBAL_STATE_STOPPED (prof_mode s) (start_prof_time s) now
  else ABTX_prof_stop (Some s) now = Some (ABT_ERR_OTHER, Some s).
Proof.
  intros [Hok Hs Hc]. unfold ABTX_prof_stop. destruct (decide _) as [Er|Hr].
  - rewrite (proj2 (Z.eqb_eq _ _) Er). eexists. split; [reflexivity|]. split; [|done]. split; [by apply with_run_ok|by right; right|done].
  - by rewrite (proj2 (Z.eqb_neq _ _) Hr).
Qed.

Lemma clean_spec s : run_ok s ->
  if decide (state s = ABTXI_PROF_GLOBAL_STATE_STOPPED) then
    exists s', ABTX_prof_clean (Some s) = Some (ABT_SUCCESS, Some s') /\ run_ok s' /\ state s' = ABTXI_PROF_GLOBAL_STATE_CLEAN /\
      clean_records s' /\ ranks_kept s s' /\ prof_mode s' = prof_mode s
  else ABTX_prof_clean (Some s) = Some (ABT_ERR_OTHER, Some s).
Proof.
  intros [Hok Hs Hc]. unfold ABTX_prof_clean. destruct (decide _) as [Er|Hr]; [|by rewrite (proj2 (Z.eqb_neq _ _) Hr)].
  rewrite (proj2 (Z.eqb_eq _ _) Er). cbn [negb].
  destruct (reset_run s ABTXI_PROF_GLOBAL_STATE_CLEAN (prof_mode s) (start_prof_time s) Hok) as (s' & -> & Et & Es & Em & Hok' & Hz & Hrk). cbn [mbind option_bind].
  rewrite Em, Es. eexists. split; [reflexivity|]. split; [split; [exact Hok'|by left|intros _; exact Hz]|]. by split_and!.
Qed.

Lemma gone_ok s t : run_ok s ->
  (state s = ABTXI_PROF_GLOBAL_STATE_RUNNING -> forall i ti, tinfos s !! i = Some ti -> owner (td ti) ≠ t) ->
  run_ok (with_keys s (delete t (prof_key s)) (xstream_info_key s)).
Proof.
  intros [(xs & B & U & Hr & Hok & Hd) Hs Hc] Hg. split; [|exact Hs|exact Hc]. exists xs, B, U. split; [by destruct Hr; split|]. split; [|exact Hd].
  destruct Hok. split; cbn; try assumption.
  - intros i ti Hi HiU. destruct (to_owned i ti Hi HiU) as [Ho Hk]. split; [exact Ho|]. intros Hrun. rewrite lookup_delete_ne; [by apply Hk|].
    intros ->. by apply (Hg Hrun i ti Hi).
  - intros t' i Hi. apply lookup_delete_Some in Hi as [_ Hi]. by eapply to_key.
Qed.

Lemma callback_run_ok s s' c e x v v' : run_ok s -> state s = ABTXI_PROF_GLOBAL_STATE_RUNNING -> prof_ok s' -> callback_effect s s' c e x v v' -> run_ok s'.
Proof.
  intros [_ Hs _] Hr Hok' Hce. split; [exact Hok'|rewrite (ce_state _ _ _ _ _ _ _ Hce); exact Hs|].
  intros E. rewrite (ce_state _ _ _ _ _ _ _ Hce), Hr in E. discriminate E.
Qed.

Lemma pruns_ok tr s : pruns tr s -> run_ok s.
Proof.
  induction 1 as [|tr s l s' Hrun IH Hstep].
  { split; [apply empty_prof_ok|by left|]. intros _. split; intros ? ?; unfold xdata; cbn; by rewrite lookup_empty. }
  destruct Hstep as [c t e q now al s' Hr Ht Hq Hf Hfr E|mode now s' E|now s' E|s' E|t Hg].
  - destruct (callback_spec s c t e q now al (ro_prof _ IH) Hr Ht Hq Hf Hfr) as (s2 & x & v & v' & E2 & Hok2 & Hce).
    rewrite E in E2. injection E2 as <-. by eapply callback_run_ok.
  - pose proof (prof_start_spec s mode now IH) as Hsp. destruct (decide _); [by rewrite Hsp in E|].
    destruct Hsp as (s2 & E2 & Hok2 & _). rewrite E in E2. injection E2 as <-. exact Hok2.
  - pose proof (stop_spec s now IH) as Hsp. destruct (decide _); [|by rewrite Hsp in E].
    destruct Hsp as (s2 & E2 & Hok2 & _). rewrite E in E2. injection E2 as <-. exact Hok2.
  - pose proof (clean_spec s IH) as Hsp. destruct (decide _); [|by rewrite Hsp in E].
    destruct Hsp as (s2 & E2 & Hok2 & _). rewrite E in E2. injection E2 as <-. exact Hok2.
  - by apply gone_ok.
Qed.

(** ** The end *)

Lemma free_blocks_spec l : forall fuel ts bs p, chain bs id p l -> NoDup l -> (length l <= fuel)%nat ->
  exists ts' bs', free_blocks fuel ts bs p = Some (ts', bs') /\
    (forall i, ts' !! i = if decide (i.1 ∈ l) then None else ts !! i) /\
    (forall b, bs' !! b = if decide (b ∈ l) then None else bs !! b).
Proof.
  induction l as [|b l IH]; intros fuel ts bs p Hc Hnd Hf.
  { cbn in Hc. subst p. exists ts, bs. split; [by destruct fuel|]. split; intros; by rewrite decide_False by apply not_elem_of_nil. }
  destruct Hc as (-> & nx & Hb & Hc). apply NoDup_cons in Hnd as [Hbl Hnd]. destruct fuel as [|fuel]; [cbn in Hf; lia|].
  cbn [free_blocks]. rewrite Hb. cbn [mbind option_bind].
  destruct (IH fuel (filter (fun kv => kv.1.1 ≠ b) ts) (delete b bs) nx) as (ts' & bs' & -> & Hts & Hbs);
    [by apply chain_delete|exact Hnd|cbn in Hf; lia|].
  exists ts', bs'. split; [reflexivity|]. split.
  - intros i. rewrite Hts. rewrite map_lookup_filter. destruct (decide (i.1 = b)) as [Hi|Hi].
    + rewrite (decide_True (P := i.1 ∈ b :: l)) by (apply elem_of_cons; by left). destruct (decide _); [reflexivity|].
      destruct (ts !! i); [|reflexivity]. cbn. rewrite option_guard_False; [reflexivity|]. intros H. by apply H.
    + destruct (decide (i.1 ∈ l)) as [Hl|Hl].
      * by rewrite decide_True by (apply elem_of_cons; by right).
      * rewrite decide_False by (intros [?|?]%elem_of_cons; done). destruct (ts !! i); [|reflexivity]. cbn. by rewrite option_guard_True.
  - intros b'. rewrite Hbs. destruct (decide (b' = b)) as [->|Hb'].
    + rewrite lookup_delete_eq, (decide_True (P := b ∈ b :: l)) by (apply elem_of_cons; by left). by destruct (decide _).
    + rewrite lookup_delete_ne by done. destruct (decide (b' ∈ l)) as [Hl|Hl].
      * by rewrite decide_True by (apply elem_of_cons; by right).
      * by rewrite decide_False by (intros [?|?]%elem_of_cons; done).
Qed.

Lemma destroy_all_spec (B : positive -> list positive) xs : forall fuel s p,
  chain (xinfos s) p_next p xs -> NoDup xs -> (length xs <= fuel)%nat -> (forall x, NoDup (B x)) -> (forall x y b, b ∈ B x -> b ∈ B y -> x = y) ->
  (forall x xi, xinfos s !! x = Some xi -> chain (memblocks s) id (p_memblock_head xi) (B x)) ->
  exists s', destroy_all fuel s p = Some s' /\ arrays s' = arrays s /\ mem_p_xstreams s' = mem_p_xstreams s /\
    (forall y, xinfos s' !! y = if decide (y ∈ xs) then None else xinfos s !! y) /\
    (forall b, memblocks s' !! b = if decide (b ∈ xs ≫= B) then None else memblocks s !! b) /\
    (forall i, tinfos s' !! i = if decide (i.1 ∈ xs ≫= B) then None else tinfos s !! i).
Proof.
  induction xs as [|x xs IH]; intros fuel s p Hc Hnd Hf HB Hdisj Hb.
  { cbn in Hc. subst p. exists s. split; [by destruct fuel|]. split_and!; try reflexivity; intros; by rewrite decide_False by apply not_elem_of_nil. }
  destruct Hc as (-> & xi & Hx & Hc). apply NoDup_cons in Hnd as [Hxl Hnd]. destruct fuel as [|fuel]; [cbn in Hf; lia|].
  cbn [destroy_all]. rewrite Hx. cbn [mbind option_bind]. unfold ABTXI_prof_destroy_xstream_info. rewrite Hx. cbn [mbind option_bind].
  destruct (free_blocks_spec (B x) (size (memblocks s)) (tinfos s) (memblocks s) (p_memblock_head xi) (Hb x xi Hx) (HB x)) as (ts & bs & -> & Hts & Hbs).
  { eapply chain_length_size; [exact (Hb x xi Hx)|apply HB]. }
  cbn [mbind option_bind].
  destruct (IH fuel (with_xinfos (with_threads s ts bs) (delete x (xinfos (with_threads s ts bs)))) (p_next xi)) as (s' & -> & Ea & Em & Hxi & Hmb & Hti);
    [by apply chain_delete|exact Hnd|cbn in Hf; lia|exact HB|exact Hdisj| |].
  { cbn. intros y yi Hy. apply lookup_delete_Some in Hy as [Hxy Hy]. eapply chain_frame; [|exact (Hb y yi Hy)].
    intros b Hby. rewrite Hbs, decide_False; [reflexivity|]. intros Hbx. exact (Hxy (Hdisj x y b Hbx Hby)). }
  exists s'. split; [reflexivity|]. split; [exact Ea|]. split; [exact Em|]. split; [|split].
  - intros y. rewrite Hxi. cbn. destruct (decide (y = x)) as [->|Hy].
    + rewrite lookup_delete_eq, (decide_True (P := x ∈ x :: xs)) by (apply elem_of_cons; by left). by destruct (decide _).
    + rewrite lookup_delete_ne by done. destruct (decide (y ∈ xs)) as [Hl|Hl].
      * by rewrite decide_True by (apply elem_of_cons; by right).
      * by rewrite decide_False by (intros [?|?]%elem_of_cons; done).
  - intros b. rewrite Hmb, bind_cons. cbn [memblocks with_xinfos with_threads]. rewrite Hbs.
    destruct (decide (b ∈ B x)) as [H1|H1], (decide (b ∈ xs ≫= B)) as [H2|H2], (decide (b ∈ _ ++ _)) as [H3|H3]; rewrite elem_of_app in H3; try reflexivity; tauto.
  - intros i. rewrite Hti, bind_cons. cbn [tinfos with_xinfos with_threads]. rewrite Hts.
    destruct (decide (i.1 ∈ B x)) as [H1|H1], (decide (i.1 ∈ xs ≫= B)) as [H2|H2], (decide (i.1 ∈ _ ++ _)) as [H3|H3]; rewrite elem_of_app in H3; try reflexivity; tauto.
Qed.

Lemma free_arrays_spec l : forall fuel s p, chain (arrays s) fst p l -> NoDup l -> (length l <= fuel)%nat ->
  exists s', free_arrays fuel s p = Some s' /\ (forall a, arrays s' !! a = if decide (a ∈ l) then None else arrays s !! a) /\
    xinfos s' = xinfos s /\ memblocks s' = memblocks s /\ tinfos s' = tinfos s.
Proof.
  induction l as [|a l IH]; intros fuel s p Hc Hnd Hf.
  { cbn in Hc. subst p. exists s. split; [by destruct fuel|]. split_and!; try reflexivity; intros; by rewrite decide_False by apply not_elem_of_nil. }
  destruct Hc as (-> & [nx t] & Ha & Hc). apply NoDup_cons in Hnd as [Hal Hnd]. destruct fuel as [|fuel]; [cbn in Hf; lia|].
  cbn [free_arrays]. rewrite Ha. cbn [mbind option_bind].
  destruct (IH fuel (with_table s (len_p_xstreams s) (p_xstreams s) (mem_p_xstreams s) (delete a (arrays s))) nx) as (s' & -> & Hs & Hx & Hm & Ht);
    [by apply chain_delete|exact Hnd|cbn in Hf; lia|].
  exists s'. split; [reflexivity|]. split; [|done]. intros a'. rewrite Hs. cbn. destruct (decide (a' = a)) as [->|Hy].
  - rewrite lookup_delete_eq, (decide_True (P := a ∈ a :: l)) by (apply elem_of_cons; by left). by destruct (decide _).
  - rewrite lookup_delete_ne by done. destruct (decide (a' ∈ l)) as [Hl|Hl].
    + by rewrite decide_True by (apply elem_of_cons; by right).
    + by rewrite decide_False by (intros [?|?]%elem_of_cons; done).
Qed.

(** Nothing is left when the context is freed, and nothing is freed twice. *)
Lemma finalize_spec s : run_ok s ->
  if decide (state s = ABTXI_PROF_GLOBAL_STATE_RUNNING) then ABTX_prof_finalize (Some s) true = Some (ABT_ERR_OTHER, Some s)
  else exists s', ABTX_prof_finalize (Some s) true = Some (ABT_SUCCESS, Some s') /\
    xinfos s' = ∅ /\ arrays s' = ∅ /\ memblocks s' = ∅ /\ tinfos s' = ∅.
Proof.
  intros [(xs & B & U & Hr & Hok & _) _ _]. unfold ABTX_prof_finalize. cbn [negb]. destruct (decide _) as [Er|Er]; [by rewrite (proj2 (Z.eqb_eq _ _) Er)|].
  rewrite (proj2 (Z.eqb_neq _ _) Er).
  destruct (destroy_all_spec B xs (size (xinfos s)) s (p_xstream_info_head s) (rg_list _ _ Hr) (rg_nodup _ _ Hr)) as (s1 & -> & Ea & Em & Hx & Hb & Ht);
    [eapply chain_length_size; [exact (rg_list _ _ Hr)|exact (rg_nodup _ _ Hr)]|exact (to_B_nodup _ _ _ Hok)|exact (to_B_disj _ _ _ Hok)|exact (to_blocks _ _ _ Hok)|].
  cbn [mbind option_bind]. destruct (rg_mem _ _ Hr) as (ms & Hc & Hnd & Hms). rewrite <- Ea, <- Em in Hc.
  destruct (free_arrays_spec ms (size (arrays s1)) s1 (mem_p_xstreams s1) Hc Hnd) as (s2 & -> & Hs & Hx2 & Hm2 & Ht2); [by eapply chain_length_size|].
  cbn [mbind option_bind]. exists s2. split; [reflexivity|].
  assert (forall x b, b ∈ B x -> x ∈ xs) as HBx.
  { intros x b Hbx. apply (rg_dom _ _ Hr). destruct (xinfos s !! x) eqn:E; [eauto|]. destruct (to_none _ _ _ Hok x E) as [E' _].
    rewrite E' in Hbx. by apply not_elem_of_nil in Hbx. }
  split_and!; apply map_empty.
  - intros y. rewrite Hx2, Hx. destruct (decide _) as [|Hy]; [reflexivity|]. apply eq_None_not_Some. by rewrite (rg_dom _ _ Hr).
  - intros a. rewrite Hs. destruct (decide _) as [|Hy]; [reflexivity|]. rewrite Ea. apply eq_None_not_Some. by rewrite Hms.
  - intros b. rewrite Hm2, Hb. destruct (decide _) as [|Hy]; [reflexivity|]. apply eq_None_not_Some. intros (x & Hbx)%(to_bdom _ _ _ Hok).
    apply Hy, list_elem_of_bind. exists x. split; [exact Hbx|by eapply HBx].
  - intros i. rewrite Ht2, Ht. destruct (decide _) as [|Hy]; [reflexivity|]. apply eq_None_not_Some. intros (x & Hbx%infos_of_elem)%(to_tdom _ _ _ Hok).
    apply Hy, list_elem_of_bind. exists x. split; [exact Hbx|by eapply HBx].
Qed.

(** ** Safety *)

Lemma owners_distinct s B U i j ti tj :
  threads_ok s B U -> state s = ABTXI_PROF_GLOBAL_STATE_RUNNING -> tinfos s !! i = Some ti -> tinfos s !! j = Some tj ->
  owner (td ti) ≠ 0 -> owner (td ti) = owner (td tj) -> i = j.
Proof.
  intros Hok Hr Hi Hj Ho He.
  assert (forall k tk, tinfos s !! k = Some tk -> owner (td tk) ≠ 0 -> prof_key s !! owner (td tk) = Some k) as Hkey.
  { intros k tk Hk Hok'. apply (to_owned _ _ _ Hok k tk Hk); [|exact Hr]. intros x Hx.
    destruct (to_zero _ _ _ Hok x k Hx) as (tk' & Hk' & Hz). rewrite Hk in Hk'. injection Hk' as <-. by rewrite Hz in Hok'. }
  pose proof (Hkey i ti Hi Ho) as H1. rewrite He in H1, Ho. pose proof (Hkey j tj Hj Ho) as H2. congruence.
Qed.

(** ** Programs *)

(** Steps as a program, with the conditions that they need. *)
Inductive op := OpEvent (c : caller) (t : Z) (e : event) (q now : Z) (al : allocs) | OpStart (mode now : Z) | OpStop (now : Z) | OpClean.

Definition op_label (o : op) : label := match o with OpEvent c _ e _ _ _ => Event c e | OpStart _ _ => Started | OpStop _ => Stopped | OpClean => Cleaned end.

#[export] Instance fits_dec s c : Decision (fits s c).
Proof. destruct c; apply _. Defined.

Definition success (r : option (abt_ret * option prof)) : option prof := match r with Some (ABT_SUCCESS, c) => c | _ => None end.

Definition exec_op (s : prof) (o : op) : option prof :=
  match o with
  | OpEvent c t e q now al =>
      if bool_decide (state s = ABTXI_PROF_GLOBAL_STATE_RUNNING /\ t ≠ 0 /\ (0 <= q < 2 ^ 31 - 1) /\ fits s c /\
                      xinfos s !! new_xinfo al = None /\ arrays s !! new_array al = None /\ memblocks s !! new_block al = None)
      then ABTXI_prof_thread_callback_impl s c t e q now al (prof_mode s) else None
  | OpStart mode now => success (ABTX_prof_start (Some s) mode now)
  | OpStop now => success (ABTX_prof_stop (Some s) now)
  | OpClean => success (ABTX_prof_clean (Some s))
  end.

Fixpoint exec (ops : list op) (s : prof) : option prof := match ops with [] => Some s | o :: ops => s ← exec_op s o; exec ops s end.

Lemma success_Some r s : success r = Some s -> r = Some (ABT_SUCCESS, Some s).
Proof. unfold success. destruct r as [[[] c]|]; try done. by intros ->. Qed.

Lemma exec_sound ops : forall tr s s', pruns tr s -> exec ops s = Some s' -> pruns (rev_append (op_label <$> ops) tr) s'.
Proof.
  induction ops as [|o ops IH]; intros tr s s' Hr; cbn [exec fmap list_fmap rev_append]; [by intros [= <-]|].
  destruct (exec_op s o) as [s1|] eqn:E; [|done]. cbn [mbind option_bind]. apply IH. eapply pruns_step; [exact Hr|].
  destruct o as [c t e q now al|mode now|now|]; cbn [exec_op op_label] in *.
  - case_bool_decide as Hc; [|done]. destruct Hc as (? & ? & ? & ? & ? & ? & ?). by econstructor.
  - eapply step_start. by apply success_Some.
  - eapply step_stop. by apply success_Some.
  - eapply step_clean. by apply success_Some.
Qed.

(** Two threads on two streams; the second one is freed where the first one runs. *)
Definition al (n : positive) : allocs := Allocs n n n.
Definition demo : list op :=
  [OpStart 1 100;
   OpEvent (ES 7 0) 11 THREAD_CREATE 0 110 (al 1); OpEvent (ES 7 0) 12 THREAD_CREATE 0 120 (al 2);
   OpEvent (ES 7 0) 11 THREAD_RUN 1 130 (al 3); OpEvent (ES 8 1) 12 THREAD_RUN 1 131 (al 4);
   OpEvent (ES 7 0) 11 THREAD_YIELD 1 140 (al 5); OpEvent (ES 8 1) 12 THREAD_YIELD 1 141 (al 6);
   OpEvent (ES 8 1) 12 THREAD_RUN 1 150 (al 7); OpEvent (ES 8 1) 12 THREAD_FINISH 1 160 (al 8);
   OpEvent (ES 7 0) 12 THREAD_FREE 1 170 (al 9); OpStop 200].
Definition demo_state : prof := default empty_prof (exec demo empty_prof).

Lemma demo_run : pruns (rev_append (op_label <$> demo) []) demo_state.
Proof.
  eapply exec_sound; [apply pruns_init|]. unfold demo_state. destruct (exec demo empty_prof) eqn:E; [reflexivity|].
  exfalso. assert (match exec demo empty_prof with Some _ => true | None => false end = true) as H by (vm_compute; reflexivity). by rewrite E in H.
Qed.



(** The callback of a stream whose rank is further than the table after one growth
    reads out of it. *)
Lemma far_rank_out_of_table s h r t e q now al mode :
  run_ok s -> len_p_xstreams s <= 2 ^ 29 -> arrays s !! new_array al = None -> room s <= r ->
  ABTXI_prof_thread_callback_impl s (ES h r) t e q now al mode = None.
Proof.
  intros [(xs & B & U & Hr & _) _ _] Hl Ha Hroom. unfold ABTXI_prof_thread_callback_impl, ABTXI_prof_get_xstream_info.
  rewrite (proj2 (Z.leb_le _ _)) by (unfold room in Hroom; lia).
  destruct (extend_xstreams_spec s xs (new_array al) Hr Ha Hl) as (s1 & -> & Hr1 & E & _). cbn [mbind option_bind].
  pose proof (rg_len _ _ Hr1) as Hlen. unfold table in Hlen. rewrite E in Hlen |- *. cbn in Hlen. cbn [p_xstreams with_table mbind option_bind].
  cbn [arrays with_table]. destruct (rg_tab _ _ Hr1 (new_array al)) as [[nx l] Hal]; [by rewrite E|]. rewrite Hal in Hlen |- *. cbn in Hlen.
  cbn [mbind option_bind]. rewrite (proj2 (lookup_ge_None _ _)); [reflexivity|]. unfold room in Hroom. lia.
Qed.

(** ** What the records count *)

(** The events since the last start or cleaning, of a stream and of all. *)
Fixpoint stream_count (r : Z) (e : event) (tr : list label) : Z :=
  match tr with
  | [] | Started :: _ | Cleaned :: _ => 0
  | Event c e' :: tr => (if decide (rank_of c = r /\ e' = e) then 1 else 0) + stream_count r e tr
  | _ :: tr => stream_count r e tr
  end.

Fixpoint total_count (e : event) (tr : list label) : Z :=
  match tr with
  | [] | Started :: _ | Cleaned :: _ => 0
  | Event _ e' :: tr => (if decide (e' = e) then 1 else 0) + total_count e tr
  | _ :: tr => total_count e tr
  end.

Lemma total_count_nonneg e tr : 0 <= total_count e tr.
Proof. induction tr as [|[]]; cbn; try lia. destruct (decide _); lia. Qed.

(** The counts of threads that the detailed mode keeps. *)
Inductive kind := Revivals | Yields | Suspensions.

Definition quantity (k : kind) : thread_data -> Z := match k with Revivals => num_revivals | Yields => num_yields | Suspensions => num_suspensions end.
Definition index (k : kind) : nat :=
  match k with Revivals => WU_COUNT_THREAD_NUM_REVIVALS | Yields => WU_COUNT_THREAD_NUM_YIELDS | Suspensions => WU_COUNT_THREAD_NUM_SUSPENSIONS end.
Definition kind_event (k : kind) : event := match k with Revivals => THREAD_REVIVE | Yields => THREAD_YIELD | Suspensions => THREAD_SUSPEND end.

#[export] Instance quantity_quantity k : Quantity (quantity k).
Proof. destruct k; apply _. Qed.

(** A field of a statistic, summed over the streams. *)
Definition xstat (field : wu -> Z) (n : nat) (xi : xstream_info) : Z := from_option field 0 (wu_counts (xd xi) !! n).
Definition xsum (field : wu -> Z) (n : nat) (s : prof) : Z := msum (xstat field n) (xinfos s).
Definition tsum (g : thread_data -> Z) (s : prof) : Z := msum (fun ti => g (td ti)) (tinfos s).

Definition wstat (field : wu -> Z) (n : nat) (v : xstream_data) : Z := from_option field 0 (wu_counts v !! n).

Lemma xstat_val field n s x : mval (xstat field n) (xinfos s) x = from_option (wstat field n) 0 (xdata s x).
Proof. unfold mval, xdata. by destruct (xinfos s !! x). Qed.

Lemma tsum_val g s i : mval (fun ti => g (td ti)) (tinfos s) i = tval g s i.
Proof. reflexivity. Qed.

Lemma merge_counts_lookup k t l : merge_counts t l !! index k = ABTXI_prof_wu_count_add (quantity k t) <$> l !! index k.
Proof.
  unfold merge_counts. destruct k; cbn; repeat (rewrite list_lookup_alter_ne; [|done]); rewrite list_lookup_alter_eq;
    repeat (rewrite list_lookup_alter_ne; [|done]); reflexivity.
Qed.

Lemma count_add_sum n w : sum (ABTXI_prof_wu_count_add n w) = u64 (sum w + u64 n) /\ cnt (ABTXI_prof_wu_count_add n w) = u64 (cnt w + 1).
Proof. unfold ABTXI_prof_wu_count_add. by destruct (_ =? 0). Qed.

(** An event counts in the thread record, for the kind it is of. *)
Lemma quantity_event k e t0 h now t : quantity k (thread_event e t0 h now t) = if decide (e = kind_event k) then i32 (quantity k t + 1) else quantity k t.
Proof. by destruct k, e. Qed.

(** The records against the trace. *)
Record counts_ok (tr : list label) (s : prof) : Prop := {
  co_events : forall x xi e, xinfos s !! x = Some xi -> rank xi ≠ -1 ->
    num_events (xd xi) !! event_index e = Some (u64 (stream_count (rank xi) e tr));
  co_unseen : forall r e, r ≠ -1 -> (forall x xi, xinfos s !! x = Some xi -> rank xi ≠ r) -> stream_count r e tr = 0;
  co_nonneg : forall k, prof_mode s = Profiling.ABTX_PROF_MODE_DETAILED -> total_count (kind_event k) tr < 2 ^ 31 ->
    (forall i, 0 <= tval (quantity k) s i) /\ (forall x, 0 <= mval (xstat sum (index k)) (xinfos s) x);
  co_sum : forall k, prof_mode s = Profiling.ABTX_PROF_MODE_DETAILED -> total_count (kind_event k) tr < 2 ^ 31 ->
    xsum sum (index k) s + tsum (quantity k) s = total_count (kind_event k) tr;
  co_cnt : forall k, prof_mode s = Profiling.ABTX_PROF_MODE_DETAILED -> total_count THREAD_FREE tr < 2 ^ 64 ->
    (forall x, 0 <= mval (xstat cnt (index k)) (xinfos s) x) /\ xsum cnt (index k) s = total_count THREAD_FREE tr
}.

Lemma counts_reset tr l s : (l = Started \/ l = Cleaned) -> clean_records s -> counts_ok (l :: tr) s.
Proof.
  intros Hl [Hx Ht].
  assert (forall e r, stream_count r e (l :: tr) = 0 /\ total_count e (l :: tr) = 0) as Hz by (intros; by destruct Hl as [-> | ->]).
  assert (forall x xi, xinfos s !! x = Some xi -> xd xi = zero_xstream_data) as Hxd.
  { intros x xi E. apply (Hx x). unfold xdata. by rewrite E. }
  assert (forall field n x, field zero_wu = 0 -> mval (xstat field n) (xinfos s) x = 0) as Hs.
  { intros field n x Hf. unfold mval. destruct (xinfos s !! x) as [xi|] eqn:E; [|reflexivity]. cbn. unfold xstat. rewrite (Hxd x xi E).
    cbn [wu_counts zero_xstream_data]. destruct (replicate WU_COUNT_END_ zero_wu !! n) as [w|] eqn:Ew; [|reflexivity].
    apply lookup_replicate in Ew as [-> _]. exact Hf. }
  assert (forall k i, tval (quantity k) s i = 0) as Hq.
  { intros k i. unfold tval. destruct (tinfos s !! i) as [ti|] eqn:E; [|reflexivity]. cbn. rewrite (Ht i ti E). by destruct k. }
  split.
  - intros x xi e E _. rewrite (Hxd x xi E), (proj1 (Hz e _)). by destruct e.
  - intros r e _ _. apply Hz.
  - intros k _ _. split; [intros i; by rewrite Hq|intros x; by rewrite Hs].
  - intros k _ _. rewrite (proj2 (Hz _ 0)). unfold xsum, tsum. rewrite msum_zero by (intros; by apply Hs). rewrite msum_zero; [reflexivity|]. intros i. apply (Hq k).
  - intros k _ _. rewrite (proj2 (Hz _ 0)). split; [intros x; by rewrite Hs|]. unfold xsum. by rewrite msum_zero by (intros; by apply Hs).
Qed.

(** A step that changes no record and is no event. *)
Lemma counts_same tr l s s' : (forall e r, stream_count r e (l :: tr) = stream_count r e tr) -> (forall e, total_count e (l :: tr) = total_count e tr) ->
  xinfos s' = xinfos s -> tinfos s' = tinfos s -> prof_mode s' = prof_mode s -> counts_ok tr s -> counts_ok (l :: tr) s'.
Proof.
  intros H1 H2 Hx Ht Hm [C1 C2 C3 C4 C5]. split.
  - intros x xi e. rewrite Hx, H1. apply C1.
  - intros r e. rewrite Hx, H1. apply C2.
  - intros k. rewrite Hm, H2, Hx. unfold tval. rewrite Ht. apply C3.
  - intros k. rewrite Hm, H2. unfold xsum, tsum. rewrite Hx, Ht. apply C4.
  - intros k. rewrite Hm, H2. unfold xsum. rewrite Hx. apply C5.
Qed.

Section event.
Context (tr : list label) (s s' : prof) (c : caller) (e : event) (x : positive) (v v' : xstream_data).
Context (Hok : prof_ok s) (Hok' : prof_ok s') (Hce : callback_effect s s' c e x v v') (Hco : counts_ok tr s).

Lemma event_data_ok : data_ok v.
Proof.
  rewrite (ce_old _ _ _ _ _ _ _ Hce). destruct (xdata s x) eqn:E; [|apply data_ok_zero]. destruct Hok as (? & ? & ? & _ & _ & Hd). by eapply Hd.
Qed.

(** Ranks of streams are distinct. *)
Lemma rank_unique y z yi zi : xinfos s' !! y = Some yi -> xinfos s' !! z = Some zi -> rank yi = rank zi -> rank yi ≠ -1 -> y = z.
Proof.
  destruct Hok' as (xs & B & U & Hr & _). intros Hy Hz E Hne.
  destruct (rg_rank _ _ Hr y yi Hy) as [?|(n & En & Hn)]; [done|]. destruct (rg_rank _ _ Hr z zi Hz) as [?|(m & Em & Hm)]; [congruence|].
  assert (n = m) as -> by lia. congruence.
Qed.

(** A record that was there is still there, with its rank. *)
Lemma record_kept y yi : xinfos s !! y = Some yi -> exists yi', xinfos s' !! y = Some yi' /\ rank yi' = rank yi.
Proof.
  intros Hy. pose proof (ce_data _ _ _ _ _ _ _ Hce y) as Hd. destruct (decide (y = x)) as [->|Hne].
  - destruct (ce_rank _ _ _ _ _ _ _ Hce) as (xi & Hx & E). exists xi. split; [exact Hx|]. by rewrite E, (ce_kept _ _ _ _ _ _ _ Hce yi Hy).
  - unfold xdata in Hd. rewrite Hy in Hd. destruct (xinfos s' !! y) as [yi'|] eqn:Hy'; [|done]. exists yi'. split; [reflexivity|].
    destruct (ce_ranks _ _ _ _ _ _ _ Hce y yi' Hy') as [?|(yi0 & E0 & <-)]; [done|]. congruence.
Qed.

Lemma event_streams y yi f : xinfos s' !! y = Some yi -> rank yi ≠ -1 ->
  num_events (xd yi) !! event_index f = Some (u64 (stream_count (rank yi) f (Event c e :: tr))).
Proof.
  intros Hy Hne. pose proof (ce_data _ _ _ _ _ _ _ Hce y) as Hd. unfold xdata in Hd. rewrite Hy in Hd. cbn [stream_count].
  destruct (decide (y = x)) as [->|Hyx].
  - cbn in Hd. injection Hd as Hd. rewrite Hd, (ce_events _ _ _ _ _ _ _ Hce).
    destruct (ce_rank _ _ _ _ _ _ _ Hce) as (xi & Hx & E). rewrite Hy in Hx. injection Hx as <-.
    assert (num_events v !! event_index f = Some (u64 (stream_count (rank yi) f tr))) as Hv.
    { rewrite (ce_old _ _ _ _ _ _ _ Hce). unfold xdata. destruct (xinfos s !! x) as [xi0|] eqn:Hx0.
      - cbn. rewrite E, <- (ce_kept _ _ _ _ _ _ _ Hce xi0 Hx0). apply (co_events _ _ Hco x xi0 f Hx0).
        rewrite (ce_kept _ _ _ _ _ _ _ Hce xi0 Hx0), <- E. exact Hne.
      - rewrite (co_unseen _ _ Hco); [by destruct f|exact Hne|]. intros z zi Hz Ez. destruct (record_kept z zi Hz) as (zi' & Hz' & Ez').
        assert (z = x) as -> by (eapply (rank_unique z x zi' yi Hz' Hy); congruence). congruence. }
    destruct (decide (e = f)) as [->|Hef].
    + rewrite list_lookup_alter_eq, Hv. cbn. rewrite decide_True by (by split; [symmetry|]). f_equal. unfold u64.
      rewrite Zplus_mod_idemp_l. f_equal. lia.
    + rewrite list_lookup_alter_ne by (intros H; by destruct e, f). rewrite Hv, decide_False by (by intros [_ ?]). reflexivity.
  - destruct (ce_ranks _ _ _ _ _ _ _ Hce y yi Hy) as [?|(yi0 & Hy0 & E0)]; [done|]. rewrite Hy0 in Hd. cbn in Hd. injection Hd as Hd.
    rewrite Hd, decide_False.
    + rewrite <- E0. apply (co_events _ _ Hco y yi0 f Hy0). congruence.
    + intros [Er _]. destruct (ce_rank _ _ _ _ _ _ _ Hce) as (xi & Hx & E). apply Hyx. eapply (rank_unique y x yi xi Hy Hx); congruence.
Qed.

Lemma event_unseen r f : r ≠ -1 -> (forall y yi, xinfos s' !! y = Some yi -> rank yi ≠ r) -> stream_count r f (Event c e :: tr) = 0.
Proof.
  intros Hr Hn. cbn [stream_count]. destruct (ce_rank _ _ _ _ _ _ _ Hce) as (xi & Hx & E). rewrite decide_False.
  - rewrite (co_unseen _ _ Hco); [reflexivity|exact Hr|]. intros y yi Hy. destruct (record_kept y yi Hy) as (yi' & Hy' & <-). by apply (Hn y).
  - intros [Er _]. apply (Hn x xi Hx). congruence.
Qed.

Lemma stat_other field n y : y ≠ x -> mval (xstat field n) (xinfos s') y = mval (xstat field n) (xinfos s) y.
Proof. intros Hy. by rewrite !xstat_val, (ce_data _ _ _ _ _ _ _ Hce y), decide_False. Qed.

Lemma stat_new field n : mval (xstat field n) (xinfos s') x = wstat field n v'.
Proof. by rewrite xstat_val, (ce_data _ _ _ _ _ _ _ Hce x), decide_True. Qed.

Lemma stat_old field n : field zero_wu = 0 -> mval (xstat field n) (xinfos s) x = wstat field n v.
Proof.
  intros Hf. rewrite xstat_val, (ce_old _ _ _ _ _ _ _ Hce). destruct (xdata s x); [reflexivity|]. cbn. unfold wstat.
  cbn [wu_counts zero_xstream_data]. destruct (replicate WU_COUNT_END_ zero_wu !! n) as [w|] eqn:Ew; [|reflexivity].
  apply lookup_replicate in Ew as [-> _]. cbn. lia.
Qed.

Lemma stat_merge k t : exists w, wu_counts v !! index k = Some w /\
  merge_counts t (wu_counts v) !! index k = Some (ABTXI_prof_wu_count_add (quantity k t) w).
Proof.
  destruct (lookup_lt_is_Some_2 (wu_counts v) (index k)) as [w Hw].
  { rewrite (do_counts _ event_data_ok). destruct k; vm_compute; lia. }
  exists w. split; [exact Hw|]. by rewrite merge_counts_lookup, Hw.
Qed.

Lemma event_kind k : prof_mode s' = Profiling.ABTX_PROF_MODE_DETAILED -> total_count (kind_event k) (Event c e :: tr) < 2 ^ 31 ->
  (forall i, 0 <= tval (quantity k) s' i) /\ (forall x, 0 <= mval (xstat sum (index k)) (xinfos s') x) /\
  xsum sum (index k) s' + tsum (quantity k) s' = total_count (kind_event k) (Event c e :: tr).
Proof.
  rewrite (ce_mode _ _ _ _ _ _ _ Hce). intros Hm Hlt. cbn [total_count] in *. pose proof (total_count_nonneg (kind_event k) tr) as Htn.
  assert (total_count (kind_event k) tr < 2 ^ 31) as Hlt0 by (destruct (decide _); lia).
  destruct (co_nonneg _ _ Hco k Hm Hlt0) as [Hti Hxi]. pose proof (co_sum _ _ Hco k Hm Hlt0) as Hsum.
  pose proof (ce_counts _ _ _ _ _ _ _ Hce) as Hc. rewrite decide_True in Hc by exact Hm. destruct Hc as (i & t0 & Hi & Hw & h & now & Hq).
  specialize (Hi (quantity k) _). specialize (Hq (quantity k) _).
  assert (0 <= quantity k t0) as Ht0 by (rewrite <- Hi; apply Hti).
  pose proof (msum_ge (fun ti => quantity k (td ti)) (tinfos s) i Hti) as Hle. rewrite (tsum_val (quantity k) s i), Hi in Hle.
  change (msum (fun ti => quantity k (td ti)) (tinfos s)) with (tsum (quantity k) s) in Hle.
  pose proof (msum_nonneg (xstat sum (index k)) (xinfos s) Hxi) as Hxn. fold (xsum sum (index k) s) in Hxn.
  pose proof (msum_ge (xstat sum (index k)) (xinfos s) x Hxi) as Hxle. fold (xsum sum (index k) s) in Hxle.
  rewrite (stat_old sum (index k) eq_refl) in Hxle. pose proof (Hxi x) as Hvx. rewrite (stat_old sum (index k) eq_refl) in Hvx.
  assert (tsum (quantity k) s' = tsum (quantity k) s - quantity k t0 + tval (quantity k) s' i) as Hts.
  { unfold tsum. rewrite (msum_change _ (tinfos s) (tinfos s') i), (tsum_val (quantity k) s i), Hi; [reflexivity|].
    intros j Hj. change (tval (quantity k) s' j = tval (quantity k) s j). by rewrite Hq, decide_False. }
  assert (xsum sum (index k) s' = xsum sum (index k) s - wstat sum (index k) v + wstat sum (index k) v') as Hxs.
  { unfold xsum. rewrite (msum_change _ (xinfos s) (xinfos s') x) by (intros; by apply stat_other). by rewrite stat_old, stat_new. }
  pose proof (Hq i) as Hqi. rewrite decide_True in Hqi by reflexivity.
  assert (wstat sum (index k) v' = wstat sum (index k) v + (if decide (e = THREAD_FREE) then quantity k t0 else 0)) as Hwv.
  { unfold wstat. rewrite Hw. destruct (decide (e = THREAD_FREE)); [|lia]. destruct (stat_merge k t0) as (w & Hw0 & Hw1). rewrite Hw0, Hw1. cbn.
    rewrite (proj1 (count_add_sum _ _)). unfold wstat in Hxle, Hvx. rewrite Hw0 in Hxle, Hvx. cbn in Hxle, Hvx.
    rewrite (u64_id (quantity k t0)) by (unfold is_u64; lia). apply u64_id. unfold is_u64. lia. }
  assert (tval (quantity k) s' i = (if decide (e = THREAD_FREE) then 0 else quantity k t0) + (if decide (e = kind_event k) then 1 else 0)) as Hti'.
  { rewrite Hqi. destruct (decide (e = THREAD_FREE)) as [->|]; [rewrite decide_False by (by destruct k); reflexivity|]. rewrite quantity_event.
    destruct (decide (e = kind_event k)); [|lia]. apply i32_id. lia. }
  split; [|split].
  - intros j. destruct (decide (j = i)) as [->|Hj]; [rewrite Hti'; destruct (decide (e = THREAD_FREE)), (decide (e = kind_event k)); lia|]. rewrite Hq, decide_False by exact Hj. apply Hti.
  - intros y. destruct (decide (y = x)) as [->|Hy]; [rewrite stat_new, Hwv; destruct (decide (e = THREAD_FREE)); lia|]. rewrite stat_other by exact Hy. apply Hxi.
  - rewrite Hts, Hxs, Hwv, Hti'. destruct (decide (e = THREAD_FREE)); lia.
Qed.

Lemma event_cnt k : prof_mode s' = Profiling.ABTX_PROF_MODE_DETAILED -> total_count THREAD_FREE (Event c e :: tr) < 2 ^ 64 ->
  (forall x, 0 <= mval (xstat cnt (index k)) (xinfos s') x) /\ xsum cnt (index k) s' = total_count THREAD_FREE (Event c e :: tr).
Proof.
  rewrite (ce_mode _ _ _ _ _ _ _ Hce). intros Hm Hlt. cbn [total_count] in *. pose proof (total_count_nonneg THREAD_FREE tr) as Htn.
  assert (total_count THREAD_FREE tr < 2 ^ 64) as Hlt0 by (destruct (decide _); lia).
  destruct (co_cnt _ _ Hco k Hm Hlt0) as [Hxi Hsum].
  pose proof (ce_counts _ _ _ _ _ _ _ Hce) as Hc. rewrite decide_True in Hc by exact Hm. destruct Hc as (i & t0 & _ & Hw & _).
  pose proof (msum_ge (xstat cnt (index k)) (xinfos s) x Hxi) as Hxle. fold (xsum cnt (index k) s) in Hxle.
  rewrite (stat_old cnt (index k) eq_refl) in Hxle. pose proof (Hxi x) as Hvx. rewrite (stat_old cnt (index k) eq_refl) in Hvx.
  assert (xsum cnt (index k) s' = xsum cnt (index k) s - wstat cnt (index k) v + wstat cnt (index k) v') as Hxs.
  { unfold xsum. rewrite (msum_change _ (xinfos s) (xinfos s') x) by (intros; by apply stat_other). by rewrite stat_old, stat_new. }
  assert (wstat cnt (index k) v' = wstat cnt (index k) v + (if decide (e = THREAD_FREE) then 1 else 0)) as Hwv.
  { unfold wstat. rewrite Hw. destruct (decide (e = THREAD_FREE)); [|lia]. destruct (stat_merge k t0) as (w & Hw0 & Hw1). rewrite Hw0, Hw1. cbn.
    rewrite (proj2 (count_add_sum _ _)). unfold wstat in Hxle, Hvx. rewrite Hw0 in Hxle, Hvx. cbn in Hxle, Hvx. apply u64_id. unfold is_u64. lia. }
  split; [|rewrite Hxs, Hwv; lia]. intros y. destruct (decide (y = x)) as [->|Hy]; [rewrite stat_new, Hwv; destruct (decide (e = THREAD_FREE)); lia|].
  rewrite stat_other by exact Hy. apply Hxi.
Qed.

Lemma counts_event : counts_ok (Event c e :: tr) s'.
Proof.
  split.
  - exact (fun y yi f => event_streams y yi f).
  - exact event_unseen.
  - intros k Hm Hlt. by destruct (event_kind k Hm Hlt) as (? & ? & _).
  - intros k Hm Hlt. by destruct (event_kind k Hm Hlt) as (_ & _ & ?).
  - exact event_cnt.
Qed.
End event.

Lemma pruns_counts tr s : pruns tr s -> counts_ok tr s.
Proof.
  induction 1 as [|tr s l s' Hrun IH Hstep].
  { split; by intros. }
  pose proof (pruns_ok tr s Hrun) as Hok. destruct Hstep as [c t e q now al s' Hr Ht Hq Hf Hfr E|mode now s' E|now s' E|s' E|t Hg].
  - destruct (callback_spec s c t e q now al (ro_prof _ Hok) Hr Ht Hq Hf Hfr) as (s2 & x & v & v' & E2 & Hok2 & Hce).
    rewrite E in E2. injection E2 as <-. exact (counts_event tr s s' c e x v v' (ro_prof _ Hok) Hok2 Hce IH).
  - pose proof (prof_start_spec s mode now Hok) as Hsp. destruct (decide _); [by rewrite Hsp in E|].
    destruct Hsp as (s2 & E2 & _ & Hcl & _). rewrite E in E2. injection E2 as <-. apply counts_reset; [by left|exact Hcl].
  - pose proof (stop_spec s now Hok) as Hsp. destruct (decide _); [|by rewrite Hsp in E].
    destruct Hsp as (s2 & E2 & _ & _ & ->). rewrite E in E2. injection E2 as ->. apply (counts_same tr Stopped s); [by intros|by intros|reflexivity..|exact IH].
  - pose proof (clean_spec s Hok) as Hsp. destruct (decide _); [|by rewrite Hsp in E].
    destruct Hsp as (s2 & E2 & _ & _ & Hcl & _). rewrite E in E2. injection E2 as <-. apply counts_reset; [by right|exact Hcl].
  - apply (counts_same tr (Gone t) s); [by intros|by intros|reflexivity..|exact IH].
Qed.
