(* ===== verification/AbtxPrint.v ===== *)
(** * What the profiler prints (src/abtx_prof.h)

    Reading the records of all streams, the statistics reduced from them, and the
    values of the tables.  A quotient of doubles that is infinite or not a number
    is [None]; AbtxText has the layout of the text. *)

From Stdlib Require Import QArith.
From stdpp Require Import strings pretty.
From S2P Require Import Prelude AbtxProf AbtxInv AbtxRuns.
From S2P Require Profiling.

#[local] Open Scope Z_scope.
#[local] Opaque block_infos infos_of.

(** ** Reading the records *)

(** The ranks that have a record, in order, with their records. *)
Fixpoint ranked (r : Z) (l : list (option positive)) : list (Z * positive) :=
  match l with
  | [] => []
  | Some x :: l => (r, x) :: ranked (r + 1) l
  | None :: l => ranked (r + 1) l
  end.

Definition collect_ranks (s : prof) : option (list (Z * positive)) :=
  if len_p_xstreams s <=? 0 then Some []
  else a ← p_xstreams s; '(_, l) ← arrays s !! a; Some (ranked 0 (take (Z.to_nat (len_p_xstreams s)) l)).

(** The records of threads outside of Argobots, in the order of the list. *)
Fixpoint external_threads (fuel : nat) (s : prof) (p : option positive) : option (list positive) :=
  match p with
  | None => Some []
  | Some x =>
      match fuel with
      | O => None
      | S fuel =>
          xi ← xinfos s !! x;
          l ← external_threads fuel s (p_next xi);
          Some (if rank xi =? -1 then x :: l else l)
      end
  end.

Definition read_tags (s : prof) (xs : list positive) : option (list Z) := mapM (fun x => tag <$> xinfos s !! x) xs.

(** Reducing the threads of a stream. *)
Fixpoint merge_threads (fuel : nat) (s : prof) (p : option addr) (out : xstream_data) : option xstream_data :=
  match p with
  | None => Some out
  | Some i =>
      match fuel with
      | O => None
      | S fuel => ti ← tinfos s !! i; merge_threads fuel s (p_next_all ti) (ABTXI_prof_merge_thread_data out (td ti) 0)
      end
  end.

(** The adjustment of the time of one level. *)
Definition adjust_elapsed (s : prof) (xi : xstream_info) (i : nat) (last el : Z) : Z :=
  if (last =? 0) && (Z.of_nat i <? cur_depth (xd xi)) then i64 (el + i64 (stop_prof_time s - start_prof_time s))
  else if negb (last =? 0) && negb (last =? ABTXI_PROF_TIME_LAST_RUN_INVALID) then i64 (el + i64 (stop_prof_time s - last))
  else el.

Fixpoint adjust_all (s : prof) (xi : xstream_info) (i : nat) (lasts els : list Z) : list Z :=
  match lasts, els with
  | last :: lasts, el :: els => adjust_elapsed s xi i last el :: adjust_all s xi (S i) lasts els
  | _, _ => []
  end.

(** It tests the depth of the result, not the one of the stream. *)
Definition elapsed_of (s : prof) (xi : xstream_info) (out : xstream_data) : list Z :=
  if negb (rank xi =? -1) then
    if cur_depth out =? 0 then <[0%nat := i64 (stop_prof_time s - start_prof_time s)]> (times_elapsed (xd xi))
    else adjust_all s xi 0 (times_last_run (xd xi)) (times_elapsed (xd xi))
  else times_elapsed (xd xi).

Definition add64 (l1 l2 : list Z) : list Z := zip_with (fun a b => i64 (a + b)) l1 l2.
Definition add_u64 (l1 l2 : list Z) : list Z := zip_with (fun a b => u64 (a + b)) l1 l2.

Definition ABTXI_prof_merge_xstream_info (s : prof) (x : positive) (out : xstream_data) : option xstream_data :=
  xi ← xinfos s !! x;
  out ← merge_threads (size (tinfos s)) s (p_thread_all xi) out;
  Some (XData (cur_depth out)
    (add_u64 (num_events out) (num_events (xd xi)))
    (add64 (times_last_run out) (times_last_run (xd xi)))
    (add64 (times_elapsed out) (elapsed_of s xi out))
    (zip_with ABTXI_prof_wu_time_merge (wu_times (xd xi)) (wu_times out))
    (zip_with ABTXI_prof_wu_count_merge (wu_counts (xd xi)) (wu_counts out))).

(** Into the summary at an index of the array of summaries. *)
Definition merge_at (s : prof) (x : positive) (n : nat) (sums : list xstream_data) : option (list xstream_data) :=
  out ← sums !! n; v ← ABTXI_prof_merge_xstream_info s x out; Some (<[n := v]> sums).

Fixpoint merge_ranks (s : prof) (n : nat) (xs : list positive) (sums : list xstream_data) : option (list xstream_data) :=
  match xs with [] => Some sums | x :: xs => sums ← merge_at s x n sums; merge_ranks s (S n) xs sums end.

Fixpoint merge_external (s : prof) (n : nat) (xs : list positive) (sums : list xstream_data) : option (list xstream_data) :=
  match xs with [] => Some sums | x :: xs => sums ← merge_at s x n sums; merge_external s n xs sums end.

(** One pass of the loop: the tags are read in [s1], the data in [s2], and the tags
    again in [s3]; the last result is whether it failed. *)
Definition read_pass (s1 s2 s3 : prof) : option (list Z * list xstream_data * bool) :=
  rs ← collect_ranks s1;
  ext ← external_threads (size (xinfos s1)) s1 (p_xstream_info_head s1);
  prev_tags ← read_tags s1 (rs.*2 ++ ext);
  let num_ranks := length rs in
  sums ← merge_ranks s2 0 (rs.*2) (replicate (num_ranks + 1) zero_xstream_data);
  sums ← merge_external s2 (num_ranks + 1) ext sums;
  tags ← read_tags s3 (rs.*2 ++ ext);
  Some (rs.*1, sums, negb (bool_decide (prev_tags = tags))).

(** The loop, on the states that its passes find; [None] as well when all fail. *)
Fixpoint read_loop (obs : list (prof * prof * prof)) : option (list Z * list xstream_data) :=
  match obs with
  | [] => None
  | (s1, s2, s3) :: obs => '(rs, sums, fail) ← read_pass s1 s2 s3; if fail : bool then read_loop obs else Some (rs, sums)
  end.

(** The statistics over the streams of Argobots: the first [num_ranks] summaries. *)
Definition reduce_times (l : list xstream_data) : list wu :=
  foldl (fun acc v => zip_with ABTXI_prof_wu_time_merge (wu_times v) acc) (replicate WU_TIME_END_ zero_wu) l.
Definition reduce_counts (l : list xstream_data) : list wu :=
  foldl (fun acc v => zip_with ABTXI_prof_wu_count_merge (wu_counts v) acc) (replicate WU_COUNT_END_ zero_wu) l.

(** ** Tables *)

Definition ABTXI_get_prof_event_name (e : nat) : string :=
  match e with
  | 0 => "ULT/create" | 1 => "ULT/join" | 2 => "ULT/free" | 3 => "ULT/revive" | 4 => "ULT/run"
  | 5 => "ULT/finish" | 6 => "ULT/cancel" | 7 => "ULT/yield" | 8 => "ULT/suspend" | 9 => "ULT/resume" | _ => "ERR"
  end%nat.
Definition ABTXI_get_prof_wu_time_name (n : nat) : string :=
  match n with
  | 0 => "ULT/elapsed" | 1 => "ULT/T_firstrun-T_create" | 2 => "ULT/T_lastfinish-T_firstrun"
  | 3 => "ULT/T_lastfinish-T_create" | 4 => "ULT/T_free-T_create" | _ => "ERR"
  end%nat.
Definition ABTXI_get_prof_wu_count_name (n : nat) : string :=
  match n with 0 => "ULT/revive" | 1 => "ULT/yield" | 2 => "ULT/suspend" | 3 => "ULT/ES-change" | _ => "ERR" end%nat.

Record data_table := DataTable { column_names : list string; rows : list (string * list (option Q)) }.

Definition es_name (r : Z) : string := "ES-" +:+ pretty r.

(** Arithmetic of doubles. *)
Definition num (z : Z) : option Q := Some (inject_Z z).
Definition fmul (a b : option Q) : option Q := x ← a; y ← b; Some (x * y)%Q.
Definition fadd (a b : option Q) : option Q := x ← a; y ← b; Some (x + y)%Q.
Definition fdiv (a b : option Q) : option Q := x ← a; y ← b; if Qeq_bool y 0 then None else Some (x / y)%Q.
(** [ABTXI_prof_div_s] on doubles, and on the integers of a time and a count. *)
Definition ABTXI_prof_div_s (a b : option Q) : option Q := y ← b; if Qeq_bool y 0 then num 0 else fdiv a b.
Definition div_int (a b : Z) : Z := if b =? 0 then 0 else u64 a / b.

Definition nth_event (v : xstream_data) (n : nat) : Z := default 0 (num_events v !! n).
Definition nth_elapsed (v : xstream_data) (n : nat) : Z := default 0 (times_elapsed v !! n).
Definition nth_wu (l : list wu) (n : nat) : wu := default zero_wu (l !! n).

(** ABTX_PRINT_MODE_RAW: the events and times of each stream, and the statistics. *)
Definition raw_streams (rs : list Z) (sums : list xstream_data) : data_table :=
  DataTable ((es_name <$> rs) ++ ["Ext"%string])
    (map (fun j => (("# of events of " +:+ ABTXI_get_prof_event_name j)%string, (fun v => num (nth_event v j)) <$> sums)) (seq 0 ABTXI_PROF_EVENT_END_)
     ++ map (fun j => (("Level " +:+ pretty j +:+ " elapsed (approx.) [HW cycles]")%string, (fun v => num (nth_elapsed v j)) <$> sums))
          (seq 0 (Z.to_nat ABTXI_PROF_MAX_DEPTH))).

Definition raw_threads (sums : list xstream_data) : data_table :=
  let times := reduce_times sums in
  let counts := reduce_counts sums in
  DataTable ["Sum"; "Avg"; "Min"; "Max"]%string
    (map (fun j => let w := nth_wu times j in
       (ABTXI_get_prof_wu_time_name j, [num (sum w); num (div_int (sum w) (cnt w)); num (min_val w); num (max_val w)])) (seq 0 WU_TIME_END_)
     ++ map (fun j => let w := nth_wu counts j in
       (("# of events of " +:+ ABTXI_get_prof_wu_count_name j)%string,
        [num (sum w); ABTXI_prof_div_s (num (sum w)) (num (cnt w)); num (min_val w); num (max_val w)])) (seq 0 WU_COUNT_END_)).

(** ABTX_PRINT_MODE_SUMMARY, which Margo asks for: a row that gives a value per
    stream and their average. *)
Definition average (l : list (option Q)) : option Q :=
  foldl (fun acc q => fadd acc (fdiv q (num (Z.of_nat (length l))))) (num 0) l.
Definition averaged (name : string) (f : xstream_data -> option Q) (streams : list xstream_data) : string * list (option Q) :=
  (name, average (f <$> streams) :: (f <$> streams)).

Section summary.
Context (to_sec : Q).

Definition elapsed_time (s : prof) : option Q := Some (inject_Z (i64 (stop_prof_time s - start_prof_time s)) * to_sec)%Q.

(** [streams] are the summaries of the streams, without the last one. *)
Definition summary_streams (s : prof) (rs : list Z) (streams : list xstream_data) : data_table :=
  let finishes v := num (i32 (nth_event v (event_index THREAD_FINISH))) in
  let elapsed v := Some (inject_Z (nth_elapsed v 1) * to_sec)%Q in
  DataTable ("Average"%string :: (es_name <$> rs))
    [averaged "Approx. ULT granularity [s]" (fun v => ABTXI_prof_div_s (elapsed v) (finishes v)) streams;
     averaged "Approx. ULT throughput [/s]" (fun v => ABTXI_prof_div_s (finishes v) (elapsed_time s)) streams;
     averaged "Approx. non-main scheduling ratio [%]" (fun v => fmul (fdiv (elapsed v) (elapsed_time s)) (num 100)) streams;
     averaged "# of events of ULT/yield [/s]" (fun v => fdiv (num (nth_event v (event_index THREAD_YIELD))) (elapsed_time s)) streams;
     averaged "# of events of ULT/suspend [/s]" (fun v => fdiv (num (nth_event v (event_index THREAD_SUSPEND))) (elapsed_time s)) streams].

(** The created threads, by the streams and from outside. *)
Definition created_row (sums : list xstream_data) : list (option Q) :=
  let l := (fun v => num (nth_event v (event_index THREAD_CREATE))) <$> sums in foldl fadd (num 0) l :: l.

Definition summary_created (s : prof) (rs : list Z) (sums : list xstream_data) : data_table :=
  DataTable ("Sum"%string :: (es_name <$> rs) ++ ["Ext"%string])
    [("# of created ULTs"%string, created_row sums);
     ("# of created ULTs [/s]"%string, (fun q => fdiv q (elapsed_time s)) <$> created_row sums)].

Definition time_row (name : string) (w : wu) : string * list (option Q) :=
  (name, [Some (inject_Z (div_int (sum w) (cnt w)) * to_sec)%Q; Some (inject_Z (min_val w) * to_sec)%Q; Some (inject_Z (max_val w) * to_sec)%Q]).
Definition count_row (name : string) (w : wu) : string * list (option Q) :=
  (name, [ABTXI_prof_div_s (num (sum w)) (num (cnt w)); num (min_val w); num (max_val w)]).

Definition summary_threads (streams : list xstream_data) : data_table :=
  let times := reduce_times streams in
  let counts := reduce_counts streams in
  DataTable ["Avg"; "Min"; "Max"]%string
    [time_row "ULT execution time [s]" (nth_wu times WU_TIME_THREAD_ELAPSED);
     count_row "# of yield events per ULT" (nth_wu counts WU_COUNT_THREAD_NUM_YIELDS);
     count_row "# of suspend events per ULT" (nth_wu counts WU_COUNT_THREAD_NUM_SUSPENSIONS);
     count_row "# of execution stream changes per ULT" (nth_wu counts WU_COUNT_THREAD_NUM_XSTREAM_CHANGES);
     time_row "Active time per ULT (last finish time - first execution time) [s]" (nth_wu times WU_TIME_THREAD_FIRST_RUN_LAST_FINISH);
     time_row "Execution delay per ULT (first execution time - creation time) [s]" (nth_wu times WU_TIME_THREAD_CREATE_FIRST_RUN);
     time_row "Completion time per ULT (last finish time - creation time) [s]" (nth_wu times WU_TIME_THREAD_CREATE_LAST_FINISH);
     time_row "Lifetime per ULT (free time - create time) [s]" (nth_wu times WU_TIME_THREAD_CREATE_FREE)].

(** ABTX_PRINT_MODE_*: the tables that are printed. *)
Definition ABTX_PRINT_MODE_RAW : Z := 1.
Definition ABTX_PRINT_MODE_SUMMARY : Z := 2.

Definition ABTXI_prof_print_xstream_info (s : prof) (obs : list (prof * prof * prof)) (print_mode : Z) : option (list data_table) :=
  '(rs, sums) ← read_loop obs;
  let streams := take (length rs) sums in
  Some (if Z.testbit print_mode 0 then
          raw_streams rs sums :: (if prof_mode s =? Profiling.ABTX_PROF_MODE_DETAILED then [raw_threads streams] else [])
        else if Z.testbit print_mode 1 then
          summary_streams s rs streams :: summary_created s rs sums ::
            (if prof_mode s =? Profiling.ABTX_PROF_MODE_DETAILED then [summary_threads streams] else [])
        else []).

Definition ABTX_prof_print (context : option prof) (obs : list (prof * prof * prof)) (print_mode : Z) : option (abt_ret * list data_table) :=
  match context with
  | None => Some (ABT_ERR_OTHER, [])
  | Some s =>
      if negb (state s =? ABTXI_PROF_GLOBAL_STATE_STOPPED) then Some (ABT_ERR_OTHER, [])
      else t ← ABTXI_prof_print_xstream_info s obs print_mode; Some (ABT_SUCCESS, t)
  end.
End summary.

(** ** Lemmas on the reductions *)

Definition zsum {A} (f : A -> Z) (l : list A) : Z := foldr (fun a n => f a + n) 0 l.

Lemma zsum_app {A} (f : A -> Z) l1 l2 : zsum f (l1 ++ l2) = zsum f l1 + zsum f l2.
Proof. unfold zsum. induction l1 as [|a l1 IH]; cbn; [reflexivity|]. rewrite IH. lia. Qed.

Lemma zsum_bind {A B} (g : B -> Z) (F : A -> list B) l : zsum g (l ≫= F) = zsum (fun x => zsum g (F x)) l.
Proof. induction l as [|a l IH]; [reflexivity|]. rewrite bind_cons, zsum_app. cbn. by rewrite IH. Qed.

Lemma zsum_ext {A} (f g : A -> Z) l : (forall a, a ∈ l -> f a = g a) -> zsum f l = zsum g l.
Proof.
  intros He. induction l as [|a l IH]; [reflexivity|]. cbn. rewrite (He a) by (apply elem_of_cons; by left). f_equal. apply IH. intros b Hb.
  apply He. apply elem_of_cons. by right.
Qed.

Lemma zsum_plus {A} (f g : A -> Z) l : zsum (fun a => f a + g a) l = zsum f l + zsum g l.
Proof. induction l as [|a l IH]; cbn; [reflexivity|]. fold (zsum f l) (zsum g l) (zsum (fun a => f a + g a) l). rewrite IH. lia. Qed.

Lemma zsum_const {A} (c : Z) (l : list A) : zsum (fun _ => c) l = c * Z.of_nat (length l).
Proof. induction l as [|a l IH]; cbn [zsum foldr length]; [lia|]. fold (zsum (fun _ : A => c) l). rewrite IH. lia. Qed.

(** The two fields that reductions add up. *)
Class Additive (field : wu -> Z) : Prop := { add_merge : forall src dest, field (ABTXI_prof_wu_count_merge src dest) = u64 (field dest + field src) }.

#[export] Instance sum_additive : Additive sum.
Proof. split. intros src dest. unfold ABTXI_prof_wu_count_merge. by destruct (cnt dest =? 0), (cnt src =? 0). Qed.
#[export] Instance cnt_additive : Additive cnt.
Proof. split. intros src dest. unfold ABTXI_prof_wu_count_merge. by destruct (cnt dest =? 0), (cnt src =? 0). Qed.

(** Threads one after the other into one summary. *)
Lemma merge_threads_spec l : forall fuel s p out, chain (tinfos s) p_next_all p l -> (length l <= fuel)%nat ->
  exists out', merge_threads fuel s p out = Some out' /\ num_events out' = num_events out /\ cur_depth out' = cur_depth out /\
    times_last_run out' = times_last_run out /\ times_elapsed out' = times_elapsed out /\
    length (wu_counts out') = length (wu_counts out) /\
    forall k w, wu_counts out !! index k = Some w -> is_u64 (sum w) -> is_u64 (cnt w) ->
      exists w', wu_counts out' !! index k = Some w' /\ sum w' = u64 (sum w + zsum (tval (quantity k) s) l) /\
        cnt w' = u64 (cnt w + Z.of_nat (length l)).
Proof.
  induction l as [|i l IH]; intros fuel s p out Hc Hf.
  { cbn in Hc. subst p. exists out. split; [by destruct fuel|]. split_and!; try reflexivity. intros k w Hw Hs Hn. exists w. cbn.
    rewrite !Z.add_0_r, !u64_id by assumption. done. }
  destruct Hc as (-> & ti & Hi & Hc). destruct fuel as [|fuel]; [cbn in Hf; lia|]. cbn [merge_threads]. rewrite Hi. cbn [mbind option_bind].
  destruct (IH fuel s (p_next_all ti) (ABTXI_prof_merge_thread_data out (td ti) 0) Hc) as (out' & -> & E1 & E2 & E3 & E4 & E5 & Hk); [cbn in Hf; lia|].
  exists out'. split; [reflexivity|]. split_and!; try assumption; [etrans; [exact E5|apply merge_counts_length]|].
  intros k w Hw Hs Hn. destruct (count_add_sum (quantity k (td ti)) w) as [Ea En].
  destruct (Hk k (ABTXI_prof_wu_count_add (quantity k (td ti)) w)) as (w' & Hw' & Es & Ec).
  { unfold ABTXI_prof_merge_thread_data. cbn [wu_counts]. by rewrite merge_counts_lookup, Hw. }
  { rewrite Ea. apply u64_range. } { rewrite En. apply u64_range. }
  exists w'. split; [exact Hw'|]. rewrite Es, Ec, Ea, En, !u64_add_l. split.
  - cbn [zsum foldr]. fold (zsum (tval (quantity k) s) l). unfold tval at 2. rewrite Hi. cbn [from_option]. unfold u64 at 1.
    rewrite <- (Zplus_mod_idemp_l (sum w + u64 _)), <- (Zplus_mod_idemp_r (u64 _)). unfold u64 at 1. rewrite Zmod_mod.
    rewrite Zplus_mod_idemp_r, Zplus_mod_idemp_l. unfold u64. f_equal. lia.
  - f_equal. cbn [length]. lia.
Qed.

(** The summary of a stream, from nothing. *)
Definition summary_of (s : prof) (x : positive) (l : list addr) (v : xstream_data) : Prop :=
  (forall e, num_events v !! event_index e = (fun n => u64 n) <$> (xi ← xinfos s !! x; num_events (xd xi) !! event_index e)) /\
  length (wu_counts v) = WU_COUNT_END_ /\
  forall k, exists w, wu_counts v !! index k = Some w /\
    sum w = u64 (zsum (tval (quantity k) s) l + mval (xstat sum (index k)) (xinfos s) x) /\
    cnt w = u64 (Z.of_nat (length l) + mval (xstat cnt (index k)) (xinfos s) x).

Lemma merge_xstream_info_spec s x xi l :
  xinfos s !! x = Some xi -> data_ok (xd xi) -> chain (tinfos s) p_next_all (p_thread_all xi) l -> NoDup l ->
  exists v, ABTXI_prof_merge_xstream_info s x zero_xstream_data = Some v /\ summary_of s x l v.
Proof.
  intros Hx Hd Hc Hnd. unfold ABTXI_prof_merge_xstream_info. rewrite Hx. cbn [mbind option_bind].
  destruct (merge_threads_spec l (size (tinfos s)) s (p_thread_all xi) zero_xstream_data Hc) as (out & -> & E1 & E2 & E3 & E4 & E5 & Hk);
    [by eapply chain_length_size|]. cbn [mbind option_bind]. eexists. split; [reflexivity|]. split; [|split].
  - intros e. rewrite Hx. cbn [num_events]. cbn [mbind option_bind]. rewrite E1. unfold add_u64. rewrite lookup_zip_with.
    assert (num_events zero_xstream_data !! event_index e = Some 0) as -> by (by destruct e). cbn [mbind option_bind].
    destruct (num_events (xd xi) !! event_index e); reflexivity.
  - cbn [wu_counts]. rewrite length_zip_with, E5, (do_counts _ Hd). reflexivity.
  - intros k. cbn [wu_counts]. destruct (Hk k zero_wu) as (w & Hw & Es & Ec); [by destruct k|done|done|].
    destruct (lookup_lt_is_Some_2 (wu_counts (xd xi)) (index k)) as [w0 Hw0]; [rewrite (do_counts _ Hd); destruct k; vm_compute; lia|].
    exists (ABTXI_prof_wu_count_merge w0 w). split; [by rewrite lookup_zip_with, Hw0, Hw|].
    rewrite (@add_merge sum _), (@add_merge cnt _), Es, Ec, !u64_add_l. unfold mval. rewrite Hx. cbn. unfold xstat. rewrite Hw0. cbn. done.
Qed.

(** Reducing the summaries. *)
Lemma reduce_counts_spec (streams : list xstream_data) k field : Additive field ->
  (forall v, v ∈ streams -> length (wu_counts v) = WU_COUNT_END_) -> field zero_wu = 0 ->
  field (nth_wu (reduce_counts streams) (index k)) = u64 (zsum (wstat field (index k)) streams).
Proof.
  intros Hf Hl Hz.
  assert (forall streams acc w, (forall v, v ∈ streams -> length (wu_counts v) = WU_COUNT_END_) -> acc !! index k = Some w -> is_u64 (field w) ->
    exists w', foldl (fun acc v => zip_with ABTXI_prof_wu_count_merge (wu_counts v) acc) acc streams !! index k = Some w' /\
      field w' = u64 (field w + zsum (wstat field (index k)) streams)) as Hind.
  { clear Hl streams. intros streams. induction streams as [|v streams IH]; intros acc w Hl Hw Hr.
    - exists w. cbn. split; [exact Hw|]. by rewrite Z.add_0_r, u64_id.
    - cbn [foldl]. destruct (lookup_lt_is_Some_2 (wu_counts v) (index k)) as [w0 Hw0].
      { rewrite Hl by (apply elem_of_cons; by left). destruct k; vm_compute; lia. }
      destruct (IH (zip_with ABTXI_prof_wu_count_merge (wu_counts v) acc) (ABTXI_prof_wu_count_merge w0 w)) as (w' & Hw' & E).
      + intros u Hu. apply Hl. apply elem_of_cons. by right.
      + by rewrite lookup_zip_with, Hw0, Hw.
      + rewrite (@add_merge field Hf). apply u64_range.
      + exists w'. split; [exact Hw'|]. rewrite E, (@add_merge field Hf), u64_add_l. f_equal. cbn. unfold wstat at 2. rewrite Hw0. cbn.
        fold (zsum (wstat field (index k)) streams). lia. }
  destruct (Hind streams (replicate WU_COUNT_END_ zero_wu) zero_wu Hl) as (w' & Hw' & E); [by destruct k|rewrite Hz; unfold is_u64; lia|].
  unfold nth_wu, reduce_counts. rewrite Hw'. cbn. by rewrite E, Hz.
Qed.

(** ** The streams that are read *)

Lemma ranked_lookup l : forall r0 r x, (r, x) ∈ ranked r0 l <-> exists n, l !! n = Some (Some x) /\ r = r0 + Z.of_nat n.
Proof.
  induction l as [|o l IH]; intros r0 r x; cbn [ranked].
  { split; [by intros ?%not_elem_of_nil|by intros (n & ? & _)]. }
  assert ((r, x) ∈ ranked (r0 + 1) l <-> exists n, (o :: l) !! S n = Some (Some x) /\ r = r0 + Z.of_nat (S n)) as IH'.
  { rewrite IH. split; intros (n & Hn & E); exists n; (split; [exact Hn|lia]). }
  destruct o as [y|].
  - rewrite elem_of_cons, IH'. split.
    + intros [[= -> ->]|(n & Hn & E)]; [exists O; split; [reflexivity|lia]|by exists (S n)].
    + intros ([|n] & Hn & E); [left; cbn in Hn; injection Hn as ->; f_equal; lia|right; by exists n].
  - rewrite IH'. split; [intros (n & Hn & E); by exists (S n)|]. intros ([|n] & Hn & E); [done|by exists n].
Qed.

Lemma ranked_ge l : forall r0 r, r ∈ (ranked r0 l).*1 -> r0 <= r.
Proof. intros r0 r ([r' x] & -> & Hrx)%list_elem_of_fmap. apply ranked_lookup in Hrx as (n & _ & ->). cbn. lia. Qed.

Lemma ranked_nodup l : forall r0, (forall n m x, l !! n = Some (Some x) -> l !! m = Some (Some x) -> n = m) ->
  NoDup (ranked r0 l).*2.
Proof.
  induction l as [|o l IH]; intros r0 Hu; cbn [ranked]; [constructor|].
  assert (NoDup (ranked (r0 + 1) l).*2) as Hnd.
  { apply IH. intros n m x Hn Hm. specialize (Hu (S n) (S m) x Hn Hm). lia. }
  destruct o as [y|]; [|exact Hnd]. cbn. constructor; [|exact Hnd]. intros ([r' x] & E & Hrx)%list_elem_of_fmap. cbn in E. subst x.
  apply ranked_lookup in Hrx as (n & Hn & _). by specialize (Hu O (S n) y eq_refl Hn).
Qed.

Lemma collect_ranks_spec s xs : registry s xs -> collect_ranks s = Some (ranked 0 (table s)).
Proof.
  intros Hr. unfold collect_ranks. pose proof (rg_len _ _ Hr) as Hl. destruct (Z.leb_spec (len_p_xstreams s) 0).
  - destruct (table s) as [|]; [reflexivity|cbn in Hl; lia].
  - unfold table in *. destruct (p_xstreams s) as [a|] eqn:Hp; [|cbn in Hl; lia]. cbn [mbind option_bind].
    destruct (rg_tab _ _ Hr a Hp) as [[nx l] Ha]. rewrite Ha in *. cbn in *. rewrite take_ge by lia. reflexivity.
Qed.

(** The records that have a rank are the ones that are read. *)
Lemma ranked_records s xs : registry s xs -> forall x xi r,
  (xinfos s !! x = Some xi /\ rank xi = r /\ r ≠ -1) <-> ((r, x) ∈ ranked 0 (table s) /\ xinfos s !! x = Some xi).
Proof.
  intros Hr x xi r. rewrite ranked_lookup. split.
  - intros (Hx & <- & Hne). destruct (rg_rank _ _ Hr x xi Hx) as [?|(n & E & Hn)]; [done|]. split; [|exact Hx]. exists n. split; [exact Hn|lia].
  - intros [(n & Hn & ->) Hx]. destruct (rg_ranked _ _ Hr n x Hn) as (xi' & Hx' & E). rewrite Hx in Hx'. injection Hx' as <-.
    split; [exact Hx|]. lia.
Qed.

Lemma external_threads_spec s l : forall fuel p, chain (xinfos s) p_next p l -> (length l <= fuel)%nat ->
  exists l', external_threads fuel s p = Some l' /\ forall x, x ∈ l' <-> x ∈ l /\ exists xi, xinfos s !! x = Some xi /\ rank xi = -1.
Proof.
  induction l as [|x l IH]; intros fuel p Hc Hf.
  { cbn in Hc. subst p. exists []. split; [by destruct fuel|]. intros x. split; [by intros ?%not_elem_of_nil|by intros [?%not_elem_of_nil _]]. }
  destruct Hc as (-> & xi & Hx & Hc). destruct fuel as [|fuel]; [cbn in Hf; lia|]. cbn [external_threads]. rewrite Hx. cbn [mbind option_bind].
  destruct (IH fuel (p_next xi) Hc) as (l' & -> & Hl'); [cbn in Hf; lia|]. cbn [mbind option_bind]. eexists. split; [reflexivity|]. intros y.
  destruct (Z.eqb_spec (rank xi) (-1)) as [E|E]; rewrite ?elem_of_cons, Hl'; split.
  - intros [->|[Hy He]]; [split; [by left|by exists xi]|split; [by right|exact He]].
  - intros [[->|Hy] He]; [by left|right; by split].
  - intros [Hy He]. split; [by right|exact He].
  - intros [[->|Hy] He]; [|by split]. destruct He as (xi' & Hx' & E'). rewrite Hx in Hx'. injection Hx' as <-. done.
Qed.

Lemma read_tags_spec s xs : (forall x, x ∈ xs -> is_Some (xinfos s !! x)) -> exists l, read_tags s xs = Some l.
Proof.
  intros Hx. unfold read_tags. apply mapM_is_Some_2, Forall_forall. intros x Hin. destruct (Hx x Hin) as [xi E]. exists (tag xi). cbn. by rewrite E.
Qed.

(** Every stream is merged into the summary of its index. *)
Lemma merge_ranks_spec s (P : positive -> xstream_data -> Prop) xs : forall n sums,
  (forall x, x ∈ xs -> exists v, ABTXI_prof_merge_xstream_info s x zero_xstream_data = Some v /\ P x v) ->
  (forall j, (j < length xs)%nat -> sums !! (n + j)%nat = Some zero_xstream_data) ->
  exists sums', merge_ranks s n xs sums = Some sums' /\ length sums' = length sums /\
    (forall j x, xs !! j = Some x -> exists v, sums' !! (n + j)%nat = Some v /\ P x v) /\
    (forall j, (j < n \/ n + length xs <= j)%nat -> sums' !! j = sums !! j).
Proof.
  induction xs as [|x xs IH]; intros n sums Hm Hz.
  { exists sums. split; [reflexivity|]. split; [reflexivity|]. split; [by intros|]. by intros. }
  cbn [merge_ranks]. unfold merge_at. pose proof (Hz O ltac:(cbn; lia)) as Hn. rewrite Nat.add_0_r in Hn. rewrite Hn. cbn [mbind option_bind].
  destruct (Hm x) as (v & -> & Hv); [apply elem_of_cons; by left|]. cbn [mbind option_bind].
  destruct (IH (S n) (<[n := v]> sums)) as (sums' & -> & Hlen & Hj & Ho).
  { intros y Hy. apply Hm. apply elem_of_cons. by right. }
  { intros j Hjl. rewrite list_lookup_insert_ne by lia. replace (S n + j)%nat with (n + S j)%nat by lia. apply Hz. cbn. lia. }
  exists sums'. split; [reflexivity|]. split; [by rewrite Hlen, length_insert|]. split.
  - intros [|j] y Hy.
    + cbn in Hy. injection Hy as ->. exists v. split; [|exact Hv]. rewrite Nat.add_0_r, Ho by lia. apply list_lookup_insert_eq. by apply lookup_lt_Some in Hn.
    + replace (n + S j)%nat with (S n + j)%nat by lia. by apply Hj.
  - intros j Hjl. rewrite Ho by (cbn in Hjl; lia). apply list_lookup_insert_ne. cbn in Hjl. lia.
Qed.

(** ** The numbers that are printed *)

Lemma msum_zsum {K} `{Countable K} {A} (f : A -> Z) (m : gmap K A) l : NoDup l -> (forall k, is_Some (m !! k) -> k ∈ l) -> msum f m = zsum (mval f m) l.
Proof. apply msum_list. Qed.

Lemma size_nodup {K} `{Countable K} {A} (m : gmap K A) (l : list K) : NoDup l -> (forall k, is_Some (m !! k) <-> k ∈ l) -> size m = length l.
Proof.
  intros Hnd Hl. rewrite <- size_dom, <- (size_list_to_set (C := gset K) l Hnd). f_equal. apply set_eq. intros k.
  rewrite elem_of_dom, elem_of_list_to_set. apply Hl.
Qed.

Lemma infos_of_length bs : Z.of_nat (length (infos_of bs)) = 370 * Z.of_nat (length bs).
Proof.
  induction bs as [|b bs IH]; [reflexivity|]. rewrite infos_of_cons, length_app, block_infos_length. cbn [length]. lia.
Qed.

Definition no_external (s : prof) : Prop := forall x xi, xinfos s !! x = Some xi -> rank xi ≠ -1.

(** The records read are all the records, once. *)
Lemma read_records s xs : registry s xs -> no_external s ->
  NoDup (ranked 0 (table s)).*2 /\ forall x, x ∈ (ranked 0 (table s)).*2 <-> is_Some (xinfos s !! x).
Proof.
  intros Hr Hne. split.
  - apply ranked_nodup. intros n m x Hn Hm. destruct (rg_ranked _ _ Hr n x Hn) as (xi & Hx & En), (rg_ranked _ _ Hr m x Hm) as (xi' & Hx' & Em).
    rewrite Hx in Hx'. injection Hx' as <-. lia.
  - intros x. split.
    + intros ([r y] & -> & Hin)%list_elem_of_fmap. apply ranked_lookup in Hin as (n & Hn & _). destruct (rg_ranked _ _ Hr n y Hn) as (xi & Hx & _). by exists xi.
    + intros [xi Hx]. apply list_elem_of_fmap. exists (rank xi, x). split; [reflexivity|]. apply (proj1 (ranked_records s xs Hr x xi (rank xi))).
      split; [exact Hx|]. split; [reflexivity|]. by apply (Hne x).
Qed.

(** One pass over a profiler at rest. *)
Lemma read_at_rest s xs B U : registry s xs -> threads_ok s B U -> (forall x v, xdata s x = Some v -> data_ok v) -> no_external s ->
  let rk := ranked 0 (table s) in
  exists sums, read_loop [(s, s, s)] = Some (rk.*1, sums) /\ length sums = S (length rk) /\
    forall j x, rk.*2 !! j = Some x -> exists v, sums !! j = Some v /\ summary_of s x (infos_of (B x)) v.
Proof.
  intros Hr Hok Hd Hne rk. destruct (read_records s xs Hr Hne) as [Hnd Hin]. fold rk in Hnd, Hin. cbn [read_loop]. unfold read_pass.
  rewrite (collect_ranks_spec s xs Hr). cbn [mbind option_bind]. fold rk.
  destruct (external_threads_spec s xs (size (xinfos s)) (p_xstream_info_head s) (rg_list _ _ Hr)) as (ext & -> & Hext).
  { eapply chain_length_size; [exact (rg_list _ _ Hr)|exact (rg_nodup _ _ Hr)]. }
  assert (ext = []) as ->.
  { destruct ext as [|y ext]; [reflexivity|]. exfalso. destruct (proj1 (Hext y)) as (_ & xi & Hx & E); [apply elem_of_cons; by left|]. by apply (Hne y xi). }
  cbn [mbind option_bind]. rewrite app_nil_r.
  destruct (read_tags_spec s rk.*2) as [tags Htags]; [intros x Hx; by apply Hin|]. rewrite Htags. cbn [mbind option_bind].
  destruct (merge_ranks_spec s (fun x => summary_of s x (infos_of (B x))) rk.*2 0 (replicate (length rk + 1) zero_xstream_data)) as (sums & -> & Hlen & Hj & _).
  - intros x Hx. apply Hin in Hx as [xi Hx]. apply (merge_xstream_info_spec s x xi); [exact Hx|apply (Hd x); unfold xdata; by rewrite Hx|exact (to_all _ _ _ Hok x xi Hx)|].
    apply infos_of_nodup, (to_B_nodup _ _ _ Hok).
  - intros j Hjl. rewrite length_fmap in Hjl. apply lookup_replicate. split; [reflexivity|]. cbn. lia.
  - cbn [mbind option_bind merge_external]. rewrite bool_decide_true by reflexivity. cbn [negb]. exists sums. split; [reflexivity|].
    split; [rewrite Hlen, length_replicate; lia|]. exact Hj.
Qed.

Lemma take_summaries (P : positive -> xstream_data -> Prop) (xs : list positive) : forall (sums : list xstream_data), (length xs <= length sums)%nat ->
  (forall j x, xs !! j = Some x -> exists v, sums !! j = Some v /\ P x v) -> Forall2 P xs (take (length xs) sums).
Proof.
  induction xs as [|x xs IH]; intros sums Hl Hj; [constructor|]. destruct sums as [|v sums]; [cbn in Hl; lia|]. cbn. constructor.
  - destruct (Hj O x eq_refl) as (v' & [= <-] & Hv). exact Hv.
  - apply IH; [cbn in Hl; lia|]. intros j y Hy. exact (Hj (S j) y Hy).
Qed.

Lemma summaries_sum s B field k (h : positive -> Z) xs streams :
  Forall2 (fun x v => summary_of s x (infos_of (B x)) v) xs streams ->
  (forall x v, summary_of s x (infos_of (B x)) v -> wstat field (index k) v = u64 (h x)) ->
  u64 (zsum (wstat field (index k)) streams) = u64 (zsum h xs).
Proof.
  intros Hf Hh. induction Hf as [|x v xs streams Hv _ IH]; [reflexivity|]. cbn [zsum foldr].
  fold (zsum (wstat field (index k)) streams) (zsum h xs). rewrite (Hh x v Hv), u64_add_l, <- u64_add_r, IH, u64_add_r. reflexivity.
Qed.

Section printed.
Context (tr : list label) (s : prof) (xs : list positive) (B : positive -> list positive) (U : positive -> list addr) (sums : list xstream_data).
Context (Hco : counts_ok tr s) (Hr : registry s xs) (Hok : threads_ok s B U) (Hne : no_external s).
Context (Hlen : length sums = S (length (ranked 0 (table s)))).
Context (Hj : forall j x, (ranked 0 (table s)).*2 !! j = Some x -> exists v, sums !! j = Some v /\ summary_of s x (infos_of (B x)) v).

#[local] Notation rk := (ranked 0 (table s)).

Lemma printed_events n r e : rk.*1 !! n = Some r -> exists v, sums !! n = Some v /\ nth_event v (event_index e) = u64 (stream_count r e tr).
Proof.
  intros Hn. apply list_lookup_fmap_Some in Hn as ([r' x] & -> & Hn). cbn [fst].
  destruct (Hj n x) as (v & Hv & (Hev & _)); [by rewrite list_lookup_fmap, Hn|]. exists v. split; [exact Hv|].
  assert ((r', x) ∈ rk) as Hrx by (by eapply list_elem_of_lookup_2).
  pose proof (proj1 (ranked_lookup _ _ _ _) Hrx) as (m & Hm & _). destruct (rg_ranked _ _ Hr m x Hm) as (xi & Hx & _).
  destruct (proj2 (ranked_records s xs Hr x xi r') (conj Hrx Hx)) as (_ & Erk & Hrn). unfold nth_event. rewrite Hev, Hx. cbn [mbind option_bind].
  rewrite (co_events _ _ Hco x xi e Hx) by (by rewrite Erk). rewrite Erk. cbn. unfold u64. apply Zmod_mod.
Qed.

Lemma printed_missing r e : 0 <= r -> r ∉ rk.*1 -> stream_count r e tr = 0.
Proof.
  intros Hr0 Hnr. apply (co_unseen _ _ Hco); [lia|]. intros x xi Hx <-. apply Hnr. apply list_elem_of_fmap. exists (rank xi, x). split; [reflexivity|].
  apply (proj1 (ranked_records s xs Hr x xi (rank xi))). split; [exact Hx|]. split; [reflexivity|]. by apply (Hne x).
Qed.

Lemma streams_summaries : Forall2 (fun x v => summary_of s x (infos_of (B x)) v) rk.*2 (take (length rk.*1) sums).
Proof. replace (length rk.*1) with (length rk.*2) by (by rewrite !length_fmap). apply take_summaries; [rewrite length_fmap; lia|exact Hj]. Qed.

Lemma streams_counts v : v ∈ take (length rk.*1) sums -> length (wu_counts v) = WU_COUNT_END_.
Proof.
  intros Hv. apply list_elem_of_lookup in Hv as [j Hv]. destruct (Forall2_lookup_r _ _ _ _ _ streams_summaries Hv) as (x & _ & _ & Hl & _). exact Hl.
Qed.

Lemma block_stream x b : b ∈ B x -> x ∈ rk.*2.
Proof.
  intros Hb. apply (read_records s xs Hr Hne). destruct (xinfos s !! x) eqn:Ex; [eauto|]. destruct (to_none _ _ _ Hok x Ex) as [Eb _].
  rewrite Eb in Hb. by apply not_elem_of_nil in Hb.
Qed.

Lemma printed_sum k : prof_mode s = Profiling.ABTX_PROF_MODE_DETAILED -> total_count (kind_event k) tr < 2 ^ 31 ->
  sum (nth_wu (reduce_counts (take (length rk.*1) sums)) (index k)) = total_count (kind_event k) tr.
Proof.
  intros Hm Hlt. destruct (read_records s xs Hr Hne) as [Hnd Hin]. rewrite (reduce_counts_spec _ k sum _ streams_counts eq_refl).
  rewrite (summaries_sum s B sum k (fun x => zsum (tval (quantity k) s) (infos_of (B x)) + mval (xstat sum (index k)) (xinfos s) x) _ _ streams_summaries).
  2:{ intros x v (_ & _ & Hk). destruct (Hk k) as (w & Hw & Es & _). unfold wstat. rewrite Hw. exact Es. }
  rewrite zsum_plus, <- zsum_bind.
  rewrite <- (msum_zsum (xstat sum (index k)) (xinfos s) rk.*2 Hnd) by (intros; by apply Hin).
  rewrite <- (msum_zsum (fun ti => quantity k (td ti)) (tinfos s) (rk.*2 ≫= (fun x => infos_of (B x)))).
  - fold (tsum (quantity k) s) (xsum sum (index k) s). rewrite Z.add_comm, (co_sum _ _ Hco k Hm Hlt). apply u64_id.
    pose proof (total_count_nonneg (kind_event k) tr). unfold is_u64. lia.
  - apply NoDup_bind; [|intros x _; apply infos_of_nodup, (to_B_nodup _ _ _ Hok)|exact Hnd].
    intros x y i _ _ Hx%infos_of_elem Hy%infos_of_elem. exact (to_B_disj _ _ _ Hok x y _ Hx Hy).
  - intros i [x Hx]%(to_tdom _ _ _ Hok). apply list_elem_of_bind. exists x. split; [exact Hx|]. apply (block_stream x i.1). by apply infos_of_elem.
Qed.

Lemma all_blocks : size (memblocks s) = length (rk.*2 ≫= B).
Proof.
  apply size_nodup.
  - apply NoDup_bind; [|intros x _; apply (to_B_nodup _ _ _ Hok)|apply (read_records s xs Hr Hne)].
    intros x y b _ _ Hx Hy. exact (to_B_disj _ _ _ Hok x y b Hx Hy).
  - intros b. rewrite (to_bdom _ _ _ Hok). split.
    + intros [x Hx]. apply list_elem_of_bind. exists x. split; [exact Hx|by eapply block_stream].
    + intros (x & Hx & _)%list_elem_of_bind. by exists x.
Qed.

Lemma printed_cnt k : prof_mode s = Profiling.ABTX_PROF_MODE_DETAILED -> total_count THREAD_FREE tr + 370 * Z.of_nat (size (memblocks s)) < 2 ^ 64 ->
  cnt (nth_wu (reduce_counts (take (length rk.*1) sums)) (index k)) = total_count THREAD_FREE tr + 370 * Z.of_nat (size (memblocks s)).
Proof.
  intros Hm Hlt. destruct (read_records s xs Hr Hne) as [Hnd Hin]. rewrite (reduce_counts_spec _ k cnt _ streams_counts eq_refl).
  rewrite (summaries_sum s B cnt k (fun x => Z.of_nat (length (infos_of (B x))) + mval (xstat cnt (index k)) (xinfos s) x) _ _ streams_summaries).
  2:{ intros x v (_ & _ & Hk). destruct (Hk k) as (w & Hw & _ & Ec). unfold wstat. rewrite Hw. exact Ec. }
  rewrite zsum_plus, <- (msum_zsum (xstat cnt (index k)) (xinfos s) rk.*2 Hnd) by (intros; by apply Hin). fold (xsum cnt (index k) s).
  pose proof (total_count_nonneg THREAD_FREE tr) as Hnn. destruct (co_cnt _ _ Hco k Hm ltac:(lia)) as [_ ->].
  rewrite all_blocks in Hlt |- *.
  assert (forall l, zsum (fun x => Z.of_nat (length (infos_of (B x)))) l = 370 * Z.of_nat (length (l ≫= B))) as ->.
  { intros l. induction l as [|x l IH]; [reflexivity|]. rewrite bind_cons, length_app. cbn [zsum foldr].
    fold (zsum (fun x => Z.of_nat (length (infos_of (B x)))) l). rewrite IH, infos_of_length. lia. }
  rewrite Z.add_comm. apply u64_id. unfold is_u64. lia.
Qed.
End printed.


Lemma demo_no_external : no_external demo_state.
Proof.
  assert (map_Forall (fun _ xi => rank xi ≠ -1) (xinfos demo_state)) as H.
  { apply (bool_decide_eq_true_1 _). vm_compute. reflexivity. }
  exact H.
Qed.


(** ** What goes wrong *)

(** A thread outside of Argobots that made one event is merged into a summary after
    the last one of the array: the profiler then writes out of it whenever it prints. *)
Theorem external_thread_overflows tr s obs : pruns tr s -> (exists x xi, xinfos s !! x = Some xi /\ rank xi = -1) -> read_loop ((s, s, s) :: obs) = None.
Proof.
  intros Hrun (y & yi & Hy & Ey). destruct (ro_prof _ (pruns_ok tr s Hrun)) as (xs & B & U & Hr & Hok & Hd).
  cbn [read_loop]. unfold read_pass. rewrite (collect_ranks_spec s xs Hr). cbn [mbind option_bind]. set (rk := ranked 0 (table s)).
  destruct (external_threads_spec s xs (size (xinfos s)) (p_xstream_info_head s) (rg_list _ _ Hr)) as (ext & -> & Hext).
  { eapply chain_length_size; [exact (rg_list _ _ Hr)|exact (rg_nodup _ _ Hr)]. }
  cbn [mbind option_bind].
  assert (forall x, x ∈ rk.*2 ++ ext -> is_Some (xinfos s !! x)) as Hin.
  { intros x [([r z] & -> & Hin)%list_elem_of_fmap|(_ & xi & Hx & _)%Hext]%elem_of_app; [|by exists xi].
    apply ranked_lookup in Hin as (n & Hn & _). destruct (rg_ranked _ _ Hr n z Hn) as (xi & Hx & _). by exists xi. }
  destruct (read_tags_spec s (rk.*2 ++ ext) Hin) as [tags ->]. cbn [mbind option_bind].
  destruct (merge_ranks_spec s (fun x => summary_of s x (infos_of (B x))) rk.*2 0 (replicate (length rk + 1) zero_xstream_data)) as (sums & -> & Hlen & _).
  - intros x Hx. destruct (Hin x) as [xi Hxi]; [apply elem_of_app; by left|]. apply (merge_xstream_info_spec s x xi); [exact Hxi|apply (Hd x); unfold xdata; by rewrite Hxi|exact (to_all _ _ _ Hok x xi Hxi)|].
    apply infos_of_nodup, (to_B_nodup _ _ _ Hok).
  - intros j Hjl. rewrite length_fmap in Hjl. apply lookup_replicate. split; [reflexivity|]. cbn. lia.
  - cbn [mbind option_bind]. assert (y ∈ ext) as Hye.
    { apply Hext. split; [apply (rg_dom _ _ Hr); by exists yi|by exists yi]. }
    destruct ext as [|x ext]; [by apply not_elem_of_nil in Hye|]. cbn [merge_external]. unfold merge_at.
    rewrite (proj2 (lookup_ge_None sums (length rk + 1))); [reflexivity|]. rewrite Hlen, length_replicate. lia.
Qed.

(** A thread that still runs on a stream when the profiler stops adds nothing to the
    time of its level, and the time of the level of the main scheduler is always the
    whole time: the code tests the depth of the summary, which is 0. *)
Theorem running_time_lost s x xi v : xinfos s !! x = Some xi -> rank xi ≠ -1 ->
  ABTXI_prof_merge_xstream_info s x zero_xstream_data = Some v ->
  times_elapsed v = add64 (replicate 4 0) (<[0%nat := i64 (stop_prof_time s - start_prof_time s)]> (times_elapsed (xd xi))).
Proof.
  intros Hx Hr. unfold ABTXI_prof_merge_xstream_info. rewrite Hx. cbn [mbind option_bind].
  assert (forall fuel p out out', merge_threads fuel s p out = Some out' -> cur_depth out' = cur_depth out /\ times_elapsed out' = times_elapsed out) as Hm.
  { induction fuel as [|fuel IH]; intros p out out'; destruct p as [i|]; cbn; try done; try by intros [= <-].
    destruct (tinfos s !! i) as [ti|]; [|done]. cbn. intros H%IH. exact H. }
  destruct (merge_threads _ _ _ _) as [out|] eqn:E; [|done]. cbn [mbind option_bind]. apply Hm in E as [E1 E2]. intros [= <-].
  cbn [times_elapsed]. unfold elapsed_of. rewrite E1, E2, (proj2 (Z.eqb_neq _ _) Hr). reflexivity.
Qed.

(** When a thread leaves a level that no thread has entered since the last one left
    it - a scheduler that finishes after the threads that it ran - the absolute time
    is added to the time of that level. *)
Theorem second_leave_adds_clock t0 q1 t1 q2 t2 v v1 v2 d : 0 < cur_depth v <= 4 -> d = Z.to_nat (cur_depth v - 1) ->
  stream_leave t0 q1 t1 v = Some v1 -> stream_leave t0 q2 t2 v1 = Some v2 ->
  exists el, times_elapsed v1 !! d = Some el /\ times_elapsed v2 !! d = Some (i64 (el + i64 (t2 + 1))).
Proof.
  intros Hd -> H1 H2.
  assert (forall t q n u u', cur_depth u = cur_depth v -> stream_leave t q n u = Some u' ->
    exists last el, times_last_run u !! Z.to_nat (cur_depth v - 1) = Some last /\ times_elapsed u !! Z.to_nat (cur_depth v - 1) = Some el /\
      cur_depth u' = cur_depth v /\ times_last_run u' = <[Z.to_nat (cur_depth v - 1) := -1]> (times_last_run u) /\
      times_elapsed u' = <[Z.to_nat (cur_depth v - 1) := i64 (el + i64 (n - (if last =? 0 then t else last)))]> (times_elapsed u)) as Hl.
  { intros t q n u u' Hu. unfold stream_leave, ABTXI_prof_xstream_info_get_depth_thread. rewrite Hu, (proj2 (Z.eqb_neq (cur_depth v) 0)) by lia.
    cbn [orb]. rewrite i32_id by lia. rewrite (proj2 (Z.ltb_lt _ _)) by (unfold ABTXI_PROF_MAX_DEPTH; lia). unfold set_at, get_at.
    rewrite (proj2 (Z.ltb_ge (cur_depth v - 1) 0)) by lia.
    destruct (times_last_run u !! _) as [last|]; [|done]. cbn [mbind option_bind]. destruct (times_elapsed u !! _) as [el|]; [|done].
    cbn [mbind option_bind]. intros [= <-]. exists last, el. cbn. by rewrite Hu. }
  destruct (Hl _ _ _ _ _ eq_refl H1) as (last & el & E1 & E2 & E3 & E4 & E5).
  destruct (Hl _ _ _ _ _ E3 H2) as (last' & el' & F1 & F2 & _ & _ & F5).
  rewrite E4, list_lookup_insert_eq in F1 by (by apply lookup_lt_Some in E1). injection F1 as <-.
  exists el'. split; [exact F2|]. rewrite F5, list_lookup_insert_eq by (by apply lookup_lt_Some in F2). reflexivity.
Qed.
