(* ===== verification/AbtxMargo.v ===== *)
(** * Margo on the profiler (src/margo-abt-profiling.c, src/abtx_prof.h)

    The calls that Margo makes (Profiling) on the profiler itself (AbtxProf): each of
    them succeeds, whatever the streams do between two of them. *)

From Stdlib Require Import QArith.
From S2P Require Import Prelude AbtxProf AbtxInv AbtxRuns AbtxPrint.
From S2P Require Profiling.

#[local] Open Scope Z_scope.

(** The context of the process: [None] when there is none. *)
Notation context := (option prof).

(** A call, at a time of the clock; printing keeps the context, and its end leaves none. *)
Definition abtx_call (c : Profiling.abtx) (now : Z) (ctx : context) : option (abt_ret * context) :=
  match c with
  | Profiling.ABTX_prof_init => Some (ABTX_prof_init true true true true)
  | Profiling.ABTX_prof_start mode => ABTX_prof_start ctx mode now
  | Profiling.ABTX_prof_stop => ABTX_prof_stop ctx now
  | Profiling.ABTX_prof_print =>
      '(r, _) ← ABTX_prof_print 1%Q ctx (match ctx with Some s => [(s, s, s)] | None => [] end) 2; Some (r, ctx)
  | Profiling.ABTX_prof_finalize => '(r, _) ← ABTX_prof_finalize ctx true; Some (r, None)
  end.

(** What may happen between two calls: events on streams, and threads that are gone. *)
Inductive activity : context -> context -> Prop :=
  | act_none ctx : activity ctx ctx
  | act_event s h r t s' ctx : r ≠ -1 -> pstep s (Event (ES h r) t) s' -> activity (Some s') ctx -> activity (Some s) ctx
  | act_gone s t s' ctx : pstep s (Gone t) s' -> activity (Some s') ctx -> activity (Some s) ctx.

(** Every call succeeds after any activity, and [Q] holds in the end. *)
Fixpoint calls_succeed (l : list Profiling.abtx) (Q : context -> Prop) (ctx : context) : Prop :=
  match l with
  | [] => Q ctx
  | c :: l => forall ctx1 now, activity ctx ctx1 -> exists ctx2, abtx_call c now ctx1 = Some (ABT_SUCCESS, ctx2) /\ calls_succeed l Q ctx2
  end.

(** The variables of Margo stand for the context. *)
Definition represents (p : Profiling.profiler) (ctx : context) : Prop :=
  match ctx with
  | None => Profiling.g_margo_abt_prof_init p = false
  | Some s => run_ok s /\ no_external s /\ Profiling.g_margo_abt_prof_init p = true /\
      if Profiling.g_margo_abt_prof_started p then state s = ABTXI_PROF_GLOBAL_STATE_RUNNING /\ prof_mode s = Profiling.g_margo_abt_prof_mode p
      else state s ≠ ABTXI_PROF_GLOBAL_STATE_RUNNING
  end.

(** ** Each call *)

Lemma no_external_kept s s' : ranks_kept s s' -> no_external s -> no_external s'.
Proof.
  intros Hk Hne x xi Hx. pose proof (Hk x) as E. rewrite Hx in E. destruct (xinfos s !! x) as [xi0|] eqn:Hx0; [|done]. cbn in E.
  injection E as ->. by apply (Hne x).
Qed.

(** Activity keeps what the variables say. *)
Lemma activity_represents p ctx ctx' : activity ctx ctx' -> represents p ctx -> represents p ctx'.
Proof.
  induction 1 as [ctx|s h r e s' ctx Hr Hstep _ IH|s t s' ctx Hstep _ IH]; [done| |]; intros (Hok & Hne & Hi & Hs); apply IH.
  - inversion Hstep as [c t e' q now al s1 Hst Ht Hq Hf Hfr Hcb| | | |]; subst.
    destruct (callback_spec s (ES h r) t e q now al (ro_prof _ Hok) Hst Ht Hq Hf Hfr) as (s2 & x & v & v' & E & Hok2 & Hce).
    rewrite Hcb in E. injection E as <-. split; [by eapply callback_run_ok|]. split; [|split; [exact Hi|]].
    + intros y yi Hy. destruct (ce_ranks _ _ _ _ _ _ _ Hce y yi Hy) as [->|(yi0 & Hy0 & <-)]; [|by apply (Hne y)].
      destruct (ce_rank _ _ _ _ _ _ _ Hce) as (xi & Hx & E). rewrite Hy in Hx. injection Hx as <-. by rewrite E.
    + by rewrite (ce_state _ _ _ _ _ _ _ Hce), (ce_mode _ _ _ _ _ _ _ Hce).
  - inversion Hstep as [| | | |t' Hg]; subst. split; [by apply gone_ok|]. by split_and!.
Qed.

Lemma call_start p ctx mode now : represents p ctx -> Profiling.g_margo_abt_prof_init p = true -> Profiling.g_margo_abt_prof_started p = false ->
  exists ctx', abtx_call (Profiling.ABTX_prof_start mode) now ctx = Some (ABT_SUCCESS, ctx') /\ represents (Profiling.Profiler true true mode) ctx'.
Proof.
  intros Hrep Hi Hs. destruct ctx as [s|]; [|cbn in Hrep; congruence]. destruct Hrep as (Hok & Hne & _ & Hst). rewrite Hs in Hst.
  pose proof (prof_start_spec s mode now Hok) as Hsp. rewrite decide_False in Hsp by exact Hst. destruct Hsp as (s' & E & Hok' & _ & Hr & Hm & Hk).
  exists (Some s'). split; [exact E|]. split; [exact Hok'|]. split; [by eapply no_external_kept|]. by split_and!.
Qed.

Lemma call_stop p ctx now : represents p ctx -> Profiling.g_margo_abt_prof_init p = true -> Profiling.g_margo_abt_prof_started p = true ->
  exists s', abtx_call Profiling.ABTX_prof_stop now ctx = Some (ABT_SUCCESS, Some s') /\ state s' = ABTXI_PROF_GLOBAL_STATE_STOPPED /\
    forall m, represents (Profiling.Profiler true false m) (Some s').
Proof.
  intros Hrep Hi Hs. destruct ctx as [s|]; [|cbn in Hrep; congruence]. destruct Hrep as (Hok & Hne & _ & Hst). rewrite Hs in Hst.
  pose proof (stop_spec s now Hok) as Hsp. rewrite decide_True in Hsp by apply Hst. destruct Hsp as (s' & E & Hok' & Er & Es).
  exists s'. split; [exact E|]. split; [exact Er|]. intros m. split; [exact Hok'|]. split; [by rewrite Es|]. split; [reflexivity|]. cbn. by rewrite Er.
Qed.

Lemma call_print ctx s now : ctx = Some s -> run_ok s -> no_external s -> state s = ABTXI_PROF_GLOBAL_STATE_STOPPED ->
  abtx_call Profiling.ABTX_prof_print now ctx = Some (ABT_SUCCESS, ctx).
Proof.
  intros -> Hok Hne Hst. cbn [abtx_call]. unfold ABTX_prof_print. rewrite Hst. cbn [negb Z.eqb Pos.eqb].
  destruct (ro_prof _ Hok) as (xs & B & U & Hr & Hth & Hd). unfold ABTXI_prof_print_xstream_info.
  destruct (read_at_rest s xs B U Hr Hth Hd Hne) as (sums & E & _). rewrite E. reflexivity.
Qed.

Lemma call_finalize p ctx now : represents p ctx -> Profiling.g_margo_abt_prof_init p = true -> Profiling.g_margo_abt_prof_started p = false ->
  abtx_call Profiling.ABTX_prof_finalize now ctx = Some (ABT_SUCCESS, None).
Proof.
  intros Hrep Hi Hs. destruct ctx as [s|]; [|cbn in Hrep; congruence]. destruct Hrep as (Hok & Hne & _ & Hst). rewrite Hs in Hst.
  cbn [abtx_call]. pose proof (finalize_spec s Hok) as Hsp. rewrite decide_False in Hsp by exact Hst. destruct Hsp as (s' & E & _). rewrite E. reflexivity.
Qed.

Lemma calls_weaken l (Q Q' : context -> Prop) : (forall c, Q c -> Q' c) -> forall ctx, calls_succeed l Q ctx -> calls_succeed l Q' ctx.
Proof.
  intros HQ. induction l as [|c l IH]; intros ctx; cbn; [apply HQ|]. intros H ctx1 now Ha. destruct (H ctx1 now Ha) as (ctx2 & E & Hl). exists ctx2. auto.
Qed.

Lemma calls_app l1 l2 Q ctx : calls_succeed (l1 ++ l2) Q ctx <-> calls_succeed l1 (calls_succeed l2 Q) ctx.
Proof.
  revert ctx. induction l1 as [|c l1 IH]; intros ctx; [done|]. cbn. split; intros H ctx1 now Ha; destruct (H ctx1 now Ha) as (ctx2 & E & Hl); exists ctx2;
    (split; [exact E|]); by apply IH.
Qed.

(** A dump of a profiler that runs: it stops, prints and starts it again. *)
Lemma dump_succeeds p ctx : Profiling.prof_ok p -> represents p ctx ->
  calls_succeed (Profiling.margo_abt_profiling_dump_fp p) (represents p) ctx.
Proof.
  intros Hpo Hrep. unfold Profiling.margo_abt_profiling_dump_fp. destruct (Profiling.g_margo_abt_prof_started p) eqn:Hs; [|exact Hrep].
  pose proof (Hpo Hs) as Hi. cbn [calls_succeed]. intros ctx1 now1 Ha1. apply (activity_represents p) in Ha1; [|exact Hrep].
  destruct (call_stop p ctx1 now1 Ha1 Hi Hs) as (s1 & E1 & Est & Hr1). exists (Some s1). split; [exact E1|].
  set (m := Profiling.g_margo_abt_prof_mode p) in *. intros ctx2 now2 Ha2.
  assert (exists s2, ctx2 = Some s2 /\ state s2 = ABTXI_PROF_GLOBAL_STATE_STOPPED /\ represents (Profiling.Profiler true false m) ctx2) as (s2 & -> & Est2 & Hr2).
  { pose proof (activity_represents _ _ _ Ha2 (Hr1 m)) as Hr2. clear - Ha2 Est Hr2. remember (Some s1) as c1 eqn:Ec. revert s1 Ec Est.
    induction Ha2 as [ctx|s h r e s' ctx Hne Hstep _ IH|s t s' ctx Hstep _ IH]; intros s1 Ec Est; subst.
    - by exists s1.
    - injection Ec as ->. inversion Hstep as [c t e' q now al s1' Hst| | | |]; subst. rewrite Est in Hst. discriminate Hst.
    - injection Ec as ->. inversion Hstep as [| | | |t' Hg]; subst. by eapply IH. }
  destruct Hr2 as (Hok2 & Hne2 & Hrest). exists (Some s2). split; [by apply (call_print _ s2)|]. intros ctx3 now3 Ha3.
  pose proof (activity_represents (Profiling.Profiler true false m) _ _ Ha3 (conj Hok2 (conj Hne2 Hrest))) as Hr3.
  destruct (call_start _ ctx3 m now3 Hr3 eq_refl eq_refl) as (ctx4 & E4 & Hr4). exists ctx4. split; [exact E4|].
  destruct p as [i st mo]. cbn in *. by subst.
Qed.

Lemma prof_op_succeeds op p p' l ctx : Profiling.prof_ok p -> Profiling.prof_step op p = (p', l) -> represents p ctx -> calls_succeed l (represents p') ctx.
Proof.
  intros Hpo Hstep Hrep. destruct p as [i st mo]. destruct op as [tool|det| |opened|opened|]; cbn in Hstep.
  - unfold Profiling.enable_profiling in Hstep. cbn in Hstep. destruct i; [simplify_eq/=; exact Hrep|]. destruct tool; [|simplify_eq/=; exact Hrep].
    destruct st; [exfalso; unfold Profiling.prof_ok in Hpo; cbn in Hpo; intuition discriminate|]. cbn in Hstep. injection Hstep as <- <-. intros ctx1 now Ha. cbn [abtx_call]. eexists. split; [reflexivity|].
    split; [split; [apply empty_prof_ok|by left|]|].
    + intros _. split; intros ? ?; unfold xdata; cbn; by rewrite lookup_empty.
    + split; [intros ? ?; cbn; by rewrite lookup_empty|]. by split.
  - unfold Profiling.margo_start_abt_profiling in Hstep. cbn in Hstep. destruct i; [|simplify_eq/=; exact Hrep]. destruct st; simplify_eq/=; [exact Hrep|].
    intros ctx1 now Ha. apply (activity_represents (Profiling.Profiler true false mo)) in Ha; [|exact Hrep]. by apply (call_start _ ctx1 _ now Ha).
  - unfold Profiling.margo_stop_abt_profiling in Hstep. cbn in Hstep. destruct i; [|simplify_eq/=; exact Hrep]. destruct st; simplify_eq/=; [|exact Hrep].
    intros ctx1 now Ha. apply (activity_represents (Profiling.Profiler true true mo)) in Ha; [|exact Hrep].
    destruct (call_stop _ ctx1 now Ha eq_refl eq_refl) as (s' & E & _ & Hr). by exists (Some s').
  - simplify_eq/=. unfold Profiling.margo_dump_abt_profiling. cbn. destruct i, opened; cbn; try exact Hrep. by apply dump_succeeds.
  - simplify_eq/=. unfold Profiling.margo_state_dump. destruct opened; cbn; [by apply dump_succeeds|exact Hrep].
  - unfold Profiling.disable_profiling in Hstep. cbn in Hstep. destruct i; [|simplify_eq/=; exact Hrep]. destruct st; simplify_eq/=.
    + intros ctx1 now Ha. apply (activity_represents (Profiling.Profiler true true mo)) in Ha; [|exact Hrep].
      destruct (call_stop _ ctx1 now Ha eq_refl eq_refl) as (s' & E & _ & Hr). exists (Some s'). split; [exact E|]. intros ctx2 now2 Ha2.
      apply (activity_represents (Profiling.Profiler true false mo)) in Ha2; [|apply Hr]. exists None. split; [|reflexivity]. by apply (call_finalize _ ctx2 now2 Ha2).
    + intros ctx1 now Ha. apply (activity_represents (Profiling.Profiler true false mo)) in Ha; [|exact Hrep]. exists None. split; [|reflexivity].
      by apply (call_finalize _ ctx1 now Ha).
Qed.


