(* ===== verification/Info.v ===== *)
(** * The information tool (src/margo-info.c)

    [main] of margo-info: its arguments, the loop that tries every known address of
    Mercury, the report and the JSON file.  A run is what it does, in order, and how
    it ends; it is undefined from the moment it uses a closed stream or NULL.  What
    the C library, json-c and Margo answer is an [environment].  Constant text of
    several lines is one event. *)

From stdpp Require Import strings pretty.
From Stdlib Require Import Ascii.
From S2P Require Import Prelude Json.
From S2P Require HgConfig.

#[local] Open Scope Z_scope.

(** ** Known addresses *)

Record plugin := Plugin { p_addr : string; p_xport : string; p_proto : string; p_desc : string }.

(** The X macro, without its last row of NULLs, where the loops stop. *)
Definition MARGO_KNOWN_HG_PLUGINS : list plugin :=
  [Plugin "ofi+tcp://" "ofi" "tcp" "libfabric tcp provider (TCP/IP)";
   Plugin "ofi+verbs://" "ofi" "verbs" "libfabric Verbs provider (InfiniBand or RoCE)";
   Plugin "ofi+shm://" "ofi" "shm" "libfabric shm provider (shared memory)";
   Plugin "ofi+sockets://" "ofi" "shm" "libfabric sockets provider (TCP/IP)";
   Plugin "ofi+psm2://" "ofi" "psm2" "libfabric PSM2 provider (OmniPath";
   Plugin "ofi+opx://" "ofi" "opx" "libfabric OPX provide (OmniPath)";
   Plugin "ofi+gni://" "ofi" "gni" "libfabric GNI provider (Cray Aries)";
   Plugin "ofi+cxi://" "ofi" "cxi" "libfabric CXI provider (HPE Cassini/Slingshot 11)";
   Plugin "psm+psm://" "psm" "psm" "integrated PSM plugin (OmniPath)";
   Plugin "psm2+psm2://" "psm2" "psm2" "integrated PSM2 plugin (OmniPath)";
   Plugin "na+sm://" "na" "sm" "integrated sm plugin (shared memory)";
   Plugin "bmi+tcp://" "bmi" "tcp" "BMI tcp module (TCP/IP)";
   Plugin "ucx+tcp://" "ucx" "tcp" "UCX TCP/IP over SOCK_STREAM sockets";
   Plugin "ucx+rc://" "ucx" "rc" "UCX RC (reliable connection)";
   Plugin "ucx+ud://" "ucx" "ud" "UCX UD (unreliable datagram)";
   Plugin "ucx+dc://" "ucx" "dc" "UCX DC (dynamic connection, only available on Mellanox adapters)";
   Plugin "ucx+all://" "ucx" "<any>" "UCX default/automatic transport selection";
   Plugin "tcp://" "<any>" "tcp" "TCP/IP protocol, transport not specified";
   Plugin "verbs://" "<any>" "verbs" "Verbs protocol, transport not specified";
   Plugin "sm://" "<any>" "sm" "shared memory protocol, transport not specified";
   Plugin "psm2://" "<any>" "psm2" "PSM2 protocol, transport not specified"]%string.

Definition comm_lib_strings : list string :=
  ["mercury.so"; "margo.so"; "libfabric.so"; "ucx"; "ucp"; "uct"; "ucs"; "psm"; "verbs"; "rdma"; "gni"; "cxi"; "opx"; "bmi"]%string.

(** ** Output *)

Definition ESC : string := String (ascii_of_nat 27) "".
Definition TAB : string := String (ascii_of_nat 9) "".
Definition NL : string := String (ascii_of_nat 10) "".
Definition quoted (s : string) : string := (String (ascii_of_nat 34) "" +:+ s +:+ String (ascii_of_nat 34) "")%string.

Definition ANSI_COLOR_RED : string := (ESC +:+ "[31m")%string.
Definition ANSI_COLOR_GREEN : string := (ESC +:+ "[32m")%string.
Definition ANSI_COLOR_MAGENTA : string := (ESC +:+ "[35m")%string.
Definition ANSI_COLOR_RESET : string := (ESC +:+ "[0m")%string.

(** [Text first last]: the constant text of these lines. *)
Inductive event :=
  | Out (s : string) | Text (first last : Z) | Err (s : string) | ToJsonFile (s : string)
  | VerboseLogging | MargoInit (addr : string) | AddrFree (mid : Z) | MargoFinalize (mid : Z).

(** How a run ends, after what it did. *)
Inductive run := Exit (code : Z) (tr : list event) | Undefined (tr : list event).

(** ** The environment *)

Record environment := Environment {
  tmp_stderr : option string;                            (* the name mkstemp makes *)
  reopen_stderr : bool;                                  (* freopen *)
  hostname : option string;                              (* gethostname *)
  new_array : bool; new_object : Z -> bool; array_add : Z -> bool;
  instance : string -> option (Z * bool * option string); (* margo_init, margo_addr_self, margo_addr_to_string *)
  tmp_json : option string; reopen_json : bool;
  json_text : json -> string;                            (* json_object_to_json_string_ext *)
  libraries : list string                                (* dl_iterate_phdr *)
}.

(** ** Arguments *)

Record options := Options { all_libraries_flag : bool; target_addr : option string }.

Definition usage : list event := [Text 419 423] ++ map (fun p => Err ("      " +:+ p_addr p +:+ NL)%string) MARGO_KNOWN_HG_PLUGINS ++ [Text 426 426].

(** The C library's [getopt] with the options of the tool: the flag and the
    operands; [None] when it answers something else. *)
Fixpoint only_l (s : string) : bool := match s with EmptyString => true | String c s => bool_decide (c = "l"%char) && only_l s end.

Fixpoint getopt (argv : list string) : option (bool * list string) :=
  match argv with
  | [] => Some (false, [])
  | a :: argv =>
      match a with
      | String "-" (String c s) =>
          if bool_decide (a = "--"%string) then Some (false, argv)
          else if only_l (String c s) then '(_, operands) ← getopt argv; Some (true, operands)
          else None
      | _ => '(flag, operands) ← getopt argv; Some (flag, a :: operands)
      end
  end.

Definition parse_args (argv : list string) : option options :=
  match getopt argv with
  | Some (flag, []) => Some (Options flag None)
  | Some (flag, [a]) => Some (Options flag (Some a))
  | _ => None
  end.

(** ** Trying an address *)

(** [json_object_object_add]: a key that is there takes the new value. *)
Fixpoint json_object_object_add (key : string) (v : json) (l : members) : members :=
  match l with
  | [] => [(key, Some v)]
  | (k, w) :: l => if bool_decide (k = key) then (k, Some v) :: l else (k, w) :: json_object_object_add key v l
  end.

(** The address of an instance, as it is printed. *)
Definition query_addr (mid : Z) (self : bool) (to_string : option string) : string * list event :=
  (if self then default "UNKNOWN"%string to_string else "UNKNOWN"%string, if self then [AddrFree mid] else []).

Definition probe (env : environment) (addr : string) : option string * list event :=
  match instance env addr with
  | Some (mid, self, to_string) =>
      let '(s, tr) := query_addr mid self to_string in (Some s, [MargoInit addr] ++ tr ++ [MargoFinalize mid])
  | None => (None, [MargoInit addr])
  end.

Definition new_result (i : Z) (p : plugin) : members :=
  json_object_object_add "desc" (JString (p_desc p))
    (json_object_object_add "proto" (JString (p_proto p))
       (json_object_object_add "xport" (JString (p_xport p))
          (json_object_object_add "addr" (JString (p_addr p)) (json_object_object_add "index" (json_object_new_int i) [])))).

Definition set_result (found : option string) (l : members) : members :=
  match found with
  | Some s => json_object_object_add "example_runtime_addr" (JString s) (json_object_object_add "result" (JBool true) l)
  | None => json_object_object_add "example_runtime_addr" (JString "N/A") (json_object_object_add "result" (JBool false) l)
  end.

(** The loop: whether it met the target, its results, [None] when it leaves for the
    cleanup; and what it did. *)
Fixpoint probe_loop (env : environment) (target : option string) (i : Z) (l : list plugin) (matched : bool) (results : list (option json))
    : bool * option (list (option json)) * list event :=
  match l with
  | [] => (matched, Some results, [])
  | p :: l =>
      if (match target with Some t => negb (bool_decide (t = p_addr p)) | None => false end) then probe_loop env target (i + 1) l matched results
      else
        let matched := match target with Some _ => true | None => matched end in
        if negb (new_object env i) then (matched, None, [Out ("Error: JSON." +:+ NL)])
        else
          let '(found, tr) := probe env (p_addr p) in
          let json_result := JObject (set_result found (new_result i p)) in
          if negb (array_add env i) then (matched, None, tr ++ [Out ("Error: JSON." +:+ NL)])
          else let '(matched, r, tr') := probe_loop env target (i + 1) l matched (results ++ [Some json_result]) in (matched, r, tr ++ tr')
  end.

(** ** The report *)

(** Of a boolean, which is what Margo asks. *)
Definition json_object_get_boolean (j : option json) : bool := match j with Some (JBool b) => b | _ => false end.

Definition field (result : option json) (key : string) : string := default "(null)" (json_object_get_string (json_object_object_get result key)).

Definition row (color result_str : string) (result : option json) : list event :=
  [Out ("### " +:+ field result "desc" +:+ " ###" +:+ NL);
   Out (color +:+ field result "addr" +:+ TAB +:+ field result "xport" +:+ TAB +:+ field result "proto" +:+ TAB +:+ result_str +:+ TAB +:+
        field result "example_runtime_addr" +:+ NL +:+ ANSI_COLOR_RESET)]%string.

(** The macro [json_array_foreach], which stops at NULL as well. *)
Fixpoint json_array_foreach (f : option json -> list event) (l : list (option json)) : list event :=
  match l with Some j :: l => f (Some j) ++ json_array_foreach f l | _ => [] end.

Definition emit_results (results : list (option json)) (hostname : string) : list event :=
  [Text 458 461; Out ("# Available Margo (Mercury) network transports on host " +:+ ANSI_COLOR_MAGENTA +:+ hostname +:+ NL +:+ ANSI_COLOR_RESET);
   Text 466 475] ++
  json_array_foreach (fun r => if negb (json_object_get_boolean (json_object_object_get r "result")) then [] else row ANSI_COLOR_GREEN "YES" r) results ++
  json_array_foreach (fun r => if json_object_get_boolean (json_object_object_get r "result") then [] else row ANSI_COLOR_RED "NO" r) results.

Definition dl_callback (opts : options) (name : string) : list event :=
  if all_libraries_flag opts && (1 <? Z.of_nat (String.length name)) then [Out ("# - " +:+ name +:+ NL)]
  else if existsb (HgConfig.strstr name) comm_lib_strings then [Out ("# - " +:+ name +:+ NL)]
  else [].

(** The target that is not in the table. *)
Definition try_target (env : environment) (target : string) : Z * list event :=
  let '(found, tr) := probe env target in
  let head := [Out ("# WARNING: " +:+ quoted target +:+ " not supported by margo-info.  Try one of the following or run" +:+ NL +:+
                    "# margo-info with no arguments to probe for supported address types:" +:+ NL)]%string
              ++ map (fun p => Out ("    " +:+ p_addr p +:+ NL)%string) MARGO_KNOWN_HG_PLUGINS
              ++ [Text 254 254; Out ("# WARNING: attempting to intialize margo library with " +:+ quoted target +:+ " anyway:" +:+ NL)%string] in
  match found with
  | Some s => (0, head ++ tr ++ [Out (ANSI_COLOR_GREEN +:+ target +:+ TAB +:+ "YES" +:+ TAB +:+ "runtime address: " +:+ s +:+ NL +:+ ANSI_COLOR_RESET)%string])
  | None => (-1, head ++ tr ++ [Out (ANSI_COLOR_RED +:+ target +:+ TAB +:+ "NO" +:+ NL +:+ ANSI_COLOR_RESET)%string])
  end.

(** ** The stream of errors

    Both temporary files are opened by reopening [stderr], so both variables are
    [stderr] itself.  Reopening closes the stream; when it fails it stays closed. *)

Record streams := Streams { stderr_open : bool; tmp_stderr_stream : bool; json_stream : bool }.

(** Closing what is closed is undefined. *)
Definition fclose_stderr (s : streams) : option streams :=
  if stderr_open s then Some (Streams false (tmp_stderr_stream s) (json_stream s)) else None.

Definition redirect_stderr (env : environment) : streams * list event :=
  match tmp_stderr env with
  | None => (Streams true false false, [Text 153 155])
  | Some _ => (Streams (reopen_stderr env) (reopen_stderr env) false, [])
  end.

(** Writing the results: into [stderr] reopened. *)
Definition write_json (env : environment) (results : list (option json)) (s : streams) : option (streams * list event) :=
  if negb (stderr_open s) then None
  else match tmp_json env with
       | None => Some (s, [Text 338 340])
       | Some name =>
           if reopen_json env then
             Some (Streams true (tmp_stderr_stream s) true,
                   [ToJsonFile (json_text env (JArray results)); Text 349 349; Out ("#   " +:+ ANSI_COLOR_MAGENTA +:+ name +:+ NL +:+ ANSI_COLOR_RESET)%string])
           else None
       end.

Definition cleanup (s : streams) : option streams :=
  s ← if tmp_stderr_stream s then fclose_stderr s else Some s;
  if json_stream s then fclose_stderr s else Some s.

Definition leave (ret : Z) (s : streams) (tr : list event) : run := match cleanup s with Some _ => Exit ret tr | None => Undefined tr end.

(** ** The program *)

Definition report (env : environment) (opts : options) (results : list (option json)) (s : streams) (tr : list event) : run :=
  let tr := tr ++ emit_results results (default "UNKNOWN"%string (hostname env)) ++ [Text 284 329] ++
            (match tmp_stderr env with
             | Some name => if tmp_stderr_stream s then [Text 331 331; Out ("#   " +:+ ANSI_COLOR_MAGENTA +:+ name +:+ NL +:+ ANSI_COLOR_RESET)%string] else []
             | None => [] end) in
  match write_json env results s with
  | None => Undefined tr
  | Some (s, tr') =>
      leave 0 s (tr ++ tr' ++ [Text 353 360] ++ concat (map (dl_callback opts) (libraries env)) ++
                 (if all_libraries_flag opts then [] else [Text 365 371]) ++ [Text 373 376])
  end.

Definition main (env : environment) (argv : list string) : run :=
  match parse_args argv with
  | None => Exit 1 usage
  | Some opts =>
      let tr := match target_addr opts with Some _ => [VerboseLogging] | None => [] end in
      let '(s, tr') := redirect_stderr env in
      let tr := tr ++ tr' in
      if negb (new_array env) then leave (-1) s (tr ++ [Out ("Error: JSON." +:+ NL)%string])
      else
        match probe_loop env (target_addr opts) 0 MARGO_KNOWN_HG_PLUGINS false [] with
        | (_, None, tr') => leave (-1) s (tr ++ tr')
        | (matched, Some results, tr') =>
            match target_addr opts with
            | Some t =>
                if matched then report env opts results s (tr ++ tr')
                else let '(ret, tr2) := try_target env t in leave ret s (tr ++ tr' ++ tr2)
            | None => report env opts results s (tr ++ tr')
            end
        end
  end.

(** ** What is tried *)

Definition trace (r : run) : list event := match r with Exit _ tr | Undefined tr => tr end.

Definition selected (target : option string) (p : plugin) : Prop := match target with Some t => t = p_addr p | None => True end.
#[export] Instance selected_dec target p : Decision (selected target p).
Proof. unfold selected. destruct target; apply _. Defined.

(** The rows of the table that the arguments select, with their indices. *)
Fixpoint tried (target : option string) (i : Z) (l : list plugin) : list (Z * plugin) :=
  match l with
  | [] => []
  | p :: l => if decide (selected target p) then (i, p) :: tried target (i + 1) l else tried target (i + 1) l
  end.

Definition result_of (env : environment) (ip : Z * plugin) : option json :=
  Some (JObject (set_result (probe env (p_addr ip.2)).1 (new_result ip.1 ip.2))).

(** No failure of json-c. *)
Definition memory_suffices (env : environment) : Prop := new_array env = true /\ (forall i, new_object env i = true) /\ (forall i, array_add env i = true).

Lemma probe_loop_spec env target l : memory_suffices env -> forall i matched results,
  probe_loop env target i l matched results =
    (match target with Some _ => matched || negb (bool_decide (tried target i l = [])) | None => matched end,
     Some (results ++ map (result_of env) (tried target i l)), concat (map (fun ip => (probe env (p_addr ip.2)).2) (tried target i l))).
Proof.
  intros (_ & Hno & Hadd). induction l as [|p l IH]; intros i matched results; cbn [probe_loop tried].
  { rewrite app_nil_r. destruct target; [by rewrite orb_false_r|done]. }
  set (skip := match target with Some t => negb (bool_decide (t = p_addr p)) | None => false end).
  assert (skip = bool_decide (¬ selected target p)) as Hs.
  { unfold skip, selected. destruct target as [t|]; [by rewrite bool_decide_not|]. symmetry. apply bool_decide_eq_false. tauto. }
  rewrite Hs. destruct (decide _) as [Hp|Hp]; [rewrite bool_decide_eq_false_2 by tauto|by rewrite bool_decide_eq_true_2].
  rewrite Hno, Hadd. cbn [negb map concat]. destruct (probe env (p_addr p)) as [found tr] eqn:E. rewrite IH, <- app_assoc. cbn [app map].
  assert (result_of env (i, p) = Some (JObject (set_result found (new_result i p)))) as -> by (unfold result_of; cbn [fst snd]; by rewrite E).
  cbn [fst snd]. rewrite E. cbn [fst snd]. destruct target; [|reflexivity]. rewrite (bool_decide_eq_false_2 (_ :: _ = [])) by done. by rewrite orb_true_r.
Qed.

(** *** The rows of the report *)

Definition works (env : environment) (ip : Z * plugin) : bool := match (probe env (p_addr ip.2)).1 with Some _ => true | None => false end.

(** The two lines that stand for an address. *)
Definition row_of (env : environment) (ip : Z * plugin) : list event :=
  let p := ip.2 in
  let '(color, word, addr) := match (probe env (p_addr p)).1 with
                              | Some s => (ANSI_COLOR_GREEN, "YES", s) | None => (ANSI_COLOR_RED, "NO", "N/A") end%string in
  [Out ("### " +:+ p_desc p +:+ " ###" +:+ NL);
   Out (color +:+ p_addr p +:+ TAB +:+ p_xport p +:+ TAB +:+ p_proto p +:+ TAB +:+ word +:+ TAB +:+ addr +:+ NL +:+ ANSI_COLOR_RESET)]%string.

Lemma result_boolean env ip : json_object_get_boolean (json_object_object_get (result_of env ip) "result") = works env ip.
Proof. destruct ip as [i p]. unfold result_of, works. cbn [fst snd]. by destruct (probe env (p_addr p)) as [[s|] tr]. Qed.

Lemma row_result env ip :
  row (if works env ip then ANSI_COLOR_GREEN else ANSI_COLOR_RED) (if works env ip then "YES" else "NO") (result_of env ip) = row_of env ip.
Proof. destruct ip as [i p]. unfold row_of, row, field, result_of, works. cbn [fst snd]. by destruct (probe env (p_addr p)) as [[s|] tr]. Qed.

(** One pass over the results: the rows that the test keeps. *)
Lemma foreach_rows env (P : Z * plugin -> Prop) `{forall ip, Decision (P ip)} f l :
  (forall ip, f (result_of env ip) = if decide (P ip) then row_of env ip else []) ->
  json_array_foreach f (map (result_of env) l) = concat (map (row_of env) (filter P l)).
Proof.
  intros Hf. induction l as [|ip l IH]; [reflexivity|]. cbn [map]. unfold result_of at 1. cbn [json_array_foreach]. fold (result_of env ip).
  rewrite Hf, IH, filter_cons. by destruct (decide (P ip)).
Qed.

Lemma emit_results_spec env l h :
  emit_results (map (result_of env) l) h =
    [Text 458 461; Out ("# Available Margo (Mercury) network transports on host " +:+ ANSI_COLOR_MAGENTA +:+ h +:+ NL +:+ ANSI_COLOR_RESET); Text 466 475]
    ++ concat (map (row_of env) (filter (fun ip => works env ip = true) l)) ++ concat (map (row_of env) (filter (fun ip => works env ip = false) l)).
Proof.
  unfold emit_results. rewrite (foreach_rows env (fun ip => works env ip = true)), (foreach_rows env (fun ip => works env ip = false)); [reflexivity|..];
    intros ip; pose proof (row_result env ip) as Hr; rewrite result_boolean; by destruct (works env ip).
Qed.

(** ** What a run does *)

(** The calls of Margo, and the results file. *)
Definition margo_call (e : event) : Prop := match e with MargoInit _ | AddrFree _ | MargoFinalize _ => True | _ => False end.
#[export] Instance margo_call_dec e : Decision (margo_call e).
Proof. destruct e; apply _. Defined.

(** No call of Margo, and no other results than [js]. *)
Definition benign (js : string) (e : event) : Prop :=
  match e with ToJsonFile s => s = js | MargoInit _ | AddrFree _ | MargoFinalize _ => False | _ => True end.
Definition quiet (js : string) (l : list event) : Prop := Forall (benign js) l.

Lemma quiet_filter js l : quiet js l -> filter margo_call l = [].
Proof. induction 1 as [|e l He _ IH]; [reflexivity|]. rewrite filter_cons_False; [exact IH|]. destruct e; cbn in *; tauto. Qed.

Lemma quiet_file js l s : quiet js l -> ToJsonFile s ∈ l -> s = js.
Proof. intros Hq Hin. unfold quiet in Hq. rewrite Forall_forall in Hq. exact (Hq _ Hin). Qed.

Lemma quiet_concat {A} js (f : A -> list event) l : (forall a, quiet js (f a)) -> quiet js (concat (map f l)).
Proof. intros Hf. induction l as [|a l IH]; [constructor|]. cbn. apply Forall_app. split; [apply Hf|exact IH]. Qed.

Lemma probe_calls env l :
  filter margo_call (concat (map (fun ip => (probe env (p_addr ip.2)).2) l)) = concat (map (fun ip : Z * plugin => (probe env (p_addr ip.2)).2) l).
Proof.
  induction l as [|[i p] l IH]; [reflexivity|]. cbn [map concat fst snd]. rewrite filter_app, IH. f_equal. unfold probe.
  destruct (instance env (p_addr p)) as [[[mid self] ts]|]; [by destruct self|reflexivity].
Qed.

Lemma probe_no_file env l s : ToJsonFile s ∉ concat (map (fun ip : Z * plugin => (probe env (p_addr ip.2)).2) l).
Proof.
  intros Hin. induction l as [|[i p] l IH]; [by apply not_elem_of_nil in Hin|]. cbn [map concat fst snd] in Hin. apply elem_of_app in Hin as [Hin|?]; [|by apply IH].
  unfold probe in Hin. destruct (instance env (p_addr p)) as [[[mid self] ts]|]; [destruct self|]; cbn in Hin;
    repeat (apply elem_of_cons in Hin as [?|Hin]; [discriminate|]); by apply not_elem_of_nil in Hin.
Qed.

(** Solves [quiet] for what the program prints. *)
Ltac quiet_events :=
  repeat match goal with
         | |- quiet _ _ => unfold quiet
         | |- Forall _ [] => constructor
         | |- Forall _ (_ :: _) => constructor; [by cbn|]
         | |- Forall _ (_ ++ _) => apply Forall_app; split
         | |- Forall _ (concat _) => apply quiet_concat; intros ?
         | |- Forall _ (if ?b then _ else _) => destruct b
         | |- Forall _ (let '(_, _) := _ in _) => case_match
         end.

Lemma row_quiet js env ip : quiet js (row_of env ip).
Proof. unfold row_of. destruct (probe env (p_addr ip.2)).1; cbn; quiet_events. Qed.

Lemma dl_quiet js opts name : quiet js (dl_callback opts name).
Proof. unfold dl_callback. quiet_events. Qed.

(** When the program ends: at most one temporary file, and no failure to reopen. *)
Definition ends (env : environment) : bool :=
  match tmp_stderr env, tmp_json env with
  | None, None => true | None, Some _ => reopen_json env | Some _, None => reopen_stderr env | Some _, Some _ => false
  end.

(** The rows of the report, those that work first. *)
Definition rows_of (env : environment) (l : list (Z * plugin)) : list event :=
  concat (map (row_of env) (filter (fun ip => works env ip = true) l)) ++ concat (map (row_of env) (filter (fun ip => works env ip = false) l)).

Lemma rows_quiet js env l : quiet js (rows_of env l).
Proof. unfold rows_of. apply Forall_app. split; apply quiet_concat, row_quiet. Qed.

Lemma report_spec env opts l tr : exists before after,
  let tr' := tr ++ before ++ rows_of env l ++ after in
  report env opts (map (result_of env) l) (redirect_stderr env).1 tr = (if ends env then Exit 0 tr' else Undefined tr') /\
  quiet (json_text env (JArray (map (result_of env) l))) (before ++ rows_of env l ++ after).
Proof.
  assert (forall js l', quiet js l' -> forall l0 l1, quiet js (l0 ++ l1) -> quiet js (l0 ++ l' ++ l1)) as Happ.
  { intros js l' Hl' l0 l1 [H0 H1]%Forall_app. apply Forall_app. split; [exact H0|]. by apply Forall_app. }
  unfold report. rewrite emit_results_spec. fold (rows_of env l). unfold write_json, leave, cleanup, fclose_stderr, redirect_stderr, ends.
  eexists [_; _; _].
  destruct (tmp_stderr env) as [n1|], (reopen_stderr env), (tmp_json env) as [n2|], (reopen_json env); cbn [fst snd stderr_open tmp_stderr_stream json_stream negb mbind option_bind];
    (eexists; split; [f_equal; rewrite <- ?app_assoc; cbn [app]; reflexivity|apply Happ; [apply rows_quiet|]]).
  all: cbn [app]; quiet_events; apply dl_quiet.
Qed.

(** Without a failure of json-c, and with no address given or a known one, margo-info
    tries every address asked for once, in the order of the table, and finalizes
    each instance before the next one is made; its report has a row for each of
    them, those that work first, with the address the instance has; the file of
    results, if any, holds an object for each; and the run ends, with the code 0,
    only when one of the two temporary files is missing: when it has both, it closes
    the stream of errors twice. *)
Theorem info_report_exact env argv opts : parse_args argv = Some opts -> memory_suffices env ->
  (forall t, target_addr opts = Some t -> t ∈ map p_addr MARGO_KNOWN_HG_PLUGINS) ->
  let l := tried (target_addr opts) 0 MARGO_KNOWN_HG_PLUGINS in
  let tr := trace (main env argv) in
  main env argv = (if ends env then Exit 0 tr else Undefined tr) /\
  filter margo_call tr = concat (map (fun ip => (probe env (p_addr ip.2)).2) l) /\
  (exists before after, tr = before ++ rows_of env l ++ after) /\
  (forall s, ToJsonFile s ∈ tr -> s = json_text env (JArray (map (result_of env) l))).
Proof.
  intros Hargs Hmem Htarget l tr. set (js := json_text env (JArray (map (result_of env) l))).
  set (calls := concat (map (fun ip => (probe env (p_addr ip.2)).2) l)).
  assert (exists head before after, quiet js head /\ quiet js (before ++ rows_of env l ++ after) /\
    let tr' := (head ++ calls) ++ before ++ rows_of env l ++ after in main env argv = (if ends env then Exit 0 tr' else Undefined tr'))
    as (head & before & after & Hh & Hq & E).
  { unfold main. rewrite Hargs, (proj1 Hmem), (probe_loop_spec env (target_addr opts) MARGO_KNOWN_HG_PLUGINS Hmem). cbn [negb app]. fold l calls.
    set (head := (match target_addr opts with Some _ => [VerboseLogging] | None => [] end) ++ (redirect_stderr env).2).
    destruct (report_spec env opts l (head ++ calls)) as (before & after & E & Hq). exists head, before, after.
    split; [unfold head, redirect_stderr; destruct (target_addr opts), (tmp_stderr env); cbn; quiet_events|]. split; [exact Hq|].
    destruct (redirect_stderr env) as [s tr0]. cbn [fst snd] in *. rewrite <- E. fold head. destruct (target_addr opts) as [t|] eqn:Et; [|reflexivity].
    assert (l ≠ []) as Hl. { specialize (Htarget t eq_refl). clear - Htarget. unfold l. clear l. revert Htarget. generalize 0.
      induction MARGO_KNOWN_HG_PLUGINS as [|p ps IH]; intros i Hin; [by apply not_elem_of_nil in Hin|]. cbn [map tried] in *.
      destruct (decide (selected (Some t) p)) as [|Hn]; [done|]. apply elem_of_cons in Hin as [->|Hin]; [by destruct Hn|by apply IH]. }
    by rewrite bool_decide_eq_false_2 by exact Hl. }
  assert (tr = (head ++ calls) ++ before ++ rows_of env l ++ after) as Etr by (unfold tr; rewrite E; by destruct (ends env)).
  split; [rewrite Etr; exact E|]. rewrite Etr. split; [|split].
  - rewrite !filter_app, (quiet_filter js head Hh), <- !filter_app, (quiet_filter js _ Hq), app_nil_r. apply probe_calls.
  - exists ((head ++ calls) ++ before), after. by rewrite <- !app_assoc.
  - intros s Hs. apply elem_of_app in Hs as [Hs|Hs]; [|exact (quiet_file js _ s Hq Hs)]. apply elem_of_app in Hs as [Hs|Hs]; [exact (quiet_file js head s Hh Hs)|].
    exfalso. exact (probe_no_file env l s Hs).
Qed.

(** A machine where only shared memory works, with both temporary files. *)
Definition demo_env : environment :=
  Environment (Some "/tmp/margo-info-stderr-1"%string) true (Some "host"%string) true (fun _ => true) (fun _ => true)
    (fun a => if bool_decide (a = "na+sm://"%string) then Some (1, true, Some "na+sm://7-0"%string) else None)
    (Some "/tmp/margo-info-json-1"%string) true (fun _ => "json"%string) [].

Lemma info_report_exact_witness :
  ends demo_env = false /\ filter margo_call (trace (main demo_env ["na+sm://"%string])) = [MargoInit "na+sm://"; AddrFree 1; MargoFinalize 1].
Proof.
  split; [reflexivity|].
  destruct (info_report_exact demo_env ["na+sm://"%string] (Options false (Some "na+sm://"%string)) eq_refl) as (_ & E & _).
  - by split_and!.
  - intros t [= <-]. apply (bool_decide_eq_true_1 _). vm_compute. reflexivity.
  - rewrite E. vm_compute. reflexivity.
Defined.
