(* ===== verification/Sleep.v ===== *)
(** * Sleeping (src/margo-core.c)

    [margo_thread_sleep] starts a timer without a pool, whose callback the progress
    loop runs, and waits for the callback on a condition variable.  Sleepers
    interleave with each other, with the checks of the timer list and with its
    release at the end of the instance; the list is that of Timer. *)

From Stdlib Require Import QArith Lqa.
From stdpp Require Import gmultiset.
From S2P Require Import Prelude Utlist.
From S2P Require Timer.

#[local] Open Scope Z_scope.

(** ** Data *)

(** Where a sleeping thread is: its timer created, started, about to test
    [is_asleep], in [ABT_cond_wait], past the loop, its timer destroyed. *)
Inductive phase := Created | Started | Testing | Blocked | Leaving | Destroyed.

#[export] Instance phase_eq_dec : EqDecision phase.
Proof. solve_decision. Defined.

(** The local variables of a call, [margo_thread_sleep_cb_dat] and the timer. *)
Record sleeper := Sleeper { sleep_timer : loc; is_asleep : bool; at_phase : phase }.

(** A sleeper is known by the address of its [sleep_cb_dat], which its timer has;
    [needed] is the count of the when-needed mode. *)
Record state := State { tl : Timer.state; needed : Z; sleepers : gmap Z sleeper }.

Definition move (p : phase) (sl : sleeper) : sleeper := Sleeper (sleep_timer sl) (is_asleep sl) p.
Definition set_phase (k : Z) (p : phase) (s : state) : state := State (tl s) (needed s) (alter (move p) k (sleepers s)).

Section Sleeping.
(** Whether [ABT_thread_create] succeeds on the pool of a timer of somebody else. *)
Context (thread_create : Z -> bool).

(** ** The callback *)

(** The signal makes a thread that is blocked test again. *)
Definition wake (sl : sleeper) : sleeper := Sleeper (sleep_timer sl) false (if decide (at_phase sl = Blocked) then Testing else at_phase sl).
Definition margo_thread_sleep_cb (k : Z) (m : gmap Z sleeper) : gmap Z sleeper := alter wake k m.

(** The callbacks of the timers [l], one after the other. *)
Definition callbacks (m : gmap loc Timer.margo_timer) (l : list loc) (sl : gmap Z sleeper) : gmap Z sleeper :=
  foldl (fun sl t => match m !! t with Some x => margo_thread_sleep_cb (Timer.cb x) sl | None => sl end) sl l.

(** The timers that the list has fired itself, in order. *)
Definition new_fired (s s' : Timer.state) : list loc := rev (take (length (Timer.fired s') - length (Timer.fired s)) (Timer.fired s')).

(** ** The steps of a call *)

(** The code of the creation is not looked at: when it fails, the timer is an
    uninitialised variable. *)
Definition sleep_create (k : Z) (new : loc) (s : state) : option state :=
  let '(ret, l) := Timer.margo_timer_create_with_pool (tl s) k None new in
  if ret =? 0 then Some (State l (needed s) (<[k := Sleeper new true Created]> (sleepers s))) else None.

(** The code of the start is not looked at either. *)
Definition sleep_start (k : Z) (now timeout_ms : Q) (s : state) : option state :=
  sl ← sleepers s !! k;
  '(_, l) ← Timer.margo_timer_start (tl s) now timeout_ms (sleep_timer sl);
  Some (set_phase k Started (State l (needed s) (sleepers s))).

Definition sleep_incr (k : Z) (s : state) : state := set_phase k Testing (State (tl s) (u64 (needed s + 1)) (sleepers s)).

(** The test of the loop, with the mutex held. *)
Definition sleep_test (k : Z) (s : state) : option state :=
  sl ← sleepers s !! k; Some (set_phase k (if is_asleep sl then Blocked else Leaving) s).

Definition sleep_destroy (k : Z) (s : state) : option state :=
  sl ← sleepers s !! k;
  l ← Timer.margo_timer_destroy (tl s) (sleep_timer sl);
  Some (set_phase k Destroyed (State l (needed s) (sleepers s))).

Definition sleep_return (k : Z) (s : state) : state := State (tl s) (u64 (needed s - 1)) (delete k (sleepers s)).

(** What the progress loop and the end of the instance do to the list. *)
Definition run_check (now : Q) (s : state) : option state :=
  l ← Timer.__margo_check_timers thread_create now (tl s);
  Some (State l (needed s) (callbacks (Timer.timers (tl s)) (new_fired (tl s) l) (sleepers s))).

Definition run_free (s : state) : option state :=
  l ← Timer.__margo_timer_list_free thread_create (tl s);
  Some (State l (needed s) (callbacks (Timer.timers (tl s)) (new_fired (tl s) l) (sleepers s))).

(** ** Interleavings *)

Inductive label := LCreate (k : Z) | LStart (k : Z) (now timeout_ms : Q) | LIncr (k : Z) | LTest (k : Z) | LDestroy (k : Z) | LReturn (k : Z)
  | LCheck (now : Q) | LFree.

Definition in_phase (k : Z) (p : phase) (s : state) : Prop := at_phase <$> sleepers s !! k = Some p.

(** Numbers of ULTs that the counter of the list can hold. *)
Definition bounded (s : state) : Prop := Timer.tl_num_pending (tl s) + Z.of_nat (size (Timer.timers (tl s))) < 2 ^ 64.

(** Nobody sleeps on an instance whose list is being released: [sleep_create] would be undefined. *)
Inductive sstep : state -> label -> state -> Prop :=
  | st_create s k new s' : sleepers s !! k = None -> Timer.timers (tl s) !! new = None ->
      (forall t x, Timer.timers (tl s) !! t = Some x -> Timer.cb x ≠ k) -> Timer.tl_destroy_requested (tl s) = false ->
      sleep_create k new s = Some s' -> sstep s (LCreate k) s'
  | st_start s k now tmo s' : in_phase k Created s -> sleep_start k now tmo s = Some s' -> sstep s (LStart k now tmo) s'
  | st_incr s k : in_phase k Started s -> sstep s (LIncr k) (sleep_incr k s)
  | st_test s k s' : in_phase k Testing s -> sleep_test k s = Some s' -> sstep s (LTest k) s'
  | st_destroy s k s' : in_phase k Leaving s -> sleep_destroy k s = Some s' -> sstep s (LDestroy k) s'
  | st_return s k : in_phase k Destroyed s -> sstep s (LReturn k) (sleep_return k s)
  | st_check s now s' : bounded s -> run_check now s = Some s' -> sstep s (LCheck now) s'
  | st_free s s' : bounded s -> Timer.tl_destroy_requested (tl s) = false -> run_free s = Some s' -> sstep s LFree s'.

(** From a list that others use already; the last label is the first of the trace. *)
Inductive sruns (l0 : Timer.state) (n0 : Z) : list label -> state -> Prop :=
  | sruns_nil : sruns l0 n0 [] (State l0 n0 ∅)
  | sruns_cons tr s a s' : sruns l0 n0 tr s -> sstep s a s' -> sruns l0 n0 (a :: tr) s'.

(** The date of the last start of a sleeper, and whether, since that start, the list
    was checked after that date or released. *)
Fixpoint asked (k : Z) (tr : list label) : option Q :=
  match tr with
  | [] => None
  | LStart k' now tmo :: tr => if decide (k' = k) then Some (now + tmo / 1000)%Q else asked k tr
  | _ :: tr => asked k tr
  end.

Fixpoint slept (k : Z) (checks : list Q) (tr : list label) : Prop :=
  match tr with
  | [] => False
  | LStart k' now tmo :: tr => if decide (k' = k) then Exists (fun c => now + tmo / 1000 < c)%Q checks else slept k checks tr
  | LCheck c :: tr => slept k (c :: checks) tr
  | LFree :: tr => True
  | _ :: tr => slept k checks tr
  end.
End Sleeping.

(** ** What the list and the sleepers know of each other *)

Definition freed (s : state) : Prop := Timer.tl_destroy_requested (tl s) = true.
Definition counted (p : phase) : Prop := p = Testing \/ p = Blocked \/ p = Leaving \/ p = Destroyed.
#[export] Instance counted_dec p : Decision (counted p).
Proof. unfold counted. apply _. Defined.

(** The sleepers that the count of the when-needed mode includes. *)
Definition awaited (m : gmap Z sleeper) : gset Z := dom (filter (fun e => counted (at_phase e.2)) m).

(** A sleeper with its timer: asleep while the timer is queued for the date asked,
    and awake once it is not - unless the list is released. *)
Record ready (tr : list label) (q : list loc) (f : Prop) (k : Z) (sl : sleeper) (x : Timer.margo_timer) : Prop := {
  rd_cb : Timer.cb x = k; rd_pool : Timer.pool x = None; rd_canceled : Timer.canceled x = false;
  rd_created : at_phase sl = Created -> sleep_timer sl ∉ q /\ is_asleep sl = true;
  rd_blocked : at_phase sl = Blocked -> is_asleep sl = true;
  rd_leaving : at_phase sl = Leaving -> is_asleep sl = false;
  rd_asleep : is_asleep sl = true -> at_phase sl ≠ Created ->
    sleep_timer sl ∈ q /\ asked k tr = Some (Timer.expiration x) \/ f /\ sleep_timer sl ∉ q;
  rd_awake : is_asleep sl = false -> sleep_timer sl ∉ q /\ slept k [] tr
}.

Record inv (n0 : Z) (tr : list label) (s : state) (q : list loc) : Prop := {
  iv_tl : Timer.tinv (tl s) q;
  iv_cb : forall t x sl, Timer.timers (tl s) !! t = Some x -> sleepers s !! Timer.cb x = Some sl -> at_phase sl ≠ Destroyed /\ t = sleep_timer sl;
  iv_sl : forall k sl, sleepers s !! k = Some sl -> at_phase sl ≠ Destroyed ->
    sleep_timer sl ∉ Timer.submitted (tl s) ⊎ Timer.running (tl s) /\
    exists x, Timer.timers (tl s) !! sleep_timer sl = Some x /\ ready tr q (freed s) k sl x;
  iv_needed : needed s = u64 (n0 + Z.of_nat (size (awaited (sleepers s))))
}.

Lemma elem_awaited m k : k ∈ awaited m <-> exists sl, m !! k = Some sl /\ counted (at_phase sl).
Proof.
  unfold awaited. rewrite elem_of_dom. split.
  - intros [sl [Hm Hc]%map_lookup_filter_Some]. by exists sl.
  - intros (sl & Hm & Hc). exists sl. by apply map_lookup_filter_Some.
Qed.

(** Updating sleepers in a way that does not change whether they count. *)
Definition counts (sl : sleeper) : bool := bool_decide (counted (at_phase sl)).

Lemma awaited_ext m m' : (forall k, counts <$> m' !! k = counts <$> m !! k) -> awaited m' = awaited m.
Proof.
  assert (forall m m', (forall k, counts <$> m' !! k = counts <$> m !! k) -> awaited m' ⊆ awaited m) as Hsub.
  { clear. intros m m' Hm k (sl & Hk & Hc)%elem_awaited. apply elem_awaited. specialize (Hm k). rewrite Hk in Hm.
    destruct (m !! k) as [sl'|]; [|done]. injection Hm as Hm. exists sl'. split; [done|]. unfold counts in Hm. rewrite (bool_decide_eq_true_2 _ Hc) in Hm.
    exact (bool_decide_eq_true_1 _ (eq_sym Hm)). }
  intros Hm. apply set_eq. intros k. split; apply Hsub; [exact Hm|]. intros k'. by rewrite Hm.
Qed.

Lemma counts_wake sl : counts (wake sl) = counts sl.
Proof. unfold counts, wake. cbn. destruct (decide (at_phase sl = Blocked)) as [->|]; done. Qed.

Lemma slept_perm k tr : forall cs cs', cs ≡ₚ cs' -> slept k cs tr -> slept k cs' tr.
Proof.
  induction tr as [|a tr IH]; intros cs cs' Hp; [done|]. destruct a as [| k' now tmo | | | | |d|]; cbn; try exact (IH cs cs' Hp); [|..|done].
  - destruct (decide (k' = k)); [by rewrite Hp|by apply IH].
  - apply IH. by rewrite Hp.
Qed.

Lemma slept_more k tr : forall cs c, slept k cs tr -> slept k (c :: cs) tr.
Proof.
  induction tr as [|a tr IH]; intros cs c; [done|]. destruct a as [| k' now tmo | | | | |d|]; cbn; try exact (IH cs c); [|..|done].
  - destruct (decide (k' = k)); [by intros; apply Exists_cons_tl|apply IH].
  - intros Hs. eapply slept_perm; [apply Permutation_swap|]. by apply IH.
Qed.

Lemma asked_slept k tr e cs : asked k tr = Some e -> Exists (fun c => e < c)%Q cs -> slept k cs tr.
Proof.
  revert cs. induction tr as [|a tr IH]; intros cs; [done|]. destruct a as [| k' now tmo | | | | |d|]; cbn; try apply IH; [|..|done].
  - destruct (decide (k' = k)); [by intros [= <-]|apply IH].
  - intros E Hc. apply IH; [exact E|]. by apply Exists_cons_tl.
Qed.

(** *** The callbacks *)

Lemma wake_idem sl : wake (wake sl) = wake sl.
Proof. unfold wake. cbn. destruct (decide (at_phase sl = Blocked)); [done|]. by rewrite decide_False. Qed.

Lemma callbacks_lookup m l k : forall sl,
  callbacks m l sl !! k = if decide (Exists (fun t => Timer.cb <$> m !! t = Some k) l) then wake <$> sl !! k else sl !! k.
Proof.
  induction l as [|t l IH]; intros sl; [by rewrite decide_False by (by intros ?%Exists_nil)|].
  unfold callbacks. cbn [foldl]. fold (callbacks m l). change (foldl _ ?b l) with (callbacks m l b). rewrite IH.
  assert ((match m !! t with Some x => margo_thread_sleep_cb (Timer.cb x) sl | None => sl end) !! k =
          if decide (Timer.cb <$> m !! t = Some k) then wake <$> sl !! k else sl !! k) as ->.
  { destruct (m !! t) as [x|]; [|by rewrite decide_False]. unfold margo_thread_sleep_cb. cbn. rewrite lookup_alter.
    destruct (decide (Timer.cb x = k)) as [->|Hn]; [by rewrite decide_True|]. rewrite decide_False; [done|congruence]. }
  destruct (decide (Timer.cb <$> m !! t = Some k)) as [Ht|Ht].
  - rewrite (decide_True (P := Exists _ (t :: l))) by (by apply Exists_cons_hd).
    destruct (decide (Exists _ l)); [|done]. destruct (sl !! k); cbn; [by rewrite wake_idem|done].
  - destruct (decide (Exists _ l)) as [He|He].
    + by rewrite decide_True by (by apply Exists_cons_tl).
    + rewrite decide_False; [done|]. intros [?|?]%Exists_cons; done.
Qed.

Lemma new_fired_spec s s' l : Timer.fired s' = rev l ++ Timer.fired s -> new_fired s s' = l.
Proof.
  intros E. unfold new_fired. rewrite E, length_app, Nat.add_sub, take_app_length. apply rev_involutive.
Qed.

(** Firing the timers [a] at the head of the list, in a check or in the release. *)
Section fired.
Context (n0 : Z) (tr : list label) (s : state) (a b : list loc) (lab : label) (S l : Timer.state).
Context (Hinv : inv n0 tr s (a ++ b)) (HS : Timer.timers S = Timer.timers (tl s)) (HSs : Timer.submitted S = Timer.submitted (tl s))
  (HSr : Timer.running S = Timer.running (tl s)) (HSf : Timer.fired S = Timer.fired (tl s)).
Context (Hfires : Timer.fires S l a) (Hl : Timer.tinv l b) (Hfreed : freed s -> Timer.tl_destroy_requested l = true).
Context (Hasked : forall k, asked k (lab :: tr) = asked k tr) (Hslept : forall k, slept k [] tr -> slept k [] (lab :: tr)).
Context (Hdue : forall k t x, t ∈ a -> Timer.timers (tl s) !! t = Some x -> asked k tr = Some (Timer.expiration x) -> slept k [] (lab :: tr)).

Let s' : state := State l (needed s) (callbacks (Timer.timers (tl s)) (new_fired (tl s) l) (sleepers s)).

(** Exactly the sleepers whose timer is fired are woken. *)
Lemma fired_sleeper k sl : sleepers s !! k = Some sl ->
  sleepers s' !! k = Some (if decide (at_phase sl ≠ Destroyed /\ sleep_timer sl ∈ a) then wake sl else sl).
Proof.
  intros Hk. subst s'. cbn. rewrite callbacks_lookup, Hk.
  rewrite (new_fired_spec (tl s) l (Timer.inlined (Timer.timers S) a)) by (by rewrite (Timer.fi_fired _ _ _ Hfires), HSf). rewrite HS.
  destruct (decide (Exists _ _)) as [He|He], (decide (_ /\ _)) as [[Hd Ha]|Hn]; try done; exfalso.
  - apply Exists_exists in He as (t & Ht & E). destruct (Timer.timers (tl s) !! t) as [x|] eqn:Hx; [|done]. injection E as E.
    destruct (iv_cb _ _ _ _ Hinv t x sl Hx) as [Hd ->]; [by rewrite E|]. apply Hn. split; [exact Hd|].
    unfold Timer.inlined in Ht. apply list_elem_of_In, List.filter_In in Ht as [Ht _]. by apply list_elem_of_In.
  - apply He. apply Exists_exists. destruct (iv_sl _ _ _ _ Hinv k sl Hk Hd) as (_ & x & Hx & Hr). exists (sleep_timer sl). split.
    + unfold Timer.inlined. apply list_elem_of_In, List.filter_In. split; [by apply list_elem_of_In|]. unfold Timer.has_pool. rewrite Hx. cbn. by rewrite (rd_pool _ _ _ _ _ _ Hr).
    + rewrite Hx. cbn. by rewrite (rd_cb _ _ _ _ _ _ Hr).
Qed.

Lemma fired_timer t x : Timer.timers (tl s) !! t = Some x -> exists x', Timer.timers l !! t = Some x' /\ Timer.fixed x' = Timer.fixed x.
Proof.
  intros Hx. pose proof (Timer.fi_fixed _ _ _ Hfires t) as E. rewrite HS, Hx in E. destruct (Timer.timers l !! t) as [x'|]; [|done].
  injection E as E. exists x'. split; [reflexivity|]. unfold Timer.fixed. congruence.
Qed.

Lemma inv_fired : inv n0 (lab :: tr) s' b.
Proof.
  pose proof (Timer.tinv_nodup _ _ (iv_tl _ _ _ _ Hinv)) as Hnd. apply NoDup_app in Hnd as (_ & Hab & _). split.
  - exact Hl.
  - intros t x' sl' Hx' Hsl'. pose proof (Timer.fi_fixed _ _ _ Hfires t) as E. rewrite HS in E. cbn in Hx'. rewrite Hx' in E.
    destruct (Timer.timers (tl s) !! t) as [x|] eqn:Hx; [|done]. injection E as Ec _ _ _ _. rewrite Ec in Hsl'.
    destruct (sleepers s !! Timer.cb x) as [sl|] eqn:Hsl.
    + rewrite (fired_sleeper _ _ Hsl) in Hsl'. injection Hsl' as <-. destruct (iv_cb _ _ _ _ Hinv t x sl Hx Hsl) as [Hd Et].
      destruct (decide _); [|done]. cbn. split; [by destruct (decide (at_phase sl = Blocked))|exact Et].
    + subst s'. cbn in Hsl'. rewrite callbacks_lookup, Hsl in Hsl'. by destruct (decide _).
  - intros k sl' Hk' Hd'. destruct (sleepers s !! k) as [sl|] eqn:Hk; [|subst s'; cbn in Hk'; rewrite callbacks_lookup, Hk in Hk'; by destruct (decide _)].
    rewrite (fired_sleeper _ _ Hk) in Hk'. injection Hk' as <-.
    assert (at_phase sl ≠ Destroyed) as Hd by (destruct (decide (_ /\ _)) as [[? _]|]; done).
    destruct (iv_sl _ _ _ _ Hinv k sl Hk Hd) as (Hul & x & Hx & Hr). destruct (fired_timer _ _ Hx) as (x' & Hx' & E). injection E as Ec Ep Ee Eca _.
    assert (sleep_timer (if decide (at_phase sl ≠ Destroyed /\ sleep_timer sl ∈ a) then wake sl else sl) = sleep_timer sl) as Et by (by destruct (decide _)).
    rewrite Et. split.
    { cbn. rewrite (Timer.fi_running _ _ _ Hfires), (Timer.fi_submitted _ _ _ Hfires), HSs, HSr, HS. intros [[Hs|Hp]%gmultiset_elem_of_disj_union|Hs]%gmultiset_elem_of_disj_union;
        [apply Hul, gmultiset_elem_of_disj_union; by left| |apply Hul, gmultiset_elem_of_disj_union; by right].
      apply elem_of_list_to_set_disj in Hp. unfold Timer.pooled in Hp. apply list_elem_of_In, List.filter_In in Hp as [_ Hp].
      unfold Timer.has_pool in Hp. rewrite Hx in Hp. cbn in Hp. by rewrite (rd_pool _ _ _ _ _ _ Hr) in Hp. }
    exists x'. split; [exact Hx'|]. destruct Hr as [R1 R2 R3 R4 R5 R6 R7 R8]. destruct (decide _) as [[_ Ha]|Hna].
    + assert (sleep_timer sl ∈ a ++ b) as Hq by (apply elem_of_app; by left).
      assert (at_phase sl ≠ Created) as Hc by (intros Hc; by apply (R4 Hc)).
      assert (is_asleep sl = true) as Has by (destruct (is_asleep sl) eqn:Has; [done|]; by destruct (R8 eq_refl)).
      split; cbn; try congruence; try by destruct (decide (at_phase sl = Blocked)).
      intros _. split; [by apply Hab|]. destruct (R7 Has Hc) as [[_ Ha']|[_ ?]]; [|done]. by eapply Hdue.
    + assert (sleep_timer sl ∉ a) as Hna' by tauto.
      assert (sleep_timer sl ∈ b <-> sleep_timer sl ∈ a ++ b) as Hiff by (rewrite elem_of_app; tauto).
      split; try congruence.
      * rewrite Hiff. exact R4.
      * exact R5.
      * exact R6.
      * rewrite Hiff, Hasked, Ee. intros H1 H2. destruct (R7 H1 H2) as [?|[? ?]]; [by left|right]. split; [by apply Hfreed|done].
      * rewrite Hiff. intros H1. destruct (R8 H1). split; [done|by apply Hslept].
  - subst s'. cbn. rewrite (iv_needed _ _ _ _ Hinv). do 4 f_equal. symmetry. apply awaited_ext. intros k. rewrite callbacks_lookup.
    destruct (decide _); [|done]. destruct (sleepers s !! k) as [sl|]; cbn; [by rewrite counts_wake|done].
Qed.
End fired.

(** ** Every step keeps the invariant *)

(** A trace, a queue and a timer that say the same of a sleeper. *)
Lemma ready_weaken tr tr' q q' (f f' : Prop) k sl x x' :
  asked k tr' = asked k tr -> (slept k [] tr -> slept k [] tr') -> (sleep_timer sl ∈ q' <-> sleep_timer sl ∈ q) -> (f -> f') ->
  Timer.fixed x' = Timer.fixed x -> ready tr q f k sl x -> ready tr' q' f' k sl x'.
Proof.
  intros Ha Hs Hq Hf E [R1 R2 R3 R4 R5 R6 R7 R8]. injection E as E1 E2 E3 E4 _. split; try congruence; try done.
  - rewrite Hq. exact R4.
  - rewrite Hq, Ha, E3. intros H1 H2. destruct (R7 H1 H2) as [?|[? ?]]; [by left|right; by split; [apply Hf|]].
  - rewrite Hq. intros H1. destruct (R8 H1). split; [done|by apply Hs].
Qed.

(** A label that no sleeper but its own looks at. *)
Definition neutral (lab : label) : Prop := match lab with LStart _ _ _ | LCheck _ | LFree => False | _ => True end.

Lemma neutral_asked lab k tr : neutral lab -> asked k (lab :: tr) = asked k tr.
Proof. by destruct lab. Qed.
Lemma neutral_slept lab k tr : neutral lab -> slept k [] tr -> slept k [] (lab :: tr).
Proof. by destruct lab. Qed.

Lemma ready_neutral lab tr q f k sl x : neutral lab -> ready tr q f k sl x -> ready (lab :: tr) q f k sl x.
Proof. intros Hl. apply ready_weaken; [by apply neutral_asked|by apply neutral_slept|done..]. Qed.

(** Moving a sleeper that has started. *)
Lemma inv_move n0 tr lab s q k sl p n : inv n0 tr s q -> neutral lab -> sleepers s !! k = Some sl -> at_phase sl ≠ Created -> at_phase sl ≠ Destroyed ->
  p ≠ Created -> p ≠ Destroyed -> (p = Blocked -> is_asleep sl = true) -> (p = Leaving -> is_asleep sl = false) ->
  n = u64 (n0 + Z.of_nat (size (awaited (alter (move p) k (sleepers s))))) ->
  inv n0 (lab :: tr) (set_phase k p (State (tl s) n (sleepers s))) q.
Proof.
  intros Hi Hlab Hk Hc Hd Hpc Hpd Hpb Hpl Hn. split; cbn; [exact (iv_tl _ _ _ _ Hi)|..|exact Hn].
  - intros t x sl'. rewrite lookup_alter. destruct (decide (k = Timer.cb x)) as [->|Hne]; [|apply (iv_cb _ _ _ _ Hi)].
    rewrite Hk. intros Hx [= <-]. cbn. by destruct (iv_cb _ _ _ _ Hi t x sl Hx Hk).
  - intros k' sl'. rewrite lookup_alter. destruct (decide (k = k')) as [<-|Hne].
    + rewrite Hk. intros [= <-] _. destruct (iv_sl _ _ _ _ Hi k sl Hk Hd) as (Hul & x & Hx & Hr). split; [exact Hul|]. exists x. split; [exact Hx|].
      apply (ready_neutral lab) in Hr as [R1 R2 R3 R4 R5 R6 R7 R8]; [|exact Hlab]. split; try done. intros H1 _. by apply R7.
    + intros Hk' Hd'. destruct (iv_sl _ _ _ _ Hi k' sl' Hk' Hd') as (Hul & x & Hx & Hr). split; [exact Hul|]. exists x. split; [exact Hx|].
      by apply ready_neutral.
Qed.

Lemma awaited_alter m k sl p : m !! k = Some sl -> counted p -> awaited (alter (move p) k m) = {[k]} ∪ awaited m.
Proof.
  intros Hk Hp. apply set_eq. intros k'. rewrite elem_of_union, elem_of_singleton, !elem_awaited. setoid_rewrite lookup_alter.
  destruct (decide (k = k')) as [<-|Hne].
  - rewrite Hk. split; [by left|]. intros _. eexists. split; [reflexivity|exact Hp].
  - split; [by right|]. intros [->|?]; done.
Qed.

Lemma inv_incr n0 tr s q k : inv n0 tr s q -> in_phase k Started s -> inv n0 (LIncr k :: tr) (sleep_incr k s) q.
Proof.
  unfold in_phase. intros Hi Hp. destruct (sleepers s !! k) as [sl|] eqn:Hk; [|done]. injection Hp as Hp. unfold sleep_incr.
  eapply inv_move; [exact Hi|done|exact Hk|congruence..|]. rewrite (iv_needed _ _ _ _ Hi), u64_add_l. f_equal.
  rewrite (awaited_alter _ _ sl) by (done || by left). rewrite size_union, size_singleton; [lia|].
  intros k' ->%elem_of_singleton (sl' & Hk' & Hc)%elem_awaited. rewrite Hk in Hk'. injection Hk' as <-. rewrite Hp in Hc. by destruct Hc as [?|[?|[?|?]]].
Qed.

Lemma inv_test n0 tr s q k s' : inv n0 tr s q -> in_phase k Testing s -> sleep_test k s = Some s' -> inv n0 (LTest k :: tr) s' q.
Proof.
  unfold in_phase, sleep_test. intros Hi Hp. destruct (sleepers s !! k) as [sl|] eqn:Hk; [|done]. injection Hp as Hp. intros [= <-].
  assert (set_phase k (if is_asleep sl then Blocked else Leaving) s = set_phase k (if is_asleep sl then Blocked else Leaving) (State (tl s) (needed s) (sleepers s))) as -> by done.
  eapply inv_move; [exact Hi|done|exact Hk|congruence|congruence|by destruct (is_asleep sl)..|]. rewrite (iv_needed _ _ _ _ Hi). do 4 f_equal. symmetry. apply awaited_ext.
  intros k'. rewrite lookup_alter. destruct (decide (k = k')) as [<-|]; [|done]. rewrite Hk. cbn. f_equal. unfold counts. cbn. rewrite Hp. by destruct (is_asleep sl).
Qed.

Lemma inv_return n0 tr s q k : inv n0 tr s q -> in_phase k Destroyed s -> inv n0 (LReturn k :: tr) (sleep_return k s) q.
Proof.
  unfold in_phase, sleep_return. intros Hi Hp. destruct (sleepers s !! k) as [sl|] eqn:Hk; [|done]. injection Hp as Hp. split; cbn.
  - exact (iv_tl _ _ _ _ Hi).
  - intros t x sl'. rewrite lookup_delete. destruct (decide _); [done|]. apply (iv_cb _ _ _ _ Hi).
  - intros k' sl'. rewrite lookup_delete. destruct (decide _); [done|]. intros Hk' Hd'. destruct (iv_sl _ _ _ _ Hi k' sl' Hk' Hd') as (Hul & x & Hx & Hr).
    split; [exact Hul|]. exists x. split; [exact Hx|]. by apply (ready_neutral (LReturn k)).
  - rewrite (iv_needed _ _ _ _ Hi). unfold Z.sub. rewrite u64_add_l. f_equal.
    assert (k ∈ awaited (sleepers s)) as Hin by (apply elem_awaited; exists sl; split; [exact Hk|rewrite Hp; do 3 right; done]).
    assert (awaited (delete k (sleepers s)) = awaited (sleepers s) ∖ {[k]}) as ->.
    { apply set_eq. intros k'. rewrite elem_of_difference, elem_of_singleton, !elem_awaited. setoid_rewrite lookup_delete.
      destruct (decide (k = k')) as [<-|Hne]; [|naive_solver]. split; [by intros (? & ? & _)|by intros [_ ?]]. }
    rewrite size_difference by (by apply singleton_subseteq_l). rewrite size_singleton.
    assert (size (awaited (sleepers s)) ≠ 0%nat) by (intros E%size_empty_inv; apply E in Hin; by apply not_elem_of_empty in Hin). lia.
Qed.

Lemma inv_create n0 tr s q k new s' : inv n0 tr s q -> sleepers s !! k = None -> Timer.timers (tl s) !! new = None ->
  (forall t x, Timer.timers (tl s) !! t = Some x -> Timer.cb x ≠ k) -> sleep_create k new s = Some s' -> inv n0 (LCreate k :: tr) s' q.
Proof.
  intros Hi Hk Hnew Hcb. unfold sleep_create. destruct (Timer.tl_destroy_requested (tl s)) eqn:Hf.
  { unfold Timer.margo_timer_create_with_pool. by rewrite Hf. }
  destruct (Timer.create_spec (tl s) q k None new (iv_tl _ _ _ _ Hi) Hnew Hf) as (l & -> & Hl & Ht & Hs & Hr & _ & Hd). intros [= <-].
  assert (new ∉ q) as Hnq by (intros Hq; destruct (Timer.tinv_timer _ _ _ (iv_tl _ _ _ _ Hi) Hq); congruence).
  split; cbn; [exact Hl|..].
  - intros t x sl. rewrite Ht, !lookup_insert. destruct (decide (new = t)) as [<-|Hne].
    + intros [= <-]. cbn. rewrite decide_True by done. by intros [= <-].
    + intros Hx. destruct (decide (k = Timer.cb x)) as [->|]; [by destruct (Hcb t x Hx)|]. by apply (iv_cb _ _ _ _ Hi).
  - intros k' sl. rewrite lookup_insert, Hs, Hr. destruct (decide (k = k')) as [<-|Hne].
    + intros [= <-] _. cbn. split.
      * intros Hul. destruct (Timer.ti_ults _ _ (iv_tl _ _ _ _ Hi) new Hul). congruence.
      * rewrite Ht, lookup_insert_eq. eexists. split; [reflexivity|]. by split.
    + intros Hk' Hd'. destruct (iv_sl _ _ _ _ Hi k' sl Hk' Hd') as (Hul & x & Hx & Hr'). split; [exact Hul|]. exists x. split.
      * rewrite Ht, lookup_insert_ne; [exact Hx|congruence].
      * apply (ready_neutral (LCreate k)); [done|]. eapply ready_weaken; [..|exact Hr']; try done. unfold freed. cbn. congruence.
  - rewrite (iv_needed _ _ _ _ Hi). do 4 f_equal. apply set_eq. intros k'. rewrite !elem_awaited. setoid_rewrite lookup_insert.
    destruct (decide (k = k')) as [<-|]; [|done]. rewrite Hk. split; [by intros (? & ? & _)|]. intros (sl & [= <-] & Hc). by destruct Hc as [?|[?|[?|?]]].
Qed.

Lemma start_keeps_destroy l now tmo t r l' : Timer.margo_timer_start l now tmo t = Some (r, l') -> Timer.tl_destroy_requested l' = Timer.tl_destroy_requested l.
Proof.
  unfold Timer.margo_timer_start. intros E. destruct (get_prev _ _) as [tp|]; [|done]. destruct (get_next _ _) as [tn|]; [|done]. cbn [mbind option_bind] in E.
  destruct (Timer.timers l !! t) as [x|] eqn:Hx; [|done]. cbn [mbind option_bind] in E. destruct (_ || _ || _); [by injection E as _ <-|].
  unfold Timer.upd_timer in E. rewrite Hx in E. cbn [mbind option_bind] in E.
  destruct (Timer.__margo_timer_queue _ t) as [l1|] eqn:Eq; [|done]. injection E as _ <-. unfold Timer.__margo_timer_queue in Eq.
  destruct (Timer.queue_head _) as [cur|].
  - destruct (Timer.queue_walk _ _ _ _ _ _) as [[σ h]|]; [|done]. cbn [mbind option_bind] in Eq. destruct (get_prev σ t); [|done]. destruct (get_next σ t); [|done].
    cbn [mbind option_bind] in Eq. destruct (_ && _); [|by injection Eq as <-]. destruct (DL_PREPEND _ _ _) as [[σ' h']|]; [|done]. by injection Eq as <-.
  - destruct (DL_APPEND _ _ _) as [[σ h]|]; [|done]. by injection Eq as <-.
Qed.

(** What starting the timer of a sleeper gives. *)
Lemma sleeper_start n0 tr s q k sl now tmo : inv n0 tr s q -> sleepers s !! k = Some sl -> at_phase sl = Created ->
  exists s' q', sleep_start k now tmo s = Some s' /\ inv n0 (LStart k now tmo :: tr) s' q' /\ (freed s -> q' = q).
Proof.
  intros Hi Hk Hp. destruct (iv_sl _ _ _ _ Hi k sl Hk) as (Hul & x & Hx & Hr); [congruence|]. destruct (rd_created _ _ _ _ _ _ Hr Hp) as [Hq Has].
  pose proof (Timer.start_spec (tl s) q now tmo (sleep_timer sl) x (iv_tl _ _ _ _ Hi) Hx) as Hsp. unfold sleep_start. rewrite Hk. cbn [mbind option_bind].
  assert (exists r l q', Timer.margo_timer_start (tl s) now tmo (sleep_timer sl) = Some (r, l) /\ (freed s -> q' = q) /\ Timer.tinv l q' /\
    (forall t, t ∈ q' <-> t ∈ q \/ t = sleep_timer sl /\ ¬ freed s) /\ Timer.submitted l = Timer.submitted (tl s) /\ Timer.running l = Timer.running (tl s) /\
    (forall t, t ≠ sleep_timer sl -> Timer.timers l !! t = Timer.timers (tl s) !! t) /\
    exists x', Timer.timers l !! sleep_timer sl = Some x' /\ (Timer.cb x', Timer.pool x', Timer.canceled x') = (Timer.cb x, Timer.pool x, Timer.canceled x) /\
      (freed s \/ Timer.expiration x' = (now + tmo / 1000)%Q)) as (r & l & q' & E & Hfq & Hl & Hq' & Hs & Hru & Ho & x' & Hx' & Efix & Hexp).
  { destruct (decide _) as [Hd|Hd].
    - destruct Hd as [?|[Hc|Hf]]; [done|by rewrite (rd_canceled _ _ _ _ _ _ Hr) in Hc|]. exists (-1), (tl s), q. split; [exact Hsp|]. split; [done|]. split; [exact (iv_tl _ _ _ _ Hi)|].
      split; [intros t; split; [by left|by intros [?|[_ ?]]]|]. do 2 (split; [done|]). split; [done|]. exists x. split; [exact Hx|]. split; [done|by left].
    - destruct Hsp as (a & b & l & -> & E & Hl & Ht & Hs & Hru & _). exists 0, l, (a ++ sleep_timer sl :: b). split; [exact E|]. split; [unfold freed; intros Hf; exfalso; tauto|]. split; [exact Hl|].
      split; [|do 2 (split; [done|]); split; [intros t Hne; by rewrite Ht, lookup_insert_ne|]].
      + intros t. rewrite !elem_of_app, elem_of_cons. unfold freed. destruct (Timer.tl_destroy_requested (tl s)); [exfalso; tauto|]. intuition congruence.
      + rewrite Ht, lookup_insert_eq. eexists. split; [reflexivity|]. split; [done|by right]. }
  rewrite E. cbn [mbind option_bind]. eexists _, q'. split; [reflexivity|]. pose proof (start_keeps_destroy _ _ _ _ _ _ E) as Hd. split; [|exact Hfq]. split; cbn; [exact Hl|..].
  - intros t y sl'. destruct (decide (t = sleep_timer sl)) as [->|Hne].
    + rewrite Hx'. intros [= <-]. injection Efix as -> _ _. rewrite (rd_cb _ _ _ _ _ _ Hr), lookup_alter, decide_True, Hk by done. by intros [= <-].
    + rewrite Ho by done. intros Hy. rewrite lookup_alter. destruct (decide (k = Timer.cb y)) as [->|]; [|by apply (iv_cb _ _ _ _ Hi)].
      by destruct (iv_cb _ _ _ _ Hi t y sl Hy Hk).
  - intros k' sl'. rewrite lookup_alter, Hs, Hru. destruct (decide (k = k')) as [<-|Hne].
    + rewrite Hk. intros [= <-] _. split; [exact Hul|]. exists x'. split; [exact Hx'|]. injection Efix as E1 E2 E3. destruct Hr as [R1 R2 R3 R4 R5 R6 R7 R8].
      split; cbn; try congruence. intros _ _. unfold freed in *. cbn. rewrite Hd. rewrite decide_True by done. destruct (Timer.tl_destroy_requested (tl s)).
      * right. split; [done|]. rewrite Hq'. tauto.
      * left. split; [rewrite Hq'; right; by split|]. f_equal. destruct Hexp as [?|Hexp]; [done|by rewrite Hexp].
    + intros Hk' Hd'. destruct (iv_sl _ _ _ _ Hi k' sl' Hk' Hd') as (Hul' & y & Hy & Hr'). split; [exact Hul'|]. exists y.
      assert (sleep_timer sl' ≠ sleep_timer sl) as Hnt. { intros Et. rewrite Et, Hx in Hy. injection Hy as <-. apply Hne. by rewrite <- (rd_cb _ _ _ _ _ _ Hr), (rd_cb _ _ _ _ _ _ Hr'). }
      split; [by rewrite Ho|]. eapply ready_weaken; [..|exact Hr'].
      * cbn. by rewrite decide_False.
      * cbn. by rewrite decide_False.
      * rewrite Hq'. tauto.
      * unfold freed. cbn. by rewrite Hd.
      * done.
  - rewrite (iv_needed _ _ _ _ Hi). do 4 f_equal. symmetry. apply awaited_ext. intros k'. rewrite lookup_alter. destruct (decide (k = k')) as [<-|]; [|done].
    rewrite Hk. cbn. unfold counts. by rewrite Hp.
Qed.

(** Destroying the timer of a sleeper that woke frees it. *)
Lemma sleeper_destroy n0 tr s q k sl : inv n0 tr s q -> sleepers s !! k = Some sl -> at_phase sl = Leaving ->
  exists s', sleep_destroy k s = Some s' /\ inv n0 (LDestroy k :: tr) s' q /\ Timer.timers (tl s') !! sleep_timer sl = None.
Proof.
  intros Hi Hk Hp. destruct (iv_sl _ _ _ _ Hi k sl Hk) as (Hul & x & Hx & Hr); [congruence|].
  destruct (rd_awake _ _ _ _ _ _ Hr (rd_leaving _ _ _ _ _ _ Hr Hp)) as [Hq _].
  assert (Timer.num_pending x = 0) as Hn.
  { rewrite (Timer.ti_pending _ _ (iv_tl _ _ _ _ Hi) _ x Hx). rewrite gmultiset_elem_of_disj_union, !elem_of_multiplicity in Hul. lia. }
  destruct (Timer.destroy_spec (tl s) q (sleep_timer sl) x (iv_tl _ _ _ _ Hi) Hx) as (l & E & Hl & Hs & Hru & _ & Hd & Ht).
  rewrite decide_True in Ht by done. unfold sleep_destroy. rewrite Hk. cbn [mbind option_bind]. rewrite E. cbn [mbind option_bind].
  eexists. split; [reflexivity|]. split; [|cbn; by rewrite Ht, lookup_delete_eq]. split; cbn; [exact Hl|..].
  - intros t y sl'. rewrite Ht, lookup_delete. destruct (decide _) as [|Hne]; [done|]. intros Hy. rewrite lookup_alter.
    destruct (decide (k = Timer.cb y)) as [->|]; [|by apply (iv_cb _ _ _ _ Hi)]. by destruct (iv_cb _ _ _ _ Hi t y sl Hy Hk) as [_ ->].
  - intros k' sl'. rewrite lookup_alter, Hs, Hru. destruct (decide (k = k')) as [<-|Hne]; [rewrite Hk; by intros [= <-]|].
    intros Hk' Hd'. destruct (iv_sl _ _ _ _ Hi k' sl' Hk' Hd') as (Hul' & y & Hy & Hr'). split; [exact Hul'|]. exists y.
    assert (sleep_timer sl ≠ sleep_timer sl') as Hnt. { intros Et. rewrite <- Et, Hx in Hy. injection Hy as <-. apply Hne. by rewrite <- (rd_cb _ _ _ _ _ _ Hr), (rd_cb _ _ _ _ _ _ Hr'). }
    split; [by rewrite Ht, lookup_delete_ne|]. apply (ready_neutral (LDestroy k)); [done|]. eapply ready_weaken; [..|exact Hr']; try done. unfold freed. cbn. by rewrite Hd.
  - rewrite (iv_needed _ _ _ _ Hi). do 4 f_equal. symmetry. apply awaited_ext. intros k'. rewrite lookup_alter. destruct (decide (k = k')) as [<-|]; [|done].
    rewrite Hk. cbn. unfold counts. rewrite Hp. cbn. by rewrite !bool_decide_eq_true_2 by (unfold counted; tauto).
Qed.

Section steps.
Context (thread_create : Z -> bool) (Hok : forall p, thread_create p = true).

Lemma queue_bounded s q : Timer.tinv (tl s) q -> bounded s ->
  (length q <= size (Timer.timers (tl s)))%nat /\ Timer.tl_num_pending (tl s) + Z.of_nat (length q) < 2 ^ 64.
Proof.
  intros Hi Hb. assert (length q <= size (Timer.timers (tl s)))%nat as Hl.
  { apply length_le_size; [by eapply Timer.tinv_nodup|intros; by eapply Timer.tinv_timer]. }
  unfold bounded in Hb. split; [exact Hl|lia].
Qed.

(** A check wakes the sleepers whose date is past. *)
Lemma sleepers_check n0 tr s q now : inv n0 tr s q -> bounded s ->
  exists s' b, run_check thread_create now s = Some s' /\ inv n0 (LCheck now :: tr) s' b /\ (forall k sl, sleepers s !! k = Some sl -> sleepers s' !! k = Some sl \/ sleepers s' !! k = Some (wake sl)) /\
    forall k sl x, sleepers s !! k = Some sl -> at_phase sl ≠ Destroyed -> Timer.timers (tl s) !! sleep_timer sl = Some x -> sleep_timer sl ∈ q ->
      (Timer.expiration x < now)%Q -> sleepers s' !! k = Some (wake sl).
Proof.
  intros Hi Hb. destruct (queue_bounded s q (iv_tl _ _ _ _ Hi) Hb) as [Hl Hbq].
  destruct (Timer.check_loop_spec thread_create now _ (tl s) q (iv_tl _ _ _ _ Hi) Hl Hbq) as (a & b & l & -> & E & Hl' & Ha & Hb' & Hf); [intros ? ? ? _ _ _; apply Hok|].
  unfold run_check, Timer.__margo_check_timers. rewrite E. cbn [mbind option_bind]. eexists _, b. split; [reflexivity|]. split; [|split].
  - eapply (inv_fired n0 tr s a b (LCheck now) (tl s) l); try done.
    + intros Hf'. unfold freed in Hf'. by rewrite (Timer.fi_destroy _ _ _ Hf).
    + intros k. cbn. apply slept_more.
    + intros k t x Hin Hx Ek. cbn. eapply asked_slept; [exact Ek|]. apply Exists_cons_hd. rewrite Forall_forall in Ha. specialize (Ha t Hin).
      unfold Timer.exp_of in Ha. by rewrite Hx in Ha.
  - intros k sl Hk. rewrite (fired_sleeper n0 tr s a b (tl s) l Hi eq_refl eq_refl Hf k sl Hk). destruct (decide _); [by right|by left].
  - intros k sl x Hk Hd Hx Hq Hlt. rewrite (fired_sleeper n0 tr s a b (tl s) l Hi eq_refl eq_refl Hf k sl Hk), decide_True; [done|]. split; [exact Hd|].
    apply elem_of_app in Hq as [Hq|Hq]; [exact Hq|]. rewrite Forall_forall in Hb'. specialize (Hb' _ Hq). unfold Timer.exp_of in Hb'. rewrite Hx in Hb'. cbn in Hb'. lra.
Qed.

Lemma sleepers_free n0 tr s q : inv n0 tr s q -> bounded s -> Timer.tl_destroy_requested (tl s) = false ->
  exists s', run_free thread_create s = Some s' /\ inv n0 (LFree :: tr) s' [] /\ freed s'.
Proof.
  intros Hi Hb Hnf. destruct (queue_bounded s q (iv_tl _ _ _ _ Hi) Hb) as [Hl Hbq].
  assert (Timer.tinv (Timer.with_destroy (tl s) true) q) as Hi1 by (destruct (iv_tl _ _ _ _ Hi); by split).
  destruct (Timer.free_loop_spec thread_create (size (Timer.timers (tl s))) _ q Hi1 Hl) as (l & E & Hl' & Hf); [exact Hbq|intros ? ? ? _ _ _; apply Hok|].
  unfold run_free, Timer.__margo_timer_list_free. rewrite E. cbn [mbind option_bind]. eexists. split; [reflexivity|]. split; [|exact (Timer.fi_destroy _ _ _ Hf)].
  rewrite <- (app_nil_r q) in Hi. eapply (inv_fired n0 tr s q [] LFree (Timer.with_destroy (tl s) true) l); try done.
  intros _. exact (Timer.fi_destroy _ _ _ Hf).
Qed.

Lemma inv_step n0 tr s q a s' : inv n0 tr s q -> sstep thread_create s a s' -> exists q', inv n0 (a :: tr) s' q'.
Proof.
  intros Hi Hst. inversion Hst as [? k new ? Hk Hn Hc Hf E|? k now tmo ? Hp E|? k Hp|? k ? Hp E|? k ? Hp E|? k Hp|? now ? Hb E|? ? Hb Hf E]; subst.
  - exists q. by eapply inv_create.
  - unfold in_phase in Hp. destruct (sleepers s !! k) as [sl|] eqn:Hk; [|done]. injection Hp as Hp.
    destruct (sleeper_start n0 tr s q k sl now tmo Hi Hk Hp) as (s1 & q' & E' & Hi' & _). rewrite E in E'. injection E' as <-. by exists q'.
  - exists q. by apply inv_incr.
  - exists q. by eapply inv_test.
  - unfold in_phase in Hp. destruct (sleepers s !! k) as [sl|] eqn:Hk; [|done]. injection Hp as Hp.
    destruct (sleeper_destroy n0 tr s q k sl Hi Hk Hp) as (s1 & E' & Hi' & _). rewrite E in E'. injection E' as <-. by exists q.
  - exists q. by apply inv_return.
  - destruct (sleepers_check n0 tr s q now Hi Hb) as (s1 & b & E' & Hi' & _). rewrite E in E'. injection E' as <-. by exists b.
  - destruct (sleepers_free n0 tr s q Hi Hb Hf) as (s1 & E' & Hi' & _). rewrite E in E'. injection E' as <-. by exists [].
Qed.

Lemma inv_runs l0 q0 n0 tr s : Timer.tinv l0 q0 -> is_u64 n0 -> sruns thread_create l0 n0 tr s -> exists q, inv n0 tr s q.
Proof.
  intros Hl0 Hn0. induction 1 as [|tr s a s' _ [q IH] Hst]; [|by eapply inv_step].
  exists q0. split; cbn; [exact Hl0|done|done|]. unfold awaited. rewrite map_filter_empty, dom_empty, size_empty, Z.add_0_r. by rewrite u64_id.
Qed.
End steps.

(** ** Correctness *)


(** A thread that sleeps one second, on an empty list. *)
Definition ok (p : Z) : bool := true.
Definition w0 : state := State Timer.__margo_timer_list_create 0 ∅.
Definition w1 : state := default w0 (sleep_create 7 1%positive w0).
Definition w2 : state := default w1 (sleep_start 7 0%Q 1000%Q w1).
Definition w3 : state := sleep_incr 7 w2.
Definition w4 : state := default w3 (sleep_test 7 w3).

Lemma w4_runs : sruns ok Timer.__margo_timer_list_create 0 [LTest 7; LIncr 7; LStart 7 0%Q 1000%Q; LCreate 7] w4.
Proof.
  eapply sruns_cons; [|apply (st_test ok w3 7); vm_compute; reflexivity].
  eapply sruns_cons; [|apply (st_incr ok w2 7); vm_compute; reflexivity].
  eapply sruns_cons; [|apply (st_start ok w1 7); vm_compute; reflexivity].
  eapply sruns_cons; [apply sruns_nil|]. apply (st_create ok w0 7 1%positive); try (vm_compute; reflexivity).
  intros t x Hx. cbn in Hx. by rewrite lookup_empty in Hx.
Qed.


(** ** What goes wrong *)

(** A call that starts its timer once the list was released never ends: the start is
    refused, the code of the refusal is not looked at, and no check wakes it. *)
Theorem sleep_after_release_hangs thread_create l0 q0 n0 tr s k now tmo :
  (forall p, thread_create p = true) -> Timer.tinv l0 q0 -> is_u64 n0 -> sruns thread_create l0 n0 tr s -> freed s -> in_phase k Created s ->
  exists s', sleep_start k now tmo s = Some s' /\ tl s' = tl s /\
    forall date s'', bounded s' -> run_check thread_create date s' = Some s'' -> sleepers s'' !! k = sleepers s' !! k.
Proof.
  unfold in_phase. intros Hok Hl0 Hn0 Hruns Hf Hp. destruct (inv_runs thread_create Hok l0 q0 n0 tr s Hl0 Hn0 Hruns) as [q Hi].
  destruct (sleepers s !! k) as [sl|] eqn:Hk; [|done]. injection Hp as Hp. destruct (iv_sl _ _ _ _ Hi k sl Hk) as (_ & x & Hx & Hr); [congruence|].
  pose proof (Timer.start_spec (tl s) q now tmo (sleep_timer sl) x (iv_tl _ _ _ _ Hi) Hx) as E. rewrite decide_True in E by (by right; right).
  destruct (sleeper_start n0 tr s q k sl now tmo Hi Hk Hp) as (s' & q' & E' & Hi' & Hqq). specialize (Hqq Hf). subst q'. exists s'. split; [exact E'|].
  unfold sleep_start in E'. rewrite Hk in E'. cbn [mbind option_bind] in E'. rewrite E in E'. injection E' as Es. split; [by rewrite <- Es|].
  intros date s'' Hb Ec. destruct (queue_bounded s' q (iv_tl _ _ _ _ Hi') Hb) as [Hl Hbq].
  assert (sleepers s' !! k = Some (move Started sl)) as Hk' by (rewrite <- Es; cbn; by rewrite lookup_alter, decide_True, Hk).
  destruct (iv_sl _ _ _ _ Hi' k _ Hk') as (_ & y & Hy & Hr'); [done|].
  destruct (Timer.check_loop_spec thread_create date _ (tl s') q (iv_tl _ _ _ _ Hi') Hl Hbq) as (a & b & l & -> & El & _ & _ & _ & Hfi); [intros ? ? ? _ _ _; apply Hok|].
  unfold run_check, Timer.__margo_check_timers in Ec. rewrite El in Ec. injection Ec as <-.
  rewrite (fired_sleeper n0 _ s' a b (tl s') l Hi' eq_refl eq_refl Hfi k _ Hk'), Hk'. f_equal. apply decide_False. intros [_ Ha].
  destruct (rd_created _ _ _ _ _ _ Hr Hp) as [Hq _]. apply Hq, elem_of_app. by left.
Qed.
