(* ===== verification/AbtxText.v ===== *)
(** * The text of the profiler's tables (src/abtx_prof.h)

    The number of digits and the text of a value, the memory that names are printed
    into, and both layouts of a table.  Doubles are the rationals of AbtxPrint; a
    value that is infinite or not a number is [None] there, and its text is
    undefined: the search for its digits does not end, or it has no integer. *)

From Stdlib Require Import QArith Qabs Qpower Qround Lqa Ascii.
From stdpp Require Import strings pretty.
From S2P Require Import Prelude AbtxProf AbtxRuns AbtxPrint.
From S2P Require Timer Profiling.

#[local] Open Scope Z_scope.

(** ** Numbers *)

Notation Qltb := Timer.Qltb.

Fixpoint ABTXI_prof_pow (fuel : nat) (base : Q) (exp : Z) : option Q :=
  if exp =? 0 then Some 1%Q
  else
    match fuel with
    | O => None
    | S fuel =>
        if exp <=? -1 then v ← ABTXI_prof_pow fuel base (- exp); Some (1 / v)%Q
        else v ← ABTXI_prof_pow fuel base (Z.quot exp 2); Some (v * v * (if Z.rem exp 2 =? 0 then 1 else base))%Q
    end.

Fixpoint ABTXI_prof_digit (fuel : nat) (val : Q) : option Z :=
  if Qltb (- (1 # 10000000000)) val && Qltb val (1 # 10000000000) then Some (-99)
  else if Qltb (-1) val && Qltb val 1 then
    match fuel with O => None | S fuel => d ← ABTXI_prof_digit fuel (val * 10)%Q; Some (-1 + d) end
  else if Qltb val (-10) || Qltb 10 val then
    match fuel with O => None | S fuel => d ← ABTXI_prof_digit fuel (val * (1 # 10))%Q; Some (1 + d) end
  else Some 0.

(** Depths of the two recursions that are enough. *)
Definition digit_fuel (val : Q) : nat := Z.to_nat (Z.log2_up (Qceiling (Qabs val))) + 10.
Definition pow_fuel (exp : Z) : nat := Z.to_nat (Z.log2 (Z.abs exp)) + 2.

Definition digit (val : Q) : option Z := ABTXI_prof_digit (digit_fuel val) val.

(** *** [sprintf] of numbers *)

(** To the nearest integer, and the even one between two. *)
Definition round_even (q : Q) : Z :=
  let f := Qfloor q in
  let r := (q - inject_Z f)%Q in
  if Qltb r (1 # 2) then f else if Qltb (1 # 2) r then f + 1 else if Z.even f then f else f + 1.

Fixpoint pad (n : nat) (c : ascii) (s : string) : string := match n with O => s | S n => String c (pad n c s) end.

(** [%.*f] *)
Definition fixed (prec : nat) (val : Q) : string :=
  let n := round_even (Qabs val * inject_Z (10 ^ Z.of_nat prec))%Q in
  let int := pretty (n / 10 ^ Z.of_nat prec) in
  let frac := pretty (n mod 10 ^ Z.of_nat prec) in
  (if Qltb val 0 then "-" else "")%string +:+ int +:+
  (if bool_decide (prec = 0%nat) then "" else "." +:+ pad (prec - String.length frac) "0" frac)%string.

(** [%+2d] *)
Definition signed (d : Z) : string := (if (d <? 0)%Z then "-" else "+")%string +:+ pretty (Z.abs d).

(** [(long long int)val] *)
Definition trunc (val : Q) : Z := Z.quot (Qnum val) (Zpos (Qden val)).
Definition integral (val : Q) : bool := Qeq_bool val (inject_Z (trunc val)).

Definition val_accuracy : Z := 3.
Definition val_digit_min : Z := -3.
Definition val_digit_max : Z := 5.

Definition ABTXI_prof_ftos_fancy (val : Q) (digit : Z) : option string :=
  if digit <=? -10 then Some "0"%string
  else if (digit <? val_digit_min) || (val_digit_max <? digit) then
    p ← ABTXI_prof_pow (pow_fuel digit) 10 digit;
    Some (fixed (Z.to_nat (val_accuracy - 1)) (val / p) +:+ "e" +:+ signed digit)%string
  else if val_accuracy <=? digit then Some (pretty (trunc val))
  else if integral val then Some (pretty (trunc val))
  else Some (fixed (Z.to_nat (val_accuracy - digit - 1)) val).

(** ** Names

    [ABTXI_prof_str_mem]: the chunks, the last one first; each with the texts that
    were printed in it at their offsets. *)

Record chunk := Chunk { s_len : Z; cursor : Z; texts : list (Z * string) }.

Definition ABTXI_prof_str_mem_alloc (reserved : Z) : chunk := Chunk reserved 0 [].

(** [None]: the text is longer than the room there is. *)
Definition ABTXI_prof_sprintf (m : list chunk) (max_n : Z) (s : string) : option (list chunk * (nat * Z)) :=
  match m with
  | [] => None
  | p_str :: rest =>
      let '(p_str, rest) :=
        if s_len p_str - cursor p_str <? max_n then (ABTXI_prof_str_mem_alloc (if 4096 <? max_n then max_n else 4096), p_str :: rest)
        else (p_str, rest) in
      let len := Z.of_nat (String.length s) in
      if cursor p_str + len + 1 <=? s_len p_str then
        Some (Chunk (s_len p_str) (cursor p_str + len + 1) ((cursor p_str, s) :: texts p_str) :: rest, (length rest, cursor p_str))
      else None
  end.

(** ** Tables *)

(** The digits that the cells of a row share, from a column on. *)
Definition row_digit (same_digit_from : nat) (vals : list (option Q)) : option Z :=
  foldl (fun acc v => d ← acc; val ← v; d' ← digit val; Some (if d <? d' then d' else d)) (Some (-99)) (drop same_digit_from vals).

(** A cell, printed in the buffer [tmp] of 512 characters. *)
Definition cell_text (same_digit_from : nat) (row_dig : Z) (col : nat) (v : option Q) : option string :=
  val ← v;
  d ← if (same_digit_from <=? col)%nat then Some row_dig else digit val;
  s ← ABTXI_prof_ftos_fancy val d;
  if (String.length s <? 512)%nat then Some s else None.

Definition row_texts (same_digit_from : nat) (vals : list (option Q)) : option (list string) :=
  d ← row_digit same_digit_from vals; mapM (fun cv => cell_text same_digit_from d cv.1 cv.2) (imap pair vals).

Definition widest (w : nat) (l : list string) : nat := foldr (fun s w => Nat.max (String.length s) w) w l.

(** [%*s] to the right, and to the left. *)
Definition right_in (w : nat) (s : string) : string := pad (w - String.length s) " " s.
Definition left_in (w : nat) (s : string) : string := (s +:+ pad (w - String.length s) " " "")%string.

Definition table_line (w0 : nat) (ws : list nat) (name : string) (cells : list string) : string :=
  (left_in w0 name +:+ foldr (fun s acc => s +:+ acc) "" (zip_with (fun w s => "  " +:+ right_in w s) ws cells))%string.

Definition column (texts : list (list string)) (col : nat) : list string := omap (fun r => r !! col) texts.

Definition ABTXI_prof_print_table_fancy (t : data_table) (same_digit_from : nat) : option (list string) :=
  cells ← mapM (fun r => row_texts same_digit_from r.2) (rows t);
  let w0 := widest 0 (rows t).*1 in
  let ws := imap (fun col name => widest (String.length name) (column cells col)) (column_names t) in
  Some (table_line w0 ws "" (column_names t) :: zip_with (table_line w0 ws) (rows t).*1 cells).

(** With a delimiter; a value out of the range of [long long] is undefined. *)
Definition dsv_cell (v : option Q) : option string :=
  val ← v;
  if (- 2 ^ 63 <=? trunc val) && (trunc val <? 2 ^ 63) then Some (if integral val then pretty (trunc val) else fixed 10 val) else None.

Definition delimited (delimiter : string) (l : list string) : string := foldr (fun s acc => delimiter +:+ s +:+ acc)%string ""%string l.

Definition ABTXI_prof_print_table_dsv (t : data_table) (delimiter : string) : option (list string) :=
  cells ← mapM (fun r => mapM dsv_cell r.2) (rows t);
  Some (delimited delimiter (column_names t) :: zip_with (fun name l => name +:+ delimited delimiter l)%string (rows t).*1 cells).

Definition ABTX_PRINT_MODE_CSV : Z := 4.
Definition ABTX_PRINT_MODE_FANCY : Z := 8.

(** Which columns of the tables share their digits: in the raw tables, and in the
    summary. *)
Definition same_digits (print_mode : Z) : list nat :=
  if Z.testbit print_mode 0 then [0%nat; 1%nat] else [0%nat; 1%nat; Z.to_nat 9999].

Definition print_tables (print_mode : Z) (ts : list data_table) : option (list (list string)) :=
  mapM (fun tn => if Z.testbit print_mode 2 then ABTXI_prof_print_table_dsv tn.1 ", " else ABTXI_prof_print_table_fancy tn.1 tn.2)
    (zip ts (same_digits print_mode)).

(** ** Powers and digits *)

Lemma Qpower_S (b : Q) (n : Z) : ~ (b == 0)%Q -> (b ^ (1 + n) == b * b ^ n)%Q.
Proof. intros Hb. rewrite Qpower_plus by exact Hb. by rewrite Qpower_1_r. Qed.

Lemma ten_pos n : (0 < 10 ^ n)%Q.
Proof. apply Qpower_0_lt. reflexivity. Qed.

Lemma pow_nonneg fuel (base : Q) : ~ (base == 0)%Q -> forall exp, 0 <= exp < 2 ^ Z.of_nat fuel ->
  exists v, ABTXI_prof_pow fuel base exp = Some v /\ (v == base ^ exp)%Q.
Proof.
  intros Hb. induction fuel as [|fuel IH]; intros exp He; cbn [ABTXI_prof_pow].
  { assert (exp = 0) as -> by lia. by exists 1%Q. }
  destruct (Z.eqb_spec exp 0) as [->|Hne]; [by exists 1%Q|]. rewrite (proj2 (Z.leb_gt _ _)) by lia.
  rewrite Z.quot_div_nonneg, Z.rem_mod_nonneg by lia. rewrite Nat2Z.inj_succ, Z.pow_succ_r in He by lia.
  destruct (IH (exp / 2)) as (v & -> & Ev); [split; [apply Z.div_pos; lia|apply Z.div_lt_upper_bound; lia]|]. cbn [mbind option_bind].
  eexists. split; [reflexivity|]. rewrite Ev. pose proof (Z.div_mod exp 2 ltac:(lia)) as Ed. pose proof (Z.mod_pos_bound exp 2 ltac:(lia)).
  clear IH Ev. set (h := exp / 2) in *. clearbody h. destruct (Z.eqb_spec (exp mod 2) 0) as [E|E].
  - assert (exp = h + h) as Eh by lia. rewrite Eh, Qpower_plus by exact Hb. ring.
  - assert (exp = 1 + (h + h)) as Eh by lia. rewrite Eh, Qpower_S, Qpower_plus by exact Hb. ring.
Qed.

(** The recursion on the exponent ends, with the power. *)
Lemma pow_correct (base : Q) exp : ~ (base == 0)%Q -> exists v, ABTXI_prof_pow (pow_fuel exp) base exp = Some v /\ (v == base ^ exp)%Q.
Proof.
  intros Hb. assert (0 <= Z.abs exp < 2 ^ Z.of_nat (Z.to_nat (Z.log2 (Z.abs exp)) + 1)) as Ha.
  { split; [lia|]. rewrite Nat2Z.inj_add, Z2Nat.id by apply Z.log2_nonneg. destruct (Z.eq_dec exp 0) as [->|]; [reflexivity|].
    pose proof (Z.log2_spec (Z.abs exp) ltac:(lia)) as [_ H]. by rewrite <- Z.add_1_r in H. }
  unfold pow_fuel. destruct (Z.le_gt_cases 0 exp) as [Hp|Hn].
  - apply pow_nonneg; [exact Hb|]. rewrite (Z.abs_eq exp) in * by lia. split; [lia|]. eapply Z.lt_le_trans; [apply Ha|]. apply Z.pow_le_mono_r; lia.
  - replace (Z.to_nat (Z.log2 (Z.abs exp)) + 2)%nat with (S (Z.to_nat (Z.log2 (Z.abs exp)) + 1)) by lia. cbn [ABTXI_prof_pow].
    rewrite (proj2 (Z.eqb_neq _ _)), (proj2 (Z.leb_le _ _)) by lia. rewrite Z.abs_neq in * by lia.
    destruct (pow_nonneg _ base Hb (- exp) Ha) as (v & -> & Ev). cbn [mbind option_bind]. eexists. split; [reflexivity|]. rewrite Ev, Qpower_opp.
    field. by apply Qpower_not_0.
Qed.

Lemma digit_step fuel val : ABTXI_prof_digit fuel val =
  if Qltb (- (1 # 10000000000)) val && Qltb val (1 # 10000000000) then Some (-99)
  else if Qltb (-1) val && Qltb val 1 then
    match fuel with O => None | S fuel => d ← ABTXI_prof_digit fuel (val * 10)%Q; Some (-1 + d) end
  else if Qltb val (-10) || Qltb 10 val then
    match fuel with O => None | S fuel => d ← ABTXI_prof_digit fuel (val * (1 # 10))%Q; Some (1 + d) end
  else Some 0.
Proof. by destruct fuel. Qed.

(** The tests, on absolute values. *)
Lemma between (a v : Q) : (Qltb (- a) v && Qltb v a = true) <-> (Qabs v < a)%Q.
Proof. rewrite andb_true_iff, !Timer.Qltb_spec, Qabs_Qlt_condition. done. Qed.

Lemma outside (a v : Q) : (Qltb v (- a) || Qltb a v = false) <-> (Qabs v <= a)%Q.
Proof. rewrite orb_false_iff, !Timer.Qltb_false, Qabs_Qle_condition. done. Qed.

Lemma Qabs_scale (v c : Q) : (0 <= c)%Q -> (Qabs (v * c) == Qabs v * c)%Q.
Proof. intros Hc. rewrite Qabs_Qmult, (Qabs_pos c) by exact Hc. done. Qed.

Lemma large_digit n : forall fuel val, (n <= fuel)%nat -> (1 <= Qabs val)%Q -> (Qabs val <= 10 ^ (1 + Z.of_nat n))%Q ->
  exists d, ABTXI_prof_digit fuel val = Some d /\ 0 <= d <= Z.of_nat n /\ (10 ^ d <= Qabs val)%Q /\ (Qabs val <= 10 ^ (1 + d))%Q.
Proof.
  induction n as [|n IH]; intros fuel val Hf Hl Hu; rewrite digit_step.
  all: destruct (Qltb (- (1 # 10000000000)) val && _) eqn:E1; [apply between in E1; lra|].
  all: change (-1)%Q with (- (1))%Q; destruct (Qltb (- (1)) val && _) eqn:E2; [apply between in E2; lra|].
  all: change (-10)%Q with (- (10))%Q; destruct (Qltb val (- (10)) || _) eqn:E3; [|apply outside in E3; exists 0; split; [done|]; split; [lia|]; cbn; split; [exact Hl|exact E3]].
  - exfalso. apply not_false_iff_true in E3. apply E3, outside. exact Hu.
  - assert (10 < Qabs val)%Q as H10. { apply Qnot_le_lt. intros H. apply outside in H. congruence. }
    destruct fuel as [|fuel]; [lia|]. assert (Qabs (val * (1 # 10)) == Qabs val * (1 # 10))%Q as Es by (apply Qabs_scale; lra).
    rewrite Nat2Z.inj_succ, <- Z.add_1_l, Qpower_S in Hu by (intros H; by cbv in H).
    destruct (IH fuel (val * (1 # 10))%Q) as (d & -> & Hd & Hdl & Hdu); [lia|rewrite Es; lra|rewrite Es; lra|]. cbn [mbind option_bind].
    rewrite Es in Hdl, Hdu. exists (1 + d). split; [done|]. split; [lia|]. rewrite !(Qpower_S 10) in * by (intros H; by cbv in H). split; lra.
Qed.

Lemma small_digit n : forall fuel val, (n <= fuel)%nat -> (n <= 10)%nat -> (10 ^ (- Z.of_nat n) <= Qabs val)%Q -> (Qabs val < 1)%Q ->
  exists d, ABTXI_prof_digit fuel val = Some d /\ - Z.of_nat n <= d < 0 /\ (10 ^ d <= Qabs val)%Q /\ (Qabs val <= 10 ^ (1 + d))%Q.
Proof.
  induction n as [|n IH]; intros fuel val Hf Hn Hl Hu; [change (1 <= Qabs val)%Q in Hl; lra|]. rewrite digit_step.
  assert (1 # 10000000000 <= Qabs val)%Q as Hmin.
  { eapply Qle_trans; [|exact Hl]. change (1 # 10000000000)%Q with (10 ^ (-10))%Q. apply Qpower_le_compat_l; [lia|]. discriminate. }
  destruct (Qltb (- (1 # 10000000000)) val && _) eqn:E1; [apply between in E1; lra|].
  change (-1)%Q with (- (1))%Q. rewrite (proj2 (between 1 val) Hu). destruct fuel as [|fuel]; [lia|].
  assert (Qabs (val * 10) == Qabs val * 10)%Q as Es by (apply Qabs_scale; lra).
  assert (10 ^ (- Z.of_nat n) == 10 * 10 ^ (- Z.of_nat (S n)))%Q as Ep.
  { rewrite <- Qpower_S by (intros H; by cbv in H). replace (1 + - Z.of_nat (S n)) with (- Z.of_nat n) by lia. done. }
  destruct (Qlt_le_dec (Qabs val * 10) 1) as [Hlt|Hge].
  - destruct (IH fuel (val * 10)%Q) as (d & -> & Hd & Hdl & Hdu); [lia|lia|rewrite Es; lra|rewrite Es; lra|]. cbn [mbind option_bind].
    rewrite Es in Hdl, Hdu. exists (-1 + d). split; [done|].
    assert (10 ^ d == 10 * 10 ^ (-1 + d))%Q as Ed. { rewrite <- Qpower_S by (intros H; by cbv in H). by replace (1 + (-1 + d)) with d by lia. }
    replace (1 + (-1 + d)) with d by lia. rewrite Qpower_S in Hdu by (intros H; by cbv in H). split; [lia|]. split; lra.
  - destruct (large_digit 0 fuel (val * 10)%Q) as (d & -> & Hd & Hdl & Hdu); [lia|rewrite Es; lra|rewrite Es; change (Qabs val * 10 <= 10)%Q; lra|]. cbn [mbind option_bind].
    assert (d = 0) as -> by lia. exists (-1). split; [done|]. split; [lia|]. rewrite Es in Hdl. change (1 <= Qabs val * 10)%Q in Hdl.
    change (10 ^ (-1))%Q with (1 # 10)%Q. change (10 ^ (1 + -1))%Q with 1%Q. split; lra.
Qed.

(** The search for the digits of a value ends: they are -99 for what is taken for
    zero, and the exponent of its power of ten otherwise. *)
Lemma digit_correct val : exists d, digit val = Some d /\
  if Qltb (Qabs val) (1 # 10000000000) then d = -99
  else -10 <= d < Z.of_nat (digit_fuel val) /\ (10 ^ d <= Qabs val)%Q /\ (Qabs val <= 10 ^ (1 + d))%Q.
Proof.
  unfold digit. destruct (Qltb (Qabs val) _) eqn:E.
  { apply Timer.Qltb_spec in E. rewrite digit_step, (proj2 (between _ val) E). by exists (-99). }
  apply Timer.Qltb_false in E. destruct (Qlt_le_dec (Qabs val) 1) as [Hlt|Hge].
  - destruct (small_digit 10 (digit_fuel val) val) as (d & -> & Hd & Hb); [unfold digit_fuel; lia|lia|exact E|exact Hlt|].
    exists d. split; [done|]. split; [unfold digit_fuel; lia|exact Hb].
  - set (n := Z.log2_up (Qceiling (Qabs val))). assert (0 <= n) as Hn by apply Z.log2_up_nonneg.
    destruct (large_digit (Z.to_nat n) (digit_fuel val) val) as (d & -> & Hd & Hb); [unfold digit_fuel; lia|exact Hge| |].
    + rewrite Z2Nat.id by exact Hn. eapply Qle_trans; [apply Qle_ceiling|]. eapply Qle_trans; [|apply (Qpower_le_compat_l 10 n (1 + n)); [lia|discriminate]].
      assert (Qceiling (Qabs val) <= 10 ^ n) as Hc.
      { etrans; [apply Z.log2_log2_up_spec|]; [|apply Z.pow_le_mono_l; lia]. assert (1 <= Qceiling (Qabs val)); [|lia].
        change 1 with (Qceiling 1). by apply Qceiling_resp_le. }
      rewrite Zle_Qle, (Zpower_Qpower 10 n Hn) in Hc. exact Hc.
    + exists d. split; [done|]. split; [unfold digit_fuel; lia|exact Hb].
Qed.

(** ** The length of a text *)

Lemma pad_length n c s : String.length (pad n c s) = (n + String.length s)%nat.
Proof. induction n as [|n IH]; [done|]. cbn. by rewrite IH. Qed.

Lemma pretty_nonneg_length k n : (0 < k)%nat -> 0 <= n < 10 ^ Z.of_nat k -> (String.length (pretty n) <= k)%nat.
Proof.
  intros Hk Hn. destruct n as [|p|p]; [cbn; lia| |lia]. change (String.length (pretty_N_go (N.pos p) "") <= k)%nat.
  etrans; [apply (Profiling.pretty_go_length k)|cbn; lia].
  apply N2Z.inj_lt. rewrite N2Z.inj_pow, nat_N_Z. exact (proj2 Hn).
Qed.

Lemma pretty_abs_length k n : (0 < k)%nat -> Z.abs n < 10 ^ Z.of_nat k -> (String.length (pretty n) <= S k)%nat.
Proof.
  intros Hk Hn. destruct n as [|p|p]; [cbn; lia|etrans; [apply (pretty_nonneg_length k); lia|lia]|].
  change (S (String.length (pretty (Z.pos p))) <= S k)%nat. apply le_n_S, pretty_nonneg_length; [exact Hk|lia].
Qed.

Lemma round_even_bounds q n : (0 <= q)%Q -> (q <= inject_Z n)%Q -> 0 <= round_even q <= n.
Proof.
  intros H0 Hn. unfold round_even. assert (0 <= Qfloor q) as Hf by (rewrite <- (Qfloor_Z 0); by apply Qfloor_resp_le).
  assert (Qfloor q <= n) as Hfn by (rewrite <- (Qfloor_Z n); by apply Qfloor_resp_le).
  destruct (Z.eq_dec (Qfloor q) n) as [E|E].
  - assert (q - inject_Z (Qfloor q) <= 0)%Q as Hr by (rewrite E; lra). rewrite (proj2 (Timer.Qltb_spec _ (1 # 2))) by lra. lia.
  - destruct (Qltb _ _); [lia|]. destruct (Qltb _ _); [lia|]. destruct (Z.even _); lia.
Qed.

Lemma fixed_length prec m val : (Qabs val <= inject_Z (10 ^ Z.of_nat m))%Q -> (String.length (fixed prec val) <= m + prec + 3)%nat.
Proof.
  intros Hv. unfold fixed. set (P := 10 ^ Z.of_nat prec). set (n := round_even _).
  assert (0 < P) as HP by (apply Z.pow_pos_nonneg; lia).
  assert (0 <= n <= 10 ^ Z.of_nat m * P) as Hn.
  { apply round_even_bounds; [apply Qmult_le_0_compat; [apply Qabs_nonneg|]|].
    - change 0%Q with (inject_Z 0). rewrite <- Zle_Qle. lia.
    - rewrite inject_Z_mult. apply Qmult_le_compat_r; [exact Hv|]. change 0%Q with (inject_Z 0). rewrite <- Zle_Qle. lia. }
  rewrite !Profiling.length_app_string.
  assert (String.length (pretty (n / P)%Z) <= S m)%nat as Hi.
  { apply pretty_nonneg_length; [lia|]. split; [apply Z.div_pos; lia|]. rewrite Nat2Z.inj_succ, Z.pow_succ_r by lia.
    assert (n / P <= 10 ^ Z.of_nat m); [|assert (0 < 10 ^ Z.of_nat m) by (apply Z.pow_pos_nonneg; lia); lia].
    apply Z.div_le_upper_bound; [exact HP|]. lia. }
  assert (String.length (if Qltb val 0 then "-" else "")%string <= 1)%nat as Hs by (destruct (Qltb val 0); cbn; lia).
  case_bool_decide as Hp; [cbn [String.length]; lia|]. cbn [String.length]. rewrite Profiling.length_app_string, pad_length.
  assert (String.length (pretty (n mod P)%Z) <= prec)%nat as Hf.
  { apply pretty_nonneg_length; [lia|]. apply Z.mod_pos_bound. exact HP. }
  cbn. lia.
Qed.

Lemma trunc_abs val m : 0 <= m -> (Qabs val <= inject_Z m)%Q -> Z.abs (trunc val) <= m.
Proof.
  intros Hm Hv. unfold trunc. destruct val as [a b]. cbn. unfold Qabs, Qle, inject_Z in Hv. cbn in Hv. rewrite <- Z.quot_abs by lia.
  apply Z.quot_le_upper_bound; lia.
Qed.

(** A number of digits that is enough for a value. *)
Definition covers (val : Q) (d : Z) : Prop := d <= -10 \/ (Qabs val <= 10 ^ (1 + d))%Q.

Lemma covers_bound val d m : covers val d -> -10 < d -> 1 + d <= m -> 0 <= m -> (Qabs val <= inject_Z (10 ^ m))%Q.
Proof.
  intros [?|Hc] Hd Hm Hm0; [lia|]. rewrite (Zpower_Qpower 10 m Hm0). eapply Qle_trans; [exact Hc|]. apply Qpower_le_compat_l; [exact Hm|discriminate].
Qed.

(** With enough digits, the text of a value has at most 20 characters. *)
Lemma ftos_length val d : covers val d -> Z.abs d < 10 ^ 9 -> exists s, ABTXI_prof_ftos_fancy val d = Some s /\ (String.length s <= 20)%nat.
Proof.
  intros Hc Hd. unfold ABTXI_prof_ftos_fancy, val_digit_min, val_digit_max, val_accuracy. destruct (Z.leb_spec d (-10)) as [|H10]; [eexists; split; [done|cbn; lia]|].
  assert (forall m : Z, 1 + d <= m -> 0 <= m -> m <= 6 -> (String.length (pretty (trunc val)) <= 8)%nat) as Htr.
  { intros m H1 H2 H3. apply (pretty_abs_length 7); [lia|]. eapply Z.le_lt_trans; [apply (trunc_abs val (10 ^ m)); [lia|by apply (covers_bound val d)]|].
    change (10 ^ m < 10 ^ 7). apply Z.pow_lt_mono_r; lia. }
  destruct ((d <? -3) || (5 <? d)) eqn:Hr.
  - destruct (pow_correct 10 d ltac:(by intros H; cbv in H)) as (p & -> & Ep). cbn [mbind option_bind]. eexists. split; [reflexivity|].
    rewrite !Profiling.length_app_string. unfold signed. rewrite Profiling.length_app_string.
    assert (String.length (fixed (Z.to_nat (3 - 1)) (val / p)) <= 1 + 2 + 3)%nat as Hf.
    { apply (fixed_length 2 1). pose proof (ten_pos d) as Hp. unfold Qdiv. rewrite Qabs_Qmult, Ep. rewrite (Qabs_pos (/ 10 ^ d)) by (apply Qlt_le_weak, Qinv_lt_0_compat, Hp).
      destruct Hc as [?|Hc]; [lia|]. rewrite Qpower_S in Hc by (by intros H; cbv in H). apply Qle_shift_div_r; [exact Hp|exact Hc]. }
    assert (String.length (pretty (Z.abs d)) <= 9)%nat by (apply pretty_nonneg_length; lia).
    assert (String.length (if (d <? 0)%Z then "-" else "+")%string = 1%nat) as -> by (by destruct (d <? 0)). cbn [String.length]. lia.
  - apply orb_false_iff in Hr as [H3%Z.ltb_ge H5%Z.ltb_ge]. specialize (Htr (Z.max 0 (1 + d)) ltac:(lia) ltac:(lia) ltac:(lia)).
    destruct (3 <=? d); [eexists; split; [done|lia]|]. destruct (integral val); [eexists; split; [done|lia]|]. eexists. split; [done|].
    etrans; [apply (fixed_length _ (Z.to_nat (Z.max 0 (1 + d))))|lia]. rewrite Z2Nat.id by lia. apply (covers_bound val d); [exact Hc|lia..].
Qed.

(** ** Names in memory *)

(** Texts in a chunk, the last one first, end before the next one begins. *)
Fixpoint laid (top : Z) (l : list (Z * string)) : Prop :=
  match l with [] => 0 <= top | (off, s) :: l => off + Z.of_nat (String.length s) + 1 <= top /\ laid off l end.

Definition chunk_ok (c : chunk) : Prop := laid (cursor c) (texts c) /\ cursor c <= s_len c.

(** The text at a chunk, counted from the first one, and an offset. *)
Definition text_at (m : list chunk) (a : nat * Z) (s : string) : Prop := exists c, rev m !! a.1 = Some c /\ (a.2, s) ∈ texts c.

(** A name shorter than the room it asks for is printed, and the names before it stay
    where they are. *)
Lemma sprintf_correct m max_n s : m ≠ [] -> Forall chunk_ok m -> Z.of_nat (String.length s) < max_n ->
  exists m' a, ABTXI_prof_sprintf m max_n s = Some (m', a) /\ Forall chunk_ok m' /\ text_at m' a s /\ forall b t, text_at m b t -> text_at m' b t.
Proof.
  intros Hm Hok Hs. destruct m as [|c rest]; [done|]. apply Forall_cons in Hok as [Hc Hrest]. unfold ABTXI_prof_sprintf.
  assert (forall c rest, chunk_ok c -> Forall chunk_ok rest -> max_n <= s_len c - cursor c ->
    let c' := Chunk (s_len c) (cursor c + Z.of_nat (String.length s) + 1) ((cursor c, s) :: texts c) in
    (cursor c + Z.of_nat (String.length s) + 1 <=? s_len c) = true /\ Forall chunk_ok (c' :: rest) /\ text_at (c' :: rest) (length rest, cursor c) s /\
    forall b t, text_at (c :: rest) b t -> text_at (c' :: rest) b t) as Hprint.
  { clear - Hs. intros c rest [Hl Hcl] Hrest Hroom. cbn zeta. split; [apply Z.leb_le; lia|]. split; [|split].
    - constructor; [|exact Hrest]. split; cbn; [split; [lia|exact Hl]|lia].
    - eexists. split; [cbn; rewrite lookup_app_r, length_rev, Nat.sub_diag by (rewrite length_rev; lia); reflexivity|]. by left.
    - intros [n o] t (c0 & Hn & Hin). cbn [fst snd rev] in *. apply lookup_app_Some in Hn as [Hn|[Hge Hn]].
      + exists c0. split; [by apply lookup_app_l_Some|exact Hin].
      + exists (Chunk (s_len c) (cursor c + Z.of_nat (String.length s) + 1) ((cursor c, s) :: texts c)). cbn [fst snd]. split.
        * cbn. rewrite lookup_app_r by exact Hge. destruct (n - length (rev rest))%nat; [reflexivity|done].
        * destruct (n - length (rev rest))%nat; [|done]. injection Hn as ->. by right. }
  destruct (Z.ltb_spec (s_len c - cursor c) max_n) as [Hfull|Hroom].
  - assert (max_n <= (if 4096 <? max_n then max_n else 4096)) as Hnew by (destruct (Z.ltb_spec 4096 max_n); lia).
    set (reserved := if 4096 <? max_n then max_n else 4096) in *. clearbody reserved.
    destruct (Hprint (ABTXI_prof_str_mem_alloc reserved) (c :: rest)) as (-> & H1 & H2 & H3);
      [split; cbn; lia|by constructor|cbn; lia|].
    eexists _, _. split; [reflexivity|]. split; [exact H1|]. split; [exact H2|]. intros [n o] t (c0 & Hn & Hin). apply H3.
    exists c0. split; [cbn [rev fst] in *; by apply lookup_app_l_Some|exact Hin].
  - destruct (Hprint c rest Hc Hrest Hroom) as (-> & H1 & H2 & H3). eexists _, _. split; [reflexivity|]. split; [exact H1|]. by split.
Qed.

(** ** The cells *)

(** In the range of the type [double]. *)
Definition is_double (v : option Q) : Prop := match v with Some q => (Qabs q <= inject_Z (2 ^ 1024))%Q | None => False end.

Lemma double_digit q : is_double (Some q) -> exists d, digit q = Some d /\ covers q d /\ -99 <= d < 1034.
Proof.
  intros Hq. destruct (digit_correct q) as (d & E & Hd). exists d. split; [exact E|]. destruct (Qltb _ _).
  - subst d. split; [by left|lia].
  - destruct Hd as ([Hd1 Hd2] & _ & Hu). split; [by right|]. unfold digit_fuel in Hd2.
    assert (Z.log2_up (Qceiling (Qabs q)) <= 1024) as Hl; [|lia].
    etrans; [apply Z.log2_up_le_mono|by rewrite (Z.log2_up_pow2 1024)]. rewrite <- (Qceiling_Z (2 ^ 1024)). by apply Qceiling_resp_le.
Qed.

Lemma covers_le val d d' : covers val d -> d <= d' -> digit val = Some d -> covers val d'.
Proof.
  intros Hc Hle E. destruct (digit_correct val) as (d0 & E0 & H). rewrite E in E0. injection E0 as <-.
  destruct (Z.le_gt_cases d' (-10)); [by left|]. right. destruct (Qltb (Qabs val) _) eqn:Hq.
  - apply Timer.Qltb_spec in Hq. apply Qlt_le_weak. eapply Qlt_le_trans; [exact Hq|]. change (1 # 10000000000)%Q with (10 ^ (-10))%Q.
    apply Qpower_le_compat_l; [lia|discriminate].
  - destruct H as (_ & _ & Hu). eapply Qle_trans; [exact Hu|]. apply Qpower_le_compat_l; [lia|discriminate].
Qed.

Lemma row_digit_spec vals d0 : Forall is_double vals -> -99 <= d0 < 1034 ->
  exists d, foldl (fun acc v => d ← acc; val ← v; d' ← digit val; Some (if d <? d' then d' else d)) (Some d0) vals = Some d /\
    d0 <= d < 1034 /\ Forall (fun v => forall q, v = Some q -> covers q d) vals.
Proof.
  revert d0. induction vals as [|v vals IH]; intros d0 Hv Hd0; [exists d0; cbn; split; [done|]; split; [lia|constructor]|].
  apply Forall_cons in Hv as [Hq Hv]. destruct v as [q|]; [|done]. destruct (double_digit q Hq) as (dq & E & Hc & Hdq). cbn [foldl mbind option_bind].
  rewrite E. cbn [mbind option_bind]. destruct (IH (if d0 <? dq then dq else d0) Hv) as (d & -> & Hd & Hall); [destruct (d0 <? dq); lia|].
  exists d. split; [done|]. destruct (Z.ltb_spec d0 dq); (split; [lia|]); constructor; try exact Hall; intros ? [= <-]; by apply (covers_le q dq); [|lia|].
Qed.

(** A row of doubles has the text of its cells, each of at most 20 characters. *)
Lemma row_texts_correct same vals : Forall is_double vals -> exists l, row_texts same vals = Some l /\ length l = length vals.
Proof.
  intros Hv. unfold row_texts, row_digit. destruct (row_digit_spec (drop same vals) (-99)) as (d & -> & Hd & Hall); [by apply Forall_drop|lia|].
  cbn [mbind option_bind]. assert (is_Some (mapM (fun cv => cell_text same d cv.1 cv.2) (imap pair vals))) as [l Hl].
  { apply mapM_is_Some_2, Forall_forall. intros [col v] Hin. apply elem_of_lookup_imap in Hin as (i & w & E & Hw). injection E as -> ->. unfold compose; cbn [fst snd].
    rewrite Forall_lookup in Hv. pose proof (Hv i w Hw) as Hwd. destruct w as [q|]; [|done]. unfold cell_text. cbn [fst snd mbind option_bind compose].
    assert (exists d', (if (same <=? i)%nat then Some d else digit q) = Some d' /\ covers q d' /\ Z.abs d' < 10 ^ 9) as (d' & -> & Hc & Hd').
    { destruct (Nat.leb_spec same i) as [Hs|Hs].
      - exists d. split; [done|]. split; [|lia]. rewrite Forall_lookup in Hall. apply (Hall (i - same)%nat (Some q)); [|done].
        rewrite lookup_drop. by replace (same + (i - same))%nat with i by lia.
      - destruct (double_digit q Hwd) as (dq & -> & Hc & Hdq). exists dq. split; [done|]. split; [exact Hc|lia]. }
    cbn [mbind option_bind]. destruct (ftos_length q d' Hc Hd') as (s & -> & Hs). cbn [mbind option_bind]. rewrite (proj2 (Nat.ltb_lt _ _)) by lia. eauto. }
  exists l. split; [exact Hl|]. apply length_mapM in Hl. by rewrite <- Hl, length_imap.
Qed.

(** ** The lines *)

Definition wf_table (t : data_table) : Prop := Forall (fun r : string * list (option Q) => length r.2 = length (column_names t)) (rows t).

Lemma widest_le w l : (w <= widest w l)%nat /\ Forall (fun s => String.length s <= widest w l)%nat l.
Proof.
  induction l as [|s l [IH1 IH2]]; cbn [widest foldr]; [split; [lia|constructor]|]. fold (widest w l). split; [lia|]. constructor; [lia|].
  eapply Forall_impl; [exact IH2|]. cbn. intros. lia.
Qed.

Lemma line_length w0 ws name cells : (String.length name <= w0)%nat -> Forall2 (fun w s => String.length s <= w)%nat ws cells ->
  String.length (table_line w0 ws name cells) = (w0 + sum_list_with (fun w => 2 + w) ws)%nat.
Proof.
  intros Hn Hc. unfold table_line. rewrite Profiling.length_app_string. f_equal.
  - unfold left_in. rewrite Profiling.length_app_string, pad_length. cbn. lia.
  - induction Hc as [|w s ws cells Hs Hc IH]; [done|]. cbn [zip_with foldr sum_list_with]. rewrite !Profiling.length_app_string, IH.
    unfold right_in. rewrite pad_length. cbn [String.length]. lia.
Qed.

Lemma row_texts_length same vals l : row_texts same vals = Some l -> length l = length vals.
Proof.
  unfold row_texts. destruct (row_digit same vals) as [d|]; [|done]. cbn [mbind option_bind]. intros H%length_mapM. by rewrite <- H, length_imap.
Qed.

(** The lines of a table that is printed have the same length. *)
Lemma lines_aligned t same lines : wf_table t -> ABTXI_prof_print_table_fancy t same = Some lines ->
  length lines = S (length (rows t)) /\ exists n, Forall (fun s => String.length s = n) lines.
Proof.
  intros Hwf. unfold ABTXI_prof_print_table_fancy. destruct (mapM _ (rows t)) as [cells|] eqn:Hm; [|done]. cbn [mbind option_bind]. intros [= <-].
  set (w0 := widest 0 (rows t).*1). set (ws := imap _ _). pose proof (length_mapM _ _ _ Hm) as Hlen. apply mapM_Some in Hm.
  split; [cbn [length]; rewrite length_zip_with, length_fmap; lia|]. exists (w0 + sum_list_with (fun w => 2 + w) ws)%nat.
  assert (forall r l, r ∈ rows t -> row_texts same r.2 = Some l -> length l = length (column_names t)) as Hrl.
  { intros r l Hr E. rewrite (row_texts_length _ _ _ E). unfold wf_table in Hwf. rewrite Forall_forall in Hwf. by apply Hwf. }
  constructor.
  - apply line_length; [cbn; lia|]. apply Forall2_same_length_lookup_2; [unfold ws; by rewrite length_imap|]. intros i w s Hw Hs.
    unfold ws in Hw. rewrite list_lookup_imap, Hs in Hw. injection Hw as <-. apply widest_le.
  - apply Forall_forall. intros line Hin. apply elem_of_lookup_zip_with_1 in Hin as (i & name & l & -> & Hname & Hl). apply line_length.
    + destruct (widest_le 0 (rows t).*1) as [_ Hf]. rewrite Forall_lookup in Hf. exact (Hf i name Hname).
    + destruct (Forall2_lookup_r _ _ _ _ _ Hm Hl) as (r & Hr & E). assert (length l = length (column_names t)) as Hll by (eapply Hrl; [by eapply list_elem_of_lookup_2|exact E]).
      apply Forall2_same_length_lookup_2; [unfold ws; by rewrite length_imap|]. intros j w s Hw Hs. unfold ws in Hw. rewrite list_lookup_imap in Hw.
      destruct (column_names t !! j) as [cn|]; [|done]. injection Hw as <-. destruct (widest_le (String.length cn) (column cells j)) as [_ Hf].
      rewrite Forall_forall in Hf. apply Hf. unfold column. apply list_elem_of_omap. exists l. split; [by eapply list_elem_of_lookup_2|exact Hs].
Qed.

Lemma table_printed t same : Forall (fun r : string * list (option Q) => Forall is_double r.2) (rows t) -> is_Some (ABTXI_prof_print_table_fancy t same).
Proof.
  intros Hd. unfold ABTXI_prof_print_table_fancy. assert (is_Some (mapM (fun r : string * list (option Q) => row_texts same r.2) (rows t))) as [cells ->].
  { apply mapM_is_Some_2. eapply Forall_impl; [exact Hd|]. cbn. intros r Hr. destruct (row_texts_correct same r.2 Hr) as (l & -> & _). eauto. }
  cbn [mbind option_bind]. eauto.
Qed.

(** ** The tables of the summary *)

(** Arithmetic that is defined. *)
Create HintDb defined discriminated.

Lemma num_defined z : is_Some (num z).
Proof. eexists. reflexivity. Qed.

Lemma product_defined z (c : Q) : is_Some (Some (inject_Z z * c)%Q).
Proof. eexists. reflexivity. Qed.

Lemma fadd_defined a b : is_Some a -> is_Some b -> is_Some (fadd a b).
Proof. intros [x ->] [y ->]. by eexists. Qed.

Lemma fmul_defined a b : is_Some a -> is_Some b -> is_Some (fmul a b).
Proof. intros [x ->] [y ->]. by eexists. Qed.

Lemma fdiv_defined a (y : Q) : ~ (y == 0)%Q -> is_Some a -> is_Some (fdiv a (Some y)).
Proof. intros Hy [x ->]. cbn. destruct (Qeq_bool y 0) eqn:E; [by apply Qeq_bool_iff in E|]. by eexists. Qed.

Lemma div_s_defined a b : is_Some a -> is_Some b -> is_Some (ABTXI_prof_div_s a b).
Proof. intros [x ->] [y ->]. unfold ABTXI_prof_div_s. cbn. destruct (Qeq_bool y 0); by eexists. Qed.

#[local] Hint Resolve num_defined product_defined fadd_defined fmul_defined fdiv_defined div_s_defined : defined.

Lemma sum_defined l : forall a, is_Some a -> Forall is_Some l -> is_Some (foldl fadd a l).
Proof. induction l as [|q l IH]; intros a Ha Hl; [exact Ha|]. apply Forall_cons in Hl as [Hq Hl]. cbn. auto with defined. Qed.

Lemma average_defined l : Forall is_Some l -> is_Some (average l).
Proof.
  unfold average. destruct l as [|q l]; [intros _; by eexists|]. set (n := Z.of_nat (length (q :: l))).
  assert (~ (inject_Z n == 0)%Q) as Hn by (change 0%Q with (inject_Z 0); rewrite inject_Z_injective; subst n; cbn [length]; lia).
  clearbody n. generalize (num 0) (num_defined 0). induction (q :: l) as [|v l' IH]; intros a Ha Hl; [exact Ha|].
  apply Forall_cons in Hl as [Hv Hl]. cbn [foldl]. apply IH; [|exact Hl]. apply fadd_defined; [exact Ha|]. by apply fdiv_defined.
Qed.

Lemma averaged_defined name f streams : (forall v, is_Some (f v)) -> Forall is_Some (averaged name f streams).2.
Proof.
  intros Hf. assert (Forall is_Some (f <$> streams)) as Hl by (apply Forall_fmap, Forall_true; exact Hf).
  constructor; [by apply average_defined|exact Hl].
Qed.

Definition row_defined (r : string * list (option Q)) : Prop := Forall is_Some r.2.

Section summary_tables.
Context (to_sec : Q) (s : AbtxProf.prof) (Hsec : ~ (to_sec == 0)%Q) (Helapsed : i64 (stop_prof_time s - start_prof_time s) ≠ 0).

Lemma elapsed_nonzero : ~ (inject_Z (i64 (stop_prof_time s - start_prof_time s)) * to_sec == 0)%Q.
Proof using Hsec Helapsed.
  intros [H|H]%Qmult_integral; [|by apply Hsec]. change 0%Q with (inject_Z 0) in H. rewrite inject_Z_injective in H. by apply Helapsed.
Qed.

Lemma streams_defined rs streams : Forall row_defined (rows (summary_streams to_sec s rs streams)).
Proof using Hsec Helapsed.
  unfold summary_streams, elapsed_time. cbn [rows]. pose proof elapsed_nonzero.
  repeat constructor; try (apply average_defined, Forall_fmap, Forall_true); try (apply Forall_fmap, Forall_true); intros v; cbn [compose]; auto with defined.
Qed.

Lemma created_defined rs sums : Forall row_defined (rows (summary_created to_sec s rs sums)).
Proof using Hsec Helapsed.
  assert (Forall is_Some (created_row sums)) as Hc.
  { assert (Forall is_Some ((fun v => num (nth_event v (event_index THREAD_CREATE))) <$> sums)) as Hl by (apply Forall_fmap, Forall_true; intros; apply num_defined).
    constructor; [apply sum_defined; [apply num_defined|exact Hl]|exact Hl]. }
  constructor; [exact Hc|]. constructor; [|constructor]. unfold row_defined. cbn [snd]. apply Forall_fmap. eapply Forall_impl; [exact Hc|].
  intros q Hq. cbn. unfold elapsed_time. apply fdiv_defined; [apply elapsed_nonzero|exact Hq].
Qed.
End summary_tables.

Lemma threads_defined to_sec streams : Forall row_defined (rows (summary_threads to_sec streams)).
Proof. unfold summary_threads, time_row, count_row. cbn [rows]. repeat constructor; auto with defined; cbn; by eexists. Qed.

(** ** What is read *)

Lemma merge_at_length s x n sums sums' : merge_at s x n sums = Some sums' -> length sums' = length sums.
Proof.
  unfold merge_at. destruct (sums !! n) as [out|]; [|done]. cbn. destruct (ABTXI_prof_merge_xstream_info s x out); [|done].
  intros [= <-]. by rewrite length_insert.
Qed.

Lemma merge_ranks_length s xs : forall n sums sums', merge_ranks s n xs sums = Some sums' -> length sums' = length sums.
Proof.
  induction xs as [|x xs IH]; intros n sums sums'; cbn [merge_ranks]; [by intros [= <-]|].
  destruct (merge_at s x n sums) as [m|] eqn:E; [|done]. intros H%IH. by rewrite H, (merge_at_length _ _ _ _ _ E).
Qed.

Lemma merge_external_length s xs : forall n sums sums', merge_external s n xs sums = Some sums' -> length sums' = length sums.
Proof.
  induction xs as [|x xs IH]; intros n sums sums'; cbn [merge_external]; [by intros [= <-]|].
  destruct (merge_at s x n sums) as [m|] eqn:E; [|done]. intros H%IH. by rewrite H, (merge_at_length _ _ _ _ _ E).
Qed.

(** A summary for each rank, and one for the threads outside. *)
Lemma read_pass_length s1 s2 s3 rs sums fail : read_pass s1 s2 s3 = Some (rs, sums, fail) -> length sums = S (length rs).
Proof.
  unfold read_pass. destruct (collect_ranks s1) as [l|]; [|done]. cbn [mbind option_bind]. destruct (external_threads _ _ _) as [ext|]; [|done]. cbn [mbind option_bind].
  destruct (read_tags s1 _) as [t1|]; [|done]. cbn [mbind option_bind]. destruct (merge_ranks _ _ _ _) as [m|] eqn:E1; [|done]. cbn [mbind option_bind].
  destruct (merge_external _ _ _ _) as [m'|] eqn:E2; [|done]. cbn [mbind option_bind]. destruct (read_tags s3 _) as [t3|]; [|done]. cbn [mbind option_bind].
  intros [= <- <- _]. rewrite (merge_external_length _ _ _ _ _ E2), (merge_ranks_length _ _ _ _ _ E1), length_replicate, length_fmap. lia.
Qed.

Lemma read_loop_length obs rs sums : read_loop obs = Some (rs, sums) -> length sums = S (length rs).
Proof.
  induction obs as [|[[s1 s2] s3] obs IH]; cbn [read_loop]; [done|]. destruct (read_pass s1 s2 s3) as [[[rs' sums'] fail]|] eqn:E; [|done].
  cbn [mbind option_bind]. destruct fail; [exact IH|]. intros [= -> ->]. by eapply read_pass_length.
Qed.

Section read.
Context (to_sec : Q) (s : AbtxProf.prof) (rs : list Z) (sums : list xstream_data) (Hlen : length sums = S (length rs)).

Lemma streams_wf : wf_table (summary_streams to_sec s rs (take (length rs) sums)).
Proof using Hlen. repeat constructor; cbn; rewrite !length_fmap, length_take; lia. Qed.

Lemma created_wf : wf_table (summary_created to_sec s rs sums).
Proof using Hlen. repeat constructor; cbn; rewrite ?length_fmap, length_app, !length_fmap; cbn; lia. Qed.

Lemma threads_wf : wf_table (summary_threads to_sec (take (length rs) sums)).
Proof. repeat constructor. Qed.
End read.

(** Every table of a summary has a value for each of its columns, and every value is
    a number. *)
Lemma summary_tables_ok to_sec s obs tables : ABTXI_prof_print_xstream_info to_sec s obs (Z.lor ABTX_PRINT_MODE_SUMMARY ABTX_PRINT_MODE_FANCY) = Some tables ->
  ~ (to_sec == 0)%Q -> i64 (stop_prof_time s - start_prof_time s) ≠ 0 ->
  (length tables <= 3)%nat /\ Forall (fun t => wf_table t /\ Forall row_defined (rows t)) tables.
Proof.
  intros Ht Hsec Hel. unfold ABTXI_prof_print_xstream_info in Ht. destruct (read_loop obs) as [[rs sums]|] eqn:Hr; [|done]. cbn [mbind option_bind] in Ht.
  apply read_loop_length in Hr. change (Z.testbit _ 0) with false in Ht. change (Z.testbit _ 1) with true in Ht. injection Ht as <-.
  destruct (prof_mode s =? _); (split; [cbn; lia|]);
    repeat (apply Forall_cons; split; [split; [first [by apply streams_wf|by apply created_wf|by apply threads_wf]|first [by apply streams_defined|by apply created_defined|by apply threads_defined]]|]);
    apply Forall_nil_2.
Qed.

(** A value is in the range of [double], unless it is undefined. *)
Definition in_range (v : option Q) : Prop := is_Some v -> is_double v.

(** C39: When the clock advanced between the start and the stop of the profiler, every
    table of the summary is printed: the search for digits ends for each value, each
    text fits the buffer of the cell, and all the lines of a table, one for its
    columns and one for each row, have the same length. *)
Theorem summary_printed_aligned to_sec s obs tables :
  ABTXI_prof_print_xstream_info to_sec s obs (Z.lor ABTX_PRINT_MODE_SUMMARY ABTX_PRINT_MODE_FANCY) = Some tables ->
  ~ (to_sec == 0)%Q -> i64 (stop_prof_time s - start_prof_time s) ≠ 0 ->
  Forall (fun t => Forall (fun r : string * list (option Q) => Forall in_range r.2) (rows t)) tables ->
  exists texts, print_tables (Z.lor ABTX_PRINT_MODE_SUMMARY ABTX_PRINT_MODE_FANCY) tables = Some texts /\
    Forall2 (fun t lines => length lines = S (length (rows t)) /\ exists n, Forall (fun l => String.length l = n) lines) tables texts.
Proof.
  intros Ht Hsec Hel Hrange. destruct (summary_tables_ok _ _ _ _ Ht Hsec Hel) as [Hlen Hok]. unfold print_tables.
  change (Z.testbit _ 2) with false. cbn match. unfold same_digits. change (Z.testbit _ 0) with false. cbn match. generalize (Z.to_nat 9999). intros same.
  assert (length tables <= length [0; 1; same])%nat as Hl by exact Hlen. revert Hl. generalize [0; 1; same]%nat. clear Ht Hlen.
  induction tables as [|t tables IH]; intros l Hl; [exists []; split; [done|constructor]|]. destruct l as [|same0 l]; [cbn in Hl; lia|].
  apply Forall_cons in Hok as [[Hwf Hdef] Hok], Hrange as [Hr Hrange]. destruct (IH Hrange Hok l) as (texts & E & Hall); [cbn in Hl; lia|].
  destruct (table_printed t same0) as [lines Hlines].
  { rewrite Forall_forall in Hdef, Hr |- *. intros r Hin. specialize (Hdef r Hin). specialize (Hr r Hin). unfold row_defined in Hdef.
    rewrite Forall_forall in Hdef, Hr |- *. intros v Hv. by apply Hr, Hdef. }
  exists (lines :: texts). split; [|constructor; [by eapply lines_aligned|exact Hall]].
  cbn [zip_with mapM fst snd]. rewrite Hlines. cbn [mbind option_bind]. by rewrite E.
Qed.

Lemma values_in_range (t : list data_table) :
  forallb (fun t => forallb (fun r : string * list (option Q) => forallb (fun v => match v with Some q => Qle_bool (Qabs q) (inject_Z (2 ^ 1024)) | None => true end) r.2) (rows t)) t = true ->
  Forall (fun t => Forall (fun r : string * list (option Q) => Forall in_range r.2) (rows t)) t.
Proof.
  intros H. apply Forall_forall. intros d Hd. rewrite forallb_forall in H. specialize (H d (proj1 (list_elem_of_In _ _) Hd)).
  apply Forall_forall. intros r Hr. rewrite forallb_forall in H. specialize (H r (proj1 (list_elem_of_In _ _) Hr)).
  apply Forall_forall. intros v Hv. rewrite forallb_forall in H. specialize (H v (proj1 (list_elem_of_In _ _) Hv)).
  intros [q ->]. by apply Qle_bool_iff in H.
Qed.

Lemma summary_printed_aligned_witness : exists tables texts,
  ABTXI_prof_print_xstream_info (1 # 1000) demo_state [(demo_state, demo_state, demo_state)] (Z.lor ABTX_PRINT_MODE_SUMMARY ABTX_PRINT_MODE_FANCY) = Some tables /\
  print_tables (Z.lor ABTX_PRINT_MODE_SUMMARY ABTX_PRINT_MODE_FANCY) tables = Some texts /\
  Forall2 (fun t lines => length lines = S (length (rows t)) /\ exists n, Forall (fun l => String.length l = n) lines) tables texts.
Proof.
  destruct (ABTXI_prof_print_xstream_info (1 # 1000) demo_state [(demo_state, demo_state, demo_state)] (Z.lor ABTX_PRINT_MODE_SUMMARY ABTX_PRINT_MODE_FANCY)) as [tables|] eqn:E;
    [|vm_compute in E; discriminate].
  exists tables. destruct (summary_printed_aligned (1 # 1000) demo_state [(demo_state, demo_state, demo_state)] tables E) as (texts & Ht & Hl).
  - discriminate.
  - vm_compute. discriminate.
  - apply values_in_range. vm_compute in E. injection E as <-. vm_compute. reflexivity.
  - exists texts. split; [reflexivity|]. split; [exact Ht|exact Hl].
Defined.

(** ** What goes wrong *)

(** When the clock did not advance, the events per second are infinite or not a
    number: the text of the summary is undefined, and the search for the digits of
    an infinite value does not end. *)
Theorem zero_elapsed_undefined to_sec s obs rs sums : read_loop obs = Some (rs, sums) -> rs ≠ [] -> i64 (stop_prof_time s - start_prof_time s) = 0 ->
  exists tables, ABTXI_prof_print_xstream_info to_sec s obs (Z.lor ABTX_PRINT_MODE_SUMMARY ABTX_PRINT_MODE_FANCY) = Some tables /\
    print_tables (Z.lor ABTX_PRINT_MODE_SUMMARY ABTX_PRINT_MODE_FANCY) tables = None.
Proof.
  intros Hr Hne Hel. unfold ABTXI_prof_print_xstream_info. rewrite Hr. cbn [mbind option_bind]. change (Z.testbit _ 0) with false. change (Z.testbit _ 1) with true. cbn match.
  eexists. split; [reflexivity|]. unfold print_tables. change (Z.testbit _ 2) with false. unfold same_digits. change (Z.testbit _ 0) with false. cbn match.
  cbn [zip_with mapM fst snd]. assert (ABTXI_prof_print_table_fancy (summary_streams to_sec s rs (take (length rs) sums)) 0 = None) as ->; [|reflexivity].
  unfold ABTXI_prof_print_table_fancy. destruct (mapM _ _) as [cells|] eqn:E; [exfalso|reflexivity]. apply mapM_Some in E. apply read_loop_length in Hr.
  destruct rs as [|r rs]; [done|]. destruct sums as [|v sums]; [done|]. cbn [length take] in E.
  pose proof (Forall2_lookup_l _ _ _ 3%nat _ E eq_refl) as (l & _ & Hl). unfold row_texts in Hl. destruct (row_digit 0 _) as [d|]; [|done]. cbn [mbind option_bind] in Hl.
  apply mapM_Some in Hl. pose proof (Forall2_lookup_l _ _ _ 1%nat _ Hl eq_refl) as (c & _ & Hc). cbn [fst snd] in Hc.
  unfold cell_text, elapsed_time in Hc. rewrite Hel in Hc. unfold fdiv in Hc. cbn [mbind option_bind num] in Hc.
  rewrite (proj2 (Qeq_bool_iff (inject_Z 0 * to_sec) 0)) in Hc by (change (inject_Z 0) with 0%Q; ring). done.
Qed.
